(* ===== verification/_CoqProject ===== *)
-Q . S2P
Prelude.v
Ctypes.v
Vmlinux.v
Abi.v
Kernel.v
Logic.v
KernelTypes.v
Sampling.v
Fixture.v
TlsState.v
Emit.v
EmitProps.v
SamplingProps.v
Conn.v
Lifecycle.v
Calls.v
Probes.v
Ktls.v
GoTls.v
CallSites.v
KernelObjects.v
Proc.v
Wire.v
System.v
Typed.v
Spec.v
Numbering.v
Accounting.v
Progress.v
Guard.v
Pending.v
Memory.v
Queues.v
Text.v
Http1.v
Http1Props.v
Http1Bodies.v
Http1Framing.v
Http2.v
Http2Props.v
Hpack.v
Codecs.v
CodecsProps.v
Mcp.v
Reader.v
ReaderProps.v
H2Conn.v
H2Pairing.v
Shard.v
Handle.v
ShardMem.v
ShardSweep.v
ShardBooks.v
Sharded.v
ShardRel.v
ShardLocal.v
Exchange.v
ShardRuns.v
ShardedProps.v
Event.v
Export.v
Ingest.v
Delivery.v
ExportInv.v
ExportProps.v
Output.v
WireEvent.v
Redaction.v
RedactionProps.v
SecretProps.v
Identity.v
BatchProps.v
Builder.v
Containers.v
ContainersProps.v
Dns.v
EventLoop.v
BuilderProps.v
EventLoopProps.v
ProducerStats.v
