(* ===== verification/Prelude.v ===== *)
(** Verification of the API sensor: its kernel program [src/bpf/http_trace.bpf.c], the kernel types it
    reads in [src/bpf/vmlinux.h], and the Rust process that turns its records into exported batches.

    The sensor captures the plaintext of TLS traffic. Its eBPF object is attached to the TLS
    libraries, the socket layer, exec and the connect hook; it writes records to three ring buffers
    that a Rust process ([src/userspace/src]) decodes, files by connection and turns into API
    events. All functions of the C file are modelled; of the header, the structures the program
    reads with everything they embed; of the Rust process, the decoders of the records, the parsers
    of HTTP/1, HTTP/2, WebSocket, gRPC and HTTP/3, the queues of requests with their memory
    ceiling, and the shards of the reader, which take a record from its decoder through the
    recognition of its protocol and the parsers to a request with its response, expire what waits
    too long, and forget what is closed; then the way of such an exchange out of the host: the event
    built of it, with identity, anomaly features and every text redacted, the sampling, the export
    queue with its byte budget, the batches, their delivery and the wire format; the resolvers of
    containers and peers beside it; and the poll loop that drives all of it.

    * The program and its files

    - Prelude: machine integers with their wrap-around, bytes, C comparisons, record update,
      shared automation.
    - Ctypes: C types as data, with the size, alignment and member offsets the x86-64 ABI gives
      them, bit-fields and anonymous members included.
    - Vmlinux: the declarations of [vmlinux.h], one definition each
      ([struct_sock], [typedef_size_t], [enum_iter_type], ...), in the order of their dependencies:
      sockets and files, tasks, network namespaces, arguments of hooked functions.
    - Abi: constants, structs, maps, arrays and rings of the C file, under their names there.
    - Kernel: the platform. A handler is a tree of helper calls ([prog]); [handle] says what each
      helper does to the kernel state ([kstate]) under an environment ([env]) that holds what the
      program does not control: user and kernel memory, evictions and errors of the LRU maps, room
      in the rings, clocks, the current task. [run] executes a handler in one environment.
    - Logic: lemmas on [run], and [wp], a logic for all paths of a handler under a [watcher].
    - KernelTypes: the members the program reads, as paths into the types of [vmlinux.h].
    - Fixture: a concrete environment and state, used where a theorem is applied to an example.
    - TlsState: [ssl_key_for], [remember_ssl_owner], [current_proc_start_ns], [count_stat],
      [next_seq].
    - Sampling, SamplingProps: [find_path_start], [should_sample_out].
    - Emit, EmitProps: [fill_event_hdr], [emit_event_dynptr], [emit_event].
    - Conn, Lifecycle: [fill_conn_info], [tcp_connect_entry], [tcp_accept_ret], [tcp_close_entry],
      [ssl_set_fd_entry], [ssl_free_entry].
    - Calls: the interface [CallProbe] of an entry/exit pair. Probes (OpenSSL, BoringSSL, GnuTLS,
      NSS, QUIC), Ktls and GoTls are its instances, CallSites its client: the properties of the
      fourteen instrumented calls are proved from the interface.
    - KernelObjects: sockets and messages in memory, and what the probes make of them.
    - Proc: [handle_new_process], [lsm_socket_connect].
    - Wire: C struct layout, the interface [ReprC] of a record both sides declare, and the
      decoders of [types.rs] and [main.rs].
    - System: all handlers together, interleaved on several CPUs ([step], [reachable]), and the
      rule [inv_sound] that turns a watcher into an invariant.
    - Spec, Numbering: the abstract sensor, the refinement, and the numbering of its log.
    - Accounting, Progress, Guard, Typed: properties of every path and interleaving.
    - Pending, Memory, Queues: [PendingBytes], [PendingQueue], [PendingStreams] and
      [InflightResponses] of [stream.rs], the interface [Holder] they share, and their heap.
    - Text: what the Rust code uses of strings (UTF-8 strict and lossy, trimming, splitting,
      numbers), over lists of code points.
    - Http1, Http1Props, Http1Bodies, Http1Framing: [http.rs], the incremental decoder of a
      direction, a round of its loop as a step ([feed_step]).
    - Http2, Http2Props, Hpack: [http2.rs], frames, header blocks and the validation
      in front of the HPACK decoder.
    - Codecs, CodecsProps: [websocket.rs], [grpc.rs], [quic.rs].
    - Reader, ReaderProps: [StreamKey], [ConnKey] and [evict_connection_by_ptr].
    - H2Conn, H2Pairing: [process_http2_event] and [finish_h2_response] of [stream.rs].
    - Mcp: [mcp.rs].
    - Shard: [StreamState] of [stream.rs], the monad [handler] of what its methods do, and how it
      recognises a payload; [evict_stale], [take_all_incomplete]. Handle: [handle_event], part by part
      in the order of the code. Sharded: [ShardedStreamState], the calls of the event loop, and records
      for examples.
    - ShardMem: what it means that a handler keeps the books ([wp], [neutral], [sound]). ShardSweep,
      ShardBooks: every part of Shard and Handle does. ShardedProps: so does every run.
    - ShardRel: relations every handler keeps when its steps do ([does]), and one of them, the gauge of
      the connections. ShardLocal: another one, what is kept for other connections.
    - Exchange, ShardRuns: whole runs of [handle_event] and [take_all_incomplete] in closed form, and
      runs in which the code does not do what it means to.
    - Event: [ApiTrafficEvent] of [types.rs] with what it is charged, and [TransactionSampler].
    - Redaction: [redaction.rs]. RedactionProps: the passes of [redact_pii_marked]. SecretProps: check
      digits, names of fields, cookies.
    - Identity: [identity.rs]. Builder: [build_event], [build_incomplete_event] and what [handle_event] adds to
      their events; [split_query]. BuilderProps: what an event tells about cookies.
    - Export: [export.rs], the interface [Channel] of a bounded channel, the counters of the export.
      Ingest: [ingest.rs] and the health of [metrics.rs]. Delivery: senders,
      queue and the batch task of [main.rs] as a machine ([step]); a step is one atomic operation.
      ExportInv: its invariants. ExportProps: what follows from them.
    - Output: dates, identifiers and encodings of [output.rs]. WireEvent,
      BatchProps: [event_to_value] and [to_sensor_batch].
    - Containers, ContainersProps: [container.rs] with the task that answers its lookups.
    - Dns: [dns.rs] with the task that resolves.
    - EventLoop, EventLoopProps: the callbacks, the sweep and the shutdown of [main.rs] over the shards,
      and [aggregate_producer_stats]. ProducerStats: the counters of Accounting as it exports them.

    Each C function is a definition of the same name. A part of a function that is shared or long
    has a definition of its own ([hdr_init], [sampled_out], [dynptr_copy], [record_connection],
    [sock_of_fd], [end_generation], [send_close], [scan_rules], ...). Next to the code stands its
    closed form, named [..._spec], with the lemma [run_...] that proves them equal; properties are
    proved on closed forms. A method of a Rust type is named after the type: [pq_push] is
    [PendingQueue::push], [ps_] and [is_] stand for the two maps, [pb_] for [PendingBytes].

    * What is shown

    - Refinement. Over any sequence of probe firings with room in maps and rings, the published
      records are exactly the reports of an abstract sensor that remembers calls and counts
      traffic ([Spec.sensor_refines_spec]); on each object they are numbered in order and a gap is
      a call whose buffer could not be read ([Numbering.records_are_numbered], for handlers that do not overlap).
    - Every interleaving. Attempts and outcomes balance on every CPU and reservations are
      released ([Accounting.loss_accounting_conserved]); every record of every ring decodes
      ([Guard.every_record_decodes]); no thread or process changes what another one saved, and
      records name their caller ([Guard]). Sequence numbers are not unique when two CPUs report on
      one object at once ([Numbering]).
    - Kernel memory. Every read follows a non-null pointer of the right struct and has the size of
      the member, but for a cast in each of two handlers that is taken on trust ([Typed.casts_of]); the members exist and are apart ([KernelTypes]); the tuple filed for a
      connection is the socket's, and which kernel-TLS calls are seen depends on the iterator of
      the call ([KernelObjects]).
    - Termination and results of every handler ([Accounting.handlers_terminate]), and the machine
      drains under every scheduler ([Progress.handlers_drain]).
    - Emission: one outcome per attempt, payload and header of a published record, failed copies,
      agreement of the two ring-buffer paths, no stale memory, attribution, sequence numbers
      ([EmitProps]).
    - Calls: a completed call of any library is reported once with its own bytes, where maps and ring have room
      and nothing is sampled out; failed, unpaired, nested and Go calls, and counts that are cut ([CallSites]).
    - Objects and connections: association, close, free and reuse of a pointer ([Lifecycle]).
    - Sampling: protected requests are never dropped, a rate keeps its share ([SamplingProps]).
    - Processes and the block list ([Proc]).
    - Layout and decoding: round trip of a header, bounds of the decoder, and the path from user
      memory to the decoded payload ([Wire]).
    - The reader: memory is charged exactly and within the ceiling ([Memory]), requests leave
      their queues once and in order ([Queues]), a close reports and releases what its connection
      held, and names exactly the records of the generation it ends ([ReaderProps]).
    - HTTP/1: the cuts between reads do not matter ([Http1Props]); a pipeline of well-framed messages
      is decoded one for one, and any input within bounds ([Http1Bodies]); the framing of an accepted
      request is the one all its length fields state ([Http1Framing]).
    - HTTP/2: the cuts between reads do not matter, and frames are handled once and in order
      ([Http2Props]); what a direction holds is bounded ([Http2Props]); the HPACK validation is the
      grammar ([Hpack]). A connection is charged for exactly what it holds ([H2Conn]), pairs a
      response with the request of its own stream, and an exchange emits one event and leaves
      nothing behind ([H2Pairing]).
    - WebSocket and HTTP/3 frames come back as they were sent ([CodecsProps]).
    - Runs of the reader. Over any sequence of records, closes, sweeps and shutdowns, on any shards, the
      memory counter is what the shards hold, within the ceiling, and the gauge of the connections is
      how many they know ([ShardedProps]). A request and its response, each whole in a record, become one
      event ([Exchange]); the HTTP/1 parser joins nothing across bytes the kernel did not capture ([ShardRuns]); a record changes nothing that
      is kept for other connections ([ShardLocal]); the shutdown reports every request that waits
      ([ShardRuns]).
    - The loop: whatever bytes the rings carry, the shards do the calls of the well-formed records, each
      exchange becomes one event, and an event is offered to the export or counted as sampled
      ([EventLoopProps]). Five of the six counters of the kernel are exported as they are, and balance,
      as far as they can be read ([ProducerStats]).
    - Export. In every interleaving of senders and batch task the queue keeps its budget, every event is
      counted once as sent or dropped or is still on its way, accepted events are delivered in order, a
      batch is stored at most once, and the task, ticks of its timer apart, has finitely many steps to make when the
      senders are gone ([ExportProps]).
    - Privacy. The value patterns replace parts of a text by tokens of exactly these parts and never
      touch a token again ([RedactionProps]); check digits catch typing errors, escapes do not hide the
      name of a field that a pattern has captured, the values of named cookies become tokens ([SecretProps]); and a
      whole event depends on these values, of requests and of responses, through their keyed hashes only
      ([BuilderProps]).
    - The wire. Dates are those of the calendar ([Output]), base64 comes back in both alphabets
      ([Identity]), the members of an event are distinct, and a batch can be taken apart into the
      events it was made of ([BatchProps]).
    - Surroundings. Paths of containers parse in the layouts of cgroupfs and systemd, slices named [pod...] excepted
      ([ContainersProps.layout_ok]); a workload is looked up once at a time ([ContainersProps]); a peer waits for one
      answer at a time, the cache serves it as long as it promises, and at most eight threads resolve ([Dns]).

    * Bounds

    The unrolled loops of the C code recurse on the number of their iterations: 8 bytes in
    [find_path_start], 16 rules in [scan_rules]. Nothing else loops. Every handler makes at most
    64 helper calls, which is proved, so [run] is total without fuel. The loops of the reader's
    queues are structural on the lists they visit. The loops of the parsers recurse on fuel: a round
    of the HTTP/1 decoder takes a byte or leaves a body that has none left, so twice the bytes and
    two rounds suffice ([Http1Props.feed_loop_enough]); a frame of HTTP/2 takes nine bytes, an HPACK
    entry, a field of protobuf, a QPACK line and an HTTP/3 frame at least one, so the number of bytes
    suffices ([Http2Props.run_frames_unfold], [Hpack.validate_from_spec]). The loop over the WebSocket
    frames of a chunk and the recognition of HTTP/2 connection frames take at least a byte a round, and
    the number of bytes, or one more, is their fuel. Layouts recurse on types. From the event on, loops
    are structural: [send_attempts] recurses on the attempts left, the digits of a number on a count
    that is enough for 64 bits, everything else on lists. That the batch task ends is proved of its
    steps ([ExportProps.export_drains]).

    * Assumptions

    - A CPU runs one handler at a time, to its end; handlers of different CPUs interleave between
      helper calls. A value found in a map is read when it is looked up, except the members of
      [struct ssl_state] and the counters, whose loads and stores are calls of their own.
    - [run], and with it every theorem that is not about [reachable], describes handlers that run
      one after the other, each in one environment; [System.run_reaches] places these runs among
      the schedules of the machine.
    - An LRU map may evict any entries when it inserts, and an insertion may fail; no bound on the
      size of a map is used.
    - [cfg_use_dynptr] and the target architecture are parameters; pointers are 64-bit integers.
      Offsets of kernel members come from the environment, as CO-RE relocations do;
      [KernelTypes.local_offsets] says that the running kernel is the one of [vmlinux.h], and only
      the theorems on the contents of kernel objects assume it.
    - The hooked functions pass the pointers their C prototypes name, and the two the code does not
      test are never null ([Typed.context_ok]).
    - Operations on the reader's queues happen one after the other. They are atomic in the code: a
      shard works under its mutex, and the counter the shards share is only changed by atomic
      updates. A run of the reader is a list of calls, each to its end ([Sharded]); calls on
      different shards can overlap in the code, and then share the counter and the metrics only.
    - The hash that picks a shard, the JSON library ([Mcp.Json]), the clock, the network context of a
      record and the namespace of its workload are parameters or arguments.
    - A channel of tokio is a bounded queue ([Export.Channel]: what is in it, its capacity, sending and
      receiving). Its operations and those on the budget and the metrics are atomic, and are the steps of
      the export machine. [reqwest] answers with a status, a [Retry-After] header and a body, or fails
      before or after it connected; gzip and the JSON printer are functions that may fail.
    - What a regular expression matches is a parameter ([Redaction.Regex]) with two laws, that the matches
      are in order and inside the text; so are HMAC-SHA256 (a function of the value under the key of the
      process), the case mapping of [char], [DefaultHasher], the element a [HashSet] yields first, and the
      floating-point values of the anomaly features.
    - The answers of the kernel to [lookup_percpu], of the cgroup tree and [/proc], of the container
      runtime and of the resolver of names are arguments of the steps that read them.
    - The [hpack] crate is a parameter: a table and a function from a table and a block to fields
      (or an error, or a panic) and the next table. Lower-casing of characters beyond ASCII is one
      too ([Text.Unicode]). A [HashMap] of headers is an association list with one value per name.
    - What a bit string means beyond the sensor (the identity of a process after its pid is reused)
      is outside the model.

    * Not modelled

    Of [vmlinux.h], the declarations that no structure read by the program embeds: most of its
    150,000 lines. Of the Rust process: the loader and the attachment and discovery of probes, the
    command line, the walk over the cgroup tree, the protocol of the container runtime, the resolver of
    names and the reading of [/proc], which are calls of the system; the regular expressions, which
    belong to a library that is not here; the text of the Prometheus endpoint and its server; logging;
    and the older one-shot parsers of [http.rs] and [http2.rs] and [build_ws_event], which nothing but
    tests and fuzzers calls. Neither are tests, deployment files and scripts. *)

From Stdlib Require Export ZArith Lia List.
From Stdlib Require Export Strings.Byte.
From stdpp Require Export base tactics numbers list gmap decidable.
From stdpp Require Export options.

#[global] Open Scope Z_scope.

(** * Machine integers

    The C program computes with fixed-width integers. A value is a [Z]; the conversions below
    write the wrap-around of a C cast out. *)

Definition wrap (w : Z) (z : Z) : Z := z mod 2 ^ w.

Arguments wrap : simpl never.

Notation u8 := (wrap 8).
Notation u16 := (wrap 16).
Notation u32 := (wrap 32).
Notation u64 := (wrap 64).

(** A cast to a signed [w]-bit type keeps the low [w] bits and reads them in two's complement. *)
Definition sext (w : Z) (z : Z) : Z := (z + 2 ^ (w - 1)) mod 2 ^ w - 2 ^ (w - 1).

Arguments sext : simpl never.

Notation i32 := (sext 32).
Notation i64 := (sext 64).

Lemma wrap_range w z : 0 <= w → 0 <= wrap w z < 2 ^ w.
Proof. intros Hw. apply Z.mod_pos_bound, Z.pow_pos_nonneg; lia. Qed.

Lemma wrap_small w z : 0 <= z < 2 ^ w → wrap w z = z.
Proof. apply Z.mod_small. Qed.

Lemma wrap_wrap w z : 0 <= w → wrap w (wrap w z) = wrap w z.
Proof. intros Hw. apply wrap_small, wrap_range, Hw. Qed.

Lemma wrap_add_wrap w a b : wrap w (wrap w a + b) = wrap w (a + b).
Proof. apply Zplus_mod_idemp_l. Qed.

Lemma sext_small w z : 1 <= w → - 2 ^ (w - 1) <= z < 2 ^ (w - 1) → sext w z = z.
Proof.
  intros Hw Hz. unfold sext.
  assert (2 ^ w = 2 * 2 ^ (w - 1)) as E.
  { rewrite <- Z.pow_succ_r by lia. f_equal. lia. }
  rewrite Z.mod_small; lia.
Qed.

Lemma sext_range w z : 1 <= w → - 2 ^ (w - 1) <= sext w z < 2 ^ (w - 1).
Proof.
  intros Hw. unfold sext.
  assert (2 ^ w = 2 * 2 ^ (w - 1)) as E.
  { rewrite <- Z.pow_succ_r by lia. f_equal. lia. }
  pose proof (Z.mod_pos_bound (z + 2 ^ (w - 1)) (2 ^ w)).
  pose proof (Z.pow_pos_nonneg 2 (w - 1)). lia.
Qed.

(** * Bytes and little-endian fields *)

Definition byte_of_Z (z : Z) : byte :=
  match Byte.of_N (Z.to_N (z mod 256)) with Some b => b | None => x00 end.

Definition byte_val (b : byte) : Z := Z.of_N (Byte.to_N b).

#[export] Instance byte_eq_dec : EqDecision byte := Byte.byte_eq_dec.

Lemma byte_val_range b : 0 <= byte_val b < 256.
Proof. unfold byte_val. pose proof (Byte.to_N_bounded b). lia. Qed.

Lemma byte_val_of_Z z : byte_val (byte_of_Z z) = z mod 256.
Proof.
  unfold byte_val, byte_of_Z.
  pose proof (Z.mod_pos_bound z 256 ltac:(lia)) as Hz.
  destruct (Byte.of_N (Z.to_N (z mod 256))) as [b|] eqn:E.
  - apply Byte.to_of_N in E. rewrite E. lia.
  - apply Byte.of_N_None_iff in E. lia.
Qed.

Lemma byte_of_Z_val b : byte_of_Z (byte_val b) = b.
Proof.
  unfold byte_of_Z. rewrite Z.mod_small by apply byte_val_range.
  unfold byte_val. rewrite N2Z.id, Byte.of_to_N. done.
Qed.

(** [n] bytes of [z], least significant first: the store of an [n]-byte integer on the
    little-endian targets the object is built for. *)
Fixpoint le_bytes (n : nat) (z : Z) : list byte :=
  match n with
  | O => []
  | S n' => byte_of_Z z :: le_bytes n' (z / 256)
  end.

Fixpoint le_val (bs : list byte) : Z :=
  match bs with
  | [] => 0
  | b :: bs' => byte_val b + 256 * le_val bs'
  end.

Lemma length_le_bytes n z : length (le_bytes n z) = n.
Proof. revert z. induction n as [|n IH]; intros z; cbn; [done|]. by rewrite IH. Qed.

Lemma le_val_le_bytes n z : le_val (le_bytes n z) = wrap (8 * Z.of_nat n) z.
Proof.
  revert z. induction n as [|n IH]; intros z.
  - cbn. unfold wrap. by rewrite Z.mod_1_r.
  - cbn [le_bytes le_val]. rewrite IH, byte_val_of_Z. unfold wrap.
    replace (8 * Z.of_nat (S n)) with (8 + 8 * Z.of_nat n) by lia.
    rewrite Z.pow_add_r by lia. change (2 ^ 8) with 256.
    rewrite Z.rem_mul_r; [lia | lia | apply Z.pow_pos_nonneg; lia].
Qed.

Lemma le_val_range bs : 0 <= le_val bs < 2 ^ (8 * Z.of_nat (length bs)).
Proof.
  induction bs as [|b bs IH]; [cbn; lia|].
  cbn [le_val length]. pose proof (byte_val_range b).
  replace (8 * Z.of_nat (S (length bs))) with (8 + 8 * Z.of_nat (length bs)) by lia.
  rewrite Z.pow_add_r by lia. change (2 ^ 8) with 256. nia.
Qed.

Lemma le_bytes_le_val bs n : length bs = n → le_bytes n (le_val bs) = bs.
Proof.
  intros <-. induction bs as [|b bs IH]; [done|].
  cbn [le_bytes le_val length]. pose proof (byte_val_range b). f_equal.
  - rewrite <- (byte_of_Z_val b) at 2. unfold byte_of_Z.
    by rewrite Z.mul_comm, Z.mod_add by lia.
  - rewrite Z.mul_comm, Z.div_add by lia.
    rewrite (Z.div_small (byte_val b)) by lia. by rewrite Z.add_0_l.
Qed.

Lemma le_val_zeros n : le_val (replicate n x00) = 0.
Proof. induction n as [|n IH]; [done|]. cbn. by rewrite IH. Qed.

(** * Lists indexed by a C integer *)

(** [data[i]] for an index the caller has bounded. *)
Definition byte_at (data : list byte) (i : Z) : byte := nth (Z.to_nat i) data x00.

(** [memcmp(data, lit, sizeof lit) == 0]. *)
Definition memeq (data lit : list byte) : bool :=
  bool_decide (take (length lit) data = lit).

Definition zlen {A} (l : list A) : Z := Z.of_nat (length l).

Definition zdrop {A} (n : Z) (l : list A) : list A := drop (Z.to_nat n) l.

Definition ztake {A} (n : Z) (l : list A) : list A := take (Z.to_nat n) l.

Arguments zlen : simpl never.
Arguments zdrop : simpl never.
Arguments ztake : simpl never.
Arguments byte_at : simpl never.
Arguments memeq : simpl never.

(** * Field updates

    [r <| f := v |>] is the record [r] with its field [f] set to [v]: a C assignment to one
    member of a struct. A record becomes updatable by an instance of [Fields] that rebuilds it
    from its projections; the setter of a field is computed from that instance. *)

Class Fields (T : Type) := rebuild : T → T.

Class FieldSet {T A : Type} (f : T → A) := set_field : A → T → T.

Ltac derive_field_set :=
  lazymatch goal with
  | |- @FieldSet ?T ?A ?f =>
      let fields := constr:(_ : Fields T) in
      let body := eval hnf in fields in
      lazymatch eval pattern f in body with
      | ?with_f _ => exact (fun (v : A) (r : T) => with_f (fun _ => v) r)
      end
  end.

#[export] Hint Extern 1 (FieldSet _) => derive_field_set : typeclass_instances.

Declare Scope field_scope.
Delimit Scope field_scope with field.
Notation "r <| f := v |>" := (set_field (f := f) v r)
  (at level 1, left associativity, f at next level, v at level 200) : field_scope.
#[global] Open Scope field_scope.

(** * Automation shared by the component files *)

Create HintDb sensor.
#[export] Hint Resolve wrap_range byte_val_range le_val_range : sensor.

(** Split every [if] and [match] of the goal, keeping the equation of the scrutinee. *)
Ltac split_ifs :=
  repeat (case_match; try done).

(** Booleans over [Z] to propositions, everywhere. *)
Ltac zbool :=
  repeat match goal with
         | H : (_ && _)%bool = true |- _ => apply andb_true_iff in H as [? ?]
         | H : (_ || _)%bool = false |- _ => apply orb_false_iff in H as [? ?]
         | H : negb _ = true |- _ => apply negb_true_iff in H
         | H : negb _ = false |- _ => apply negb_false_iff in H
         | H : (_ <? _) = true |- _ => apply Z.ltb_lt in H
         | H : (_ <? _) = false |- _ => apply Z.ltb_ge in H
         | H : (_ <=? _) = true |- _ => apply Z.leb_le in H
         | H : (_ <=? _) = false |- _ => apply Z.leb_gt in H
         | H : (_ =? _) = true |- _ => apply Z.eqb_eq in H
         | H : (_ =? _) = false |- _ => apply Z.eqb_neq in H
         end.

Lemma lor_range w a b : 0 <= w → 0 <= a < 2 ^ w → 0 <= b < 2 ^ w → 0 <= Z.lor a b < 2 ^ w.
Proof.
  intros Hw Ha Hb. split; [apply Z.lor_nonneg; lia|].
  assert (Z.lor a b = wrap w (Z.lor a b)) as ->; [|by apply wrap_range].
  unfold wrap. rewrite <- Z.land_ones, Z.land_lor_distr_l, !Z.land_ones by done.
  by rewrite !Z.mod_small.
Qed.

(** * Lists cut at an integer *)

Lemma length_ztake {A} n (l : list A) : 0 <= n → zlen (ztake n l) = Z.min n (zlen l).
Proof. intros Hn. unfold zlen, ztake. rewrite length_take. lia. Qed.

Lemma zlen_nonneg {A} (l : list A) : 0 <= zlen l.
Proof. unfold zlen. lia. Qed.

Lemma zlen_app {A} (l l' : list A) : zlen (l ++ l') = zlen l + zlen l'.
Proof. unfold zlen. rewrite length_app. lia. Qed.

#[export] Hint Resolve zlen_nonneg : sensor.

Lemma zlen_cons {A} (a : A) l : zlen (a :: l) = 1 + zlen l.
Proof. unfold zlen. cbn [List.length]. lia. Qed.

Lemma zdrop_0 {A} (l : list A) : zdrop 0 l = l.
Proof. done. Qed.

Lemma zdrop_all {A} (l : list A) : zdrop (zlen l) l = [].
Proof. unfold zdrop, zlen. apply drop_ge. lia. Qed.

Lemma zdrop_app {A} n (l l' : list A) : n <= zlen l → zdrop n (l ++ l') = zdrop n l ++ l'.
Proof. unfold zdrop, zlen. intros Hn. rewrite drop_app_le; [done|lia]. Qed.

Lemma zdrop_app_ge {A} n (l l' : list A) : 0 <= n → zdrop (zlen l + n) (l ++ l') = zdrop n l'.
Proof.
  unfold zdrop, zlen. intros Hn. rewrite drop_app_ge by lia. f_equal. lia.
Qed.

Lemma zdrop_zdrop {A} n k (l : list A) : 0 <= n → 0 <= k → zdrop k (zdrop n l) = zdrop (n + k) l.
Proof. unfold zdrop. intros. rewrite drop_drop. f_equal. lia. Qed.

Lemma zlen_zdrop {A} n (l : list A) : 0 <= n <= zlen l → zlen (zdrop n l) = zlen l - n.
Proof. unfold zdrop, zlen. rewrite length_drop. lia. Qed.

Lemma ztake_app {A} n (l l' : list A) : n <= zlen l → ztake n (l ++ l') = ztake n l.
Proof. unfold ztake, zlen. intros Hn. apply take_app_le. lia. Qed.

Lemma ztake_app_ge {A} n (l l' : list A) :
  0 <= n → ztake (zlen l + n) (l ++ l') = l ++ ztake n l'.
Proof.
  unfold ztake, zlen. intros Hn. rewrite take_app_ge by lia. f_equal. f_equal. lia.
Qed.

Lemma ztake_ge {A} n (l : list A) : zlen l <= n → ztake n l = l.
Proof. unfold ztake, zlen. intros Hn. apply take_ge. lia. Qed.

Lemma ztake_min {A} n (l : list A) : ztake (Z.min (zlen l) n) l = ztake n l.
Proof.
  unfold ztake, zlen. rewrite <- (firstn_all l) at 3. rewrite take_take. f_equal. lia.
Qed.

Lemma ztake_exact {A} (l l' : list A) n : zlen l = n → ztake n (l ++ l') = l.
Proof. intros <-. by rewrite ztake_app, ztake_ge by lia. Qed.

Lemma zdrop_exact {A} (l l' : list A) n : zlen l = n → zdrop n (l ++ l') = l'.
Proof. intros <-. by rewrite zdrop_app, zdrop_all by lia. Qed.

Lemma zlen_zdrop_le {A} n (l : list A) : zlen (zdrop n l) <= zlen l.
Proof. unfold zlen, zdrop. rewrite length_drop. lia. Qed.

Lemma testbit_high w z i : 0 <= z < 2 ^ w → w <= i → Z.testbit z i = false.
Proof.
  intros Hz Hi. destruct (decide (z = 0)) as [->|]; [apply Z.bits_0|].
  apply Z.bits_above_log2; [lia|]. apply Z.lt_le_trans with w; [apply Z.log2_lt_pow2; lia|done].
Qed.
