(* ===== verification/Ctypes.v ===== *)
(** C types and their layout on x86-64, for the structures of [bpf/vmlinux.h] and of the program.

    A type is data ([ctype]); [layout] computes its size and alignment by the rules of the System V
    ABI, bit-fields included, and [member_at] finds a member by name, looking through anonymous
    structs and unions as C does. *)

From S2P Require Import Prelude.
From stdpp Require Export strings.

#[global] Open Scope Z_scope.

(** * Types *)

(** A member has a name, or is an anonymous aggregate, or is a bit-field (of the given width;
    unnamed ones are padding). *)
Inductive mkind :=
  | Fld (name : string)
  | Anon
  | Bits (name : string) (width : Z).

(** A pointer carries the spelling of what it points to, so that types stay finite. *)
Inductive ctype :=
  | CInt (size : Z)
  | CEnum (tag : string) (values : list (string * Z))
  | CPtr (pointee : string)
  | CArr (t : ctype) (n : Z)
  | CStruct (tag : string) (ms : list (mkind * ctype))
  | CUnion (tag : string) (ms : list (mkind * ctype)).

Definition c_bool := CInt 1.
Definition c_char := CInt 1.
Definition c_schar := CInt 1.
Definition c_uchar := CInt 1.
Definition c_short := CInt 2.
Definition c_ushort := CInt 2.
Definition c_int := CInt 4.
Definition c_uint := CInt 4.
Definition c_long := CInt 8.
Definition c_ulong := CInt 8.
Definition c_llong := CInt 8.
Definition c_ullong := CInt 8.

(** * Layout *)

Definition up (z a : Z) : Z := (z + a - 1) / a * a.

(** Where a member of [bits] bits goes when [pos] bits are taken: a bit-field of a type of [bits]
    bits may not straddle a boundary of that type, anything else starts at its alignment
    [align] (in bits). The result is the first bit of the member and the first bit after it. *)
Definition place (k : mkind) (bits align pos : Z) : Z * Z :=
  match k with
  | Bits _ w =>
      let start := if w =? 0 then up pos bits else
                   if pos / bits =? (pos + w - 1) / bits then pos else up pos bits in
      (start, start + w)
  | _ => let start := up pos align in (start, start + bits)
  end.

(** An unnamed bit-field does not raise the alignment of its struct. *)
Definition raises (k : mkind) : bool :=
  match k with Bits name _ => negb (name =? "")%string | _ => true end.

(** Size and alignment in bytes. *)
Fixpoint layout (t : ctype) : Z * Z :=
  match t with
  | CInt n => (n, n)
  | CEnum _ vs => if forallb (fun v => (- 2 ^ 31 <=? v.2) && (v.2 <? 2 ^ 32)) vs then (4, 4) else (8, 8)
  | CPtr _ => (8, 8)
  | CArr t n => let '(s, a) := layout t in (s * n, a)
  | CStruct _ ms =>
      let fix go (ms : list (mkind * ctype)) (pos al : Z) : Z * Z :=
        match ms with
        | [] => (up pos (8 * al) / 8, al)
        | (k, t) :: ms' =>
            let '(s, a) := layout t in
            go ms' (place k (8 * s) (8 * a) pos).2 (if raises k then Z.max al a else al)
        end in
      go ms 0 1
  | CUnion _ ms =>
      let fix go (ms : list (mkind * ctype)) (size al : Z) : Z * Z :=
        match ms with
        | [] => (up size al, al)
        | (k, t) :: ms' =>
            let '(s, a) := layout t in
            let used := match k with Bits _ w => up w 8 / 8 | _ => s end in
            go ms' (Z.max size used) (if raises k then Z.max al a else al)
        end in
      go ms 0 1
  end.

Definition sizeof (t : ctype) : Z := (layout t).1.
Definition alignof (t : ctype) : Z := (layout t).2.

(** The members of an aggregate with the bit each starts at, in source order. *)
Fixpoint placed (pos : Z) (ms : list (mkind * ctype)) : list (mkind * ctype * Z) :=
  match ms with
  | [] => []
  | (k, t) :: ms' =>
      let p := place k (8 * sizeof t) (8 * alignof t) pos in
      (k, t, p.1) :: placed p.2 ms'
  end.

(** The member called [name], with the bit it starts at: the first match, through anonymous
    aggregates. *)
Fixpoint member_at (t : ctype) (name : string) : option (Z * ctype) :=
  match t with
  | CStruct _ ms =>
      let fix go (ms : list (mkind * ctype)) (pos : Z) : option (Z * ctype) :=
        match ms with
        | [] => None
        | (k, t) :: ms' =>
            let p := place k (8 * sizeof t) (8 * alignof t) pos in
            let here :=
              match k with
              | Fld n | Bits n _ => if (n =? name)%string then Some (0, t) else None
              | Anon => member_at t name
              end in
            match here with
            | Some (o, t') => Some (p.1 + o, t')
            | None => go ms' p.2
            end
        end in
      go ms 0
  | CUnion _ ms =>
      let fix go (ms : list (mkind * ctype)) : option (Z * ctype) :=
        match ms with
        | [] => None
        | (k, t) :: ms' =>
            let here :=
              match k with
              | Fld n | Bits n _ => if (n =? name)%string then Some (0, t) else None
              | Anon => member_at t name
              end in
            match here with Some r => Some r | None => go ms' end
        end in
      go ms
  | _ => None
  end.

(** [&x->a.b.c]: the byte offset and the type behind a path of member names. *)
Fixpoint path_at (t : ctype) (path : list string) : option (Z * ctype) :=
  match path with
  | [] => Some (0, t)
  | name :: path' =>
      '(o, t') ← member_at t name;
      '(o', t'') ← path_at t' path';
      if o mod 8 =? 0 then Some (o / 8 + o', t'') else None
  end.
