(* ===== verification/Vmlinux.v ===== *)
(** Types of [bpf/vmlinux.h]: what the program reads of the kernel and everything it embeds.

    One definition per struct, union or typedef, one line per member, in the order of the header. First
    the socket side: [struct sock], [struct socket], [struct file] and [struct inode]. *)

From S2P Require Import Prelude Ctypes.

#[local] Open Scope string_scope.
#[local] Open Scope Z_scope.

Definition typedef___u64 : ctype := c_ullong.

Definition typedef___addrpair : ctype := typedef___u64.

Definition typedef___u32 : ctype := c_uint.

Definition typedef___be32 : ctype := typedef___u32.

Definition typedef___u16 : ctype := c_ushort.

Definition typedef___portpair : ctype := typedef___u32.

Definition typedef___be16 : ctype := typedef___u16.

Definition struct_hlist_node : ctype := CStruct "hlist_node" [
  (Fld "next", CPtr "struct hlist_node");
  (Fld "pprev", CPtr "struct hlist_node *")
].

Definition typedef_possible_net_t : ctype := CStruct "possible_net_t" [
  (Fld "net", CPtr "struct net")
].

Definition typedef___u8 : ctype := c_uchar.

Definition struct_in6_addr : ctype := CStruct "in6_addr" [
  (Fld "in6_u", CUnion "" [
    (Fld "u6_addr8", CArr typedef___u8 16);
    (Fld "u6_addr16", CArr typedef___be16 8);
    (Fld "u6_addr32", CArr typedef___be32 4)
  ])
].

Definition typedef___s64 : ctype := c_llong.

Definition typedef_s64 : ctype := typedef___s64.

Definition typedef_atomic64_t : ctype := CStruct "atomic64_t" [
  (Fld "counter", typedef_s64)
].

Definition struct_hlist_nulls_node : ctype := CStruct "hlist_nulls_node" [
  (Fld "next", CPtr "struct hlist_nulls_node");
  (Fld "pprev", CPtr "struct hlist_nulls_node *")
].

Definition typedef_u32 : ctype := typedef___u32.

Definition typedef_atomic_t : ctype := CStruct "atomic_t" [
  (Fld "counter", c_int)
].

Definition struct_refcount_struct : ctype := CStruct "refcount_struct" [
  (Fld "refs", typedef_atomic_t)
].

Definition typedef_refcount_t : ctype := struct_refcount_struct.

Definition struct_sock_common : ctype := CStruct "sock_common" [
  (Anon, CUnion "" [
    (Fld "skc_addrpair", typedef___addrpair);
    (Anon, CStruct "" [
      (Fld "skc_daddr", typedef___be32);
      (Fld "skc_rcv_saddr", typedef___be32)
    ])
  ]);
  (Anon, CUnion "" [
    (Fld "skc_hash", c_uint);
    (Fld "skc_u16hashes", CArr typedef___u16 2)
  ]);
  (Anon, CUnion "" [
    (Fld "skc_portpair", typedef___portpair);
    (Anon, CStruct "" [
      (Fld "skc_dport", typedef___be16);
      (Fld "skc_num", typedef___u16)
    ])
  ]);
  (Fld "skc_family", c_ushort);
  (Fld "skc_state", c_uchar);
  (Bits "skc_reuse" 4, c_uchar);
  (Bits "skc_reuseport" 1, c_uchar);
  (Bits "skc_ipv6only" 1, c_uchar);
  (Bits "skc_net_refcnt" 1, c_uchar);
  (Fld "skc_bound_dev_if", c_int);
  (Anon, CUnion "" [
    (Fld "skc_bind_node", struct_hlist_node);
    (Fld "skc_portaddr_node", struct_hlist_node)
  ]);
  (Fld "skc_prot", CPtr "struct proto");
  (Fld "skc_net", typedef_possible_net_t);
  (Fld "skc_v6_daddr", struct_in6_addr);
  (Fld "skc_v6_rcv_saddr", struct_in6_addr);
  (Fld "skc_cookie", typedef_atomic64_t);
  (Anon, CUnion "" [
    (Fld "skc_flags", c_ulong);
    (Fld "skc_listener", CPtr "struct sock");
    (Fld "skc_tw_dr", CPtr "struct inet_timewait_death_row")
  ]);
  (Fld "skc_dontcopy_begin", CArr c_int 0);
  (Anon, CUnion "" [
    (Fld "skc_node", struct_hlist_node);
    (Fld "skc_nulls_node", struct_hlist_nulls_node)
  ]);
  (Fld "skc_tx_queue_mapping", c_ushort);
  (Fld "skc_rx_queue_mapping", c_ushort);
  (Anon, CUnion "" [
    (Fld "skc_incoming_cpu", c_int);
    (Fld "skc_rcv_wnd", typedef_u32);
    (Fld "skc_tw_rcv_nxt", typedef_u32)
  ]);
  (Fld "skc_refcnt", typedef_refcount_t);
  (Fld "skc_dontcopy_end", CArr c_int 0);
  (Anon, CUnion "" [
    (Fld "skc_rxhash", typedef_u32);
    (Fld "skc_window_clamp", typedef_u32);
    (Fld "skc_tw_snd_nxt", typedef_u32)
  ])
].

Definition typedef_u8 : ctype := typedef___u8.

Definition typedef_u16 : ctype := typedef___u16.

Definition struct_qspinlock : ctype := CStruct "qspinlock" [
  (Anon, CUnion "" [
    (Fld "val", typedef_atomic_t);
    (Anon, CStruct "" [
      (Fld "locked", typedef_u8);
      (Fld "pending", typedef_u8)
    ]);
    (Anon, CStruct "" [
      (Fld "locked_pending", typedef_u16);
      (Fld "tail", typedef_u16)
    ])
  ])
].

Definition typedef_arch_spinlock_t : ctype := struct_qspinlock.

Definition struct_raw_spinlock : ctype := CStruct "raw_spinlock" [
  (Fld "raw_lock", typedef_arch_spinlock_t)
].

Definition struct_spinlock : ctype := CStruct "spinlock" [
  (Anon, CUnion "" [
    (Fld "rlock", struct_raw_spinlock)
  ])
].

Definition typedef_spinlock_t : ctype := struct_spinlock.

Definition struct_list_head : ctype := CStruct "list_head" [
  (Fld "next", CPtr "struct list_head");
  (Fld "prev", CPtr "struct list_head")
].

Definition struct_wait_queue_head : ctype := CStruct "wait_queue_head" [
  (Fld "lock", typedef_spinlock_t);
  (Fld "head", struct_list_head)
].

Definition typedef_wait_queue_head_t : ctype := struct_wait_queue_head.

Definition typedef_socket_lock_t : ctype := CStruct "socket_lock_t" [
  (Fld "slock", typedef_spinlock_t);
  (Fld "owned", c_int);
  (Fld "wq", typedef_wait_queue_head_t)
].

Definition struct_sk_buff_list : ctype := CStruct "sk_buff_list" [
  (Fld "next", CPtr "struct sk_buff");
  (Fld "prev", CPtr "struct sk_buff")
].

Definition struct_sk_buff_head : ctype := CStruct "sk_buff_head" [
  (Anon, CUnion "" [
    (Anon, CStruct "" [
      (Fld "next", CPtr "struct sk_buff");
      (Fld "prev", CPtr "struct sk_buff")
    ]);
    (Fld "list", struct_sk_buff_list)
  ]);
  (Fld "qlen", typedef___u32);
  (Fld "lock", typedef_spinlock_t)
].

Definition struct_rb_root : ctype := CStruct "rb_root" [
  (Fld "rb_node", CPtr "struct rb_node")
].

Definition typedef___s32 : ctype := c_int.

Definition struct_timer_list : ctype := CStruct "timer_list" [
  (Fld "entry", struct_hlist_node);
  (Fld "expires", c_ulong);
  (Fld "function", (CPtr "fn"));
  (Fld "flags", typedef_u32)
].

Definition struct_page_frag : ctype := CStruct "page_frag" [
  (Fld "page", CPtr "struct page");
  (Fld "offset", typedef___u32);
  (Fld "size", typedef___u32)
].

Definition typedef_u64 : ctype := typedef___u64.

Definition typedef_netdev_features_t : ctype := typedef_u64.

Definition typedef_gfp_t : ctype := c_uint.

Definition struct_qrwlock : ctype := CStruct "qrwlock" [
  (Anon, CUnion "" [
    (Fld "cnts", typedef_atomic_t);
    (Anon, CStruct "" [
      (Fld "wlocked", typedef_u8);
      (Fld "__lstate", CArr typedef_u8 3)
    ])
  ]);
  (Fld "wait_lock", typedef_arch_spinlock_t)
].

Definition typedef_arch_rwlock_t : ctype := struct_qrwlock.

Definition typedef_rwlock_t : ctype := CStruct "rwlock_t" [
  (Fld "raw_lock", typedef_arch_rwlock_t)
].

Definition typedef___kernel_uid32_t : ctype := c_uint.

Definition typedef_uid_t : ctype := typedef___kernel_uid32_t.

Definition typedef_kuid_t : ctype := CStruct "kuid_t" [
  (Fld "val", typedef_uid_t)
].

Definition typedef_ktime_t : ctype := typedef_s64.

Definition typedef_bool : ctype := c_bool.

Definition struct_sock_cgroup_data : ctype := CStruct "sock_cgroup_data" [
  (Fld "cgroup", CPtr "struct cgroup");
  (Fld "classid", typedef_u32);
  (Fld "prioidx", typedef_u16)
].

Definition struct_callback_head : ctype := CStruct "callback_head" [
  (Fld "next", CPtr "struct callback_head");
  (Fld "func", (CPtr "fn"))
].

Definition typedef_netns_tracker : ctype := CStruct "" [].

Definition struct_sock : ctype := CStruct "sock" [
  (Fld "__sk_common", struct_sock_common);
  (Fld "sk_rx_dst", CPtr "struct dst_entry");
  (Fld "sk_rx_dst_ifindex", c_int);
  (Fld "sk_rx_dst_cookie", typedef_u32);
  (Fld "sk_lock", typedef_socket_lock_t);
  (Fld "sk_drops", typedef_atomic_t);
  (Fld "sk_rcvlowat", c_int);
  (Fld "sk_error_queue", struct_sk_buff_head);
  (Fld "sk_receive_queue", struct_sk_buff_head);
  (Fld "sk_backlog", CStruct "" [
    (Fld "rmem_alloc", typedef_atomic_t);
    (Fld "len", c_int);
    (Fld "head", CPtr "struct sk_buff");
    (Fld "tail", CPtr "struct sk_buff")
  ]);
  (Fld "sk_forward_alloc", c_int);
  (Fld "sk_reserved_mem", typedef_u32);
  (Fld "sk_ll_usec", c_uint);
  (Fld "sk_napi_id", c_uint);
  (Fld "sk_rcvbuf", c_int);
  (Fld "sk_disconnects", c_int);
  (Fld "sk_filter", CPtr "struct sk_filter");
  (Anon, CUnion "" [
    (Fld "sk_wq", CPtr "struct socket_wq");
    (Fld "sk_wq_raw", CPtr "struct socket_wq")
  ]);
  (Fld "sk_policy", CArr (CPtr "struct xfrm_policy") 2);
  (Fld "sk_dst_cache", CPtr "struct dst_entry");
  (Fld "sk_omem_alloc", typedef_atomic_t);
  (Fld "sk_sndbuf", c_int);
  (Fld "sk_wmem_queued", c_int);
  (Fld "sk_wmem_alloc", typedef_refcount_t);
  (Fld "sk_tsq_flags", c_ulong);
  (Anon, CUnion "" [
    (Fld "sk_send_head", CPtr "struct sk_buff");
    (Fld "tcp_rtx_queue", struct_rb_root)
  ]);
  (Fld "sk_write_queue", struct_sk_buff_head);
  (Fld "sk_peek_off", typedef___s32);
  (Fld "sk_write_pending", c_int);
  (Fld "sk_dst_pending_confirm", typedef___u32);
  (Fld "sk_pacing_status", typedef_u32);
  (Fld "sk_sndtimeo", c_long);
  (Fld "sk_timer", struct_timer_list);
  (Fld "sk_priority", typedef___u32);
  (Fld "sk_mark", typedef___u32);
  (Fld "sk_pacing_rate", c_ulong);
  (Fld "sk_max_pacing_rate", c_ulong);
  (Fld "sk_frag", struct_page_frag);
  (Fld "sk_route_caps", typedef_netdev_features_t);
  (Fld "sk_gso_type", c_int);
  (Fld "sk_gso_max_size", c_uint);
  (Fld "sk_allocation", typedef_gfp_t);
  (Fld "sk_txhash", typedef___u32);
  (Bits "sk_gso_disabled" 1, typedef_u8);
  (Bits "sk_kern_sock" 1, typedef_u8);
  (Bits "sk_no_check_tx" 1, typedef_u8);
  (Bits "sk_no_check_rx" 1, typedef_u8);
  (Bits "sk_userlocks" 4, typedef_u8);
  (Fld "sk_pacing_shift", typedef_u8);
  (Fld "sk_type", typedef_u16);
  (Fld "sk_protocol", typedef_u16);
  (Fld "sk_gso_max_segs", typedef_u16);
  (Fld "sk_lingertime", c_ulong);
  (Fld "sk_prot_creator", CPtr "struct proto");
  (Fld "sk_callback_lock", typedef_rwlock_t);
  (Fld "sk_err", c_int);
  (Fld "sk_err_soft", c_int);
  (Fld "sk_ack_backlog", typedef_u32);
  (Fld "sk_max_ack_backlog", typedef_u32);
  (Fld "sk_uid", typedef_kuid_t);
  (Fld "sk_txrehash", typedef_u8);
  (Fld "sk_prefer_busy_poll", typedef_u8);
  (Fld "sk_busy_poll_budget", typedef_u16);
  (Fld "sk_peer_lock", typedef_spinlock_t);
  (Fld "sk_bind_phc", c_int);
  (Fld "sk_peer_pid", CPtr "struct pid");
  (Fld "sk_peer_cred", CPtr "struct cred");
  (Fld "sk_rcvtimeo", c_long);
  (Fld "sk_stamp", typedef_ktime_t);
  (Fld "sk_tskey", typedef_atomic_t);
  (Fld "sk_zckey", typedef_atomic_t);
  (Fld "sk_tsflags", typedef_u32);
  (Fld "sk_shutdown", typedef_u8);
  (Fld "sk_clockid", typedef_u8);
  (Bits "sk_txtime_deadline_mode" 1, typedef_u8);
  (Bits "sk_txtime_report_errors" 1, typedef_u8);
  (Bits "sk_txtime_unused" 6, typedef_u8);
  (Fld "sk_use_task_frag", typedef_bool);
  (Fld "sk_socket", CPtr "struct socket");
  (Fld "sk_user_data", CPtr "void");
  (Fld "sk_security", CPtr "void");
  (Fld "sk_cgrp_data", struct_sock_cgroup_data);
  (Fld "sk_memcg", CPtr "struct mem_cgroup");
  (Fld "sk_state_change", (CPtr "fn"));
  (Fld "sk_data_ready", (CPtr "fn"));
  (Fld "sk_write_space", (CPtr "fn"));
  (Fld "sk_error_report", (CPtr "fn"));
  (Fld "sk_backlog_rcv", (CPtr "fn"));
  (Fld "sk_validate_xmit_skb", (CPtr "fn"));
  (Fld "sk_destruct", (CPtr "fn"));
  (Fld "sk_reuseport_cb", CPtr "struct sock_reuseport");
  (Fld "sk_bpf_storage", CPtr "struct bpf_local_storage");
  (Fld "sk_rcu", struct_callback_head);
  (Fld "ns_tracker", typedef_netns_tracker)
].

Definition typedef_socket_state : ctype := CEnum "socket_state" [
  ("SS_FREE", 0);
  ("SS_UNCONNECTED", 1);
  ("SS_CONNECTING", 2);
  ("SS_CONNECTED", 3);
  ("SS_DISCONNECTING", 4)
].

Definition struct_socket_wq : ctype := CStruct "socket_wq" [
  (Fld "wait", typedef_wait_queue_head_t);
  (Fld "fasync_list", CPtr "struct fasync_struct");
  (Fld "flags", c_ulong);
  (Fld "rcu", struct_callback_head);
  (Bits "" 64, c_long)
].

Definition struct_socket : ctype := CStruct "socket" [
  (Fld "state", typedef_socket_state);
  (Fld "type", c_short);
  (Fld "flags", c_ulong);
  (Fld "file", CPtr "struct file");
  (Fld "sk", CPtr "struct sock");
  (Fld "ops", CPtr "struct proto_ops");
  (Bits "" 64, c_long);
  (Bits "" 64, c_long);
  (Bits "" 64, c_long);
  (Fld "wq", struct_socket_wq)
].

Definition struct_llist_node : ctype := CStruct "llist_node" [
  (Fld "next", CPtr "struct llist_node")
].

Definition typedef_fmode_t : ctype := c_uint.

Definition typedef_atomic_long_t : ctype := typedef_atomic64_t.

Definition typedef_raw_spinlock_t : ctype := struct_raw_spinlock.

Definition struct_optimistic_spin_queue : ctype := CStruct "optimistic_spin_queue" [
  (Fld "tail", typedef_atomic_t)
].

Definition struct_mutex : ctype := CStruct "mutex" [
  (Fld "owner", typedef_atomic_long_t);
  (Fld "wait_lock", typedef_raw_spinlock_t);
  (Fld "osq", struct_optimistic_spin_queue);
  (Fld "wait_list", struct_list_head)
].

Definition typedef___kernel_loff_t : ctype := c_llong.

Definition typedef_loff_t : ctype := typedef___kernel_loff_t.

Definition enum_pid_type : list (string * Z) := [
  ("PIDTYPE_PID", 0);
  ("PIDTYPE_TGID", 1);
  ("PIDTYPE_PGID", 2);
  ("PIDTYPE_SID", 3);
  ("PIDTYPE_MAX", 4)
].

Definition struct_fown_struct : ctype := CStruct "fown_struct" [
  (Fld "lock", typedef_rwlock_t);
  (Fld "pid", CPtr "struct pid");
  (Fld "pid_type", CEnum "pid_type" enum_pid_type);
  (Fld "uid", typedef_kuid_t);
  (Fld "euid", typedef_kuid_t);
  (Fld "signum", c_int)
].

Definition struct_file_ra_state : ctype := CStruct "file_ra_state" [
  (Fld "start", c_ulong);
  (Fld "size", c_uint);
  (Fld "async_size", c_uint);
  (Fld "ra_pages", c_uint);
  (Fld "mmap_miss", c_uint);
  (Fld "prev_pos", typedef_loff_t)
].

Definition struct_path : ctype := CStruct "path" [
  (Fld "mnt", CPtr "struct vfsmount");
  (Fld "dentry", CPtr "struct dentry")
].

Definition typedef_errseq_t : ctype := typedef_u32.

Definition struct_file : ctype := CStruct "file" [
  (Anon, CUnion "" [
    (Fld "f_task_work", struct_callback_head);
    (Fld "f_llist", struct_llist_node);
    (Fld "f_iocb_flags", c_uint)
  ]);
  (Fld "f_lock", typedef_spinlock_t);
  (Fld "f_mode", typedef_fmode_t);
  (Fld "f_count", typedef_atomic_long_t);
  (Fld "f_pos_lock", struct_mutex);
  (Fld "f_pos", typedef_loff_t);
  (Fld "f_flags", c_uint);
  (Fld "f_owner", struct_fown_struct);
  (Fld "f_cred", CPtr "struct cred");
  (Fld "f_ra", struct_file_ra_state);
  (Fld "f_path", struct_path);
  (Fld "f_inode", CPtr "struct inode");
  (Fld "f_op", CPtr "struct file_operations");
  (Fld "f_version", typedef_u64);
  (Fld "f_security", CPtr "void");
  (Fld "private_data", CPtr "void");
  (Fld "f_ep", CPtr "struct hlist_head");
  (Fld "f_mapping", CPtr "struct address_space");
  (Fld "f_wb_err", typedef_errseq_t);
  (Fld "f_sb_err", typedef_errseq_t)
].

Definition typedef_umode_t : ctype := c_ushort.

Definition typedef___kernel_gid32_t : ctype := c_uint.

Definition typedef_gid_t : ctype := typedef___kernel_gid32_t.

Definition typedef_kgid_t : ctype := CStruct "kgid_t" [
  (Fld "val", typedef_gid_t)
].

Definition typedef___kernel_dev_t : ctype := typedef_u32.

Definition typedef_dev_t : ctype := typedef___kernel_dev_t.

Definition typedef_time64_t : ctype := typedef___s64.

Definition struct_timespec64 : ctype := CStruct "timespec64" [
  (Fld "tv_sec", typedef_time64_t);
  (Fld "tv_nsec", c_long)
].

Definition typedef_blkcnt_t : ctype := typedef_u64.

Definition struct_rw_semaphore : ctype := CStruct "rw_semaphore" [
  (Fld "count", typedef_atomic_long_t);
  (Fld "owner", typedef_atomic_long_t);
  (Fld "osq", struct_optimistic_spin_queue);
  (Fld "wait_lock", typedef_raw_spinlock_t);
  (Fld "wait_list", struct_list_head)
].

Definition struct_hlist_head : ctype := CStruct "hlist_head" [
  (Fld "first", CPtr "struct hlist_node")
].

Definition struct_xarray : ctype := CStruct "xarray" [
  (Fld "xa_lock", typedef_spinlock_t);
  (Fld "xa_flags", typedef_gfp_t);
  (Fld "xa_head", CPtr "void")
].

Definition struct_rb_root_cached : ctype := CStruct "rb_root_cached" [
  (Fld "rb_root", struct_rb_root);
  (Fld "rb_leftmost", CPtr "struct rb_node")
].

Definition struct_address_space : ctype := CStruct "address_space" [
  (Fld "host", CPtr "struct inode");
  (Fld "i_pages", struct_xarray);
  (Fld "invalidate_lock", struct_rw_semaphore);
  (Fld "gfp_mask", typedef_gfp_t);
  (Fld "i_mmap_writable", typedef_atomic_t);
  (Fld "i_mmap", struct_rb_root_cached);
  (Fld "nrpages", c_ulong);
  (Fld "writeback_index", c_ulong);
  (Fld "a_ops", CPtr "struct address_space_operations");
  (Fld "flags", c_ulong);
  (Fld "i_mmap_rwsem", struct_rw_semaphore);
  (Fld "wb_err", typedef_errseq_t);
  (Fld "i_private_lock", typedef_spinlock_t);
  (Fld "i_private_list", struct_list_head);
  (Fld "i_private_data", CPtr "void")
].

Definition struct_inode : ctype := CStruct "inode" [
  (Fld "i_mode", typedef_umode_t);
  (Fld "i_opflags", c_ushort);
  (Fld "i_uid", typedef_kuid_t);
  (Fld "i_lru", struct_list_head);
  (Fld "i_gid", typedef_kgid_t);
  (Fld "i_flags", c_uint);
  (Fld "i_acl", CPtr "struct posix_acl");
  (Fld "i_default_acl", CPtr "struct posix_acl");
  (Fld "i_op", CPtr "struct inode_operations");
  (Fld "i_sb", CPtr "struct super_block");
  (Fld "i_mapping", CPtr "struct address_space");
  (Fld "i_security", CPtr "void");
  (Fld "i_ino", c_ulong);
  (Anon, CUnion "" [
    (Fld "i_nlink", c_uint);
    (Fld "__i_nlink", c_uint)
  ]);
  (Fld "i_rdev", typedef_dev_t);
  (Fld "i_size", typedef_loff_t);
  (Fld "__i_atime", struct_timespec64);
  (Fld "__i_mtime", struct_timespec64);
  (Fld "__i_ctime", struct_timespec64);
  (Fld "i_lock", typedef_spinlock_t);
  (Fld "i_bytes", c_ushort);
  (Fld "i_blkbits", typedef_u8);
  (Fld "i_write_hint", typedef_u8);
  (Fld "i_blocks", typedef_blkcnt_t);
  (Fld "i_state", c_ulong);
  (Fld "i_rwsem", struct_rw_semaphore);
  (Fld "dirtied_when", c_ulong);
  (Fld "dirtied_time_when", c_ulong);
  (Fld "i_hash", struct_hlist_node);
  (Fld "i_io_list", struct_list_head);
  (Fld "i_wb", CPtr "struct bdi_writeback");
  (Fld "i_wb_frn_winner", c_int);
  (Fld "i_wb_frn_avg_time", typedef_u16);
  (Fld "i_wb_frn_history", typedef_u16);
  (Fld "i_sb_list", struct_list_head);
  (Fld "i_wb_list", struct_list_head);
  (Anon, CUnion "" [
    (Fld "i_dentry", struct_hlist_head);
    (Fld "i_rcu", struct_callback_head)
  ]);
  (Fld "i_version", typedef_atomic64_t);
  (Fld "i_sequence", typedef_atomic64_t);
  (Fld "i_count", typedef_atomic_t);
  (Fld "i_dio_count", typedef_atomic_t);
  (Fld "i_writecount", typedef_atomic_t);
  (Fld "i_readcount", typedef_atomic_t);
  (Anon, CUnion "" [
    (Fld "i_fop", CPtr "struct file_operations");
    (Fld "free_inode", (CPtr "fn"))
  ]);
  (Fld "i_flctx", CPtr "struct file_lock_context");
  (Fld "i_data", struct_address_space);
  (Fld "i_devices", struct_list_head);
  (Anon, CUnion "" [
    (Fld "i_pipe", CPtr "struct pipe_inode_info");
    (Fld "i_cdev", CPtr "struct cdev");
    (Fld "i_link", CPtr "char");
    (Fld "i_dir_seq", c_uint)
  ]);
  (Fld "i_generation", typedef___u32);
  (Fld "i_fsnotify_mask", typedef___u32);
  (Fld "i_fsnotify_marks", CPtr "struct fsnotify_mark_connector");
  (Fld "i_crypt_info", CPtr "struct fscrypt_inode_info");
  (Fld "i_verity_info", CPtr "struct fsverity_info");
  (Fld "i_private", CPtr "void")
].

(** * Tasks

    [struct task_struct], [struct nsproxy], [struct files_struct], [struct fdtable] and what they
    embed. *)

Definition struct_thread_info : ctype := CStruct "thread_info" [
  (Fld "flags", c_ulong);
  (Fld "syscall_work", c_ulong);
  (Fld "status", typedef_u32);
  (Fld "cpu", typedef_u32)
].

Definition struct___call_single_node : ctype := CStruct "__call_single_node" [
  (Fld "llist", struct_llist_node);
  (Anon, CUnion "" [
    (Fld "u_flags", c_uint);
    (Fld "a_flags", typedef_atomic_t)
  ]);
  (Fld "src", typedef_u16);
  (Fld "dst", typedef_u16)
].

Definition struct_load_weight : ctype := CStruct "load_weight" [
  (Fld "weight", c_ulong);
  (Fld "inv_weight", typedef_u32)
].

Definition struct_rb_node : ctype := CStruct "rb_node" [
  (Fld "__rb_parent_color", c_ulong);
  (Fld "rb_right", CPtr "struct rb_node");
  (Fld "rb_left", CPtr "struct rb_node")
].

Definition struct_sched_avg : ctype := CStruct "sched_avg" [
  (Fld "last_update_time", typedef_u64);
  (Fld "load_sum", typedef_u64);
  (Fld "runnable_sum", typedef_u64);
  (Fld "util_sum", typedef_u32);
  (Fld "period_contrib", typedef_u32);
  (Fld "load_avg", c_ulong);
  (Fld "runnable_avg", c_ulong);
  (Fld "util_avg", c_ulong);
  (Fld "util_est", c_uint)
].

Definition struct_sched_entity : ctype := CStruct "sched_entity" [
  (Fld "load", struct_load_weight);
  (Fld "run_node", struct_rb_node);
  (Fld "deadline", typedef_u64);
  (Fld "min_vruntime", typedef_u64);
  (Fld "group_node", struct_list_head);
  (Fld "on_rq", c_uint);
  (Fld "exec_start", typedef_u64);
  (Fld "sum_exec_runtime", typedef_u64);
  (Fld "prev_sum_exec_runtime", typedef_u64);
  (Fld "vruntime", typedef_u64);
  (Fld "vlag", typedef_s64);
  (Fld "slice", typedef_u64);
  (Fld "nr_migrations", typedef_u64);
  (Fld "depth", c_int);
  (Fld "parent", CPtr "struct sched_entity");
  (Fld "cfs_rq", CPtr "struct cfs_rq");
  (Fld "my_q", CPtr "struct cfs_rq");
  (Fld "runnable_weight", c_ulong);
  (Bits "" 64, c_long);
  (Bits "" 64, c_long);
  (Fld "avg", struct_sched_avg)
].

Definition struct_sched_rt_entity : ctype := CStruct "sched_rt_entity" [
  (Fld "run_list", struct_list_head);
  (Fld "timeout", c_ulong);
  (Fld "watchdog_stamp", c_ulong);
  (Fld "time_slice", c_uint);
  (Fld "on_rq", c_ushort);
  (Fld "on_list", c_ushort);
  (Fld "back", CPtr "struct sched_rt_entity")
].

Definition struct_timerqueue_node : ctype := CStruct "timerqueue_node" [
  (Fld "node", struct_rb_node);
  (Fld "expires", typedef_ktime_t)
].

Definition struct_hrtimer : ctype := CStruct "hrtimer" [
  (Fld "node", struct_timerqueue_node);
  (Fld "_softexpires", typedef_ktime_t);
  (Fld "function", (CPtr "fn"));
  (Fld "base", CPtr "struct hrtimer_clock_base");
  (Fld "state", typedef_u8);
  (Fld "is_rel", typedef_u8);
  (Fld "is_soft", typedef_u8);
  (Fld "is_hard", typedef_u8)
].

Definition typedef_dl_server_has_tasks_f : ctype := CPtr "fn".

Definition typedef_dl_server_pick_f : ctype := CPtr "fn".

Definition struct_sched_dl_entity : ctype := CStruct "sched_dl_entity" [
  (Fld "rb_node", struct_rb_node);
  (Fld "dl_runtime", typedef_u64);
  (Fld "dl_deadline", typedef_u64);
  (Fld "dl_period", typedef_u64);
  (Fld "dl_bw", typedef_u64);
  (Fld "dl_density", typedef_u64);
  (Fld "runtime", typedef_s64);
  (Fld "deadline", typedef_u64);
  (Fld "flags", c_uint);
  (Bits "dl_throttled" 1, c_uint);
  (Bits "dl_yielded" 1, c_uint);
  (Bits "dl_non_contending" 1, c_uint);
  (Bits "dl_overrun" 1, c_uint);
  (Bits "dl_server" 1, c_uint);
  (Fld "dl_timer", struct_hrtimer);
  (Fld "inactive_timer", struct_hrtimer);
  (Fld "rq", CPtr "struct rq");
  (Fld "server_has_tasks", typedef_dl_server_has_tasks_f);
  (Fld "server_pick", typedef_dl_server_pick_f);
  (Fld "pi_se", CPtr "struct sched_dl_entity")
].

Definition struct_uclamp_se : ctype := CStruct "uclamp_se" [
  (Bits "value" 11, c_uint);
  (Bits "bucket_id" 3, c_uint);
  (Bits "active" 1, c_uint);
  (Bits "user_defined" 1, c_uint)
].

Definition struct_sched_statistics : ctype := CStruct "sched_statistics" [
  (Fld "wait_start", typedef_u64);
  (Fld "wait_max", typedef_u64);
  (Fld "wait_count", typedef_u64);
  (Fld "wait_sum", typedef_u64);
  (Fld "iowait_count", typedef_u64);
  (Fld "iowait_sum", typedef_u64);
  (Fld "sleep_start", typedef_u64);
  (Fld "sleep_max", typedef_u64);
  (Fld "sum_sleep_runtime", typedef_s64);
  (Fld "block_start", typedef_u64);
  (Fld "block_max", typedef_u64);
  (Fld "sum_block_runtime", typedef_s64);
  (Fld "exec_max", typedef_s64);
  (Fld "slice_max", typedef_u64);
  (Fld "nr_migrations_cold", typedef_u64);
  (Fld "nr_failed_migrations_affine", typedef_u64);
  (Fld "nr_failed_migrations_running", typedef_u64);
  (Fld "nr_failed_migrations_hot", typedef_u64);
  (Fld "nr_forced_migrations", typedef_u64);
  (Fld "nr_wakeups", typedef_u64);
  (Fld "nr_wakeups_sync", typedef_u64);
  (Fld "nr_wakeups_migrate", typedef_u64);
  (Fld "nr_wakeups_local", typedef_u64);
  (Fld "nr_wakeups_remote", typedef_u64);
  (Fld "nr_wakeups_affine", typedef_u64);
  (Fld "nr_wakeups_affine_attempts", typedef_u64);
  (Fld "nr_wakeups_passive", typedef_u64);
  (Fld "nr_wakeups_idle", typedef_u64);
  (Fld "core_forceidle_sum", typedef_u64);
  (Bits "" 64, c_long);
  (Bits "" 64, c_long);
  (Bits "" 64, c_long)
].

Definition struct_cpumask : ctype := CStruct "cpumask" [
  (Fld "bits", CArr c_ulong 128)
].

Definition typedef_cpumask_t : ctype := struct_cpumask.

Definition union_rcu_special : ctype := CUnion "rcu_special" [
  (Fld "b", CStruct "" [
    (Fld "blocked", typedef_u8);
    (Fld "need_qs", typedef_u8);
    (Fld "exp_hint", typedef_u8);
    (Fld "need_mb", typedef_u8)
  ]);
  (Fld "s", typedef_u32)
].

Definition struct_sched_info : ctype := CStruct "sched_info" [
  (Fld "pcount", c_ulong);
  (Fld "run_delay", c_ullong);
  (Fld "last_arrival", c_ullong);
  (Fld "last_queued", c_ullong)
].

Definition struct_plist_node : ctype := CStruct "plist_node" [
  (Fld "prio", c_int);
  (Fld "prio_list", struct_list_head);
  (Fld "node_list", struct_list_head)
].

Definition typedef___kernel_clockid_t : ctype := c_int.

Definition typedef_clockid_t : ctype := typedef___kernel_clockid_t.

Definition enum_timespec_type : list (string * Z) := [
  ("TT_NONE", 0);
  ("TT_NATIVE", 1);
  ("TT_COMPAT", 2)
].

Definition struct_restart_block : ctype := CStruct "restart_block" [
  (Fld "arch_data", c_ulong);
  (Fld "fn", (CPtr "fn"));
  (Anon, CUnion "" [
    (Fld "futex", CStruct "" [
      (Fld "uaddr", CPtr "u32");
      (Fld "val", typedef_u32);
      (Fld "flags", typedef_u32);
      (Fld "bitset", typedef_u32);
      (Fld "time", typedef_u64);
      (Fld "uaddr2", CPtr "u32")
    ]);
    (Fld "nanosleep", CStruct "" [
      (Fld "clockid", typedef_clockid_t);
      (Fld "type", CEnum "timespec_type" enum_timespec_type);
      (Anon, CUnion "" [
        (Fld "rmtp", CPtr "struct __kernel_timespec");
        (Fld "compat_rmtp", CPtr "struct old_timespec32")
      ]);
      (Fld "expires", typedef_u64)
    ]);
    (Fld "poll", CStruct "" [
      (Fld "ufds", CPtr "struct pollfd");
      (Fld "nfds", c_int);
      (Fld "has_timeout", c_int);
      (Fld "tv_sec", c_ulong);
      (Fld "tv_nsec", c_ulong)
    ])
  ])
].

Definition typedef___kernel_pid_t : ctype := c_int.

Definition typedef_pid_t : ctype := typedef___kernel_pid_t.

Definition struct_prev_cputime : ctype := CStruct "prev_cputime" [
  (Fld "utime", typedef_u64);
  (Fld "stime", typedef_u64);
  (Fld "lock", typedef_raw_spinlock_t)
].

Definition struct_seqcount : ctype := CStruct "seqcount" [
  (Fld "sequence", c_uint)
].

Definition typedef_seqcount_t : ctype := struct_seqcount.

Definition enum_vtime_state : list (string * Z) := [
  ("VTIME_INACTIVE", 0);
  ("VTIME_IDLE", 1);
  ("VTIME_SYS", 2);
  ("VTIME_USER", 3);
  ("VTIME_GUEST", 4)
].

Definition struct_vtime : ctype := CStruct "vtime" [
  (Fld "seqcount", typedef_seqcount_t);
  (Fld "starttime", c_ullong);
  (Fld "state", CEnum "vtime_state" enum_vtime_state);
  (Fld "cpu", c_uint);
  (Fld "utime", typedef_u64);
  (Fld "stime", typedef_u64);
  (Fld "gtime", typedef_u64)
].

Definition struct_timerqueue_head : ctype := CStruct "timerqueue_head" [
  (Fld "rb_root", struct_rb_root_cached)
].

Definition struct_posix_cputimer_base : ctype := CStruct "posix_cputimer_base" [
  (Fld "nextevt", typedef_u64);
  (Fld "tqhead", struct_timerqueue_head)
].

Definition struct_posix_cputimers : ctype := CStruct "posix_cputimers" [
  (Fld "bases", CArr struct_posix_cputimer_base 3);
  (Fld "timers_active", c_uint);
  (Fld "expiry_active", c_uint)
].

Definition struct_posix_cputimers_work : ctype := CStruct "posix_cputimers_work" [
  (Fld "work", struct_callback_head);
  (Fld "mutex", struct_mutex);
  (Fld "scheduled", c_uint)
].

Definition struct_sysv_sem : ctype := CStruct "sysv_sem" [
  (Fld "undo_list", CPtr "struct sem_undo_list")
].

Definition struct_sysv_shm : ctype := CStruct "sysv_shm" [
  (Fld "shm_clist", struct_list_head)
].

Definition typedef_sigset_t : ctype := CStruct "sigset_t" [
  (Fld "sig", CArr c_ulong 1)
].

Definition struct_sigpending : ctype := CStruct "sigpending" [
  (Fld "list", struct_list_head);
  (Fld "signal", typedef_sigset_t)
].

Definition typedef___kernel_ulong_t : ctype := c_ulong.

Definition typedef___kernel_size_t : ctype := typedef___kernel_ulong_t.

Definition typedef_size_t : ctype := typedef___kernel_size_t.

Definition struct_seccomp : ctype := CStruct "seccomp" [
  (Fld "mode", c_int);
  (Fld "filter_count", typedef_atomic_t);
  (Fld "filter", CPtr "struct seccomp_filter")
].

Definition struct_syscall_user_dispatch : ctype := CStruct "syscall_user_dispatch" [
  (Fld "selector", CPtr "char");
  (Fld "offset", c_ulong);
  (Fld "len", c_ulong);
  (Fld "on_dispatch", typedef_bool)
].

Definition struct_wake_q_node : ctype := CStruct "wake_q_node" [
  (Fld "next", CPtr "struct wake_q_node")
].

Definition struct_task_io_accounting : ctype := CStruct "task_io_accounting" [
  (Fld "rchar", typedef_u64);
  (Fld "wchar", typedef_u64);
  (Fld "syscr", typedef_u64);
  (Fld "syscw", typedef_u64);
  (Fld "read_bytes", typedef_u64);
  (Fld "write_bytes", typedef_u64);
  (Fld "cancelled_write_bytes", typedef_u64)
].

Definition typedef_nodemask_t : ctype := CStruct "nodemask_t" [
  (Fld "bits", CArr c_ulong 16)
].

Definition struct_seqcount_spinlock : ctype := CStruct "seqcount_spinlock" [
  (Fld "seqcount", typedef_seqcount_t)
].

Definition typedef_seqcount_spinlock_t : ctype := struct_seqcount_spinlock.

Definition struct_arch_tlbflush_unmap_batch : ctype := CStruct "arch_tlbflush_unmap_batch" [
  (Fld "cpumask", struct_cpumask)
].

Definition struct_tlbflush_unmap_batch : ctype := CStruct "tlbflush_unmap_batch" [
  (Fld "arch", struct_arch_tlbflush_unmap_batch);
  (Fld "flush_required", typedef_bool);
  (Fld "writable", typedef_bool)
].

Definition struct_latency_record : ctype := CStruct "latency_record" [
  (Fld "backtrace", CArr c_ulong 12);
  (Fld "count", c_uint);
  (Fld "time", c_ulong);
  (Fld "max", c_ulong)
].

Definition struct_kmap_ctrl : ctype := CStruct "kmap_ctrl" [].

Definition struct_llist_head : ctype := CStruct "llist_head" [
  (Fld "first", CPtr "struct llist_node")
].

Definition struct_da_monitor : ctype := CStruct "da_monitor" [
  (Fld "monitoring", typedef_bool);
  (Fld "curr_state", c_uint)
].

Definition union_rv_task_monitor : ctype := CUnion "rv_task_monitor" [
  (Fld "da_mon", struct_da_monitor)
].

Definition struct_desc_struct : ctype := CStruct "desc_struct" [
  (Fld "limit0", typedef_u16);
  (Fld "base0", typedef_u16);
  (Bits "base1" 8, typedef_u16);
  (Bits "type" 4, typedef_u16);
  (Bits "s" 1, typedef_u16);
  (Bits "dpl" 2, typedef_u16);
  (Bits "p" 1, typedef_u16);
  (Bits "limit1" 4, typedef_u16);
  (Bits "avl" 1, typedef_u16);
  (Bits "l" 1, typedef_u16);
  (Bits "d" 1, typedef_u16);
  (Bits "g" 1, typedef_u16);
  (Bits "base2" 8, typedef_u16)
].

Definition struct_thread_shstk : ctype := CStruct "thread_shstk" [
  (Fld "base", typedef_u64);
  (Fld "size", typedef_u64)
].

Definition struct_fpu_state_perm : ctype := CStruct "fpu_state_perm" [
  (Fld "__state_perm", typedef_u64);
  (Fld "__state_size", c_uint);
  (Fld "__user_state_size", c_uint)
].

Definition struct_fregs_state : ctype := CStruct "fregs_state" [
  (Fld "cwd", typedef_u32);
  (Fld "swd", typedef_u32);
  (Fld "twd", typedef_u32);
  (Fld "fip", typedef_u32);
  (Fld "fcs", typedef_u32);
  (Fld "foo", typedef_u32);
  (Fld "fos", typedef_u32);
  (Fld "st_space", CArr typedef_u32 20);
  (Fld "status", typedef_u32)
].

Definition struct_fxregs_state : ctype := CStruct "fxregs_state" [
  (Fld "cwd", typedef_u16);
  (Fld "swd", typedef_u16);
  (Fld "twd", typedef_u16);
  (Fld "fop", typedef_u16);
  (Anon, CUnion "" [
    (Anon, CStruct "" [
      (Fld "rip", typedef_u64);
      (Fld "rdp", typedef_u64)
    ]);
    (Anon, CStruct "" [
      (Fld "fip", typedef_u32);
      (Fld "fcs", typedef_u32);
      (Fld "foo", typedef_u32);
      (Fld "fos", typedef_u32)
    ])
  ]);
  (Fld "mxcsr", typedef_u32);
  (Fld "mxcsr_mask", typedef_u32);
  (Fld "st_space", CArr typedef_u32 32);
  (Fld "xmm_space", CArr typedef_u32 64);
  (Fld "padding", CArr typedef_u32 12);
  (Anon, CUnion "" [
    (Fld "padding1", CArr typedef_u32 12);
    (Fld "sw_reserved", CArr typedef_u32 12)
  ])
].

Definition struct_swregs_state : ctype := CStruct "swregs_state" [
  (Fld "cwd", typedef_u32);
  (Fld "swd", typedef_u32);
  (Fld "twd", typedef_u32);
  (Fld "fip", typedef_u32);
  (Fld "fcs", typedef_u32);
  (Fld "foo", typedef_u32);
  (Fld "fos", typedef_u32);
  (Fld "st_space", CArr typedef_u32 20);
  (Fld "ftop", typedef_u8);
  (Fld "changed", typedef_u8);
  (Fld "lookahead", typedef_u8);
  (Fld "no_update", typedef_u8);
  (Fld "rm", typedef_u8);
  (Fld "alimit", typedef_u8);
  (Fld "info", CPtr "struct math_emu_info");
  (Fld "entry_eip", typedef_u32)
].

Definition struct_xstate_header : ctype := CStruct "xstate_header" [
  (Fld "xfeatures", typedef_u64);
  (Fld "xcomp_bv", typedef_u64);
  (Fld "reserved", CArr typedef_u64 6)
].

Definition struct_xregs_state : ctype := CStruct "xregs_state" [
  (Fld "i387", struct_fxregs_state);
  (Fld "header", struct_xstate_header);
  (Fld "extended_state_area", CArr typedef_u8 0)
].

Definition union_fpregs_state : ctype := CUnion "fpregs_state" [
  (Fld "fsave", struct_fregs_state);
  (Fld "fxsave", struct_fxregs_state);
  (Fld "soft", struct_swregs_state);
  (Fld "xsave", struct_xregs_state);
  (Fld "__padding", CArr typedef_u8 4096)
].

Definition struct_fpstate : ctype := CStruct "fpstate" [
  (Fld "size", c_uint);
  (Fld "user_size", c_uint);
  (Fld "xfeatures", typedef_u64);
  (Fld "user_xfeatures", typedef_u64);
  (Fld "xfd", typedef_u64);
  (Bits "is_valloc" 1, c_uint);
  (Bits "is_guest" 1, c_uint);
  (Bits "is_confidential" 1, c_uint);
  (Bits "in_use" 1, c_uint);
  (Bits "" 64, c_long);
  (Bits "" 64, c_long);
  (Bits "" 64, c_long);
  (Fld "regs", union_fpregs_state)
].

Definition struct_fpu : ctype := CStruct "fpu" [
  (Fld "last_cpu", c_uint);
  (Fld "avx512_timestamp", c_ulong);
  (Fld "fpstate", CPtr "struct fpstate");
  (Fld "__task_fpstate", CPtr "struct fpstate");
  (Fld "perm", struct_fpu_state_perm);
  (Fld "guest_perm", struct_fpu_state_perm);
  (Fld "__fpstate", struct_fpstate)
].

Definition struct_thread_struct : ctype := CStruct "thread_struct" [
  (Fld "tls_array", CArr struct_desc_struct 3);
  (Fld "sp", c_ulong);
  (Fld "es", c_ushort);
  (Fld "ds", c_ushort);
  (Fld "fsindex", c_ushort);
  (Fld "gsindex", c_ushort);
  (Fld "fsbase", c_ulong);
  (Fld "gsbase", c_ulong);
  (Fld "ptrace_bps", CArr (CPtr "struct perf_event") 4);
  (Fld "virtual_dr6", c_ulong);
  (Fld "ptrace_dr7", c_ulong);
  (Fld "cr2", c_ulong);
  (Fld "trap_nr", c_ulong);
  (Fld "error_code", c_ulong);
  (Fld "io_bitmap", CPtr "struct io_bitmap");
  (Fld "iopl_emul", c_ulong);
  (Bits "iopl_warn" 1, c_uint);
  (Fld "pkru", typedef_u32);
  (Fld "features", c_ulong);
  (Fld "features_locked", c_ulong);
  (Fld "shstk", struct_thread_shstk);
  (Bits "" 64, c_long);
  (Fld "fpu", struct_fpu)
].

Definition struct_task_struct : ctype := CStruct "task_struct" [
  (Fld "thread_info", struct_thread_info);
  (Fld "__state", c_uint);
  (Fld "saved_state", c_uint);
  (Fld "stack", CPtr "void");
  (Fld "usage", typedef_refcount_t);
  (Fld "flags", c_uint);
  (Fld "ptrace", c_uint);
  (Fld "on_cpu", c_int);
  (Fld "wake_entry", struct___call_single_node);
  (Fld "wakee_flips", c_uint);
  (Fld "wakee_flip_decay_ts", c_ulong);
  (Fld "last_wakee", CPtr "struct task_struct");
  (Fld "recent_used_cpu", c_int);
  (Fld "wake_cpu", c_int);
  (Fld "on_rq", c_int);
  (Fld "prio", c_int);
  (Fld "static_prio", c_int);
  (Fld "normal_prio", c_int);
  (Fld "rt_priority", c_uint);
  (Fld "se", struct_sched_entity);
  (Fld "rt", struct_sched_rt_entity);
  (Fld "dl", struct_sched_dl_entity);
  (Fld "dl_server", CPtr "struct sched_dl_entity");
  (Fld "sched_class", CPtr "struct sched_class");
  (Fld "core_node", struct_rb_node);
  (Fld "core_cookie", c_ulong);
  (Fld "core_occupation", c_uint);
  (Fld "sched_task_group", CPtr "struct task_group");
  (Fld "uclamp_req", CArr struct_uclamp_se 2);
  (Fld "uclamp", CArr struct_uclamp_se 2);
  (Bits "" 64, c_long);
  (Fld "stats", struct_sched_statistics);
  (Fld "preempt_notifiers", struct_hlist_head);
  (Fld "btrace_seq", c_uint);
  (Fld "policy", c_uint);
  (Fld "nr_cpus_allowed", c_int);
  (Fld "cpus_ptr", CPtr "cpumask_t");
  (Fld "user_cpus_ptr", CPtr "cpumask_t");
  (Fld "cpus_mask", typedef_cpumask_t);
  (Fld "migration_pending", CPtr "void");
  (Fld "migration_disabled", c_ushort);
  (Fld "migration_flags", c_ushort);
  (Fld "rcu_read_lock_nesting", c_int);
  (Fld "rcu_read_unlock_special", union_rcu_special);
  (Fld "rcu_node_entry", struct_list_head);
  (Fld "rcu_blocked_node", CPtr "struct rcu_node");
  (Fld "rcu_tasks_nvcsw", c_ulong);
  (Fld "rcu_tasks_holdout", typedef_u8);
  (Fld "rcu_tasks_idx", typedef_u8);
  (Fld "rcu_tasks_idle_cpu", c_int);
  (Fld "rcu_tasks_holdout_list", struct_list_head);
  (Fld "rcu_tasks_exit_cpu", c_int);
  (Fld "rcu_tasks_exit_list", struct_list_head);
  (Fld "trc_reader_nesting", c_int);
  (Fld "trc_ipi_to_cpu", c_int);
  (Fld "trc_reader_special", union_rcu_special);
  (Fld "trc_holdout_list", struct_list_head);
  (Fld "trc_blkd_node", struct_list_head);
  (Fld "trc_blkd_cpu", c_int);
  (Fld "sched_info", struct_sched_info);
  (Fld "tasks", struct_list_head);
  (Fld "pushable_tasks", struct_plist_node);
  (Fld "pushable_dl_tasks", struct_rb_node);
  (Fld "mm", CPtr "struct mm_struct");
  (Fld "active_mm", CPtr "struct mm_struct");
  (Fld "faults_disabled_mapping", CPtr "struct address_space");
  (Fld "exit_state", c_int);
  (Fld "exit_code", c_int);
  (Fld "exit_signal", c_int);
  (Fld "pdeath_signal", c_int);
  (Fld "jobctl", c_ulong);
  (Fld "personality", c_uint);
  (Bits "sched_reset_on_fork" 1, c_uint);
  (Bits "sched_contributes_to_load" 1, c_uint);
  (Bits "sched_migrated" 1, c_uint);
  (Bits "sched_task_hot" 1, c_uint);
  (Bits "" 28, c_long);
  (Bits "sched_remote_wakeup" 1, c_uint);
  (Bits "sched_rt_mutex" 1, c_uint);
  (Bits "user_dumpable" 1, c_uint);
  (Bits "in_execve" 1, c_uint);
  (Bits "in_iowait" 1, c_uint);
  (Bits "restore_sigmask" 1, c_uint);
  (Bits "in_user_fault" 1, c_uint);
  (Bits "in_lru_fault" 1, c_uint);
  (Bits "no_cgroup_migration" 1, c_uint);
  (Bits "frozen" 1, c_uint);
  (Bits "use_memdelay" 1, c_uint);
  (Bits "in_memstall" 1, c_uint);
  (Bits "in_eventfd" 1, c_uint);
  (Bits "pasid_activated" 1, c_uint);
  (Bits "reported_split_lock" 1, c_uint);
  (Bits "in_thrashing" 1, c_uint);
  (Fld "atomic_flags", c_ulong);
  (Fld "restart_block", struct_restart_block);
  (Fld "pid", typedef_pid_t);
  (Fld "tgid", typedef_pid_t);
  (Fld "stack_canary", c_ulong);
  (Fld "real_parent", CPtr "struct task_struct");
  (Fld "parent", CPtr "struct task_struct");
  (Fld "children", struct_list_head);
  (Fld "sibling", struct_list_head);
  (Fld "group_leader", CPtr "struct task_struct");
  (Fld "ptraced", struct_list_head);
  (Fld "ptrace_entry", struct_list_head);
  (Fld "thread_pid", CPtr "struct pid");
  (Fld "pid_links", CArr struct_hlist_node 4);
  (Fld "thread_node", struct_list_head);
  (Fld "vfork_done", CPtr "struct completion");
  (Fld "set_child_tid", CPtr "int");
  (Fld "clear_child_tid", CPtr "int");
  (Fld "worker_private", CPtr "void");
  (Fld "utime", typedef_u64);
  (Fld "stime", typedef_u64);
  (Fld "gtime", typedef_u64);
  (Fld "prev_cputime", struct_prev_cputime);
  (Fld "vtime", struct_vtime);
  (Fld "tick_dep_mask", typedef_atomic_t);
  (Fld "nvcsw", c_ulong);
  (Fld "nivcsw", c_ulong);
  (Fld "start_time", typedef_u64);
  (Fld "start_boottime", typedef_u64);
  (Fld "min_flt", c_ulong);
  (Fld "maj_flt", c_ulong);
  (Fld "posix_cputimers", struct_posix_cputimers);
  (Fld "posix_cputimers_work", struct_posix_cputimers_work);
  (Fld "ptracer_cred", CPtr "struct cred");
  (Fld "real_cred", CPtr "struct cred");
  (Fld "cred", CPtr "struct cred");
  (Fld "cached_requested_key", CPtr "struct key");
  (Fld "comm", CArr c_char 16);
  (Fld "nameidata", CPtr "struct nameidata");
  (Fld "sysvsem", struct_sysv_sem);
  (Fld "sysvshm", struct_sysv_shm);
  (Fld "last_switch_count", c_ulong);
  (Fld "last_switch_time", c_ulong);
  (Fld "fs", CPtr "struct fs_struct");
  (Fld "files", CPtr "struct files_struct");
  (Fld "io_uring", CPtr "struct io_uring_task");
  (Fld "nsproxy", CPtr "struct nsproxy");
  (Fld "signal", CPtr "struct signal_struct");
  (Fld "sighand", CPtr "struct sighand_struct");
  (Fld "blocked", typedef_sigset_t);
  (Fld "real_blocked", typedef_sigset_t);
  (Fld "saved_sigmask", typedef_sigset_t);
  (Fld "pending", struct_sigpending);
  (Fld "sas_ss_sp", c_ulong);
  (Fld "sas_ss_size", typedef_size_t);
  (Fld "sas_ss_flags", c_uint);
  (Fld "task_works", CPtr "struct callback_head");
  (Fld "audit_context", CPtr "struct audit_context");
  (Fld "loginuid", typedef_kuid_t);
  (Fld "sessionid", c_uint);
  (Fld "seccomp", struct_seccomp);
  (Fld "syscall_dispatch", struct_syscall_user_dispatch);
  (Fld "parent_exec_id", typedef_u64);
  (Fld "self_exec_id", typedef_u64);
  (Fld "alloc_lock", typedef_spinlock_t);
  (Fld "pi_lock", typedef_raw_spinlock_t);
  (Fld "wake_q", struct_wake_q_node);
  (Fld "pi_waiters", struct_rb_root_cached);
  (Fld "pi_top_task", CPtr "struct task_struct");
  (Fld "pi_blocked_on", CPtr "struct rt_mutex_waiter");
  (Fld "in_ubsan", c_uint);
  (Fld "journal_info", CPtr "void");
  (Fld "bio_list", CPtr "struct bio_list");
  (Fld "plug", CPtr "struct blk_plug");
  (Fld "reclaim_state", CPtr "struct reclaim_state");
  (Fld "io_context", CPtr "struct io_context");
  (Fld "capture_control", CPtr "struct capture_control");
  (Fld "ptrace_message", c_ulong);
  (Fld "last_siginfo", CPtr "kernel_siginfo_t");
  (Fld "ioac", struct_task_io_accounting);
  (Fld "psi_flags", c_uint);
  (Fld "acct_rss_mem1", typedef_u64);
  (Fld "acct_vm_mem1", typedef_u64);
  (Fld "acct_timexpd", typedef_u64);
  (Fld "mems_allowed", typedef_nodemask_t);
  (Fld "mems_allowed_seq", typedef_seqcount_spinlock_t);
  (Fld "cpuset_mem_spread_rotor", c_int);
  (Fld "cpuset_slab_spread_rotor", c_int);
  (Fld "cgroups", CPtr "struct css_set");
  (Fld "cg_list", struct_list_head);
  (Fld "closid", typedef_u32);
  (Fld "rmid", typedef_u32);
  (Fld "robust_list", CPtr "struct robust_list_head");
  (Fld "compat_robust_list", CPtr "struct compat_robust_list_head");
  (Fld "pi_state_list", struct_list_head);
  (Fld "pi_state_cache", CPtr "struct futex_pi_state");
  (Fld "futex_exit_mutex", struct_mutex);
  (Fld "futex_state", c_uint);
  (Fld "perf_event_ctxp", CPtr "struct perf_event_context");
  (Fld "perf_event_mutex", struct_mutex);
  (Fld "perf_event_list", struct_list_head);
  (Fld "mempolicy", CPtr "struct mempolicy");
  (Fld "il_prev", c_short);
  (Fld "pref_node_fork", c_short);
  (Fld "numa_scan_seq", c_int);
  (Fld "numa_scan_period", c_uint);
  (Fld "numa_scan_period_max", c_uint);
  (Fld "numa_preferred_nid", c_int);
  (Fld "numa_migrate_retry", c_ulong);
  (Fld "node_stamp", typedef_u64);
  (Fld "last_task_numa_placement", typedef_u64);
  (Fld "last_sum_exec_runtime", typedef_u64);
  (Fld "numa_work", struct_callback_head);
  (Fld "numa_group", CPtr "struct numa_group");
  (Fld "numa_faults", CPtr "long unsigned int");
  (Fld "total_numa_faults", c_ulong);
  (Fld "numa_faults_locality", CArr c_ulong 3);
  (Fld "numa_pages_migrated", c_ulong);
  (Fld "rseq", CPtr "struct rseq");
  (Fld "rseq_len", typedef_u32);
  (Fld "rseq_sig", typedef_u32);
  (Fld "rseq_event_mask", c_ulong);
  (Fld "mm_cid", c_int);
  (Fld "last_mm_cid", c_int);
  (Fld "migrate_from_cpu", c_int);
  (Fld "mm_cid_active", c_int);
  (Fld "cid_work", struct_callback_head);
  (Fld "tlb_ubc", struct_tlbflush_unmap_batch);
  (Fld "splice_pipe", CPtr "struct pipe_inode_info");
  (Fld "task_frag", struct_page_frag);
  (Fld "delays", CPtr "struct task_delay_info");
  (Fld "nr_dirtied", c_int);
  (Fld "nr_dirtied_pause", c_int);
  (Fld "dirty_paused_when", c_ulong);
  (Fld "latency_record_count", c_int);
  (Fld "latency_record", CArr struct_latency_record 32);
  (Fld "timer_slack_ns", typedef_u64);
  (Fld "default_timer_slack_ns", typedef_u64);
  (Fld "curr_ret_stack", c_int);
  (Fld "curr_ret_depth", c_int);
  (Fld "ret_stack", CPtr "struct ftrace_ret_stack");
  (Fld "ftrace_timestamp", c_ullong);
  (Fld "trace_overrun", typedef_atomic_t);
  (Fld "tracing_graph_pause", typedef_atomic_t);
  (Fld "trace_recursion", c_ulong);
  (Fld "memcg_in_oom", CPtr "struct mem_cgroup");
  (Fld "memcg_oom_gfp_mask", typedef_gfp_t);
  (Fld "memcg_oom_order", c_int);
  (Fld "memcg_nr_pages_over_high", c_uint);
  (Fld "active_memcg", CPtr "struct mem_cgroup");
  (Fld "objcg", CPtr "struct obj_cgroup");
  (Fld "throttle_disk", CPtr "struct gendisk");
  (Fld "utask", CPtr "struct uprobe_task");
  (Fld "sequential_io", c_uint);
  (Fld "sequential_io_avg", c_uint);
  (Fld "kmap_ctrl", struct_kmap_ctrl);
  (Fld "rcu", struct_callback_head);
  (Fld "rcu_users", typedef_refcount_t);
  (Fld "pagefault_disabled", c_int);
  (Fld "oom_reaper_list", CPtr "struct task_struct");
  (Fld "oom_reaper_timer", struct_timer_list);
  (Fld "stack_vm_area", CPtr "struct vm_struct");
  (Fld "stack_refcount", typedef_refcount_t);
  (Fld "patch_state", c_int);
  (Fld "security", CPtr "void");
  (Fld "bpf_storage", CPtr "struct bpf_local_storage");
  (Fld "bpf_ctx", CPtr "struct bpf_run_ctx");
  (Fld "kstack_offset", typedef_u32);
  (Fld "mce_vaddr", CPtr "void");
  (Fld "mce_kflags", typedef___u64);
  (Fld "mce_addr", typedef_u64);
  (Bits "mce_ripv" 1, typedef___u64);
  (Bits "mce_whole_page" 1, typedef___u64);
  (Bits "__mce_reserved" 62, typedef___u64);
  (Fld "mce_kill_me", struct_callback_head);
  (Fld "mce_count", c_int);
  (Fld "kretprobe_instances", struct_llist_head);
  (Fld "rethooks", struct_llist_head);
  (Fld "l1d_flush_kill", struct_callback_head);
  (Fld "rv", CArr union_rv_task_monitor 1);
  (Fld "user_event_mm", CPtr "struct user_event_mm");
  (Bits "" 64, c_long);
  (Bits "" 64, c_long);
  (Bits "" 64, c_long);
  (Bits "" 64, c_long);
  (Bits "" 64, c_long);
  (Bits "" 64, c_long);
  (Bits "" 64, c_long);
  (Fld "thread", struct_thread_struct)
].

Definition struct_nsproxy : ctype := CStruct "nsproxy" [
  (Fld "count", typedef_refcount_t);
  (Fld "uts_ns", CPtr "struct uts_namespace");
  (Fld "ipc_ns", CPtr "struct ipc_namespace");
  (Fld "mnt_ns", CPtr "struct mnt_namespace");
  (Fld "pid_ns_for_children", CPtr "struct pid_namespace");
  (Fld "net_ns", CPtr "struct net");
  (Fld "time_ns", CPtr "struct time_namespace");
  (Fld "time_ns_for_children", CPtr "struct time_namespace");
  (Fld "cgroup_ns", CPtr "struct cgroup_namespace")
].

Definition struct_fdtable : ctype := CStruct "fdtable" [
  (Fld "max_fds", c_uint);
  (Fld "fd", CPtr "struct file *");
  (Fld "close_on_exec", CPtr "long unsigned int");
  (Fld "open_fds", CPtr "long unsigned int");
  (Fld "full_fds_bits", CPtr "long unsigned int");
  (Fld "rcu", struct_callback_head)
].

Definition struct_files_struct : ctype := CStruct "files_struct" [
  (Fld "count", typedef_atomic_t);
  (Fld "resize_in_progress", typedef_bool);
  (Fld "resize_wait", typedef_wait_queue_head_t);
  (Fld "fdt", CPtr "struct fdtable");
  (Fld "fdtab", struct_fdtable);
  (Bits "" 64, c_long);
  (Bits "" 64, c_long);
  (Bits "" 64, c_long);
  (Bits "" 64, c_long);
  (Fld "file_lock", typedef_spinlock_t);
  (Fld "next_fd", c_uint);
  (Fld "close_on_exec_init", CArr c_ulong 1);
  (Fld "open_fds_init", CArr c_ulong 1);
  (Fld "full_fds_bits_init", CArr c_ulong 1);
  (Fld "fd_array", CArr (CPtr "struct file") 64);
  (Bits "" 64, c_long);
  (Bits "" 64, c_long);
  (Bits "" 64, c_long);
  (Bits "" 64, c_long)
].

(** * Network namespaces

    [struct net] and what it embeds. *)

Definition struct_idr : ctype := CStruct "idr" [
  (Fld "idr_rt", struct_xarray);
  (Fld "idr_base", c_uint);
  (Fld "idr_next", c_uint)
].

Definition struct_ns_common : ctype := CStruct "ns_common" [
  (Fld "stashed", typedef_atomic_long_t);
  (Fld "ops", CPtr "struct proc_ns_operations");
  (Fld "inum", c_uint);
  (Fld "count", typedef_refcount_t)
].

Definition struct_ref_tracker_dir : ctype := CStruct "ref_tracker_dir" [].

Definition struct_ctl_table_header : ctype := CStruct "ctl_table_header" [
  (Anon, CUnion "" [
    (Anon, CStruct "" [
      (Fld "ctl_table", CPtr "struct ctl_table");
      (Fld "ctl_table_size", c_int);
      (Fld "used", c_int);
      (Fld "count", c_int);
      (Fld "nreg", c_int)
    ]);
    (Fld "rcu", struct_callback_head)
  ]);
  (Fld "unregistering", CPtr "struct completion");
  (Fld "ctl_table_arg", CPtr "struct ctl_table");
  (Fld "root", CPtr "struct ctl_table_root");
  (Fld "set", CPtr "struct ctl_table_set");
  (Fld "parent", CPtr "struct ctl_dir");
  (Fld "node", CPtr "struct ctl_node");
  (Fld "inodes", struct_hlist_head)
].

Definition struct_ctl_dir : ctype := CStruct "ctl_dir" [
  (Fld "header", struct_ctl_table_header);
  (Fld "root", struct_rb_root)
].

Definition struct_ctl_table_set : ctype := CStruct "ctl_table_set" [
  (Fld "is_seen", (CPtr "fn"));
  (Fld "dir", struct_ctl_dir)
].

Definition struct_raw_notifier_head : ctype := CStruct "raw_notifier_head" [
  (Fld "head", CPtr "struct notifier_block")
].

Definition struct_netns_core : ctype := CStruct "netns_core" [
  (Fld "sysctl_hdr", CPtr "struct ctl_table_header");
  (Fld "sysctl_somaxconn", c_int);
  (Fld "sysctl_optmem_max", c_int);
  (Fld "sysctl_txrehash", typedef_u8);
  (Fld "prot_inuse", CPtr "struct prot_inuse");
  (Fld "rps_default_mask", CPtr "struct cpumask")
].

Definition struct_netns_mib : ctype := CStruct "netns_mib" [
  (Fld "ip_statistics", CPtr "struct ipstats_mib");
  (Fld "ipv6_statistics", CPtr "struct ipstats_mib");
  (Fld "tcp_statistics", CPtr "struct tcp_mib");
  (Fld "net_statistics", CPtr "struct linux_mib");
  (Fld "udp_statistics", CPtr "struct udp_mib");
  (Fld "udp_stats_in6", CPtr "struct udp_mib");
  (Fld "xfrm_statistics", CPtr "struct linux_xfrm_mib");
  (Fld "tls_statistics", CPtr "struct linux_tls_mib");
  (Fld "mptcp_statistics", CPtr "struct mptcp_mib");
  (Fld "udplite_statistics", CPtr "struct udp_mib");
  (Fld "udplite_stats_in6", CPtr "struct udp_mib");
  (Fld "icmp_statistics", CPtr "struct icmp_mib");
  (Fld "icmpmsg_statistics", CPtr "struct icmpmsg_mib");
  (Fld "icmpv6_statistics", CPtr "struct icmpv6_mib");
  (Fld "icmpv6msg_statistics", CPtr "struct icmpv6msg_mib");
  (Fld "proc_net_devsnmp6", CPtr "struct proc_dir_entry")
].

Definition struct_netns_packet : ctype := CStruct "netns_packet" [
  (Fld "sklist_lock", struct_mutex);
  (Fld "sklist", struct_hlist_head)
].

Definition struct_unix_table : ctype := CStruct "unix_table" [
  (Fld "locks", CPtr "spinlock_t");
  (Fld "buckets", CPtr "struct hlist_head")
].

Definition struct_netns_unix : ctype := CStruct "netns_unix" [
  (Fld "table", struct_unix_table);
  (Fld "sysctl_max_dgram_qlen", c_int);
  (Fld "ctl", CPtr "struct ctl_table_header")
].

Definition struct_blocking_notifier_head : ctype := CStruct "blocking_notifier_head" [
  (Fld "rwsem", struct_rw_semaphore);
  (Fld "head", CPtr "struct notifier_block")
].

Definition struct_netns_nexthop : ctype := CStruct "netns_nexthop" [
  (Fld "rb_root", struct_rb_root);
  (Fld "devhash", CPtr "struct hlist_head");
  (Fld "seq", c_uint);
  (Fld "last_id_allocated", typedef_u32);
  (Fld "notifier_chain", struct_blocking_notifier_head)
].

Definition struct_inet_timewait_death_row : ctype := CStruct "inet_timewait_death_row" [
  (Fld "tw_refcount", typedef_refcount_t);
  (Bits "" 64, c_long);
  (Bits "" 64, c_long);
  (Bits "" 64, c_long);
  (Bits "" 64, c_long);
  (Bits "" 64, c_long);
  (Bits "" 64, c_long);
  (Bits "" 64, c_long);
  (Fld "hashinfo", CPtr "struct inet_hashinfo");
  (Fld "sysctl_max_tw_buckets", c_int);
  (Bits "" 64, c_long);
  (Bits "" 64, c_long);
  (Bits "" 64, c_long);
  (Bits "" 64, c_long);
  (Bits "" 64, c_long);
  (Bits "" 64, c_long)
].

Definition struct_local_ports : ctype := CStruct "local_ports" [
  (Fld "range", typedef_u32);
  (Fld "warned", typedef_bool)
].

Definition typedef_seqlock_t : ctype := CStruct "seqlock_t" [
  (Fld "seqcount", typedef_seqcount_spinlock_t);
  (Fld "lock", typedef_spinlock_t)
].

Definition struct_ping_group_range : ctype := CStruct "ping_group_range" [
  (Fld "lock", typedef_seqlock_t);
  (Fld "range", CArr typedef_kgid_t 2)
].

Definition typedef_siphash_key_t : ctype := CStruct "siphash_key_t" [
  (Fld "key", CArr typedef_u64 2)
].

Definition struct_netns_ipv4 : ctype := CStruct "netns_ipv4" [
  (Fld "__cacheline_group_begin__netns_ipv4_read_tx", CArr typedef___u8 0);
  (Fld "sysctl_tcp_early_retrans", typedef_u8);
  (Fld "sysctl_tcp_tso_win_divisor", typedef_u8);
  (Fld "sysctl_tcp_tso_rtt_log", typedef_u8);
  (Fld "sysctl_tcp_autocorking", typedef_u8);
  (Fld "sysctl_tcp_min_snd_mss", c_int);
  (Fld "sysctl_tcp_notsent_lowat", c_uint);
  (Fld "sysctl_tcp_limit_output_bytes", c_int);
  (Fld "sysctl_tcp_min_rtt_wlen", c_int);
  (Fld "sysctl_tcp_wmem", CArr c_int 3);
  (Fld "sysctl_ip_fwd_use_pmtu", typedef_u8);
  (Fld "__cacheline_group_end__netns_ipv4_read_tx", CArr typedef___u8 0);
  (Fld "__cacheline_group_begin__netns_ipv4_read_txrx", CArr typedef___u8 0);
  (Fld "sysctl_tcp_moderate_rcvbuf", typedef_u8);
  (Fld "__cacheline_group_end__netns_ipv4_read_txrx", CArr typedef___u8 0);
  (Fld "__cacheline_group_begin__netns_ipv4_read_rx", CArr typedef___u8 0);
  (Fld "sysctl_ip_early_demux", typedef_u8);
  (Fld "sysctl_tcp_early_demux", typedef_u8);
  (Fld "sysctl_tcp_reordering", c_int);
  (Fld "sysctl_tcp_rmem", CArr c_int 3);
  (Fld "__cacheline_group_end__netns_ipv4_read_rx", CArr typedef___u8 0);
  (Bits "" 64, c_long);
  (Fld "__cacheline_group_begin__icmp", CArr typedef___u8 0);
  (Fld "icmp_global_credit", typedef_atomic_t);
  (Fld "icmp_global_stamp", typedef_u32);
  (Fld "__cacheline_group_end__icmp", CArr typedef___u8 0);
  (Bits "" 64, c_long);
  (Bits "" 64, c_long);
  (Bits "" 64, c_long);
  (Bits "" 64, c_long);
  (Bits "" 64, c_long);
  (Bits "" 64, c_long);
  (Bits "" 64, c_long);
  (Fld "__cacheline_group_pad__icmp", (CStruct "" []));
  (Fld "tcp_death_row", struct_inet_timewait_death_row);
  (Fld "udp_table", CPtr "struct udp_table");
  (Fld "forw_hdr", CPtr "struct ctl_table_header");
  (Fld "frags_hdr", CPtr "struct ctl_table_header");
  (Fld "ipv4_hdr", CPtr "struct ctl_table_header");
  (Fld "route_hdr", CPtr "struct ctl_table_header");
  (Fld "xfrm4_hdr", CPtr "struct ctl_table_header");
  (Fld "devconf_all", CPtr "struct ipv4_devconf");
  (Fld "devconf_dflt", CPtr "struct ipv4_devconf");
  (Fld "ra_chain", CPtr "struct ip_ra_chain");
  (Fld "ra_mutex", struct_mutex);
  (Fld "rules_ops", CPtr "struct fib_rules_ops");
  (Fld "fib_main", CPtr "struct fib_table");
  (Fld "fib_default", CPtr "struct fib_table");
  (Fld "fib_rules_require_fldissect", c_uint);
  (Fld "fib_has_custom_rules", typedef_bool);
  (Fld "fib_has_custom_local_routes", typedef_bool);
  (Fld "fib_offload_disabled", typedef_bool);
  (Fld "sysctl_tcp_shrink_window", typedef_u8);
  (Fld "fib_num_tclassid_users", typedef_atomic_t);
  (Fld "fib_table_hash", CPtr "struct hlist_head");
  (Fld "fibnl", CPtr "struct sock");
  (Fld "mc_autojoin_sk", CPtr "struct sock");
  (Fld "peers", CPtr "struct inet_peer_base");
  (Fld "fqdir", CPtr "struct fqdir");
  (Fld "sysctl_icmp_echo_ignore_all", typedef_u8);
  (Fld "sysctl_icmp_echo_enable_probe", typedef_u8);
  (Fld "sysctl_icmp_echo_ignore_broadcasts", typedef_u8);
  (Fld "sysctl_icmp_ignore_bogus_error_responses", typedef_u8);
  (Fld "sysctl_icmp_errors_use_inbound_ifaddr", typedef_u8);
  (Fld "sysctl_icmp_ratelimit", c_int);
  (Fld "sysctl_icmp_ratemask", c_int);
  (Fld "sysctl_icmp_msgs_per_sec", c_int);
  (Fld "sysctl_icmp_msgs_burst", c_int);
  (Fld "ip_rt_min_pmtu", typedef_u32);
  (Fld "ip_rt_mtu_expires", c_int);
  (Fld "ip_rt_min_advmss", c_int);
  (Fld "ip_local_ports", struct_local_ports);
  (Fld "sysctl_tcp_ecn", typedef_u8);
  (Fld "sysctl_tcp_ecn_fallback", typedef_u8);
  (Fld "sysctl_ip_default_ttl", typedef_u8);
  (Fld "sysctl_ip_no_pmtu_disc", typedef_u8);
  (Fld "sysctl_ip_fwd_update_priority", typedef_u8);
  (Fld "sysctl_ip_nonlocal_bind", typedef_u8);
  (Fld "sysctl_ip_autobind_reuse", typedef_u8);
  (Fld "sysctl_ip_dynaddr", typedef_u8);
  (Fld "sysctl_raw_l3mdev_accept", typedef_u8);
  (Fld "sysctl_udp_early_demux", typedef_u8);
  (Fld "sysctl_nexthop_compat_mode", typedef_u8);
  (Fld "sysctl_fwmark_reflect", typedef_u8);
  (Fld "sysctl_tcp_fwmark_accept", typedef_u8);
  (Fld "sysctl_tcp_l3mdev_accept", typedef_u8);
  (Fld "sysctl_tcp_mtu_probing", typedef_u8);
  (Fld "sysctl_tcp_mtu_probe_floor", c_int);
  (Fld "sysctl_tcp_base_mss", c_int);
  (Fld "sysctl_tcp_probe_threshold", c_int);
  (Fld "sysctl_tcp_probe_interval", typedef_u32);
  (Fld "sysctl_tcp_keepalive_time", c_int);
  (Fld "sysctl_tcp_keepalive_intvl", c_int);
  (Fld "sysctl_tcp_keepalive_probes", typedef_u8);
  (Fld "sysctl_tcp_syn_retries", typedef_u8);
  (Fld "sysctl_tcp_synack_retries", typedef_u8);
  (Fld "sysctl_tcp_syncookies", typedef_u8);
  (Fld "sysctl_tcp_migrate_req", typedef_u8);
  (Fld "sysctl_tcp_comp_sack_nr", typedef_u8);
  (Fld "sysctl_tcp_backlog_ack_defer", typedef_u8);
  (Fld "sysctl_tcp_pingpong_thresh", typedef_u8);
  (Fld "sysctl_tcp_retries1", typedef_u8);
  (Fld "sysctl_tcp_retries2", typedef_u8);
  (Fld "sysctl_tcp_orphan_retries", typedef_u8);
  (Fld "sysctl_tcp_tw_reuse", typedef_u8);
  (Fld "sysctl_tcp_fin_timeout", c_int);
  (Fld "sysctl_tcp_sack", typedef_u8);
  (Fld "sysctl_tcp_window_scaling", typedef_u8);
  (Fld "sysctl_tcp_timestamps", typedef_u8);
  (Fld "sysctl_tcp_recovery", typedef_u8);
  (Fld "sysctl_tcp_thin_linear_timeouts", typedef_u8);
  (Fld "sysctl_tcp_slow_start_after_idle", typedef_u8);
  (Fld "sysctl_tcp_retrans_collapse", typedef_u8);
  (Fld "sysctl_tcp_stdurg", typedef_u8);
  (Fld "sysctl_tcp_rfc1337", typedef_u8);
  (Fld "sysctl_tcp_abort_on_overflow", typedef_u8);
  (Fld "sysctl_tcp_fack", typedef_u8);
  (Fld "sysctl_tcp_max_reordering", c_int);
  (Fld "sysctl_tcp_adv_win_scale", c_int);
  (Fld "sysctl_tcp_dsack", typedef_u8);
  (Fld "sysctl_tcp_app_win", typedef_u8);
  (Fld "sysctl_tcp_frto", typedef_u8);
  (Fld "sysctl_tcp_nometrics_save", typedef_u8);
  (Fld "sysctl_tcp_no_ssthresh_metrics_save", typedef_u8);
  (Fld "sysctl_tcp_workaround_signed_windows", typedef_u8);
  (Fld "sysctl_tcp_challenge_ack_limit", c_int);
  (Fld "sysctl_tcp_min_tso_segs", typedef_u8);
  (Fld "sysctl_tcp_reflect_tos", typedef_u8);
  (Fld "sysctl_tcp_invalid_ratelimit", c_int);
  (Fld "sysctl_tcp_pacing_ss_ratio", c_int);
  (Fld "sysctl_tcp_pacing_ca_ratio", c_int);
  (Fld "sysctl_tcp_child_ehash_entries", c_uint);
  (Fld "sysctl_tcp_comp_sack_delay_ns", c_ulong);
  (Fld "sysctl_tcp_comp_sack_slack_ns", c_ulong);
  (Fld "sysctl_max_syn_backlog", c_int);
  (Fld "sysctl_tcp_fastopen", c_int);
  (Fld "tcp_congestion_control", CPtr "struct tcp_congestion_ops");
  (Fld "tcp_fastopen_ctx", CPtr "struct tcp_fastopen_context");
  (Fld "sysctl_tcp_fastopen_blackhole_timeout", c_uint);
  (Fld "tfo_active_disable_times", typedef_atomic_t);
  (Fld "tfo_active_disable_stamp", c_ulong);
  (Fld "tcp_challenge_timestamp", typedef_u32);
  (Fld "tcp_challenge_count", typedef_u32);
  (Fld "sysctl_tcp_plb_enabled", typedef_u8);
  (Fld "sysctl_tcp_plb_idle_rehash_rounds", typedef_u8);
  (Fld "sysctl_tcp_plb_rehash_rounds", typedef_u8);
  (Fld "sysctl_tcp_plb_suspend_rto_sec", typedef_u8);
  (Fld "sysctl_tcp_plb_cong_thresh", c_int);
  (Fld "sysctl_udp_wmem_min", c_int);
  (Fld "sysctl_udp_rmem_min", c_int);
  (Fld "sysctl_fib_notify_on_flag_change", typedef_u8);
  (Fld "sysctl_tcp_syn_linear_timeouts", typedef_u8);
  (Fld "sysctl_udp_l3mdev_accept", typedef_u8);
  (Fld "sysctl_igmp_llm_reports", typedef_u8);
  (Fld "sysctl_igmp_max_memberships", c_int);
  (Fld "sysctl_igmp_max_msf", c_int);
  (Fld "sysctl_igmp_qrv", c_int);
  (Fld "ping_group_range", struct_ping_group_range);
  (Fld "dev_addr_genid", typedef_atomic_t);
  (Fld "sysctl_udp_child_hash_entries", c_uint);
  (Fld "sysctl_local_reserved_ports", CPtr "long unsigned int");
  (Fld "sysctl_ip_prot_sock", c_int);
  (Fld "mr_tables", struct_list_head);
  (Fld "mr_rules_ops", CPtr "struct fib_rules_ops");
  (Fld "sysctl_fib_multipath_hash_fields", typedef_u32);
  (Fld "sysctl_fib_multipath_use_neigh", typedef_u8);
  (Fld "sysctl_fib_multipath_hash_policy", typedef_u8);
  (Fld "notifier_ops", CPtr "struct fib_notifier_ops");
  (Fld "fib_seq", c_uint);
  (Fld "ipmr_notifier_ops", CPtr "struct fib_notifier_ops");
  (Fld "ipmr_seq", c_uint);
  (Fld "rt_genid", typedef_atomic_t);
  (Fld "ip_id_key", typedef_siphash_key_t);
  (Bits "" 64, c_long);
  (Bits "" 64, c_long);
  (Bits "" 64, c_long)
].

Definition struct_percpu_counter : ctype := CStruct "percpu_counter" [
  (Fld "lock", typedef_raw_spinlock_t);
  (Fld "count", typedef_s64);
  (Fld "list", struct_list_head);
  (Fld "counters", CPtr "s32")
].

Definition struct_dst_ops : ctype := CStruct "dst_ops" [
  (Fld "family", c_ushort);
  (Fld "gc_thresh", c_uint);
  (Fld "gc", (CPtr "fn"));
  (Fld "check", (CPtr "fn"));
  (Fld "default_advmss", (CPtr "fn"));
  (Fld "mtu", (CPtr "fn"));
  (Fld "cow_metrics", (CPtr "fn"));
  (Fld "destroy", (CPtr "fn"));
  (Fld "ifdown", (CPtr "fn"));
  (Fld "negative_advice", (CPtr "fn"));
  (Fld "link_failure", (CPtr "fn"));
  (Fld "update_pmtu", (CPtr "fn"));
  (Fld "redirect", (CPtr "fn"));
  (Fld "local_out", (CPtr "fn"));
  (Fld "neigh_lookup", (CPtr "fn"));
  (Fld "confirm_neigh", (CPtr "fn"));
  (Fld "kmem_cachep", CPtr "struct kmem_cache");
  (Fld "pcpuc_entries", struct_percpu_counter);
  (Bits "" 64, c_long);
  (Bits "" 64, c_long);
  (Bits "" 64, c_long)
].

Definition struct_netns_sysctl_ipv6 : ctype := CStruct "netns_sysctl_ipv6" [
  (Fld "hdr", CPtr "struct ctl_table_header");
  (Fld "route_hdr", CPtr "struct ctl_table_header");
  (Fld "icmp_hdr", CPtr "struct ctl_table_header");
  (Fld "frags_hdr", CPtr "struct ctl_table_header");
  (Fld "xfrm6_hdr", CPtr "struct ctl_table_header");
  (Fld "flush_delay", c_int);
  (Fld "ip6_rt_max_size", c_int);
  (Fld "ip6_rt_gc_min_interval", c_int);
  (Fld "ip6_rt_gc_timeout", c_int);
  (Fld "ip6_rt_gc_interval", c_int);
  (Fld "ip6_rt_gc_elasticity", c_int);
  (Fld "ip6_rt_mtu_expires", c_int);
  (Fld "ip6_rt_min_advmss", c_int);
  (Fld "multipath_hash_fields", typedef_u32);
  (Fld "multipath_hash_policy", typedef_u8);
  (Fld "bindv6only", typedef_u8);
  (Fld "flowlabel_consistency", typedef_u8);
  (Fld "auto_flowlabels", typedef_u8);
  (Fld "icmpv6_time", c_int);
  (Fld "icmpv6_echo_ignore_all", typedef_u8);
  (Fld "icmpv6_echo_ignore_multicast", typedef_u8);
  (Fld "icmpv6_echo_ignore_anycast", typedef_u8);
  (Fld "icmpv6_ratemask", CArr c_ulong 4);
  (Fld "icmpv6_ratemask_ptr", CPtr "long unsigned int");
  (Fld "anycast_src_echo_reply", typedef_u8);
  (Fld "ip_nonlocal_bind", typedef_u8);
  (Fld "fwmark_reflect", typedef_u8);
  (Fld "flowlabel_state_ranges", typedef_u8);
  (Fld "idgen_retries", c_int);
  (Fld "idgen_delay", c_int);
  (Fld "flowlabel_reflect", c_int);
  (Fld "max_dst_opts_cnt", c_int);
  (Fld "max_hbh_opts_cnt", c_int);
  (Fld "max_dst_opts_len", c_int);
  (Fld "max_hbh_opts_len", c_int);
  (Fld "seg6_flowlabel", c_int);
  (Fld "ioam6_id", typedef_u32);
  (Fld "ioam6_id_wide", typedef_u64);
  (Fld "skip_notify_on_dev_down", typedef_u8);
  (Fld "fib_notify_on_flag_change", typedef_u8);
  (Fld "icmpv6_error_anycast_as_unicast", typedef_u8)
].

Definition typedef_work_func_t : ctype := CPtr "fn".

Definition struct_work_struct : ctype := CStruct "work_struct" [
  (Fld "data", typedef_atomic_long_t);
  (Fld "entry", struct_list_head);
  (Fld "func", typedef_work_func_t)
].

Definition struct_delayed_work : ctype := CStruct "delayed_work" [
  (Fld "work", struct_work_struct);
  (Fld "timer", struct_timer_list);
  (Fld "wq", CPtr "struct workqueue_struct");
  (Fld "cpu", c_int)
].

Definition struct_netns_ipv6 : ctype := CStruct "netns_ipv6" [
  (Fld "ip6_dst_ops", struct_dst_ops);
  (Fld "sysctl", struct_netns_sysctl_ipv6);
  (Fld "devconf_all", CPtr "struct ipv6_devconf");
  (Fld "devconf_dflt", CPtr "struct ipv6_devconf");
  (Fld "peers", CPtr "struct inet_peer_base");
  (Fld "fqdir", CPtr "struct fqdir");
  (Fld "fib6_null_entry", CPtr "struct fib6_info");
  (Fld "ip6_null_entry", CPtr "struct rt6_info");
  (Fld "rt6_stats", CPtr "struct rt6_statistics");
  (Fld "ip6_fib_timer", struct_timer_list);
  (Fld "fib_table_hash", CPtr "struct hlist_head");
  (Fld "fib6_main_tbl", CPtr "struct fib6_table");
  (Fld "fib6_walkers", struct_list_head);
  (Fld "fib6_walker_lock", typedef_rwlock_t);
  (Fld "fib6_gc_lock", typedef_spinlock_t);
  (Fld "ip6_rt_gc_expire", typedef_atomic_t);
  (Fld "ip6_rt_last_gc", c_ulong);
  (Fld "flowlabel_has_excl", c_uchar);
  (Fld "fib6_has_custom_rules", typedef_bool);
  (Fld "fib6_rules_require_fldissect", c_uint);
  (Fld "fib6_routes_require_src", c_uint);
  (Fld "ip6_prohibit_entry", CPtr "struct rt6_info");
  (Fld "ip6_blk_hole_entry", CPtr "struct rt6_info");
  (Fld "fib6_local_tbl", CPtr "struct fib6_table");
  (Fld "fib6_rules_ops", CPtr "struct fib_rules_ops");
  (Fld "ndisc_sk", CPtr "struct sock");
  (Fld "tcp_sk", CPtr "struct sock");
  (Fld "igmp_sk", CPtr "struct sock");
  (Fld "mc_autojoin_sk", CPtr "struct sock");
  (Fld "inet6_addr_lst", CPtr "struct hlist_head");
  (Fld "addrconf_hash_lock", typedef_spinlock_t);
  (Fld "addr_chk_work", struct_delayed_work);
  (Fld "mr6_tables", struct_list_head);
  (Fld "mr6_rules_ops", CPtr "struct fib_rules_ops");
  (Fld "dev_addr_genid", typedef_atomic_t);
  (Fld "fib6_sernum", typedef_atomic_t);
  (Fld "seg6_data", CPtr "struct seg6_pernet_data");
  (Fld "notifier_ops", CPtr "struct fib_notifier_ops");
  (Fld "ip6mr_notifier_ops", CPtr "struct fib_notifier_ops");
  (Fld "ipmr_seq", c_uint);
  (Fld "ip6addrlbl_table", CStruct "" [
    (Fld "head", struct_hlist_head);
    (Fld "lock", typedef_spinlock_t);
    (Fld "seq", typedef_u32)
  ]);
  (Fld "ioam6_data", CPtr "struct ioam6_pernet_data");
  (Bits "" 64, c_long);
  (Bits "" 64, c_long);
  (Bits "" 64, c_long);
  (Bits "" 64, c_long)
].

Definition struct_netns_sysctl_lowpan : ctype := CStruct "netns_sysctl_lowpan" [
  (Fld "frags_hdr", CPtr "struct ctl_table_header")
].

Definition struct_netns_ieee802154_lowpan : ctype := CStruct "netns_ieee802154_lowpan" [
  (Fld "sysctl", struct_netns_sysctl_lowpan);
  (Fld "fqdir", CPtr "struct fqdir")
].

Definition struct_netns_sctp : ctype := CStruct "netns_sctp" [
  (Fld "sctp_statistics", CPtr "struct sctp_mib");
  (Fld "proc_net_sctp", CPtr "struct proc_dir_entry");
  (Fld "sysctl_header", CPtr "struct ctl_table_header");
  (Fld "ctl_sock", CPtr "struct sock");
  (Fld "udp4_sock", CPtr "struct sock");
  (Fld "udp6_sock", CPtr "struct sock");
  (Fld "udp_port", c_int);
  (Fld "encap_port", c_int);
  (Fld "local_addr_list", struct_list_head);
  (Fld "addr_waitq", struct_list_head);
  (Fld "addr_wq_timer", struct_timer_list);
  (Fld "auto_asconf_splist", struct_list_head);
  (Fld "addr_wq_lock", typedef_spinlock_t);
  (Fld "local_addr_lock", typedef_spinlock_t);
  (Fld "rto_initial", c_uint);
  (Fld "rto_min", c_uint);
  (Fld "rto_max", c_uint);
  (Fld "rto_alpha", c_int);
  (Fld "rto_beta", c_int);
  (Fld "max_burst", c_int);
  (Fld "cookie_preserve_enable", c_int);
  (Fld "sctp_hmac_alg", CPtr "char");
  (Fld "valid_cookie_life", c_uint);
  (Fld "sack_timeout", c_uint);
  (Fld "hb_interval", c_uint);
  (Fld "probe_interval", c_uint);
  (Fld "max_retrans_association", c_int);
  (Fld "max_retrans_path", c_int);
  (Fld "max_retrans_init", c_int);
  (Fld "pf_retrans", c_int);
  (Fld "ps_retrans", c_int);
  (Fld "pf_enable", c_int);
  (Fld "pf_expose", c_int);
  (Fld "sndbuf_policy", c_int);
  (Fld "rcvbuf_policy", c_int);
  (Fld "default_auto_asconf", c_int);
  (Fld "addip_enable", c_int);
  (Fld "addip_noauth", c_int);
  (Fld "prsctp_enable", c_int);
  (Fld "reconf_enable", c_int);
  (Fld "auth_enable", c_int);
  (Fld "intl_enable", c_int);
  (Fld "ecn_enable", c_int);
  (Fld "scope_policy", c_int);
  (Fld "rwnd_upd_shift", c_int);
  (Fld "max_autoclose", c_ulong);
  (Fld "l3mdev_accept", c_int)
].

Definition struct_netns_nf : ctype := CStruct "netns_nf" [
  (Fld "proc_netfilter", CPtr "struct proc_dir_entry");
  (Fld "nf_loggers", CArr (CPtr "struct nf_logger") 11);
  (Fld "nf_log_dir_header", CPtr "struct ctl_table_header");
  (Fld "nf_lwtnl_dir_header", CPtr "struct ctl_table_header");
  (Fld "hooks_ipv4", CArr (CPtr "struct nf_hook_entries") 5);
  (Fld "hooks_ipv6", CArr (CPtr "struct nf_hook_entries") 5);
  (Fld "hooks_arp", CArr (CPtr "struct nf_hook_entries") 3);
  (Fld "hooks_bridge", CArr (CPtr "struct nf_hook_entries") 5);
  (Fld "defrag_ipv4_users", c_uint);
  (Fld "defrag_ipv6_users", c_uint)
].

Definition struct_nf_generic_net : ctype := CStruct "nf_generic_net" [
  (Fld "timeout", c_uint)
].

Definition struct_nf_tcp_net : ctype := CStruct "nf_tcp_net" [
  (Fld "timeouts", CArr c_uint 14);
  (Fld "tcp_loose", typedef_u8);
  (Fld "tcp_be_liberal", typedef_u8);
  (Fld "tcp_max_retrans", typedef_u8);
  (Fld "tcp_ignore_invalid_rst", typedef_u8);
  (Fld "offload_timeout", c_uint)
].

Definition struct_nf_udp_net : ctype := CStruct "nf_udp_net" [
  (Fld "timeouts", CArr c_uint 2);
  (Fld "offload_timeout", c_uint)
].

Definition struct_nf_icmp_net : ctype := CStruct "nf_icmp_net" [
  (Fld "timeout", c_uint)
].

Definition struct_nf_dccp_net : ctype := CStruct "nf_dccp_net" [
  (Fld "dccp_loose", typedef_u8);
  (Fld "dccp_timeout", CArr c_uint 10)
].

Definition struct_nf_sctp_net : ctype := CStruct "nf_sctp_net" [
  (Fld "timeouts", CArr c_uint 10)
].

Definition struct_nf_gre_net : ctype := CStruct "nf_gre_net" [
  (Fld "keymap_list", struct_list_head);
  (Fld "timeouts", CArr c_uint 2)
].

Definition struct_nf_ip_net : ctype := CStruct "nf_ip_net" [
  (Fld "generic", struct_nf_generic_net);
  (Fld "tcp", struct_nf_tcp_net);
  (Fld "udp", struct_nf_udp_net);
  (Fld "icmp", struct_nf_icmp_net);
  (Fld "icmpv6", struct_nf_icmp_net);
  (Fld "dccp", struct_nf_dccp_net);
  (Fld "sctp", struct_nf_sctp_net);
  (Fld "gre", struct_nf_gre_net)
].

Definition struct_netns_ct : ctype := CStruct "netns_ct" [
  (Fld "ecache_dwork_pending", typedef_bool);
  (Fld "sysctl_log_invalid", typedef_u8);
  (Fld "sysctl_events", typedef_u8);
  (Fld "sysctl_acct", typedef_u8);
  (Fld "sysctl_tstamp", typedef_u8);
  (Fld "sysctl_checksum", typedef_u8);
  (Fld "stat", CPtr "struct ip_conntrack_stat");
  (Fld "nf_conntrack_event_cb", CPtr "struct nf_ct_event_notifier");
  (Fld "nf_ct_proto", struct_nf_ip_net);
  (Fld "labels_used", typedef_atomic_t)
].

Definition struct_netns_nftables : ctype := CStruct "netns_nftables" [
  (Fld "base_seq", c_uint);
  (Fld "gencursor", typedef_u8)
].

Definition struct_netns_ft : ctype := CStruct "netns_ft" [
  (Fld "stat", CPtr "struct nf_flow_table_stat")
].

Definition struct_netns_bpf : ctype := CStruct "netns_bpf" [
  (Fld "run_array", CArr (CPtr "struct bpf_prog_array") 2);
  (Fld "progs", CArr (CPtr "struct bpf_prog") 2);
  (Fld "links", CArr struct_list_head 2)
].

Definition struct_xfrm_policy_hash : ctype := CStruct "xfrm_policy_hash" [
  (Fld "table", CPtr "struct hlist_head");
  (Fld "hmask", c_uint);
  (Fld "dbits4", typedef_u8);
  (Fld "sbits4", typedef_u8);
  (Fld "dbits6", typedef_u8);
  (Fld "sbits6", typedef_u8)
].

Definition struct_xfrm_policy_hthresh : ctype := CStruct "xfrm_policy_hthresh" [
  (Fld "work", struct_work_struct);
  (Fld "lock", typedef_seqlock_t);
  (Fld "lbits4", typedef_u8);
  (Fld "rbits4", typedef_u8);
  (Fld "lbits6", typedef_u8);
  (Fld "rbits6", typedef_u8)
].

Definition struct_netns_xfrm : ctype := CStruct "netns_xfrm" [
  (Fld "state_all", struct_list_head);
  (Fld "state_bydst", CPtr "struct hlist_head");
  (Fld "state_bysrc", CPtr "struct hlist_head");
  (Fld "state_byspi", CPtr "struct hlist_head");
  (Fld "state_byseq", CPtr "struct hlist_head");
  (Fld "state_cache_input", CPtr "struct hlist_head");
  (Fld "state_hmask", c_uint);
  (Fld "state_num", c_uint);
  (Fld "state_hash_work", struct_work_struct);
  (Fld "policy_all", struct_list_head);
  (Fld "policy_byidx", CPtr "struct hlist_head");
  (Fld "policy_idx_hmask", c_uint);
  (Fld "idx_generator", c_uint);
  (Fld "policy_inexact", CArr struct_hlist_head 3);
  (Fld "policy_bydst", CArr struct_xfrm_policy_hash 3);
  (Fld "policy_count", CArr c_uint 6);
  (Fld "policy_hash_work", struct_work_struct);
  (Fld "policy_hthresh", struct_xfrm_policy_hthresh);
  (Fld "inexact_bins", struct_list_head);
  (Fld "nlsk", CPtr "struct sock");
  (Fld "nlsk_stash", CPtr "struct sock");
  (Fld "sysctl_aevent_etime", typedef_u32);
  (Fld "sysctl_aevent_rseqth", typedef_u32);
  (Fld "sysctl_larval_drop", c_int);
  (Fld "sysctl_acq_expires", typedef_u32);
  (Fld "policy_default", CArr typedef_u8 3);
  (Fld "sysctl_hdr", CPtr "struct ctl_table_header");
  (Bits "" 64, c_long);
  (Bits "" 64, c_long);
  (Fld "xfrm4_dst_ops", struct_dst_ops);
  (Fld "xfrm6_dst_ops", struct_dst_ops);
  (Fld "xfrm_state_lock", typedef_spinlock_t);
  (Fld "xfrm_state_hash_generation", typedef_seqcount_spinlock_t);
  (Fld "xfrm_policy_hash_generation", typedef_seqcount_spinlock_t);
  (Fld "xfrm_policy_lock", typedef_spinlock_t);
  (Fld "xfrm_cfg_mutex", struct_mutex);
  (Bits "" 64, c_long);
  (Bits "" 64, c_long)
].

Definition struct_netns_mpls : ctype := CStruct "netns_mpls" [
  (Fld "ip_ttl_propagate", c_int);
  (Fld "default_ttl", c_int);
  (Fld "platform_labels", typedef_size_t);
  (Fld "platform_label", CPtr "struct mpls_route *");
  (Fld "ctl", CPtr "struct ctl_table_header")
].

Definition struct_netns_can : ctype := CStruct "netns_can" [
  (Fld "proc_dir", CPtr "struct proc_dir_entry");
  (Fld "pde_stats", CPtr "struct proc_dir_entry");
  (Fld "pde_reset_stats", CPtr "struct proc_dir_entry");
  (Fld "pde_rcvlist_all", CPtr "struct proc_dir_entry");
  (Fld "pde_rcvlist_fil", CPtr "struct proc_dir_entry");
  (Fld "pde_rcvlist_inv", CPtr "struct proc_dir_entry");
  (Fld "pde_rcvlist_sff", CPtr "struct proc_dir_entry");
  (Fld "pde_rcvlist_eff", CPtr "struct proc_dir_entry");
  (Fld "pde_rcvlist_err", CPtr "struct proc_dir_entry");
  (Fld "bcmproc_dir", CPtr "struct proc_dir_entry");
  (Fld "rx_alldev_list", CPtr "struct can_dev_rcv_lists");
  (Fld "rcvlists_lock", typedef_spinlock_t);
  (Fld "stattimer", struct_timer_list);
  (Fld "pkg_stats", CPtr "struct can_pkg_stats");
  (Fld "rcv_lists_stats", CPtr "struct can_rcv_lists_stats");
  (Fld "cgw_list", struct_hlist_head)
].

Definition struct_netns_xdp : ctype := CStruct "netns_xdp" [
  (Fld "lock", struct_mutex);
  (Fld "list", struct_hlist_head)
].

Definition struct_netns_mctp : ctype := CStruct "netns_mctp" [
  (Fld "routes", struct_list_head);
  (Fld "bind_lock", struct_mutex);
  (Fld "binds", struct_hlist_head);
  (Fld "keys_lock", typedef_spinlock_t);
  (Fld "keys", struct_hlist_head);
  (Fld "default_net", c_uint);
  (Fld "neigh_lock", struct_mutex);
  (Fld "neighbours", struct_list_head)
].

Definition struct_netns_smc : ctype := CStruct "netns_smc" [
  (Fld "smc_stats", CPtr "struct smc_stats");
  (Fld "mutex_fback_rsn", struct_mutex);
  (Fld "fback_rsn", CPtr "struct smc_stats_rsn");
  (Fld "limit_smc_hs", typedef_bool);
  (Fld "smc_hdr", CPtr "struct ctl_table_header");
  (Fld "sysctl_autocorking_size", c_uint);
  (Fld "sysctl_smcr_buf_type", c_uint);
  (Fld "sysctl_smcr_testlink_time", c_int);
  (Fld "sysctl_wmem", c_int);
  (Fld "sysctl_rmem", c_int);
  (Fld "sysctl_max_links_per_lgr", c_int);
  (Fld "sysctl_max_conns_per_lgr", c_int)
].

Definition struct_net : ctype := CStruct "net" [
  (Fld "passive", typedef_refcount_t);
  (Fld "rules_mod_lock", typedef_spinlock_t);
  (Fld "dev_unreg_count", typedef_atomic_t);
  (Fld "dev_base_seq", c_uint);
  (Fld "ifindex", typedef_u32);
  (Fld "nsid_lock", typedef_spinlock_t);
  (Fld "fnhe_genid", typedef_atomic_t);
  (Fld "list", struct_list_head);
  (Fld "exit_list", struct_list_head);
  (Fld "defer_free_list", struct_llist_node);
  (Fld "cleanup_list", struct_llist_node);
  (Fld "key_domain", CPtr "struct key_tag");
  (Fld "user_ns", CPtr "struct user_namespace");
  (Fld "ucounts", CPtr "struct ucounts");
  (Fld "netns_ids", struct_idr);
  (Fld "ns", struct_ns_common);
  (Fld "refcnt_tracker", struct_ref_tracker_dir);
  (Fld "notrefcnt_tracker", struct_ref_tracker_dir);
  (Fld "dev_base_head", struct_list_head);
  (Fld "proc_net", CPtr "struct proc_dir_entry");
  (Fld "proc_net_stat", CPtr "struct proc_dir_entry");
  (Fld "sysctls", struct_ctl_table_set);
  (Fld "rtnl", CPtr "struct sock");
  (Fld "genl_sock", CPtr "struct sock");
  (Fld "uevent_sock", CPtr "struct uevent_sock");
  (Fld "dev_name_head", CPtr "struct hlist_head");
  (Fld "dev_index_head", CPtr "struct hlist_head");
  (Fld "dev_by_index", struct_xarray);
  (Fld "netdev_chain", struct_raw_notifier_head);
  (Fld "hash_mix", typedef_u32);
  (Fld "loopback_dev", CPtr "struct net_device");
  (Fld "rules_ops", struct_list_head);
  (Fld "core", struct_netns_core);
  (Fld "mib", struct_netns_mib);
  (Fld "packet", struct_netns_packet);
  (Fld "unx", struct_netns_unix);
  (Fld "nexthop", struct_netns_nexthop);
  (Bits "" 64, c_long);
  (Bits "" 64, c_long);
  (Fld "ipv4", struct_netns_ipv4);
  (Fld "ipv6", struct_netns_ipv6);
  (Fld "ieee802154_lowpan", struct_netns_ieee802154_lowpan);
  (Fld "sctp", struct_netns_sctp);
  (Fld "nf", struct_netns_nf);
  (Fld "ct", struct_netns_ct);
  (Fld "nft", struct_netns_nftables);
  (Fld "ft", struct_netns_ft);
  (Fld "wext_nlevents", struct_sk_buff_head);
  (Fld "gen", CPtr "struct net_generic");
  (Fld "bpf", struct_netns_bpf);
  (Bits "" 64, c_long);
  (Bits "" 64, c_long);
  (Bits "" 64, c_long);
  (Bits "" 64, c_long);
  (Fld "xfrm", struct_netns_xfrm);
  (Fld "net_cookie", typedef_u64);
  (Fld "ipvs", CPtr "struct netns_ipvs");
  (Fld "mpls", struct_netns_mpls);
  (Fld "can", struct_netns_can);
  (Fld "xdp", struct_netns_xdp);
  (Fld "mctp", struct_netns_mctp);
  (Fld "crypto_nlsk", CPtr "struct sock");
  (Fld "diag_nlsk", CPtr "struct sock");
  (Fld "smc", struct_netns_smc);
  (Bits "" 64, c_long);
  (Bits "" 64, c_long);
  (Bits "" 64, c_long)
].

(** * Arguments of hooked functions

    [struct msghdr], [struct linux_binprm], [struct sockaddr], [struct sockaddr_in], [struct pt_regs]
    and what they embed. *)

Definition enum_iter_type : list (string * Z) := [
  ("ITER_UBUF", 0);
  ("ITER_IOVEC", 1);
  ("ITER_BVEC", 2);
  ("ITER_KVEC", 3);
  ("ITER_XARRAY", 4);
  ("ITER_DISCARD", 5)
].

Definition struct_iovec : ctype := CStruct "iovec" [
  (Fld "iov_base", CPtr "void");
  (Fld "iov_len", typedef___kernel_size_t)
].

Definition struct_iov_iter : ctype := CStruct "iov_iter" [
  (Fld "iter_type", typedef_u8);
  (Fld "nofault", typedef_bool);
  (Fld "data_source", typedef_bool);
  (Fld "iov_offset", typedef_size_t);
  (Anon, CUnion "" [
    (Fld "__ubuf_iovec", struct_iovec);
    (Anon, CStruct "" [
      (Anon, CUnion "" [
        (Fld "__iov", CPtr "struct iovec");
        (Fld "kvec", CPtr "struct kvec");
        (Fld "bvec", CPtr "struct bio_vec");
        (Fld "xarray", CPtr "struct xarray");
        (Fld "ubuf", CPtr "void")
      ]);
      (Fld "count", typedef_size_t)
    ])
  ]);
  (Anon, CUnion "" [
    (Fld "nr_segs", c_ulong);
    (Fld "xarray_start", typedef_loff_t)
  ])
].

Definition struct_msghdr : ctype := CStruct "msghdr" [
  (Fld "msg_name", CPtr "void");
  (Fld "msg_namelen", c_int);
  (Fld "msg_inq", c_int);
  (Fld "msg_iter", struct_iov_iter);
  (Anon, CUnion "" [
    (Fld "msg_control", CPtr "void");
    (Fld "msg_control_user", CPtr "void")
  ]);
  (Bits "msg_control_is_user" 1, typedef_bool);
  (Bits "msg_get_inq" 1, typedef_bool);
  (Fld "msg_flags", c_uint);
  (Fld "msg_controllen", typedef___kernel_size_t);
  (Fld "msg_iocb", CPtr "struct kiocb");
  (Fld "msg_ubuf", CPtr "struct ubuf_info");
  (Fld "sg_from_iter", (CPtr "fn"))
].

Definition struct_rlimit : ctype := CStruct "rlimit" [
  (Fld "rlim_cur", typedef___kernel_ulong_t);
  (Fld "rlim_max", typedef___kernel_ulong_t)
].

Definition struct_linux_binprm : ctype := CStruct "linux_binprm" [
  (Fld "vma", CPtr "struct vm_area_struct");
  (Fld "vma_pages", c_ulong);
  (Fld "mm", CPtr "struct mm_struct");
  (Fld "p", c_ulong);
  (Fld "argmin", c_ulong);
  (Bits "have_execfd" 1, c_uint);
  (Bits "execfd_creds" 1, c_uint);
  (Bits "secureexec" 1, c_uint);
  (Bits "point_of_no_return" 1, c_uint);
  (Bits "comm_from_dentry" 1, c_uint);
  (Fld "executable", CPtr "struct file");
  (Fld "interpreter", CPtr "struct file");
  (Fld "file", CPtr "struct file");
  (Fld "cred", CPtr "struct cred");
  (Fld "unsafe", c_int);
  (Fld "per_clear", c_uint);
  (Fld "argc", c_int);
  (Fld "envc", c_int);
  (Fld "filename", CPtr "char");
  (Fld "interp", CPtr "char");
  (Fld "fdpath", CPtr "char");
  (Fld "interp_flags", c_uint);
  (Fld "execfd", c_int);
  (Fld "loader", c_ulong);
  (Fld "exec", c_ulong);
  (Fld "rlim_stack", struct_rlimit);
  (Fld "buf", CArr c_char 256)
].

Definition typedef___kernel_sa_family_t : ctype := c_ushort.

Definition typedef_sa_family_t : ctype := typedef___kernel_sa_family_t.

Definition struct_sockaddr : ctype := CStruct "sockaddr" [
  (Fld "sa_family", typedef_sa_family_t);
  (Anon, CUnion "" [
    (Fld "sa_data_min", CArr c_char 14);
    (Anon, CStruct "" [
      (Fld "__empty_sa_data", (CStruct "" []));
      (Fld "sa_data", CArr c_char 0)
    ])
  ])
].

Definition struct_in_addr : ctype := CStruct "in_addr" [
  (Fld "s_addr", typedef___be32)
].

Definition struct_sockaddr_in : ctype := CStruct "sockaddr_in" [
  (Fld "sin_family", typedef___kernel_sa_family_t);
  (Fld "sin_port", typedef___be16);
  (Fld "sin_addr", struct_in_addr);
  (Fld "__pad", CArr c_uchar 8)
].

Definition struct_fred_cs : ctype := CStruct "fred_cs" [
  (Bits "cs" 16, typedef_u64);
  (Bits "sl" 2, typedef_u64);
  (Bits "wfe" 1, typedef_u64)
].

Definition struct_fred_ss : ctype := CStruct "fred_ss" [
  (Bits "ss" 16, typedef_u64);
  (Bits "sti" 1, typedef_u64);
  (Bits "swevent" 1, typedef_u64);
  (Bits "nmi" 1, typedef_u64);
  (Bits "" 13, c_int);
  (Bits "vector" 8, typedef_u64);
  (Bits "" 8, c_short);
  (Bits "type" 4, typedef_u64);
  (Bits "" 4, c_char);
  (Bits "enclave" 1, typedef_u64);
  (Bits "lm" 1, typedef_u64);
  (Bits "nested" 1, typedef_u64);
  (Bits "" 1, c_char);
  (Bits "insnlen" 4, typedef_u64)
].

Definition struct_pt_regs : ctype := CStruct "pt_regs" [
  (Fld "r15", c_ulong);
  (Fld "r14", c_ulong);
  (Fld "r13", c_ulong);
  (Fld "r12", c_ulong);
  (Fld "bp", c_ulong);
  (Fld "bx", c_ulong);
  (Fld "r11", c_ulong);
  (Fld "r10", c_ulong);
  (Fld "r9", c_ulong);
  (Fld "r8", c_ulong);
  (Fld "ax", c_ulong);
  (Fld "cx", c_ulong);
  (Fld "dx", c_ulong);
  (Fld "si", c_ulong);
  (Fld "di", c_ulong);
  (Fld "orig_ax", c_ulong);
  (Fld "ip", c_ulong);
  (Anon, CUnion "" [
    (Fld "cs", typedef_u16);
    (Fld "csx", typedef_u64);
    (Fld "fred_cs", struct_fred_cs)
  ]);
  (Fld "flags", c_ulong);
  (Fld "sp", c_ulong);
  (Anon, CUnion "" [
    (Fld "ss", typedef_u16);
    (Fld "ssx", typedef_u64);
    (Fld "fred_ss", struct_fred_ss)
  ])
].
