(* ===== verification/Abi.v ===== *)
(** The data of [bpf/http_trace.bpf.c]: its constants, the structs it stores in maps and sends
    through ring buffers, the maps themselves (with their key and value types) and the machine
    context a probe receives. *)

From S2P Require Import Prelude.

(** * Constants *)

Definition MAX_DATA : Z := 32768.

Definition AF_INET : Z := 2.
Definition AF_INET6 : Z := 10.
Definition EPERM : Z := 1.

Definition TLS_EVENT_ABI_VERSION : Z := 2.

(** [tls_event_hdr.flags]: one bit each. *)
Definition FLAG_TRUNCATED : Z := Z.shiftl 1 0.
Definition FLAG_ATTR_SSL : Z := Z.shiftl 1 1.
Definition FLAG_ATTR_THREAD : Z := Z.shiftl 1 2.

(** [tls_event_hdr.attribution] *)
Definition ATTR_NONE : Z := 0.
Definition ATTR_SSL : Z := 1.
Definition ATTR_THREAD : Z := 2.

(** [tls_event_hdr.provider_id] *)
Definition PROVIDER_OPENSSL : Z := 1.
Definition PROVIDER_GNUTLS : Z := 2.
Definition PROVIDER_GO_TLS : Z := 3.
Definition PROVIDER_QUIC : Z := 4.
Definition PROVIDER_KTLS : Z := 5.
Definition PROVIDER_NSS : Z := 6.

(** [conn_info.role] and [tls_event_hdr.role_hint] *)
Definition ROLE_SERVER : Z := 1.
Definition ROLE_CLIENT : Z := 2.

Definition MAX_BLOCKED_CIDRS : Z := 16.

(** * Event records *)

Record tls_event_hdr := {
  h_ts_ns : Z;
  h_pid : Z;
  h_tid : Z;
  h_ssl_ptr : Z;
  h_data_len : Z;
  h_direction : Z;
  h_ip_family : Z;
  h__pad16 : Z;
  h_comm : list byte;
  h_cgroup_id : Z;
  h_netns_ino : Z;
  h_src_port : Z;
  h_dst_port : Z;
  h_src_ip4 : Z;
  h_dst_ip4 : Z;
  h_src_ip6 : list byte;
  h_dst_ip6 : list byte;
  h_abi_version : Z;
  h_flags : Z;
  h_actual_len : Z;
  h_copied_len : Z;
  h_conn_generation : Z;
  h_proc_start_ns : Z;
  h_dir_seq : Z;
  h_attribution : Z;
  h_provider_id : Z;
  h_role_hint : Z;
  h__pad8 : Z;
  h_sock_cookie : Z
}.

#[export] Instance tls_event_hdr_fields : Fields tls_event_hdr := fun h =>
  Build_tls_event_hdr (h_ts_ns h) (h_pid h) (h_tid h) (h_ssl_ptr h) (h_data_len h)
    (h_direction h) (h_ip_family h) (h__pad16 h) (h_comm h) (h_cgroup_id h) (h_netns_ino h)
    (h_src_port h) (h_dst_port h) (h_src_ip4 h) (h_dst_ip4 h) (h_src_ip6 h) (h_dst_ip6 h)
    (h_abi_version h) (h_flags h) (h_actual_len h) (h_copied_len h) (h_conn_generation h)
    (h_proc_start_ns h) (h_dir_seq h) (h_attribution h) (h_provider_id h) (h_role_hint h)
    (h__pad8 h) (h_sock_cookie h).

(** [sizeof(struct tls_event_hdr)]; [Wire.header_roundtrip] derives it from the layout. *)
Definition sizeof_tls_event_hdr : Z := 144.

(** A header and the bytes after it. On the fixed-slot path [ev_data] is the whole
    [char data[MAX_DATA]] array; on the dynptr path it is the reserved payload area. *)
Record tls_event := {
  ev_hdr : tls_event_hdr;
  ev_data : list byte
}.

#[export] Instance tls_event_fields : Fields tls_event := fun e =>
  Build_tls_event (ev_hdr e) (ev_data e).

Record close_event := {
  ce_ts_ns : Z;
  ce_pid : Z;
  ce_tid : Z;
  ce_ssl_ptr : Z;
  ce_proc_start_ns : Z;
  ce_generation : Z;
  ce__pad : Z
}.

#[export] Instance close_event_fields : Fields close_event := fun e =>
  Build_close_event (ce_ts_ns e) (ce_pid e) (ce_tid e) (ce_ssl_ptr e) (ce_proc_start_ns e)
    (ce_generation e) (ce__pad e).

Record new_proc_event := {
  pe_pid : Z;
  pe__pad : Z;
  pe_cgroup_id : Z;
  pe_comm : list byte;
  pe_filename : list byte
}.

#[export] Instance new_proc_event_fields : Fields new_proc_event := fun e =>
  Build_new_proc_event (pe_pid e) (pe__pad e) (pe_cgroup_id e) (pe_comm e) (pe_filename e).

(** * Map values *)

Record read_args := { ra_ssl_ptr : Z; ra_buf : Z; ra_len : Z }.
Record write_args := { wa_ssl_ptr : Z; wa_buf : Z; wa_len : Z }.
Record read_ex_args := { rx_ssl_ptr : Z; rx_buf : Z; rx_bytes_ptr : Z; rx_len : Z }.
Record write_ex_args := { wx_ssl_ptr : Z; wx_buf : Z; wx_bytes_ptr : Z; wx_len : Z }.

Record conn_info := {
  ci_family : Z;
  ci_src_port : Z;
  ci_dst_port : Z;
  ci_role : Z;
  ci__pad : Z;
  ci_src_ip4 : Z;
  ci_dst_ip4 : Z;
  ci_src_ip6 : list byte;
  ci_dst_ip6 : list byte;
  ci_sock_ino : Z
}.

#[export] Instance conn_info_fields : Fields conn_info := fun c =>
  Build_conn_info (ci_family c) (ci_src_port c) (ci_dst_port c) (ci_role c) (ci__pad c)
    (ci_src_ip4 c) (ci_dst_ip4 c) (ci_src_ip6 c) (ci_dst_ip6 c) (ci_sock_ino c).

Definition zeros16 : list byte := replicate 16 x00.

(** [struct conn_info info = {};] *)
Definition conn_info_zero : conn_info := {|
  ci_family := 0; ci_src_port := 0; ci_dst_port := 0; ci_role := 0; ci__pad := 0;
  ci_src_ip4 := 0; ci_dst_ip4 := 0; ci_src_ip6 := zeros16; ci_dst_ip6 := zeros16;
  ci_sock_ino := 0 |}.

Record ssl_key := { sk_tgid : Z; sk__pad : Z; sk_ptr : Z }.

(** [seq[2]] is split into its two elements. *)
Record ssl_state := { ss_generation : Z; ss_seq0 : Z; ss_seq1 : Z; ss__pad : Z }.

#[export] Instance ssl_state_fields : Fields ssl_state := fun s =>
  Build_ssl_state (ss_generation s) (ss_seq0 s) (ss_seq1 s) (ss__pad s).

Definition ssl_state_zero : ssl_state :=
  {| ss_generation := 0; ss_seq0 := 0; ss_seq1 := 0; ss__pad := 0 |}.

(** [st->seq[d]] *)
Definition ss_seq (d : Z) (st : ssl_state) : Z := if d =? 0 then ss_seq0 st else ss_seq1 st.

Record go_write_args := { gw_conn_ptr : Z; gw_buf_ptr : Z; gw_buf_len : Z; gw__pad : Z }.
Record go_read_args := { gr_conn_ptr : Z; gr_buf_ptr : Z; gr_buf_len : Z; gr__pad : Z }.
Record go_call_key := { gk_tgid : Z; gk__pad : Z; gk_g : Z }.

Record sample_config := { sc_default_rate : Z; sc_health_rate : Z }.

Record quic_stream_args := {
  qa_conn_ptr : Z; qa_stream_id : Z; qa_buf : Z; qa_buf_len : Z; qa__pad : Z }.

Record ktls_args := { ka_iov_base : Z; ka_iov_len : Z; ka_sock_ptr : Z }.

#[export] Instance ktls_args_fields : Fields ktls_args := fun a =>
  Build_ktls_args (ka_iov_base a) (ka_iov_len a) (ka_sock_ptr a).

Definition ktls_args_zero : ktls_args := {| ka_iov_base := 0; ka_iov_len := 0; ka_sock_ptr := 0 |}.

Record blocked_cidr := { bc_ip : Z; bc_mask : Z }.

#[export] Instance ssl_key_eq_dec : EqDecision ssl_key.
Proof. solve_decision. Defined.
#[export] Instance go_call_key_eq_dec : EqDecision go_call_key.
Proof. solve_decision. Defined.

#[export] Program Instance ssl_key_countable : Countable ssl_key :=
  inj_countable' (fun k => (sk_tgid k, sk__pad k, sk_ptr k))
                 (fun '(a, b, c) => Build_ssl_key a b c) _.
Next Obligation. by intros []. Qed.

#[export] Program Instance go_call_key_countable : Countable go_call_key :=
  inj_countable' (fun k => (gk_tgid k, gk__pad k, gk_g k))
                 (fun '(a, b, c) => Build_go_call_key a b c) _.
Next Obligation. by intros []. Qed.

(** * Maps

    The eighteen [BPF_MAP_TYPE_LRU_HASH] maps, then the arrays and the per-CPU arrays. *)

Inductive lru :=
  | ssl_state_map | ssl_read_args | ssl_write_args | ssl_ptr_to_pid
  | ssl_read_ex_args | ssl_write_ex_args | gnutls_write_args | gnutls_read_args
  | active_connections | ssl_ptr_to_conn | sock_role | sock_to_pid
  | go_tls_write_args | go_tls_read_args
  | quic_recv_args | quic_send_args | ktls_sendmsg_args | ktls_recvmsg_args.

#[export] Instance lru_eq_dec : EqDecision lru.
Proof. solve_decision. Defined.

Definition lru_key (m : lru) : Type :=
  match m with
  | ssl_state_map | ssl_ptr_to_pid | ssl_ptr_to_conn => ssl_key
  | go_tls_write_args | go_tls_read_args => go_call_key
  | ssl_read_args | ssl_write_args | ssl_read_ex_args | ssl_write_ex_args
  | gnutls_write_args | gnutls_read_args | active_connections
  | quic_recv_args | quic_send_args | ktls_sendmsg_args | ktls_recvmsg_args => Z  (* pid_tgid *)
  | sock_role | sock_to_pid => Z  (* struct sock * *)
  end.

Definition lru_val (m : lru) : Type :=
  match m with
  | ssl_state_map => ssl_state
  | ssl_read_args | gnutls_read_args => read_args
  | ssl_write_args | gnutls_write_args => write_args
  | ssl_ptr_to_pid => Z
  | ssl_read_ex_args => read_ex_args
  | ssl_write_ex_args => write_ex_args
  | active_connections | ssl_ptr_to_conn => conn_info
  | sock_role => Z
  | sock_to_pid => Z
  | go_tls_write_args => go_write_args
  | go_tls_read_args => go_read_args
  | quic_recv_args | quic_send_args => quic_stream_args
  | ktls_sendmsg_args | ktls_recvmsg_args => ktls_args
  end.

#[export] Instance lru_key_eq_dec m : EqDecision (lru_key m).
Proof. destruct m; cbn; apply _. Defined.
#[export] Instance lru_key_countable m : Countable (lru_key m).
Proof. destruct m; cbn; apply _. Defined.

(** [BPF_MAP_TYPE_ARRAY] maps and their [max_entries]. *)
Inductive arr := sampling_config | blocked_ips | blocked_ips_count.

#[export] Instance arr_eq_dec : EqDecision arr.
Proof. solve_decision. Defined.

Definition arr_val (m : arr) : Type :=
  match m with
  | sampling_config => sample_config
  | blocked_ips => blocked_cidr
  | blocked_ips_count => Z
  end.

Definition arr_max_entries (m : arr) : Z :=
  match m with
  | sampling_config => 1
  | blocked_ips => MAX_BLOCKED_CIDRS
  | blocked_ips_count => 1
  end.

(** [BPF_MAP_TYPE_PERCPU_ARRAY] maps. [dynptr_scratch] holds [char[MAX_DATA]]; the other two
    hold [__u64]. *)
Inductive percpu := event_counter | producer_stats | dynptr_scratch.

#[export] Instance percpu_eq_dec : EqDecision percpu.
Proof. solve_decision. Defined.

Definition percpu_max_entries (m : percpu) : Z :=
  match m with event_counter => 1 | producer_stats => 6 | dynptr_scratch => 1 end.

(** Indices of [producer_stats]. *)
Definition STAT_ATTEMPTED : Z := 0.
Definition STAT_SUBMITTED : Z := 1.
Definition STAT_RESERVE_FAIL : Z := 2.
Definition STAT_COPY_FAIL : Z := 3.
Definition STAT_SAMPLED : Z := 4.
Definition STAT_MAP_FAIL : Z := 5.

(** [BPF_MAP_TYPE_RINGBUF] maps and what a reservation in each is used for. *)
Inductive ring := events | close_events | proc_events.

#[export] Instance ring_eq_dec : EqDecision ring.
Proof. solve_decision. Defined.

Definition ring_record (r : ring) : Type :=
  match r with
  | events => tls_event
  | close_events => close_event
  | proc_events => new_proc_event
  end.

(** * The context of a probe

    The registers a handler reads, through the [PT_REGS_*] macros or directly. *)
Record pt_regs := {
  PT_REGS_PARM1 : Z;
  PT_REGS_PARM2 : Z;
  PT_REGS_PARM3 : Z;
  PT_REGS_PARM4 : Z;
  PT_REGS_RC : Z;
  r_ax : Z;
  r_bx : Z;
  r_cx : Z;
  r_r14 : Z;
  r_regs : Z → Z
}.

#[export] Instance pt_regs_fields : Fields pt_regs := fun r =>
  Build_pt_regs (PT_REGS_PARM1 r) (PT_REGS_PARM2 r) (PT_REGS_PARM3 r) (PT_REGS_PARM4 r)
    (PT_REGS_RC r) (r_ax r) (r_bx r) (r_cx r) (r_r14 r) (r_regs r).

(** The [__TARGET_ARCH_*] macro the object is compiled with. *)
Inductive target_arch := arch_x86 | arch_arm64 | arch_other.
