(* ===== verification/Kernel.v ===== *)
(** BPF programs and the platform they run on.

    A program is a finite tree of helper calls ([prog]): each node is one call to a BPF helper or
    one access to memory shared with other CPUs, and what follows depends on the answer. The
    kernel's side is a state ([kstate]: the maps, the per-CPU arrays, the ring buffers) and an
    environment ([env]) that holds everything the program does not control: the current task, the
    contents of user and kernel memory, which map entries the LRU evicts, whether a ring has room.
    [run] executes a program to completion in one environment; [System] interleaves the calls of
    several CPUs.

    [Logic] holds the lemmas on [run] and a program logic for the paths of a program. *)

From S2P Require Import Prelude Abi.

(** * Kernel structures read through CO-RE

    One constructor per structure member the program names in a [bpf_core_read]. The offset of a
    member depends on the running kernel and is part of the environment. *)
Inductive kfield :=
  | skc_family | skc_v6_rcv_saddr | skc_v6_daddr | skc_rcv_saddr | skc_daddr
  | skc_num | skc_dport | sk_socket
  | socket_file | socket_sk | file_f_inode | file_private_data | inode_i_ino
  | task_group_leader | task_start_time | task_nsproxy | task_files
  | nsproxy_net_ns | net_ns_inum
  | files_fdt | fdtable_fd
  | msg_iter_iov | iovec_iov_base | iovec_iov_len
  | bprm_filename | sockaddr_sa_family | sockaddr_in_sin_addr.

Inductive update_flag := BPF_ANY | BPF_NOEXIST.

Definition EEXIST : Z := 17.

(** A dynptr over a reservation of [dp_size] bytes in [events]; [None] is the null dynptr a
    failed reservation leaves behind. *)
Record dyn_mem := { dp_size : Z; dp_rec : tls_event }.
Notation dynptr := (option dyn_mem).

#[export] Instance dyn_mem_fields : Fields dyn_mem := fun d =>
  Build_dyn_mem (dp_size d) (dp_rec d).

(** A pointer to the value of a live or evicted element of [ssl_state_map]. *)
Definition state_ref : Type := ssl_key.

(** * Helper calls

    The accesses through a looked-up pointer to shared, mutable memory are calls of their own:
    [ref_load_*] and [ref_store_*] for [struct ssl_state], [sync_fetch_and_add] for the counters.
    A looked-up value that the program only reads is read when it is looked up. *)
Inductive helper : Type → Type :=
  | bpf_get_current_pid_tgid : helper Z
  | bpf_ktime_get_ns : helper Z
  | bpf_get_current_cgroup_id : helper Z
  | bpf_get_current_comm : helper (list byte)
  | bpf_get_current_task : helper Z
  | bpf_core_read (size : Z) (f : kfield) (src : Z) : helper (list byte)
  | bpf_probe_read_kernel (size addr : Z) : helper (list byte)
  | bpf_probe_read_kernel_str (dst : list byte) (addr : Z) : helper (list byte)
  | bpf_probe_read_user (size addr : Z) : helper (option (list byte))
  | bpf_probe_read_user_scratch (size addr : Z) : helper Z
  | bpf_map_lookup_elem (m : lru) (k : lru_key m) : helper (option (lru_val m))
  | bpf_map_update_elem (m : lru) (k : lru_key m) (v : lru_val m) (f : update_flag) : helper Z
  | bpf_map_delete_elem (m : lru) (k : lru_key m) : helper Z
  | bpf_map_lookup_state (k : ssl_key) : helper (option state_ref)
  | ref_load_generation (st : state_ref) : helper Z
  | ref_load_seq (st : state_ref) (d : Z) : helper Z
  | ref_store_generation (st : state_ref) (v : Z) : helper unit
  | ref_store_seq (st : state_ref) (d v : Z) : helper unit
  | bpf_array_lookup_elem (m : arr) (idx : Z) : helper (option (arr_val m))
  | bpf_percpu_lookup_elem (m : percpu) (idx : Z) : helper (option unit)
  | sync_fetch_and_add (m : percpu) (idx v : Z) : helper Z
  | bpf_ringbuf_reserve (r : ring) (size : Z) : helper (option (ring_record r))
  | bpf_ringbuf_submit (r : ring) (e : ring_record r) : helper unit
  | bpf_ringbuf_discard (r : ring) : helper unit
  | bpf_ringbuf_reserve_dynptr (size : Z) : helper (Z * dynptr)
  | bpf_dynptr_data (dp : dynptr) (off len : Z) : helper (option unit)
  | bpf_dynptr_write (dp : dynptr) (off len : Z) : helper (Z * dynptr)
  | bpf_ringbuf_submit_dynptr (dp : dynptr) : helper unit
  | bpf_ringbuf_discard_dynptr (dp : dynptr) : helper unit.

Inductive prog (A : Type) : Type :=
  | Ret (a : A)
  | Call {R : Type} (c : helper R) (k : R → prog A).
Arguments Ret {A} a.
Arguments Call {A R} c k.

#[export] Instance prog_ret : MRet prog := fun A a => Ret a.
#[export] Instance prog_bind : MBind prog := fun A B f =>
  fix go p := match p with Ret a => f a | Call c k => Call c (fun r => go (k r)) end.

Definition call {R} (c : helper R) : prog R := Call c Ret.

(** Result of a C condition as control flow: [when b p] runs [p] if [b] holds. *)
Definition when (b : bool) (p : prog unit) : prog unit := if b then p else mret tt.

(** * The environment *)

Record env := {
  e_cpu : Z;
  e_pid_tgid : Z;
  e_ktime : Z;
  e_cgroup : Z;
  e_comm : list byte;
  e_task : Z;
  e_offset : kfield → Z;
  e_kmem : Z → option byte;
  e_umem : Z → option byte;
  (* the keys the LRU drops to make room for an insertion, and the errno of a failed insertion *)
  e_evict : ∀ m : lru, gmap (lru_key m) (lru_val m) → lru_key m → list (lru_key m);
  e_update_err : ∀ m : lru, gmap (lru_key m) (lru_val m) → lru_key m → Z;
  (* whether a reservation finds room, and what the reserved memory holds before it is written *)
  e_reserve : ring → Z → bool;
  e_stale : ∀ r : ring, ring_record r;
  e_dynptr_null : bool;
  e_dynptr_write_err : Z;
  (* what a load through a pointer to an evicted element yields *)
  e_freed : Z
}.

(** Read [n] bytes at [addr]; a fault on any byte fails the whole read. *)
Fixpoint read_mem (mem : Z → option byte) (addr : Z) (n : nat) : option (list byte) :=
  match n with
  | O => Some []
  | S n' =>
      match mem addr, read_mem mem (u64 (addr + 1)) n' with
      | Some b, Some bs => Some (b :: bs)
      | _, _ => None
      end
  end.

(** Copy of a NUL-terminated string into at most [n] bytes, always terminated; [None] is a
    fault. *)
Fixpoint read_str (mem : Z → option byte) (addr : Z) (n : nat) : option (list byte) :=
  match n with
  | O => Some []
  | S O => Some [x00]
  | S n' =>
      match mem addr with
      | None => None
      | Some b =>
          if bool_decide (b = x00) then Some [x00]
          else (fun bs => b :: bs) <$> read_str mem (u64 (addr + 1)) n'
      end
  end.

(** * Kernel state *)

Record kstate := {
  k_maps : ∀ m : lru, gmap (lru_key m) (lru_val m);
  k_arrays : ∀ m : arr, Z → arr_val m;
  k_counters : percpu → Z → Z → Z;            (* map, cpu, index *)
  k_scratch : Z → list byte;                  (* dynptr_scratch, by cpu *)
  k_rings : ∀ r : ring, list (ring_record r); (* records submitted so far, oldest first *)
  k_reserved : Z → Z                          (* reservations held, by cpu *)
}.

#[export] Instance kstate_fields : Fields kstate := fun s =>
  Build_kstate (k_maps s) (k_arrays s) (k_counters s) (k_scratch s) (k_rings s) (k_reserved s).

(** Point updates of the function-valued fields. *)
Definition fn_set {A B} `{EqDecision A} (f : A → B) (a : A) (b : B) : A → B :=
  fun a' => if decide (a = a') then b else f a'.

Definition dep_set {A} `{EqDecision A} {P : A → Type} (f : ∀ a, P a) (a : A) (b : P a) :
    ∀ a, P a :=
  fun a' => match decide (a = a') with
            | left E => match E in _ = a'' return P a'' with eq_refl => b end
            | right _ => f a'
            end.

Definition lookup_map (s : kstate) (m : lru) (k : lru_key m) : option (lru_val m) :=
  k_maps s m !! k.

Definition set_map (m : lru) (t : gmap (lru_key m) (lru_val m)) (s : kstate) : kstate :=
  s <| k_maps := dep_set (k_maps s) m t |>.

Definition evict {K V} `{Countable K} (ks : list K) (t : gmap K V) : gmap K V :=
  foldr delete t ks.

Definition counter (s : kstate) (m : percpu) (cpu idx : Z) : Z := k_counters s m cpu idx.

Definition set_counter (m : percpu) (cpu idx v : Z) (s : kstate) : kstate :=
  s <| k_counters :=
         fn_set (k_counters s) m
           (fn_set (k_counters s m) cpu (fn_set (k_counters s m cpu) idx v)) |>.

Definition push_ring (r : ring) (x : ring_record r) (s : kstate) : kstate :=
  s <| k_rings := dep_set (k_rings s) r (k_rings s r ++ [x]) |>.

Definition add_reserved (cpu d : Z) (s : kstate) : kstate :=
  s <| k_reserved := fn_set (k_reserved s) cpu (k_reserved s cpu + d) |>.

Definition set_scratch (cpu : Z) (bs : list byte) (s : kstate) : kstate :=
  s <| k_scratch := fn_set (k_scratch s) cpu bs |>.

(** Overwrite [length bs] bytes of [data] from its start. *)
Definition overlay (bs data : list byte) : list byte := bs ++ drop (length bs) data.

(** * What a helper call does *)

Definition zeros (n : Z) : list byte := replicate (Z.to_nat n) x00.

(** A failed read of kernel memory zeroes the destination; no caller looks at the result code.
    A failed read of user memory zeroes it too, and reports an error. *)
Definition kread (e : env) (addr size : Z) : list byte :=
  default (zeros size) (read_mem (e_kmem e) addr (Z.to_nat size)).

Definition uread (e : env) (addr size : Z) : option (list byte) :=
  read_mem (e_umem e) addr (Z.to_nat size).

Definition update_elem (e : env) (m : lru) (k : lru_key m) (v : lru_val m) (f : update_flag)
    (s : kstate) : Z * kstate :=
  let t := k_maps s m in
  match f, t !! k with
  | BPF_NOEXIST, Some _ => (- EEXIST, s)
  | _, _ =>
      let live := evict (e_evict e m t k) t in
      let err := e_update_err e m t k in
      if err =? 0 then (0, set_map m (<[k := v]> live) s) else (err, set_map m live s)
  end.

(** A store through a pointer to an element that has been evicted reaches no map entry. *)
Definition store_state (st : state_ref) (f : ssl_state → ssl_state) (s : kstate) : kstate :=
  set_map ssl_state_map (alter f (st : lru_key ssl_state_map) (k_maps s ssl_state_map)) s.

Definition load_state (e : env) (st : state_ref) (f : ssl_state → Z) (s : kstate) : Z :=
  match lookup_map s ssl_state_map st with
  | Some v => f v
  | None => e_freed e
  end.

Definition set_ss_seq (d v : Z) (st : ssl_state) : ssl_state :=
  if d =? 0 then st <| ss_seq0 := v |> else st <| ss_seq1 := v |>.

Definition in_range (idx max : Z) : bool := (0 <=? idx) && (idx <? max).

Definition dyn_new (e : env) (size : Z) : dyn_mem := {|
  dp_size := size;
  dp_rec := (e_stale e events)
              <| ev_data := ztake (size - sizeof_tls_event_hdr) (ev_data (e_stale e events)) |> |}.

Definition handle (e : env) {R} (c : helper R) (s : kstate) : R * kstate :=
  match c in helper R return R * kstate with
  | bpf_get_current_pid_tgid => (e_pid_tgid e, s)
  | bpf_ktime_get_ns => (e_ktime e, s)
  | bpf_get_current_cgroup_id => (e_cgroup e, s)
  | bpf_get_current_comm => (e_comm e, s)
  | bpf_get_current_task => (e_task e, s)
  | bpf_core_read size f src => (kread e (u64 (src + e_offset e f)) size, s)
  | bpf_probe_read_kernel size addr => (kread e addr size, s)
  | bpf_probe_read_kernel_str dst addr =>
      (match read_str (e_kmem e) addr (length dst) with
       | Some bs => overlay bs dst
       | None => zeros (zlen dst)
       end, s)
  | bpf_probe_read_user size addr => (uread e addr size, s)
  | bpf_probe_read_user_scratch size addr =>
      match uread e addr size with
      | Some bs => (0, set_scratch (e_cpu e) (overlay bs (k_scratch s (e_cpu e))) s)
      | None => (-14, set_scratch (e_cpu e) (overlay (zeros size) (k_scratch s (e_cpu e))) s)
      end
  | bpf_map_lookup_elem m k => (lookup_map s m k, s)
  | bpf_map_update_elem m k v f => update_elem e m k v f s
  | bpf_map_delete_elem m k =>
      (if lookup_map s m k then 0 else -2, set_map m (delete k (k_maps s m)) s)
  | bpf_map_lookup_state k =>
      (if lookup_map s ssl_state_map k then Some k else None, s)
  | ref_load_generation st => (load_state e st ss_generation s, s)
  | ref_load_seq st d => (load_state e st (ss_seq d) s, s)
  | ref_store_generation st v => (tt, store_state st (fun x => x <| ss_generation := v |>) s)
  | ref_store_seq st d v => (tt, store_state st (set_ss_seq d v) s)
  | bpf_array_lookup_elem m idx =>
      (if in_range idx (arr_max_entries m) then Some (k_arrays s m idx) else None, s)
  | bpf_percpu_lookup_elem m idx =>
      (if in_range idx (percpu_max_entries m) then Some tt else None, s)
  | sync_fetch_and_add m idx v =>
      let old := counter s m (e_cpu e) idx in
      (old, set_counter m (e_cpu e) idx (u64 (old + v)) s)
  | bpf_ringbuf_reserve r size =>
      if e_reserve e r size then (Some (e_stale e r), add_reserved (e_cpu e) 1 s) else (None, s)
  | bpf_ringbuf_submit r x => (tt, add_reserved (e_cpu e) (-1) (push_ring r x s))
  | bpf_ringbuf_discard r => (tt, add_reserved (e_cpu e) (-1) s)
  | bpf_ringbuf_reserve_dynptr size =>
      if e_reserve e events size
      then ((0, Some (dyn_new e size)), add_reserved (e_cpu e) 1 s)
      else ((-12, None), s)
  | bpf_dynptr_data dp off len =>
      (match dp with
       | Some d => if e_dynptr_null e then None else Some tt
       | None => None
       end, s)
  | bpf_dynptr_write dp off len =>
      match dp with
      | Some d =>
          if e_dynptr_write_err e =? 0
          then let data := ev_data (dp_rec d) in
               let pos := off - sizeof_tls_event_hdr in
               let data' := ztake pos data ++ overlay (ztake len (k_scratch s (e_cpu e)))
                                                     (zdrop pos data) in
               ((0, Some (d <| dp_rec := (dp_rec d) <| ev_data := data' |> |>)), s)
          else ((e_dynptr_write_err e, dp), s)
      | None => ((-22, None), s)
      end
  | bpf_ringbuf_submit_dynptr dp =>
      (tt, match dp with
           | Some d => add_reserved (e_cpu e) (-1) (push_ring events (dp_rec d) s)
           | None => s
           end)
  | bpf_ringbuf_discard_dynptr dp =>
      (tt, match dp with Some _ => add_reserved (e_cpu e) (-1) s | None => s end)
  end.

Arguments set_map : simpl never.
Arguments overlay : simpl never.
Arguments set_counter : simpl never.
Arguments push_ring : simpl never.
Arguments add_reserved : simpl never.
Arguments set_scratch : simpl never.
Arguments lookup_map : simpl never.
Arguments counter : simpl never.
Arguments update_elem : simpl never.
Arguments store_state : simpl never.
Arguments load_state : simpl never.
Arguments kread : simpl never.
Arguments uread : simpl never.
Arguments dyn_new : simpl never.
Arguments in_range : simpl never.

(** Run a program to completion in one environment. *)
Fixpoint run {A} (e : env) (p : prog A) (s : kstate) : A * kstate :=
  match p with
  | Ret a => (a, s)
  | Call c k => let '(r, s') := handle e c s in run e (k r) s'
  end.
