(* ===== verification/Logic.v ===== *)
(** Lemmas on [run], on the state updates of the helpers, and a program logic.

    [run_step] executes a program symbolically, one call at a time. [wp]
    quantifies over every path of a program, whatever the helpers answer within their contract
    ([possible]), and threads a ghost state through the calls by means of a [watcher]. The same
    logic carries the loss accounting, the reservation discipline, the ownership of map entries
    and the bound on the number of calls. *)

From S2P Require Import Prelude Abi Kernel.
From Stdlib Require Import Eqdep_dec.

(** * Function updates *)

Section FnSet.
Context {A : Type} `{!EqDecision A}.

Lemma fn_set_eq {B} (f : A → B) a b : fn_set f a b a = b.
Proof. unfold fn_set. by destruct (decide (a = a)). Qed.

Lemma fn_set_ne {B} (f : A → B) a a' b : a ≠ a' → fn_set f a b a' = f a'.
Proof. intros Hne. unfold fn_set. by destruct (decide (a = a')). Qed.

Lemma dep_set_eq {P : A → Type} (f : ∀ a, P a) a b : dep_set f a b a = b.
Proof.
  unfold dep_set. destruct (decide (a = a)) as [E|]; [|done].
  by rewrite (UIP_dec (decide_rel (=)) E eq_refl).
Qed.

Lemma dep_set_ne {P : A → Type} (f : ∀ a, P a) a a' b : a ≠ a' → dep_set f a b a' = f a'.
Proof. intros Hne. unfold dep_set. by destruct (decide (a = a')). Qed.
End FnSet.

(** * State accessors after state updates *)

Section Accessors.
Implicit Types (s : kstate).

Lemma k_maps_set_map (m : lru) t s : k_maps (set_map m t s) m = t.
Proof. unfold set_map. cbn. by rewrite dep_set_eq. Qed.

Lemma k_maps_set_map_ne (m m' : lru) t s : m ≠ m' → k_maps (set_map m t s) m' = k_maps s m'.
Proof. intros Hne. unfold set_map. cbn. by rewrite dep_set_ne. Qed.

Lemma lookup_map_set_map_ne (m m' : lru) t s k :
  m ≠ m' → lookup_map (set_map m t s) m' k = lookup_map s m' k.
Proof. intros Hne. unfold lookup_map. by rewrite k_maps_set_map_ne. Qed.

Lemma k_counters_set_map (m : lru) t s : k_counters (set_map m t s) = k_counters s.
Proof. done. Qed.

Lemma counter_set_counter m cpu idx v s : counter (set_counter m cpu idx v s) m cpu idx = v.
Proof. unfold counter, set_counter. cbn. by rewrite !fn_set_eq. Qed.

Lemma counter_set_counter_ne m m' cpu cpu' idx idx' v s :
  (m, cpu, idx) ≠ (m', cpu', idx') →
  counter (set_counter m cpu idx v s) m' cpu' idx' = counter s m' cpu' idx'.
Proof.
  intros Hne. unfold counter, set_counter, fn_set. cbn.
  repeat case_decide; simplify_eq; done.
Qed.

Lemma k_rings_push_ring r x s : k_rings (push_ring r x s) r = k_rings s r ++ [x].
Proof. unfold push_ring. cbn. by rewrite dep_set_eq. Qed.

Lemma k_rings_push_ring_ne r r' x s : r ≠ r' → k_rings (push_ring r x s) r' = k_rings s r'.
Proof. intros Hne. unfold push_ring. cbn. by rewrite dep_set_ne. Qed.

Lemma lookup_evict {K V} `{Countable K} (ks : list K) (t : gmap K V) k :
  k ∉ ks → evict ks t !! k = t !! k.
Proof.
  intros Hk. induction ks as [|k' ks IH]; [done|]. cbn.
  apply not_elem_of_cons in Hk as [Hne Hk]. rewrite lookup_delete_ne by done. by apply IH.
Qed.

Lemma lookup_evict_inv {K V} `{Countable K} (ks : list K) (t : gmap K V) k v :
  evict ks t !! k = Some v → t !! k = Some v.
Proof.
  induction ks as [|k' ks IH]; [done|]. cbn.
  intros [_ Hk]%lookup_delete_Some. by apply IH.
Qed.
End Accessors.

#[export] Hint Rewrite k_maps_set_map k_counters_set_map counter_set_counter
  @k_rings_push_ring : kstate.
#[export] Hint Rewrite k_maps_set_map_ne lookup_map_set_map_ne k_rings_push_ring_ne
  using done : kstate.

(** What an update leaves in the table: the new entry, or an entry that was there before. *)
Lemma update_elem_lookup e m k v f s k' v' :
  lookup_map (update_elem e m k v f s).2 m k' = Some v' →
  (k' = k ∧ v' = v) ∨ lookup_map s m k' = Some v'.
Proof.
  unfold update_elem, lookup_map.
  assert (∀ ks (t : gmap (lru_key m) (lru_val m)), (<[k := v]> (evict ks t)) !! k' = Some v' →
    (k' = k ∧ v' = v) ∨ t !! k' = Some v') as Hins.
  { intros ks t [[-> ->]|[_ Hk]]%lookup_insert_Some; [by left|].
    right. by apply lookup_evict_inv in Hk. }
  destruct f, (k_maps s m !! k) eqn:E; cbn; try case_match; cbn;
    rewrite ?k_maps_set_map; intros Hk;
    first [by apply Hins in Hk | right; by eapply lookup_evict_inv | by right].
Qed.

Lemma update_elem_other e m m' k v f s :
  m ≠ m' → k_maps (update_elem e m k v f s).2 m' = k_maps s m'.
Proof.
  intros Hne. unfold update_elem. destruct f, (k_maps s m !! k); cbn; try case_match; cbn;
    by rewrite ?k_maps_set_map_ne.
Qed.

(** An unconditional insertion that the kernel accepts. *)
Lemma update_elem_any e m k v s :
  e_update_err e m (k_maps s m) k = 0 →
  update_elem e m k v BPF_ANY s =
    (0, set_map m (<[k := v]> (evict (e_evict e m (k_maps s m) k) (k_maps s m))) s).
Proof. intros He. unfold update_elem. rewrite He. by destruct (k_maps s m !! k). Qed.

(** A store through a reference changes the value under its key, if it is still there. *)
Lemma lookup_store_state k f s k' :
  lookup_map (store_state k f s) ssl_state_map k' =
    if decide (k = k') then f <$> lookup_map s ssl_state_map k' else lookup_map s ssl_state_map k'.
Proof.
  unfold store_state, lookup_map. rewrite k_maps_set_map. rewrite lookup_alter.
  repeat case_decide; by subst.
Qed.

(** * Running programs *)

Section Run.
Context (e : env).

Lemma run_ret {A} (a : A) s : run e (mret a) s = (a, s).
Proof. done. Qed.

Lemma run_bind {A B} (p : prog A) (f : A → prog B) s :
  run e (p ≫= f) s = run e (f (run e p s).1) (run e p s).2.
Proof.
  revert s. induction p as [a|R c k IH]; intros s; [done|].
  change (Call c k ≫= f) with (Call c (fun r => k r ≫= f)). cbn [run].
  destruct (handle e c s) as [r s']. apply IH.
Qed.

Lemma run_call {R} (c : helper R) s : run e (call c) s = handle e c s.
Proof. cbn. by destruct (handle e c s). Qed.

Lemma run_call_bind {R B} (c : helper R) (f : R → prog B) s :
  run e (call c ≫= f) s = run e (f (handle e c s).1) (handle e c s).2.
Proof. rewrite run_bind. by rewrite run_call. Qed.

Lemma run_when b (p : prog unit) s :
  run e (when b p) s = if b then run e p s else (tt, s).
Proof. by destruct b. Qed.
End Run.

(** One step of symbolic execution: push [run] through a bind and evaluate the call. *)
Ltac run_step :=
  match goal with
  | |- context [run _ (call _ ≫= _) _] => rewrite run_call_bind; cbn [handle fst snd]
  | |- context [run _ (_ ≫= _) _] => rewrite run_bind; cbn [fst snd]
  | |- context [run _ (call _) _] => rewrite run_call; cbn [handle fst snd]
  | |- context [run _ (mret _) _] => rewrite run_ret; cbn [fst snd]
  end.
Ltac run_steps := repeat run_step.

(** * Paths of a program *)

(** The answers a helper can give, from its contract alone. [id] is the [pid_tgid] of the task
    the program runs on behalf of. *)
Definition possible (id : Z) {R} (c : helper R) : R → Prop :=
  match c in helper R return R → Prop with
  | bpf_get_current_pid_tgid => fun r => r = id
  | bpf_core_read size _ _ => fun r => length r = Z.to_nat size
  | bpf_probe_read_kernel size _ => fun r => length r = Z.to_nat size
  | bpf_probe_read_user size _ => fun r => ∀ bs, r = Some bs → length bs = Z.to_nat size
  | bpf_map_lookup_state k => fun r => r = None ∨ r = Some k
  | bpf_array_lookup_elem m idx => fun r => is_Some r ↔ in_range idx (arr_max_entries m) = true
  | bpf_percpu_lookup_elem m idx => fun r => is_Some r ↔ in_range idx (percpu_max_entries m) = true
  | bpf_ringbuf_reserve_dynptr _ => fun r => 0 <= r.1 ↔ is_Some r.2
  | bpf_dynptr_write dp _ _ => fun r => is_Some r.2 ↔ is_Some dp
  | _ => fun _ => True
  end.

Lemma read_mem_length mem addr n bs : read_mem mem addr n = Some bs → length bs = n.
Proof.
  revert addr bs. induction n as [|n IH]; intros addr bs; cbn; [by intros [= <-]|].
  destruct (mem addr); [|done].
  destruct (read_mem mem (u64 (addr + 1)) n) eqn:E; [|done].
  intros [= <-]. cbn. f_equal. by eapply IH.
Qed.

Lemma length_kread e addr size : length (kread e addr size) = Z.to_nat size.
Proof.
  unfold kread. destruct (read_mem _ _ _) eqn:E; cbn.
  - by apply read_mem_length in E.
  - apply length_replicate.
Qed.

(** The kernel's answers stay within the contract. *)
Lemma handle_possible e {R} (c : helper R) s :
  possible (e_pid_tgid e) c (handle e c s).1.
Proof.
  destruct c; cbn; try done.
  - apply length_kread.
  - apply length_kread.
  - intros bs. apply read_mem_length.
  - destruct (lookup_map s ssl_state_map k); auto.
  - case_match; split; (done || by intros [? ?]).
  - case_match; split; (done || by intros [? ?]).
  - destruct (e_reserve e events size); cbn; split; intros; try done; lia.
  - destruct dp; cbn; [|done]. case_match; cbn; split; done.
Qed.

(** A watcher looks at every call of a program: [w_ok] is what the call must satisfy, [w_rely] what
    its answer may be assumed to satisfy, [w_next] how the ghost state moves. *)
Record watcher (G : Type) := {
  w_ok : ∀ R : Type, helper R → G → Prop;
  w_rely : ∀ R : Type, helper R → R → Prop;
  w_next : ∀ R : Type, helper R → R → G → G
}.
Arguments w_ok {G} w {R}.
Arguments w_rely {G} w {R}.
Arguments w_next {G} w {R}.

Section Wp.
Context {G : Type} (W : watcher G) (id : Z).

(** Every path of [p] from ghost state [g] makes only allowed calls and ends with a result and
    a ghost state that satisfy [Q]. *)
Fixpoint wp {A} (p : prog A) (Q : A → G → Prop) (g : G) : Prop :=
  match p with
  | Ret a => Q a g
  | Call c k =>
      w_ok W c g ∧ ∀ r, possible id c r → w_rely W c r → wp (k r) Q (w_next W c r g)
  end.

Lemma wp_mono {A} (p : prog A) (Q Q' : A → G → Prop) g :
  (∀ a g', Q a g' → Q' a g') → wp p Q g → wp p Q' g.
Proof.
  intros HQ. revert g. induction p as [a|R c k IH]; intros g; cbn; [apply HQ|].
  intros [Hok Hk]. split; [done|]. intros r Hr Hrel. by apply IH, Hk.
Qed.

Lemma wp_bind {A B} (p : prog A) (f : A → prog B) Q g :
  wp p (fun a g' => wp (f a) Q g') g → wp (p ≫= f) Q g.
Proof.
  revert g. induction p as [a|R c k IH]; intros g; [done|].
  intros [Hok Hk]. split; [done|]. intros r Hr Hrel. by apply IH, Hk.
Qed.

Lemma wp_call {R} (c : helper R) Q g :
  w_ok W c g → (∀ r, possible id c r → w_rely W c r → Q r (w_next W c r g)) → wp (call c) Q g.
Proof. done. Qed.

Lemma wp_call_bind {R B} (c : helper R) (f : R → prog B) Q g :
  w_ok W c g → (∀ r, possible id c r → w_rely W c r → wp (f r) Q (w_next W c r g)) →
  wp (call c ≫= f) Q g.
Proof. intros Hok Hf. by apply wp_bind, wp_call. Qed.

Lemma wp_ret {A} (a : A) (Q : A → G → Prop) g : Q a g → wp (mret a) Q g.
Proof. done. Qed.

Lemma wp_ret_bind {A B} (a : A) (f : A → prog B) Q g : wp (f a) Q g → wp (mret a ≫= f) Q g.
Proof. done. Qed.

Lemma wp_when b (p : prog unit) Q g :
  (b = true → wp p Q g) → (b = false → Q tt g) → wp (when b p) Q g.
Proof. destruct b; cbn; auto. Qed.
End Wp.

(** * Map updates as state transformers *)

(** The state after [bpf_map_update_elem(m, k, v, BPF_ANY)] and after [bpf_map_delete_elem]. *)
Definition put (e : env) (m : lru) (k : lru_key m) (v : lru_val m) (s : kstate) : kstate :=
  (update_elem e m k v BPF_ANY s).2.

Definition del (m : lru) (k : lru_key m) (s : kstate) : kstate :=
  set_map m (delete k (k_maps s m)) s.

(** The kernel accepts every insertion into map [m] and evicts nothing for it. *)
Definition no_pressure (e : env) (m : lru) : Prop :=
  ∀ t k, e_evict e m t k = [] ∧ e_update_err e m t k = 0.

Lemma lookup_put_eq e m k v s :
  no_pressure e m → lookup_map (put e m k v s) m k = Some v.
Proof.
  intros Hp. destruct (Hp (k_maps s m) k) as [_ He]. unfold put, lookup_map.
  rewrite update_elem_any by done. cbn [snd]. rewrite k_maps_set_map. apply lookup_insert_eq.
Qed.

Lemma lookup_put_ne e m k v s k' :
  no_pressure e m → k ≠ k' → lookup_map (put e m k v s) m k' = lookup_map s m k'.
Proof.
  intros Hp Hne. destruct (Hp (k_maps s m) k) as [Hev He]. unfold put, lookup_map.
  rewrite update_elem_any by done. cbn [snd]. rewrite k_maps_set_map, Hev.
  by rewrite lookup_insert_ne.
Qed.

(** Whatever is evicted, an insertion under [k] creates no entry under another key. *)
Lemma lookup_put_inv e m k v s k' v' :
  lookup_map (put e m k v s) m k' = Some v' →
  (k' = k ∧ v' = v) ∨ lookup_map s m k' = Some v'.
Proof. apply update_elem_lookup. Qed.

Lemma lookup_put_map e m k v s m' k' :
  m ≠ m' → lookup_map (put e m k v s) m' k' = lookup_map s m' k'.
Proof. intros Hne. unfold lookup_map, put. by rewrite update_elem_other. Qed.

Lemma lookup_del_eq m k s : lookup_map (del m k s) m k = None.
Proof. unfold lookup_map, del. rewrite k_maps_set_map. apply lookup_delete_eq. Qed.

Lemma lookup_del_ne m k s k' : k ≠ k' → lookup_map (del m k s) m k' = lookup_map s m k'.
Proof. intros Hne. unfold lookup_map, del. rewrite k_maps_set_map. by apply lookup_delete_ne. Qed.

Lemma lookup_del_map m k s m' k' :
  m ≠ m' → lookup_map (del m k s) m' k' = lookup_map s m' k'.
Proof. intros Hne. unfold lookup_map, del. by rewrite k_maps_set_map_ne. Qed.

(** Updates of the maps leave everything else. *)
Definition maps_only (s s' : kstate) : Prop :=
  k_arrays s' = k_arrays s ∧ k_counters s' = k_counters s ∧ k_rings s' = k_rings s ∧
  k_reserved s' = k_reserved s ∧ k_scratch s' = k_scratch s.

#[export] Instance maps_only_preorder : PreOrder maps_only.
Proof.
  split; [by intros s|]. intros s1 s2 s3 (H1 & H2 & H3 & H4 & H5) (? & ? & ? & ? & ?).
  repeat split; congruence.
Qed.

Lemma maps_only_put e m k v s : maps_only s (put e m k v s).
Proof.
  unfold maps_only, put, update_elem. by destruct (k_maps s m !! k); cbn; case_match.
Qed.

Lemma maps_only_del m k s : maps_only s (del m k s).
Proof. done. Qed.

#[export] Hint Resolve maps_only_put maps_only_del : sensor.

Lemma run_update e m k v s : run e (call (bpf_map_update_elem m k v BPF_ANY)) s =
  ((update_elem e m k v BPF_ANY s).1, put e m k v s).
Proof. rewrite run_call. cbn. unfold put. by destruct (update_elem _ _ _ _ _ _). Qed.

#[export] Hint Rewrite lookup_del_eq : kmap.
#[export] Hint Rewrite lookup_put_eq using (done || by auto) : kmap.
#[export] Hint Rewrite lookup_put_map lookup_del_map using done : kmap.
#[export] Hint Rewrite lookup_put_ne lookup_del_ne using (congruence || by auto) : kmap.

(** Compute lookups through a chain of [put]s and [del]s. *)
Ltac kmap_simpl := autorewrite with kmap.
