(* ===== verification/KernelTypes.v ===== *)
(** The kernel structure members the program reads, resolved in the types of [bpf/vmlinux.h].

    Each [kfield] is a struct and a path of member names, as the source writes it in a
    [bpf_core_read]; the types give its offset, size and what it points to. [local_offsets] is the
    kernel whose structures are those of the header; on any other kernel CO-RE moves the offsets. *)

From S2P Require Import Prelude Ctypes Vmlinux Abi Kernel Logic.

#[local] Open Scope string_scope.
#[local] Open Scope Z_scope.

(** * Members *)

(** The struct behind the pointer, and its spelling in a pointer type. *)
Definition kfield_root (f : kfield) : string * ctype :=
  match f with
  | skc_family | skc_v6_rcv_saddr | skc_v6_daddr | skc_rcv_saddr | skc_daddr
  | skc_num | skc_dport | sk_socket => ("struct sock", struct_sock)
  | socket_file | socket_sk => ("struct socket", struct_socket)
  | file_f_inode | file_private_data => ("struct file", struct_file)
  | inode_i_ino => ("struct inode", struct_inode)
  | task_group_leader | task_start_time | task_nsproxy | task_files =>
      ("struct task_struct", struct_task_struct)
  | nsproxy_net_ns => ("struct nsproxy", struct_nsproxy)
  | net_ns_inum => ("struct net", struct_net)
  | files_fdt => ("struct files_struct", struct_files_struct)
  | fdtable_fd => ("struct fdtable", struct_fdtable)
  | msg_iter_iov => ("struct msghdr", struct_msghdr)
  | iovec_iov_base | iovec_iov_len => ("struct iovec", struct_iovec)
  | bprm_filename => ("struct linux_binprm", struct_linux_binprm)
  | sockaddr_sa_family => ("struct sockaddr", struct_sockaddr)
  | sockaddr_in_sin_addr => ("struct sockaddr_in", struct_sockaddr_in)
  end.

Definition kfield_path (f : kfield) : list string :=
  match f with
  | skc_family => ["__sk_common"; "skc_family"]
  | skc_v6_rcv_saddr => ["__sk_common"; "skc_v6_rcv_saddr"]
  | skc_v6_daddr => ["__sk_common"; "skc_v6_daddr"]
  | skc_rcv_saddr => ["__sk_common"; "skc_rcv_saddr"]
  | skc_daddr => ["__sk_common"; "skc_daddr"]
  | skc_num => ["__sk_common"; "skc_num"]
  | skc_dport => ["__sk_common"; "skc_dport"]
  | sk_socket => ["sk_socket"]
  | socket_file => ["file"]
  | socket_sk => ["sk"]
  | file_f_inode => ["f_inode"]
  | file_private_data => ["private_data"]
  | inode_i_ino => ["i_ino"]
  | task_group_leader => ["group_leader"]
  | task_start_time => ["start_time"]
  | task_nsproxy => ["nsproxy"]
  | task_files => ["files"]
  | nsproxy_net_ns => ["net_ns"]
  | net_ns_inum => ["ns"; "inum"]
  | files_fdt => ["fdt"]
  | fdtable_fd => ["fd"]
  | msg_iter_iov => ["msg_iter"; "__iov"]
  | iovec_iov_base => ["iov_base"]
  | iovec_iov_len => ["iov_len"]
  | bprm_filename => ["filename"]
  | sockaddr_sa_family => ["sa_family"]
  | sockaddr_in_sin_addr => ["sin_addr"; "s_addr"]
  end.

Definition kfield_at (f : kfield) : option (Z * ctype) := path_at (kfield_root f).2 (kfield_path f).

Definition kfield_offset (f : kfield) : Z := default 0 (fst <$> kfield_at f).
Definition kfield_type (f : kfield) : ctype := default (CStruct "" []) (snd <$> kfield_at f).
Definition kfield_size (f : kfield) : Z := sizeof (kfield_type f).

(** What the member points to, if it is a pointer. *)
Definition kfield_target (f : kfield) : option string :=
  match kfield_type f with CPtr p => Some p | _ => None end.

Definition all_kfields : list kfield := [
  skc_family; skc_v6_rcv_saddr; skc_v6_daddr; skc_rcv_saddr; skc_daddr; skc_num; skc_dport;
  sk_socket; socket_file; socket_sk; file_f_inode; file_private_data; inode_i_ino;
  task_group_leader; task_start_time; task_nsproxy; task_files; nsproxy_net_ns; net_ns_inum;
  files_fdt; fdtable_fd; msg_iter_iov; iovec_iov_base; iovec_iov_len; bprm_filename;
  sockaddr_sa_family; sockaddr_in_sin_addr].

Lemma all_kfields_all f : In f all_kfields.
Proof. destruct f; cbn; tauto. Qed.

#[export] Instance kfield_eq_dec : EqDecision kfield.
Proof. solve_decision. Defined.

(** The members of the header exist, sit at a byte offset aligned for their type, and lie inside
    their struct. *)
Lemma kfield_wf f :
  kfield_at f = Some (kfield_offset f, kfield_type f) ∧
  0 <= kfield_offset f ∧ kfield_offset f + kfield_size f <= sizeof (kfield_root f).2 ∧
  kfield_offset f mod alignof (kfield_type f) = 0 ∧ 0 < kfield_size f.
Proof. destruct f; vm_compute; intuition discriminate. Qed.

(** Two different members of one struct share no byte. *)
Definition apart (f f' : kfield) : bool :=
  bool_decide (f = f') || negb ((kfield_root f).1 =? (kfield_root f').1)%string ||
  (kfield_offset f + kfield_size f <=? kfield_offset f') ||
  (kfield_offset f' + kfield_size f' <=? kfield_offset f).

(** The members the program reads exist in the structures of [vmlinux.h]. Every path resolves,
    through anonymous unions and structs, to a member at a byte offset that is aligned for its
    type and inside its struct, and two different members of one struct do not overlap. *)
Theorem members_resolve (f f' : kfield) :
  kfield_at f = Some (kfield_offset f, kfield_type f) ∧
  0 <= kfield_offset f ∧ kfield_offset f + kfield_size f <= sizeof (kfield_root f).2 ∧
  kfield_offset f mod alignof (kfield_type f) = 0 ∧ 0 < kfield_size f ∧
  apart f f' = true.
Proof.
  destruct (kfield_wf f) as (H1 & H2 & H3 & H4 & H5). do 5 (split; [done|]).
  assert (forallb (fun f => forallb (apart f) all_kfields) all_kfields = true) as Hall
    by (vm_compute; reflexivity).
  rewrite forallb_forall in Hall. specialize (Hall f (all_kfields_all f)).
  rewrite forallb_forall in Hall. exact (Hall f' (all_kfields_all f')).
Qed.

(** * Kernels laid out as the header says *)

Definition local_offsets (e : env) : Prop := ∀ f, e_offset e f = kfield_offset f.

(** The bytes of the member behind [path] of an object of type [t] at [addr]. *)
Definition stores_at (e : env) (addr : Z) (t : ctype) (path : list string) (bs : list byte)
    : Prop :=
  ∃ off t', path_at t path = Some (off, t') ∧
    read_mem (e_kmem e) (u64 (addr + off)) (Z.to_nat (sizeof t')) = Some bs.

Definition stores (e : env) (addr : Z) (f : kfield) (bs : list byte) : Prop :=
  stores_at e addr (kfield_root f).2 (kfield_path f) bs.

(** A CO-RE read of a stored member returns it. *)
Lemma kread_stored e addr f bs :
  local_offsets e → stores e addr f bs →
  kread e (u64 (addr + e_offset e f)) (kfield_size f) = bs.
Proof.
  intros Hoff (off & t & Hp & Hm). rewrite Hoff. unfold kread, kfield_size, kfield_type,
    kfield_offset, kfield_at. rewrite Hp. cbn [fmap option_fmap option_map default fst snd].
  unfold from_option, id. by rewrite Hm.
Qed.
