(* ===== verification/Sampling.v ===== *)
(** In-kernel sampling: [find_path_start] and [should_sample_out] of [bpf/http_trace.bpf.c].

    [data] is the 64-byte [sample_hdr] buffer on the caller's stack and [len] the number of its
    bytes that were read. *)

From S2P Require Import Prelude Abi Kernel Logic.
From Stdlib Require Import Strings.String.

Definition lit (s : string) : list byte := list_byte_of_string s.
#[local] Arguments lit s%_string_scope.

Notation space := x20 (only parsing).

(** * The code *)

(** Offset of the path in a request line (after "METHOD "), 0 when there is none: the loop
    [for (i = 0; i < 8 && i < len; i++)], with the eight iterations it can make as fuel. *)
Fixpoint find_path_from (fuel : nat) (data : list byte) (len i : Z) : Z :=
  match fuel with
  | O => 0
  | S fuel' =>
      if (i <? 8) && (i <? len) then
        if bool_decide (byte_at data i = space) then i + 1
        else find_path_from fuel' data len (i + 1)
      else 0
  end.

Definition find_path_start (data : list byte) (len : Z) : Z := find_path_from 8 data len 0.

Definition always_captured (path : list byte) (path_len : Z) : bool :=
  ((5 <=? path_len) && memeq path (lit "/auth")) ||
  ((6 <=? path_len) && memeq path (lit "/login")) ||
  ((6 <=? path_len) && memeq path (lit "/token")) ||
  ((6 <=? path_len) && memeq path (lit "/oauth")) ||
  ((6 <=? path_len) && memeq path (lit "/admin")) ||
  ((4 <=? path_len) && memeq path (lit "/mcp")).

Definition health_path (path : list byte) (path_len : Z) : bool :=
  ((7 <=? path_len) && memeq path (lit "/health")) ||
  ((7 <=? path_len) && memeq path (lit "/readyz")) ||
  ((6 <=? path_len) && memeq path (lit "/livez")) ||
  ((8 <=? path_len) && memeq path (lit "/metrics")).

Definition should_sample_out (data : list byte) (len : Z) : prog bool :=
  cfg ← call (bpf_array_lookup_elem sampling_config 0);
  match cfg with
  | None => mret false
  | Some cfg =>
      cnt ← call (bpf_percpu_lookup_elem event_counter 0);
      match cnt with
      | None => mret false
      | Some _ =>
          if len <? 10 then mret false else
          let path_start := find_path_start data len in
          if (path_start =? 0) || (len <=? path_start) then
            if 100 <=? sc_default_rate cfg then mret false else
            n ← call (sync_fetch_and_add event_counter 0 1);
            mret (sc_default_rate cfg <=? n mod 100)
          else
            let path := zdrop path_start data in
            let path_len := len - path_start in
            if always_captured path path_len then mret false else
            let rate := if health_path path path_len then sc_health_rate cfg
                        else sc_default_rate cfg in
            if 100 <=? rate then mret false else
            n ← call (sync_fetch_and_add event_counter 0 1);
            mret (rate <=? n mod 100)
      end
  end.

(** * Specification *)

(** The rate that governs a chunk, [None] when it is kept without consulting the counter. *)
Definition sample_rate (cfg : sample_config) (data : list byte) (len : Z) : option Z :=
  if len <? 10 then None else
  let p := find_path_start data len in
  let rate :=
    if (p =? 0) || (len <=? p) then Some (sc_default_rate cfg)
    else if always_captured (zdrop p data) (len - p) then None
    else if health_path (zdrop p data) (len - p) then Some (sc_health_rate cfg)
    else Some (sc_default_rate cfg) in
  match rate with
  | Some r => if 100 <=? r then None else Some r
  | None => None
  end.

Definition bump_counter (cpu : Z) (s : kstate) : kstate :=
  set_counter event_counter cpu 0 (u64 (counter s event_counter cpu 0 + 1)) s.

(** [should_sample_out] as a function of the configuration and this CPU's counter. *)
Definition sample_spec (e : env) (data : list byte) (len : Z) (s : kstate) : bool * kstate :=
  match sample_rate (k_arrays s sampling_config 0) data len with
  | None => (false, s)
  | Some r => (r <=? counter s event_counter (e_cpu e) 0 mod 100, bump_counter (e_cpu e) s)
  end.

Lemma run_should_sample_out e data len s :
  run e (should_sample_out data len) s = sample_spec e data len s.
Proof.
  unfold should_sample_out, sample_spec, sample_rate. run_step.
  change (in_range 0 (arr_max_entries sampling_config)) with true. cbn [fst snd].
  run_step. change (in_range 0 (percpu_max_entries event_counter)) with true. cbn [fst snd].
  destruct (len <? 10); [done|]. cbv zeta.
  destruct (_ || _); [destruct (100 <=? _); [done|]; by run_steps|].
  destruct (always_captured _ _); [done|].
  destruct (health_path _ _); (destruct (100 <=? _); [done|]; by run_steps).
Qed.

(** * The request path *)

Lemma find_path_from_spec fuel data len i p :
  0 <= i → i + Z.of_nat fuel = 8 →
  find_path_from fuel data len i = p →
  (p = 0 ∧ ∀ j, i <= j < Z.min 8 len → byte_at data j ≠ space) ∨
  (i < p <= Z.min 8 len ∧ byte_at data (p - 1) = space ∧
   ∀ j, i <= j < p - 1 → byte_at data j ≠ space).
Proof.
  revert i. induction fuel as [|fuel IH]; intros i Hi Hf; cbn [find_path_from].
  - intros <-. left. split; [done|lia].
  - destruct (_ && _) eqn:E.
    + zbool. case_bool_decide as Hb.
      * intros <-. right. split; [lia|]. split; [by replace (i + 1 - 1) with i by lia|]. lia.
      * intros [[-> Hno]|(Hp & Hsp & Hno)]%IH; [| |lia|lia].
        -- left. split; [done|]. intros j Hj.
           destruct (decide (j = i)) as [->|]; [done|]. apply Hno. lia.
        -- right. split; [lia|]. split; [done|]. intros j Hj.
           destruct (decide (j = i)) as [->|]; [done|]. apply Hno. lia.
    + intros <-. left. split; [done|]. intros j Hj.
      apply andb_false_iff in E as [?|?]; zbool; lia.
Qed.

(** * How many chunks a rate keeps *)

(** Over the counter values [n .. n + k - 1], how many are below the rate. *)
Fixpoint kept (r n : Z) (k : nat) : Z :=
  match k with
  | O => 0
  | S k' => (if n mod 100 <? r then 1 else 0) + kept r (n + 1) k'
  end.

Lemma kept_snoc r n k :
  kept r n (S k) = kept r n k + (if (n + Z.of_nat k) mod 100 <? r then 1 else 0).
Proof.
  revert n. induction k as [|k IH]; intros n.
  - cbn [kept]. replace (n + Z.of_nat 0) with n by lia. lia.
  - change (kept r n (S (S k))) with
      ((if n mod 100 <? r then 1 else 0) + kept r (n + 1) (S k)).
    rewrite IH. change (kept r n (S k)) with
      ((if n mod 100 <? r then 1 else 0) + kept r (n + 1) k).
    replace (n + Z.of_nat (S k)) with (n + 1 + Z.of_nat k) by lia. lia.
Qed.

Lemma kept_shift r n : kept r (n + 1) 100 = kept r n 100.
Proof.
  assert (kept r n (S 100) = kept r n (S 100)) as E by done.
  rewrite (kept_snoc r n 100) in E at 1.
  change (kept r n (S 100)) with ((if n mod 100 <? r then 1 else 0) + kept r (n + 1) 100) in E.
  replace ((n + Z.of_nat 100) mod 100) with (n mod 100) in E; [lia|].
  replace (n + Z.of_nat 100) with (n + 1 * 100) by lia. by rewrite Z.mod_add.
Qed.

Lemma kept_zero r : 0 <= r <= 100 → kept r 0 100 = r.
Proof.
  intros Hr.
  assert (forallb (fun r => kept (Z.of_nat r) 0 100 =? Z.of_nat r) (seq 0 101) = true) as Hb
    by (vm_compute; reflexivity).
  rewrite forallb_forall in Hb. specialize (Hb (Z.to_nat r)).
  rewrite Z2Nat.id in Hb by lia. apply Z.eqb_eq, Hb, in_seq. lia.
Qed.

Lemma kept_window r n : 0 <= r <= 100 → 0 <= n → kept r n 100 = r.
Proof.
  intros Hr Hn. pattern n. apply natlike_ind; [by apply kept_zero| |done].
  intros m Hm IH. unfold Z.succ. by rewrite kept_shift.
Qed.

(** Submit [k] chunks with the same sampling header on one CPU; count the ones that are kept. *)
Fixpoint sample_many (e : env) (data : list byte) (len : Z) (k : nat) (s : kstate) : Z * kstate :=
  match k with
  | O => (0, s)
  | S k' =>
      let '(out, s1) := run e (should_sample_out data len) s in
      let '(n, s2) := sample_many e data len k' s1 in
      ((if out then 0 else 1) + n, s2)
  end.

Lemma sample_many_kept e data len r k s :
  sample_rate (k_arrays s sampling_config 0) data len = Some r →
  0 <= counter s event_counter (e_cpu e) 0 →
  counter s event_counter (e_cpu e) 0 + Z.of_nat k < 2 ^ 64 →
  (sample_many e data len k s).1 = kept r (counter s event_counter (e_cpu e) 0) k.
Proof.
  revert s. induction k as [|k IH]; intros s Hr H0 Hk; [done|].
  cbn [sample_many kept]. rewrite run_should_sample_out. unfold sample_spec. rewrite Hr.
  specialize (IH (bump_counter (e_cpu e) s)).
  assert (counter (bump_counter (e_cpu e) s) event_counter (e_cpu e) 0 =
          counter s event_counter (e_cpu e) 0 + 1) as E.
  { unfold bump_counter. rewrite counter_set_counter. apply wrap_small. lia. }
  rewrite E in IH. destruct (sample_many _ _ _ _ _) as [n s2]. cbn [fst] in IH |- *.
  rewrite IH; [|done|lia|lia]. f_equal.
  rewrite Z.ltb_antisym. by destruct (r <=? _).
Qed.

(** * Protected paths *)

(** Requests the program never samples out. *)
Definition protected : list (list byte) :=
  [lit "/auth"; lit "/login"; lit "/token"; lit "/oauth"; lit "/admin"; lit "/mcp"].

(** * Properties *)

(** [find_path_start] returns one past the first space within the first eight bytes read, and
    0 exactly when those bytes hold no space; a non-zero result is at most 8 and at most [len], so
    the path pointer it yields stays inside the 64-byte sample buffer. *)
Theorem find_path_start_spec (data : list byte) (len : Z) :
  let p := find_path_start data len in
  (p = 0 ∧ ∀ j, 0 <= j < Z.min 8 len → byte_at data j ≠ space) ∨
  (0 < p <= Z.min 8 len ∧ byte_at data (p - 1) = space ∧
   ∀ j, 0 <= j < p - 1 → byte_at data j ≠ space).
Proof.
  cbv zeta. destruct (find_path_from_spec 8 data len 0 _ ltac:(lia) eq_refl eq_refl); auto.
Qed.
