(* ===== verification/Fixture.v ===== *)
(** A concrete environment and kernel state on which the theorems with hypotheses are applied.

    [demo_env] is one uprobe firing on CPU 0 for process 1000, thread 1001: user memory holds a
    request at [demo_buf], kernel memory reads as zero except where a fixture says otherwise, no
    map evicts, every ring has room. *)

From S2P Require Import Prelude Abi Kernel Logic Sampling.
From Stdlib Require Import Strings.String.

Definition demo_pid_tgid : Z := 1000 * 2 ^ 32 + 1001.
Definition demo_buf : Z := 4096.

Definition demo_request : list byte := lit "GET /health HTTP/1.1".

Definition demo_login : list byte := lit "POST /login?next=/ HTTP/1".

Definition demo_program : list byte := lit "/bin/sh".

(** Memory that holds [bs] at [base] and faults elsewhere. *)
Definition mem_at (base : Z) (bs : list byte) (addr : Z) : option byte :=
  if addr <? base then None else nth_error bs (Z.to_nat (addr - base)).

(** [n] bytes of filler at [base]. *)
Definition mem_fill (base n : Z) (b : byte) (addr : Z) : option byte :=
  if (base <=? addr) && (addr <? base + n) then Some b else None.

Definition demo_hdr : tls_event_hdr := {|
  h_ts_ns := 170; h_pid := 170; h_tid := 170; h_ssl_ptr := 170; h_data_len := 170;
  h_direction := 170; h_ip_family := 170; h__pad16 := 170; h_comm := replicate 16 xaa;
  h_cgroup_id := 170; h_netns_ino := 170; h_src_port := 170; h_dst_port := 170;
  h_src_ip4 := 170; h_dst_ip4 := 170; h_src_ip6 := replicate 16 xaa;
  h_dst_ip6 := replicate 16 xaa; h_abi_version := 170; h_flags := 170; h_actual_len := 170;
  h_copied_len := 170; h_conn_generation := 170; h_proc_start_ns := 170; h_dir_seq := 170;
  h_attribution := 170; h_provider_id := 170; h_role_hint := 170; h__pad8 := 170;
  h_sock_cookie := 170 |}.

(** What reserved memory holds before it is written. *)
Definition demo_stale (r : ring) : ring_record r :=
  match r with
  | events => {| ev_hdr := demo_hdr; ev_data := replicate 64 xaa |}
  | close_events => {| ce_ts_ns := 170; ce_pid := 170; ce_tid := 170; ce_ssl_ptr := 170;
                       ce_proc_start_ns := 170; ce_generation := 170; ce__pad := 170 |}
  | proc_events => {| pe_pid := 170; pe__pad := 170; pe_cgroup_id := 170;
                      pe_comm := replicate 16 xaa; pe_filename := replicate 128 xaa |}
  end.

Definition demo_env : env := {|
  e_cpu := 0;
  e_pid_tgid := demo_pid_tgid;
  e_ktime := 5000;
  e_cgroup := 77;
  e_comm := lit "curl";
  e_task := 0;
  e_offset := fun _ => 0;
  e_kmem := fun _ => Some x00;
  e_umem := mem_at demo_buf demo_request;
  e_evict := fun _ _ _ => [];
  e_update_err := fun _ _ _ => 0;
  e_reserve := fun _ _ => true;
  e_stale := demo_stale;
  e_dynptr_null := false;
  e_dynptr_write_err := 0;
  e_freed := 0
|}.

#[export] Instance env_fields : Fields env := fun e =>
  Build_env (e_cpu e) (e_pid_tgid e) (e_ktime e) (e_cgroup e) (e_comm e) (e_task e)
    (e_offset e) (e_kmem e) (e_umem e) (e_evict e) (e_update_err e) (e_reserve e) (e_stale e)
    (e_dynptr_null e) (e_dynptr_write_err e) (e_freed e).

(** The state after load: maps empty, arrays and counters zero, except the sampling rates that
    userspace writes before it polls. *)
Definition zero_arrays (m : arr) (_ : Z) : arr_val m :=
  match m with
  | sampling_config => {| sc_default_rate := 0; sc_health_rate := 0 |}
  | blocked_ips => {| bc_ip := 0; bc_mask := 0 |}
  | blocked_ips_count => 0
  end.

Definition zero_state : kstate := {|
  k_maps := fun _ => ∅;
  k_arrays := zero_arrays;
  k_counters := fun _ _ _ => 0;
  k_scratch := fun _ => replicate (Z.to_nat MAX_DATA) x00;
  k_rings := fun _ => [];
  k_reserved := fun _ => 0
|}.

Definition with_sampling (default_rate health_rate : Z) (s : kstate) : kstate :=
  s <| k_arrays := dep_set (k_arrays s) sampling_config
         (fun _ => {| sc_default_rate := default_rate; sc_health_rate := health_rate |}) |>.

(** [--bpf] start-up: both rates are 100. *)
Definition demo_state : kstate := with_sampling 100 100 zero_state.
