(* ===== verification/TlsState.v ===== *)
(** The state kept per TLS object and per CPU: the helpers [ssl_key_for], [remember_ssl_owner],
    [current_proc_start_ns], [count_stat] and [next_seq] of [bpf/http_trace.bpf.c], with what
    each of them does to the kernel state. *)

From S2P Require Import Prelude Abi Kernel Logic.

(** * The code *)

Definition tgid_of (pid_tgid : Z) : Z := u32 (Z.shiftr pid_tgid 32).

Definition ssl_key_for (ptr : Z) : prog ssl_key :=
  pid_tgid ← call bpf_get_current_pid_tgid;
  mret {| sk_tgid := tgid_of pid_tgid; sk__pad := 0; sk_ptr := ptr |}.

Definition remember_ssl_owner (ssl_ptr pid_tgid : Z) : prog unit :=
  k ← ssl_key_for ssl_ptr;
  _ ← call (bpf_map_update_elem ssl_ptr_to_pid k pid_tgid BPF_ANY);
  mret tt.

(** A CO-RE read of an integer member: [size] is the size of the destination. *)
Definition core_read (size : Z) (f : kfield) (src : Z) : prog Z :=
  bs ← call (bpf_core_read size f src);
  mret (le_val bs).

Definition current_proc_start_ns : prog Z :=
  task ← call bpf_get_current_task;
  leader ← core_read 8 task_group_leader task;
  if leader =? 0 then mret 0 else core_read 8 task_start_time leader.

Definition count_stat (idx : Z) : prog unit :=
  v ← call (bpf_percpu_lookup_elem producer_stats idx);
  match v with
  | Some _ => _ ← call (sync_fetch_and_add producer_stats idx 1); mret tt
  | None => mret tt
  end.

(** Current generation and the next per-direction sequence number for this TLS object. *)
Definition next_seq (ssl_ptr direction : Z) : prog (Z * Z) :=
  k ← ssl_key_for ssl_ptr;
  st0 ← call (bpf_map_lookup_state k);
  st ← match st0 with
       | Some st => mret (Some st)
       | None =>
           _ ← call (bpf_map_update_elem ssl_state_map k ssl_state_zero BPF_NOEXIST);
           call (bpf_map_lookup_state k)
       end;
  match st with
  | None =>
      _ ← count_stat STAT_MAP_FAIL;
      mret (0, 0)
  | Some st =>
      generation ← call (ref_load_generation st);
      cur ← call (ref_load_seq st (Z.land direction 1));
      _ ← call (ref_store_seq st (Z.land direction 1) (u32 (cur + 1)));
      mret (generation, cur)
  end.

(** * What they do *)

(** The key of a TLS object of process [tgid_of (e_pid_tgid e)]. *)
Definition key_of (e : env) (ptr : Z) : ssl_key :=
  {| sk_tgid := tgid_of (e_pid_tgid e); sk__pad := 0; sk_ptr := ptr |}.

Lemma run_ssl_key_for e ptr s : run e (ssl_key_for ptr) s = (key_of e ptr, s).
Proof. done. Qed.

Definition bump_stat (cpu idx : Z) (s : kstate) : kstate :=
  set_counter producer_stats cpu idx (u64 (counter s producer_stats cpu idx + 1)) s.

Lemma run_count_stat e idx s :
  0 <= idx < 6 → run e (count_stat idx) s = (tt, bump_stat (e_cpu e) idx s).
Proof.
  intros Hidx. unfold count_stat. run_step.
  assert (in_range idx (percpu_max_entries producer_stats) = true) as ->.
  { unfold in_range. cbn. apply andb_true_iff. split; [apply Z.leb_le|apply Z.ltb_lt]; lia. }
  cbn [fst snd]. by run_steps.
Qed.

(** The process start time as [current_proc_start_ns] reads it from the task. *)
Definition kread_int (e : env) (size : Z) (f : kfield) (src : Z) : Z :=
  le_val (kread e (u64 (src + e_offset e f)) size).

Lemma run_core_read e size f src s : run e (core_read size f src) s = (kread_int e size f src, s).
Proof. done. Qed.

Definition proc_start_ns (e : env) : Z :=
  let leader := kread_int e 8 task_group_leader (e_task e) in
  if leader =? 0 then 0 else kread_int e 8 task_start_time leader.

Lemma run_current_proc_start_ns e s : run e current_proc_start_ns s = (proc_start_ns e, s).
Proof.
  unfold current_proc_start_ns, proc_start_ns. run_step. rewrite run_bind, run_core_read.
  cbn [fst snd]. by destruct (_ =? 0).
Qed.

Lemma run_remember_ssl_owner e ptr pid_tgid s :
  run e (remember_ssl_owner ptr pid_tgid) s =
    (tt, (update_elem e ssl_ptr_to_pid (key_of e ptr) pid_tgid BPF_ANY s).2).
Proof. unfold remember_ssl_owner. by run_steps. Qed.

(** The record of the object's counters, created when the object is seen for the first time. *)
Definition ensure_state (e : env) (k : ssl_key) (s : kstate) : kstate :=
  match lookup_map s ssl_state_map k with
  | Some _ => s
  | None => (update_elem e ssl_state_map k ssl_state_zero BPF_NOEXIST s).2
  end.

Definition advance_seq (k : ssl_key) (d : Z) (st : ssl_state) (s : kstate) : kstate :=
  store_state k (set_ss_seq d (u32 (ss_seq d st + 1))) s.

Definition next_seq_spec (e : env) (ptr direction : Z) (s : kstate) : (Z * Z) * kstate :=
  let k := key_of e ptr in
  let s1 := ensure_state e k s in
  match lookup_map s1 ssl_state_map k with
  | Some st =>
      let d := Z.land direction 1 in
      ((ss_generation st, ss_seq d st), advance_seq k d st s1)
  | None => ((0, 0), bump_stat (e_cpu e) STAT_MAP_FAIL s1)
  end.

Lemma run_next_seq e ptr direction s :
  run e (next_seq ptr direction) s = next_seq_spec e ptr direction s.
Proof.
  unfold next_seq, next_seq_spec, ensure_state, advance_seq. run_step.
  rewrite run_ssl_key_for. cbn [fst snd]. run_step. rewrite run_bind.
  destruct (lookup_map s ssl_state_map (key_of e ptr)) as [st|] eqn:E.
  - cbn [fst snd]. rewrite run_ret. cbn [fst snd]. rewrite ?E. run_steps.
    unfold load_state. by rewrite ?E.
  - run_steps. destruct (lookup_map (update_elem _ _ _ _ _ _).2 _ _) as [st|] eqn:E2.
    + run_steps. unfold load_state. by rewrite ?E2.
    + cbn iota. rewrite run_bind, run_count_stat; [done|]. unfold STAT_MAP_FAIL. lia.
Qed.
