(* ===== verification/Emit.v ===== *)
(** Event emission: [fill_event_hdr], [emit_event_dynptr] and [emit_event] of
    [bpf/http_trace.bpf.c], each with a closed form of what it does to the kernel state. The
    properties of emission are in [EmitProps]. *)

From S2P Require Import Prelude Abi Kernel Logic Sampling TlsState.

(** * The code *)

(** The unconditional assignments of [fill_event_hdr], in source order: every member of the
    header is assigned, so nothing of the reserved memory survives. *)
Definition hdr_init (ts : Z) (comm : list byte) (cgroup start pid_tgid ssl_ptr actual_len
    copy_len direction provider generation seq : Z) : tls_event_hdr := {|
  h_ts_ns := ts;
  h_pid := u32 (Z.shiftr pid_tgid 32);
  h_tid := u32 pid_tgid;
  h_ssl_ptr := ssl_ptr;
  h_data_len := copy_len;
  h_direction := direction;
  h_ip_family := 0;
  h__pad16 := 0;
  h_comm := ztake 16 (overlay comm zeros16);
  h_cgroup_id := cgroup;
  h_netns_ino := 0;
  h_src_port := 0;
  h_dst_port := 0;
  h_src_ip4 := 0;
  h_dst_ip4 := 0;
  h_src_ip6 := zeros16;
  h_dst_ip6 := zeros16;
  h_abi_version := TLS_EVENT_ABI_VERSION;
  h_flags := if copy_len <? actual_len then FLAG_TRUNCATED else 0;
  h_actual_len := actual_len;
  h_copied_len := copy_len;
  h_conn_generation := generation;
  h_proc_start_ns := start;
  h_dir_seq := seq;
  h_attribution := ATTR_NONE;
  h_provider_id := provider;
  h_role_hint := 0;
  h__pad8 := 0;
  h_sock_cookie := 0
|}.

(** [if (info) { ... }]: copy the tuple of a known connection. *)
Definition hdr_set_conn (info : conn_info) (hdr : tls_event_hdr) : tls_event_hdr :=
  let hdr := hdr <| h_src_port := ci_src_port info |>
                 <| h_dst_port := ci_dst_port info |>
                 <| h_role_hint := ci_role info |>
                 <| h_sock_cookie := ci_sock_ino info |> in
  if ci_family info =? AF_INET6 then
    hdr <| h_ip_family := 6 |>
        <| h_src_ip6 := ci_src_ip6 info |>
        <| h_dst_ip6 := ci_dst_ip6 info |>
  else if ci_family info =? AF_INET then
    hdr <| h_ip_family := 4 |>
        <| h_src_ip4 := ci_src_ip4 info |>
        <| h_dst_ip4 := ci_dst_ip4 info |>
  else hdr.

Definition hdr_attr (attribution flag : Z) (hdr : tls_event_hdr) : tls_event_hdr :=
  hdr <| h_attribution := attribution |> <| h_flags := Z.lor (h_flags hdr) flag |>.

Definition read_netns_ino (hdr : tls_event_hdr) : prog tls_event_hdr :=
  task ← call bpf_get_current_task;
  nsproxy ← core_read 8 task_nsproxy task;
  if nsproxy =? 0 then mret hdr else
  net_ns ← core_read 8 nsproxy_net_ns nsproxy;
  if net_ns =? 0 then mret hdr else
  ino ← core_read 4 net_ns_inum net_ns;
  mret (hdr <| h_netns_ino := ino |>).

(** [hdr] is the reserved, not yet written header. *)
Definition fill_event_hdr (hdr : tls_event_hdr) (pid_tgid ssl_ptr actual_len copy_len direction
    provider generation seq : Z) : prog tls_event_hdr :=
  ts ← call bpf_ktime_get_ns;
  comm ← call bpf_get_current_comm;
  cgroup ← call bpf_get_current_cgroup_id;
  start ← current_proc_start_ns;
  let hdr := hdr_init ts comm cgroup start pid_tgid ssl_ptr actual_len copy_len direction
               provider generation seq in
  hdr ← read_netns_ino hdr;
  k ← ssl_key_for ssl_ptr;
  info ← call (bpf_map_lookup_elem ssl_ptr_to_conn k);
  match info with
  | Some info => mret (hdr_set_conn info (hdr_attr ATTR_SSL FLAG_ATTR_SSL hdr))
  | None =>
      info ← call (bpf_map_lookup_elem active_connections pid_tgid);
      match info with
      | Some info => mret (hdr_set_conn info (hdr_attr ATTR_THREAD FLAG_ATTR_THREAD hdr))
      | None => mret hdr
      end
  end.

(** [if (read_len >= MAX_DATA) read_len = MAX_DATA - 1;] *)
Definition clamp_len (len : Z) : Z := if MAX_DATA <=? len then MAX_DATA - 1 else len.

(** The sampling block both emission paths open with; true when the record is dropped. *)
Definition sampled_out (buf read_len : Z) : prog bool :=
  if 0 <? read_len then
    let sample_len := if read_len <? 64 then read_len else 64 in
    r ← call (bpf_probe_read_user sample_len buf);
    let sample_hdr := overlay (default (zeros sample_len) r) (zeros 64) in
    out ← should_sample_out sample_hdr sample_len;
    if (out : bool) then _ ← count_stat STAT_SAMPLED; mret true else mret false
  else mret false.

Definition dyn_set_hdr (hdr : tls_event_hdr) (d : dyn_mem) : dyn_mem :=
  d <| dp_rec := (dp_rec d) <| ev_hdr := hdr |> |>.

Definition dynptr_fail (stat : Z) (dp : dynptr) : prog Z :=
  _ ← count_stat stat;
  _ ← call (bpf_ringbuf_discard_dynptr dp);
  mret 0.

Definition dynptr_submit (dp : dynptr) : prog Z :=
  _ ← count_stat STAT_SUBMITTED;
  _ ← call (bpf_ringbuf_submit_dynptr dp);
  mret 0.

(** [if (read_len > 0) { ... }] and the submission after it. *)
Definition dynptr_copy (buf read_len : Z) (dp : dynptr) : prog Z :=
  if 0 <? read_len then
    scratch ← call (bpf_percpu_lookup_elem dynptr_scratch 0);
    match scratch with
    | None => dynptr_fail STAT_COPY_FAIL dp
    | Some _ =>
        let copy_len := Z.land read_len (MAX_DATA - 1) in
        rc ← call (bpf_probe_read_user_scratch copy_len buf);
        if negb (rc =? 0) then dynptr_fail STAT_COPY_FAIL dp else
        w ← call (bpf_dynptr_write dp sizeof_tls_event_hdr copy_len);
        if negb (w.1 =? 0) then dynptr_fail STAT_COPY_FAIL w.2 else
        dynptr_submit w.2
    end
  else dynptr_submit dp.

Definition emit_event_dynptr (buf len direction ssl_ptr provider : Z) : prog Z :=
  pid_tgid ← call bpf_get_current_pid_tgid;
  let read_len := clamp_len len in
  _ ← count_stat STAT_ATTEMPTED;
  gs ← next_seq ssl_ptr direction;
  out ← sampled_out buf read_len;
  if (out : bool) then mret 0 else
  let total_size := u32 (sizeof_tls_event_hdr + read_len) in
  r ← call (bpf_ringbuf_reserve_dynptr total_size);
  match (if 0 <=? r.1 then r.2 else None) with
  | Some d =>
      hdr ← call (bpf_dynptr_data (Some d) 0 sizeof_tls_event_hdr);
      match hdr with
      | None => dynptr_fail STAT_RESERVE_FAIL (Some d)
      | Some _ =>
          hdr ← fill_event_hdr (ev_hdr (dp_rec d)) pid_tgid ssl_ptr len read_len direction
                  provider gs.1 gs.2;
          dynptr_copy buf read_len (Some (dyn_set_hdr hdr d))
      end
  | None => dynptr_fail STAT_RESERVE_FAIL r.2
  end.

(** [sizeof(struct tls_event)] *)
Definition sizeof_tls_event : Z := sizeof_tls_event_hdr + MAX_DATA.

Definition emit_event (cfg_use_dynptr : bool) (buf len direction ssl_ptr provider : Z) : prog Z :=
  if cfg_use_dynptr then emit_event_dynptr buf len direction ssl_ptr provider else
  pid_tgid ← call bpf_get_current_pid_tgid;
  let read_len := clamp_len len in
  _ ← count_stat STAT_ATTEMPTED;
  gs ← next_seq ssl_ptr direction;
  out ← sampled_out buf read_len;
  if (out : bool) then mret 0 else
  e ← call (bpf_ringbuf_reserve events sizeof_tls_event);
  match (e : option tls_event) with
  | None => _ ← count_stat STAT_RESERVE_FAIL; mret 0
  | Some e =>
      hdr ← fill_event_hdr (ev_hdr e) pid_tgid ssl_ptr len read_len direction provider gs.1 gs.2;
      let e := e <| ev_hdr := hdr |> in
      copied ← (if 0 <? read_len
                then call (bpf_probe_read_user (Z.land read_len (MAX_DATA - 1)) buf)
                else mret (Some []));
      match copied with
      | None =>
          _ ← count_stat STAT_COPY_FAIL;
          _ ← call (bpf_ringbuf_discard events);
          mret 0
      | Some bs =>
          let e := e <| ev_data := overlay bs (ev_data e) |> in
          _ ← count_stat STAT_SUBMITTED;
          _ ← call (bpf_ringbuf_submit events e);
          mret 0
      end
  end.

(** * Closed forms *)

Definition netns_ino_of (e : env) : Z :=
  let nsproxy := kread_int e 8 task_nsproxy (e_task e) in
  if nsproxy =? 0 then 0 else
  let net_ns := kread_int e 8 nsproxy_net_ns nsproxy in
  if net_ns =? 0 then 0 else kread_int e 4 net_ns_inum net_ns.

(** Where the tuple of an event comes from: the exact association first, the thread's latest
    connection as a fallback. *)
Inductive attribution := AttrSsl (info : conn_info) | AttrThread (info : conn_info) | AttrNone.

Definition attribute (e : env) (ssl_ptr : Z) (s : kstate) : attribution :=
  match lookup_map s ssl_ptr_to_conn (key_of e ssl_ptr) with
  | Some info => AttrSsl info
  | None => match lookup_map s active_connections (e_pid_tgid e) with
            | Some info => AttrThread info
            | None => AttrNone
            end
  end.

Definition hdr_attribute (a : attribution) (hdr : tls_event_hdr) : tls_event_hdr :=
  match a with
  | AttrSsl info => hdr_set_conn info (hdr_attr ATTR_SSL FLAG_ATTR_SSL hdr)
  | AttrThread info => hdr_set_conn info (hdr_attr ATTR_THREAD FLAG_ATTR_THREAD hdr)
  | AttrNone => hdr
  end.

Definition event_hdr (e : env) (ssl_ptr actual_len copy_len direction provider generation seq : Z)
    (s : kstate) : tls_event_hdr :=
  hdr_attribute (attribute e ssl_ptr s)
    ((hdr_init (e_ktime e) (e_comm e) (e_cgroup e) (proc_start_ns e) (e_pid_tgid e) ssl_ptr
       actual_len copy_len direction provider generation seq)
     <| h_netns_ino := netns_ino_of e |>).

Lemma run_fill_event_hdr e hdr ssl_ptr actual_len copy_len direction provider generation seq s :
  run e (fill_event_hdr hdr (e_pid_tgid e) ssl_ptr actual_len copy_len direction provider
           generation seq) s =
    (event_hdr e ssl_ptr actual_len copy_len direction provider generation seq s, s).
Proof.
  unfold fill_event_hdr, event_hdr, attribute, netns_ino_of.
  do 3 run_step. rewrite run_bind, run_current_proc_start_ns. cbn [fst snd]. cbv zeta.
  rewrite run_bind.
  assert (∀ h, h_netns_ino h = 0 → run e (read_netns_ino h) s =
    (h <| h_netns_ino := netns_ino_of e |>, s)) as Hns.
  { intros h Hh. unfold read_netns_ino, netns_ino_of. run_step.
    rewrite run_bind, run_core_read. cbn [fst snd].
    destruct (_ =? 0); [destruct h; cbn in *; by subst|].
    rewrite run_bind, run_core_read. cbn [fst snd].
    destruct (_ =? 0); [destruct h; cbn in *; by subst|]. done. }
  rewrite Hns by done. cbn [fst snd]. run_step. rewrite run_ssl_key_for. cbn [fst snd].
  run_step. destruct (lookup_map s ssl_ptr_to_conn _); [done|].
  run_step. by destruct (lookup_map s active_connections _).
Qed.

(** What the first 64 bytes of the buffer say to the sampler. *)
Definition sample_hdr_of (e : env) (buf read_len : Z) : list byte * Z :=
  let sample_len := if read_len <? 64 then read_len else 64 in
  (overlay (default (zeros sample_len) (uread e buf sample_len)) (zeros 64), sample_len).

Definition sampled_spec (e : env) (buf read_len : Z) (s : kstate) : bool * kstate :=
  if 0 <? read_len then
    let '(data, n) := sample_hdr_of e buf read_len in
    let '(out, s1) := sample_spec e data n s in
    if out then (true, bump_stat (e_cpu e) STAT_SAMPLED s1) else (false, s1)
  else (false, s).

Lemma run_sampled_out e buf read_len s :
  run e (sampled_out buf read_len) s = sampled_spec e buf read_len s.
Proof.
  unfold sampled_out, sampled_spec, sample_hdr_of. destruct (0 <? read_len); [|done].
  cbv zeta. run_step. rewrite run_bind, run_should_sample_out.
  destruct (sample_spec _ _ _ _) as [[] s1]; cbn [fst snd]; [|done].
  rewrite run_bind, run_count_stat by (unfold STAT_SAMPLED; lia). done.
Qed.

(** The state in which an attempt decides its outcome: the attempt is counted, the sequence has
    advanced, the sampler has been consulted. *)
Record attempt := { at_out : bool; at_generation : Z; at_seq : Z; at_state : kstate }.

Definition attempt_of (e : env) (buf len direction ssl_ptr : Z) (s : kstate) : attempt :=
  let '((g, q), s1) := next_seq_spec e ssl_ptr direction (bump_stat (e_cpu e) STAT_ATTEMPTED s) in
  let '(out, s2) := sampled_spec e buf (clamp_len len) s1 in
  {| at_out := out; at_generation := g; at_seq := q; at_state := s2 |}.

(** The payload copy: nothing to copy succeeds. *)
Definition payload_of (e : env) (buf read_len : Z) : option (list byte) :=
  if 0 <? read_len then uread e buf (Z.land read_len (MAX_DATA - 1)) else Some [].

Definition hdr_of (e : env) (len direction ssl_ptr provider : Z) (a : attempt) : tls_event_hdr :=
  event_hdr e ssl_ptr len (clamp_len len) direction provider (at_generation a) (at_seq a)
    (at_state a).

Definition finish (e : env) (stat : Z) (s : kstate) : kstate := bump_stat (e_cpu e) stat s.

(** [emit_event] with [cfg_use_dynptr = 0]. *)
Definition emit_fixed_spec (e : env) (buf len direction ssl_ptr provider : Z) (s : kstate)
    : kstate :=
  let a := attempt_of e buf len direction ssl_ptr s in
  let s1 := at_state a in
  if at_out a then s1 else
  if e_reserve e events sizeof_tls_event then
    let s2 := add_reserved (e_cpu e) 1 s1 in
    match payload_of e buf (clamp_len len) with
    | None => add_reserved (e_cpu e) (-1) (finish e STAT_COPY_FAIL s2)
    | Some bs =>
        add_reserved (e_cpu e) (-1)
          (push_ring events
             {| ev_hdr := hdr_of e len direction ssl_ptr provider a;
                ev_data := overlay bs (ev_data (e_stale e events)) |}
             (finish e STAT_SUBMITTED s2))
    end
  else finish e STAT_RESERVE_FAIL s1.

Lemma event_hdr_add_reserved e ssl_ptr al cl d p g q s cpu n :
  event_hdr e ssl_ptr al cl d p g q (add_reserved cpu n s) = event_hdr e ssl_ptr al cl d p g q s.
Proof. done. Qed.

Lemma run_emit_fixed e buf len direction ssl_ptr provider s :
  run e (emit_event false buf len direction ssl_ptr provider) s =
    (0, emit_fixed_spec e buf len direction ssl_ptr provider s).
Proof.
  unfold emit_event, emit_fixed_spec, attempt_of. run_step. cbv zeta.
  rewrite run_bind, run_count_stat by (unfold STAT_ATTEMPTED; lia). cbn [fst snd].
  rewrite run_bind, run_next_seq. destruct (next_seq_spec _ _ _ _) as [[g q] s1]. cbn [fst snd].
  rewrite run_bind, run_sampled_out. destruct (sampled_spec _ _ _ _) as [[] s2];
    cbn [fst snd at_out at_state]; [done|].
  rewrite run_call_bind. cbn [handle].
  destruct (e_reserve e events sizeof_tls_event); cbn [fst snd].
  - rewrite run_bind, run_fill_event_hdr. cbn [fst snd].
    rewrite event_hdr_add_reserved. rewrite run_bind. unfold payload_of.
    destruct (0 <? clamp_len len).
    + rewrite run_call. cbn [handle fst snd].
      destruct (uread _ _ _); rewrite run_bind, run_count_stat
        by (unfold STAT_SUBMITTED, STAT_COPY_FAIL; lia); cbn [fst snd]; by run_steps.
    + rewrite run_ret. cbn [fst snd]. rewrite run_bind, run_count_stat
        by (unfold STAT_SUBMITTED; lia); cbn [fst snd]; by run_steps.
  - rewrite run_bind, run_count_stat by (unfold STAT_RESERVE_FAIL; lia). done.
Qed.

(** * The copied length *)

Lemma clamp_len_range len : 0 <= len → 0 <= clamp_len len < MAX_DATA.
Proof. unfold clamp_len, MAX_DATA. destruct (_ <=? _) eqn:E; zbool; lia. Qed.

Lemma clamp_len_min len : clamp_len len = Z.min len (MAX_DATA - 1).
Proof. unfold clamp_len, MAX_DATA. destruct (_ <=? _) eqn:E; zbool; lia. Qed.

(** The mask [read_len & (MAX_DATA - 1)] the verifier asks for does not change the length. *)
Lemma mask_len n : 0 <= n < MAX_DATA → Z.land n (MAX_DATA - 1) = n.
Proof.
  intros Hn. change (MAX_DATA - 1) with (Z.ones 15). rewrite Z.land_ones by lia.
  apply Z.mod_small. exact Hn.
Qed.

Lemma payload_of_clamp e buf len :
  0 <= len →
  payload_of e buf (clamp_len len) =
    if 0 <? clamp_len len then uread e buf (clamp_len len) else Some [].
Proof. intros Hlen. unfold payload_of. by rewrite mask_len by by apply clamp_len_range. Qed.

Lemma payload_of_length e buf len bs :
  0 <= len → payload_of e buf (clamp_len len) = Some bs → zlen bs = clamp_len len.
Proof.
  intros Hlen. rewrite payload_of_clamp by done. pose proof (clamp_len_range len Hlen).
  destruct (0 <? clamp_len len) eqn:E; zbool.
  - intros Hbs%read_mem_length. unfold zlen. lia.
  - intros [= <-]. unfold zlen. cbn. lia.
Qed.

(** * The dynptr path *)

(** [dynptr_scratch] after the copy: the bytes read, or zeroes when the read failed. *)
Definition scratch_after (e : env) (read_len : Z) (payload : option (list byte)) (s : kstate)
    : kstate :=
  if 0 <? read_len then
    set_scratch (e_cpu e)
      (overlay (default (zeros read_len) payload) (k_scratch s (e_cpu e))) s
  else s.

(** [emit_event] with [cfg_use_dynptr = 1]. *)
Definition emit_dynptr_spec (e : env) (buf len direction ssl_ptr provider : Z) (s : kstate)
    : kstate :=
  let a := attempt_of e buf len direction ssl_ptr s in
  let s1 := at_state a in
  if at_out a then s1 else
  if e_reserve e events (sizeof_tls_event_hdr + clamp_len len) then
    let s2 := add_reserved (e_cpu e) 1 s1 in
    if e_dynptr_null e then add_reserved (e_cpu e) (-1) (finish e STAT_RESERVE_FAIL s2) else
    let payload := payload_of e buf (clamp_len len) in
    let s3 := scratch_after e (clamp_len len) payload s2 in
    match payload with
    | None => add_reserved (e_cpu e) (-1) (finish e STAT_COPY_FAIL s3)
    | Some bs =>
        if (0 <? clamp_len len) && negb (e_dynptr_write_err e =? 0)
        then add_reserved (e_cpu e) (-1) (finish e STAT_COPY_FAIL s3)
        else add_reserved (e_cpu e) (-1)
               (push_ring events
                  {| ev_hdr := hdr_of e len direction ssl_ptr provider a; ev_data := bs |}
                  (finish e STAT_SUBMITTED s3))
    end
  else finish e STAT_RESERVE_FAIL s1.

Lemma run_dynptr_fail e stat d s :
  0 <= stat < 6 →
  run e (dynptr_fail stat (Some d)) s = (0, add_reserved (e_cpu e) (-1) (finish e stat s)).
Proof. intros Hs. unfold dynptr_fail. rewrite run_bind, run_count_stat by done. by run_steps. Qed.

Lemma run_dynptr_submit e d s :
  run e (dynptr_submit (Some d)) s =
    (0, add_reserved (e_cpu e) (-1) (push_ring events (dp_rec d) (finish e STAT_SUBMITTED s))).
Proof.
  unfold dynptr_submit. rewrite run_bind, run_count_stat by (unfold STAT_SUBMITTED; lia).
  by run_steps.
Qed.

Lemma ztake_overlay bs data : ztake (zlen bs) (overlay bs data) = bs.
Proof. unfold ztake, zlen, overlay. rewrite Nat2Z.id. by rewrite take_app_length. Qed.

Lemma overlay_take bs data n : zlen bs = n → overlay bs (ztake n data) = bs.
Proof.
  unfold zlen, ztake, overlay. intros Hn.
  rewrite drop_ge; [by rewrite app_nil_r|]. rewrite length_take. lia.
Qed.

(** The write through the dynptr leaves exactly the scratch bytes as the payload. *)
Lemma dynptr_payload d n (bs scratch : list byte) :
  zlen bs = n →
  let data := ztake n d in
  ztake (sizeof_tls_event_hdr - sizeof_tls_event_hdr) data ++
    overlay (ztake n (overlay bs scratch))
      (zdrop (sizeof_tls_event_hdr - sizeof_tls_event_hdr) data) = bs.
Proof.
  intros Hn. cbv zeta. rewrite Z.sub_diag, zdrop_0. rewrite <- Hn at 2.
  rewrite ztake_overlay. unfold ztake at 1. cbn [Z.to_nat take app].
  by apply overlay_take.
Qed.

Lemma kscratch_set cpu bs s : k_scratch (set_scratch cpu bs s) cpu = bs.
Proof. unfold set_scratch. cbn. apply fn_set_eq. Qed.

(** The state after the payload stage of the dynptr path, for a reservation [d] whose payload
    area is [n] bytes of stale ring memory. *)
Definition dynptr_copy_spec (e : env) (buf n : Z) (hdr : tls_event_hdr) (s : kstate) : kstate :=
  let payload := payload_of e buf n in
  let s1 := scratch_after e n payload s in
  match payload with
  | None => add_reserved (e_cpu e) (-1) (finish e STAT_COPY_FAIL s1)
  | Some bs =>
      if (0 <? n) && negb (e_dynptr_write_err e =? 0)
      then add_reserved (e_cpu e) (-1) (finish e STAT_COPY_FAIL s1)
      else add_reserved (e_cpu e) (-1)
             (push_ring events {| ev_hdr := hdr; ev_data := bs |} (finish e STAT_SUBMITTED s1))
  end.

Lemma run_dynptr_copy e buf n d data s :
  0 <= n < MAX_DATA →
  ev_data (dp_rec d) = ztake n data →
  run e (dynptr_copy buf n (Some d)) s =
    (0, dynptr_copy_spec e buf n (ev_hdr (dp_rec d)) s).
Proof.
  intros Hn Hd. unfold dynptr_copy, dynptr_copy_spec, payload_of, scratch_after.
  destruct (0 <? n) eqn:En; zbool.
  - rewrite !mask_len by done. rewrite run_call_bind. cbn [handle].
    change (in_range 0 (percpu_max_entries dynptr_scratch)) with true. cbn [fst snd].
    rewrite run_call_bind. cbn [handle].
    destruct (uread e buf n) as [bs|] eqn:Eu; cbn [fst snd default].
    + apply read_mem_length in Eu.
      assert (zlen bs = n) as Hlen by (unfold zlen; lia).
      change (negb (0 =? 0)) with false. cbn iota.
      rewrite run_call_bind. cbn [handle].
      destruct (e_dynptr_write_err e =? 0) eqn:Ew; cbn [fst snd andb negb].
      * change (negb (0 =? 0)) with false. cbn iota. rewrite run_dynptr_submit.
        do 3 f_equal. cbn. rewrite kscratch_set, Hd.
        by rewrite (dynptr_payload data n bs (k_scratch s (e_cpu e)) Hlen).
      * rewrite Ew. cbn [negb]. rewrite run_dynptr_fail by (unfold STAT_COPY_FAIL; lia). done.
    + change (negb (-14 =? 0)) with true. cbn iota.
      rewrite run_dynptr_fail by (unfold STAT_COPY_FAIL; lia). done.
  - rewrite run_dynptr_submit. cbn [andb]. assert (n = 0) as -> by lia.
    destruct d as [sz [h dt]]. cbn in *. subst dt. done.
Qed.

Lemma u32_total len :
  0 <= len →
  u32 (sizeof_tls_event_hdr + clamp_len len) = sizeof_tls_event_hdr + clamp_len len.
Proof.
  intros Hlen. pose proof (clamp_len_range len Hlen). apply wrap_small.
  unfold sizeof_tls_event_hdr, MAX_DATA in *. lia.
Qed.

Lemma run_emit_dynptr e buf len direction ssl_ptr provider s :
  0 <= len →
  run e (emit_event true buf len direction ssl_ptr provider) s =
    (0, emit_dynptr_spec e buf len direction ssl_ptr provider s).
Proof.
  intros Hlen. unfold emit_event, emit_event_dynptr, emit_dynptr_spec, attempt_of.
  run_step. cbv zeta.
  rewrite run_bind, run_count_stat by (unfold STAT_ATTEMPTED; lia). cbn [fst snd].
  rewrite run_bind, run_next_seq. destruct (next_seq_spec _ _ _ _) as [[g q] s1]. cbn [fst snd].
  rewrite run_bind, run_sampled_out. destruct (sampled_spec _ _ _ _) as [[] s2];
    cbn [fst snd at_out at_state]; [done|].
  rewrite u32_total by done. rewrite run_call_bind. cbn [handle].
  destruct (e_reserve e events _); cbn [fst snd].
  - change (0 <=? 0) with true. cbn iota. rewrite run_call_bind. cbn [handle].
    destruct (e_dynptr_null e); cbn [fst snd].
    + rewrite run_dynptr_fail by (unfold STAT_RESERVE_FAIL; lia). done.
    + rewrite run_bind, run_fill_event_hdr. cbn [fst snd]. rewrite event_hdr_add_reserved.
      rewrite (run_dynptr_copy _ _ _ _ (ev_data (e_stale e events))).
      * done.
      * by apply clamp_len_range.
      * unfold dyn_new. cbn -[Z.add Z.sub ztake sizeof_tls_event_hdr].
        f_equal. lia.
  - change (0 <=? -12) with false. cbn iota. unfold dynptr_fail.
    rewrite run_bind, run_count_stat by (unfold STAT_RESERVE_FAIL; lia). by run_steps.
Qed.

(** Both paths. *)
Definition emit_spec (use_dynptr : bool) (e : env) (buf len direction ssl_ptr provider : Z)
    (s : kstate) : kstate :=
  if use_dynptr then emit_dynptr_spec e buf len direction ssl_ptr provider s
  else emit_fixed_spec e buf len direction ssl_ptr provider s.

Lemma run_emit_event b e buf len direction ssl_ptr provider s :
  0 <= len →
  run e (emit_event b buf len direction ssl_ptr provider) s =
    (0, emit_spec b e buf len direction ssl_ptr provider s).
Proof. intros Hlen. destruct b; [by apply run_emit_dynptr|apply run_emit_fixed]. Qed.
