(* ===== verification/EmitProps.v ===== *)
(** Properties of event emission: what is published and when, loss accounting, the agreement of
    the two emission paths, attribution and truncation marks, and the sequence numbers. *)

From S2P Require Import Prelude Abi Kernel Logic Sampling Fixture TlsState Emit.

(** * Counters *)

Definition stat (s : kstate) (cpu idx : Z) : Z := counter s producer_stats cpu idx.

Lemma stat_bump cpu i j s :
  stat (bump_stat cpu i s) cpu j = if decide (i = j) then u64 (stat s cpu i + 1) else stat s cpu j.
Proof.
  unfold stat, bump_stat. case_decide; subst.
  - by rewrite counter_set_counter.
  - apply counter_set_counter_ne. congruence.
Qed.

Lemma stat_bump_other cpu cpu' i j s :
  cpu ≠ cpu' → stat (bump_stat cpu i s) cpu' j = stat s cpu' j.
Proof. intros Hne. apply counter_set_counter_ne. congruence. Qed.

Lemma stat_bump_counter cpu cpu' j s : stat (bump_counter cpu s) cpu' j = stat s cpu' j.
Proof. apply counter_set_counter_ne. congruence. Qed.

(** * The stages before the outcome *)

(** Everything but counters and [ssl_state_map] is as it was. *)
Definition frame (s s' : kstate) : Prop :=
  (∀ m, m ≠ ssl_state_map → k_maps s' m = k_maps s m) ∧
  k_arrays s' = k_arrays s ∧ k_rings s' = k_rings s ∧ k_reserved s' = k_reserved s ∧
  k_scratch s' = k_scratch s.

#[export] Instance frame_preorder : PreOrder frame.
Proof.
  split; [by intros s|].
  intros s1 s2 s3 (Hm1 & H1 & H2 & H3 & H4) (Hm2 & H1' & H2' & H3' & H4').
  split; [|repeat split; congruence].
  intros m Hm. by rewrite Hm2, Hm1.
Qed.

Lemma frame_bump_stat cpu i s : frame s (bump_stat cpu i s).
Proof. done. Qed.

Lemma frame_bump_counter cpu s : frame s (bump_counter cpu s).
Proof. done. Qed.

Lemma frame_update_state e k v f s : frame s (update_elem e ssl_state_map k v f s).2.
Proof.
  split; [intros m Hm; by apply update_elem_other|].
  unfold update_elem. by destruct f, (k_maps s ssl_state_map !! k); cbn; try case_match.
Qed.

Lemma frame_ensure_state e k s : frame s (ensure_state e k s).
Proof. unfold ensure_state. case_match; [reflexivity|apply frame_update_state]. Qed.

Lemma frame_store_state k f s : frame s (store_state k f s).
Proof.
  split; [|done]. intros m Hm. unfold store_state. by rewrite k_maps_set_map_ne.
Qed.

Lemma frame_next_seq e ptr d s : frame s (next_seq_spec e ptr d s).2.
Proof.
  unfold next_seq_spec. case_match; cbn [snd];
    (etransitivity; [apply frame_ensure_state|]);
    [apply frame_store_state|apply frame_bump_stat].
Qed.

Lemma frame_sample_spec e data n s : frame s (sample_spec e data n s).2.
Proof. unfold sample_spec. by case_match. Qed.

Lemma frame_sampled_spec e buf n s : frame s (sampled_spec e buf n s).2.
Proof.
  unfold sampled_spec. destruct (0 <? n); [|done].
  destruct (sample_hdr_of e buf n) as [data k]. pose proof (frame_sample_spec e data k s) as Hf.
  destruct (sample_spec e data k s) as [[] s1]; cbn [snd] in *; [|done].
  etransitivity; [apply Hf|apply frame_bump_stat].
Qed.

Lemma attempt_frame e buf len d ptr s : frame s (at_state (attempt_of e buf len d ptr s)).
Proof.
  unfold attempt_of. pose proof (frame_next_seq e ptr d (bump_stat (e_cpu e) STAT_ATTEMPTED s)).
  destruct (next_seq_spec _ _ _ _) as [[g q] s1].
  pose proof (frame_sampled_spec e buf (clamp_len len) s1).
  destruct (sampled_spec _ _ _ _) as [out s2]. cbn [snd at_state] in *.
  etransitivity; [apply frame_bump_stat|]. by etransitivity.
Qed.

Lemma stat_update_elem e m k v f s cpu i :
  stat (update_elem e m k v f s).2 cpu i = stat s cpu i.
Proof. unfold update_elem. by destruct f, (k_maps s m !! k); cbn; try case_match. Qed.

(** The counters of the outcomes before the outcome is decided: only sampling has been counted. *)
Lemma stat_next_seq e ptr d s cpu i :
  i ≠ STAT_MAP_FAIL → stat (next_seq_spec e ptr d s).2 cpu i = stat s cpu i.
Proof.
  intros Hi. unfold next_seq_spec, ensure_state.
  case_match; cbn [snd]; case_match; unfold advance_seq;
    try (change (stat (store_state ?k ?f ?s) cpu i) with (stat s cpu i));
    try (destruct (decide (e_cpu e = cpu)) as [->|];
         [rewrite stat_bump; case_decide; [congruence|]|rewrite stat_bump_other by done]);
    rewrite ?stat_update_elem; done.
Qed.

Lemma stat_sampled_spec e buf n s i :
  let r := sampled_spec e buf n s in
  stat r.2 (e_cpu e) i =
    if decide (r.1 = true ∧ i = STAT_SAMPLED) then u64 (stat s (e_cpu e) i + 1)
    else stat s (e_cpu e) i.
Proof.
  cbv zeta. unfold sampled_spec. destruct (0 <? n); [|by case_decide; [naive_solver|]].
  destruct (sample_hdr_of e buf n) as [data k]. unfold sample_spec.
  destruct (sample_rate _ _ _) as [r|]; [|by case_decide; [naive_solver|]].
  destruct (r <=? _); cbn [fst snd].
  - rewrite stat_bump, stat_bump_counter. repeat case_decide; naive_solver.
  - rewrite stat_bump_counter. by case_decide; [naive_solver|].
Qed.

Lemma stat_sampled_other e buf n s cpu i :
  e_cpu e ≠ cpu → stat (sampled_spec e buf n s).2 cpu i = stat s cpu i.
Proof.
  intros Hne. unfold sampled_spec. destruct (0 <? n); [|done].
  destruct (sample_hdr_of e buf n) as [data k]. unfold sample_spec.
  destruct (sample_rate _ _ _) as [r|]; [|done].
  destruct (r <=? _); cbn [fst snd]; rewrite ?stat_bump_other by done;
    by rewrite stat_bump_counter.
Qed.

(** The counters after an attempt, before its outcome is counted. *)
Lemma stat_attempt e buf len d ptr s i :
  i ≠ STAT_MAP_FAIL →
  let a := attempt_of e buf len d ptr s in
  stat (at_state a) (e_cpu e) i =
    if decide (i = STAT_ATTEMPTED ∨ (at_out a = true ∧ i = STAT_SAMPLED))
    then u64 (stat s (e_cpu e) i + 1) else stat s (e_cpu e) i.
Proof.
  intros Hi. cbv zeta. unfold attempt_of.
  pose proof (stat_next_seq e ptr d (bump_stat (e_cpu e) STAT_ATTEMPTED s) (e_cpu e) i Hi) as H1.
  destruct (next_seq_spec _ _ _ _) as [[g q] s1]. cbn [snd] in H1.
  pose proof (stat_sampled_spec e buf (clamp_len len) s1 i) as H2. cbv zeta in H2.
  destruct (sampled_spec _ _ _ _) as [out s2]. cbn [fst snd at_state at_out] in *.
  rewrite H2, H1, stat_bump.
  unfold STAT_ATTEMPTED, STAT_SAMPLED in *. repeat case_decide; naive_solver lia.
Qed.

Lemma stat_attempt_other e buf len d ptr s cpu i :
  e_cpu e ≠ cpu → i ≠ STAT_MAP_FAIL →
  stat (at_state (attempt_of e buf len d ptr s)) cpu i = stat s cpu i.
Proof.
  intros Hne Hi. unfold attempt_of.
  pose proof (stat_next_seq e ptr d (bump_stat (e_cpu e) STAT_ATTEMPTED s) cpu i Hi) as H1.
  destruct (next_seq_spec _ _ _ _) as [[g q] s1]. cbn [snd] in H1.
  pose proof (stat_sampled_other e buf (clamp_len len) s1 cpu i Hne) as H2.
  destruct (sampled_spec _ _ _ _) as [out s2]. cbn [snd at_state] in *.
  by rewrite H2, H1, stat_bump_other.
Qed.

(** * Outcomes *)

(** What becomes of an attempt, with the counter that records it. *)
Inductive outcome := Submitted | ReserveFailed | CopyFailed | Sampled.

#[export] Instance outcome_eq_dec : EqDecision outcome.
Proof. solve_decision. Defined.

Definition outcome_stat (o : outcome) : Z :=
  match o with
  | Submitted => STAT_SUBMITTED
  | ReserveFailed => STAT_RESERVE_FAIL
  | CopyFailed => STAT_COPY_FAIL
  | Sampled => STAT_SAMPLED
  end.

Definition record_size (b : bool) (len : Z) : Z :=
  if b then sizeof_tls_event_hdr + clamp_len len else sizeof_tls_event.

Definition outcome_of (b : bool) (e : env) (buf len : Z) (a : attempt) : outcome :=
  if at_out a then Sampled else
  if negb (e_reserve e events (record_size b len)) then ReserveFailed else
  if b && e_dynptr_null e then ReserveFailed else
  match payload_of e buf (clamp_len len) with
  | None => CopyFailed
  | Some _ =>
      if b && (0 <? clamp_len len) && negb (e_dynptr_write_err e =? 0) then CopyFailed
      else Submitted
  end.

(** The record an attempt publishes when its outcome is [Submitted]. *)
Definition published (b : bool) (e : env) (buf len direction ssl_ptr provider : Z) (a : attempt)
    : tls_event :=
  let bs := default [] (payload_of e buf (clamp_len len)) in
  {| ev_hdr := hdr_of e len direction ssl_ptr provider a;
     ev_data := if b then bs else overlay bs (ev_data (e_stale e events)) |}.

Definition counted (e : env) (o : outcome) (s : kstate) : kstate :=
  match o with Sampled => s | _ => bump_stat (e_cpu e) (outcome_stat o) s end.

(** [s'] is what [s1], the state of an undecided attempt, becomes with outcome [o] and record
    [x]. *)
Definition settled (e : env) (o : outcome) (x : tls_event) (s1 s' : kstate) : Prop :=
  k_maps s' = k_maps s1 ∧
  k_arrays s' = k_arrays s1 ∧
  k_counters s' = k_counters (counted e o s1) ∧
  k_rings s' events = k_rings s1 events ++ (if decide (o = Submitted) then [x] else []) ∧
  (∀ r, r ≠ events → k_rings s' r = k_rings s1 r) ∧
  (∀ cpu, k_reserved s' cpu = k_reserved s1 cpu).

Lemma settled_sampled e x s1 : settled e Sampled x s1 s1.
Proof. unfold settled. cbn. by rewrite app_nil_r. Qed.

Lemma settled_unreserved e x s1 : settled e ReserveFailed x s1 (finish e STAT_RESERVE_FAIL s1).
Proof. unfold settled. cbn. by rewrite app_nil_r. Qed.

(** A reservation taken and released on the same CPU. *)
Lemma reserved_balance cpu cpu' (s1 s2 : kstate) :
  k_reserved s2 = k_reserved (add_reserved cpu 1 s1) →
  k_reserved (add_reserved cpu (-1) s2) cpu' = k_reserved s1 cpu'.
Proof.
  intros Hf. unfold add_reserved. cbn. rewrite Hf. unfold add_reserved. cbn. unfold fn_set.
  repeat case_decide; subst; try done. lia.
Qed.

(** The scratch buffer is the only thing the payload copy of the dynptr path changes. *)
Lemma scratch_after_id e n pl s1 :
  scratch_after e n pl s1 =
    s1 <| k_scratch := k_scratch (scratch_after e n pl s1) |>.
Proof. unfold scratch_after. by destruct (0 <? n), s1. Qed.

Lemma settled_discard e o x scr s1 :
  o ≠ Submitted → o ≠ Sampled →
  settled e o x s1
    (add_reserved (e_cpu e) (-1)
       (finish e (outcome_stat o) ((add_reserved (e_cpu e) 1 s1) <| k_scratch := scr |>))).
Proof.
  intros H1 H2. unfold settled. rewrite decide_False, app_nil_r by done.
  repeat split; [by destruct o|]. intros cpu. by apply reserved_balance.
Qed.

Lemma settled_submit e x scr s1 :
  settled e Submitted x s1
    (add_reserved (e_cpu e) (-1)
       (push_ring events x
          (finish e STAT_SUBMITTED ((add_reserved (e_cpu e) 1 s1) <| k_scratch := scr |>)))).
Proof.
  unfold settled. rewrite decide_True by done. repeat split.
  - intros r Hr. set (s2 := finish _ _ _).
    refine (k_rings_push_ring_ne events r x s2 _). congruence.
  - intros cpu. by apply reserved_balance.
Qed.

(** One emission, described by its outcome. *)
Lemma emit_settled b e buf len direction ssl_ptr provider s :
  let a := attempt_of e buf len direction ssl_ptr s in
  settled e (outcome_of b e buf len a) (published b e buf len direction ssl_ptr provider a)
    (at_state a) (emit_spec b e buf len direction ssl_ptr provider s).
Proof.
  cbv zeta. unfold emit_spec, emit_dynptr_spec, emit_fixed_spec, outcome_of, published, record_size.
  set (a := attempt_of e buf len direction ssl_ptr s). cbv zeta.
  destruct (at_out a); [destruct b; apply settled_sampled|].
  destruct b; cbn [andb negb].
  - destruct (e_reserve e events _); cbn [negb]; [|apply settled_unreserved].
    destruct (e_dynptr_null e).
    { apply (settled_discard e ReserveFailed _ (k_scratch (at_state a))); done. }
    rewrite scratch_after_id.
    destruct (payload_of e buf (clamp_len len)) as [bs|]; [|by apply settled_discard].
    destruct ((0 <? clamp_len len) && negb (e_dynptr_write_err e =? 0));
      [by apply settled_discard|apply settled_submit].
  - destruct (e_reserve e events _); cbn [negb]; [|apply settled_unreserved].
    destruct (payload_of e buf (clamp_len len)) as [bs|].
    + apply (settled_submit e _ (k_scratch (at_state a))).
    + apply (settled_discard e CopyFailed _ (k_scratch (at_state a))); done.
Qed.

Lemma stat_counted e o s i :
  stat (counted e o s) (e_cpu e) i =
    if decide (o ≠ Sampled ∧ i = outcome_stat o) then u64 (stat s (e_cpu e) i + 1)
    else stat s (e_cpu e) i.
Proof. destruct o; cbn [counted]; rewrite ?stat_bump; repeat case_decide; naive_solver. Qed.

Lemma outcome_stat_pos o : outcome_stat o ≠ STAT_ATTEMPTED.
Proof. by destruct o. Qed.

Lemma outcome_sampled b e buf len a : outcome_of b e buf len a = Sampled ↔ at_out a = true.
Proof. unfold outcome_of. destruct (at_out a); [done|]. by repeat case_match. Qed.

(** The counters of this CPU after an emission with outcome [o]. *)
Lemma emit_stat b e buf len d ptr prov s i :
  i ≠ STAT_MAP_FAIL →
  let o := outcome_of b e buf len (attempt_of e buf len d ptr s) in
  stat (emit_spec b e buf len d ptr prov s) (e_cpu e) i =
    if decide (i = STAT_ATTEMPTED ∨ i = outcome_stat o)
    then u64 (stat s (e_cpu e) i + 1) else stat s (e_cpu e) i.
Proof.
  intros Hi. cbv zeta.
  destruct (emit_settled b e buf len d ptr prov s) as (_ & _ & Hc & _).
  pose proof (stat_attempt e buf len d ptr s i Hi) as Ha. cbv zeta in Ha.
  set (a := attempt_of e buf len d ptr s) in *.
  pose proof (outcome_sampled b e buf len a) as Hs.
  pose proof (outcome_stat_pos (outcome_of b e buf len a)) as Hp.
  set (o := outcome_of b e buf len a) in *. clearbody o.
  trans (stat (counted e o (at_state a)) (e_cpu e) i); [unfold stat, counter; by rewrite Hc|].
  rewrite stat_counted, Ha. destruct (decide (i = STAT_ATTEMPTED)) as [->|Hia].
  { rewrite decide_False by naive_solver. by rewrite !decide_True by naive_solver. }
  destruct (decide (o = Sampled)) as [->|Hos].
  - rewrite decide_False by naive_solver. repeat case_decide; naive_solver.
  - rewrite (decide_False (P := i = STAT_ATTEMPTED ∨ _)) by naive_solver.
    repeat case_decide; naive_solver.
Qed.

(** * Sequence numbers *)

(** The counters of a TLS object at the start of an attempt: those of the map, or fresh ones when
    the kernel accepts a new entry. *)
Definition tracked (e : env) (ptr : Z) (st : ssl_state) (s : kstate) : Prop :=
  let k := key_of e ptr in
  lookup_map s ssl_state_map k = Some st ∨
  (lookup_map s ssl_state_map k = None ∧ st = ssl_state_zero ∧
   e_update_err e ssl_state_map (k_maps s ssl_state_map) k = 0).

Lemma ensure_state_tracked e ptr st s :
  tracked e ptr st s →
  lookup_map (ensure_state e (key_of e ptr) s) ssl_state_map (key_of e ptr) = Some st.
Proof.
  unfold ensure_state. intros [Hs|(Hs & -> & Herr)].
  - by rewrite Hs.
  - rewrite Hs. unfold update_elem, lookup_map in *. cbn zeta. rewrite Hs, Herr. cbn [snd].
    change (0 =? 0) with true. cbn iota. cbn [snd]. rewrite k_maps_set_map. by rewrite lookup_insert_eq.
Qed.

Lemma next_seq_tracked e ptr d st s :
  tracked e ptr st s →
  let b := Z.land d 1 in
  (next_seq_spec e ptr d s).1 = (ss_generation st, ss_seq b st) ∧
  lookup_map (next_seq_spec e ptr d s).2 ssl_state_map (key_of e ptr) =
    Some (set_ss_seq b (u32 (ss_seq b st + 1)) st).
Proof.
  intros Hst. cbv zeta. unfold next_seq_spec. rewrite (ensure_state_tracked _ _ _ _ Hst).
  cbn [fst snd]. split; [done|]. unfold advance_seq. rewrite lookup_store_state.
  rewrite decide_True by done. by rewrite (ensure_state_tracked _ _ _ _ Hst).
Qed.

Lemma sampled_spec_maps e buf n s : k_maps (sampled_spec e buf n s).2 = k_maps s.
Proof.
  unfold sampled_spec, sample_spec. destruct (0 <? n); [|done].
  destruct (sample_hdr_of e buf n) as [data k].
  destruct (sample_rate _ _ _) as [r|]; [|done]. by destruct (r <=? _).
Qed.

Lemma attempt_tracked e buf len d ptr st s :
  tracked e ptr st s →
  let a := attempt_of e buf len d ptr s in
  let b := Z.land d 1 in
  at_generation a = ss_generation st ∧ at_seq a = ss_seq b st ∧
  lookup_map (at_state a) ssl_state_map (key_of e ptr) =
    Some (set_ss_seq b (u32 (ss_seq b st + 1)) st).
Proof.
  intros Hst. cbv zeta. unfold attempt_of.
  destruct (next_seq_tracked e ptr d st (bump_stat (e_cpu e) STAT_ATTEMPTED s) Hst) as [H1 H2].
  destruct (next_seq_spec _ _ _ _) as [[g q] s1]. cbn [fst snd] in H1, H2.
  injection H1 as -> ->.
  pose proof (sampled_spec_maps e buf (clamp_len len) s1) as Hm.
  destruct (sampled_spec _ _ _ _) as [out s2].
  cbn [fst snd at_generation at_seq at_state] in *.
  split; [done|]. split; [done|]. rewrite <- H2. unfold lookup_map. by rewrite Hm.
Qed.

Lemma hdr_attribute_keeps a h :
  let h' := hdr_attribute a h in
  h_copied_len h' = h_copied_len h ∧ h_actual_len h' = h_actual_len h ∧
  h_data_len h' = h_data_len h ∧ h_dir_seq h' = h_dir_seq h ∧
  h_conn_generation h' = h_conn_generation h ∧ h_ssl_ptr h' = h_ssl_ptr h ∧
  h_direction h' = h_direction h ∧ h_provider_id h' = h_provider_id h ∧
  h_pid h' = h_pid h ∧ h_tid h' = h_tid h ∧ h_abi_version h' = h_abi_version h ∧
  h_proc_start_ns h' = h_proc_start_ns h.
Proof.
  destruct a as [i|i|]; cbv zeta; cbn [hdr_attribute]; [| |done]; unfold hdr_set_conn;
    destruct (ci_family i =? AF_INET6), (ci_family i =? AF_INET); done.
Qed.

(** What the header of a record says about the call that produced it. *)
Lemma hdr_of_fields e len d ptr prov a :
  let h := hdr_of e len d ptr prov a in
  h_copied_len h = clamp_len len ∧ h_actual_len h = len ∧ h_data_len h = clamp_len len ∧
  h_dir_seq h = at_seq a ∧ h_conn_generation h = at_generation a ∧ h_ssl_ptr h = ptr ∧
  h_direction h = d ∧ h_provider_id h = prov ∧ h_pid h = tgid_of (e_pid_tgid e) ∧
  h_tid h = u32 (e_pid_tgid e) ∧ h_abi_version h = TLS_EVENT_ABI_VERSION ∧
  h_proc_start_ns h = proc_start_ns e.
Proof. apply hdr_attribute_keeps. Qed.

(** * Properties *)

(** The record an emission would add to the [events] ring. *)
Definition new_events (s s' : kstate) : list tls_event :=
  drop (length (k_rings s events)) (k_rings s' events).

Lemma new_events_app s s' xs : k_rings s' events = k_rings s events ++ xs → new_events s s' = xs.
Proof. intros E. unfold new_events. rewrite E. apply drop_app_length. Qed.

Lemma emit_events b e buf len d ptr prov s :
  let a := attempt_of e buf len d ptr s in
  k_rings (emit_spec b e buf len d ptr prov s) events = k_rings s events ++
    (if decide (outcome_of b e buf len a = Submitted)
     then [published b e buf len d ptr prov a] else []).
Proof.
  cbv zeta. destruct (emit_settled b e buf len d ptr prov s) as (_ & _ & _ & Hr & _ & _).
  rewrite Hr. destruct (attempt_frame e buf len d ptr s) as (_ & _ & Hr0 & _ & _).
  by rewrite Hr0.
Qed.

(** Loss accounting of one TLS call. Whatever the environment answers, [emit_event] returns 0,
    counts one attempt, counts exactly one of submitted / reserve failure / copy failure / sampled,
    and puts one record into [events] exactly when it counts a submission; the counters of other
    CPUs, the other rings and the number of reservations held are unchanged. *)
Theorem emit_event_accounts (b : bool) (e : env) (buf len direction ssl_ptr provider : Z)
    (s : kstate) (Hlen : 0 <= len) :
  let r := run e (emit_event b buf len direction ssl_ptr provider) s in
  let s' := r.2 in
  r.1 = 0 ∧
  (∃ o : outcome,
     (∀ i, i ≠ STAT_MAP_FAIL →
        stat s' (e_cpu e) i =
          if decide (i = STAT_ATTEMPTED ∨ i = outcome_stat o)
          then u64 (stat s (e_cpu e) i + 1) else stat s (e_cpu e) i) ∧
     (if decide (o = Submitted) then ∃ x, k_rings s' events = k_rings s events ++ [x]
      else k_rings s' events = k_rings s events)) ∧
  (∀ cpu i, cpu ≠ e_cpu e → i ≠ STAT_MAP_FAIL → stat s' cpu i = stat s cpu i) ∧
  (∀ r, r ≠ events → k_rings s' r = k_rings s r) ∧
  (∀ cpu, k_reserved s' cpu = k_reserved s cpu).
Proof.
  cbv zeta. rewrite run_emit_event by done. cbn [fst snd]. split; [done|].
  pose proof (emit_events b e buf len direction ssl_ptr provider s) as Hev. cbv zeta in Hev.
  destruct (emit_settled b e buf len direction ssl_ptr provider s) as (_ & _ & Hc & _ & Hne & Hres).
  destruct (attempt_frame e buf len direction ssl_ptr s) as (_ & _ & Hr0 & Hres0 & _).
  split; [|split; [|split]].
  - eexists. split; [intros i Hi; by apply emit_stat|].
    rewrite Hev. case_decide; [eauto|]. by rewrite app_nil_r.
  - intros cpu i Hcpu Hi. unfold stat, counter. rewrite Hc.
    fold (counter s producer_stats cpu i). fold (stat s cpu i).
    rewrite <- (stat_attempt_other e buf len direction ssl_ptr s) by done.
    destruct (outcome_of _ _ _ _ _); cbn [counted]; try done;
      exact (stat_bump_other (e_cpu e) cpu _ i _ (not_eq_sym Hcpu)).
  - intros r Hr. by rewrite Hne, Hr0.
  - intros cpu. by rewrite Hres, Hres0.
Qed.

Lemma emit_event_accounts_witness :
  0 <= 20 ∧
  (run demo_env (emit_event false demo_buf 20 0 7 PROVIDER_OPENSSL) demo_state).1 = 0 ∧
  ∃ o : outcome,
    stat (run demo_env (emit_event false demo_buf 20 0 7 PROVIDER_OPENSSL) demo_state).2
      0 (outcome_stat o) = 1.
Proof.
  split; [lia|].
  destruct (emit_event_accounts false demo_env demo_buf 20 0 7 PROVIDER_OPENSSL demo_state
              ltac:(lia)) as (Hr & (o & Ho & _) & _).
  split; [exact Hr|]. exists o. rewrite Ho by (by destruct o).
  by rewrite decide_True by (by right).
Defined.

Lemma sampled_spec_inert e buf n s :
  100 <= sc_default_rate (k_arrays s sampling_config 0) →
  100 <= sc_health_rate (k_arrays s sampling_config 0) →
  sampled_spec e buf n s = (false, s).
Proof.
  intros Hd Hh. unfold sampled_spec. destruct (0 <? n); [|done].
  destruct (sample_hdr_of e buf n) as [data k]. unfold sample_spec, sample_rate.
  apply Z.leb_le in Hd, Hh. destruct (k <? 10); [done|]. cbv zeta.
  destruct (_ || _); [by rewrite Hd|]. destruct (always_captured _ _); [done|].
  destruct (health_path _ _); by rewrite ?Hd, ?Hh.
Qed.

Lemma attempt_inert e buf len d ptr s :
  100 <= sc_default_rate (k_arrays s sampling_config 0) →
  100 <= sc_health_rate (k_arrays s sampling_config 0) →
  at_out (attempt_of e buf len d ptr s) = false.
Proof.
  intros Hd Hh. unfold attempt_of.
  pose proof (frame_next_seq e ptr d (bump_stat (e_cpu e) STAT_ATTEMPTED s)) as (_ & Ha & _).
  destruct (next_seq_spec _ _ _ _) as [[g q] s1]. cbn [snd] in Ha.
  by rewrite sampled_spec_inert by (rewrite Ha; done).
Qed.

(** The bits of [flags] an emission sets. *)
Definition trunc_flag (actual_len copy_len : Z) : Z :=
  if copy_len <? actual_len then FLAG_TRUNCATED else 0.

Definition attr_flag (a : attribution) : Z :=
  match a with AttrSsl _ => FLAG_ATTR_SSL | AttrThread _ => FLAG_ATTR_THREAD | AttrNone => 0 end.

Lemma hdr_attribute_flags a h : h_flags (hdr_attribute a h) = Z.lor (h_flags h) (attr_flag a).
Proof.
  destruct a as [i|i|]; cbn [hdr_attribute attr_flag]; [| |by rewrite Z.lor_0_r];
    unfold hdr_set_conn; destruct (ci_family i =? AF_INET6), (ci_family i =? AF_INET); done.
Qed.

Lemma event_hdr_flags e ptr al cl d p g q s :
  h_flags (event_hdr e ptr al cl d p g q s) =
    Z.lor (trunc_flag al cl) (attr_flag (attribute e ptr s)).
Proof. apply hdr_attribute_flags. Qed.

Lemma hdr_of_flags e len d ptr prov a :
  h_flags (hdr_of e len d ptr prov a) =
    Z.lor (trunc_flag len (clamp_len len)) (attr_flag (attribute e ptr (at_state a))).
Proof. apply event_hdr_flags. Qed.

(** The stages before the outcome do not change where a tuple comes from. *)
Lemma attribute_attempt e buf len d ptr s :
  attribute e ptr (at_state (attempt_of e buf len d ptr s)) = attribute e ptr s.
Proof.
  destruct (attempt_frame e buf len d ptr s) as (Hm & _).
  unfold attribute, lookup_map. by rewrite !Hm.
Qed.

Lemma hdr_of_attribution e len d ptr prov a :
  h_attribution (hdr_of e len d ptr prov a) =
    match attribute e ptr (at_state a) with
    | AttrSsl _ => ATTR_SSL | AttrThread _ => ATTR_THREAD | AttrNone => ATTR_NONE end.
Proof.
  unfold hdr_of, event_hdr. destruct (attribute _ _ _) as [i|i|]; [| |done];
    cbn [hdr_attribute]; unfold hdr_set_conn;
    by destruct (ci_family i =? AF_INET6), (ci_family i =? AF_INET).
Qed.

(** The production configuration: both kernel rates at 100, room in the ring for a record of this
    length, dynptr helpers that succeed. *)
Definition unsampled (s : kstate) : Prop :=
  100 <= sc_default_rate (k_arrays s sampling_config 0) ∧
  100 <= sc_health_rate (k_arrays s sampling_config 0).

Definition room_for (b : bool) (e : env) (len : Z) : Prop :=
  e_reserve e events (record_size b len) = true ∧
  (b = true → e_dynptr_null e = false ∧ e_dynptr_write_err e = 0).

(** [x] reports the call: [bs] are the bytes of its buffer that fit a record. *)
Definition reports (e : env) (len direction ssl_ptr provider : Z) (bs : list byte) (x : tls_event)
    : Prop :=
  let h := ev_hdr x in
  ztake (h_copied_len h) (ev_data x) = bs ∧
  h_copied_len h = zlen bs ∧ h_copied_len h = Z.min len 32767 ∧ h_data_len h = h_copied_len h ∧
  h_actual_len h = len ∧
  Z.testbit (h_flags h) 0 = (32767 <? len) ∧
  h_ssl_ptr h = ssl_ptr ∧ h_direction h = direction ∧ h_provider_id h = provider ∧
  h_pid h = tgid_of (e_pid_tgid e) ∧ h_tid h = u32 (e_pid_tgid e) ∧
  h_abi_version h = TLS_EVENT_ABI_VERSION.

Lemma emit_submits b e buf len d ptr s bs :
  0 <= len → unsampled s → room_for b e len →
  uread e buf (Z.min len (MAX_DATA - 1)) = Some bs →
  let a := attempt_of e buf len d ptr s in
  payload_of e buf (clamp_len len) = Some bs ∧ outcome_of b e buf len a = Submitted.
Proof.
  intros Hlen [Hc1 Hc2] [Hroom Hdyn] Hread. cbv zeta. rewrite <- clamp_len_min in Hread.
  assert (payload_of e buf (clamp_len len) = Some bs) as Hp.
  { rewrite payload_of_clamp by done. destruct (0 <? clamp_len len) eqn:E; [done|]. zbool.
    pose proof (clamp_len_range len Hlen). replace (clamp_len len) with 0 in Hread by lia.
    done. }
  split; [done|]. unfold outcome_of. rewrite attempt_inert, Hroom, Hp by done. cbn [negb].
  destruct b; [|done]. destruct Hdyn as [-> ->]; [done|]. cbn. by rewrite andb_false_r.
Qed.

Lemma trunc_bit len a :
  Z.testbit (Z.lor (trunc_flag len (clamp_len len)) (attr_flag a)) 0 = (32767 <? len).
Proof.
  assert (Z.testbit (attr_flag a) 0 = false) as Hat by (destruct a; vm_compute; done).
  rewrite Z.lor_spec, Hat, orb_false_r. unfold trunc_flag. rewrite clamp_len_min.
  unfold MAX_DATA. destruct (32767 <? len) eqn:E; zbool.
  - by replace (Z.min len (32768 - 1) <? len) with true by lia.
  - by replace (Z.min len (32768 - 1) <? len) with false by lia.
Qed.

Lemma published_reports b e buf len d ptr prov a bs :
  0 <= len → payload_of e buf (clamp_len len) = Some bs →
  reports e len d ptr prov bs (published b e buf len d ptr prov a).
Proof.
  intros Hlen Hp. pose proof (payload_of_length e buf len bs Hlen Hp) as Hbs.
  unfold published, reports. cbn [ev_hdr ev_data]. rewrite hdr_of_flags, trunc_bit.
  destruct (hdr_of_fields e len d ptr prov a)
    as (-> & -> & -> & _ & _ & -> & -> & -> & -> & -> & -> & _).
  rewrite Hp. cbn [default from_option id]. split_and!; try done.
  - rewrite <- Hbs. destruct b; [|apply ztake_overlay]. unfold ztake, zlen.
    rewrite Nat2Z.id. apply take_ge. lia.
  - apply clamp_len_min.
Qed.

(** The one record a readable call adds. *)
Lemma emit_publishes b e buf len d ptr prov s bs :
  0 <= len → unsampled s → room_for b e len →
  uread e buf (Z.min len (MAX_DATA - 1)) = Some bs →
  ∃ x, k_rings (emit_spec b e buf len d ptr prov s) events = k_rings s events ++ [x] ∧
    x = published b e buf len d ptr prov (attempt_of e buf len d ptr s) ∧
    reports e len d ptr prov bs x.
Proof.
  intros Hlen Hun Hroom Hread.
  destruct (emit_submits b e buf len d ptr s bs Hlen Hun Hroom Hread) as [Hp Ho].
  eexists. split; [|split; [reflexivity|by apply published_reports]].
  pose proof (emit_events b e buf len d ptr prov s) as Hev. cbv zeta in Hev.
  by rewrite decide_True in Hev.
Qed.

(** A TLS call whose buffer can be read is published with exactly the bytes of that buffer. In
    the production configuration (both kernel rates at 100), when the ring has room and the copy
    succeeds, either path adds one record: its first [copied_len] bytes are the bytes in user
    memory, [copied_len = min(len, 32767)], [actual_len = len], the truncation bit is set iff bytes
    are missing, and the header names the object, direction, provider, process, thread, generation
    and sequence number of this call. *)
Theorem emit_event_publishes (b : bool) (e : env) (buf len direction ssl_ptr provider : Z)
    (s : kstate) (bs : list byte) (st : ssl_state)
    (Hlen : 0 <= len)
    (Hst : tracked e ssl_ptr st s)
    (Hcfg : unsampled s)
    (Hroom : room_for b e len)
    (Hread : uread e buf (Z.min len (MAX_DATA - 1)) = Some bs) :
  let s' := (run e (emit_event b buf len direction ssl_ptr provider) s).2 in
  ∃ x, k_rings s' events = k_rings s events ++ [x] ∧
    reports e len direction ssl_ptr provider bs x ∧
    h_conn_generation (ev_hdr x) = ss_generation st ∧
    h_dir_seq (ev_hdr x) = ss_seq (Z.land direction 1) st.
Proof.
  cbv zeta. rewrite run_emit_event by done. cbn [snd].
  destruct (emit_publishes b e buf len direction ssl_ptr provider s bs Hlen Hcfg Hroom Hread)
    as (x & Hx & -> & Hrep).
  destruct (attempt_tracked e buf len direction ssl_ptr st s Hst) as (Hg & Hq & _).
  eexists. split; [exact Hx|]. split; [done|]. unfold published. cbn [ev_hdr].
  destruct (hdr_of_fields e len direction ssl_ptr provider
              (attempt_of e buf len direction ssl_ptr s)) as (_ & _ & _ & -> & -> & _).
  done.
Qed.

Lemma emit_event_publishes_witness :
  tracked demo_env 7 ssl_state_zero demo_state ∧
  ∃ x, k_rings (run demo_env (emit_event true demo_buf 20 0 7 PROVIDER_OPENSSL) demo_state).2
         events = [x] ∧ ev_data x = demo_request.
Proof.
  assert (tracked demo_env 7 ssl_state_zero demo_state) as Hst by (right; done).
  split; [exact Hst|].
  destruct (emit_event_publishes true demo_env demo_buf 20 0 7 PROVIDER_OPENSSL demo_state
    demo_request ssl_state_zero ltac:(lia) Hst ltac:(vm_compute; split; discriminate)
    ltac:(split; [reflexivity|done]) ltac:(vm_compute; reflexivity)) as (x & Hx & Hrest & _).
  exists x. split; [exact Hx|]. destruct Hrest as (<- & _).
  injection (eq_trans (eq_sym Hx) (ltac:(vm_compute; reflexivity))) as Hx'.
  subst x. vm_compute. reflexivity.
Defined.

Lemma emit_unpublished b e buf len d ptr prov s :
  0 <= len →
  outcome_of b e buf len (attempt_of e buf len d ptr s) ≠ Submitted →
  k_rings (run e (emit_event b buf len d ptr prov) s).2 events = k_rings s events.
Proof.
  intros Hlen Ho. rewrite run_emit_event by done. cbn [snd].
  pose proof (emit_events b e buf len d ptr prov s) as Hev. cbv zeta in Hev.
  rewrite decide_False in Hev by done. by rewrite Hev, app_nil_r.
Qed.

(** Failed copies are never reported as captured bytes. When the payload of a TLS call cannot be
    read from user memory, neither path publishes a record, and if the attempt got as far as the
    copy it is counted as a copy failure. *)
Theorem failed_copy_is_not_published (b : bool) (e : env) (buf len direction ssl_ptr provider : Z)
    (s : kstate)
    (Hlen : 0 < len)
    (Hfault : uread e buf (Z.min len (MAX_DATA - 1)) = None) :
  let s' := (run e (emit_event b buf len direction ssl_ptr provider) s).2 in
  k_rings s' events = k_rings s events ∧
  (e_reserve e events (record_size b len) = true →
   (b = true → e_dynptr_null e = false) →
   at_out (attempt_of e buf len direction ssl_ptr s) = false →
   stat s' (e_cpu e) STAT_COPY_FAIL = u64 (stat s (e_cpu e) STAT_COPY_FAIL + 1)).
Proof.
  cbv zeta. set (a := attempt_of e buf len direction ssl_ptr s).
  rewrite <- clamp_len_min in Hfault.
  assert (payload_of e buf (clamp_len len) = None) as Hp.
  { rewrite payload_of_clamp, Hfault by lia. rewrite clamp_len_min.
    by replace (0 <? Z.min len (MAX_DATA - 1)) with true by (unfold MAX_DATA; lia). }
  split.
  - apply emit_unpublished; [lia|]. fold a. unfold outcome_of. rewrite Hp. by repeat case_match.
  - intros Hroom Hdyn Hout. rewrite run_emit_event by lia. cbn [snd].
    rewrite emit_stat by done. fold a.
    assert (outcome_of b e buf len a = CopyFailed) as ->.
    { unfold outcome_of. rewrite Hout, Hroom, Hp. destruct b; [|done]. by rewrite Hdyn. }
    by rewrite decide_True by (by right).
Qed.

Lemma failed_copy_is_not_published_witness :
  uread demo_env (demo_buf + 64) 20 = None ∧
  k_rings (run demo_env (emit_event false (demo_buf + 64) 20 0 7 PROVIDER_OPENSSL) demo_state).2
    events = [].
Proof.
  assert (uread demo_env (demo_buf + 64) 20 = None) as Hf by (vm_compute; reflexivity).
  split; [exact Hf|].
  exact (proj1 (failed_copy_is_not_published false demo_env (demo_buf + 64) 20 0 7
                  PROVIDER_OPENSSL demo_state ltac:(lia) Hf)).
Defined.

(** The two emission paths agree. When both reservations find room and the dynptr helpers
    succeed, the fixed-slot path and the variable-length path make the same decision, leave the
    same maps and counters, and publish the same header; the payload of the variable-length record
    is the first [copied_len] bytes of the fixed-size one. *)
Theorem emission_paths_agree (e : env) (buf len direction ssl_ptr provider : Z) (s : kstate)
    (Hlen : 0 <= len)
    (Hroom : e_reserve e events (record_size false len) = e_reserve e events (record_size true len))
    (Hdyn : e_dynptr_null e = false ∧ e_dynptr_write_err e = 0) :
  let s1 := (run e (emit_event false buf len direction ssl_ptr provider) s).2 in
  let s2 := (run e (emit_event true buf len direction ssl_ptr provider) s).2 in
  k_maps s1 = k_maps s2 ∧ k_counters s1 = k_counters s2 ∧
  ((new_events s s1 = [] ∧ new_events s s2 = []) ∨
   ∃ x1 x2, new_events s s1 = [x1] ∧ new_events s s2 = [x2] ∧ ev_hdr x1 = ev_hdr x2 ∧
            ev_data x2 = ztake (h_copied_len (ev_hdr x1)) (ev_data x1)).
Proof.
  cbv zeta. rewrite !run_emit_event by done. cbn [snd].
  destruct (emit_settled false e buf len direction ssl_ptr provider s) as (Hm1 & _ & Hc1 & _).
  destruct (emit_settled true e buf len direction ssl_ptr provider s) as (Hm2 & _ & Hc2 & _).
  pose proof (emit_events false e buf len direction ssl_ptr provider s) as Hev1.
  pose proof (emit_events true e buf len direction ssl_ptr provider s) as Hev2.
  cbv zeta in Hev1, Hev2.
  apply new_events_app in Hev1, Hev2. set (a := attempt_of e buf len direction ssl_ptr s) in *.
  destruct Hdyn as [Hnull Hwr].
  assert (outcome_of true e buf len a = outcome_of false e buf len a) as Ho.
  { unfold outcome_of. rewrite Hroom, Hnull, Hwr. cbn. by rewrite andb_false_r. }
  rewrite Hm1, Hm2, Hc1, Hc2, Ho. split; [done|]. split; [done|].
  rewrite Ho in Hev2. rewrite Hev1, Hev2. case_decide as Hsub; [|by left].
  right. do 2 eexists. split; [done|]. split; [done|]. split; [done|].
  unfold published. cbn [ev_hdr ev_data].
  destruct (hdr_of_fields e len direction ssl_ptr provider a) as (E1 & _).
  rewrite E1.
  unfold outcome_of in Hsub. destruct (payload_of e buf (clamp_len len)) as [bs|] eqn:Hp;
    [|by repeat case_match]. cbn [default].
  apply payload_of_length in Hp; [|done]. cbn. by rewrite <- Hp, ztake_overlay.
Qed.

Lemma emission_paths_agree_witness :
  0 <= 20 ∧
  k_counters (run demo_env (emit_event false demo_buf 20 0 7 PROVIDER_OPENSSL) demo_state).2 =
  k_counters (run demo_env (emit_event true demo_buf 20 0 7 PROVIDER_OPENSSL) demo_state).2.
Proof.
  split; [lia|].
  exact (proj1 (proj2 (emission_paths_agree demo_env demo_buf 20 0 7 PROVIDER_OPENSSL demo_state
    ltac:(lia) eq_refl (conj eq_refl eq_refl)))).
Defined.

(** Nothing of the memory a reservation returns reaches the header or the copied bytes. Under
    any other content of the reserved memory the dynptr path leaves the same kernel state, and the
    fixed-slot path publishes the same header and the same first [copied_len] bytes. *)
Theorem stale_memory_is_not_published (e : env) (stale : ∀ r, ring_record r)
    (buf len direction ssl_ptr provider : Z) (s : kstate) (Hlen : 0 <= len) :
  let e' := e <| e_stale := stale |> in
  let fixed e := new_events s (run e (emit_event false buf len direction ssl_ptr provider) s).2 in
  run e' (emit_event true buf len direction ssl_ptr provider) s =
    run e (emit_event true buf len direction ssl_ptr provider) s ∧
  (λ x, (ev_hdr x, ztake (h_copied_len (ev_hdr x)) (ev_data x))) <$> fixed e' =
  (λ x, (ev_hdr x, ztake (h_copied_len (ev_hdr x)) (ev_data x))) <$> fixed e.
Proof.
  cbv zeta. split; [by rewrite !run_emit_event|].
  rewrite !run_emit_event by done. cbn [snd].
  rewrite (new_events_app _ _ _ (emit_events false (e <| e_stale := stale |>) buf len direction
    ssl_ptr provider s)), (new_events_app _ _ _ (emit_events false e buf len direction ssl_ptr
    provider s)).
  change (attempt_of (e <| e_stale := stale |>) buf len direction ssl_ptr s) with
    (attempt_of e buf len direction ssl_ptr s).
  set (a := attempt_of e buf len direction ssl_ptr s).
  change (outcome_of false (e <| e_stale := stale |>) buf len a) with
    (outcome_of false e buf len a).
  destruct (decide (outcome_of false e buf len a = Submitted)) as [Hsub|]; [|done].
  cbn [fmap list_fmap]. f_equal. unfold published. cbn [ev_hdr ev_data].
  change (hdr_of (e <| e_stale := stale |>) len direction ssl_ptr provider a) with
    (hdr_of e len direction ssl_ptr provider a).
  change (payload_of (e <| e_stale := stale |>) buf (clamp_len len)) with
    (payload_of e buf (clamp_len len)).
  f_equal.
  destruct (hdr_of_fields e len direction ssl_ptr provider a) as (E1 & _).
  rewrite E1. unfold outcome_of in Hsub.
  destruct (payload_of e buf (clamp_len len)) as [bs|] eqn:Hp; [|by repeat case_match].
  apply payload_of_length in Hp; [|done]. cbn [default]. by rewrite <- Hp, !ztake_overlay.
Qed.

Lemma stale_memory_is_not_published_witness :
  0 <= 20 ∧
  run (demo_env <| e_stale := e_stale demo_env |>)
      (emit_event true demo_buf 20 0 7 PROVIDER_OPENSSL) demo_state =
  run demo_env (emit_event true demo_buf 20 0 7 PROVIDER_OPENSSL) demo_state.
Proof.
  split; [lia|].
  exact (proj1 (stale_memory_is_not_published demo_env (e_stale demo_env) demo_buf 20 0 7
    PROVIDER_OPENSSL demo_state ltac:(lia))).
Defined.

(** The header carries the tuple, role and socket of [info], in the form its family asks for. *)
Definition carries (info : conn_info) (h : tls_event_hdr) : Prop :=
  h_src_port h = ci_src_port info ∧ h_dst_port h = ci_dst_port info ∧
  h_role_hint h = ci_role info ∧ h_sock_cookie h = ci_sock_ino info ∧
  (ci_family info = AF_INET6 →
     h_ip_family h = 6 ∧ h_src_ip6 h = ci_src_ip6 info ∧ h_dst_ip6 h = ci_dst_ip6 info ∧
     h_src_ip4 h = 0 ∧ h_dst_ip4 h = 0) ∧
  (ci_family info = AF_INET →
     h_ip_family h = 4 ∧ h_src_ip4 h = ci_src_ip4 info ∧ h_dst_ip4 h = ci_dst_ip4 info ∧
     h_src_ip6 h = zeros16 ∧ h_dst_ip6 h = zeros16) ∧
  (ci_family info ≠ AF_INET6 → ci_family info ≠ AF_INET → h_ip_family h = 0).

(** No tuple at all. *)
Definition unattributed (h : tls_event_hdr) : Prop :=
  h_src_port h = 0 ∧ h_dst_port h = 0 ∧ h_role_hint h = 0 ∧ h_sock_cookie h = 0 ∧
  h_ip_family h = 0 ∧ h_src_ip4 h = 0 ∧ h_dst_ip4 h = 0 ∧
  h_src_ip6 h = zeros16 ∧ h_dst_ip6 h = zeros16.

Lemma carries_set_conn info h :
  h_ip_family h = 0 → h_src_ip4 h = 0 → h_dst_ip4 h = 0 →
  h_src_ip6 h = zeros16 → h_dst_ip6 h = zeros16 →
  carries info (hdr_set_conn info h).
Proof.
  intros H1 H2 H3 H4 H5. unfold carries, hdr_set_conn, AF_INET, AF_INET6.
  destruct (ci_family info =? 10) eqn:E6; [|destruct (ci_family info =? 2) eqn:E4];
    zbool; cbn; split_and!; intros; try done; lia.
Qed.

Lemma hdr_set_conn_attr info h :
  h_attribution (hdr_set_conn info h) = h_attribution h.
Proof. unfold hdr_set_conn. by destruct (ci_family info =? AF_INET6), (ci_family info =? AF_INET). Qed.

(** Attribution. [fill_event_hdr] uses the exact association of (process, TLS object) when there
    is one; otherwise the connection last seen on the calling thread, marked as low confidence;
    otherwise the tuple stays entirely zero. [attribution] and the two flag bits always agree, and
    the kernel state is not changed. *)
Theorem fill_event_hdr_attribution (e : env) (hdr : tls_event_hdr)
    (ssl_ptr actual_len copy_len direction provider generation seq : Z) (s : kstate) :
  let r := run e (fill_event_hdr hdr (e_pid_tgid e) ssl_ptr actual_len copy_len direction provider
                    generation seq) s in
  let h := r.1 in
  r.2 = s ∧
  match lookup_map s ssl_ptr_to_conn (key_of e ssl_ptr),
        lookup_map s active_connections (e_pid_tgid e) with
  | Some info, _ =>
      h_attribution h = ATTR_SSL ∧ Z.testbit (h_flags h) 1 = true ∧
      Z.testbit (h_flags h) 2 = false ∧ carries info h
  | None, Some info =>
      h_attribution h = ATTR_THREAD ∧ Z.testbit (h_flags h) 1 = false ∧
      Z.testbit (h_flags h) 2 = true ∧ carries info h
  | None, None =>
      h_attribution h = ATTR_NONE ∧ Z.testbit (h_flags h) 1 = false ∧
      Z.testbit (h_flags h) 2 = false ∧ unattributed h
  end.
Proof.
  cbv zeta. rewrite run_fill_event_hdr. cbn [fst snd]. split; [done|].
  pose proof (event_hdr_flags e ssl_ptr actual_len copy_len direction provider generation seq s)
    as Hf.
  assert (Z.testbit (trunc_flag actual_len copy_len) 1 = false ∧
          Z.testbit (trunc_flag actual_len copy_len) 2 = false) as [Ht1 Ht2]
    by (unfold trunc_flag; destruct (_ <? _); done).
  rewrite !Hf, !Z.lor_spec, Ht1, Ht2. unfold event_hdr, attribute.
  destruct (lookup_map s ssl_ptr_to_conn _) as [i|];
    [|destruct (lookup_map s active_connections _) as [i|]]; cbn [hdr_attribute attr_flag];
    rewrite ?hdr_set_conn_attr; (split; [done|]); (split; [done|]); (split; [done|]);
    try by apply carries_set_conn. done.
Qed.

(** Per-object, per-direction sequence numbers count attempts, so a gap is a loss. For a TLS
    object the kernel tracks (or starts tracking now), every attempt, published or not, advances
    the counter of its own direction by one modulo 2^32, leaves the other direction's counter and
    the generation alone, and leaves every other map as it was; a published record carries the
    counter value before the advance. *)
Theorem dir_seq_counts_attempts (b : bool) (e : env) (buf len direction ssl_ptr provider : Z)
    (s : kstate) (st : ssl_state)
    (Hlen : 0 <= len) (Hdir : direction = 0 ∨ direction = 1)
    (Hst : tracked e ssl_ptr st s) :
  let s' := (run e (emit_event b buf len direction ssl_ptr provider) s).2 in
  (∃ st', lookup_map s' ssl_state_map (key_of e ssl_ptr) = Some st' ∧
     ss_seq direction st' = u32 (ss_seq direction st + 1) ∧
     ss_seq (1 - direction) st' = ss_seq (1 - direction) st ∧
     ss_generation st' = ss_generation st) ∧
  (∀ m, m ≠ ssl_state_map → k_maps s' m = k_maps s m) ∧
  (∀ x, x ∈ new_events s s' →
     h_dir_seq (ev_hdr x) = ss_seq direction st ∧
     h_conn_generation (ev_hdr x) = ss_generation st).
Proof.
  cbv zeta. rewrite run_emit_event by done. cbn [snd].
  destruct (emit_settled b e buf len direction ssl_ptr provider s) as (Hm & _).
  destruct (attempt_frame e buf len direction ssl_ptr s) as (Hother & _).
  destruct (attempt_tracked e buf len direction ssl_ptr st s Hst) as (Hg & Hq & Hl).
  rewrite (new_events_app _ _ _ (emit_events b e buf len direction ssl_ptr provider s)).
  set (a := attempt_of e buf len direction ssl_ptr s) in *.
  assert (Z.land direction 1 = direction) as Hd by (destruct Hdir as [-> | ->]; done).
  rewrite Hd in Hl, Hq. split; [|split].
  - eexists. split; [unfold lookup_map; rewrite Hm; exact Hl|].
    destruct Hdir as [-> | ->], st; done.
  - intros m Hne. by rewrite Hm, Hother.
  - intros x Hx. case_decide; [|by apply not_elem_of_nil in Hx].
    apply list_elem_of_singleton in Hx as ->. unfold published. cbn [ev_hdr].
    destruct (hdr_of_fields e len direction ssl_ptr provider a) as (_ & _ & _ & E4 & E5 & _).
    by rewrite E4, E5, Hg, Hq.
Qed.

Lemma dir_seq_counts_attempts_witness :
  tracked demo_env 7 ssl_state_zero demo_state ∧
  ∃ st', lookup_map (run demo_env (emit_event false demo_buf 20 1 7 PROVIDER_OPENSSL)
                       demo_state).2 ssl_state_map (key_of demo_env 7) = Some st' ∧
         ss_seq1 st' = 1.
Proof.
  assert (tracked demo_env 7 ssl_state_zero demo_state) as Hst by (right; done).
  split; [exact Hst|].
  destruct (proj1 (dir_seq_counts_attempts false demo_env demo_buf 20 1 7 PROVIDER_OPENSSL
    demo_state ssl_state_zero ltac:(lia) ltac:(by right) Hst)) as (st' & Hl & Hq & _).
  exists st'. split; [exact Hl|exact Hq].
Defined.
