(* ===== verification/SamplingProps.v ===== *)
(** Sampling seen from an emission: the requests that are kept whatever the configured rates, and
    the share of the others that a rate keeps. *)

From S2P Require Import Prelude Abi Kernel Logic Sampling Fixture TlsState Emit EmitProps.

(** * The path of a request line *)

Lemma find_path_from_app fuel (pre meth rest : list byte) len :
  (length pre + length meth < length pre + fuel)%nat →
  zlen pre + zlen meth < len → (length pre + fuel = 8)%nat →
  space ∉ meth →
  find_path_from fuel (pre ++ meth ++ space :: rest) len (zlen pre) = zlen pre + zlen meth + 1.
Proof.
  revert pre meth. induction fuel as [|fuel IH]; intros pre meth Hf Hlen H8 Hno; [lia|].
  cbn [find_path_from].
  assert (zlen pre < 8 ∧ zlen pre < len) as [H1 H2] by (unfold zlen in *; lia).
  apply Z.ltb_lt in H1, H2. rewrite H1, H2. cbn [andb].
  assert (byte_at (pre ++ meth ++ space :: rest) (zlen pre) =
          nth 0 (meth ++ space :: rest) x00) as ->.
  { unfold byte_at, zlen. rewrite Nat2Z.id, app_nth2 by lia. by rewrite Nat.sub_diag. }
  destruct meth as [|b meth]; cbn [app nth].
  - rewrite bool_decide_true by done. unfold zlen. cbn. lia.
  - apply not_elem_of_cons in Hno as [Hb Hno]. rewrite bool_decide_false by congruence.
    specialize (IH (pre ++ [b]) meth). rewrite <- app_assoc in IH. cbn [app] in IH.
    replace (zlen (pre ++ [b])) with (zlen pre + 1) in IH
      by (unfold zlen; rewrite length_app; cbn; lia).
    replace (zlen pre + zlen (b :: meth) + 1) with (zlen pre + 1 + zlen meth + 1)
      by (unfold zlen; cbn; lia).
    apply IH; try done; unfold zlen in *; rewrite ?length_app in *; cbn in *; lia.
Qed.

(** In a request line the path starts after the method and its space. *)
Lemma find_path_start_request (meth rest : list byte) len :
  space ∉ meth → (length meth < 8)%nat → zlen meth < len →
  find_path_start (meth ++ space :: rest) len = zlen meth + 1.
Proof. intros Hno H8 Hlen. by apply (find_path_from_app 8 [] meth rest len). Qed.

Lemma memeq_app (lit rest : list byte) : memeq (lit ++ rest) lit = true.
Proof. unfold memeq. rewrite take_app_length. by apply bool_decide_true. Qed.

Lemma always_captured_protected path rest path_len :
  path ∈ protected → zlen path <= path_len → always_captured (path ++ rest) path_len = true.
Proof.
  intros Hp Hlen. unfold always_captured. unfold protected in Hp.
  repeat (apply elem_of_cons in Hp as [->|Hp];
    [rewrite memeq_app; unfold zlen in Hlen; cbn in Hlen; cbv [Z.of_nat Pos.of_succ_nat Pos.succ] in Hlen;
     rewrite (proj2 (Z.leb_le _ path_len) Hlen), ?orb_true_r; done|]).
  by apply not_elem_of_nil in Hp.
Qed.

(** [data] opens with a request line for a protected path. *)
Definition protected_request (data : list byte) (len : Z) : Prop :=
  ∃ meth path rest, data = meth ++ space :: path ++ rest ∧ space ∉ meth ∧
    (length meth < 8)%nat ∧ path ∈ protected ∧ 10 <= len ∧ zlen meth + 1 + zlen path <= len.

Lemma protected_request_overlay bs data :
  protected_request bs (zlen bs) → protected_request (overlay bs data) (zlen bs).
Proof.
  intros (meth & path & rest & -> & H). unfold overlay.
  exists meth, path, (rest ++ drop (length (meth ++ space :: path ++ rest)) data).
  split; [|done]. by rewrite <- !app_assoc; cbn; rewrite <- app_assoc.
Qed.

Lemma sample_rate_protected cfg data len :
  protected_request data len → sample_rate cfg data len = None.
Proof.
  intros (meth & path & rest & -> & Hno & H8 & Hp & H10 & Hlen). unfold sample_rate.
  assert (0 < zlen path) as Hpos.
  { unfold protected in Hp. repeat (apply elem_of_cons in Hp as [->|Hp]; [done|]).
    by apply not_elem_of_nil in Hp. }
  rewrite (proj2 (Z.ltb_ge len 10)) by lia. cbv zeta.
  rewrite find_path_start_request by (done || lia).
  assert (0 <= zlen meth) by (unfold zlen; lia).
  rewrite (proj2 (Z.eqb_neq (zlen meth + 1) 0)) by lia.
  rewrite (proj2 (Z.leb_gt len (zlen meth + 1))) by lia. cbn [orb].
  assert (zdrop (zlen meth + 1) (meth ++ space :: path ++ rest) = path ++ rest) as ->.
  { unfold zdrop, zlen. replace (Z.to_nat (Z.of_nat (length meth) + 1)) with (length meth + 1)%nat
      by lia. rewrite <- drop_drop, drop_app_length. done. }
  by rewrite always_captured_protected by (done || lia).
Qed.

(** The sampling block of an emission whose buffer opens with such a request. *)
Lemma sampled_spec_protected e buf read_len bs s :
  uread e buf (Z.min read_len 64) = Some bs → protected_request bs (zlen bs) →
  sampled_spec e buf read_len s = (false, s).
Proof.
  intros Hread Hreq. unfold sampled_spec, sample_hdr_of.
  destruct (0 <? read_len) eqn:E; [|done]. zbool. cbv zeta.
  assert ((if read_len <? 64 then read_len else 64) = Z.min read_len 64) as ->
    by (destruct (read_len <? 64) eqn:E'; zbool; lia).
  rewrite Hread. cbn [default from_option id].
  assert (Z.min read_len 64 = zlen bs) as ->
    by (apply read_mem_length in Hread; unfold zlen; lia).
  unfold sample_spec. by rewrite sample_rate_protected by by apply protected_request_overlay.
Qed.

Definition login_env : env := demo_env <| e_umem := mem_at demo_buf demo_login |>.

Lemma demo_login_protected : protected_request (take 24 demo_login) 24.
Proof.
  exists (take 4 demo_login), (take 6 (drop 5 demo_login)), (drop 11 (take 24 demo_login)).
  split_and!; try (apply (bool_decide_unpack _); vm_compute; exact I).
Qed.

(** * Properties *)

(** Sampling never drops a request for an authentication, administration or MCP path. When the
    first bytes of the buffer are a request line for such a path, the attempt is not sampled out
    under any configured rates and whatever this CPU's counter holds: the sampled count stays and
    the outcome is decided by the ring and the copy alone. *)
Theorem protected_request_never_sampled (b : bool) (e : env)
    (buf len direction ssl_ptr provider : Z) (s : kstate) (bs : list byte)
    (Hlen : 0 < len)
    (Hread : uread e buf (Z.min (clamp_len len) 64) = Some bs)
    (Hreq : protected_request bs (zlen bs)) :
  at_out (attempt_of e buf len direction ssl_ptr s) = false ∧
  stat (run e (emit_event b buf len direction ssl_ptr provider) s).2 (e_cpu e) STAT_SAMPLED =
    stat s (e_cpu e) STAT_SAMPLED.
Proof.
  assert (at_out (attempt_of e buf len direction ssl_ptr s) = false) as Hout.
  { unfold attempt_of. destruct (next_seq_spec _ _ _ _) as [[g q] s1].
    rewrite (sampled_spec_protected e buf (clamp_len len) bs s1); [done|done|done]. }
  split; [done|]. rewrite run_emit_event by lia. cbn [snd]. rewrite emit_stat by done.
  cbv zeta. rewrite decide_False; [done|]. intros [?|Hs]; [done|].
  pose proof (outcome_sampled b e buf len (attempt_of e buf len direction ssl_ptr s)) as Ho.
  rewrite Hout in Ho. set (o := outcome_of _ _ _ _ _) in *. clearbody o.
  destruct o; try discriminate Hs. discriminate (proj1 Ho eq_refl).
Qed.

Lemma protected_request_never_sampled_witness :
  stat (run login_env (emit_event true demo_buf 24 1 7 PROVIDER_OPENSSL)
          (with_sampling 0 0 zero_state)).2 0 STAT_SAMPLED = 0.
Proof.
  exact (proj2 (protected_request_never_sampled true login_env demo_buf 24 1 7 PROVIDER_OPENSSL
    (with_sampling 0 0 zero_state) (take 24 demo_login) ltac:(lia) ltac:(vm_compute; reflexivity)
    demo_login_protected)).
Defined.

(** Over any hundred consecutive chunks of one kind on one CPU (no counter wrap-around in the
    window), a rate [r] in 0..99 keeps exactly [r] of them; the counter starts anywhere. *)
Theorem sampling_keeps_rate (e : env) (data : list byte) (len r : Z) (s : kstate)
    (Hrate : sample_rate (k_arrays s sampling_config 0) data len = Some r)
    (Hr : 0 <= r)
    (Hlow : 0 <= counter s event_counter (e_cpu e) 0)
    (Hwrap : counter s event_counter (e_cpu e) 0 + 100 < 2 ^ 64) :
  (sample_many e data len 100 s).1 = r.
Proof.
  rewrite (sample_many_kept _ _ _ r) by (done || lia). apply kept_window; [|done].
  split; [done|]. unfold sample_rate in Hrate. repeat case_match; simplify_eq; zbool; lia.
Qed.

Lemma sampling_keeps_rate_witness :
  sample_rate (k_arrays (with_sampling 25 1 zero_state) sampling_config 0) demo_request 20 = Some 1 ∧
  (sample_many demo_env demo_request 20 100 (with_sampling 25 1 zero_state)).1 = 1.
Proof.
  assert (sample_rate (k_arrays (with_sampling 25 1 zero_state) sampling_config 0) demo_request 20
          = Some 1) as Hr by (vm_compute; reflexivity).
  split; [exact Hr|].
  exact (sampling_keeps_rate demo_env demo_request 20 1 (with_sampling 25 1 zero_state) Hr
    ltac:(lia) ltac:(discriminate) ltac:(reflexivity)).
Defined.
