(* ===== verification/Conn.v ===== *)
(** Connections and TLS objects: [fill_conn_info] and the probes on [tcp_connect],
    [inet_csk_accept], [tcp_close], [SSL_set_fd] and [SSL_free] of [bpf/http_trace.bpf.c].

    A connection is known twice: per socket ([sock_to_pid], [sock_role]) and per thread
    ([active_connections]); [SSL_set_fd] adds the exact association of a TLS object with a socket
    ([ssl_ptr_to_conn]). *)

From S2P Require Import Prelude Abi Kernel Logic Sampling Fixture TlsState.

(** * The code *)

(** Network to host order of a 16-bit value on the little-endian targets. *)
Definition bpf_ntohs (x : Z) : Z := Z.lor (Z.shiftl (Z.land x 255) 8) (Z.shiftr x 8).

Definition read_sock_ino (out : conn_info) (sk : Z) : prog conn_info :=
  skt ← core_read 8 sk_socket sk;
  if skt =? 0 then mret out else
  f ← core_read 8 socket_file skt;
  if f =? 0 then mret out else
  ino ← core_read 8 file_f_inode f;
  if ino =? 0 then mret out else
  i_ino ← core_read 8 inode_i_ino ino;
  mret (out <| ci_sock_ino := i_ino |>).

Definition fill_conn_info (out : conn_info) (sk : Z) : prog conn_info :=
  family ← core_read 2 skc_family sk;
  let out := out <| ci_family := family |> in
  out ← (if family =? AF_INET6 then
           src ← call (bpf_core_read 16 skc_v6_rcv_saddr sk);
           dst ← call (bpf_core_read 16 skc_v6_daddr sk);
           mret (out <| ci_src_ip6 := src |> <| ci_dst_ip6 := dst |>)
         else
           src ← core_read 4 skc_rcv_saddr sk;
           dst ← core_read 4 skc_daddr sk;
           mret (out <| ci_src_ip4 := src |> <| ci_dst_ip4 := dst |>));
  sport ← core_read 2 skc_num sk;
  dport ← core_read 2 skc_dport sk;
  let out := out <| ci_src_port := sport |> <| ci_dst_port := bpf_ntohs dport |> in
  read_sock_ino out sk.

(** The common body of [tcp_connect_entry] and [tcp_accept_ret]. *)
Definition record_connection (sk role : Z) : prog Z :=
  if sk =? 0 then mret 0 else
  info ← fill_conn_info conn_info_zero sk;
  let info := info <| ci_role := role |> in
  pid_tgid ← call bpf_get_current_pid_tgid;
  _ ← call (bpf_map_update_elem active_connections pid_tgid info BPF_ANY);
  _ ← call (bpf_map_update_elem sock_to_pid sk pid_tgid BPF_ANY);
  _ ← call (bpf_map_update_elem sock_role sk role BPF_ANY);
  mret 0.

Definition tcp_connect_entry (ctx : pt_regs) : prog Z :=
  record_connection (PT_REGS_PARM1 ctx) ROLE_CLIENT.

Definition tcp_accept_ret (ctx : pt_regs) : prog Z :=
  record_connection (PT_REGS_RC ctx) ROLE_SERVER.

Definition tcp_close_entry (ctx : pt_regs) : prog Z :=
  let sk := PT_REGS_PARM1 ctx in
  owner ← call (bpf_map_lookup_elem sock_to_pid sk);
  pid_tgid ← match owner with
             | Some p => mret p
             | None => call bpf_get_current_pid_tgid
             end;
  _ ← call (bpf_map_delete_elem active_connections pid_tgid);
  _ ← call (bpf_map_delete_elem sock_to_pid sk);
  _ ← call (bpf_map_delete_elem sock_role sk);
  mret 0.

(** The [struct sock] behind descriptor [fd] of the current task, 0 when a step of the chain is
    NULL: lines 861-898 of [ssl_set_fd_entry]. *)
Definition sock_of_fd (fd : Z) : prog Z :=
  task ← call bpf_get_current_task;
  files ← core_read 8 task_files task;
  if files =? 0 then mret 0 else
  fdt ← core_read 8 files_fdt files;
  if fdt =? 0 then mret 0 else
  fdarray ← core_read 8 fdtable_fd fdt;
  if fdarray =? 0 then mret 0 else
  slot ← call (bpf_probe_read_kernel 8 (u64 (fdarray + 8 * fd)));
  let filep := le_val slot in
  if filep =? 0 then mret 0 else
  private_data ← core_read 8 file_private_data filep;
  if private_data =? 0 then mret 0 else
  core_read 8 socket_sk private_data.

Definition ssl_set_fd_entry (ctx : pt_regs) : prog Z :=
  let ssl_ptr := PT_REGS_PARM1 ctx in
  let fd := i32 (PT_REGS_PARM2 ctx) in
  if fd <? 0 then mret 0 else
  sk ← sock_of_fd fd;
  if sk =? 0 then mret 0 else
  info ← fill_conn_info conn_info_zero sk;
  role ← call (bpf_map_lookup_elem sock_role sk);
  let info := match role with Some r => info <| ci_role := r |> | None => info end in
  k ← ssl_key_for ssl_ptr;
  _ ← call (bpf_map_update_elem ssl_ptr_to_conn k info BPF_ANY);
  mret 0.

(** End the current generation of a TLS object: the close names it, the next one starts fresh. *)
Definition end_generation (k : ssl_key) : prog Z :=
  st ← call (bpf_map_lookup_state k);
  match st with
  | None => mret 0
  | Some st =>
      generation ← call (ref_load_generation st);
      _ ← call (ref_store_generation st (u32 (generation + 1)));
      _ ← call (ref_store_seq st 0 0);
      _ ← call (ref_store_seq st 1 0);
      mret generation
  end.

(** Lines 931-941 of [ssl_free_entry]: send the close record when the ring has room. *)
Definition send_close (ssl_ptr pid_tgid generation : Z) : prog unit :=
  e ← call (bpf_ringbuf_reserve close_events 40);
  match (e : option close_event) with
  | Some _ =>
      ts ← call bpf_ktime_get_ns;
      start ← current_proc_start_ns;
      call (bpf_ringbuf_submit close_events
        {| ce_ts_ns := ts;
           ce_pid := u32 (Z.shiftr pid_tgid 32);
           ce_tid := u32 pid_tgid;
           ce_ssl_ptr := ssl_ptr;
           ce_proc_start_ns := start;
           ce_generation := generation;
           ce__pad := 0 |})
  | None => mret tt
  end.

Definition ssl_free_entry (ctx : pt_regs) : prog Z :=
  let ssl_ptr := PT_REGS_PARM1 ctx in
  k ← ssl_key_for ssl_ptr;
  owner ← call (bpf_map_lookup_elem ssl_ptr_to_pid k);
  pid_tgid ← match owner with
             | Some p => mret p
             | None => call bpf_get_current_pid_tgid
             end;
  generation ← end_generation k;
  _ ← send_close ssl_ptr pid_tgid generation;
  _ ← call (bpf_map_delete_elem ssl_ptr_to_pid k);
  _ ← call (bpf_map_delete_elem ssl_ptr_to_conn k);
  _ ← call (bpf_map_delete_elem active_connections pid_tgid);
  mret 0.

(** * Closed forms *)

Definition sock_ino_of (e : env) (sk : Z) : Z :=
  let skt := kread_int e 8 sk_socket sk in
  let f := kread_int e 8 socket_file skt in
  let ino := kread_int e 8 file_f_inode f in
  if (skt =? 0) || (f =? 0) || (ino =? 0) then 0 else kread_int e 8 inode_i_ino ino.

Definition kread_bytes (e : env) (size : Z) (f : kfield) (src : Z) : list byte :=
  kread e (u64 (src + e_offset e f)) size.

(** The connection a socket describes, local end first, with the role its opener gave it. *)
Definition conn_of (e : env) (sk role : Z) : conn_info :=
  let family := kread_int e 2 skc_family sk in
  let v6 := family =? AF_INET6 in {|
    ci_family := family;
    ci_src_port := kread_int e 2 skc_num sk;
    ci_dst_port := bpf_ntohs (kread_int e 2 skc_dport sk);
    ci_role := role;
    ci__pad := 0;
    ci_src_ip4 := if v6 then 0 else kread_int e 4 skc_rcv_saddr sk;
    ci_dst_ip4 := if v6 then 0 else kread_int e 4 skc_daddr sk;
    ci_src_ip6 := if v6 then kread_bytes e 16 skc_v6_rcv_saddr sk else zeros16;
    ci_dst_ip6 := if v6 then kread_bytes e 16 skc_v6_daddr sk else zeros16;
    ci_sock_ino := sock_ino_of e sk |}.

Lemma run_read_sock_ino e out sk s :
  ci_sock_ino out = 0 →
  run e (read_sock_ino out sk) s = (out <| ci_sock_ino := sock_ino_of e sk |>, s).
Proof.
  intros H0. unfold read_sock_ino, sock_ino_of.
  assert (out <| ci_sock_ino := 0 |> = out) as Hid by (destruct out; cbn in *; by subst).
  rewrite run_bind, run_core_read. cbn [fst snd]. destruct (_ =? 0); [cbn [orb]; by rewrite Hid|].
  rewrite run_bind, run_core_read. cbn [fst snd]. destruct (_ =? 0); [cbn [orb]; by rewrite Hid|].
  rewrite run_bind, run_core_read. cbn [fst snd]. destruct (_ =? 0); [cbn [orb]; by rewrite Hid|].
  done.
Qed.

Lemma run_fill_conn_info e sk s :
  run e (fill_conn_info conn_info_zero sk) s = (conn_of e sk 0, s).
Proof.
  unfold fill_conn_info, conn_of. rewrite run_bind, run_core_read. cbn [fst snd]. cbv zeta.
  rewrite run_bind. destruct (_ =? AF_INET6).
  - do 2 run_step. rewrite run_ret. cbn [fst snd].
    do 2 (rewrite run_bind, run_core_read; cbn [fst snd]). by rewrite run_read_sock_ino.
  - do 2 (rewrite (run_bind _ (core_read 4 _ _)), run_core_read; cbn [fst snd]).
    rewrite run_ret. cbn [fst snd]. do 2 (rewrite run_bind, run_core_read; cbn [fst snd]). by rewrite run_read_sock_ino.
Qed.

Definition record_connection_spec (e : env) (sk role : Z) (s : kstate) : kstate :=
  if sk =? 0 then s else
  put e sock_role sk role
    (put e sock_to_pid sk (e_pid_tgid e)
       (put e active_connections (e_pid_tgid e) (conn_of e sk role) s)).

Lemma run_record_connection e sk role s :
  run e (record_connection sk role) s = (0, record_connection_spec e sk role s).
Proof.
  unfold record_connection, record_connection_spec. destruct (sk =? 0); [done|].
  rewrite run_bind, run_fill_conn_info. cbn [fst snd]. cbv zeta. run_step.
  rewrite 3!run_bind, !run_update. done.
Qed.

(** The thread a socket or a TLS object is filed under: its recorded owner, else the caller. *)
Definition owner_or_current (e : env) (o : option Z) : Z := default (e_pid_tgid e) o.

Lemma run_owner e (o : option Z) s :
  run e match o with Some p => mret p | None => call bpf_get_current_pid_tgid end s =
    (owner_or_current e o, s).
Proof. by destruct o. Qed.

Definition tcp_close_spec (e : env) (sk : Z) (s : kstate) : kstate :=
  del sock_role sk
    (del sock_to_pid sk
       (del active_connections (owner_or_current e (lookup_map s sock_to_pid sk)) s)).

Lemma run_tcp_close e ctx s :
  run e (tcp_close_entry ctx) s = (0, tcp_close_spec e (PT_REGS_PARM1 ctx) s).
Proof.
  unfold tcp_close_entry, tcp_close_spec. cbv zeta. rewrite run_call_bind. cbn [handle fst snd].
  rewrite run_bind, run_owner.
  cbn [fst snd]. by run_steps.
Qed.

Definition sock_of_fd_spec (e : env) (fd : Z) : Z :=
  let files := kread_int e 8 task_files (e_task e) in
  let fdt := kread_int e 8 files_fdt files in
  let fdarray := kread_int e 8 fdtable_fd fdt in
  let filep := le_val (kread e (u64 (fdarray + 8 * fd)) 8) in
  let private_data := kread_int e 8 file_private_data filep in
  if (files =? 0) || (fdt =? 0) || (fdarray =? 0) || (filep =? 0) || (private_data =? 0) then 0
  else kread_int e 8 socket_sk private_data.

Lemma run_sock_of_fd e fd s : run e (sock_of_fd fd) s = (sock_of_fd_spec e fd, s).
Proof.
  unfold sock_of_fd, sock_of_fd_spec. run_step.
  do 3 (rewrite run_bind, run_core_read; cbn [fst snd]; destruct (_ =? 0); [done|]).
  rewrite run_call_bind. cbn [handle fst snd]. cbv zeta. destruct (_ =? 0); [done|].
  rewrite run_bind, run_core_read. cbn [fst snd]. by destruct (_ =? 0).
Qed.

Definition ssl_set_fd_spec (e : env) (ssl_ptr fd : Z) (s : kstate) : kstate :=
  let sk := sock_of_fd_spec e fd in
  if (fd <? 0) || (sk =? 0) then s else
  put e ssl_ptr_to_conn (key_of e ssl_ptr)
    (conn_of e sk (default 0 (lookup_map s sock_role sk))) s.

Lemma run_ssl_set_fd e ctx s :
  run e (ssl_set_fd_entry ctx) s =
    (0, ssl_set_fd_spec e (PT_REGS_PARM1 ctx) (i32 (PT_REGS_PARM2 ctx)) s).
Proof.
  unfold ssl_set_fd_entry, ssl_set_fd_spec. cbv zeta.
  destruct (_ <? 0); [done|]. rewrite run_bind, run_sock_of_fd. cbn [fst snd orb].
  destruct (_ =? 0); [done|]. rewrite run_bind, run_fill_conn_info. cbn [fst snd].
  rewrite run_call_bind. cbn [handle fst snd]. rewrite run_bind, run_ssl_key_for. cbn [fst snd].
  rewrite run_bind, run_update. cbn [fst snd].
  by destruct (lookup_map s sock_role _).
Qed.

Definition end_generation_state (st : ssl_state) : ssl_state :=
  st <| ss_generation := u32 (ss_generation st + 1) |> <| ss_seq0 := 0 |> <| ss_seq1 := 0 |>.

Definition end_generation_spec (k : ssl_key) (s : kstate) : Z * kstate :=
  match lookup_map s ssl_state_map k with
  | None => (0, s)
  | Some st =>
      (ss_generation st,
       store_state k (set_ss_seq 1 0)
         (store_state k (set_ss_seq 0 0)
            (store_state k (fun x => x <| ss_generation := u32 (ss_generation st + 1) |>) s)))
  end.

Lemma run_end_generation e k s : run e (end_generation k) s = end_generation_spec k s.
Proof.
  unfold end_generation, end_generation_spec. run_step.
  destruct (lookup_map s ssl_state_map k) as [st|] eqn:E; [|done].
  run_steps. unfold load_state. by rewrite E.
Qed.

Lemma end_generation_lookup k k' s :
  lookup_map (end_generation_spec k s).2 ssl_state_map k' =
    if decide (k = k') then end_generation_state <$> lookup_map s ssl_state_map k'
    else lookup_map s ssl_state_map k'.
Proof.
  unfold end_generation_spec. destruct (lookup_map s ssl_state_map k) as [st|] eqn:E; cbn [snd].
  - rewrite !lookup_store_state. repeat case_decide; try done; subst; by rewrite E.
  - repeat case_decide; [subst; by rewrite E|done].
Qed.

Definition close_record (e : env) (ssl_ptr owner generation : Z) : close_event := {|
  ce_ts_ns := e_ktime e;
  ce_pid := u32 (Z.shiftr owner 32);
  ce_tid := u32 owner;
  ce_ssl_ptr := ssl_ptr;
  ce_proc_start_ns := proc_start_ns e;
  ce_generation := generation;
  ce__pad := 0 |}.

Definition send_close_spec (e : env) (ssl_ptr owner generation : Z) (s : kstate) : kstate :=
  if e_reserve e close_events 40
  then add_reserved (e_cpu e) (-1)
         (push_ring close_events (close_record e ssl_ptr owner generation)
            (add_reserved (e_cpu e) 1 s))
  else s.

Lemma run_send_close e ssl_ptr owner generation s :
  run e (send_close ssl_ptr owner generation) s =
    (tt, send_close_spec e ssl_ptr owner generation s).
Proof.
  unfold send_close, send_close_spec. rewrite run_call_bind. cbn [handle].
  destruct (e_reserve e close_events 40); cbn [fst snd]; [|done].
  run_step. rewrite run_bind, run_current_proc_start_ns. cbn [fst snd]. by run_steps.
Qed.

Definition ssl_free_spec (e : env) (ssl_ptr : Z) (s : kstate) : kstate :=
  let k := key_of e ssl_ptr in
  let owner := owner_or_current e (lookup_map s ssl_ptr_to_pid k) in
  let '(generation, s1) := end_generation_spec k s in
  del active_connections owner
    (del ssl_ptr_to_conn k
       (del ssl_ptr_to_pid k (send_close_spec e ssl_ptr owner generation s1))).

Lemma run_ssl_free e ctx s :
  run e (ssl_free_entry ctx) s = (0, ssl_free_spec e (PT_REGS_PARM1 ctx) s).
Proof.
  unfold ssl_free_entry, ssl_free_spec. cbv zeta. rewrite run_bind, run_ssl_key_for.
  cbn [fst snd]. rewrite run_call_bind. cbn [handle fst snd]. rewrite run_bind.
  rewrite run_owner. cbn [fst snd]. rewrite run_bind, run_end_generation.
  destruct (end_generation_spec _ _) as [g s1]. cbn [fst snd].
  rewrite run_bind, run_send_close. cbn [fst snd]. by run_steps.
Qed.
