(* ===== verification/Lifecycle.v ===== *)
(** Properties of the connection and TLS-object probes of [Conn], alone and followed by an
    emission: what opening, closing, associating and freeing leave behind. *)

From S2P Require Import Prelude Abi Kernel Logic Sampling Fixture TlsState Emit EmitProps Conn.

(** The kernel accepts every insertion and evicts nothing, in all three connection maps. *)
Definition connections_fit (e : env) : Prop :=
  no_pressure e active_connections ∧ no_pressure e sock_to_pid ∧ no_pressure e sock_role.

Definition open_probe (accept : bool) (ctx : pt_regs) : prog Z :=
  if accept then tcp_accept_ret ctx else tcp_connect_entry ctx.

Definition open_sock (accept : bool) (ctx : pt_regs) : Z :=
  if accept then PT_REGS_RC ctx else PT_REGS_PARM1 ctx.

Definition open_role (accept : bool) : Z := if accept then ROLE_SERVER else ROLE_CLIENT.

Lemma run_open_probe accept e ctx s :
  run e (open_probe accept ctx) s =
    (0, record_connection_spec e (open_sock accept ctx) (open_role accept) s).
Proof. destruct accept; apply run_record_connection. Qed.

(** The three entries a new connection makes. *)
Lemma record_connection_lookup e sk role s :
  sk ≠ 0 → connections_fit e →
  let s' := record_connection_spec e sk role s in
  lookup_map s' active_connections (e_pid_tgid e) = Some (conn_of e sk role) ∧
  lookup_map s' sock_to_pid sk = Some (e_pid_tgid e) ∧
  lookup_map s' sock_role sk = Some role ∧
  (∀ t, t ≠ e_pid_tgid e →
     lookup_map s' active_connections t = lookup_map s active_connections t) ∧
  (∀ sk', sk' ≠ sk → lookup_map s' sock_to_pid sk' = lookup_map s sock_to_pid sk').
Proof.
  intros Hsk (Ha & Hp & Hr). unfold record_connection_spec.
  rewrite (proj2 (Z.eqb_neq sk 0) Hsk). cbv zeta. split_and!.
  - by kmap_simpl.
  - by kmap_simpl.
  - by kmap_simpl.
  - intros t Ht. by kmap_simpl.
  - intros sk' Hne. by kmap_simpl.
Qed.

Lemma tcp_close_lookup e sk t s :
  lookup_map s sock_to_pid sk = Some t →
  let s' := tcp_close_spec e sk s in
  lookup_map s' active_connections t = None ∧
  lookup_map s' sock_to_pid sk = None ∧
  lookup_map s' sock_role sk = None ∧
  (∀ t', t' ≠ t → lookup_map s' active_connections t' = lookup_map s active_connections t') ∧
  (∀ sk', sk' ≠ sk → lookup_map s' sock_to_pid sk' = lookup_map s sock_to_pid sk').
Proof.
  intros Ht. unfold tcp_close_spec. rewrite Ht. cbn [owner_or_current default]. cbv zeta. split_and!.
  - by kmap_simpl.
  - by kmap_simpl.
  - by kmap_simpl.
  - intros t' Hne. by kmap_simpl.
  - intros sk' Hne. by kmap_simpl.
Qed.

(** A close finds the thread that opened the connection. After a connect or an accept on one
    thread and a [tcp_close] of the same socket from any thread, the opening thread has no current
    connection and the socket is forgotten; no other thread's connection is touched. *)
Theorem close_removes_opener_state (accept : bool) (e1 e2 : env) (ctx1 ctx2 : pt_regs) (s : kstate)
    (Hsk : open_sock accept ctx1 ≠ 0)
    (Hsame : PT_REGS_PARM1 ctx2 = open_sock accept ctx1)
    (Hfit : connections_fit e1) :
  let sk := open_sock accept ctx1 in
  let s1 := (run e1 (open_probe accept ctx1) s).2 in
  let s2 := (run e2 (tcp_close_entry ctx2) s1).2 in
  lookup_map s1 active_connections (e_pid_tgid e1) = Some (conn_of e1 sk (open_role accept)) ∧
  lookup_map s2 active_connections (e_pid_tgid e1) = None ∧
  lookup_map s2 sock_to_pid sk = None ∧
  lookup_map s2 sock_role sk = None ∧
  (∀ t, t ≠ e_pid_tgid e1 →
     lookup_map s2 active_connections t = lookup_map s active_connections t).
Proof.
  cbv zeta. rewrite run_open_probe, run_tcp_close, Hsame. cbn [snd].
  destruct (record_connection_lookup e1 (open_sock accept ctx1) (open_role accept) s Hsk Hfit)
    as (H1 & H2 & _ & H4 & _).
  destruct (tcp_close_lookup e2 (open_sock accept ctx1) _ _ H2) as (C1 & C2 & C3 & C4 & _).
  split_and!; try done. intros t Ht. by rewrite C4, H4.
Qed.

Definition demo_ctx (p1 p2 p3 rc : Z) : pt_regs := {|
  PT_REGS_PARM1 := p1; PT_REGS_PARM2 := p2; PT_REGS_PARM3 := p3; PT_REGS_PARM4 := 0;
  PT_REGS_RC := rc; r_ax := 0; r_bx := 0; r_cx := 0; r_r14 := 0; r_regs := fun _ => 0 |}.

Definition other_thread : env := demo_env <| e_pid_tgid := demo_pid_tgid + 1 |>.

Lemma demo_no_pressure m : no_pressure demo_env m.
Proof. done. Qed.

Lemma close_removes_opener_state_witness :
  connections_fit demo_env ∧
  lookup_map (run other_thread (tcp_close_entry (demo_ctx 900 0 0 0))
                (run demo_env (open_probe false (demo_ctx 900 0 0 0)) demo_state).2).2
    active_connections demo_pid_tgid = None.
Proof.
  assert (connections_fit demo_env) as Hfit by (repeat split).
  split; [exact Hfit|].
  exact (proj1 (proj2 (close_removes_opener_state false demo_env other_thread (demo_ctx 900 0 0 0)
    (demo_ctx 900 0 0 0) demo_state ltac:(discriminate) eq_refl Hfit))).
Defined.

(** The thread fallback remembers one connection only. When a thread opens two connections and
    the first one is closed, the thread is left without a current connection although the second
    one is still open: [active_connections] has one entry per thread and [tcp_close] removes it by
    thread. *)
Theorem closing_older_connection_forgets_newer (e1 e2 e3 : env) (ctx1 ctx2 ctx3 : pt_regs)
    (s : kstate)
    (Hthread : e_pid_tgid e2 = e_pid_tgid e1)
    (Hfit1 : connections_fit e1) (Hfit2 : connections_fit e2)
    (Hsk1 : PT_REGS_PARM1 ctx1 ≠ 0) (Hsk2 : PT_REGS_PARM1 ctx2 ≠ 0)
    (Hdiff : PT_REGS_PARM1 ctx2 ≠ PT_REGS_PARM1 ctx1)
    (Hclose : PT_REGS_PARM1 ctx3 = PT_REGS_PARM1 ctx1) :
  let s1 := (run e1 (tcp_connect_entry ctx1) s).2 in
  let s2 := (run e2 (tcp_connect_entry ctx2) s1).2 in
  let s3 := (run e3 (tcp_close_entry ctx3) s2).2 in
  lookup_map s2 active_connections (e_pid_tgid e1) =
    Some (conn_of e2 (PT_REGS_PARM1 ctx2) ROLE_CLIENT) ∧
  lookup_map s3 active_connections (e_pid_tgid e1) = None ∧
  lookup_map s3 sock_to_pid (PT_REGS_PARM1 ctx2) = Some (e_pid_tgid e1).
Proof.
  cbv zeta. rewrite (run_open_probe false e1), (run_open_probe false e2), run_tcp_close, Hclose.
  cbn [snd open_sock open_role].
  destruct (record_connection_lookup e1 (PT_REGS_PARM1 ctx1) ROLE_CLIENT s Hsk1 Hfit1)
    as (_ & H2 & _).
  set (s1 := record_connection_spec e1 (PT_REGS_PARM1 ctx1) ROLE_CLIENT s) in *.
  destruct (record_connection_lookup e2 (PT_REGS_PARM1 ctx2) ROLE_CLIENT s1 Hsk2 Hfit2)
    as (N1 & N2 & _ & _ & N5).
  set (s2 := record_connection_spec e2 (PT_REGS_PARM1 ctx2) ROLE_CLIENT s1) in *.
  rewrite <- Hthread. split; [done|].
  assert (lookup_map s2 sock_to_pid (PT_REGS_PARM1 ctx1) = Some (e_pid_tgid e2)) as Hown.
  { rewrite N5 by congruence. by rewrite Hthread. }
  destruct (tcp_close_lookup e3 _ _ _ Hown) as (C1 & _ & _ & _ & C5).
  split; [done|]. by rewrite C5.
Qed.

Lemma closing_older_connection_forgets_newer_witness :
  connections_fit demo_env ∧
  lookup_map
    (run demo_env (tcp_close_entry (demo_ctx 900 0 0 0))
       (run demo_env (tcp_connect_entry (demo_ctx 901 0 0 0))
          (run demo_env (tcp_connect_entry (demo_ctx 900 0 0 0)) demo_state).2).2).2
    active_connections demo_pid_tgid = None.
Proof.
  assert (connections_fit demo_env) as Hfit by (repeat split).
  split; [exact Hfit|].
  exact (proj1 (proj2 (closing_older_connection_forgets_newer demo_env demo_env demo_env
    (demo_ctx 900 0 0 0) (demo_ctx 901 0 0 0) (demo_ctx 900 0 0 0) demo_state eq_refl Hfit Hfit
    ltac:(discriminate) ltac:(discriminate) ltac:(discriminate) eq_refl))).
Defined.

(** * Exact association *)

(** [SSL_set_fd] binds a TLS object to the socket behind its descriptor, within its process. A
    negative descriptor or a descriptor that leads to no socket changes nothing. Otherwise, when
    the map has room, the object of the calling process is associated with the tuple of that
    socket and the role recorded when the socket was opened. Under any eviction, no object of
    another process and no other object gains an association, and no other map changes. *)
Theorem ssl_set_fd_associates (e : env) (ctx : pt_regs) (s : kstate) :
  let k := key_of e (PT_REGS_PARM1 ctx) in
  let fd := i32 (PT_REGS_PARM2 ctx) in
  let sk := sock_of_fd_spec e fd in
  let s' := (run e (ssl_set_fd_entry ctx) s).2 in
  (fd < 0 ∨ sk = 0 → s' = s) ∧
  (0 <= fd → sk ≠ 0 → no_pressure e ssl_ptr_to_conn →
     lookup_map s' ssl_ptr_to_conn k =
       Some (conn_of e sk (default 0 (lookup_map s sock_role sk)))) ∧
  (∀ k' info, k' ≠ k →
     lookup_map s' ssl_ptr_to_conn k' = Some info → lookup_map s ssl_ptr_to_conn k' = Some info) ∧
  (∀ m, m ≠ ssl_ptr_to_conn → k_maps s' m = k_maps s m).
Proof.
  cbv zeta. rewrite run_ssl_set_fd. cbn [snd]. unfold ssl_set_fd_spec. cbv zeta.
  set (fd := i32 (PT_REGS_PARM2 ctx)). set (sk := sock_of_fd_spec e fd).
  destruct ((fd <? 0) || (sk =? 0)) eqn:E.
  - split_and!; try done. intros Hfd Hsk _. apply orb_true_iff in E as [E|E]; zbool; lia.
  - zbool. split_and!.
    + lia.
    + intros _ _ Hp. by kmap_simpl.
    + intros k' info Hne [[-> _]|Hl]%lookup_put_inv; [done|exact Hl].
    + intros m Hm. by apply update_elem_other.
Qed.

(** * Freeing a TLS object *)

Lemma lookup_send_close e ptr owner g s m k :
  lookup_map (send_close_spec e ptr owner g s) m k = lookup_map s m k.
Proof. unfold send_close_spec. by destruct (e_reserve e close_events 40). Qed.

Lemma lookup_end_generation_map k m k' s :
  m ≠ ssl_state_map → lookup_map (end_generation_spec k s).2 m k' = lookup_map s m k'.
Proof.
  intros Hm. unfold end_generation_spec. destruct (lookup_map s ssl_state_map k); [|done].
  cbn [snd]. unfold store_state. by rewrite !lookup_map_set_map_ne.
Qed.

Lemma ssl_free_lookups e ptr s :
  let k := key_of e ptr in
  let owner := owner_or_current e (lookup_map s ssl_ptr_to_pid k) in
  let s' := ssl_free_spec e ptr s in
  (∀ k', lookup_map s' ssl_state_map k' =
     if decide (k = k') then end_generation_state <$> lookup_map s ssl_state_map k'
     else lookup_map s ssl_state_map k') ∧
  lookup_map s' ssl_ptr_to_pid k = None ∧ lookup_map s' ssl_ptr_to_conn k = None ∧
  lookup_map s' active_connections owner = None ∧
  (∀ k', k' ≠ k → lookup_map s' ssl_ptr_to_conn k' = lookup_map s ssl_ptr_to_conn k') ∧
  (∀ t, t ≠ owner → lookup_map s' active_connections t = lookup_map s active_connections t).
Proof.
  cbv zeta. unfold ssl_free_spec. cbv zeta.
  set (k := key_of e ptr). set (owner := owner_or_current e _).
  pose proof (end_generation_lookup k) as Hst. pose proof (lookup_end_generation_map k) as Hm.
  specialize (Hst) with (s := s). specialize (λ m k' H, Hm m k' s H) as Hm'.
  destruct (end_generation_spec k s) as [g s1]. cbn [snd] in *. split_and!.
  - intros k'. kmap_simpl. rewrite lookup_send_close. apply Hst.
  - by kmap_simpl.
  - by kmap_simpl.
  - by kmap_simpl.
  - intros k' Hne. kmap_simpl. rewrite lookup_send_close. by apply Hm'.
  - intros t Hne. kmap_simpl. rewrite lookup_send_close. by apply Hm'.
Qed.

Lemma ssl_free_rings e ptr s :
  let k := key_of e ptr in
  let owner := owner_or_current e (lookup_map s ssl_ptr_to_pid k) in
  let g := default 0 (ss_generation <$> lookup_map s ssl_state_map k) in
  k_rings (ssl_free_spec e ptr s) close_events = k_rings s close_events ++
    (if e_reserve e close_events 40 then [close_record e ptr owner g] else []).
Proof.
  cbv zeta. unfold ssl_free_spec. cbv zeta. set (owner := owner_or_current e _).
  set (k := key_of e ptr).
  assert ((end_generation_spec k s).1 = default 0 (ss_generation <$> lookup_map s ssl_state_map k) ∧
          k_rings (end_generation_spec k s).2 = k_rings s) as [<- Hr].
  { unfold end_generation_spec. by destruct (lookup_map s ssl_state_map k). }
  destruct (end_generation_spec k s) as [g s1]. cbn [fst snd] in *.
  change (k_rings (del ?m1 ?x1 (del ?m2 ?x2 (del ?m3 ?x3 ?y)))) with (k_rings y).
  unfold send_close_spec. destruct (e_reserve e close_events 40); [|by rewrite Hr, app_nil_r].
  rewrite <- Hr. exact (k_rings_push_ring close_events _ (add_reserved (e_cpu e) 1 s1)).
Qed.

(** A close names exactly the generation it ends. [SSL_free] of a tracked object sends, when
    the ring has room, one close record with the object's current generation and the process start
    time, then moves the object to the next generation with both sequence counters at zero, and
    forgets its owner and its socket. Objects at other addresses or in other processes keep their
    state. *)
Theorem ssl_free_ends_generation (e : env) (ctx : pt_regs) (s : kstate) (st : ssl_state)
    (Hst : lookup_map s ssl_state_map (key_of e (PT_REGS_PARM1 ctx)) = Some st) :
  let ptr := PT_REGS_PARM1 ctx in
  let k := key_of e ptr in
  let s' := (run e (ssl_free_entry ctx) s).2 in
  (e_reserve e close_events 40 = true →
   ∃ c, k_rings s' close_events = k_rings s close_events ++ [c] ∧
        ce_ssl_ptr c = ptr ∧ ce_generation c = ss_generation st ∧
        ce_proc_start_ns c = proc_start_ns e) ∧
  lookup_map s' ssl_state_map k =
    Some {| ss_generation := u32 (ss_generation st + 1); ss_seq0 := 0; ss_seq1 := 0;
            ss__pad := ss__pad st |} ∧
  lookup_map s' ssl_ptr_to_pid k = None ∧ lookup_map s' ssl_ptr_to_conn k = None ∧
  (∀ k', k' ≠ k →
     lookup_map s' ssl_state_map k' = lookup_map s ssl_state_map k' ∧
     lookup_map s' ssl_ptr_to_conn k' = lookup_map s ssl_ptr_to_conn k').
Proof.
  cbv zeta. rewrite run_ssl_free. cbn [snd].
  destruct (ssl_free_lookups e (PT_REGS_PARM1 ctx) s) as (L1 & L2 & L3 & _ & L5 & _).
  pose proof (ssl_free_rings e (PT_REGS_PARM1 ctx) s) as Hr. cbv zeta in Hr. rewrite Hst in Hr.
  split_and!; [|..|intros k' Hne; split].
  - intros Hroom. rewrite Hroom in Hr. by eexists.
  - rewrite L1. case_decide; [|done]. by rewrite Hst.
  - done.
  - done.
  - rewrite L1. by case_decide.
  - by apply L5.
Qed.

(** A process that has written once through object 7, and frees it. *)
Definition free_ctx : pt_regs := demo_ctx 7 0 0 0.

Definition used_state : kstate :=
  (run demo_env (emit_event false demo_buf 20 1 7 PROVIDER_OPENSSL) demo_state).2.

Definition used_ssl_state : ssl_state :=
  {| ss_generation := 0; ss_seq0 := 0; ss_seq1 := 1; ss__pad := 0 |}.

Lemma used_state_tracks : lookup_map used_state ssl_state_map (key_of demo_env 7) = Some used_ssl_state.
Proof. by vm_compute. Qed.

Lemma ssl_free_ends_generation_witness :
  lookup_map used_state ssl_state_map (key_of demo_env 7) = Some used_ssl_state ∧
  lookup_map (run demo_env (ssl_free_entry free_ctx) used_state).2 ssl_state_map
    (key_of demo_env 7) = Some {| ss_generation := 1; ss_seq0 := 0; ss_seq1 := 0; ss__pad := 0 |}.
Proof.
  split; [exact used_state_tracks|].
  exact (proj1 (proj2 (ssl_free_ends_generation demo_env free_ctx used_state used_ssl_state
    used_state_tracks))).
Defined.

(** The pieces of a record published for an object the kernel tracks. *)
Lemma published_tracked b e buf len d ptr prov st s x :
  0 <= len → tracked e ptr st s →
  x ∈ new_events s (run e (emit_event b buf len d ptr prov) s).2 →
  h_ssl_ptr (ev_hdr x) = ptr ∧ h_pid (ev_hdr x) = tgid_of (e_pid_tgid e) ∧
  h_proc_start_ns (ev_hdr x) = proc_start_ns e ∧
  h_conn_generation (ev_hdr x) = ss_generation st ∧
  h_dir_seq (ev_hdr x) = ss_seq (Z.land d 1) st ∧
  h_attribution (ev_hdr x) =
    match attribute e ptr s with
    | AttrSsl _ => ATTR_SSL | AttrThread _ => ATTR_THREAD | AttrNone => ATTR_NONE end.
Proof.
  intros Hlen Hst Hx. rewrite run_emit_event in Hx by done. cbn [snd] in Hx.
  rewrite (new_events_app _ _ _ (emit_events b e buf len d ptr prov s)) in Hx.
  destruct (attempt_tracked e buf len d ptr st s Hst) as (Hg & Hq & _).
  case_decide; [|by apply not_elem_of_nil in Hx]. apply list_elem_of_singleton in Hx as ->.
  unfold published. cbn [ev_hdr].
  destruct (hdr_of_fields e len d ptr prov (attempt_of e buf len d ptr s))
    as (_ & _ & _ & -> & -> & -> & _ & _ & -> & _ & _ & ->).
  by rewrite Hg, Hq, hdr_of_attribution, attribute_attempt.
Qed.

(** After [SSL_free] the object is tracked in its next generation, for any thread of the process. *)
Lemma tracked_after_free e1 e2 ctx s st :
  lookup_map s ssl_state_map (key_of e1 (PT_REGS_PARM1 ctx)) = Some st →
  tgid_of (e_pid_tgid e2) = tgid_of (e_pid_tgid e1) →
  tracked e2 (PT_REGS_PARM1 ctx) (end_generation_state st) (run e1 (ssl_free_entry ctx) s).2.
Proof.
  intros Hst Hproc. rewrite run_ssl_free. cbn [snd]. left.
  destruct (ssl_free_lookups e1 (PT_REGS_PARM1 ctx) s) as (L1 & _).
  assert (key_of e2 (PT_REGS_PARM1 ctx) = key_of e1 (PT_REGS_PARM1 ctx)) as ->
    by (unfold key_of; by rewrite Hproc).
  by rewrite L1, decide_True, Hst.
Qed.

Lemma next_generation_ne g : 0 <= g < 2 ^ 32 → u32 (g + 1) ≠ g.
Proof.
  intros Hg Heq. destruct (decide (g = 2 ^ 32 - 1)) as [->|]; [done|].
  unfold wrap in Heq. rewrite Z.mod_small in Heq; lia.
Qed.

(** A reused pointer is a new connection. After [SSL_free] of a tracked object, whatever is
    published next for the same address in the same process carries the next generation, never
    the one the close named, starts its sequence at zero, and is not attributed to the socket of
    the old object. *)
Theorem reused_pointer_is_new_connection (b : bool) (e1 e2 : env) (ctx : pt_regs)
    (buf len direction provider : Z) (s : kstate) (st : ssl_state)
    (Hst : lookup_map s ssl_state_map (key_of e1 (PT_REGS_PARM1 ctx)) = Some st)
    (Hgen : 0 <= ss_generation st < 2 ^ 32)
    (Hproc : tgid_of (e_pid_tgid e2) = tgid_of (e_pid_tgid e1))
    (Hlen : 0 <= len) :
  let ptr := PT_REGS_PARM1 ctx in
  let s1 := (run e1 (ssl_free_entry ctx) s).2 in
  let s2 := (run e2 (emit_event b buf len direction ptr provider) s1).2 in
  ∀ x, x ∈ new_events s1 s2 →
    h_ssl_ptr (ev_hdr x) = ptr ∧ h_pid (ev_hdr x) = tgid_of (e_pid_tgid e1) ∧
    h_conn_generation (ev_hdr x) = u32 (ss_generation st + 1) ∧
    h_conn_generation (ev_hdr x) ≠ ss_generation st ∧
    h_dir_seq (ev_hdr x) = 0 ∧
    h_attribution (ev_hdr x) ≠ ATTR_SSL.
Proof.
  cbv zeta. intros x Hx.
  pose proof (tracked_after_free e1 e2 ctx s st Hst Hproc) as Htr.
  destruct (published_tracked _ _ _ _ _ _ _ _ _ _ Hlen Htr Hx) as (-> & -> & _ & -> & -> & ->).
  split; [done|]. split; [done|]. split; [done|]. split; [by apply next_generation_ne|]. split.
  - unfold ss_seq. by destruct (_ =? 0).
  - rewrite run_ssl_free. cbn [snd].
    destruct (ssl_free_lookups e1 (PT_REGS_PARM1 ctx) s) as (_ & _ & L3 & _).
    assert (key_of e2 (PT_REGS_PARM1 ctx) = key_of e1 (PT_REGS_PARM1 ctx)) as Hk
      by (unfold key_of; by rewrite Hproc).
    unfold attribute. rewrite Hk, L3. by destruct (lookup_map _ active_connections _).
Qed.

Lemma reused_pointer_is_new_connection_witness :
  let s1 := (run demo_env (ssl_free_entry free_ctx) used_state).2 in
  ∃ x, new_events s1 (run demo_env (emit_event false demo_buf 20 1 7 PROVIDER_OPENSSL) s1).2 = [x] ∧
    h_conn_generation (ev_hdr x) ≠ ss_generation used_ssl_state ∧ h_dir_seq (ev_hdr x) = 0.
Proof.
  cbv zeta.
  assert (∃ x, new_events (run demo_env (ssl_free_entry free_ctx) used_state).2
            (run demo_env (emit_event false demo_buf 20 1 (PT_REGS_PARM1 free_ctx) PROVIDER_OPENSSL)
               (run demo_env (ssl_free_entry free_ctx) used_state).2).2 = [x]) as [x Hx]
    by (eexists; vm_compute; reflexivity).
  exists x. split; [exact Hx|].
  destruct (reused_pointer_is_new_connection false demo_env demo_env free_ctx demo_buf 20 1
    PROVIDER_OPENSSL used_state used_ssl_state used_state_tracks ltac:(cbn; lia) eq_refl
    ltac:(lia) x ltac:(rewrite Hx; by apply list_elem_of_singleton)) as (_ & _ & _ & H1 & H2 & _).
  split; [exact H1|exact H2].
Defined.

(** [SSL_free] removes one thread-keyed entry: the current connection of the object's owner
    thread, whichever connection that is. The next record of that thread without an exact
    association is unattributed. The argument maps, the sockets and the roles are left alone, so
    calls in flight on any thread still pair. *)
Theorem ssl_free_drops_owner_connection (e : env) (ctx : pt_regs) (s : kstate) (t : Z)
    (Howner : lookup_map s ssl_ptr_to_pid (key_of e (PT_REGS_PARM1 ctx)) = Some t) :
  let s' := (run e (ssl_free_entry ctx) s).2 in
  lookup_map s' active_connections t = None ∧
  (∀ t', t' ≠ t → lookup_map s' active_connections t' = lookup_map s active_connections t') ∧
  (∀ e2 ptr2, e_pid_tgid e2 = t →
     lookup_map s ssl_ptr_to_conn (key_of e2 ptr2) = None → attribute e2 ptr2 s' = AttrNone) ∧
  (∀ m, m ∉ [ssl_state_map; ssl_ptr_to_pid; ssl_ptr_to_conn; active_connections] →
     ∀ k, lookup_map s' m k = lookup_map s m k).
Proof.
  cbv zeta. rewrite run_ssl_free. cbn [snd].
  destruct (ssl_free_lookups e (PT_REGS_PARM1 ctx) s) as (_ & _ & L3 & L4 & L5 & L6).
  rewrite Howner in L4, L6. cbn [owner_or_current default from_option id] in L4, L6.
  split; [done|]. split; [done|]. split.
  - intros e2 ptr2 <- Hnone. unfold attribute. rewrite L4.
    destruct (decide (key_of e2 ptr2 = key_of e (PT_REGS_PARM1 ctx))) as [->|Hne].
    + by rewrite L3.
    + by rewrite L5, Hnone.
  - intros m Hm k. rewrite !not_elem_of_cons in Hm. destruct Hm as (H1 & H2 & H3 & H4 & _).
    unfold ssl_free_spec. pose proof (lookup_end_generation_map
      (key_of e (PT_REGS_PARM1 ctx)) m k s H1) as Hg.
    destruct (end_generation_spec _ s) as [g s1]. cbn [snd] in Hg.
    rewrite !lookup_del_map by congruence. by rewrite lookup_send_close.
Qed.

(** A thread that wrote through object 7, then connected socket 901 for something else. *)
Definition busy_state : kstate :=
  (run demo_env (tcp_connect_entry (demo_ctx 901 0 0 0))
     (run demo_env (remember_ssl_owner 7 demo_pid_tgid) used_state).2).2.

Lemma ssl_free_drops_owner_connection_witness :
  lookup_map busy_state active_connections demo_pid_tgid =
    Some (conn_of demo_env 901 ROLE_CLIENT) ∧
  lookup_map (run other_thread (ssl_free_entry free_ctx) busy_state).2
    active_connections demo_pid_tgid = None.
Proof.
  assert (lookup_map busy_state ssl_ptr_to_pid (key_of other_thread (PT_REGS_PARM1 free_ctx)) =
          Some demo_pid_tgid) as Hown by (vm_compute; reflexivity).
  split; [vm_compute; reflexivity|].
  exact (proj1 (ssl_free_drops_owner_connection other_thread free_ctx busy_state demo_pid_tgid Hown)).
Defined.
