(* ===== verification/Calls.v ===== *)
(** The interface of a pair of probes around a library call: the entry probe saves the arguments
    in a map under the identity of the call, the exit probe takes them out and reports the bytes.

    [CallProbe] states what such a pair promises to the rest of the system; [Probes], [Ktls] and
    [GoTls] discharge it for each library, and [CallSites] proves the properties of a call from it
    alone. *)

From S2P Require Import Prelude Abi Kernel Logic TlsState Emit EmitProps.

(** The arguments of one call of [emit_event]. *)
Record emission := {
  em_buf : Z;
  em_len : Z;
  em_direction : Z;
  em_ptr : Z;
  em_provider : Z
}.

(** What an exit probe does between the lookup and the delete. *)
Definition emit_of (b : bool) (e : env) (o : option emission) (s : kstate) : kstate :=
  match o with
  | Some m => emit_spec b e (em_buf m) (em_len m) (em_direction m) (em_ptr m) (em_provider m) s
  | None => s
  end.

(** [cp_key] is the identity under which a call is paired, [None] when the probe skips it;
    [cp_args] the arguments saved at entry; [cp_before] and [cp_after] what else the entry probe
    records, around the insertion; [cp_plan] what the exit probe reports for saved arguments. *)
Class CallProbe (b : bool) (m : lru) (entry exit : pt_regs → prog Z) := {
  cp_key : env → pt_regs → option (lru_key m);
  cp_args : env → pt_regs → lru_val m;
  cp_before : env → pt_regs → kstate → kstate;
  cp_after : env → pt_regs → kstate → kstate;
  cp_plan : env → pt_regs → lru_val m → option emission;
  cp_entry_run e ctx s :
    run e (entry ctx) s =
      (0, match cp_key e ctx with
          | Some k => cp_after e ctx (put e m k (cp_args e ctx) (cp_before e ctx s))
          | None => s
          end);
  cp_exit_run e ctx s :
    run e (exit ctx) s =
      (0, match cp_key e ctx with
          | Some k =>
              match lookup_map s m k with
              | Some a => del m k (emit_of b e (cp_plan e ctx a) s)
              | None => s
              end
          | None => s
          end);
  cp_before_other e ctx s : maps_only s (cp_before e ctx s);
  cp_after_other e ctx s : maps_only s (cp_after e ctx s);
  cp_before_map e ctx s : k_maps (cp_before e ctx s) m = k_maps s m;
  cp_after_map e ctx s : k_maps (cp_after e ctx s) m = k_maps s m;
  cp_plan_len e ctx a em : cp_plan e ctx a = Some em → 0 <= em_len em
}.

(** No helper of an entry probe writes the argument map [m] except the insertion itself. *)
Lemma put_keeps_map e m m' k v s : m' ≠ m → k_maps (put e m k v s) m' = k_maps s m'.
Proof. intros Hne. unfold put. by apply update_elem_other. Qed.

(** An emission with a plan, as the code runs it. *)
Lemma run_emission b e em s :
  0 <= em_len em →
  run e (emit_event b (em_buf em) (em_len em) (em_direction em) (em_ptr em) (em_provider em)) s =
    (0, emit_of b e (Some em) s).
Proof. intros Hlen. by apply run_emit_event. Qed.

Lemma u32_nonneg z : 0 <= u32 z.
Proof. apply wrap_range. lia. Qed.

#[export] Hint Resolve u32_nonneg : sensor.

(** Emission leaves every map but [ssl_state_map] alone. *)
Lemma emit_of_maps b e o s m : m ≠ ssl_state_map → k_maps (emit_of b e o s) m = k_maps s m.
Proof.
  intros Hm. destruct o as [em|]; [|done]. cbn [emit_of].
  destruct (emit_settled b e (em_buf em) (em_len em) (em_direction em) (em_ptr em)
    (em_provider em) s) as (Hk & _).
  destruct (attempt_frame e (em_buf em) (em_len em) (em_direction em) (em_ptr em) s) as (Hf & _).
  by rewrite Hk, Hf.
Qed.

Section Paired.
Context {b : bool} {m : lru} {entry exit : pt_regs → prog Z} `{HP : !CallProbe b m entry exit}.

(** After the entry probe the call's arguments are in the map. *)
Lemma entry_saves e ctx s k :
  cp_key e ctx = Some k → no_pressure e m →
  lookup_map (run e (entry ctx) s).2 m k = Some (cp_args e ctx).
Proof.
  intros Hk Hp. rewrite cp_entry_run, Hk. cbn [snd]. unfold lookup_map. rewrite cp_after_map.
  by apply lookup_put_eq.
Qed.

(** An entry probe reports nothing and counts nothing. *)
Lemma entry_other e ctx s : maps_only s (run e (entry ctx) s).2.
Proof using HP.
  rewrite cp_entry_run. destruct (cp_key e ctx); [|reflexivity]. cbn [snd].
  etransitivity; [apply cp_before_other|]. etransitivity; [apply maps_only_put|].
  apply cp_after_other.
Qed.

(** It keeps the arguments of other calls. *)
Lemma entry_frame e ctx s k k' :
  cp_key e ctx = Some k → k ≠ k' → no_pressure e m →
  lookup_map (run e (entry ctx) s).2 m k' = lookup_map s m k'.
Proof.
  intros Hk Hne Hp. rewrite cp_entry_run, Hk. cbn [snd]. unfold lookup_map.
  rewrite cp_after_map. trans (k_maps (cp_before e ctx s) m !! k').
  - by apply lookup_put_ne.
  - by rewrite cp_before_map.
Qed.

(** It saves nothing under another identity. *)
Lemma entry_saves_only e ctx s k' a :
  lookup_map (run e (entry ctx) s).2 m k' = Some a →
  (cp_key e ctx = Some k' ∧ a = cp_args e ctx) ∨ lookup_map s m k' = Some a.
Proof.
  rewrite cp_entry_run. destruct (cp_key e ctx) as [k|]; cbn [snd]; [|auto].
  unfold lookup_map at 1. rewrite cp_after_map. intros Hl.
  destruct (lookup_put_inv _ _ _ _ _ _ _ Hl) as [[-> ->]|H]; [by left|right].
  unfold lookup_map in H. by rewrite cp_before_map in H.
Qed.

(** The exit probe reports saved arguments and forgets them. *)
Lemma exit_reports e ctx s k a :
  cp_key e ctx = Some k → lookup_map s m k = Some a →
  run e (exit ctx) s = (0, del m k (emit_of b e (cp_plan e ctx a) s)).
Proof. intros Hk Ha. by rewrite cp_exit_run, Hk, Ha. Qed.

(** Without saved arguments it does nothing. *)
Lemma exit_unpaired e ctx s :
  (∀ k, cp_key e ctx = Some k → lookup_map s m k = None) → run e (exit ctx) s = (0, s).
Proof.
  intros Hno. rewrite cp_exit_run. destruct (cp_key e ctx) as [k|]; [|done].
  by rewrite (Hno k eq_refl).
Qed.
End Paired.
