(* ===== verification/Probes.v ===== *)
(** The probes around [SSL_read]/[SSL_write], [SSL_read_ex]/[SSL_write_ex] (OpenSSL and
    BoringSSL), [gnutls_record_send]/[recv], [PR_Read]/[PR_Write] (NSS) and the QUIC stream calls
    of [bpf/http_trace.bpf.c], each pair an instance of [CallProbe]. *)

From S2P Require Import Prelude Abi Kernel Logic TlsState Emit EmitProps Calls.

Section Handlers.
Context (cfg_use_dynptr : bool).

(** * OpenSSL and BoringSSL *)

Definition ssl_write_entry (ctx : pt_regs) : prog Z :=
  pid_tgid ← call bpf_get_current_pid_tgid;
  let args := {| wa_ssl_ptr := PT_REGS_PARM1 ctx;
                 wa_buf := PT_REGS_PARM2 ctx;
                 wa_len := u32 (PT_REGS_PARM3 ctx) |} in
  _ ← call (bpf_map_update_elem ssl_write_args pid_tgid args BPF_ANY);
  _ ← remember_ssl_owner (wa_ssl_ptr args) pid_tgid;
  mret 0.

Definition ssl_write_exit (ctx : pt_regs) : prog Z :=
  pid_tgid ← call bpf_get_current_pid_tgid;
  args ← call (bpf_map_lookup_elem ssl_write_args pid_tgid);
  let ret := i32 (PT_REGS_RC ctx) in
  match (args : option write_args) with
  | None => mret 0
  | Some args =>
      _ ← (if 0 <? ret
           then emit_event cfg_use_dynptr (wa_buf args) (u32 ret) 1 (wa_ssl_ptr args)
                  PROVIDER_OPENSSL
           else mret 0);
      _ ← call (bpf_map_delete_elem ssl_write_args pid_tgid);
      mret 0
  end.

Definition ssl_read_entry (ctx : pt_regs) : prog Z :=
  pid_tgid ← call bpf_get_current_pid_tgid;
  let args := {| ra_ssl_ptr := PT_REGS_PARM1 ctx;
                 ra_buf := PT_REGS_PARM2 ctx;
                 ra_len := u32 (PT_REGS_PARM3 ctx) |} in
  _ ← call (bpf_map_update_elem ssl_read_args pid_tgid args BPF_ANY);
  _ ← remember_ssl_owner (ra_ssl_ptr args) pid_tgid;
  mret 0.

Definition ssl_read_exit (ctx : pt_regs) : prog Z :=
  pid_tgid ← call bpf_get_current_pid_tgid;
  args ← call (bpf_map_lookup_elem ssl_read_args pid_tgid);
  let ret := i32 (PT_REGS_RC ctx) in
  match (args : option read_args) with
  | None => mret 0
  | Some args =>
      _ ← (if 0 <? ret
           then emit_event cfg_use_dynptr (ra_buf args) (u32 ret) 0 (ra_ssl_ptr args)
                  PROVIDER_OPENSSL
           else mret 0);
      _ ← call (bpf_map_delete_elem ssl_read_args pid_tgid);
      mret 0
  end.

(** * The [_ex] calls report the byte count through a pointer *)

Definition ssl_read_ex_entry (ctx : pt_regs) : prog Z :=
  pid_tgid ← call bpf_get_current_pid_tgid;
  let args := {| rx_ssl_ptr := PT_REGS_PARM1 ctx;
                 rx_buf := PT_REGS_PARM2 ctx;
                 rx_len := PT_REGS_PARM3 ctx;
                 rx_bytes_ptr := PT_REGS_PARM4 ctx |} in
  _ ← call (bpf_map_update_elem ssl_read_ex_args pid_tgid args BPF_ANY);
  _ ← remember_ssl_owner (rx_ssl_ptr args) pid_tgid;
  mret 0.

Definition ssl_read_ex_exit (ctx : pt_regs) : prog Z :=
  pid_tgid ← call bpf_get_current_pid_tgid;
  args ← call (bpf_map_lookup_elem ssl_read_ex_args pid_tgid);
  let ret := i32 (PT_REGS_RC ctx) in
  match (args : option read_ex_args) with
  | None => mret 0
  | Some args =>
      _ ← (if (0 <? ret) && negb (rx_bytes_ptr args =? 0) then
             r ← call (bpf_probe_read_user 8 (rx_bytes_ptr args));
             match r with
             | Some bs =>
                 let bytes := le_val bs in
                 if 0 <? bytes
                 then emit_event cfg_use_dynptr (rx_buf args) (u32 bytes) 0 (rx_ssl_ptr args)
                        PROVIDER_OPENSSL
                 else mret 0
             | None => mret 0
             end
           else mret 0);
      _ ← call (bpf_map_delete_elem ssl_read_ex_args pid_tgid);
      mret 0
  end.

Definition ssl_write_ex_entry (ctx : pt_regs) : prog Z :=
  pid_tgid ← call bpf_get_current_pid_tgid;
  let args := {| wx_ssl_ptr := PT_REGS_PARM1 ctx;
                 wx_buf := PT_REGS_PARM2 ctx;
                 wx_len := PT_REGS_PARM3 ctx;
                 wx_bytes_ptr := PT_REGS_PARM4 ctx |} in
  _ ← call (bpf_map_update_elem ssl_write_ex_args pid_tgid args BPF_ANY);
  _ ← remember_ssl_owner (wx_ssl_ptr args) pid_tgid;
  mret 0.

Definition ssl_write_ex_exit (ctx : pt_regs) : prog Z :=
  pid_tgid ← call bpf_get_current_pid_tgid;
  args ← call (bpf_map_lookup_elem ssl_write_ex_args pid_tgid);
  let ret := i32 (PT_REGS_RC ctx) in
  match (args : option write_ex_args) with
  | None => mret 0
  | Some args =>
      _ ← (if (0 <? ret) && negb (wx_bytes_ptr args =? 0) then
             r ← call (bpf_probe_read_user 8 (wx_bytes_ptr args));
             match r with
             | Some bs =>
                 let bytes := le_val bs in
                 if 0 <? bytes
                 then emit_event cfg_use_dynptr (wx_buf args) (u32 bytes) 1 (wx_ssl_ptr args)
                        PROVIDER_OPENSSL
                 else mret 0
             | None => mret 0
             end
           else mret 0);
      _ ← call (bpf_map_delete_elem ssl_write_ex_args pid_tgid);
      mret 0
  end.

(** * GnuTLS *)

Definition gnutls_send_entry (ctx : pt_regs) : prog Z :=
  pid_tgid ← call bpf_get_current_pid_tgid;
  let args := {| wa_ssl_ptr := PT_REGS_PARM1 ctx;
                 wa_buf := PT_REGS_PARM2 ctx;
                 wa_len := u32 (PT_REGS_PARM3 ctx) |} in
  _ ← call (bpf_map_update_elem gnutls_write_args pid_tgid args BPF_ANY);
  mret 0.

Definition gnutls_send_exit (ctx : pt_regs) : prog Z :=
  pid_tgid ← call bpf_get_current_pid_tgid;
  args ← call (bpf_map_lookup_elem gnutls_write_args pid_tgid);
  let ret := i32 (PT_REGS_RC ctx) in
  match (args : option write_args) with
  | None => mret 0
  | Some args =>
      _ ← (if 0 <? ret
           then emit_event cfg_use_dynptr (wa_buf args) (u32 ret) 1 (wa_ssl_ptr args)
                  PROVIDER_GNUTLS
           else mret 0);
      _ ← call (bpf_map_delete_elem gnutls_write_args pid_tgid);
      mret 0
  end.

Definition gnutls_recv_entry (ctx : pt_regs) : prog Z :=
  pid_tgid ← call bpf_get_current_pid_tgid;
  let args := {| ra_ssl_ptr := PT_REGS_PARM1 ctx;
                 ra_buf := PT_REGS_PARM2 ctx;
                 ra_len := u32 (PT_REGS_PARM3 ctx) |} in
  _ ← call (bpf_map_update_elem gnutls_read_args pid_tgid args BPF_ANY);
  mret 0.

Definition gnutls_recv_exit (ctx : pt_regs) : prog Z :=
  pid_tgid ← call bpf_get_current_pid_tgid;
  args ← call (bpf_map_lookup_elem gnutls_read_args pid_tgid);
  let ret := i32 (PT_REGS_RC ctx) in
  match (args : option read_args) with
  | None => mret 0
  | Some args =>
      _ ← (if 0 <? ret
           then emit_event cfg_use_dynptr (ra_buf args) (u32 ret) 0 (ra_ssl_ptr args)
                  PROVIDER_GNUTLS
           else mret 0);
      _ ← call (bpf_map_delete_elem gnutls_read_args pid_tgid);
      mret 0
  end.

(** * NSS: the argument maps are those of OpenSSL *)

Definition nss_write_entry (ctx : pt_regs) : prog Z :=
  pid_tgid ← call bpf_get_current_pid_tgid;
  let args := {| wa_ssl_ptr := PT_REGS_PARM1 ctx;
                 wa_buf := PT_REGS_PARM2 ctx;
                 wa_len := u32 (PT_REGS_PARM3 ctx) |} in
  _ ← call (bpf_map_update_elem ssl_write_args pid_tgid args BPF_ANY);
  mret 0.

Definition nss_write_exit (ctx : pt_regs) : prog Z :=
  pid_tgid ← call bpf_get_current_pid_tgid;
  args ← call (bpf_map_lookup_elem ssl_write_args pid_tgid);
  let ret := i32 (PT_REGS_RC ctx) in
  match (args : option write_args) with
  | None => mret 0
  | Some args =>
      _ ← (if 0 <? ret
           then emit_event cfg_use_dynptr (wa_buf args) (u32 ret) 1 (wa_ssl_ptr args) PROVIDER_NSS
           else mret 0);
      _ ← call (bpf_map_delete_elem ssl_write_args pid_tgid);
      mret 0
  end.

Definition nss_read_entry (ctx : pt_regs) : prog Z :=
  pid_tgid ← call bpf_get_current_pid_tgid;
  let args := {| ra_ssl_ptr := PT_REGS_PARM1 ctx;
                 ra_buf := PT_REGS_PARM2 ctx;
                 ra_len := u32 (PT_REGS_PARM3 ctx) |} in
  _ ← call (bpf_map_update_elem ssl_read_args pid_tgid args BPF_ANY);
  mret 0.

Definition nss_read_exit (ctx : pt_regs) : prog Z :=
  pid_tgid ← call bpf_get_current_pid_tgid;
  args ← call (bpf_map_lookup_elem ssl_read_args pid_tgid);
  let ret := i32 (PT_REGS_RC ctx) in
  match (args : option read_args) with
  | None => mret 0
  | Some args =>
      _ ← (if 0 <? ret
           then emit_event cfg_use_dynptr (ra_buf args) (u32 ret) 0 (ra_ssl_ptr args) PROVIDER_NSS
           else mret 0);
      _ ← call (bpf_map_delete_elem ssl_read_args pid_tgid);
      mret 0
  end.

(** * QUIC *)

(** [ret > 0xFFFFFFFFL ? 0xFFFFFFFFU : (__u32)ret] *)
Definition quic_len (ret : Z) : Z := if 4294967295 <? ret then 4294967295 else u32 ret.

Definition quic_args_of (ctx : pt_regs) : quic_stream_args := {|
  qa_conn_ptr := PT_REGS_PARM1 ctx;
  qa_stream_id := PT_REGS_PARM2 ctx;
  qa_buf := PT_REGS_PARM3 ctx;
  qa_buf_len := u32 (PT_REGS_PARM4 ctx);
  qa__pad := 0 |}.

Definition quic_stream_recv_entry (ctx : pt_regs) : prog Z :=
  pid_tgid ← call bpf_get_current_pid_tgid;
  _ ← call (bpf_map_update_elem quic_recv_args pid_tgid (quic_args_of ctx) BPF_ANY);
  mret 0.

Definition quic_stream_recv_exit (ctx : pt_regs) : prog Z :=
  pid_tgid ← call bpf_get_current_pid_tgid;
  args ← call (bpf_map_lookup_elem quic_recv_args pid_tgid);
  let ret := i64 (PT_REGS_RC ctx) in
  match (args : option quic_stream_args) with
  | None => mret 0
  | Some args =>
      _ ← (if 0 <? ret
           then emit_event cfg_use_dynptr (qa_buf args) (quic_len ret) 0 (qa_conn_ptr args)
                  PROVIDER_QUIC
           else mret 0);
      _ ← call (bpf_map_delete_elem quic_recv_args pid_tgid);
      mret 0
  end.

Definition quic_stream_send_entry (ctx : pt_regs) : prog Z :=
  pid_tgid ← call bpf_get_current_pid_tgid;
  _ ← call (bpf_map_update_elem quic_send_args pid_tgid (quic_args_of ctx) BPF_ANY);
  mret 0.

Definition quic_stream_send_exit (ctx : pt_regs) : prog Z :=
  pid_tgid ← call bpf_get_current_pid_tgid;
  args ← call (bpf_map_lookup_elem quic_send_args pid_tgid);
  let ret := i64 (PT_REGS_RC ctx) in
  match (args : option quic_stream_args) with
  | None => mret 0
  | Some args =>
      _ ← (if 0 <? ret
           then emit_event cfg_use_dynptr (qa_buf args) (quic_len ret) 1 (qa_conn_ptr args)
                  PROVIDER_QUIC
           else mret 0);
      _ ← call (bpf_map_delete_elem quic_send_args pid_tgid);
      mret 0
  end.
End Handlers.

(** * The pairs implement [CallProbe] *)

(** A count returned as a C [int]. *)
Definition int_plan (ret buf direction ptr provider : Z) : option emission :=
  if 0 <? i32 ret then
    Some {| em_buf := buf; em_len := u32 (i32 ret); em_direction := direction; em_ptr := ptr;
            em_provider := provider |}
  else None.

(** A count stored through [bytes_ptr]. *)
Definition ex_plan (e : env) (ret bytes_ptr buf direction ptr : Z) : option emission :=
  if (0 <? i32 ret) && negb (bytes_ptr =? 0) then
    match uread e bytes_ptr 8 with
    | Some bs =>
        if 0 <? le_val bs then
          Some {| em_buf := buf; em_len := u32 (le_val bs); em_direction := direction;
                  em_ptr := ptr; em_provider := PROVIDER_OPENSSL |}
        else None
    | None => None
    end
  else None.

Definition quic_plan (ret buf direction ptr : Z) : option emission :=
  if 0 <? i64 ret then
    Some {| em_buf := buf; em_len := quic_len (i64 ret); em_direction := direction;
            em_ptr := ptr; em_provider := PROVIDER_QUIC |}
  else None.

Lemma int_plan_len ret buf d ptr prov em : int_plan ret buf d ptr prov = Some em → 0 <= em_len em.
Proof. unfold int_plan. case_match; [|done]. intros [= <-]. apply u32_nonneg. Qed.

Lemma ex_plan_len e ret bp buf d ptr em : ex_plan e ret bp buf d ptr = Some em → 0 <= em_len em.
Proof.
  unfold ex_plan. case_match; [|done]. destruct (uread e bp 8); [|done].
  case_match; [|done]. intros [= <-]. apply u32_nonneg.
Qed.

Lemma quic_len_nonneg ret : 0 <= quic_len ret.
Proof. unfold quic_len. case_match; [lia|]. apply u32_nonneg. Qed.

#[export] Hint Resolve quic_len_nonneg : sensor.

Lemma quic_plan_len ret buf d ptr em : quic_plan ret buf d ptr = Some em → 0 <= em_len em.
Proof. unfold quic_plan. case_match; [|done]. intros [= <-]. apply quic_len_nonneg. Qed.

(** [remember_ssl_owner] at the end of an OpenSSL entry probe. *)
Definition owner_put (e : env) (ptr : Z) (s : kstate) : kstate :=
  put e ssl_ptr_to_pid (key_of e ptr) (e_pid_tgid e) s.

(** Run the lookup of an exit probe and split on its result. *)
Ltac run_exit :=
  run_step; run_step;
  lazymatch goal with
  | |- context [match lookup_map ?s ?m ?k with _ => _ end] =>
      destruct (lookup_map s m k) as [a|]; [|done]
  end.

(** An emission guarded by a count, then the delete. *)
Ltac run_report :=
  rewrite run_bind, ?run_emit_event by auto with sensor; cbn [fst snd]; by run_steps.

(** The same, with the count read from user memory. *)
Lemma run_ex_report b e ret bytes_ptr buf d ptr s :
  run e (if (0 <? i32 ret) && negb (bytes_ptr =? 0) then
           r ← call (bpf_probe_read_user 8 bytes_ptr);
           match r with
           | Some bs =>
               if 0 <? le_val bs then emit_event b buf (u32 (le_val bs)) d ptr PROVIDER_OPENSSL
               else mret 0
           | None => mret 0
           end
         else mret 0) s =
    (0, emit_of b e (ex_plan e ret bytes_ptr buf d ptr) s).
Proof.
  unfold ex_plan. destruct ((0 <? _) && negb _); [|done]. run_step.
  destruct (uread e bytes_ptr 8) as [bs|]; [|done].
  destruct (0 <? le_val bs); [|done]. by rewrite run_emit_event by auto with sensor.
Qed.

Ltac run_probe :=
  first
    [ done
    | intros *; by apply put_keeps_map
    | intros; apply maps_only_put
    | intros ? ? ? ?; first [apply int_plan_len | apply ex_plan_len | apply quic_plan_len]
    | intros e ctx s; run_steps; by rewrite ?run_remember_ssl_owner
    | intros e ctx s; unfold int_plan, quic_plan; run_exit;
      destruct (0 <? _); run_report
    | intros e ctx s; run_exit; rewrite run_bind, run_ex_report; cbn [snd]; by run_steps ].

#[export, refine] Instance ssl_write_probe b :
    CallProbe b ssl_write_args ssl_write_entry (ssl_write_exit b) := {|
  cp_key e _ := Some (e_pid_tgid e : lru_key ssl_write_args);
  cp_args _ ctx := {| wa_ssl_ptr := PT_REGS_PARM1 ctx; wa_buf := PT_REGS_PARM2 ctx;
                     wa_len := u32 (PT_REGS_PARM3 ctx) |};
  cp_before _ _ s := s;
  cp_after e ctx s := owner_put e (PT_REGS_PARM1 ctx) s;
  cp_plan e ctx a := int_plan (PT_REGS_RC ctx) (wa_buf a) 1 (wa_ssl_ptr a) PROVIDER_OPENSSL
|}.
Proof. all: unfold ssl_write_entry, ssl_write_exit; run_probe. Defined.

#[export, refine] Instance ssl_read_probe b :
    CallProbe b ssl_read_args ssl_read_entry (ssl_read_exit b) := {|
  cp_key e _ := Some (e_pid_tgid e : lru_key ssl_read_args);
  cp_args _ ctx := {| ra_ssl_ptr := PT_REGS_PARM1 ctx; ra_buf := PT_REGS_PARM2 ctx;
                     ra_len := u32 (PT_REGS_PARM3 ctx) |};
  cp_before _ _ s := s;
  cp_after e ctx s := owner_put e (PT_REGS_PARM1 ctx) s;
  cp_plan e ctx a := int_plan (PT_REGS_RC ctx) (ra_buf a) 0 (ra_ssl_ptr a) PROVIDER_OPENSSL
|}.
Proof. all: unfold ssl_read_entry, ssl_read_exit; run_probe. Defined.

#[export, refine] Instance gnutls_send_probe b :
    CallProbe b gnutls_write_args gnutls_send_entry (gnutls_send_exit b) := {|
  cp_key e _ := Some (e_pid_tgid e : lru_key gnutls_write_args);
  cp_args _ ctx := {| wa_ssl_ptr := PT_REGS_PARM1 ctx; wa_buf := PT_REGS_PARM2 ctx;
                     wa_len := u32 (PT_REGS_PARM3 ctx) |};
  cp_before _ _ s := s;
  cp_after e ctx s := s;
  cp_plan e ctx a := int_plan (PT_REGS_RC ctx) (wa_buf a) 1 (wa_ssl_ptr a) PROVIDER_GNUTLS
|}.
Proof. all: unfold gnutls_send_entry, gnutls_send_exit; run_probe. Defined.

#[export, refine] Instance gnutls_recv_probe b :
    CallProbe b gnutls_read_args gnutls_recv_entry (gnutls_recv_exit b) := {|
  cp_key e _ := Some (e_pid_tgid e : lru_key gnutls_read_args);
  cp_args _ ctx := {| ra_ssl_ptr := PT_REGS_PARM1 ctx; ra_buf := PT_REGS_PARM2 ctx;
                     ra_len := u32 (PT_REGS_PARM3 ctx) |};
  cp_before _ _ s := s;
  cp_after e ctx s := s;
  cp_plan e ctx a := int_plan (PT_REGS_RC ctx) (ra_buf a) 0 (ra_ssl_ptr a) PROVIDER_GNUTLS
|}.
Proof. all: unfold gnutls_recv_entry, gnutls_recv_exit; run_probe. Defined.

#[export, refine] Instance nss_write_probe b :
    CallProbe b ssl_write_args nss_write_entry (nss_write_exit b) := {|
  cp_key e _ := Some (e_pid_tgid e : lru_key ssl_write_args);
  cp_args _ ctx := {| wa_ssl_ptr := PT_REGS_PARM1 ctx; wa_buf := PT_REGS_PARM2 ctx;
                     wa_len := u32 (PT_REGS_PARM3 ctx) |};
  cp_before _ _ s := s;
  cp_after e ctx s := s;
  cp_plan e ctx a := int_plan (PT_REGS_RC ctx) (wa_buf a) 1 (wa_ssl_ptr a) PROVIDER_NSS
|}.
Proof. all: unfold nss_write_entry, nss_write_exit; run_probe. Defined.

#[export, refine] Instance nss_read_probe b :
    CallProbe b ssl_read_args nss_read_entry (nss_read_exit b) := {|
  cp_key e _ := Some (e_pid_tgid e : lru_key ssl_read_args);
  cp_args _ ctx := {| ra_ssl_ptr := PT_REGS_PARM1 ctx; ra_buf := PT_REGS_PARM2 ctx;
                     ra_len := u32 (PT_REGS_PARM3 ctx) |};
  cp_before _ _ s := s;
  cp_after e ctx s := s;
  cp_plan e ctx a := int_plan (PT_REGS_RC ctx) (ra_buf a) 0 (ra_ssl_ptr a) PROVIDER_NSS
|}.
Proof. all: unfold nss_read_entry, nss_read_exit; run_probe. Defined.

#[export, refine] Instance ssl_read_ex_probe b :
    CallProbe b ssl_read_ex_args ssl_read_ex_entry (ssl_read_ex_exit b) := {|
  cp_key e _ := Some (e_pid_tgid e : lru_key ssl_read_ex_args);
  cp_args _ ctx := {| rx_ssl_ptr := PT_REGS_PARM1 ctx; rx_buf := PT_REGS_PARM2 ctx;
                     rx_len := PT_REGS_PARM3 ctx; rx_bytes_ptr := PT_REGS_PARM4 ctx |};
  cp_before _ _ s := s;
  cp_after e ctx s := owner_put e (PT_REGS_PARM1 ctx) s;
  cp_plan e ctx a := ex_plan e (PT_REGS_RC ctx) (rx_bytes_ptr a) (rx_buf a) 0 (rx_ssl_ptr a)
|}.
Proof. all: unfold ssl_read_ex_entry, ssl_read_ex_exit; run_probe. Defined.

#[export, refine] Instance ssl_write_ex_probe b :
    CallProbe b ssl_write_ex_args ssl_write_ex_entry (ssl_write_ex_exit b) := {|
  cp_key e _ := Some (e_pid_tgid e : lru_key ssl_write_ex_args);
  cp_args _ ctx := {| wx_ssl_ptr := PT_REGS_PARM1 ctx; wx_buf := PT_REGS_PARM2 ctx;
                     wx_len := PT_REGS_PARM3 ctx; wx_bytes_ptr := PT_REGS_PARM4 ctx |};
  cp_before _ _ s := s;
  cp_after e ctx s := owner_put e (PT_REGS_PARM1 ctx) s;
  cp_plan e ctx a := ex_plan e (PT_REGS_RC ctx) (wx_bytes_ptr a) (wx_buf a) 1 (wx_ssl_ptr a)
|}.
Proof. all: unfold ssl_write_ex_entry, ssl_write_ex_exit; run_probe. Defined.

#[export, refine] Instance quic_stream_recv_probe b :
    CallProbe b quic_recv_args quic_stream_recv_entry (quic_stream_recv_exit b) := {|
  cp_key e _ := Some (e_pid_tgid e : lru_key quic_recv_args);
  cp_args _ ctx := quic_args_of ctx;
  cp_before _ _ s := s;
  cp_after e ctx s := s;
  cp_plan e ctx a := quic_plan (PT_REGS_RC ctx) (qa_buf a) 0 (qa_conn_ptr a)
|}.
Proof. all: unfold quic_stream_recv_entry, quic_stream_recv_exit; run_probe. Defined.

#[export, refine] Instance quic_stream_send_probe b :
    CallProbe b quic_send_args quic_stream_send_entry (quic_stream_send_exit b) := {|
  cp_key e _ := Some (e_pid_tgid e : lru_key quic_send_args);
  cp_args _ ctx := quic_args_of ctx;
  cp_before _ _ s := s;
  cp_after e ctx s := s;
  cp_plan e ctx a := quic_plan (PT_REGS_RC ctx) (qa_buf a) 1 (qa_conn_ptr a)
|}.
Proof. all: unfold quic_stream_send_entry, quic_stream_send_exit; run_probe. Defined.

