(* ===== verification/Ktls.v ===== *)
(** The kernel-TLS probes of [bpf/http_trace.bpf.c]: [ktls_save_args] and the handlers on
    [tls_sw_sendmsg] and [tls_sw_recvmsg]. *)

From S2P Require Import Prelude Abi Kernel Logic TlsState Emit EmitProps Conn Calls Probes.

(** * The code *)

Section Handlers.
Context (cfg_use_dynptr : bool).

(** The arguments are those of the first segment; the socket becomes the thread's connection. *)
Definition ktls_save_args (sk msg : Z) (args : ktls_args) : prog ktls_args :=
  let args := args <| ka_sock_ptr := sk |> in
  iov ← core_read 8 msg_iter_iov msg;
  args ← (if negb (iov =? 0) then
            base ← core_read 8 iovec_iov_base iov;
            len ← core_read 8 iovec_iov_len iov;
            mret (args <| ka_iov_base := base |> <| ka_iov_len := u32 len |>)
          else mret args);
  _ ← when (negb (sk =? 0))
        (info ← fill_conn_info conn_info_zero sk;
         pid_tgid ← call bpf_get_current_pid_tgid;
         _ ← call (bpf_map_update_elem active_connections pid_tgid info BPF_ANY);
         _ ← call (bpf_map_update_elem sock_to_pid sk pid_tgid BPF_ANY);
         mret tt);
  mret args.

Definition ktls_send_entry (ctx : pt_regs) : prog Z :=
  let sk := PT_REGS_PARM1 ctx in
  let msg := PT_REGS_PARM2 ctx in
  args ← ktls_save_args sk msg ktls_args_zero;
  pid_tgid ← call bpf_get_current_pid_tgid;
  _ ← call (bpf_map_update_elem ktls_sendmsg_args pid_tgid args BPF_ANY);
  mret 0.

Definition ktls_send_exit (ctx : pt_regs) : prog Z :=
  pid_tgid ← call bpf_get_current_pid_tgid;
  args ← call (bpf_map_lookup_elem ktls_sendmsg_args pid_tgid);
  match (args : option ktls_args) with
  | None => mret 0
  | Some args =>
      let ret := i32 (PT_REGS_RC ctx) in
      _ ← (if (0 <? ret) && negb (ka_iov_base args =? 0)
           then emit_event cfg_use_dynptr (ka_iov_base args) (u32 ret) 1 (ka_sock_ptr args)
                  PROVIDER_KTLS
           else mret 0);
      _ ← call (bpf_map_delete_elem ktls_sendmsg_args pid_tgid);
      mret 0
  end.

Definition ktls_recv_entry (ctx : pt_regs) : prog Z :=
  let sk := PT_REGS_PARM1 ctx in
  let msg := PT_REGS_PARM2 ctx in
  args ← ktls_save_args sk msg ktls_args_zero;
  pid_tgid ← call bpf_get_current_pid_tgid;
  _ ← call (bpf_map_update_elem ktls_recvmsg_args pid_tgid args BPF_ANY);
  mret 0.

Definition ktls_recv_exit (ctx : pt_regs) : prog Z :=
  pid_tgid ← call bpf_get_current_pid_tgid;
  args ← call (bpf_map_lookup_elem ktls_recvmsg_args pid_tgid);
  match (args : option ktls_args) with
  | None => mret 0
  | Some args =>
      let ret := i32 (PT_REGS_RC ctx) in
      _ ← (if (0 <? ret) && negb (ka_iov_base args =? 0)
           then emit_event cfg_use_dynptr (ka_iov_base args) (u32 ret) 0 (ka_sock_ptr args)
                  PROVIDER_KTLS
           else mret 0);
      _ ← call (bpf_map_delete_elem ktls_recvmsg_args pid_tgid);
      mret 0
  end.
End Handlers.

(** * Closed forms *)

Definition ktls_args_of (e : env) (ctx : pt_regs) : ktls_args :=
  let iov := kread_int e 8 msg_iter_iov (PT_REGS_PARM2 ctx) in
  if negb (iov =? 0) then
    {| ka_iov_base := kread_int e 8 iovec_iov_base iov;
       ka_iov_len := u32 (kread_int e 8 iovec_iov_len iov);
       ka_sock_ptr := PT_REGS_PARM1 ctx |}
  else {| ka_iov_base := 0; ka_iov_len := 0; ka_sock_ptr := PT_REGS_PARM1 ctx |}.

(** What an entry probe records about the connection, before it saves its arguments. *)
Definition ktls_conn (e : env) (sk : Z) (s : kstate) : kstate :=
  if negb (sk =? 0) then
    put e sock_to_pid sk (e_pid_tgid e)
      (put e active_connections (e_pid_tgid e) (conn_of e sk 0) s)
  else s.

Lemma run_first_segment e iov args s :
  run e (if negb (iov =? 0) then
           base ← core_read 8 iovec_iov_base iov;
           len ← core_read 8 iovec_iov_len iov;
           mret (args <| ka_iov_base := base |> <| ka_iov_len := u32 len |>)
         else mret args) s =
    (if negb (iov =? 0) then
       args <| ka_iov_base := kread_int e 8 iovec_iov_base iov |>
            <| ka_iov_len := u32 (kread_int e 8 iovec_iov_len iov) |>
     else args, s).
Proof.
  destruct (negb _); [|done]. do 2 (rewrite run_bind, run_core_read; cbn [fst snd]). done.
Qed.

Lemma run_ktls_save_args e ctx s :
  run e (ktls_save_args (PT_REGS_PARM1 ctx) (PT_REGS_PARM2 ctx) ktls_args_zero) s =
    (ktls_args_of e ctx, ktls_conn e (PT_REGS_PARM1 ctx) s).
Proof.
  unfold ktls_save_args, ktls_args_of, ktls_conn. cbv zeta.
  rewrite run_bind, run_core_read. cbn [fst snd]. rewrite run_bind, run_first_segment.
  cbn [fst snd]. rewrite run_bind, run_when. destruct (negb (PT_REGS_PARM1 ctx =? 0)); [|done].
  rewrite run_bind, run_fill_conn_info. cbn [fst snd]. run_step.
  rewrite 2!run_bind, !run_update. done.
Qed.

Definition ktls_plan (ret : Z) (a : ktls_args) (direction : Z) : option emission :=
  if (0 <? i32 ret) && negb (ka_iov_base a =? 0) then
    Some {| em_buf := ka_iov_base a; em_len := u32 (i32 ret); em_direction := direction;
            em_ptr := ka_sock_ptr a; em_provider := PROVIDER_KTLS |}
  else None.

Lemma ktls_plan_len ret a d em : ktls_plan ret a d = Some em → 0 <= em_len em.
Proof. unfold ktls_plan. case_match; [|done]. intros [= <-]. apply u32_nonneg. Qed.

Lemma ktls_conn_map e sk s m :
  m ≠ sock_to_pid → m ≠ active_connections → k_maps (ktls_conn e sk s) m = k_maps s m.
Proof.
  intros H1 H2. unfold ktls_conn. destruct (negb _); [|done].
  by rewrite !put_keeps_map.
Qed.

Lemma ktls_conn_other e sk s : maps_only s (ktls_conn e sk s).
Proof.
  unfold ktls_conn. destruct (negb _); [|reflexivity].
  etransitivity; [apply (maps_only_put e active_connections)|apply (maps_only_put e sock_to_pid)].
Qed.

(** Each of the two pairs runs the same way. *)
Ltac run_ktls_probe :=
  first
    [ done
    | intros ? ? ? ?; apply ktls_plan_len
    | intros; apply ktls_conn_other
    | intros e ctx s; by apply ktls_conn_map
    | intros e ctx s; cbv zeta; rewrite run_bind, run_ktls_save_args; cbn [fst snd];
      run_step; by rewrite run_bind, run_update
    | intros e ctx s; unfold ktls_plan; run_exit; destruct ((0 <? _) && negb _); run_report ].

#[export, refine] Instance ktls_send_probe b :
    CallProbe b ktls_sendmsg_args ktls_send_entry (ktls_send_exit b) := {|
  cp_key e _ := Some (e_pid_tgid e : lru_key ktls_sendmsg_args);
  cp_args e ctx := ktls_args_of e ctx;
  cp_before e ctx s := ktls_conn e (PT_REGS_PARM1 ctx) s;
  cp_after _ _ s := s;
  cp_plan e ctx a := ktls_plan (PT_REGS_RC ctx) a 1
|}.
Proof. all: unfold ktls_send_entry, ktls_send_exit; run_ktls_probe. Defined.

#[export, refine] Instance ktls_recv_probe b :
    CallProbe b ktls_recvmsg_args ktls_recv_entry (ktls_recv_exit b) := {|
  cp_key e _ := Some (e_pid_tgid e : lru_key ktls_recvmsg_args);
  cp_args e ctx := ktls_args_of e ctx;
  cp_before e ctx s := ktls_conn e (PT_REGS_PARM1 ctx) s;
  cp_after _ _ s := s;
  cp_plan e ctx a := ktls_plan (PT_REGS_RC ctx) a 0
|}.
Proof. all: unfold ktls_recv_entry, ktls_recv_exit; run_ktls_probe. Defined.
