(* ===== verification/GoTls.v ===== *)
(** The Go [crypto/tls] probes of [bpf/http_trace.bpf.c]. Go moves goroutines between threads, so
    a call is paired by its goroutine, found in a register that depends on the architecture the
    object is compiled for ([arch]). *)

From S2P Require Import Prelude Abi Kernel Logic TlsState Emit EmitProps Calls Probes.

(** * The code *)

Section Handlers.
Context (cfg_use_dynptr : bool) (arch : target_arch).

(** [go_call_key_for] returns 0, or fills the key and returns 1. *)
Definition go_call_key_for (ctx : pt_regs) : prog (option go_call_key) :=
  let g := match arch with
           | arch_x86 => r_r14 ctx
           | arch_arm64 => r_regs ctx 28
           | arch_other => 0
           end in
  if g =? 0 then mret None else
  pid_tgid ← call bpf_get_current_pid_tgid;
  mret (Some {| gk_tgid := u32 (Z.shiftr pid_tgid 32); gk__pad := 0; gk_g := g |}).

Definition go_ret_len (n buf_len : Z) : Z :=
  if n <=? 0 then 0 else
  if buf_len <? u64 n then buf_len else
  u32 n.

(** [len > 0xFFFFFFFFULL ? 0xFFFFFFFFU : (__u32)len] *)
Definition go_buf_len (len : Z) : Z := if 4294967295 <? len then 4294967295 else u32 len.

(** The registers that hold [conn], [buf.ptr] and [buf.len] at entry, and [n] at exit. *)
Definition go_write_args_of (ctx : pt_regs) : go_write_args :=
  match arch with
  | arch_x86 => {| gw_conn_ptr := r_ax ctx; gw_buf_ptr := r_bx ctx;
                   gw_buf_len := go_buf_len (r_cx ctx); gw__pad := 0 |}
  | arch_arm64 => {| gw_conn_ptr := r_regs ctx 0; gw_buf_ptr := r_regs ctx 1;
                     gw_buf_len := go_buf_len (r_regs ctx 2); gw__pad := 0 |}
  | arch_other => {| gw_conn_ptr := 0; gw_buf_ptr := 0; gw_buf_len := 0; gw__pad := 0 |}
  end.

Definition go_read_args_of (ctx : pt_regs) : go_read_args :=
  match arch with
  | arch_x86 => {| gr_conn_ptr := r_ax ctx; gr_buf_ptr := r_bx ctx;
                   gr_buf_len := go_buf_len (r_cx ctx); gr__pad := 0 |}
  | arch_arm64 => {| gr_conn_ptr := r_regs ctx 0; gr_buf_ptr := r_regs ctx 1;
                     gr_buf_len := go_buf_len (r_regs ctx 2); gr__pad := 0 |}
  | arch_other => {| gr_conn_ptr := 0; gr_buf_ptr := 0; gr_buf_len := 0; gr__pad := 0 |}
  end.

Definition go_ret (ctx : pt_regs) : Z :=
  match arch with
  | arch_x86 => i64 (r_ax ctx)
  | arch_arm64 => i64 (r_regs ctx 0)
  | arch_other => 0
  end.

Definition go_tls_write_entry (ctx : pt_regs) : prog Z :=
  k ← go_call_key_for ctx;
  match k with
  | None => mret 0
  | Some k =>
      _ ← call (bpf_map_update_elem go_tls_write_args k (go_write_args_of ctx) BPF_ANY);
      mret 0
  end.

Definition go_tls_write_exit (ctx : pt_regs) : prog Z :=
  k ← go_call_key_for ctx;
  match k with
  | None => mret 0
  | Some k =>
      args ← call (bpf_map_lookup_elem go_tls_write_args k);
      match (args : option go_write_args) with
      | None => mret 0
      | Some args =>
          let n := go_ret_len (go_ret ctx) (gw_buf_len args) in
          _ ← (if 0 <? n
               then emit_event cfg_use_dynptr (gw_buf_ptr args) n 1 (gw_conn_ptr args)
                      PROVIDER_GO_TLS
               else mret 0);
          _ ← call (bpf_map_delete_elem go_tls_write_args k);
          mret 0
      end
  end.

Definition go_tls_read_entry (ctx : pt_regs) : prog Z :=
  k ← go_call_key_for ctx;
  match k with
  | None => mret 0
  | Some k =>
      _ ← call (bpf_map_update_elem go_tls_read_args k (go_read_args_of ctx) BPF_ANY);
      mret 0
  end.

Definition go_tls_read_exit (ctx : pt_regs) : prog Z :=
  k ← go_call_key_for ctx;
  match k with
  | None => mret 0
  | Some k =>
      args ← call (bpf_map_lookup_elem go_tls_read_args k);
      match (args : option go_read_args) with
      | None => mret 0
      | Some args =>
          let n := go_ret_len (go_ret ctx) (gr_buf_len args) in
          _ ← (if 0 <? n
               then emit_event cfg_use_dynptr (gr_buf_ptr args) n 0 (gr_conn_ptr args)
                      PROVIDER_GO_TLS
               else mret 0);
          _ ← call (bpf_map_delete_elem go_tls_read_args k);
          mret 0
      end
  end.
End Handlers.

(** * Closed forms *)

(** The goroutine register. *)
Definition go_g (arch : target_arch) (ctx : pt_regs) : Z :=
  match arch with arch_x86 => r_r14 ctx | arch_arm64 => r_regs ctx 28 | arch_other => 0 end.

Definition go_key (arch : target_arch) (e : env) (ctx : pt_regs) : option go_call_key :=
  if go_g arch ctx =? 0 then None
  else Some {| gk_tgid := tgid_of (e_pid_tgid e); gk__pad := 0; gk_g := go_g arch ctx |}.

Lemma run_go_call_key_for arch e ctx s :
  run e (go_call_key_for arch ctx) s = (go_key arch e ctx, s).
Proof. unfold go_call_key_for, go_key, go_g. cbv zeta. by destruct arch, (_ =? 0). Qed.

Lemma go_ret_len_range n buf_len : 0 <= buf_len → 0 <= go_ret_len n buf_len <= buf_len.
Proof.
  intros Hb. unfold go_ret_len. destruct (n <=? 0) eqn:E1; [lia|].
  destruct (buf_len <? u64 n) eqn:E2; [lia|]. zbool.
  assert (u32 n = u32 (u64 n)) as ->.
  { unfold wrap. rewrite <- Znumtheory.Zmod_div_mod; [done|lia|lia|]. by exists (2 ^ 32). }
  pose proof (wrap_range 64 n ltac:(lia)) as [Hn _].
  pose proof (wrap_range 32 (u64 n) ltac:(lia)) as [H0 _].
  pose proof (Z.mod_le (u64 n) (2 ^ 32) Hn ltac:(lia)) as Hle.
  change (u64 n mod 2 ^ 32) with (u32 (u64 n)) in Hle. lia.
Qed.

(** [n] bytes were transferred, within what the caller offered. *)
Lemma go_ret_len_spec n buf_len :
  0 <= buf_len < 2 ^ 32 → n < 2 ^ 63 →
  go_ret_len n buf_len = Z.max 0 (Z.min n buf_len).
Proof.
  intros Hb Hn. unfold go_ret_len. destruct (n <=? 0) eqn:E1; zbool; [lia|].
  rewrite (wrap_small 64) by lia.
  destruct (buf_len <? n) eqn:E2; zbool; [lia|]. rewrite wrap_small by lia. lia.
Qed.

Lemma go_buf_len_range len : 0 <= go_buf_len len < 2 ^ 32.
Proof. unfold go_buf_len. case_match; [lia|]. by apply wrap_range. Qed.

Lemma go_buf_len_min len : 0 <= len → go_buf_len len = Z.min len (2 ^ 32 - 1).
Proof.
  intros Hl. unfold go_buf_len. case_match; zbool; [lia|]. rewrite wrap_small by lia. lia.
Qed.

Definition go_plan (n buf_len buf direction ptr : Z) : option emission :=
  if 0 <? go_ret_len n buf_len then
    Some {| em_buf := buf; em_len := go_ret_len n buf_len; em_direction := direction;
            em_ptr := ptr; em_provider := PROVIDER_GO_TLS |}
  else None.

Lemma go_plan_len n bl buf d ptr em : go_plan n bl buf d ptr = Some em → 0 <= em_len em.
Proof. unfold go_plan. case_match; [|done]. intros [= <-]. cbn. lia. Qed.

Ltac run_go_exit :=
  rewrite run_bind, run_go_call_key_for; cbn [fst snd];
  lazymatch goal with |- context [go_key ?a ?e ?c] => destruct (go_key a e c) as [k|]; [|done] end;
  run_step;
  lazymatch goal with
  | |- context [match lookup_map ?s ?m ?k with _ => _ end] =>
      destruct (lookup_map s m k) as [a|]; [|done]
  end; unfold go_plan; destruct (0 <? go_ret_len _ _) eqn:Hn; zbool;
  rewrite run_bind, ?run_emit_event by lia; cbn [fst snd]; by run_steps.

Ltac run_go_probe :=
  first
    [ done
    | intros ? ? ? ?; apply go_plan_len
    | intros e ctx s; run_go_exit
    | intros e ctx s; rewrite run_bind, run_go_call_key_for; cbn [fst snd];
      destruct (go_key _ e ctx); [|done]; by rewrite run_bind, run_update ].

#[export, refine] Instance go_tls_write_probe b arch :
    CallProbe b go_tls_write_args (go_tls_write_entry arch) (go_tls_write_exit b arch) := {|
  cp_key e ctx := (go_key arch e ctx : option (lru_key go_tls_write_args));
  cp_args _ ctx := go_write_args_of arch ctx;
  cp_before _ _ s := s;
  cp_after _ _ s := s;
  cp_plan _ ctx a := go_plan (go_ret arch ctx) (gw_buf_len a) (gw_buf_ptr a) 1 (gw_conn_ptr a)
|}.
Proof. all: unfold go_tls_write_entry, go_tls_write_exit; run_go_probe. Defined.

#[export, refine] Instance go_tls_read_probe b arch :
    CallProbe b go_tls_read_args (go_tls_read_entry arch) (go_tls_read_exit b arch) := {|
  cp_key e ctx := (go_key arch e ctx : option (lru_key go_tls_read_args));
  cp_args _ ctx := go_read_args_of arch ctx;
  cp_before _ _ s := s;
  cp_after _ _ s := s;
  cp_plan _ ctx a := go_plan (go_ret arch ctx) (gr_buf_len a) (gr_buf_ptr a) 0 (gr_conn_ptr a)
|}.
Proof. all: unfold go_tls_read_entry, go_tls_read_exit; run_go_probe. Defined.
