(* ===== verification/CallSites.v ===== *)
(** The fourteen library calls the sensor brackets with an entry and an exit probe, and the
    properties they share: what a completed call reports, what an unpaired or failed one does not,
    how calls on one thread interfere, and how Go calls pair. *)

From S2P Require Import Prelude Abi Kernel Logic Sampling Fixture TlsState Emit EmitProps Conn.
From S2P Require Import Lifecycle Calls Probes Ktls GoTls.

Inductive site :=
  | SslWrite | SslRead | SslWriteEx | SslReadEx | GnutlsSend | GnutlsRecv
  | NssWrite | NssRead | QuicSend | QuicRecv | KtlsSend | KtlsRecv | GoWrite | GoRead.

Definition site_map (c : site) : lru :=
  match c with
  | SslWrite | NssWrite => ssl_write_args
  | SslRead | NssRead => ssl_read_args
  | SslWriteEx => ssl_write_ex_args
  | SslReadEx => ssl_read_ex_args
  | GnutlsSend => gnutls_write_args
  | GnutlsRecv => gnutls_read_args
  | QuicSend => quic_send_args
  | QuicRecv => quic_recv_args
  | KtlsSend => ktls_sendmsg_args
  | KtlsRecv => ktls_recvmsg_args
  | GoWrite => go_tls_write_args
  | GoRead => go_tls_read_args
  end.

(** The pair of handlers attached to each call. *)
Definition site_entry (arch : target_arch) (c : site) : pt_regs → prog Z :=
  match c with
  | SslWrite => ssl_write_entry | SslRead => ssl_read_entry
  | SslWriteEx => ssl_write_ex_entry | SslReadEx => ssl_read_ex_entry
  | GnutlsSend => gnutls_send_entry | GnutlsRecv => gnutls_recv_entry
  | NssWrite => nss_write_entry | NssRead => nss_read_entry
  | QuicSend => quic_stream_send_entry | QuicRecv => quic_stream_recv_entry
  | KtlsSend => ktls_send_entry | KtlsRecv => ktls_recv_entry
  | GoWrite => go_tls_write_entry arch | GoRead => go_tls_read_entry arch
  end.

Definition site_exit (b : bool) (arch : target_arch) (c : site) : pt_regs → prog Z :=
  match c with
  | SslWrite => ssl_write_exit b | SslRead => ssl_read_exit b
  | SslWriteEx => ssl_write_ex_exit b | SslReadEx => ssl_read_ex_exit b
  | GnutlsSend => gnutls_send_exit b | GnutlsRecv => gnutls_recv_exit b
  | NssWrite => nss_write_exit b | NssRead => nss_read_exit b
  | QuicSend => quic_stream_send_exit b | QuicRecv => quic_stream_recv_exit b
  | KtlsSend => ktls_send_exit b | KtlsRecv => ktls_recv_exit b
  | GoWrite => go_tls_write_exit b arch | GoRead => go_tls_read_exit b arch
  end.

#[export] Instance site_probe b arch c :
  CallProbe b (site_map c) (site_entry arch c) (site_exit b arch c).
Proof. destruct c; cbn; apply _. Defined.

(** * What a call is: its direction, its library, its object and buffer at entry *)

Definition site_direction (c : site) : Z :=
  match c with
  | SslWrite | SslWriteEx | GnutlsSend | NssWrite | QuicSend | KtlsSend | GoWrite => 1
  | SslRead | SslReadEx | GnutlsRecv | NssRead | QuicRecv | KtlsRecv | GoRead => 0
  end.

Definition site_provider (c : site) : Z :=
  match c with
  | SslWrite | SslRead | SslWriteEx | SslReadEx => PROVIDER_OPENSSL
  | GnutlsSend | GnutlsRecv => PROVIDER_GNUTLS
  | NssWrite | NssRead => PROVIDER_NSS
  | QuicSend | QuicRecv => PROVIDER_QUIC
  | KtlsSend | KtlsRecv => PROVIDER_KTLS
  | GoWrite | GoRead => PROVIDER_GO_TLS
  end.

(** The [n]-th integer argument under Go's register ABI. *)
Definition go_arg (arch : target_arch) (ctx : pt_regs) (n : Z) : Z :=
  match arch with
  | arch_x86 => if n =? 0 then r_ax ctx else if n =? 1 then r_bx ctx else r_cx ctx
  | arch_arm64 => r_regs ctx n
  | arch_other => 0
  end.

Definition site_ptr (arch : target_arch) (c : site) (ctx : pt_regs) : Z :=
  match c with
  | GoWrite | GoRead => go_arg arch ctx 0
  | _ => PT_REGS_PARM1 ctx
  end.

Definition first_segment (e : env) (ctx : pt_regs) : Z * Z :=
  let iov := kread_int e 8 msg_iter_iov (PT_REGS_PARM2 ctx) in
  if iov =? 0 then (0, 0)
  else (kread_int e 8 iovec_iov_base iov, kread_int e 8 iovec_iov_len iov).

Definition site_buf (arch : target_arch) (c : site) (e : env) (ctx : pt_regs) : Z :=
  match c with
  | GoWrite | GoRead => go_arg arch ctx 1
  | QuicSend | QuicRecv => PT_REGS_PARM3 ctx
  | KtlsSend | KtlsRecv => (first_segment e ctx).1
  | _ => PT_REGS_PARM2 ctx
  end.

(** The number of bytes a completed call reports: entry in [e1]/[ctx1], return in [e2]/[ctx2].
    [None] is a call that transferred nothing. *)
Definition site_len (arch : target_arch) (c : site) (e1 : env) (ctx1 : pt_regs) (e2 : env)
    (ctx2 : pt_regs) : option Z :=
  let positive n := if 0 <? n then Some n else None in
  match c with
  | SslWrite | SslRead | GnutlsSend | GnutlsRecv | NssWrite | NssRead =>
      positive (i32 (PT_REGS_RC ctx2))
  | KtlsSend | KtlsRecv =>
      if (first_segment e1 ctx1).1 =? 0 then None else positive (i32 (PT_REGS_RC ctx2))
  | SslWriteEx | SslReadEx =>
      if (0 <? i32 (PT_REGS_RC ctx2)) && negb (PT_REGS_PARM4 ctx1 =? 0) then
        bs ← uread e2 (PT_REGS_PARM4 ctx1) 8;
        n ← positive (le_val bs);
        Some (u32 n)
      else None
  | QuicSend | QuicRecv => n ← positive (i64 (PT_REGS_RC ctx2)); Some (Z.min n (2 ^ 32 - 1))
  | GoWrite | GoRead =>
      let offered := go_buf_len (go_arg arch ctx1 2) in
      positive (Z.min (i64 (go_arg arch ctx2 0)) offered)
  end.

(** The two probes see the same call: the same thread, or for Go the same goroutine. *)
Definition same_call (arch : target_arch) (c : site) (e1 : env) (ctx1 : pt_regs) (e2 : env)
    (ctx2 : pt_regs) : Prop :=
  match c with
  | GoWrite | GoRead =>
      tgid_of (e_pid_tgid e2) = tgid_of (e_pid_tgid e1) ∧
      go_g arch ctx2 = go_g arch ctx1 ∧ go_g arch ctx1 ≠ 0
  | _ => e_pid_tgid e2 = e_pid_tgid e1
  end.

Definition site_emission (arch : target_arch) (c : site) (e1 : env) (ctx1 : pt_regs) (e2 : env)
    (ctx2 : pt_regs) : option emission :=
  n ← site_len arch c e1 ctx1 e2 ctx2;
  Some {| em_buf := site_buf arch c e1 ctx1; em_len := n; em_direction := site_direction c;
          em_ptr := site_ptr arch c ctx1; em_provider := site_provider c |}.

(** The slot of the argument map a call uses. *)
Definition site_key (arch : target_arch) (c : site) (e : env) (ctx : pt_regs)
    : option (lru_key (site_map c)) :=
  match c return option (lru_key (site_map c)) with
  | GoWrite => go_key arch e ctx
  | GoRead => go_key arch e ctx
  | _ => Some (e_pid_tgid e)
  end.

(** * From the interface to the calls *)

Section Site.
Context (b : bool) (arch : target_arch) (c : site).
Notation P := (site_probe b arch c).

Lemma i32_small z : 0 < i32 z → u32 (i32 z) = i32 z.
Proof. intros Hz. apply wrap_small. pose proof (sext_range 32 z ltac:(lia)). lia. Qed.

Lemma quic_len_min z : 0 < z → quic_len z = Z.min z (2 ^ 32 - 1).
Proof.
  intros Hz. unfold quic_len. case_match; zbool; [lia|]. rewrite wrap_small by lia. lia.
Qed.

Lemma site_key_cp e ctx : cp_key (CallProbe := P) e ctx = site_key arch c e ctx.
Proof. by destruct c. Qed.

Lemma same_call_key e1 ctx1 e2 ctx2 :
  same_call arch c e1 ctx1 e2 ctx2 →
  ∃ k, site_key arch c e1 ctx1 = Some k ∧ site_key arch c e2 ctx2 = Some k.
Proof.
  destruct c; cbn; try (intros ->; eauto; fail);
    intros (Ht & Hg & H0); unfold go_key; rewrite Ht, Hg;
    apply Z.eqb_neq in H0; rewrite H0; eauto.
Qed.

Lemma go_write_args_regs ctx :
  gw_conn_ptr (go_write_args_of arch ctx) = go_arg arch ctx 0 ∧
  gw_buf_ptr (go_write_args_of arch ctx) = go_arg arch ctx 1 ∧
  gw_buf_len (go_write_args_of arch ctx) = go_buf_len (go_arg arch ctx 2).
Proof. by destruct arch. Qed.

Lemma go_read_args_regs ctx :
  gr_conn_ptr (go_read_args_of arch ctx) = go_arg arch ctx 0 ∧
  gr_buf_ptr (go_read_args_of arch ctx) = go_arg arch ctx 1 ∧
  gr_buf_len (go_read_args_of arch ctx) = go_buf_len (go_arg arch ctx 2).
Proof. by destruct arch. Qed.

Lemma go_ret_arg ctx : go_ret arch ctx = i64 (go_arg arch ctx 0).
Proof. by destruct arch. Qed.

Lemma go_plan_min z bl buf d ptr :
  0 <= bl < 2 ^ 32 →
  go_plan (i64 z) bl buf d ptr =
    if 0 <? Z.min (i64 z) bl then
      Some {| em_buf := buf; em_len := Z.min (i64 z) bl; em_direction := d; em_ptr := ptr;
              em_provider := PROVIDER_GO_TLS |}
    else None.
Proof.
  intros Hb. pose proof (sext_range 64 z ltac:(lia)). unfold go_plan.
  rewrite go_ret_len_spec by lia. destruct (0 <? Z.min _ _) eqn:E; zbool.
  - rewrite Z.max_r by lia. by replace (0 <? _) with true by lia.
  - by replace (0 <? _) with false by lia.
Qed.

(** The plan of each exit probe is the report of the call. *)
Lemma plan_is_emission e1 ctx1 e2 ctx2 :
  cp_plan (CallProbe := P) e2 ctx2 (cp_args (CallProbe := P) e1 ctx1) =
    site_emission arch c e1 ctx1 e2 ctx2.
Proof.
  destruct c; cbn; unfold site_emission; cbn [site_len site_buf site_direction site_ptr
    site_provider]; cbv zeta;
    try (unfold int_plan; destruct (0 <? i32 _) eqn:E; zbool; [|done]; cbn;
         by rewrite i32_small);
    try (unfold quic_plan; destruct (0 <? i64 _) eqn:E; zbool; [|done]; cbn;
         by rewrite quic_len_min);
    try (unfold ex_plan; cbn; destruct ((0 <? _) && negb _); [|done];
         destruct (uread e2 _ 8) as [bs|]; [|done]; cbn; by destruct (0 <? le_val bs));
    try (unfold ktls_plan, ktls_args_of, first_segment; cbv zeta;
         destruct (kread_int e1 8 msg_iter_iov _ =? 0); cbn [negb fst ka_iov_base ka_sock_ptr];
         [by rewrite andb_false_r|];
         destruct (_ =? 0) eqn:Eb; cbn [negb]; [by rewrite andb_false_r|];
         rewrite andb_true_r; destruct (0 <? i32 _) eqn:E; zbool; [|done]; cbn;
         by rewrite i32_small).
  - destruct (go_write_args_regs ctx1) as (-> & -> & ->).
    rewrite go_ret_arg, go_plan_min by apply go_buf_len_range. by destruct (0 <? _).
  - destruct (go_read_args_regs ctx1) as (-> & -> & ->).
    rewrite go_ret_arg, go_plan_min by apply go_buf_len_range. by destruct (0 <? _).
Qed.

Lemma site_map_args : site_map c ≠ ssl_state_map.
Proof. by destruct c. Qed.

(** An exit that finds the arguments saved by [e1]/[ctx1]. *)
Lemma site_exit_saved e1 ctx1 e2 ctx2 s k :
  site_key arch c e2 ctx2 = Some k →
  lookup_map s (site_map c) k = Some (cp_args (CallProbe := P) e1 ctx1) →
  run e2 (site_exit b arch c ctx2) s =
    (0, del (site_map c) k (emit_of b e2 (site_emission arch c e1 ctx1 e2 ctx2) s)).
Proof.
  intros Hk Hl. rewrite <- plan_is_emission. eapply exit_reports; [|exact Hl].
  by rewrite site_key_cp.
Qed.

(** Entry, then exit of the same call. *)
Lemma site_call_run e1 ctx1 e2 ctx2 s k :
  site_key arch c e1 ctx1 = Some k → site_key arch c e2 ctx2 = Some k →
  no_pressure e1 (site_map c) →
  let s1 := (run e1 (site_entry arch c ctx1) s).2 in
  run e2 (site_exit b arch c ctx2) s1 =
    (0, del (site_map c) k (emit_of b e2 (site_emission arch c e1 ctx1 e2 ctx2) s1)).
Proof.
  intros H1 H2 Hfit. apply site_exit_saved; [done|].
  apply (entry_saves (HP := P)); [by rewrite site_key_cp|done].
Qed.

Lemma site_emission_len e1 ctx1 e2 ctx2 em :
  site_emission arch c e1 ctx1 e2 ctx2 = Some em → 0 <= em_len em.
Proof using b. rewrite <- plan_is_emission. apply (cp_plan_len (CallProbe := P)). Qed.
End Site.

Lemma unsampled_maps_only s s' : maps_only s s' → unsampled s → unsampled s'.
Proof. intros (Ha & _) Hu. unfold unsampled. by rewrite Ha. Qed.

(** * Properties *)


(** [SSL_write(7, demo_buf, 64)] returning 20 on the demo thread. *)
Definition write_ctx : pt_regs := demo_ctx 7 demo_buf 64 0.
Definition returned_20 : pt_regs := demo_ctx 0 0 0 20.


(** A completed call leaves no arguments behind, and a call that transferred nothing reports
    nothing: error and end-of-stream results, a missing count, a NULL segment or a result outside
    Go's range publish no record and count no attempt. The arguments of other calls are kept. *)
Theorem failed_call_reports_nothing (b : bool) (arch : target_arch) (c : site) (e1 e2 : env)
    (ctx1 ctx2 : pt_regs) (s : kstate) (k : lru_key (site_map c))
    (Hkey1 : site_key arch c e1 ctx1 = Some k) (Hkey2 : site_key arch c e2 ctx2 = Some k)
    (Hfit : no_pressure e1 (site_map c)) :
  let s1 := (run e1 (site_entry arch c ctx1) s).2 in
  let s2 := (run e2 (site_exit b arch c ctx2) s1).2 in
  lookup_map s2 (site_map c) k = None ∧
  (∀ k', k' ≠ k → lookup_map s2 (site_map c) k' = lookup_map s1 (site_map c) k') ∧
  (site_len arch c e1 ctx1 e2 ctx2 = None →
   maps_only s s2 ∧ ∀ m, m ≠ site_map c → k_maps s2 m = k_maps s1 m).
Proof.
  cbv zeta. rewrite (site_call_run b _ _ _ _ _ _ _ _ Hkey1 Hkey2 Hfit). cbn [snd].
  pose proof (entry_other (HP := site_probe b arch c) e1 ctx1 s) as Hs1.
  set (s1 := (run e1 (site_entry arch c ctx1) s).2) in *. split; [|split].
  - apply lookup_del_eq.
  - intros k' Hne. rewrite lookup_del_ne by done. unfold lookup_map.
    by rewrite emit_of_maps by apply site_map_args.
  - intros Hnone. unfold site_emission. rewrite Hnone. cbn [mbind option_bind emit_of]. split.
    + etransitivity; [exact Hs1|apply maps_only_del].
    + intros m Hm. unfold del. by rewrite k_maps_set_map_ne.
Qed.

Lemma failed_call_reports_nothing_witness :
  site_len arch_x86 SslRead demo_env write_ctx demo_env (demo_ctx 0 0 0 (2 ^ 32 - 1)) = None ∧
  maps_only demo_state
    (run demo_env (site_exit false arch_x86 SslRead (demo_ctx 0 0 0 (2 ^ 32 - 1)))
       (run demo_env (site_entry arch_x86 SslRead write_ctx) demo_state).2).2.
Proof.
  assert (site_len arch_x86 SslRead demo_env write_ctx demo_env (demo_ctx 0 0 0 (2 ^ 32 - 1))
          = None) as Hn by reflexivity.
  split; [exact Hn|].
  exact (proj1 (proj2 (proj2 (failed_call_reports_nothing false arch_x86 SslRead demo_env demo_env
    write_ctx (demo_ctx 0 0 0 (2 ^ 32 - 1)) demo_state demo_pid_tgid eq_refl eq_refl
    (demo_no_pressure ssl_read_args))) Hn)).
Defined.

(** An exit probe that finds no saved arguments does nothing at all: a call that was running
    when the probes were attached, a call whose entry was evicted, a second return, and a Go call
    with no goroutine leave the whole kernel state as it was. *)
Theorem unpaired_exit_is_silent (b : bool) (arch : target_arch) (c : site) (e : env)
    (ctx : pt_regs) (s : kstate)
    (Hno : ∀ k, site_key arch c e ctx = Some k → lookup_map s (site_map c) k = None) :
  run e (site_exit b arch c ctx) s = (0, s).
Proof.
  apply (exit_unpaired (HP := site_probe b arch c)). intros k. rewrite site_key_cp. apply Hno.
Qed.

Lemma unpaired_exit_is_silent_witness :
  run demo_env (site_exit true arch_arm64 GoRead (demo_ctx 0 0 0 20)) used_state =
    (0, used_state).
Proof.
  exact (unpaired_exit_is_silent true arch_arm64 GoRead demo_env (demo_ctx 0 0 0 20) used_state
    ltac:(discriminate)).
Defined.

(** The write probes of OpenSSL and of NSS, which share [ssl_write_args]. *)
Definition write_site (nss : bool) : site := if nss then NssWrite else SslWrite.

Lemma run_write_entry arch nss e ctx s :
  lookup_map (run e (site_entry arch (write_site nss) ctx) s).2 ssl_write_args (e_pid_tgid e) =
    lookup_map (put e ssl_write_args (e_pid_tgid e)
      {| wa_ssl_ptr := PT_REGS_PARM1 ctx; wa_buf := PT_REGS_PARM2 ctx;
         wa_len := u32 (PT_REGS_PARM3 ctx) |} s) ssl_write_args (e_pid_tgid e).
Proof.
  destruct nss; cbn [write_site site_entry].
  - by rewrite (cp_entry_run (CallProbe := nss_write_probe false)).
  - rewrite (cp_entry_run (CallProbe := ssl_write_probe false)). cbn [cp_key ssl_write_probe snd].
    unfold lookup_map. by rewrite (cp_after_map (CallProbe := ssl_write_probe false)).
Qed.

(** One outstanding write per thread. When a write starts inside another write on the same
    thread, through either of the libraries that share [ssl_write_args], the inner call is
    reported and the outer call is not: its return finds no arguments and changes nothing. *)
Theorem nested_write_loses_outer (b : bool) (arch : target_arch) (outer inner : bool)
    (e1 e2 e3 e4 : env) (ctx1 ctx2 ctx3 ctx4 : pt_regs) (s : kstate)
    (Hfit : no_pressure e2 ssl_write_args)
    (Hthread : e_pid_tgid e2 = e_pid_tgid e1 ∧ e_pid_tgid e3 = e_pid_tgid e1 ∧
               e_pid_tgid e4 = e_pid_tgid e1) :
  let s1 := (run e1 (site_entry arch (write_site outer) ctx1) s).2 in
  let s2 := (run e2 (site_entry arch (write_site inner) ctx2) s1).2 in
  let s3 := (run e3 (site_exit b arch (write_site inner) ctx3) s2).2 in
  s3 = del ssl_write_args (e_pid_tgid e1)
         (emit_of b e3 (int_plan (PT_REGS_RC ctx3) (PT_REGS_PARM2 ctx2) 1 (PT_REGS_PARM1 ctx2)
            (site_provider (write_site inner))) s2) ∧
  run e4 (site_exit b arch (write_site outer) ctx4) s3 = (0, s3).
Proof.
  cbv zeta. destruct Hthread as (H2 & H3 & H4).
  set (s1 := (run e1 _ s).2).
  pose proof (run_write_entry arch inner e2 ctx2 s1) as Hl.
  rewrite lookup_put_eq in Hl by done. set (s2 := (run e2 _ s1).2) in *.
  assert (run e3 (site_exit b arch (write_site inner) ctx3) s2 =
    (0, del ssl_write_args (e_pid_tgid e1)
          (emit_of b e3 (int_plan (PT_REGS_RC ctx3) (PT_REGS_PARM2 ctx2) 1
             (PT_REGS_PARM1 ctx2) (site_provider (write_site inner))) s2))) as ->.
  { rewrite H2, <- H3 in Hl. rewrite <- H3. destruct inner; cbn [write_site site_exit].
    - exact (exit_reports (HP := nss_write_probe b) e3 ctx3 s2 _ _ eq_refl Hl).
    - exact (exit_reports (HP := ssl_write_probe b) e3 ctx3 s2 _ _ eq_refl Hl). }
  cbn [snd]. split; [done|].
  apply (exit_unpaired (HP := site_probe b arch (write_site outer))).
  destruct outer; cbn; intros k [= <-]; rewrite H4; exact (lookup_del_eq ssl_write_args _ _).
Qed.

Lemma nested_write_loses_outer_witness :
  no_pressure demo_env ssl_write_args ∧
  let s3 := (run demo_env (site_exit false arch_x86 (write_site true) returned_20)
               (run demo_env (site_entry arch_x86 (write_site true) write_ctx)
                  (run demo_env (site_entry arch_x86 (write_site false) write_ctx)
                     demo_state).2).2).2 in
  run demo_env (site_exit false arch_x86 (write_site false) returned_20) s3 = (0, s3).
Proof.
  split; [exact (demo_no_pressure ssl_write_args)|]. cbv zeta.
  exact (proj2 (nested_write_loses_outer false arch_x86 false true demo_env demo_env demo_env
    demo_env write_ctx write_ctx returned_20 returned_20 demo_state
    (demo_no_pressure ssl_write_args) (conj eq_refl (conj eq_refl eq_refl)))).
Defined.

(** The [_ex] calls. *)
Definition ex_site (read : bool) : site := if read then SslReadEx else SslWriteEx.

(** An [_ex] call of 2^32 bytes or more is reported as shorter than it was. The 64-bit count
    is cut to 32 bits, so the record's full length is the count modulo 2^32, never marked as
    truncated when that is small, and a count of exactly 2^32 is reported as an empty record. *)
Theorem ex_count_wraps (b : bool) (arch : target_arch) (read : bool) (e1 e2 : env)
    (ctx1 ctx2 : pt_regs) (s : kstate) (cnt bs : list byte)
    (Hthread : e_pid_tgid e2 = e_pid_tgid e1)
    (Hfit : no_pressure e1 (site_map (ex_site read)))
    (Hok : 0 < i32 (PT_REGS_RC ctx2)) (Hptr : PT_REGS_PARM4 ctx1 ≠ 0)
    (Hcnt : uread e2 (PT_REGS_PARM4 ctx1) 8 = Some cnt) (Hbig : 2 ^ 32 <= le_val cnt)
    (Hcfg : unsampled s)
    (Hroom : room_for b e2 (u32 (le_val cnt)))
    (Hread : uread e2 (PT_REGS_PARM2 ctx1) (Z.min (u32 (le_val cnt)) (MAX_DATA - 1)) = Some bs) :
  let s1 := (run e1 (site_entry arch (ex_site read) ctx1) s).2 in
  let s2 := (run e2 (site_exit b arch (ex_site read) ctx2) s1).2 in
  ∃ x, k_rings s2 events = k_rings s events ++ [x] ∧
    h_actual_len (ev_hdr x) = le_val cnt mod 2 ^ 32 ∧
    h_actual_len (ev_hdr x) < le_val cnt ∧
    (le_val cnt mod 2 ^ 32 <= 32767 → Z.testbit (h_flags (ev_hdr x)) 0 = false) ∧
    (le_val cnt mod 2 ^ 32 = 0 → h_copied_len (ev_hdr x) = 0).
Proof.
  cbv zeta. set (c := ex_site read).
  destruct (same_call_key arch c e1 ctx1 e2 ctx2 ltac:(subst c; by destruct read))
    as (k & H1 & H2).
  rewrite (site_call_run b _ _ _ _ _ _ _ _ H1 H2 Hfit). cbn [snd].
  assert (site_emission arch c e1 ctx1 e2 ctx2 =
    Some {| em_buf := PT_REGS_PARM2 ctx1; em_len := u32 (le_val cnt);
            em_direction := site_direction c; em_ptr := PT_REGS_PARM1 ctx1;
            em_provider := PROVIDER_OPENSSL |}) as ->.
  { apply Z.ltb_lt in Hok. apply Z.eqb_neq in Hptr.
    unfold site_emission. subst c. destruct read; cbn; rewrite Hok, Hptr, Hcnt; cbn;
      by replace (0 <? le_val cnt) with true by lia. }
  cbn [emit_of em_buf em_len em_direction em_ptr em_provider].
  pose proof (entry_other (HP := site_probe b arch c) e1 ctx1 s) as Hs1.
  destruct (emit_publishes b e2 (PT_REGS_PARM2 ctx1) (u32 (le_val cnt)) (site_direction c)
    (PT_REGS_PARM1 ctx1) PROVIDER_OPENSSL _ bs (u32_nonneg _)
    (unsampled_maps_only _ _ Hs1 Hcfg) Hroom Hread) as (x & Hx & _ & Hrep).
  exists x. destruct Hs1 as (_ & _ & Hr & _). rewrite <- Hr. split; [exact Hx|].
  destruct Hrep as (_ & _ & Hc & _ & Ha & Ht & _). rewrite Ha, Hc, Ht.
  pose proof (wrap_range 32 (le_val cnt) ltac:(lia)). split; [done|]. split; [lia|].
  change (le_val cnt mod 2 ^ 32) with (u32 (le_val cnt)).
  split; [intros ?; by apply Z.ltb_ge|lia].
Qed.

(** User memory that holds the request at [demo_buf] and the count 2^32 at 8192. *)
Definition huge_env : env :=
  demo_env <| e_umem := fun a => if a <? 8192 then mem_at demo_buf demo_request a
                                 else mem_at 8192 (le_bytes 8 (2 ^ 32)) a |>.

Definition ex_ctx : pt_regs := (demo_ctx 7 demo_buf 64 0) <| PT_REGS_PARM4 := 8192 |>.

Lemma ex_count_wraps_witness :
  uread huge_env 8192 8 = Some (le_bytes 8 (2 ^ 32)) ∧
  ∃ x, k_rings (run huge_env (site_exit false arch_x86 (ex_site false) (demo_ctx 0 0 0 1))
                  (run huge_env (site_entry arch_x86 (ex_site false) ex_ctx) demo_state).2).2
         events = [x] ∧ h_copied_len (ev_hdr x) = 0.
Proof.
  assert (uread huge_env 8192 8 = Some (le_bytes 8 (2 ^ 32))) as Hcnt by (vm_compute; reflexivity).
  split; [exact Hcnt|].
  destruct (ex_count_wraps false arch_x86 false huge_env huge_env ex_ctx (demo_ctx 0 0 0 1)
    demo_state (le_bytes 8 (2 ^ 32)) [] eq_refl (demo_no_pressure ssl_write_ex_args)
    ltac:(reflexivity) ltac:(discriminate) Hcnt ltac:(vm_compute; discriminate)
    ltac:(vm_compute; split; discriminate) ltac:(split; [reflexivity|discriminate])
    ltac:(vm_compute; reflexivity)) as (x & Hx & _ & _ & _ & H0).
  exists x. split; [exact Hx|]. apply H0. vm_compute. reflexivity.
Defined.

Definition ktls_site (send : bool) : site := if send then KtlsSend else KtlsRecv.

(** The kTLS probes report the whole result of a call from the address of its first segment.
    The length of that segment is saved but never consulted, so when a [sendmsg] or [recvmsg]
    transfers more bytes than its first segment holds, the record carries bytes from beyond the
    segment as if they had been transferred. *)
Theorem ktls_reports_past_first_segment (b : bool) (arch : target_arch) (send : bool)
    (e1 e2 : env) (ctx1 ctx2 : pt_regs) (s : kstate) (base seg_len : Z) (bs : list byte)
    (Hthread : e_pid_tgid e2 = e_pid_tgid e1)
    (Hfit : no_pressure e1 (site_map (ktls_site send)))
    (Hseg : first_segment e1 ctx1 = (base, seg_len)) (Hbase : base ≠ 0)
    (Hshort : 0 <= seg_len < Z.min (i32 (PT_REGS_RC ctx2)) (MAX_DATA - 1))
    (Hcfg : unsampled s)
    (Hroom : room_for b e2 (i32 (PT_REGS_RC ctx2)))
    (Hread : uread e2 base (Z.min (i32 (PT_REGS_RC ctx2)) (MAX_DATA - 1)) = Some bs) :
  let s1 := (run e1 (site_entry arch (ktls_site send) ctx1) s).2 in
  let s2 := (run e2 (site_exit b arch (ktls_site send) ctx2) s1).2 in
  ∃ x, k_rings s2 events = k_rings s events ++ [x] ∧
    h_actual_len (ev_hdr x) = i32 (PT_REGS_RC ctx2) ∧
    ztake (h_copied_len (ev_hdr x)) (ev_data x) = bs ∧ seg_len < h_copied_len (ev_hdr x).
Proof.
  cbv zeta. set (c := ktls_site send). set (n := i32 (PT_REGS_RC ctx2)) in *.
  destruct (same_call_key arch c e1 ctx1 e2 ctx2 ltac:(subst c; by destruct send))
    as (k & H1 & H2).
  rewrite (site_call_run b _ _ _ _ _ _ _ _ H1 H2 Hfit). cbn [snd].
  assert (site_emission arch c e1 ctx1 e2 ctx2 =
    Some {| em_buf := base; em_len := n; em_direction := site_direction c;
            em_ptr := PT_REGS_PARM1 ctx1; em_provider := PROVIDER_KTLS |}) as ->.
  { apply Z.eqb_neq in Hbase. unfold site_emission. subst c n.
    destruct send; cbn; rewrite Hseg; cbn; rewrite Hbase;
      by replace (0 <? i32 (PT_REGS_RC ctx2)) with true by lia. }
  cbn [emit_of em_buf em_len em_direction em_ptr em_provider].
  pose proof (entry_other (HP := site_probe b arch c) e1 ctx1 s) as Hs1.
  destruct (emit_publishes b e2 base n (site_direction c) (PT_REGS_PARM1 ctx1) PROVIDER_KTLS _ bs
    ltac:(lia) (unsampled_maps_only _ _ Hs1 Hcfg) Hroom Hread) as (x & Hx & _ & Hrep).
  exists x. destruct Hs1 as (_ & _ & Hr & _). rewrite <- Hr. split; [exact Hx|].
  destruct Hrep as (Hd & _ & Hc & _ & Ha & _). rewrite Ha, Hd, Hc.
  unfold MAX_DATA in *. split; [done|]. split; [done|]. lia.
Qed.

(** A message whose iovec at address 600 names [demo_buf] and four bytes: [msg] is at 512 and every
    field has offset 0 except the length of a segment. *)
Definition ktls_env : env :=
  demo_env <| e_kmem := fun a =>
                if a <? 600 then default (Some x00) (Some <$> mem_at 512 (le_bytes 8 600) a)
                else default (Some x00)
                       (Some <$> mem_at 600 (le_bytes 8 demo_buf ++ le_bytes 8 4) a) |>
           <| e_offset := fun f => match f with iovec_iov_len => 8 | _ => 0 end |>.

Definition ktls_ctx : pt_regs := demo_ctx 900 512 0 0.

Lemma ktls_reports_past_first_segment_witness :
  first_segment ktls_env ktls_ctx = (demo_buf, 4) ∧
  ∃ x, k_rings (run ktls_env (site_exit false arch_x86 (ktls_site true) returned_20)
                  (run ktls_env (site_entry arch_x86 (ktls_site true) ktls_ctx) demo_state).2).2
         events = [x] ∧ 4 < h_copied_len (ev_hdr x).
Proof.
  assert (first_segment ktls_env ktls_ctx = (demo_buf, 4)) as Hseg by (vm_compute; reflexivity).
  split; [exact Hseg|].
  destruct (ktls_reports_past_first_segment false arch_x86 true ktls_env ktls_env ktls_ctx
    returned_20 demo_state demo_buf 4 demo_request eq_refl (demo_no_pressure ktls_sendmsg_args)
    Hseg ltac:(discriminate) ltac:(vm_compute; split; [discriminate|reflexivity])
    ltac:(vm_compute; split; discriminate) ltac:(split; [reflexivity|discriminate])
    ltac:(vm_compute; reflexivity)) as (x & Hx & _ & _ & H0).
  exists x. split; [exact Hx|exact H0].
Defined.

(** A kTLS call makes its socket the thread's connection, with no role. After a connect on a
    thread, the first kTLS call on the same socket replaces the thread's entry with the same
    socket and role 0, although [sock_role] still knows the thread is the client. *)
Theorem ktls_entry_forgets_role (send : bool) (arch : target_arch) (e1 e2 : env)
    (ctx1 ctx2 : pt_regs) (s : kstate)
    (Hsk : PT_REGS_PARM1 ctx1 ≠ 0) (Hsame : PT_REGS_PARM1 ctx2 = PT_REGS_PARM1 ctx1)
    (Hthread : e_pid_tgid e2 = e_pid_tgid e1)
    (Hfit1 : connections_fit e1) (Hfit2 : connections_fit e2) :
  let sk := PT_REGS_PARM1 ctx1 in
  let s1 := (run e1 (tcp_connect_entry ctx1) s).2 in
  let s2 := (run e2 (site_entry arch (ktls_site send) ctx2) s1).2 in
  lookup_map s1 active_connections (e_pid_tgid e1) = Some (conn_of e1 sk ROLE_CLIENT) ∧
  lookup_map s2 active_connections (e_pid_tgid e1) = Some (conn_of e2 sk 0) ∧
  lookup_map s2 sock_role sk = Some ROLE_CLIENT ∧
  lookup_map s2 sock_to_pid sk = Some (e_pid_tgid e1).
Proof.
  cbv zeta. rewrite (run_open_probe false e1). cbn [snd open_sock open_role].
  destruct (record_connection_lookup e1 (PT_REGS_PARM1 ctx1) ROLE_CLIENT s Hsk Hfit1)
    as (H1 & H2 & H3 & _). set (s1 := record_connection_spec _ _ _ s) in *.
  split; [done|]. destruct Hfit2 as (Ha & Hp & Hr).
  assert (∀ m k, m ≠ site_map (ktls_site send) → lookup_map
    (run e2 (site_entry arch (ktls_site send) ctx2) s1).2 m k =
    lookup_map (ktls_conn e2 (PT_REGS_PARM1 ctx1) s1) m k) as Hm.
  { intros m k Hm. rewrite <- Hsame. destruct send; cbn [ktls_site site_entry site_map] in *.
    - rewrite (cp_entry_run (CallProbe := ktls_send_probe false)). by apply lookup_put_map.
    - rewrite (cp_entry_run (CallProbe := ktls_recv_probe false)). by apply lookup_put_map. }
  rewrite !Hm by by destruct send. unfold ktls_conn.
  rewrite (proj2 (Z.eqb_neq (PT_REGS_PARM1 ctx1) 0) Hsk). cbn [negb]. rewrite <- Hthread.
  split; [by kmap_simpl|]. split; [|by kmap_simpl].
  rewrite !lookup_put_map by done. exact H3.
Qed.

Lemma ktls_entry_forgets_role_witness :
  connections_fit demo_env ∧
  lookup_map
    (run demo_env (site_entry arch_x86 (ktls_site true) (demo_ctx 900 0 0 0))
       (run demo_env (tcp_connect_entry (demo_ctx 900 0 0 0)) demo_state).2).2
    active_connections demo_pid_tgid = Some (conn_of demo_env 900 0).
Proof.
  assert (connections_fit demo_env) as Hfit by (repeat split).
  split; [exact Hfit|].
  exact (proj1 (proj2 (ktls_entry_forgets_role true arch_x86 demo_env demo_env
    (demo_ctx 900 0 0 0) (demo_ctx 900 0 0 0) demo_state ltac:(discriminate) eq_refl eq_refl
    Hfit Hfit))).
Defined.

Definition go_site (write : bool) : site := if write then GoWrite else GoRead.

(** Go calls pair by goroutine. A goroutine's call is reported with its own arguments on
    whatever thread it returns, even when another goroutine, on the same thread or not, started a
    call in between; that call's arguments are still there. *)
Theorem go_calls_pair_by_goroutine (b : bool) (arch : target_arch) (write : bool)
    (e1 e2 e3 : env) (ctx1 ctx2 ctx3 : pt_regs) (s : kstate) (k1 k2 : go_call_key)
    (Hk1 : go_key arch e1 ctx1 = Some k1) (Hk2 : go_key arch e2 ctx2 = Some k2)
    (Hk3 : go_key arch e3 ctx3 = Some k1) (Hdiff : k1 ≠ k2)
    (Hfit1 : no_pressure e1 (site_map (go_site write)))
    (Hfit2 : no_pressure e2 (site_map (go_site write))) :
  let c := go_site write in
  let s1 := (run e1 (site_entry arch c ctx1) s).2 in
  let s2 := (run e2 (site_entry arch c ctx2) s1).2 in
  let r := run e3 (site_exit b arch c ctx3) s2 in
  r.1 = 0 ∧
  k_rings r.2 = k_rings (emit_of b e3 (site_emission arch c e1 ctx1 e3 ctx3) s2) ∧
  (∀ e4 ctx4, go_key arch e4 ctx4 = Some k2 →
     k_rings (run e4 (site_exit b arch c ctx4) r.2).2 =
     k_rings (emit_of b e4 (site_emission arch c e2 ctx2 e4 ctx4) r.2)).
Proof.
  cbv zeta. set (c := go_site write).
  assert (∃ k1' k2' : lru_key (site_map c), k1' ≠ k2' ∧ ∀ e ctx,
    (go_key arch e ctx = Some k1 → site_key arch c e ctx = Some k1') ∧
    (go_key arch e ctx = Some k2 → site_key arch c e ctx = Some k2')) as (k1' & k2' & Hne & Hkey).
  { subst c. destruct write; by exists k1, k2. }
  apply Hkey in Hk1, Hk2, Hk3.
  set (s1 := (run e1 (site_entry arch c ctx1) s).2).
  set (s2 := (run e2 (site_entry arch c ctx2) s1).2).
  assert (lookup_map s2 (site_map c) k1' =
          Some (cp_args (CallProbe := site_probe b arch c) e1 ctx1)) as L1.
  { subst s2. rewrite (entry_frame (HP := site_probe b arch c) e2 ctx2 s1 k2' k1');
      [|by rewrite site_key_cp|done|done].
    apply (entry_saves (HP := site_probe b arch c)); [by rewrite site_key_cp|done]. }
  assert (lookup_map s2 (site_map c) k2' =
          Some (cp_args (CallProbe := site_probe b arch c) e2 ctx2)) as L2
    by (apply (entry_saves (HP := site_probe b arch c)); [by rewrite site_key_cp|done]).
  rewrite (site_exit_saved b arch c e1 ctx1 e3 ctx3 s2 k1' Hk3 L1). cbn [fst snd].
  split; [done|]. split; [done|]. intros e4 ctx4 Hk4%Hkey.
  rewrite (site_exit_saved b arch c e2 ctx2 e4 ctx4 _ k2' Hk4); [done|].
  rewrite lookup_del_ne by done. unfold lookup_map.
  by rewrite emit_of_maps by apply site_map_args.
Qed.

Definition on_goroutine (g : Z) (ctx : pt_regs) : pt_regs := ctx <| r_r14 := g |>.

Lemma go_calls_pair_by_goroutine_witness :
  let c1 := on_goroutine 11 (demo_ctx 0 0 0 0) in
  let c2 := on_goroutine 12 (demo_ctx 0 0 0 0) in
  go_key arch_x86 other_thread c1 = go_key arch_x86 demo_env c1 ∧
  (run other_thread (site_exit false arch_x86 (go_site true) c1)
     (run demo_env (site_entry arch_x86 (go_site true) c2)
        (run demo_env (site_entry arch_x86 (go_site true) c1) demo_state).2).2).1 = 0.
Proof.
  cbv zeta. split; [reflexivity|].
  exact (proj1 (go_calls_pair_by_goroutine false arch_x86 true demo_env demo_env other_thread
    (on_goroutine 11 (demo_ctx 0 0 0 0)) (on_goroutine 12 (demo_ctx 0 0 0 0))
    (on_goroutine 11 (demo_ctx 0 0 0 0)) demo_state _ _ eq_refl eq_refl eq_refl
    ltac:(discriminate) (demo_no_pressure go_tls_write_args)
    (demo_no_pressure go_tls_write_args))).
Defined.
