(* ===== verification/KernelObjects.v ===== *)
(** What the probes make of the kernel's objects, on a kernel laid out as [bpf/vmlinux.h] says: the
    tuple of a socket, and the buffer of a kernel-TLS call. *)

From S2P Require Import Prelude Ctypes Vmlinux Abi Kernel Logic KernelTypes Sampling Fixture.
From S2P Require Import TlsState Emit EmitProps Conn Lifecycle Calls Probes Ktls GoTls CallSites.

#[local] Open Scope string_scope.
#[local] Open Scope list_scope.
#[local] Open Scope Z_scope.

(** * Sockets *)

(** A socket as the network stack sees it: ports as numbers, addresses in network byte order, the
    inode of the file it is reached through, if there is one. *)
Record sock_view := {
  sv_family : Z;
  sv_local_port : Z;
  sv_remote_port : Z;
  sv_local : list byte;
  sv_remote : list byte;
  sv_inode : option Z
}.

(** Pointers and integers are little-endian; [skc_dport] is in network byte order. *)
Definition stores_int (e : env) (addr : Z) (f : kfield) (z : Z) : Prop :=
  0 <= z < 2 ^ (8 * kfield_size f) ∧ stores e addr f (le_bytes (Z.to_nat (kfield_size f)) z).

Definition stores_be16 (e : env) (addr : Z) (f : kfield) (z : Z) : Prop :=
  0 <= z < 2 ^ 16 ∧ stores e addr f [byte_of_Z (z / 256); byte_of_Z (z mod 256)].

Definition stores_sock (e : env) (sk : Z) (v : sock_view) : Prop :=
  stores_int e sk skc_family (sv_family v) ∧
  stores_int e sk skc_num (sv_local_port v) ∧
  stores_be16 e sk skc_dport (sv_remote_port v) ∧
  (if sv_family v =? AF_INET6
   then stores e sk skc_v6_rcv_saddr (sv_local v) ∧ stores e sk skc_v6_daddr (sv_remote v)
   else stores e sk skc_rcv_saddr (sv_local v) ∧ stores e sk skc_daddr (sv_remote v)) ∧
  match sv_inode v with
  | None => stores_int e sk sk_socket 0
  | Some ino =>
      ∃ skt file inode, skt ≠ 0 ∧ file ≠ 0 ∧ inode ≠ 0 ∧
        stores_int e sk sk_socket skt ∧ stores_int e skt socket_file file ∧
        stores_int e file file_f_inode inode ∧ stores_int e inode inode_i_ino ino
  end.

(** The connection record of such a socket. *)
Definition conn_of_view (v : sock_view) (role : Z) : conn_info :=
  let v6 := sv_family v =? AF_INET6 in {|
    ci_family := sv_family v;
    ci_src_port := sv_local_port v;
    ci_dst_port := sv_remote_port v;
    ci_role := role;
    ci__pad := 0;
    ci_src_ip4 := if v6 then 0 else le_val (sv_local v);
    ci_dst_ip4 := if v6 then 0 else le_val (sv_remote v);
    ci_src_ip6 := if v6 then sv_local v else zeros16;
    ci_dst_ip6 := if v6 then sv_remote v else zeros16;
    ci_sock_ino := default 0 (sv_inode v) |}.

(** ** Reading them *)

Section Reads.
Context (e : env).
Hypothesis Hoff : local_offsets e.

Lemma kread_int_stored addr f n bs :
  n = kfield_size f → stores e addr f bs → kread_int e n f addr = le_val bs.
Proof using Hoff. intros -> Hs. unfold kread_int. by rewrite (kread_stored e addr f bs). Qed.

Lemma kread_int_int addr f n z :
  n = kfield_size f → stores_int e addr f z → kread_int e n f addr = z.
Proof using Hoff.
  intros Hn [Hz Hs]. rewrite (kread_int_stored addr f n _ Hn Hs), le_val_le_bytes.
  destruct (kfield_wf f) as (_ & _ & _ & _ & Hpos). rewrite Z2Nat.id by lia.
  by apply wrap_small.
Qed.

Lemma kread_bytes_stored addr f n bs :
  n = kfield_size f → stores e addr f bs → kread_bytes e n f addr = bs.
Proof using Hoff. intros -> Hs. by apply kread_stored. Qed.

Lemma ntohs_be16 z : 0 <= z < 2 ^ 16 → bpf_ntohs (le_val [byte_of_Z (z / 256); byte_of_Z (z mod 256)]) = z.
Proof.
  intros Hz. cbn [le_val]. rewrite !byte_val_of_Z, Z.mul_0_r, Z.add_0_r.
  assert (0 <= z / 256 < 256) as Hh by (split; [apply Z.div_pos|apply Z.div_lt_upper_bound]; lia).
  pose proof (Z.mod_pos_bound z 256 ltac:(lia)) as Hl.
  rewrite !Z.mod_small by lia. unfold bpf_ntohs.
  rewrite (Z.land_ones _ 8) by lia. rewrite Z.shiftr_div_pow2, Z.shiftl_mul_pow2 by lia.
  change (2 ^ 8) with 256.
  replace (z / 256 + 256 * (z mod 256)) with (z / 256 + z mod 256 * 256) by lia.
  rewrite Z.mod_add, Z.div_add by lia. rewrite (Z.mod_small (z / 256)), (Z.div_small (z / 256)) by lia.
  assert (Z.land (z / 256 * 256) (z mod 256) = 0) as Hand.
  { apply Z.bits_inj'. intros i Hi. rewrite Z.land_spec, Z.bits_0.
    destruct (decide (i < 8)); [by rewrite (Z.mul_pow2_bits_low _ 8) by lia|].
    rewrite (testbit_high 8 (z mod 256)) by lia. apply andb_false_r. }
  pose proof (Z.add_lor_land (z / 256 * 256) (z mod 256)) as Hor. rewrite Hand in Hor.
  rewrite Z.add_0_l. pose proof (Z.div_mod z 256 ltac:(lia)). lia.
Qed.

Lemma sock_ino_stored sk v :
  stores_sock e sk v → sock_ino_of e sk = default 0 (sv_inode v).
Proof using Hoff.
  intros (_ & _ & _ & _ & Hino). unfold sock_ino_of. cbv zeta. destruct (sv_inode v) as [ino|].
  - destruct Hino as (skt & file & inode & H1 & H2 & H3 & S1 & S2 & S3 & S4).
    rewrite (kread_int_int sk sk_socket 8 skt) by done.
    rewrite (kread_int_int skt socket_file 8 file) by done.
    rewrite (kread_int_int file file_f_inode 8 inode) by done.
    rewrite (kread_int_int inode inode_i_ino 8 ino) by done.
    apply Z.eqb_neq in H1, H2, H3. by rewrite H1, H2, H3.
  - by rewrite (kread_int_int sk sk_socket 8 0) by done.
Qed.

Lemma conn_of_stored sk role v : stores_sock e sk v → conn_of e sk role = conn_of_view v role.
Proof using Hoff.
  intros Hv. pose proof (sock_ino_stored sk v Hv) as Hino.
  destruct Hv as (Hf & Hn & [Hd Hdp] & Ha & _). unfold conn_of, conn_of_view. cbv zeta.
  rewrite Hino, (kread_int_int sk skc_family 2 _ eq_refl Hf).
  rewrite (kread_int_int sk skc_num 2 _ eq_refl Hn).
  rewrite (kread_int_stored sk skc_dport 2 _ eq_refl Hdp), ntohs_be16 by done.
  destruct (sv_family v =? AF_INET6); destruct Ha as [H1 H2].
  - by rewrite (kread_bytes_stored sk skc_v6_rcv_saddr 16 _ eq_refl H1),
      (kread_bytes_stored sk skc_v6_daddr 16 _ eq_refl H2).
  - by rewrite (kread_int_stored sk skc_rcv_saddr 4 _ eq_refl H1),
      (kread_int_stored sk skc_daddr 4 _ eq_refl H2).
Qed.
End Reads.

(** * Buffers of kernel-TLS calls *)

Definition enum_value (name : string) (es : list (string * Z)) : Z :=
  default (-1) (snd <$> find (fun x => (x.1 =? name)%string) es).

(** [msg] iterates over user memory at [base] through one segment, kept in the iterator itself
    ([ITER_UBUF]) ... *)
Definition stores_ubuf (e : env) (msg base : Z) : Prop :=
  stores_at e msg struct_msghdr ["msg_iter"; "iter_type"]
    [byte_of_Z (enum_value "ITER_UBUF" enum_iter_type)] ∧
  stores_at e msg struct_msghdr ["msg_iter"; "ubuf"] (le_bytes 8 base).

(** ... or through an array of segments at [iov] in kernel memory ([ITER_IOVEC]), the first of which
    is [len] bytes at [base]. *)
Definition stores_iovec (e : env) (msg base len : Z) : Prop :=
  stores_at e msg struct_msghdr ["msg_iter"; "iter_type"]
    [byte_of_Z (enum_value "ITER_IOVEC" enum_iter_type)] ∧
  ∃ iov, iov ≠ 0 ∧ 0 <= iov < 2 ^ 64 ∧
    stores_at e msg struct_msghdr ["msg_iter"; "__iov"] (le_bytes 8 iov) ∧
    stores_int e iov iovec_iov_base base ∧ stores_int e iov iovec_iov_len len.

(** The kernel-read helpers do not reach user memory. *)
Definition user_only (e : env) (addr n : Z) : Prop :=
  ∀ i, 0 <= i < n → e_kmem e (u64 (addr + i)) = None.

(** The two members are one word of a union. *)
Lemma ubuf_is_iov :
  path_at struct_msghdr ["msg_iter"; "ubuf"] = Some (kfield_offset msg_iter_iov, CPtr "void").
Proof. vm_compute. reflexivity. Qed.

Lemma ubuf_stores_iov e msg base :
  stores_ubuf e msg base → stores e msg msg_iter_iov (le_bytes 8 base).
Proof.
  intros (_ & off & t & Hp & Hm). rewrite ubuf_is_iov in Hp. injection Hp as <- <-.
  exists (kfield_offset msg_iter_iov), (kfield_type msg_iter_iov).
  split; [vm_compute; reflexivity|]. exact Hm.
Qed.

Lemma kread_user e addr n size :
  user_only e addr n → 0 < size <= n → kread e (u64 addr) size = zeros size.
Proof.
  intros Hu Hs. unfold kread. destruct (Z.to_nat size) as [|k] eqn:E; [lia|].
  cbn [read_mem]. specialize (Hu 0 ltac:(lia)). rewrite Z.add_0_r in Hu. by rewrite Hu.
Qed.

(** The first segment the probe sees. *)
Lemma first_segment_iovec e ctx base len :
  local_offsets e → stores_iovec e (PT_REGS_PARM2 ctx) base len →
  first_segment e ctx = (base, len).
Proof.
  intros Hoff (_ & iov & Hnz & Hr & Hiov & Hb & Hl). unfold first_segment. cbv zeta.
  rewrite (kread_int_int e Hoff _ msg_iter_iov 8 iov eq_refl (conj Hr Hiov)).
  apply Z.eqb_neq in Hnz. rewrite Hnz.
  by rewrite (kread_int_int e Hoff iov iovec_iov_base 8 base eq_refl Hb),
    (kread_int_int e Hoff iov iovec_iov_len 8 len eq_refl Hl).
Qed.

Lemma first_segment_ubuf e ctx base :
  local_offsets e → 0 <= base < 2 ^ 64 → stores_ubuf e (PT_REGS_PARM2 ctx) base →
  user_only e base 16 → (first_segment e ctx).1 = 0.
Proof.
  intros Hoff Hb Hs Hu. unfold first_segment. cbv zeta.
  rewrite (kread_int_int e Hoff _ msg_iter_iov 8 base eq_refl (conj Hb (ubuf_stores_iov _ _ _ Hs))).
  destruct (base =? 0); [done|]. cbn [fst]. unfold kread_int. rewrite Hoff.
  change (kfield_offset iovec_iov_base) with 0. rewrite Z.add_0_r.
  by rewrite (kread_user e base 16 8) by (done || lia).
Qed.

(** * Properties *)

(** C32: The tuple recorded for a connection is the tuple of its socket. On a kernel laid out as
    [vmlinux.h] says, when memory holds a socket with given family, ports, addresses and inode and the map of
    connections accepts an entry, a connect or an accept of it files under the calling thread exactly that tuple,
    both ports in host order, the IPv6 addresses for an IPv6 socket and the IPv4 ones for any other, the inode
    of its file or 0 when it has none, and the role of the side that opened it. *)
Theorem socket_tuple_recorded (accept : bool) (e : env) (ctx : pt_regs) (s : kstate) (v : sock_view)
    (Hoff : local_offsets e)
    (Hsk : open_sock accept ctx ≠ 0)
    (Hsock : stores_sock e (open_sock accept ctx) v)
    (Hfit : connections_fit e) :
  lookup_map (run e (open_probe accept ctx) s).2 active_connections (e_pid_tgid e) =
    Some (conn_of_view v (open_role accept)).
Proof.
  rewrite run_open_probe. cbn [snd]. rewrite <- (conn_of_stored e Hoff _ _ v Hsock).
  by apply record_connection_lookup.
Qed.

(** Which kernel-TLS calls are reported depends on the iterator the caller used. On a kernel
    laid out as [vmlinux.h] says: a call over an array of segments has the base of its first
    segment as its buffer and, when it transferred bytes, is reported with their number; a call
    over a single user buffer is never reported, whatever it returns, because [__iov] is the same
    word as [ubuf] there: the probe takes the plaintext itself for an array of segments, fails to
    read it, and gives the call up as one without a buffer. *)
Theorem ktls_reported_by_iterator (b : bool) (arch : target_arch) (c : site) (e1 e2 : env)
    (ctx1 ctx2 : pt_regs) (s : kstate) (base : Z)
    (Hktls : c = KtlsSend ∨ c = KtlsRecv)
    (Hoff : local_offsets e1)
    (Hthread : e_pid_tgid e2 = e_pid_tgid e1)
    (Hfit : no_pressure e1 (site_map c)) :
  let s1 := (run e1 (site_entry arch c ctx1) s).2 in
  let s2 := (run e2 (site_exit b arch c ctx2) s1).2 in
  (∀ len, stores_iovec e1 (PT_REGS_PARM2 ctx1) base len → base ≠ 0 →
     site_buf arch c e1 ctx1 = base ∧
     (0 < i32 (PT_REGS_RC ctx2) →
        site_len arch c e1 ctx1 e2 ctx2 = Some (i32 (PT_REGS_RC ctx2)))) ∧
  (stores_ubuf e1 (PT_REGS_PARM2 ctx1) base → 0 <= base < 2 ^ 64 → user_only e1 base 16 →
     k_rings s2 = k_rings s ∧ k_counters s2 = k_counters s).
Proof.
  cbv zeta. split.
  - intros len Hs Hb. pose proof (first_segment_iovec e1 ctx1 base len Hoff Hs) as Hseg.
    apply Z.eqb_neq in Hb.
    destruct Hktls as [-> | ->]; cbn [site_buf site_len]; rewrite Hseg; cbn [fst]; rewrite Hb;
      (split; [done|]); intros Hn; by replace (0 <? _) with true by lia.
  - intros Hs Hb Hu. pose proof (first_segment_ubuf e1 ctx1 base Hoff Hb Hs Hu) as Hseg.
    assert (same_call arch c e1 ctx1 e2 ctx2) as Hcall by (by destruct Hktls as [-> | ->]).
    destruct (same_call_key _ _ _ _ _ _ Hcall) as (k & H1 & H2).
    rewrite (site_call_run b _ _ _ _ _ _ _ _ H1 H2 Hfit).
    assert (site_emission arch c e1 ctx1 e2 ctx2 = None) as ->.
    { unfold site_emission. destruct Hktls as [-> | ->]; cbn [site_len]; by rewrite Hseg. }
    destruct (entry_other (HP := site_probe b arch c) e1 ctx1 s) as (_ & Hc & Hr & _).
    done.
Qed.

(** ** A concrete kernel *)

(** Memory that holds byte strings at addresses. *)
Fixpoint mem_of (xs : list (Z * list byte)) (addr : Z) : option byte :=
  match xs with
  | [] => None
  | (base, bs) :: xs' =>
      if (base <=? addr) && (addr <? base + zlen bs) then nth_error bs (Z.to_nat (addr - base))
      else mem_of xs' addr
  end.

Definition at_member (addr : Z) (f : kfield) (bs : list byte) : Z * list byte :=
  (addr + kfield_offset f, bs).

(** An IPv4 socket at 4096, 10.0.0.1:49152 to 10.0.0.2:443, reached through inode 12345. *)
Definition demo_sock : sock_view := {|
  sv_family := AF_INET; sv_local_port := 49152; sv_remote_port := 443;
  sv_local := [x0a; x00; x00; x01]; sv_remote := [x0a; x00; x00; x02];
  sv_inode := Some 12345 |}.

Definition sock_env : env := demo_env
  <| e_offset := kfield_offset |>
  <| e_kmem := mem_of [
       at_member 4096 skc_daddr [x0a; x00; x00; x02];
       at_member 4096 skc_rcv_saddr [x0a; x00; x00; x01];
       at_member 4096 skc_dport [x01; xbb];
       at_member 4096 skc_num (le_bytes 2 49152);
       at_member 4096 skc_family (le_bytes 2 AF_INET);
       at_member 4096 sk_socket (le_bytes 8 8192);
       at_member 8192 socket_file (le_bytes 8 12288);
       at_member 12288 file_f_inode (le_bytes 8 16384);
       at_member 16384 inode_i_ino (le_bytes 8 12345)] |>.

Ltac stored := eexists _, _; split; [vm_compute; reflexivity|vm_compute; reflexivity].
Ltac stored_int := split; [vm_compute; split; discriminate || reflexivity|stored].

Lemma demo_sock_stored : stores_sock sock_env 4096 demo_sock.
Proof.
  split; [stored_int|]. split; [stored_int|]. split; [stored_int|]. split; [split; stored|].
  exists 8192, 12288, 16384. do 3 (split; [lia|]). do 3 (split; [stored_int|]). stored_int.
Qed.

Lemma socket_tuple_recorded_witness :
  local_offsets sock_env ∧ stores_sock sock_env 4096 demo_sock ∧
  lookup_map (run sock_env (open_probe false (demo_ctx 4096 0 0 0)) demo_state).2
    active_connections demo_pid_tgid = Some (conn_of_view demo_sock ROLE_CLIENT).
Proof.
  assert (local_offsets sock_env) as Hoff by done.
  split; [exact Hoff|]. split; [exact demo_sock_stored|].
  exact (socket_tuple_recorded false sock_env (demo_ctx 4096 0 0 0) demo_state demo_sock Hoff
    ltac:(discriminate) demo_sock_stored ltac:(by repeat split)).
Defined.

(** A [send] of 20 bytes from the demo buffer: the iterator of the message at 65536 keeps the
    buffer itself. *)
Definition ubuf_env : env := demo_env
  <| e_offset := kfield_offset |>
  <| e_kmem := mem_of [(65536 + 16, [x00]); (65536 + 32, le_bytes 8 demo_buf)] |>.

Lemma ktls_reported_by_iterator_witness :
  stores_ubuf ubuf_env 65536 demo_buf ∧ user_only ubuf_env demo_buf 16 ∧
  k_rings (run ubuf_env (site_exit true arch_x86 KtlsSend returned_20)
             (run ubuf_env (site_entry arch_x86 KtlsSend (demo_ctx 4096 65536 0 0))
                demo_state).2).2 events = [].
Proof.
  assert (stores_ubuf ubuf_env 65536 demo_buf) as Hs by (split; stored).
  assert (user_only ubuf_env demo_buf 16) as Hu.
  { intros i Hi. rewrite wrap_small by (unfold demo_buf; lia). cbn. unfold demo_buf, zlen. cbn -[Z.leb Z.ltb Z.add].
    rewrite !(proj2 (Z.leb_gt _ _)) by lia. done. }
  split; [exact Hs|]. split; [exact Hu|].
  destruct (proj2 (ktls_reported_by_iterator true arch_x86 KtlsSend ubuf_env ubuf_env
    (demo_ctx 4096 65536 0 0) returned_20 demo_state demo_buf (or_introl eq_refl)
    (fun _ => eq_refl) eq_refl (demo_no_pressure ktls_sendmsg_args)) Hs
    ltac:(unfold demo_buf; lia) Hu) as [-> _].
  reflexivity.
Defined.
