(* ===== verification/Proc.v ===== *)
(** Process tracking and the outbound block list: [handle_new_process] and [lsm_socket_connect] of
    [bpf/http_trace.bpf.c]. *)

From S2P Require Import Prelude Abi Kernel Logic Fixture TlsState.

(** * New processes *)

(** [sizeof(struct new_proc_event)] *)
Definition sizeof_new_proc_event : Z := 160.

(** [args] is [ctx->args]. The members not assigned keep what the reserved memory held. *)
Definition handle_new_process (args : Z → Z) : prog Z :=
  let bprm := args 2 in
  e ← call (bpf_ringbuf_reserve proc_events sizeof_new_proc_event);
  match (e : option new_proc_event) with
  | None => mret 0
  | Some e =>
      pid_tgid ← call bpf_get_current_pid_tgid;
      let e := e <| pe_pid := u32 (Z.shiftr pid_tgid 32) |> in
      cgroup ← call bpf_get_current_cgroup_id;
      let e := e <| pe_cgroup_id := cgroup |> in
      comm ← call bpf_get_current_comm;
      let e := e <| pe_comm := ztake 16 (overlay comm zeros16) |> in
      name ← core_read 8 bprm_filename bprm;
      filename ← call (bpf_probe_read_kernel_str (pe_filename e) name);
      let e := e <| pe_filename := filename |> in
      _ ← call (bpf_ringbuf_submit proc_events e);
      mret 0
  end.

Definition new_process_record (e : env) (args : Z → Z) : new_proc_event :=
  let stale := e_stale e proc_events in {|
    pe_pid := tgid_of (e_pid_tgid e);
    pe__pad := pe__pad stale;
    pe_cgroup_id := e_cgroup e;
    pe_comm := ztake 16 (overlay (e_comm e) zeros16);
    pe_filename :=
      match read_str (e_kmem e) (kread_int e 8 bprm_filename (args 2))
              (length (pe_filename stale)) with
      | Some bs => overlay bs (pe_filename stale)
      | None => zeros (zlen (pe_filename stale))
      end |}.

Lemma run_handle_new_process e args s :
  run e (handle_new_process args) s =
    (0, if e_reserve e proc_events sizeof_new_proc_event
        then add_reserved (e_cpu e) (-1)
               (push_ring proc_events (new_process_record e args)
                  (add_reserved (e_cpu e) 1 s))
        else s).
Proof.
  unfold handle_new_process, new_process_record. cbv zeta. rewrite run_call_bind. cbn [handle].
  destruct (e_reserve e proc_events _); cbn [fst snd]; [|done].
  do 3 run_step. rewrite run_bind, run_core_read. cbn [fst snd].
  rewrite run_call_bind. cbn [handle fst snd]. by run_steps.
Qed.

(** A C string: the bytes before the first NUL. *)
Fixpoint cstr (bs : list byte) : list byte :=
  match bs with
  | [] => []
  | b :: bs' => if bool_decide (b = x00) then [] else b :: cstr bs'
  end.

(** The string at [addr], as far as [n - 1] bytes: what a reader of an [n]-byte buffer can see. *)
Definition kernel_string (mem : Z → option byte) (addr : Z) (n : nat) : option (list byte) :=
  cstr <$> read_str mem addr n.

Lemma read_str_terminated mem addr n bs :
  (0 < n)%nat → read_str mem addr n = Some bs →
  ∃ str, bs = str ++ [x00] ∧ x00 ∉ str ∧ (length bs <= n)%nat ∧
    (∀ i b, str !! i = Some b → mem (Nat.iter i (fun a => u64 (a + 1)) addr) = Some b).
Proof.
  revert addr bs. induction n as [|[|n] IH]; intros addr bs Hn; [lia| |].
  - intros [= <-]. exists []. split_and!; [done|by apply not_elem_of_nil|done|]. by intros [].
  - cbn [read_str]. destruct (mem addr) as [b|] eqn:Em; [|done]. case_bool_decide as Hb.
    + intros [= <-]. exists []. split_and!; [done|by apply not_elem_of_nil|cbn; lia|]. by intros [].
    + change (match n with O => Some [x00] | S _ => _ end) with (read_str mem (u64 (addr + 1)) (S n)).
      intros (bs' & Hbs & ->)%fmap_Some.
      destruct (IH _ _ ltac:(lia) Hbs) as (str & -> & Hno & Hlen & Hmem).
      exists (b :: str). split_and!; [done|by apply not_elem_of_cons|cbn in *; lia|].
      intros [|i] b' Hi; [cbn in *; congruence|]. apply Hmem in Hi. by rewrite Nat.iter_succ_r.
Qed.

Lemma cstr_app str tail : x00 ∉ str → cstr (str ++ x00 :: tail) = str.
Proof.
  induction str as [|b str IH]; [done|]. intros [Hb Hs]%not_elem_of_cons. cbn [app cstr].
  rewrite bool_decide_false by congruence. by rewrite IH.
Qed.

(** An exec is announced with the process, its cgroup and the path of the program. When the
    ring has room, one record is added whose name, read as a C string, is the string at
    [bprm->filename] cut to 127 bytes (empty when it cannot be read); nothing else in the kernel
    state changes. Bytes behind the terminator and the padding word are what the ring memory held
    before: the record is not cleared. *)
Theorem new_process_announced (e : env) (args : Z → Z) (s : kstate)
    (Hroom : e_reserve e proc_events sizeof_new_proc_event = true)
    (Hsize : length (pe_filename (e_stale e proc_events)) = 128%nat) :
  let name := kread_int e 8 bprm_filename (args 2) in
  let r := run e (handle_new_process args) s in
  r.1 = 0 ∧
  ∃ x, k_rings r.2 proc_events = k_rings s proc_events ++ [x] ∧
    pe_pid x = tgid_of (e_pid_tgid e) ∧ pe_cgroup_id x = e_cgroup e ∧
    length (pe_filename x) = 128%nat ∧
    cstr (pe_filename x) = default [] (kernel_string (e_kmem e) name 128) ∧
    pe__pad x = pe__pad (e_stale e proc_events) ∧
    (∀ str, read_str (e_kmem e) name 128 = Some str →
       drop (length str) (pe_filename x) =
         drop (length str) (pe_filename (e_stale e proc_events))).
Proof.
  cbv zeta. rewrite run_handle_new_process, Hroom. cbn [fst snd]. split; [done|].
  eexists. split; [exact (k_rings_push_ring proc_events _ (add_reserved (e_cpu e) 1 s))|].
  unfold new_process_record. cbn [pe_pid pe_cgroup_id pe_filename pe__pad]. rewrite Hsize.
  set (stale := pe_filename (e_stale e proc_events)) in *. unfold kernel_string.
  split; [done|]. split; [done|].
  destruct (read_str _ _ 128) as [bs|] eqn:Eb.
  - destruct (read_str_terminated _ _ 128 _ ltac:(lia) Eb) as (str & -> & Hno & Hlen & _).
    unfold overlay. split; [rewrite length_app, length_drop; lia|]. split.
    + rewrite <- app_assoc. cbn [app]. cbn [fmap option_fmap option_map default from_option id].
      by rewrite !cstr_app.
    + split; [done|]. intros str' [= <-]. by rewrite drop_app_length.
  - split; [unfold zeros, zlen; rewrite length_replicate; lia|].
    split; [|split; [done|discriminate]].
    unfold zeros, zlen. rewrite Nat2Z.id, Hsize. reflexivity.
Qed.

(** [bprm->filename] at 600, naming the string at 700. *)
Definition exec_env : env :=
  demo_env <| e_kmem := fun a =>
                if a <? 700 then default (Some x00) (Some <$> mem_at 600 (le_bytes 8 700) a)
                else default (Some x00) (Some <$> mem_at 700 demo_program a) |>.

Lemma new_process_announced_witness :
  length (pe_filename (e_stale exec_env proc_events)) = 128%nat ∧
  ∃ x, k_rings (run exec_env (handle_new_process (fun _ => 600)) demo_state).2 proc_events = [x] ∧
    cstr (pe_filename x) = demo_program.
Proof.
  split; [reflexivity|].
  destruct (new_process_announced exec_env (fun _ => 600) demo_state eq_refl eq_refl)
    as (_ & x & Hx & _ & _ & _ & Hname & _).
  exists x. split; [exact Hx|]. rewrite Hname. vm_compute. reflexivity.
Defined.

(** * The outbound block list *)

(** The test of the unrolled loop: [cidr && cidr->mask && (dst_ip & mask) == (ip & mask)]. *)
Definition rule_blocks (dst_ip : Z) (cidr : option blocked_cidr) : bool :=
  match cidr with
  | Some c =>
      negb (bc_mask c =? 0) && (Z.land dst_ip (bc_mask c) =? Z.land (bc_ip c) (bc_mask c))
  | None => false
  end.

(** The loop from index [i], with the slots left as fuel. *)
Fixpoint scan_rules (fuel : nat) (i dst_ip : Z) : prog Z :=
  match fuel with
  | O => mret 0
  | S fuel' =>
      if i <? MAX_BLOCKED_CIDRS then
        cidr ← call (bpf_array_lookup_elem blocked_ips i);
        if rule_blocks dst_ip cidr then mret (- EPERM) else scan_rules fuel' (i + 1) dst_ip
      else mret 0
  end.

Definition sizeof_sockaddr_in : Z := 16.

Definition lsm_socket_connect (sock address addrlen : Z) : prog Z :=
  if (address =? 0) || (addrlen <? sizeof_sockaddr_in) then mret 0 else
  family ← core_read 2 sockaddr_sa_family address;
  if negb (family =? AF_INET) then mret 0 else
  dst_ip ← core_read 4 sockaddr_in_sin_addr address;
  if dst_ip =? 0 then mret 0 else
  scan_rules 16 0 dst_ip.

(** Rule [i] covers [ip]: a non-zero mask whose bits agree. *)
Definition rule_covers (s : kstate) (i ip : Z) : Prop :=
  let c := k_arrays s blocked_ips i in
  bc_mask c ≠ 0 ∧
  ∀ j, 0 <= j → Z.testbit (bc_mask c) j = true → Z.testbit ip j = Z.testbit (bc_ip c) j.

Lemma land_agrees m a b :
  Z.land a m = Z.land b m ↔ ∀ j, 0 <= j → Z.testbit m j = true → Z.testbit a j = Z.testbit b j.
Proof.
  split.
  - intros E j Hj Hm. assert (Z.testbit (Z.land a m) j = Z.testbit (Z.land b m) j) as H by congruence.
    rewrite !Z.land_spec, Hm in H. by rewrite !andb_true_r in H.
  - intros H. apply Z.bits_inj'. intros j Hj. rewrite !Z.land_spec.
    destruct (Z.testbit m j) eqn:E; [by rewrite H|]. by rewrite !andb_false_r.
Qed.

Lemma rule_blocks_covers s i ip :
  rule_blocks ip (Some (k_arrays s blocked_ips i)) = true ↔ rule_covers s i ip.
Proof.
  unfold rule_blocks, rule_covers. cbv zeta. rewrite andb_true_iff, negb_true_iff, Z.eqb_neq,
    Z.eqb_eq, land_agrees. done.
Qed.

Lemma run_scan_rules e fuel i ip s :
  0 <= i → i + Z.of_nat fuel = MAX_BLOCKED_CIDRS →
  ∃ r, run e (scan_rules fuel i ip) s = (r, s) ∧ (r = 0 ∨ r = - EPERM) ∧
    (r = - EPERM ↔ ∃ j, i <= j < MAX_BLOCKED_CIDRS ∧ rule_covers s j ip).
Proof.
  revert i. induction fuel as [|fuel IH]; intros i Hi Hf; cbn [scan_rules].
  - exists 0. split; [done|]. split; [by left|]. split; [done|]. intros (j & Hj & _). lia.
  - replace (i <? MAX_BLOCKED_CIDRS) with true by lia. rewrite run_call_bind. cbn [handle].
    assert (in_range i (arr_max_entries blocked_ips) = true) as ->.
    { unfold in_range. cbn [arr_max_entries]. apply andb_true_iff. lia. }
    cbn [fst snd]. destruct (rule_blocks ip _) eqn:Er.
    + apply rule_blocks_covers in Er. exists (- EPERM). split; [done|]. split; [by right|].
      split; [|done]. intros _. exists i. split; [lia|done].
    + destruct (IH (i + 1) ltac:(lia) ltac:(lia)) as (r & Hr & Hor & Hiff).
      exists r. split; [done|]. split; [done|]. rewrite Hiff. split.
      * intros (j & Hj & Hc). exists j. split; [lia|done].
      * intros (j & Hj & Hc). exists j. split; [|done].
        destruct (decide (j = i)) as [->|]; [|lia].
        apply rule_blocks_covers in Hc. congruence.
Qed.

(** The address is one the block list looks at: present, long enough, IPv4 and not 0.0.0.0. *)
Definition inspected (e : env) (address addrlen : Z) : Prop :=
  address ≠ 0 ∧ 16 <= addrlen ∧ kread_int e 2 sockaddr_sa_family address = AF_INET ∧
  kread_int e 4 sockaddr_in_sin_addr address ≠ 0.

Lemma run_lsm e sock address addrlen s :
  ∃ r, run e (lsm_socket_connect sock address addrlen) s = (r, s) ∧ (r = 0 ∨ r = - EPERM) ∧
    (r = - EPERM ↔ inspected e address addrlen ∧ ∃ i, 0 <= i < MAX_BLOCKED_CIDRS ∧
       rule_covers s i (kread_int e 4 sockaddr_in_sin_addr address)).
Proof.
  unfold lsm_socket_connect, inspected, sizeof_sockaddr_in.
  assert (∀ P : Prop, (P → False) → ∃ r, (0, s) = (r, s) ∧ (r = 0 ∨ r = - EPERM) ∧
    (r = - EPERM ↔ P)) as Hpass.
  { intros P HP. exists 0. split; [done|]. split; [by left|]. split; [done|]. intros H.
    by destruct HP. }
  destruct (address =? 0) eqn:E1; cbn [orb]; [apply Hpass; zbool; naive_solver|].
  destruct (addrlen <? 16) eqn:E2; [apply Hpass; zbool; intros ((_ & ? & _) & _); lia|].
  rewrite run_bind, run_core_read. cbn [fst snd].
  destruct (_ =? AF_INET) eqn:E3; cbn [negb]; [|apply Hpass; zbool; naive_solver].
  rewrite run_bind, run_core_read. cbn [fst snd].
  destruct (kread_int e 4 _ _ =? 0) eqn:E4; [apply Hpass; zbool; naive_solver|]. zbool.
  destruct (run_scan_rules e 16 0 (kread_int e 4 sockaddr_in_sin_addr address) s ltac:(lia) eq_refl)
    as (r & Hr & Hor & Hiff).
  exists r. split; [done|]. split; [done|]. rewrite Hiff. naive_solver.
Qed.

(** The block list refuses exactly the IPv4 destinations some rule covers. The hook answers
    [-EPERM] when one of the sixteen rules has a non-zero mask under which the destination agrees
    with it bit by bit, and 0 in every other case (no address, a short one, another family,
    0.0.0.0, no covering rule). It never changes the kernel state. *)
Theorem lsm_blocks_exactly_covered (e : env) (sock address addrlen : Z) (s : kstate) :
  let r := run e (lsm_socket_connect sock address addrlen) s in
  let ip := kread_int e 4 sockaddr_in_sin_addr address in
  r.2 = s ∧ (r.1 = 0 ∨ r.1 = - EPERM) ∧
  (r.1 = - EPERM ↔ inspected e address addrlen ∧
     ∃ i, 0 <= i < MAX_BLOCKED_CIDRS ∧ rule_covers s i ip).
Proof.
  cbv zeta. destruct (run_lsm e sock address addrlen s) as (r & -> & H1 & H2).
  cbn [fst snd]. auto.
Qed.

Definition set_rule_count (n : Z) (s : kstate) : kstate :=
  s <| k_arrays := dep_set (k_arrays s) blocked_ips_count (fun _ => n) |>.

(** The number of active rules plays no part: whatever [blocked_ips_count] holds, the decision
    is the same, so a rule left in its slot stays in force when the count is lowered past it. *)
Theorem lsm_ignores_rule_count (e : env) (sock address addrlen n : Z) (s : kstate) :
  (run e (lsm_socket_connect sock address addrlen) (set_rule_count n s)).1 =
  (run e (lsm_socket_connect sock address addrlen) s).1.
Proof.
  destruct (run_lsm e sock address addrlen s) as (r & -> & H1 & H2).
  destruct (run_lsm e sock address addrlen (set_rule_count n s)) as (r' & -> & H1' & H2').
  cbn [fst]. unfold rule_covers, set_rule_count in H2'.
  cbn [k_arrays set_field] in H2'.
  assert (r = - EPERM ↔ r' = - EPERM) as Hiff by (rewrite H2, H2'; done).
  destruct H1 as [-> | ->], H1' as [-> | ->]; naive_solver.
Qed.
