(* ===== verification/Wire.v ===== *)
(** The wire between the kernel program and its userspace reader: the C layout of the records, and
    [TlsEventHeader] of [userspace/src/types.rs], which reads them back. *)

From S2P Require Import Prelude Abi Kernel Logic Sampling Fixture TlsState Emit EmitProps Conn.

(** * Struct layout

    The layout rule of the C ABI, which [#[repr(C)]] follows too: each member at the next multiple
    of its alignment, the size rounded up to the largest alignment. *)

(** An [n]-byte unsigned integer, or an array of [n] bytes. *)
Inductive ctype := CU (n : nat) | CB (n : nat).

Inductive cval := VI (z : Z) | VB (bs : list byte).

Definition ct_size (t : ctype) : nat := match t with CU n | CB n => n end.
Definition ct_align (t : ctype) : nat := match t with CU n => n | CB _ => 1 end.

Definition align_up (off a : nat) : nat := off + (a - off mod a) mod a.

Fixpoint c_offsets (off : nat) (fs : list ctype) : list nat :=
  match fs with
  | [] => []
  | t :: fs' => let o := align_up off (ct_align t) in o :: c_offsets (o + ct_size t) fs'
  end.

Fixpoint c_end (off : nat) (fs : list ctype) : nat :=
  match fs with
  | [] => off
  | t :: fs' => c_end (align_up off (ct_align t) + ct_size t) fs'
  end.

Definition max_align (fs : list ctype) : nat := foldr Nat.max 1%nat (ct_align <$> fs).

Definition c_sizeof (fs : list ctype) : nat := align_up (c_end 0 fs) (max_align fs).

Definition store_val (t : ctype) (v : cval) : list byte :=
  match t, v with
  | CU n, VI z => le_bytes n z
  | CB _, VB bs => bs
  | CU n, VB _ | CB n, VI _ => replicate n x00
  end.

Definition load_val (t : ctype) (bs : list byte) : cval :=
  match t with CU _ => VI (le_val bs) | CB _ => VB bs end.

(** The bytes of a struct from offset [off]; [pad] is what the padding holds. *)
Fixpoint c_store (pad : nat → byte) (off : nat) (fs : list ctype) (vs : list cval) : list byte :=
  match fs, vs with
  | t :: fs', v :: vs' =>
      let o := align_up off (ct_align t) in
      (pad <$> seq off (o - off)) ++ store_val t v ++ c_store pad (o + ct_size t) fs' vs'
  | _, _ => []
  end.

Fixpoint c_load (data : list byte) (off : nat) (fs : list ctype) : list cval :=
  match fs with
  | [] => []
  | t :: fs' =>
      let o := align_up off (ct_align t) in
      load_val t (take (ct_size t) (drop o data)) :: c_load data (o + ct_size t) fs'
  end.

(** The value fits the member. *)
Definition val_ok (t : ctype) (v : cval) : Prop :=
  match t, v with
  | CU n, VI z => 0 <= z < 2 ^ (8 * Z.of_nat n)
  | CB n, VB bs => length bs = n
  | _, _ => False
  end.

Lemma length_store_val t v : val_ok t v → length (store_val t v) = ct_size t.
Proof. destruct t, v; cbn; try done. intros _. apply length_le_bytes. Qed.

Lemma load_store_val t v : val_ok t v → load_val t (store_val t v) = v.
Proof. destruct t, v; cbn; try done. intros Hz. by rewrite le_val_le_bytes, wrap_small. Qed.

Lemma align_up_le off a : (off <= align_up off a)%nat.
Proof. unfold align_up. lia. Qed.

(** What a struct stores is what it loads, whatever its padding holds and whatever follows. *)
Lemma c_load_store pad fs vs off before after :
  Forall2 val_ok fs vs → length before = off →
  c_load (before ++ c_store pad off fs vs ++ after) off fs = vs.
Proof.
  intros Hok. revert off before. induction Hok as [|t v fs vs Hv Hok IH]; intros off before Hb;
    [done|]. cbn [c_load c_store]. set (o := align_up off (ct_align t)).
  pose proof (align_up_le off (ct_align t)) as Ho. fold o in Ho.
  set (p := pad <$> seq off (o - off)).
  assert (length (before ++ p) = o) as Hp.
  { unfold p. rewrite length_app, length_fmap, length_seq. lia. }
  assert (before ++ (p ++ store_val t v ++ c_store pad (o + ct_size t) fs vs) ++ after =
          (before ++ p) ++ store_val t v ++ (c_store pad (o + ct_size t) fs vs ++ after)) as E
    by (by rewrite <- !app_assoc).
  rewrite E. f_equal.
  - rewrite <- Hp, drop_app_length. rewrite <- (length_store_val t v) by done.
    rewrite take_app_length. by apply load_store_val.
  - rewrite (app_assoc (before ++ p)). apply IH.
    rewrite length_app, Hp, length_store_val by done. done.
Qed.

Lemma length_c_store pad fs vs off :
  Forall2 val_ok fs vs → (off + length (c_store pad off fs vs) = c_end off fs)%nat.
Proof.
  intros Hok. revert off. induction Hok as [|t v fs vs Hv Hok IH]; intros off; [cbn; lia|].
  cbn [c_store c_end]. set (o := align_up off (ct_align t)).
  pose proof (align_up_le off (ct_align t)) as Ho. fold o in Ho.
  rewrite !length_app, length_fmap, length_seq, length_store_val by done.
  specialize (IH (o + ct_size t)%nat). lia.
Qed.

(** A struct both sides declare with the C layout, without padding at its end. *)
Class ReprC (A : Type) := {
  rc_fields : list ctype;
  rc_vals : A → list cval;
  rc_of_vals : list cval → option A;
  rc_of_vals_vals : ∀ a, rc_of_vals (rc_vals a) = Some a;
  rc_packed : c_end 0 rc_fields = c_sizeof rc_fields
}.

Section Repr.
Context {A : Type} `{!ReprC A}.

Definition size_of : Z := Z.of_nat (c_sizeof rc_fields).

(** The value fits its struct. *)
Definition fits (a : A) : Prop := Forall2 val_ok rc_fields (rc_vals a).

(** The bytes of the struct; [pad] is what its padding holds. *)
Definition bytes_of (pad : nat → byte) (a : A) : list byte := c_store pad 0 rc_fields (rc_vals a).

(** [ptr::read_unaligned] at the start of [data], behind the length test of the ring callbacks. *)
Definition read_unaligned (data : list byte) : option A :=
  if zlen data <? size_of then None else rc_of_vals (c_load data 0 rc_fields).

Lemma length_bytes_of pad a : fits a → zlen (bytes_of pad a) = size_of.
Proof.
  intros Hf. unfold zlen, size_of, bytes_of. rewrite <- rc_packed.
  by rewrite <- (length_c_store pad _ _ 0 Hf).
Qed.

Lemma read_bytes_of pad a after : fits a → read_unaligned (bytes_of pad a ++ after) = Some a.
Proof.
  intros Hf. unfold read_unaligned. pose proof (length_bytes_of pad a Hf) as Hl.
  unfold zlen in *. rewrite length_app, Nat2Z.inj_add, Hl.
  rewrite (proj2 (Z.ltb_ge _ _)) by lia.
  pose proof (c_load_store pad rc_fields (rc_vals a) 0 [] after Hf eq_refl) as Hload.
  cbn [app] in Hload. unfold bytes_of. by rewrite Hload, rc_of_vals_vals.
Qed.

Lemma read_stored pad a : fits a → read_unaligned (bytes_of pad a) = Some a.
Proof. intros Hf. rewrite <- (app_nil_r (bytes_of pad a)). by apply read_bytes_of. Qed.
End Repr.

Arguments size_of A {_}.

(** * The records *)

(** [struct tls_event_hdr], and field for field [TlsEventHeader]. *)
Definition hdr_fields : list ctype :=
  [CU 8; CU 4; CU 4; CU 8; CU 4; CU 1; CU 1; CU 2; CB 16; CU 8; CU 4; CU 2; CU 2; CU 4; CU 4;
   CB 16; CB 16; CU 2; CU 2; CU 4; CU 4; CU 4; CU 8; CU 4; CU 1; CU 1; CU 1; CU 1; CU 8].

Definition hdr_vals (h : tls_event_hdr) : list cval :=
  [VI (h_ts_ns h); VI (h_pid h); VI (h_tid h); VI (h_ssl_ptr h); VI (h_data_len h);
   VI (h_direction h); VI (h_ip_family h); VI (h__pad16 h); VB (h_comm h); VI (h_cgroup_id h);
   VI (h_netns_ino h); VI (h_src_port h); VI (h_dst_port h); VI (h_src_ip4 h); VI (h_dst_ip4 h);
   VB (h_src_ip6 h); VB (h_dst_ip6 h); VI (h_abi_version h); VI (h_flags h); VI (h_actual_len h);
   VI (h_copied_len h); VI (h_conn_generation h); VI (h_proc_start_ns h); VI (h_dir_seq h);
   VI (h_attribution h); VI (h_provider_id h); VI (h_role_hint h); VI (h__pad8 h);
   VI (h_sock_cookie h)].

Definition hdr_of_vals (vs : list cval) : option tls_event_hdr :=
  match vs with
  | [VI ts; VI pid; VI tid; VI ptr; VI dlen; VI dir; VI fam; VI p16; VB comm; VI cg; VI ns;
     VI sp; VI dp; VI s4; VI d4; VB s6; VB d6; VI abi; VI fl; VI al; VI cl; VI gen; VI start;
     VI seq; VI att; VI prov; VI role; VI p8; VI cookie] =>
      Some (Build_tls_event_hdr ts pid tid ptr dlen dir fam p16 comm cg ns sp dp s4 d4 s6 d6 abi
              fl al cl gen start seq att prov role p8 cookie)
  | _ => None
  end.

(** [struct close_event] and [CloseEvent]. *)
Definition close_fields : list ctype := [CU 8; CU 4; CU 4; CU 8; CU 8; CU 4; CU 4].

Definition close_vals (c : close_event) : list cval :=
  [VI (ce_ts_ns c); VI (ce_pid c); VI (ce_tid c); VI (ce_ssl_ptr c); VI (ce_proc_start_ns c);
   VI (ce_generation c); VI (ce__pad c)].

Definition close_of_vals (vs : list cval) : option close_event :=
  match vs with
  | [VI ts; VI pid; VI tid; VI ptr; VI start; VI gen; VI pad] =>
      Some (Build_close_event ts pid tid ptr start gen pad)
  | _ => None
  end.

(** [struct new_proc_event] and [NewProcEvent]. *)
Definition proc_fields : list ctype := [CU 4; CU 4; CU 8; CB 16; CB 128].

Definition proc_vals (p : new_proc_event) : list cval :=
  [VI (pe_pid p); VI (pe__pad p); VI (pe_cgroup_id p); VB (pe_comm p); VB (pe_filename p)].

Definition proc_of_vals (vs : list cval) : option new_proc_event :=
  match vs with
  | [VI pid; VI pad; VI cgroup; VB comm; VB filename] =>
      Some (Build_new_proc_event pid pad cgroup comm filename)
  | _ => None
  end.

#[export] Program Instance close_event_repr : ReprC close_event :=
  {| rc_fields := close_fields; rc_vals := close_vals; rc_of_vals := close_of_vals |}.
Solve All Obligations with by try intros [].

#[export] Program Instance new_proc_event_repr : ReprC new_proc_event :=
  {| rc_fields := proc_fields; rc_vals := proc_vals; rc_of_vals := proc_of_vals |}.
Solve All Obligations with by try intros [].

(** The header fits its struct. *)
Definition hdr_wf (h : tls_event_hdr) : Prop := Forall2 val_ok hdr_fields (hdr_vals h).

Definition hdr_bytes (pad : nat → byte) (h : tls_event_hdr) : list byte :=
  c_store pad 0 hdr_fields (hdr_vals h).

(** A record of the [events] ring as userspace receives it. *)
Definition event_bytes (pad : nat → byte) (x : tls_event) : list byte :=
  hdr_bytes pad (ev_hdr x) ++ ev_data x.

(** * [TlsEventHeader] *)

Definition HEADER_SIZE : Z := Z.of_nat (c_sizeof hdr_fields).

(** The length the header reports. *)
Definition reported_len (h : tls_event_hdr) : Z :=
  if 0 <? h_copied_len h then h_copied_len h else h_data_len h.

Definition from_bytes (data : list byte) : option (tls_event_hdr * list byte) :=
  if zlen data <? HEADER_SIZE then None else
  header ← hdr_of_vals (c_load data 0 hdr_fields);
  let max_payload := zlen data - HEADER_SIZE in
  let data_len := Z.min (reported_len header) max_payload in
  Some (header, ztake data_len (zdrop HEADER_SIZE data)).

Definition is_truncated (h : tls_event_hdr) : bool :=
  negb (Z.land (h_flags h) FLAG_TRUNCATED =? 0) ||
  ((0 <? h_actual_len h) && (0 <? h_copied_len h) && (h_copied_len h <? h_actual_len h)).

Definition attribution_confident (h : tls_event_hdr) : bool :=
  negb (Z.land (h_flags h) FLAG_ATTR_SSL =? 0).

Lemma hdr_of_vals_vals h : hdr_of_vals (hdr_vals h) = Some h.
Proof. by destruct h. Qed.

Lemma HEADER_SIZE_144 : HEADER_SIZE = 144.
Proof. reflexivity. Qed.

Lemma length_hdr_bytes pad h : hdr_wf h → length (hdr_bytes pad h) = 144%nat.
Proof. intros Hwf. by pose proof (length_c_store pad hdr_fields (hdr_vals h) 0 Hwf). Qed.

Lemma from_bytes_hdr pad h payload :
  hdr_wf h →
  from_bytes (hdr_bytes pad h ++ payload) =
    Some (h, ztake (Z.min (reported_len h) (zlen payload)) payload).
Proof.
  intros Hwf. unfold from_bytes. rewrite HEADER_SIZE_144.
  pose proof (length_hdr_bytes pad h Hwf) as Hlen.
  assert (zlen (hdr_bytes pad h ++ payload) = 144 + zlen payload) as Hz
    by (unfold zlen; rewrite length_app; lia).
  assert (0 <= zlen payload) as Hp by (unfold zlen; lia).
  rewrite Hz. rewrite (proj2 (Z.ltb_ge (144 + zlen payload) 144)) by lia.
  pose proof (c_load_store pad hdr_fields (hdr_vals h) 0 [] payload Hwf eq_refl) as Hl.
  cbn [app] in Hl. unfold hdr_bytes in *. rewrite Hl, hdr_of_vals_vals. cbn [mbind option_bind].
  replace (144 + zlen payload - 144) with (zlen payload) by lia. unfold zdrop.
  change (Z.to_nat 144) with 144%nat. rewrite <- Hlen at 1. by rewrite drop_app_length.
Qed.

(** Whatever the bytes are, the fields can be read. *)
Lemma hdr_of_load data : is_Some (hdr_of_vals (c_load data 0 hdr_fields)).
Proof. by eexists. Qed.

(** * What the kernel keeps in range *)

Definition conn_wf (i : conn_info) : Prop :=
  0 <= ci_src_port i < 2 ^ 16 ∧ 0 <= ci_dst_port i < 2 ^ 16 ∧ 0 <= ci_role i < 2 ^ 8 ∧
  0 <= ci_src_ip4 i < 2 ^ 32 ∧ 0 <= ci_dst_ip4 i < 2 ^ 32 ∧
  length (ci_src_ip6 i) = 16%nat ∧ length (ci_dst_ip6 i) = 16%nat ∧
  0 <= ci_sock_ino i < 2 ^ 64.

Definition ss_wf (st : ssl_state) : Prop :=
  0 <= ss_generation st < 2 ^ 32 ∧ 0 <= ss_seq0 st < 2 ^ 32 ∧ 0 <= ss_seq1 st < 2 ^ 32.

(** Clocks and ids have their width, and reserved memory has the size of its record. *)
Definition env_wf (e : env) : Prop :=
  0 <= e_ktime e < 2 ^ 64 ∧ 0 <= e_cgroup e < 2 ^ 64 ∧ 0 <= e_freed e < 2 ^ 32 ∧
  fits (e_stale e proc_events).

Record state_wf (s : kstate) : Prop := {
  wf_state : ∀ k st, lookup_map s ssl_state_map k = Some st → ss_wf st;
  wf_ssl_conn : ∀ k i, lookup_map s ssl_ptr_to_conn k = Some i → conn_wf i;
  wf_thread_conn : ∀ t i, lookup_map s active_connections t = Some i → conn_wf i;
  wf_role : ∀ sk r, lookup_map s sock_role sk = Some r → 0 <= r < 2 ^ 8
}.

Lemma hdr_init_wf ts comm cgroup start pid_tgid ptr al cl d prov g q :
  0 <= ts < 2 ^ 64 → 0 <= cgroup < 2 ^ 64 → 0 <= start < 2 ^ 64 → 0 <= ptr < 2 ^ 64 →
  0 <= al < 2 ^ 32 → 0 <= cl < 2 ^ 32 → 0 <= d < 2 ^ 8 → 0 <= prov < 2 ^ 8 →
  0 <= g < 2 ^ 32 → 0 <= q < 2 ^ 32 →
  hdr_wf (hdr_init ts comm cgroup start pid_tgid ptr al cl d prov g q).
Proof.
  intros. assert (length (ztake 16 (overlay comm zeros16)) = 16%nat) as Hc.
  { unfold ztake, overlay. rewrite length_take, length_app, length_drop. cbn. lia. }
  unfold hdr_wf, hdr_fields, hdr_vals.
  repeat first [apply Forall2_nil_2 | apply Forall2_cons_2]; cbn [val_ok hdr_init
    h_ts_ns h_pid h_tid h_ssl_ptr h_data_len h_direction h_ip_family h__pad16 h_comm h_cgroup_id
    h_netns_ino h_src_port h_dst_port h_src_ip4 h_dst_ip4 h_src_ip6 h_dst_ip6 h_abi_version
    h_flags h_actual_len h_copied_len h_conn_generation h_proc_start_ns h_dir_seq h_attribution
    h_provider_id h_role_hint h__pad8 h_sock_cookie];
    try assumption; try reflexivity; try (apply wrap_range; lia); try (cbn; lia).
  - unfold TLS_EVENT_ABI_VERSION. lia.
  - destruct (cl <? al); (split; [discriminate|reflexivity]).
  - unfold ATTR_NONE. lia.
Qed.

(** Setting members to values that fit keeps the header fitting. *)
Lemma hdr_attr_wf a f h :
  0 <= a < 2 ^ 8 → 0 <= f < 2 ^ 16 → hdr_wf h → hdr_wf (hdr_attr a f h).
Proof.
  intros Ha Hf Hwf. unfold hdr_wf, hdr_fields, hdr_vals in *. decompose_Forall_hyps.
  repeat first [apply Forall2_nil_2 | apply Forall2_cons_2]; try assumption.
  by apply (lor_range 16).
Qed.

Lemma hdr_netns_wf ino h : 0 <= ino < 2 ^ 32 → hdr_wf h → hdr_wf (h <| h_netns_ino := ino |>).
Proof.
  intros Ha Hwf. unfold hdr_wf, hdr_fields, hdr_vals in *. decompose_Forall_hyps.
  repeat first [apply Forall2_nil_2 | apply Forall2_cons_2]; assumption.
Qed.

Lemma hdr_set_conn_wf i h : conn_wf i → hdr_wf h → hdr_wf (hdr_set_conn i h).
Proof.
  intros (H1 & H2 & H3 & H4 & H5 & H6 & H7 & H8) Hwf. unfold hdr_set_conn.
  unfold hdr_wf, hdr_fields, hdr_vals in *. decompose_Forall_hyps.
  destruct (ci_family i =? AF_INET6); [|destruct (ci_family i =? AF_INET)];
    repeat first [apply Forall2_nil_2 | apply Forall2_cons_2]; try assumption; cbn; lia.
Qed.

Lemma kread_int_range e size f src : 0 <= size → 0 <= kread_int e size f src < 2 ^ (8 * size).
Proof.
  intros Hs. unfold kread_int. pose proof (le_val_range (kread e (u64 (src + e_offset e f)) size)) as H.
  rewrite length_kread, Z2Nat.id in H by done. exact H.
Qed.

Lemma proc_start_range e : 0 <= proc_start_ns e < 2 ^ 64.
Proof. unfold proc_start_ns. cbv zeta. case_match; [lia|]. by apply (kread_int_range e 8). Qed.

Lemma netns_ino_range e : 0 <= netns_ino_of e < 2 ^ 32.
Proof.
  unfold netns_ino_of. cbv zeta. do 2 (case_match; [lia|]). by apply (kread_int_range e 4).
Qed.

Lemma ensure_state_wf e k k' st s :
  state_wf s → lookup_map (ensure_state e k s) ssl_state_map k' = Some st → ss_wf st.
Proof.
  intros Hs. unfold ensure_state. destruct (lookup_map s ssl_state_map k); [by apply Hs|].
  intros [[-> ->]|H]%update_elem_lookup; [by repeat split|by eapply (wf_state s)].
Qed.

Lemma ss_seq_range d st : ss_wf st → 0 <= ss_seq d st < 2 ^ 32.
Proof. intros (_ & H0 & H1). unfold ss_seq. by destruct (d =? 0). Qed.

Lemma attempt_range e buf len d ptr s :
  state_wf s →
  let a := attempt_of e buf len d ptr s in
  0 <= at_generation a < 2 ^ 32 ∧ 0 <= at_seq a < 2 ^ 32.
Proof.
  intros Hs. cbv zeta. unfold attempt_of, next_seq_spec. cbv zeta.
  set (s0 := bump_stat _ _ s).
  pose proof (λ k' st, ensure_state_wf e (key_of e ptr) k' st s0) as Hst.
  assert (state_wf s0) as Hs0 by (destruct Hs; split; assumption).
  destruct (lookup_map (ensure_state _ _ _) _ _) as [st|] eqn:El.
  - destruct (Hst _ _ Hs0 El) as (Hg & _). pose proof (ss_seq_range (Z.land d 1) st (Hst _ _ Hs0 El)).
    by destruct (sampled_spec _ _ _ _).
  - destruct (sampled_spec _ _ _ _). cbn. lia.
Qed.

(** The arguments of an emission fit their C types. *)
Definition call_wf (len d ptr prov : Z) : Prop :=
  0 <= len < 2 ^ 32 ∧ 0 <= d < 2 ^ 8 ∧ 0 <= ptr < 2 ^ 64 ∧ 0 <= prov < 2 ^ 8.

Lemma hdr_attribute_wf a h :
  match a with AttrSsl i | AttrThread i => conn_wf i | AttrNone => True end →
  hdr_wf h → hdr_wf (hdr_attribute a h).
Proof.
  destruct a as [i|i|]; cbn [hdr_attribute]; [| |done]; intros Hi Hh;
    apply hdr_set_conn_wf; try done; by apply hdr_attr_wf.
Qed.

Lemma published_wf b e buf len d ptr prov s :
  env_wf e → state_wf s → call_wf len d ptr prov →
  hdr_wf (ev_hdr (published b e buf len d ptr prov (attempt_of e buf len d ptr s))).
Proof.
  intros (Hts & Hcg & _ & _) Hs (Hlen & Hd & Hptr & Hprov).
  destruct (attempt_range e buf len d ptr s Hs) as [Hg Hq].
  unfold published, hdr_of, event_hdr. cbn [ev_hdr]. rewrite attribute_attempt.
  apply hdr_attribute_wf.
  - unfold attribute. destruct (lookup_map s ssl_ptr_to_conn _) eqn:E1; [by eapply (wf_ssl_conn s)|].
    destruct (lookup_map s active_connections _) eqn:E2; [by eapply (wf_thread_conn s)|done].
  - apply hdr_netns_wf; [apply netns_ino_range|]. pose proof (clamp_len_range len).
    apply hdr_init_wf; try done; [apply proc_start_range|]. unfold MAX_DATA in *. lia.
Qed.

Lemma trunc_flag_cases al cl : trunc_flag al cl = 0 ∨ trunc_flag al cl = FLAG_TRUNCATED.
Proof. unfold trunc_flag. case_match; auto. Qed.

(** * Properties *)

(** A header survives the wire. A header whose members fit their types, stored with the C
    layout over any padding and followed by any payload, is read back by [from_bytes] with every
    member equal, and with the first [copied_len] bytes of the payload ([data_len] when nothing was
    copied), cut to what was received. The layout has no padding: 144 bytes, the size both sides
    use. *)
Theorem header_roundtrip (pad : nat → byte) (h : tls_event_hdr) (payload : list byte)
    (Hwf : hdr_wf h) :
  from_bytes (hdr_bytes pad h ++ payload) =
    Some (h, ztake (Z.min (if 0 <? h_copied_len h then h_copied_len h else h_data_len h)
                      (zlen payload)) payload) ∧
  zlen (hdr_bytes pad h) = sizeof_tls_event_hdr ∧ HEADER_SIZE = sizeof_tls_event_hdr ∧
  Z.of_nat (foldr (fun t n => (ct_size t + n)%nat) 0%nat hdr_fields) = sizeof_tls_event_hdr.
Proof.
  split; [by apply from_bytes_hdr|]. split; [|done].
  unfold zlen. by rewrite length_hdr_bytes.
Qed.

Lemma demo_hdr_wf : hdr_wf demo_hdr.
Proof.
  unfold hdr_wf, hdr_fields, hdr_vals.
  repeat first [apply Forall2_nil_2 | apply Forall2_cons_2]; first [reflexivity|cbn; lia].
Qed.

Lemma header_roundtrip_witness :
  hdr_wf demo_hdr ∧
  from_bytes (hdr_bytes (fun _ => x00) demo_hdr ++ demo_request) = Some (demo_hdr, demo_request).
Proof.
  split; [exact demo_hdr_wf|].
  exact (proj1 (header_roundtrip (fun _ => x00) demo_hdr demo_request demo_hdr_wf)).
Defined.

(** The reader is safe on any bytes. It refuses exactly the records shorter than a header;
    otherwise the payload it returns is a slice of the record right after the header, never longer
    than what was received nor than what the header reports. *)
Theorem from_bytes_safe (data : list byte) :
  (from_bytes data = None ↔ zlen data < HEADER_SIZE) ∧
  ∀ h payload, from_bytes data = Some (h, payload) →
    ∃ hd rest, data = hd ++ payload ++ rest ∧ zlen hd = HEADER_SIZE ∧
      (0 <= reported_len h → zlen payload = Z.min (reported_len h) (zlen data - HEADER_SIZE)).
Proof.
  unfold from_bytes. destruct (hdr_of_load data) as [h Hh]. rewrite Hh. cbn [mbind option_bind].
  destruct (zlen data <? HEADER_SIZE) eqn:E; zbool; [by split|]. split; [split; [done|lia]|].
  intros h' payload [= <- <-]. rewrite HEADER_SIZE_144 in *.
  exists (take 144 data), (zdrop (Z.min (reported_len h) (zlen data - 144)) (zdrop 144 data)).
  assert (zlen (take 144 data) = 144) as Hhd
    by (unfold zlen in *; rewrite length_take; lia).
  split; [|split; [done|]].
  - unfold ztake, zdrop. rewrite take_drop. by rewrite (take_drop 144).
  - intros Hr. rewrite length_ztake by lia. unfold zdrop.
    unfold zlen in *. rewrite length_drop. lia.
Qed.

(** From user memory to the reader. In the conditions of a published call and a well-formed
    state, the record, laid out in C and parsed by [TlsEventHeader], yields exactly the bytes of
    the user buffer that fit ([min(len, 32767)] of them), on either path: the stale tail of a
    fixed slot never shows. The reader calls the record truncated iff bytes are missing, and
    trusts its tuple iff the object was associated exactly. *)
Theorem captured_bytes_reach_reader (b : bool) (pad : nat → byte) (e : env)
    (buf len direction ssl_ptr provider : Z) (s : kstate) (bs : list byte)
    (Hwf : env_wf e ∧ state_wf s) (Hcall : call_wf len direction ssl_ptr provider)
    (Hcfg : unsampled s) (Hroom : room_for b e len)
    (Hread : uread e buf (Z.min len (MAX_DATA - 1)) = Some bs) :
  let s' := (run e (emit_event b buf len direction ssl_ptr provider) s).2 in
  ∃ x, k_rings s' events = k_rings s events ++ [x] ∧
    from_bytes (event_bytes pad x) = Some (ev_hdr x, bs) ∧
    is_truncated (ev_hdr x) = (MAX_DATA - 1 <? len) ∧
    attribution_confident (ev_hdr x) =
      bool_decide (is_Some (lookup_map s ssl_ptr_to_conn (key_of e ssl_ptr))).
Proof.
  cbv zeta. destruct Hwf as [He Hs]. pose proof Hcall as ((Hlen & _) & _).
  rewrite run_emit_event by done. cbn [snd].
  destruct (emit_publishes b e buf len direction ssl_ptr provider s bs Hlen Hcfg Hroom Hread)
    as (x & Hx & Heq & Hrep).
  exists x. split; [done|].
  pose proof (published_wf b e buf len direction ssl_ptr provider s He Hs Hcall) as Hxwf.
  rewrite <- Heq in Hxwf.
  destruct Hrep as (Hd & Hc & Hc' & Hdl & Ha & Ht & _).
  split; [|split].
  - unfold event_bytes. rewrite from_bytes_hdr by done. do 2 f_equal. rewrite <- Hd.
    f_equal. unfold reported_len. rewrite Hdl. apply (f_equal zlen) in Hd.
    rewrite length_ztake in Hd by lia. destruct (0 <? h_copied_len _); lia.
  - unfold is_truncated.
    assert (Z.land (h_flags (ev_hdr x)) FLAG_TRUNCATED =
            if Z.testbit (h_flags (ev_hdr x)) 0 then 1 else 0) as ->.
    { change FLAG_TRUNCATED with (Z.ones 1). rewrite Z.land_ones by lia.
      rewrite Z.bit0_odd. apply Zmod_odd. }
    rewrite Ht, Ha, Hc'. unfold MAX_DATA. change (32768 - 1) with 32767.
    destruct (32767 <? len) eqn:E; [done|]. zbool. cbn [negb orb].
    replace (Z.min len 32767 <? len) with false by lia. by rewrite andb_false_r.
  - subst x. unfold attribution_confident, published. cbn [ev_hdr].
    rewrite hdr_of_flags, attribute_attempt. unfold attribute.
    destruct (trunc_flag_cases len (clamp_len len)) as [-> | ->];
      (destruct (lookup_map s ssl_ptr_to_conn _); [done|]);
      by destruct (lookup_map s active_connections _).
Qed.

Lemma demo_env_wf : env_wf demo_env.
Proof.
  do 3 (split; [cbn; lia|]). repeat apply Forall2_cons_2; try apply Forall2_nil_2;
    first [reflexivity|cbn; lia].
Qed.

Lemma demo_state_wf : state_wf demo_state.
Proof. by split. Qed.

Lemma captured_bytes_reach_reader_witness :
  env_wf demo_env ∧
  ∃ x, k_rings (run demo_env (emit_event false demo_buf 20 1 7 PROVIDER_OPENSSL) demo_state).2
         events = [x] ∧
       from_bytes (event_bytes (fun _ => x00) x) = Some (ev_hdr x, demo_request).
Proof.
  split; [exact demo_env_wf|].
  destruct (captured_bytes_reach_reader false (fun _ => x00) demo_env demo_buf 20 1 7
    PROVIDER_OPENSSL demo_state demo_request (conj demo_env_wf demo_state_wf)
    ltac:(unfold call_wf, PROVIDER_OPENSSL; lia) ltac:(vm_compute; split; discriminate)
    ltac:(split; [reflexivity|discriminate]) ltac:(vm_compute; reflexivity))
    as (x & Hx & Hd & _).
  exists x. split; [exact Hx|exact Hd].
Defined.
