(* ===== verification/System.v ===== *)
(** The whole program: every handler as an [invocation], and several CPUs that run them at once.

    Each CPU runs at most one handler at a time, one helper call per step; steps of different CPUs
    interleave freely, the answers come from any environment of the right CPU and thread, and
    userspace may rewrite the arrays at any point. [inv_sound] is the rule the system theorems are
    proved by: what a watcher checks on every path of every handler holds in every reachable
    state. *)

From S2P Require Import Prelude Abi Kernel Logic TlsState Emit Conn Probes Ktls GoTls CallSites Proc.

(** * Invocations *)

(** One firing of a probe with its context. *)
Inductive invocation :=
  | SiteEntry (c : site) (ctx : pt_regs)
  | SiteExit (c : site) (ctx : pt_regs)
  | TcpConnect (ctx : pt_regs)
  | TcpAccept (ctx : pt_regs)
  | TcpClose (ctx : pt_regs)
  | SslSetFd (ctx : pt_regs)
  | SslFree (ctx : pt_regs)
  | Exec (args : Z → Z)
  | SocketConnect (sock address addrlen : Z).

(** The program behind each [SEC(...)]. *)
Definition handler (b : bool) (arch : target_arch) (i : invocation) : prog Z :=
  match i with
  | SiteEntry c ctx => site_entry arch c ctx
  | SiteExit c ctx => site_exit b arch c ctx
  | TcpConnect ctx => tcp_connect_entry ctx
  | TcpAccept ctx => tcp_accept_ret ctx
  | TcpClose ctx => tcp_close_entry ctx
  | SslSetFd ctx => ssl_set_fd_entry ctx
  | SslFree ctx => ssl_free_entry ctx
  | Exec args => handle_new_process args
  | SocketConnect sock address addrlen => lsm_socket_connect sock address addrlen
  end.

(** * The machine *)

(** A handler in progress on behalf of thread [th_id], with what is left of it. *)
Record thread := { th_id : Z; th_prog : prog Z }.

Record config := { c_state : kstate; c_threads : Z → option thread }.

Definition idle (s : kstate) : config := {| c_state := s; c_threads := fun _ => None |}.

Section Machine.
Context (b : bool) (arch : target_arch).

(** [starts id i]: thread [id] may fire invocation [i]; [envs]: the environments considered. *)
Context (starts : Z → invocation → Prop) (envs : env → Prop).

Inductive step : config → config → Prop :=
  | step_start s ths cpu id i :
      ths cpu = None → starts id i →
      step {| c_state := s; c_threads := ths |}
           {| c_state := s;
              c_threads := fn_set ths cpu (Some {| th_id := id; th_prog := handler b arch i |}) |}
  | step_call s ths cpu id R (c : helper R) (k : R → prog Z) e :
      ths cpu = Some {| th_id := id; th_prog := Call c k |} →
      envs e → e_cpu e = cpu → e_pid_tgid e = id →
      step {| c_state := s; c_threads := ths |}
           {| c_state := (handle e c s).2;
              c_threads :=
                fn_set ths cpu (Some {| th_id := id; th_prog := k (handle e c s).1 |}) |}
  | step_end s ths cpu id a :
      ths cpu = Some {| th_id := id; th_prog := Ret a |} →
      step {| c_state := s; c_threads := ths |}
           {| c_state := s; c_threads := fn_set ths cpu None |}
  | step_user s ths arrays :
      step {| c_state := s; c_threads := ths |}
           {| c_state := s <| k_arrays := arrays |>; c_threads := ths |}.

Definition reachable : config → config → Prop := rtc step.

(** A handler that is alone on its CPU and whose environment does not change does what [run] says:
    the sequential theorems describe one of the machine's schedules. *)
Lemma run_reaches e (p : prog Z) s ths :
  envs e → ths (e_cpu e) = Some {| th_id := e_pid_tgid e; th_prog := p |} →
  ∃ ths', reachable {| c_state := s; c_threads := ths |}
                    {| c_state := (run e p s).2; c_threads := ths' |} ∧
    ths' (e_cpu e) = None ∧ ∀ c, c ≠ e_cpu e → ths' c = ths c.
Proof.
  intros He. revert s ths. induction p as [a|R c k IH]; intros s ths Hth.
  - eexists. split; [apply rtc_once; by eapply step_end|].
    split; [by unfold fn_set; rewrite decide_True|]. intros c Hc. unfold fn_set.
    by rewrite decide_False by congruence.
  - cbn [run]. destruct (handle e c s) as [r s1] eqn:Eh.
    destruct (IH r s1 (fn_set ths (e_cpu e)
      (Some {| th_id := e_pid_tgid e; th_prog := k r |}))) as (ths' & Hr & Hn & Ho).
    { unfold fn_set. by rewrite decide_True. }
    exists ths'. split; [|split; [done|]].
    + eapply rtc_l; [|exact Hr].
      pose proof (step_call s ths (e_cpu e) (e_pid_tgid e) R c k e Hth He eq_refl eq_refl) as Hs.
      by rewrite Eh in Hs.
    + intros c' Hc. rewrite Ho by done. unfold fn_set. by rewrite decide_False by congruence.
Qed.

Lemma invocation_reaches e i s ths :
  envs e → starts (e_pid_tgid e) i → (∀ c, ths c = None) →
  ∃ ths', reachable {| c_state := s; c_threads := ths |}
                    {| c_state := (run e (handler b arch i) s).2; c_threads := ths' |} ∧
    ∀ c, ths' c = None.
Proof.
  intros He Hs Hn.
  destruct (run_reaches e (handler b arch i) s (fn_set ths (e_cpu e)
    (Some {| th_id := e_pid_tgid e; th_prog := handler b arch i |}))) as (ths' & Hr & H1 & H2);
    [done|unfold fn_set; by rewrite decide_True|].
  exists ths'. split.
  - eapply rtc_l; [by apply step_start|exact Hr].
  - intros c. destruct (decide (c = e_cpu e)) as [->|Hc]; [done|]. rewrite H2 by done.
    unfold fn_set. by rewrite decide_False by congruence.
Qed.

(** Handlers that run one after the other. *)
Definition run_all (l : list (env * invocation)) (s : kstate) : kstate :=
  fold_left (fun s ei => (run ei.1 (handler b arch ei.2) s).2) l s.

Lemma run_all_reaches l s :
  Forall (fun ei => envs ei.1 ∧ starts (e_pid_tgid ei.1) ei.2) l →
  ∃ ths, reachable (idle s) {| c_state := run_all l s; c_threads := ths |}.
Proof.
  intros Hl. unfold idle, run_all.
  cut (∀ ths, (∀ c, ths c = None) → ∃ ths', reachable {| c_state := s; c_threads := ths |}
    {| c_state := fold_left (fun s ei => (run ei.1 (handler b arch ei.2) s).2) l s;
       c_threads := ths' |}); [by auto|].
  revert s. induction Hl as [|[e i] l [He Hi] _ IH]; intros s ths Hn; [by exists ths|].
  destruct (invocation_reaches e i s ths He Hi Hn) as (ths1 & R1 & N1).
  destruct (IH (run e (handler b arch i) s).2 ths1 N1) as (ths2 & R2).
  exists ths2. by transitivity {| c_state := (run e (handler b arch i) s).2; c_threads := ths1 |}.
Qed.

(** * Invariants from watchers *)

Section Invariant.
Context {G : Type} (W : watcher G) (g0 : Z → G) (Q : Z → G → Prop).
Context (I : kstate → (Z → option G) → Prop).

Hypothesis handlers_ok : ∀ id i, starts id i → wp W id (handler b arch i) Q (g0 id).
Hypothesis call_ok : ∀ s gs e g R (c : helper R),
  I s gs → gs (e_cpu e) = Some g → envs e → w_ok W c g →
  w_rely W c (handle e c s).1 ∧
  I (handle e c s).2 (fn_set gs (e_cpu e) (Some (w_next W c (handle e c s).1 g))).
Hypothesis start_ok : ∀ s gs cpu id i,
  I s gs → gs cpu = None → starts id i → I s (fn_set gs cpu (Some (g0 id))).
Hypothesis end_ok : ∀ s gs cpu g a,
  I s gs → gs cpu = Some g → Q a g → I s (fn_set gs cpu None).
Hypothesis user_ok : ∀ s gs arrays, I s gs → I (s <| k_arrays := arrays |>) gs.

(** A CPU's ghost state accounts for what is left of its handler. *)
Definition follows (th : option thread) (g : option G) : Prop :=
  match th, g with
  | Some th, Some g => wp W (th_id th) (th_prog th) Q g
  | None, None => True
  | _, _ => False
  end.

Definition holds (cfg : config) : Prop :=
  ∃ gs, I (c_state cfg) gs ∧ ∀ cpu, follows (c_threads cfg cpu) (gs cpu).

Lemma follows_set (ths : Z → option thread) (gs : Z → option G) (cpu : Z) th g :
  (∀ c, follows (ths c) (gs c)) → follows th g →
  ∀ c, follows (fn_set ths cpu th c) (fn_set gs cpu g c).
Proof. intros Hall Hf c. unfold fn_set. by case_decide. Qed.

Lemma follows_some (ths : Z → option thread) (gs : Z → option G) (cpu : Z) th :
  (∀ c, follows (ths c) (gs c)) → ths cpu = Some th →
  ∃ g, gs cpu = Some g ∧ wp W (th_id th) (th_prog th) Q g.
Proof.
  intros Hall Hth. specialize (Hall cpu). rewrite Hth in Hall.
  destruct (gs cpu) as [g|]; [by exists g|done].
Qed.

Lemma step_holds cfg cfg' : step cfg cfg' → holds cfg → holds cfg'.
Proof using handlers_ok call_ok start_ok end_ok user_ok.
  intros Hstep (gs & HI & Hf).
  destruct Hstep as [s ths cpu id i Hnone Hs|s ths cpu id R c k e Hth He Hcpu Hid
                    |s ths cpu id a Hth|s ths arrays]; cbn [c_state c_threads] in *.
  - exists (fn_set gs cpu (Some (g0 id))). split.
    + apply (start_ok _ _ _ _ i); [done| |done]. specialize (Hf cpu). rewrite Hnone in Hf.
      by destruct (gs cpu).
    + apply follows_set; [done|]. by apply handlers_ok.
  - destruct (follows_some _ _ _ _ Hf Hth) as (g & Hg & Hok & Hk). cbn [th_id th_prog] in *.
    subst cpu id. destruct (call_ok _ _ _ _ _ c HI Hg He Hok) as [Hrel HI'].
    eexists. split; [exact HI'|]. apply follows_set; [done|]. cbn [follows th_id th_prog].
    apply Hk; [apply handle_possible|done].
  - destruct (follows_some _ _ _ _ Hf Hth) as (g & Hg & HQ). cbn [th_id th_prog] in *.
    exists (fn_set gs cpu None). split; [by eapply end_ok|]. by apply follows_set.
  - exists gs. split; [by apply user_ok|done].
Qed.

Theorem inv_sound s cfg :
  I s (fun _ => None) → reachable (idle s) cfg → holds cfg.
Proof using handlers_ok call_ok start_ok end_ok user_ok.
  intros H0 Hr. assert (holds (idle s)) as Hinit by (by exists (fun _ => None)).
  unfold reachable in Hr. revert Hinit. generalize (idle s) Hr. clear Hr H0.
  induction 1 as [c|c1 c2 c3 Hs _ IH]; [done|]. intros H1. apply IH. by eapply step_holds.
Qed.
End Invariant.
End Machine.
