(* ===== verification/Typed.v ===== *)
(** Every read of kernel memory is well typed: a non-null pointer of the right struct, a member of
    that struct, and exactly its size.

    [typing] watches the reads of a handler. Its ghost state is the pointers the handler has been
    given, by the hooked function or by an earlier read, each with the type it points to in
    [bpf/vmlinux.h]. *)

From S2P Require Import Prelude Ctypes Abi Kernel Logic KernelTypes Sampling Fixture TlsState Emit.
From S2P Require Import EmitProps Conn Lifecycle Calls Probes Ktls GoTls CallSites Proc System.

#[local] Open Scope string_scope.
#[local] Open Scope list_scope.
#[local] Open Scope Z_scope.

(** * The discipline *)

(** Pointers with what they point to. *)
Notation pointers := (list (Z * string)).

(** Casts: from the type a pointer was given with to the one it is dereferenced as. *)
Notation cast_list := (list (string * string)).

(** [p] may be dereferenced as [tag]: it was given as such, or as a type one of the casts is from. *)
Definition points_to (casts : cast_list) (g : pointers) (p : Z) (tag : string) : Prop :=
  p ≠ 0 ∧ ((p, tag) ∈ g ∨ ∃ from, (from, tag) ∈ casts ∧ (p, from) ∈ g).

Lemma points_to_mono casts g g' p tag : g ⊆ g' → points_to casts g p tag → points_to casts g' p tag.
Proof. intros Hg [Hp Hin]. split; [done|]. naive_solver. Qed.

(** A slot of the descriptor table. *)
Definition table_slot (g : pointers) (addr : Z) : Prop :=
  ∃ base i, base ≠ 0 ∧ (base, "struct file *") ∈ g ∧ addr = u64 (base + 8 * i).

Definition read_ok (casts : cast_list) (g : pointers) {R} (c : helper R) : Prop :=
  match c with
  | bpf_core_read size f src => points_to casts g src (kfield_root f).1 ∧ size = kfield_size f
  | bpf_probe_read_kernel size addr => table_slot g addr ∧ size = sizeof (CPtr "struct file")
  | bpf_probe_read_kernel_str _ addr => (addr, "char") ∈ g
  | _ => True
  end.

(** What a call adds to the pointers. *)
Definition learn {R} (c : helper R) : R → pointers :=
  match c in helper R return R → pointers with
  | bpf_get_current_task => fun r => [(r, "struct task_struct")]
  | bpf_core_read _ f _ => fun r =>
      match kfield_target f with Some tag => [(le_val r, tag)] | None => [] end
  | bpf_probe_read_kernel _ _ => fun r => [(le_val r, "struct file")]
  | _ => fun _ => []
  end.

(** There is always a current task. *)
Definition task_exists {R} (c : helper R) : R → Prop :=
  match c in helper R return R → Prop with
  | bpf_get_current_task => fun r => r ≠ 0
  | _ => fun _ => True
  end.

Definition typing (casts : cast_list) : watcher pointers := {|
  w_ok R c g := read_ok casts g c;
  w_rely R c r := task_exists c r;
  w_next R c r g := learn c r ++ g
|}.

(** * Typed programs *)

Section Typed.
Context (casts : cast_list) (id : Z).

(** [p] reads well given the pointers [H]. *)
Definition typed (H : pointers) {A} (p : prog A) : Prop :=
  ∀ g Q, H ⊆ g → (∀ a g', g ⊆ g' → Q a g') → wp (typing casts) id p Q g.

Lemma typed_ret H {A} (a : A) : typed H (mret a).
Proof. intros g Q Hg HQ. by apply wp_ret, HQ. Qed.

Lemma typed_bind H {A B} (p : prog A) (f : A → prog B) :
  typed H p → (∀ a, typed H (f a)) → typed H (p ≫= f).
Proof.
  intros Hp Hf g Q Hg HQ. apply wp_bind, Hp; [done|]. intros a g' Hg'.
  apply Hf; [by etransitivity|]. intros b g2 H2. apply HQ. by etransitivity.
Qed.

Lemma read_ok_mono H g {R} (c : helper R) : H ⊆ g → read_ok casts H c → read_ok casts g c.
Proof.
  intros Hg. destruct c; cbn; try done.
  - intros [Hp Hs]. split; [by eapply points_to_mono|done].
  - intros [(base & i & Hb & Hin & Ha) Hs]. split; [|done]. exists base, i. auto.
  - apply Hg.
Qed.

Lemma typed_call H {R} (c : helper R) : read_ok casts H c → typed H (call c).
Proof.
  intros Hc g Q Hg HQ. apply wp_call; [by eapply read_ok_mono|]. intros r _ _. apply HQ.
  cbn [w_next typing]. set_solver.
Qed.

(** What a call learns is available to the rest. *)
Lemma typed_call_bind H {R A} (c : helper R) (f : R → prog A) :
  read_ok casts H c → (∀ r, task_exists c r → typed (learn c r ++ H) (f r)) →
  typed H (call c ≫= f).
Proof.
  intros Hc Hf g Q Hg HQ. apply wp_call_bind; [by eapply read_ok_mono|]. intros r _ Hr.
  cbn [w_next typing]. apply Hf; [exact Hr|set_solver|]. intros a g' Hg'. apply HQ. set_solver.
Qed.

Lemma typed_mono H H' {A} (p : prog A) : typed H p → H ⊆ H' → typed H' p.
Proof. intros Hp HH g Q Hg. apply Hp. by etransitivity. Qed.

Lemma typed_core_read H size f src {A} (k : Z → prog A) :
  points_to casts H src (kfield_root f).1 → size = kfield_size f →
  (∀ p, typed (match kfield_target f with Some tag => (p, tag) :: H | None => H end) (k p)) →
  typed H (core_read size f src ≫= k).
Proof.
  intros Hp Hs Hk. unfold core_read.
  change ((call (bpf_core_read size f src) ≫= λ bs, mret (le_val bs)) ≫= k) with
    (call (bpf_core_read size f src) ≫= λ bs, k (le_val bs)).
  apply typed_call_bind; [done|]. intros r _. specialize (Hk (le_val r)). cbn [learn].
  by destruct (kfield_target f).
Qed.

(** The same on a single path, for a program whose result is a pointer. *)
Lemma wp_core_read_last size f src Q g :
  points_to casts g src (kfield_root f).1 → size = kfield_size f →
  (∀ p g', g ⊆ g' → (∀ tag, kfield_target f = Some tag → (p, tag) ∈ g') → Q p g') →
  wp (typing casts) id (core_read size f src) Q g.
Proof.
  intros Hp Hs Hk. unfold core_read. apply wp_call_bind; [by split|]. intros r _ _.
  cbn [w_next typing learn]. apply wp_ret, Hk; [destruct (kfield_target f); set_solver|].
  intros tag ->. set_solver.
Qed.

Lemma wp_core_read size f src {A} (k : Z → prog A) Q g :
  points_to casts g src (kfield_root f).1 → size = kfield_size f →
  (∀ p g', g ⊆ g' → (∀ tag, kfield_target f = Some tag → (p, tag) ∈ g') →
     wp (typing casts) id (k p) Q g') →
  wp (typing casts) id (core_read size f src ≫= k) Q g.
Proof. intros Hp Hs Hk. by apply wp_bind, wp_core_read_last. Qed.

Lemma typed_core_read_last H size f src :
  points_to casts H src (kfield_root f).1 → size = kfield_size f → typed H (core_read size f src).
Proof.
  intros Hp Hs. apply (typed_call_bind H (bpf_core_read size f src)); [done|].
  intros r _. apply typed_ret.
Qed.
End Typed.

(** The target of each pointer member, computed once. *)
Ltac known_target :=
  match goal with
  | |- context [kfield_target ?f] =>
      let t := eval vm_compute in (kfield_target f) in
      change (kfield_target f) with t; cbn iota
  end.

(** [p] is among the pointers, and a null check or its origin says it is not null. *)
Ltac solve_points_to :=
  cbn [kfield_root fst];
  lazymatch goal with
  | Hs : points_to ?cs ?g ?p ?tag |- points_to _ _ ?p ?tag =>
      apply (points_to_mono cs g); [set_solver|exact Hs]
  | _ => split; [zbool; done || lia|]
  end;
  first [ left; solve [apply (bool_decide_unpack _); done | set_solver]
        | right; eexists; split; [by left|set_solver] ].

Ltac typed_walk :=
  repeat first
    [ apply typed_ret
    | solve [eauto with typed]
    | apply typed_core_read; [solve_points_to|vm_compute; reflexivity|intros ?; try known_target]
    | apply typed_core_read_last; [solve_points_to|vm_compute; reflexivity]
    | eapply typed_bind; [solve [eauto with typed]|intros ?]
    | apply typed_call_bind; [exact Logic.I|intros ? ?; cbn [learn app]]
    | apply typed_call; exact Logic.I
    | case_match
    | eapply typed_bind; [|intros ?] ].

Create HintDb typed.

(** * The parts of the handlers *)

Section Parts.
Context (casts : cast_list) (id : Z).

Notation typed := (typed casts id).

Lemma typed_start H : typed H current_proc_start_ns.
Proof. unfold current_proc_start_ns. typed_walk. Qed.

Lemma typed_netns H h : typed H (read_netns_ino h).
Proof. unfold read_netns_ino. typed_walk. Qed.

Lemma typed_sock_ino H c sk : points_to casts H sk "struct sock" → typed H (read_sock_ino c sk).
Proof. intros Hsk. unfold read_sock_ino. typed_walk. Qed.

Lemma typed_conn_info H c sk : points_to casts H sk "struct sock" → typed H (fill_conn_info c sk).
Proof.
  intros Hsk. unfold fill_conn_info. apply typed_core_read; [solve_points_to|done|intros family].
  known_target. cbv zeta. eapply typed_bind; [|intros out].
  - destruct (family =? AF_INET6); [|typed_walk].
    apply typed_call_bind; [by split; [solve_points_to|]|intros r1 _].
    apply typed_call_bind; [by split; [solve_points_to|]|intros r2 _]. typed_walk.
  - typed_walk.
Qed.

Lemma typed_ssl_key_for H ptr : typed H (ssl_key_for ptr).
Proof. unfold ssl_key_for. typed_walk. Qed.

Lemma typed_count_stat H idx : typed H (count_stat idx).
Proof. unfold count_stat. typed_walk. Qed.

#[local] Hint Resolve typed_start typed_netns typed_ssl_key_for typed_count_stat : typed.

Lemma typed_owner H ptr t : typed H (remember_ssl_owner ptr t).
Proof. unfold remember_ssl_owner. typed_walk. Qed.

Lemma typed_next_seq H ptr d : typed H (next_seq ptr d).
Proof. unfold next_seq. typed_walk. Qed.

Lemma typed_fill_event_hdr H h t ptr al cl d prov g q :
  typed H (fill_event_hdr h t ptr al cl d prov g q).
Proof. unfold fill_event_hdr. cbv zeta. typed_walk. Qed.

Lemma typed_should_sample_out H data len : typed H (should_sample_out data len).
Proof. unfold should_sample_out. cbv zeta. typed_walk. Qed.

#[local] Hint Resolve typed_next_seq typed_fill_event_hdr typed_should_sample_out : typed.

Lemma typed_sampled_out H buf n : typed H (sampled_out buf n).
Proof. unfold sampled_out. cbv zeta. typed_walk. Qed.

Lemma typed_dynptr_fail H stat dp : typed H (dynptr_fail stat dp).
Proof. unfold dynptr_fail. typed_walk. Qed.

Lemma typed_dynptr_submit H dp : typed H (dynptr_submit dp).
Proof. unfold dynptr_submit. typed_walk. Qed.

#[local] Hint Resolve typed_sampled_out typed_dynptr_fail typed_dynptr_submit : typed.

Lemma typed_dynptr_copy H buf n dp : typed H (dynptr_copy buf n dp).
Proof. unfold dynptr_copy. cbv zeta. typed_walk. Qed.

#[local] Hint Resolve typed_dynptr_copy : typed.

Lemma typed_emit_event H b buf len d ptr prov : typed H (emit_event b buf len d ptr prov).
Proof. unfold emit_event, emit_event_dynptr. cbv zeta. typed_walk. Qed.
End Parts.

#[export] Hint Resolve typed_start typed_netns typed_conn_info typed_ssl_key_for typed_count_stat
  typed_owner typed_emit_event : typed.

(** * Every handler *)

(** The kernel pointers a handler is called with: the arguments of the function it is attached
    to. The arguments of library calls are user pointers. *)
Definition context_pointers (i : invocation) : pointers :=
  match i with
  | SiteEntry (KtlsSend | KtlsRecv) ctx =>
      [(PT_REGS_PARM1 ctx, "struct sock"); (PT_REGS_PARM2 ctx, "struct msghdr")]
  | TcpConnect ctx => [(PT_REGS_PARM1 ctx, "struct sock")]
  | TcpAccept ctx => [(PT_REGS_RC ctx, "struct sock")]
  | Exec args => [(args 2, "struct linux_binprm")]
  | SocketConnect _ address _ => [(address, "struct sockaddr")]
  | _ => []
  end.

(** The two of them the code does not test, and the kernel never passes as null. *)
Definition context_ok (i : invocation) : Prop :=
  match i with
  | SiteEntry (KtlsSend | KtlsRecv) ctx => PT_REGS_PARM2 ctx ≠ 0
  | Exec args => args 2 ≠ 0
  | _ => True
  end.

(** The casts a handler needs: [private_data] of the file behind a descriptor is taken for a [struct socket], and the
    socket address of a connect for a [struct sockaddr_in]. *)
Definition casts_of (i : invocation) : cast_list :=
  match i with
  | SslSetFd _ => [("void", "struct socket")]
  | SocketConnect _ _ _ => [("struct sockaddr", "struct sockaddr_in")]
  | _ => []
  end.

Section Handlers.
Context (casts : cast_list) (id : Z).

Notation typed := (typed casts id).

(** The socket behind a descriptor, when there is one, is a typed pointer. *)
Lemma wp_sock_of_fd fd Q g :
  ("void", "struct socket") ∈ casts →
  (∀ sk g', g ⊆ g' → (sk ≠ 0 → points_to casts g' sk "struct sock") → Q sk g') →
  wp (typing casts) id (sock_of_fd fd) Q g.
Proof.
  intros Hcast HQ. unfold sock_of_fd. apply wp_call_bind; [done|]. intros task _ Htask.
  cbn [w_next typing learn app]. set (g0 := (task, "struct task_struct") :: g).
  assert (∀ g', g0 ⊆ g' → Q 0 g') as Hnull by (intros g' Hg; apply HQ; [set_solver|done]).
  do 3 (apply wp_core_read; [solve_points_to|done|]; known_target; intros ? ? ? ?;
        case_match; [apply wp_ret, Hnull; set_solver|]).
  cbv zeta. apply wp_call_bind.
  { split; [|done]. eexists _, fd. split; [by zbool|]. split; [|reflexivity]. auto. }
  intros slot _ _. cbn [w_next typing learn app]. set (g4 := (le_val slot, "struct file") :: _).
  case_match; [apply wp_ret, Hnull; set_solver|].
  apply wp_core_read; [solve_points_to|done|]. known_target. intros pd g5 Hg5 Hpd.
  case_match; [apply wp_ret, Hnull; set_solver|].
  apply wp_core_read_last; [split; [by zbool|right; eauto]|done|]. known_target.
  intros sk g6 Hg6 Hsk. apply HQ; [set_solver|]. intros Hnz. split; [done|left; auto].
Qed.

Lemma typed_record_connection H sk role :
  (sk ≠ 0 → points_to casts H sk "struct sock") → typed H (record_connection sk role).
Proof.
  intros Hsk. unfold record_connection. destruct (sk =? 0) eqn:E; [apply typed_ret|].
  zbool. specialize (Hsk E). typed_walk.
Qed.

Lemma typed_ktls_save_args H sk msg a :
  points_to casts H msg "struct msghdr" → (sk ≠ 0 → points_to casts H sk "struct sock") →
  typed H (ktls_save_args sk msg a).
Proof.
  intros Hmsg Hsk. unfold ktls_save_args. cbv zeta.
  apply typed_core_read; [solve_points_to|done|intros iov]. known_target.
  eapply typed_bind; [destruct (iov =? 0) eqn:E; cbn [negb]; typed_walk|intros a'].
  eapply typed_bind; [|intros ?; apply typed_ret]. unfold when. destruct (sk =? 0) eqn:E; cbn [negb]; [typed_walk|].
  zbool. specialize (Hsk E). eapply typed_bind; [apply typed_conn_info; solve_points_to|intros ?; typed_walk].
Qed.

#[local] Hint Resolve typed_record_connection : typed.

Lemma typed_site_entry arch c ctx :
  context_ok (SiteEntry c ctx) →
  typed (context_pointers (SiteEntry c ctx)) (site_entry arch c ctx).
Proof.
  intros Hok. destruct c; cbn [site_entry context_ok context_pointers] in *;
    unfold ssl_write_entry, ssl_read_entry, ssl_write_ex_entry, ssl_read_ex_entry,
      gnutls_send_entry, gnutls_recv_entry, nss_write_entry, nss_read_entry,
      quic_stream_send_entry, quic_stream_recv_entry, ktls_send_entry, ktls_recv_entry,
      go_tls_write_entry, go_tls_read_entry, go_call_key_for; cbv zeta;
    try (solve [typed_walk]);
    (eapply typed_bind; [apply typed_ktls_save_args|intros ?; typed_walk]);
    try (intros ?); (split; [done|left; set_solver]).
Qed.

Lemma typed_site_exit b arch c ctx H : typed H (site_exit b arch c ctx).
Proof.
  destruct c; cbn [site_exit];
    unfold ssl_write_exit, ssl_read_exit, ssl_write_ex_exit, ssl_read_ex_exit, gnutls_send_exit,
      gnutls_recv_exit, nss_write_exit, nss_read_exit, quic_stream_send_exit,
      quic_stream_recv_exit, ktls_send_exit, ktls_recv_exit, go_tls_write_exit, go_tls_read_exit,
      go_call_key_for; cbv zeta; typed_walk.
Qed.

Lemma typed_scan H fuel i ip : typed H (scan_rules fuel i ip).
Proof.
  revert i. induction fuel as [|fuel IH]; intros i; cbn [scan_rules]; [apply typed_ret|].
  destruct (_ <? _); [|apply typed_ret]. apply typed_call_bind; [done|]. intros r _.
  destruct (rule_blocks ip r); [apply typed_ret|apply IH].
Qed.

#[local] Hint Resolve typed_scan : typed.

End Handlers.

Lemma typed_handler id b arch i :
  context_ok i → typed (casts_of i) id (context_pointers i) (handler b arch i).
Proof.
  intros Hok. destruct i as [c ctx|c ctx|ctx|ctx|ctx|ctx|ctx|args|so ad al]; cbn [handler].
  - by apply typed_site_entry.
  - apply typed_site_exit.
  - apply typed_record_connection. intros Hsk. split; [done|left; set_solver].
  - apply typed_record_connection. intros Hsk. split; [done|left; set_solver].
  - unfold tcp_close_entry. cbv zeta. typed_walk.
  - unfold ssl_set_fd_entry. cbv zeta. case_match; [apply typed_ret|].
    intros g Q Hg HQ. apply wp_bind, wp_sock_of_fd; [by left|]. intros sk g' Hg' Hsk.
    destruct (sk =? 0) eqn:E; [by apply wp_ret, HQ|]. zbool. specialize (Hsk E).
    revert Q HQ. enough (∀ p : prog Z, typed (casts_of (SslSetFd ctx)) id g' p → ∀ Q, (∀ a g2, g ⊆ g2 → Q a g2) →
      wp (typing (casts_of (SslSetFd ctx))) id p Q g') as Hgo by (apply Hgo; typed_walk).
    intros p Hp Q HQ. apply Hp; [done|]. intros a g2 H2. apply HQ. by etransitivity.
  - unfold ssl_free_entry, end_generation, send_close. cbv zeta. typed_walk.
  - unfold handle_new_process. cbv zeta. typed_walk. apply typed_call. cbn [read_ok]. set_solver.
  - unfold lsm_socket_connect. typed_walk.
Qed.

(** * Property *)


