(* ===== verification/Spec.v ===== *)
(** What the sensor promises, as an abstract machine, and the proof that the probes implement it.

    The abstract sensor knows nothing of maps, rings, counters or reservations. It remembers the
    calls in progress, the traffic counters of the TLS objects it has seen, and a log of the calls
    that completed. [spec_step] says what each probe means for it; [refines] relates it to the
    kernel state; [sensor_refines_spec] runs both side by side. *)

From S2P Require Import Prelude Abi Kernel Logic Sampling Fixture TlsState Emit EmitProps Conn.
From S2P Require Import Lifecycle Calls Probes Ktls GoTls CallSites Proc System.

(** * The abstract sensor *)

(** A completed call: who made it, on which object, what was transferred. *)
Record report := {
  rp_pid : Z;
  rp_tid : Z;
  rp_object : Z;
  rp_generation : Z;
  rp_seq : Z;
  rp_direction : Z;
  rp_library : Z;
  rp_length : Z;
  rp_bytes : list byte
}.

(** A call in progress: where and with which registers it was entered. *)
Record started := { st_env : env; st_ctx : pt_regs }.

Record sensor := {
  sn_calls : ∀ m : lru, lru_key m → option started;
  sn_objects : ssl_key → option ssl_state;
  sn_log : list report
}.

#[export] Instance sensor_fields : Fields sensor := fun sp =>
  Build_sensor (sn_calls sp) (sn_objects sp) (sn_log sp).

Definition sensor_empty : sensor := {|
  sn_calls := fun _ _ => None; sn_objects := fun _ => None; sn_log := [] |}.

Definition set_call (m : lru) (k : lru_key m) (o : option started) (sp : sensor) : sensor :=
  sp <| sn_calls := dep_set (sn_calls sp) m (fn_set (sn_calls sp m) k o) |>.

Definition set_object (k : ssl_key) (o : option ssl_state) (sp : sensor) : sensor :=
  sp <| sn_objects := fn_set (sn_objects sp) k o |>.

(** Bytes moved on an object: its counter in that direction advances, and the call is logged when
    its buffer can be read. *)
Definition traffic (e : env) (em : emission) (sp : sensor) : sensor :=
  let k := key_of e (em_ptr em) in
  let st := default ssl_state_zero (sn_objects sp k) in
  let d := em_direction em in
  set_object k (Some (set_ss_seq d (u32 (ss_seq d st + 1)) st)) sp
    <| sn_log := sn_log sp ++
         match uread e (em_buf em) (Z.min (em_len em) (MAX_DATA - 1)) with
         | Some bs =>
             [{| rp_pid := tgid_of (e_pid_tgid e); rp_tid := u32 (e_pid_tgid e);
                 rp_object := em_ptr em; rp_generation := ss_generation st;
                 rp_seq := ss_seq d st; rp_direction := d; rp_library := em_provider em;
                 rp_length := em_len em; rp_bytes := bs |}]
         | None => []
         end |>.

(** The meaning of a probe: an entry starts a call, the matching exit ends it and reports what it
    transferred, [SSL_free] ends the generation of an object; connections, process starts and the
    block list do not concern the log. *)
Definition spec_step (arch : target_arch) (e : env) (i : invocation) (sp : sensor) : sensor :=
  match i with
  | SiteEntry c ctx =>
      match site_key arch c e ctx with
      | Some k => set_call (site_map c) k (Some {| st_env := e; st_ctx := ctx |}) sp
      | None => sp
      end
  | SiteExit c ctx =>
      match site_key arch c e ctx with
      | Some k =>
          match sn_calls sp (site_map c) k with
          | Some st =>
              set_call (site_map c) k None
                match site_emission arch c (st_env st) (st_ctx st) e ctx with
                | Some em => traffic e em sp
                | None => sp
                end
          | None => sp
          end
      | None => sp
      end
  | SslFree ctx =>
      let k := key_of e (PT_REGS_PARM1 ctx) in
      set_object k (end_generation_state <$> sn_objects sp k) sp
  | _ => sp
  end.

Definition spec_run (arch : target_arch) (l : list (env * invocation)) (sp : sensor) : sensor :=
  fold_left (fun sp ei => spec_step arch ei.1 ei.2 sp) l sp.

(** * The relation to the kernel state *)

(** The report a record stands for. *)
Definition report_of (x : tls_event) : report :=
  let h := ev_hdr x in {|
    rp_pid := h_pid h; rp_tid := h_tid h; rp_object := h_ssl_ptr h;
    rp_generation := h_conn_generation h; rp_seq := h_dir_seq h;
    rp_direction := h_direction h; rp_library := h_provider_id h;
    rp_length := h_actual_len h; rp_bytes := ztake (h_copied_len h) (ev_data x) |}.

(** What an entry probe saves in argument map [m]; [None] for the other maps. *)
Definition args_of (arch : target_arch) (m : lru) (e : env) (ctx : pt_regs)
    : option (lru_val m) :=
  match m return option (lru_val m) with
  | ssl_write_args | gnutls_write_args =>
      Some {| wa_ssl_ptr := PT_REGS_PARM1 ctx; wa_buf := PT_REGS_PARM2 ctx;
              wa_len := u32 (PT_REGS_PARM3 ctx) |}
  | ssl_read_args | gnutls_read_args =>
      Some {| ra_ssl_ptr := PT_REGS_PARM1 ctx; ra_buf := PT_REGS_PARM2 ctx;
              ra_len := u32 (PT_REGS_PARM3 ctx) |}
  | ssl_read_ex_args =>
      Some {| rx_ssl_ptr := PT_REGS_PARM1 ctx; rx_buf := PT_REGS_PARM2 ctx;
              rx_len := PT_REGS_PARM3 ctx; rx_bytes_ptr := PT_REGS_PARM4 ctx |}
  | ssl_write_ex_args =>
      Some {| wx_ssl_ptr := PT_REGS_PARM1 ctx; wx_buf := PT_REGS_PARM2 ctx;
              wx_len := PT_REGS_PARM3 ctx; wx_bytes_ptr := PT_REGS_PARM4 ctx |}
  | quic_recv_args | quic_send_args => Some (quic_args_of ctx)
  | ktls_sendmsg_args | ktls_recvmsg_args => Some (ktls_args_of e ctx)
  | go_tls_write_args => Some (go_write_args_of arch ctx)
  | go_tls_read_args => Some (go_read_args_of arch ctx)
  | _ => None
  end.

(** The maps the abstract sensor speaks of: the argument maps and the object counters. *)
Definition spoken (m : lru) : bool :=
  match m with
  | ssl_ptr_to_pid | active_connections | ssl_ptr_to_conn | sock_role | sock_to_pid => false
  | _ => true
  end.

Record refines (arch : target_arch) (s : kstate) (sp : sensor) : Prop := {
  rf_calls m k : m ≠ ssl_state_map → spoken m = true →
    lookup_map s m k = sn_calls sp m k ≫= λ st, args_of arch m (st_env st) (st_ctx st);
  rf_objects k : lookup_map s ssl_state_map k = sn_objects sp k;
  rf_log : report_of <$> k_rings s events = sn_log sp;
  rf_unsampled : unsampled s
}.

(** No insertion fails or evicts, every reservation finds room, the dynptr helpers succeed. User
    memory may still be unreadable. *)
Record calm (b : bool) (e : env) : Prop := {
  calm_maps m : no_pressure e m;
  calm_room n : 0 <= n → room_for b e n
}.

(** * Frames *)

Lemma spoken_put e m k v s m' :
  spoken m = false → spoken m' = true → k_maps (put e m k v s) m' = k_maps s m'.
Proof. intros H1 H2. apply put_keeps_map. congruence. Qed.

Lemma spoken_del m k s m' :
  spoken m = false → spoken m' = true → k_maps (del m k s) m' = k_maps s m'.
Proof. intros H1 H2. unfold del. rewrite k_maps_set_map_ne by congruence. done. Qed.

(** [s'] says the same as [s] to the abstract sensor. *)
Definition same_view (s s' : kstate) : Prop :=
  (∀ m, spoken m = true → k_maps s' m = k_maps s m) ∧
  k_rings s' events = k_rings s events ∧ k_arrays s' = k_arrays s.

#[export] Instance same_view_preorder : PreOrder same_view.
Proof.
  split; [done|]. intros s1 s2 s3 (Hm1 & Hr1 & Ha1) (Hm2 & Hr2 & Ha2).
  split; [|split; congruence]. intros m Hm. by rewrite Hm2, Hm1.
Qed.

Lemma same_view_put e m k v s : spoken m = false → same_view s (put e m k v s).
Proof.
  intros Hm. split; [intros m'; by apply spoken_put|].
  destruct (maps_only_put e m k v s) as (Ha & _ & Hr & _). by rewrite Ha, Hr.
Qed.

Lemma same_view_del m k s : spoken m = false → same_view s (del m k s).
Proof. intros Hm. split; [intros m'; by apply spoken_del|done]. Qed.

#[local] Hint Extern 1 (same_view ?s ?s) => reflexivity : view.
#[local] Hint Extern 2 (same_view _ (put _ _ _ _ _)) =>
  etransitivity; [|by apply same_view_put] : view.
#[local] Hint Extern 2 (same_view _ (del _ _ _)) =>
  etransitivity; [|by apply same_view_del] : view.

Lemma same_view_record e sk role s : same_view s (record_connection_spec e sk role s).
Proof. unfold record_connection_spec. destruct (sk =? 0); auto with view. Qed.

Lemma same_view_ktls e sk s : same_view s (ktls_conn e sk s).
Proof. unfold ktls_conn. destruct (negb _); auto with view. Qed.

Lemma refines_view arch s s' sp : same_view s s' → refines arch s sp → refines arch s' sp.
Proof.
  intros (Hm & Hr & Ha) [H1 H2 H3 H4]. split.
  - intros m k Hne Hsp. rewrite <- H1 by done. unfold lookup_map. by rewrite Hm.
  - intros k. rewrite <- H2. unfold lookup_map. by rewrite Hm.
  - by rewrite Hr.
  - unfold unsampled in *. by rewrite Ha.
Qed.

(** * Calls in progress *)

Section Calls.
Context (b : bool) (arch : target_arch).

Lemma site_args c e ctx :
  args_of arch (site_map c) e ctx = Some (cp_args (CallProbe := site_probe b arch c) e ctx).
Proof. by destruct c. Qed.

Lemma site_map_spoken c : spoken (site_map c) = true.
Proof. by destruct c. Qed.

Lemma site_before_view c e ctx s :
  same_view s (cp_before (CallProbe := site_probe b arch c) e ctx s).
Proof. destruct c; cbn; auto using same_view_ktls with view. Qed.

Lemma site_after_view c e ctx s :
  same_view s (cp_after (CallProbe := site_probe b arch c) e ctx s).
Proof. destruct c; cbn; unfold owner_put; auto with view. Qed.

Lemma set_call_map m k o sp k' :
  sn_calls (set_call m k o sp) m k' = if decide (k = k') then o else sn_calls sp m k'.
Proof. cbn. by rewrite dep_set_eq. Qed.

Lemma set_call_other m k o sp m' k' :
  m ≠ m' → sn_calls (set_call m k o sp) m' k' = sn_calls sp m' k'.
Proof. intros Hm. cbn. by rewrite dep_set_ne. Qed.

(** Saving arguments is starting a call, removing them is ending it. *)
Lemma refines_put e m k v st s sp :
  m ≠ ssl_state_map → no_pressure e m → args_of arch m (st_env st) (st_ctx st) = Some v →
  refines arch s sp → refines arch (put e m k v s) (set_call m k (Some st) sp).
Proof using.
  intros Hst Hfit Hargs [H1 H2 H3 H4].
  destruct (maps_only_put e m k v s) as (Ha & _ & Hr & _). split.
  - intros m' k' Hm' Hsp. destruct (decide (m = m')) as [<-|Hne].
    + rewrite set_call_map. case_decide as Hk; [subst k'; by rewrite lookup_put_eq|].
      rewrite lookup_put_ne by done. by apply H1.
    + rewrite set_call_other, lookup_put_map by done. by apply H1.
  - intros k'. rewrite lookup_put_map by done. apply H2.
  - by rewrite Hr.
  - unfold unsampled in *. by rewrite Ha.
Qed.

Lemma refines_del m k s sp :
  m ≠ ssl_state_map → refines arch s sp → refines arch (del m k s) (set_call m k None sp).
Proof using.
  intros Hst [H1 H2 H3 H4]. split; [| |done|done].
  - intros m' k' Hm' Hsp. destruct (decide (m = m')) as [<-|Hne].
    + rewrite set_call_map. case_decide as Hk; [subst k'; by rewrite lookup_del_eq|].
      rewrite lookup_del_ne by done. by apply H1.
    + rewrite set_call_other, lookup_del_map by done. by apply H1.
  - intros k'. rewrite lookup_del_map by done. apply H2.
Qed.

Lemma refines_entry c e ctx s sp :
  calm b e → refines arch s sp →
  refines arch (run e (site_entry arch c ctx) s).2 (spec_step arch e (SiteEntry c ctx) sp).
Proof.
  intros Hcalm Href. rewrite (cp_entry_run (CallProbe := site_probe b arch c)), site_key_cp.
  cbn [spec_step snd]. destruct (site_key arch c e ctx) as [k|]; [|done].
  eapply refines_view; [apply site_after_view|].
  apply refines_put; [by destruct c|apply (calm_maps b e Hcalm)|apply site_args|].
  eapply refines_view; [apply site_before_view|done].
Qed.
End Calls.

(** * Traffic *)

(** Without evictions an attempt changes the counters of its own object only. *)
Lemma ensure_state_other e k k' s :
  no_pressure e ssl_state_map → k ≠ k' →
  lookup_map (ensure_state e k s) ssl_state_map k' = lookup_map s ssl_state_map k'.
Proof.
  intros Hfit Hne. unfold ensure_state. destruct (lookup_map s ssl_state_map k) eqn:E; [done|].
  unfold lookup_map, update_elem in *. rewrite E.
  destruct (Hfit (k_maps s ssl_state_map) k) as [-> ->]. cbn. rewrite k_maps_set_map.
  by rewrite lookup_insert_ne.
Qed.

Lemma next_seq_other e ptr d s k :
  no_pressure e ssl_state_map → key_of e ptr ≠ k →
  lookup_map (next_seq_spec e ptr d s).2 ssl_state_map k = lookup_map s ssl_state_map k.
Proof.
  intros Hfit Hne. unfold next_seq_spec. destruct (lookup_map (ensure_state _ _ _) _ _);
    cbn [snd]; [unfold advance_seq; rewrite lookup_store_state, decide_False by done|];
    by apply ensure_state_other.
Qed.

Lemma attempt_other e buf len d ptr s k :
  no_pressure e ssl_state_map → key_of e ptr ≠ k →
  lookup_map (at_state (attempt_of e buf len d ptr s)) ssl_state_map k =
    lookup_map s ssl_state_map k.
Proof.
  intros Hfit Hne. unfold attempt_of.
  pose proof (next_seq_other e ptr d (bump_stat (e_cpu e) STAT_ATTEMPTED s) k Hfit Hne) as Hs.
  destruct (next_seq_spec _ _ _ _) as [[g q] s1]. cbn [snd] in Hs.
  pose proof (sampled_spec_maps e buf (clamp_len len) s1) as Hm.
  destruct (sampled_spec _ _ _ _) as [out s2]. cbn [snd at_state] in *.
  unfold lookup_map in *. by rewrite Hm, Hs.
Qed.

Lemma unreadable_unpublished b e buf len d ptr prov s :
  0 <= len → uread e buf (Z.min len (MAX_DATA - 1)) = None →
  k_rings (emit_spec b e buf len d ptr prov s) events = k_rings s events.
Proof.
  intros Hlen Hf. rewrite <- clamp_len_min in Hf.
  assert (payload_of e buf (clamp_len len) = None) as Hp.
  { rewrite payload_of_clamp, Hf by done. destruct (0 <? clamp_len len) eqn:E; [done|]. zbool.
    pose proof (clamp_len_range len Hlen). replace (clamp_len len) with 0 in Hf by lia. done. }
  pose proof (emit_events b e buf len d ptr prov s) as Hev. cbv zeta in Hev.
  rewrite Hev, decide_False, app_nil_r; [done|]. unfold outcome_of. rewrite Hp.
  by repeat case_match.
Qed.

(** The report of a published record is what the attempt and the call say. *)
Lemma report_of_published b e em s bs :
  0 <= em_len em → payload_of e (em_buf em) (clamp_len (em_len em)) = Some bs →
  let a := attempt_of e (em_buf em) (em_len em) (em_direction em) (em_ptr em) s in
  report_of (published b e (em_buf em) (em_len em) (em_direction em) (em_ptr em) (em_provider em) a)
  = {| rp_pid := tgid_of (e_pid_tgid e); rp_tid := u32 (e_pid_tgid e); rp_object := em_ptr em;
       rp_generation := at_generation a; rp_seq := at_seq a; rp_direction := em_direction em;
       rp_library := em_provider em; rp_length := em_len em; rp_bytes := bs |}.
Proof.
  intros Hlen Hp. cbv zeta. set (a := attempt_of _ _ _ _ _ _).
  destruct (published_reports b e (em_buf em) (em_len em) (em_direction em) (em_ptr em)
    (em_provider em) a bs Hlen Hp) as (Hb & _). unfold report_of. cbv zeta. rewrite Hb.
  unfold published. cbn [ev_hdr].
  destruct (hdr_of_fields e (em_len em) (em_direction em) (em_ptr em) (em_provider em) a)
    as (_ & -> & _ & -> & -> & -> & -> & -> & -> & -> & _).
  done.
Qed.

(** An object the abstract sensor has counters for, or none yet. *)
Lemma refines_tracked arch b e ptr s sp :
  calm b e → refines arch s sp →
  tracked e ptr (default ssl_state_zero (sn_objects sp (key_of e ptr))) s.
Proof.
  intros Hcalm Href. unfold tracked. rewrite <- (rf_objects arch s sp Href).
  destruct (lookup_map s ssl_state_map _) as [st|]; [by left|right].
  split; [done|]. split; [done|]. apply (calm_maps b e Hcalm).
Qed.

Lemma emit_log b e em s st :
  0 <= em_len em → Z.land (em_direction em) 1 = em_direction em → calm b e → unsampled s →
  tracked e (em_ptr em) st s →
  report_of <$> k_rings (emit_of b e (Some em) s) events =
    (report_of <$> k_rings s events) ++
    match uread e (em_buf em) (Z.min (em_len em) (MAX_DATA - 1)) with
    | Some bs =>
        [{| rp_pid := tgid_of (e_pid_tgid e); rp_tid := u32 (e_pid_tgid e);
            rp_object := em_ptr em; rp_generation := ss_generation st;
            rp_seq := ss_seq (em_direction em) st; rp_direction := em_direction em;
            rp_library := em_provider em; rp_length := em_len em; rp_bytes := bs |}]
    | None => []
    end.
Proof.
  intros Hlen Hd Hcalm Hun Hst. cbn [emit_of].
  destruct (uread e (em_buf em) _) as [bs|] eqn:Hread.
  - destruct (emit_submits b e (em_buf em) (em_len em) (em_direction em) (em_ptr em) s bs Hlen
      Hun (calm_room b e Hcalm _ Hlen) Hread) as [Hp Ho].
    pose proof (emit_events b e (em_buf em) (em_len em) (em_direction em) (em_ptr em)
      (em_provider em) s) as Hev. cbv zeta in Hev. rewrite Hev, decide_True by done.
    rewrite fmap_app. cbn [fmap list_fmap]. rewrite (report_of_published b e em s bs) by done.
    destruct (attempt_tracked e (em_buf em) (em_len em) (em_direction em) (em_ptr em) st s Hst)
      as (-> & -> & _).
    by rewrite Hd.
  - by rewrite unreadable_unpublished, app_nil_r.
Qed.

Lemma refines_traffic arch b e em s sp :
  0 <= em_len em → Z.land (em_direction em) 1 = em_direction em → calm b e →
  refines arch s sp → refines arch (emit_of b e (Some em) s) (traffic e em sp).
Proof.
  intros Hlen Hd Hcalm Href. pose proof (refines_tracked arch b e (em_ptr em) s sp Hcalm Href) as Hst.
  destruct Href as [H1 H2 H3 H4]. unfold traffic. cbv zeta.
  set (st := default _ _) in *.
  pose proof (emit_log b e em s st Hlen Hd Hcalm H4 Hst) as Hlog.
  destruct (emit_settled b e (em_buf em) (em_len em) (em_direction em) (em_ptr em)
    (em_provider em) s) as (Hm & Ha & _).
  destruct (attempt_frame e (em_buf em) (em_len em) (em_direction em) (em_ptr em) s)
    as (_ & Ha' & _).
  destruct (attempt_tracked e (em_buf em) (em_len em) (em_direction em) (em_ptr em) st s Hst)
    as (_ & _ & Hobj). rewrite Hd in Hobj. split.
  - intros m k Hne Hsp. unfold lookup_map. rewrite emit_of_maps by done. by apply H1.
  - intros k. cbn [sn_objects set_object emit_of]. unfold lookup_map. rewrite Hm.
    fold (lookup_map (at_state (attempt_of e (em_buf em) (em_len em) (em_direction em) (em_ptr em)
      s)) ssl_state_map k). cbn. unfold fn_set. case_decide as Hk.
    + subst k. exact Hobj.
    + rewrite attempt_other by (done || apply (calm_maps b e Hcalm)). apply H2.
  - rewrite Hlog, H3. done.
  - unfold unsampled in *. cbn [emit_of]. rewrite Ha, Ha'. done.
Qed.

(** * Every probe *)

Section Steps.
Context (b : bool) (arch : target_arch).

Lemma site_emission_direction c e1 ctx1 e2 ctx2 em :
  site_emission arch c e1 ctx1 e2 ctx2 = Some em → Z.land (em_direction em) 1 = em_direction em.
Proof.
  unfold site_emission. destruct (site_len _ _ _ _ _ _); [|done]. intros [= <-]. by destruct c.
Qed.

Lemma refines_exit c e ctx s sp :
  calm b e → refines arch s sp →
  refines arch (run e (site_exit b arch c ctx) s).2 (spec_step arch e (SiteExit c ctx) sp).
Proof.
  intros Hcalm Href. cbn [spec_step]. destruct (site_key arch c e ctx) as [k|] eqn:Hk.
  - pose proof (rf_calls arch s sp Href (site_map c) k (site_map_args c) (site_map_spoken c)) as Hl.
    destruct (sn_calls sp (site_map c) k) as [[e1 ctx1]|].
    + cbn [mbind option_bind st_env st_ctx] in *. rewrite (site_args b) in Hl.
      rewrite (site_exit_saved b arch c e1 ctx1 e ctx s k Hk Hl). cbn [snd].
      apply refines_del; [apply site_map_args|].
      destruct (site_emission arch c e1 ctx1 e ctx) as [em|] eqn:Hem; [|done].
      apply refines_traffic; try done; [by eapply (site_emission_len b)|].
      by eapply site_emission_direction.
    + rewrite (exit_unpaired (HP := site_probe b arch c)); [done|].
      intros k'. rewrite site_key_cp, Hk. by intros [= <-].
  - rewrite (exit_unpaired (HP := site_probe b arch c)); [done|].
    intros k'. by rewrite site_key_cp, Hk.
Qed.

Lemma ssl_free_view e ptr s :
  (∀ m, m ≠ ssl_state_map → spoken m = true →
     k_maps (ssl_free_spec e ptr s) m = k_maps s m) ∧
  k_rings (ssl_free_spec e ptr s) events = k_rings s events ∧
  k_arrays (ssl_free_spec e ptr s) = k_arrays s.
Proof.
  unfold ssl_free_spec. cbv zeta. set (k := key_of e ptr). set (owner := owner_or_current _ _).
  assert (k_rings (end_generation_spec k s).2 = k_rings s ∧
          k_arrays (end_generation_spec k s).2 = k_arrays s ∧
          ∀ m, m ≠ ssl_state_map → k_maps (end_generation_spec k s).2 m = k_maps s m)
    as (Hr & Ha & Hm).
  { unfold end_generation_spec. destruct (lookup_map s ssl_state_map k); [|done]. cbn [snd].
    split; [done|]. split; [done|]. intros m Hne. unfold store_state.
    by rewrite !k_maps_set_map_ne by congruence. }
  destruct (end_generation_spec k s) as [g s1]. cbn [snd] in *.
  assert (k_rings (send_close_spec e ptr owner g s1) events = k_rings s1 events ∧
          k_arrays (send_close_spec e ptr owner g s1) = k_arrays s1 ∧
          k_maps (send_close_spec e ptr owner g s1) = k_maps s1) as (Hr' & Ha' & Hm').
  { unfold send_close_spec. by destruct (e_reserve e close_events 40). }
  split; [|split].
  - intros m Hne Hsp. rewrite !spoken_del by done. by rewrite Hm', Hm.
  - rewrite <- Hr. exact Hr'.
  - rewrite <- Ha. exact Ha'.
Qed.

Lemma refines_ssl_free e ctx s sp :
  refines arch s sp →
  refines arch (run e (ssl_free_entry ctx) s).2 (spec_step arch e (SslFree ctx) sp).
Proof.
  intros [H1 H2 H3 H4]. rewrite run_ssl_free. cbn [snd spec_step]. cbv zeta.
  destruct (ssl_free_view e (PT_REGS_PARM1 ctx) s) as (Hm & Hr & Ha).
  destruct (ssl_free_lookups e (PT_REGS_PARM1 ctx) s) as (Hobj & _). split.
  - intros m k Hne Hsp. unfold lookup_map. rewrite Hm by done. by apply H1.
  - intros k. rewrite Hobj, !H2. cbn. unfold fn_set. by case_decide; subst.
  - by rewrite Hr.
  - unfold unsampled in *. by rewrite Ha.
Qed.

Lemma lsm_state e sock address addrlen s :
  (run e (lsm_socket_connect sock address addrlen) s).2 = s.
Proof. by destruct (run_lsm e sock address addrlen s) as (r & -> & _). Qed.

Lemma exec_view e args s : same_view s (run e (handle_new_process args) s).2.
Proof. rewrite run_handle_new_process. cbn [snd]. by case_match. Qed.

(** Each probe does to the kernel state what it means to the abstract sensor. *)
Lemma refines_step e i s sp :
  calm b e → refines arch s sp →
  refines arch (run e (handler b arch i) s).2 (spec_step arch e i sp).
Proof.
  intros Hcalm Href. destruct i as [c ctx|c ctx|ctx|ctx|ctx|ctx|ctx|args|so ad al]; cbn [handler].
  - by apply (refines_entry b).
  - by apply refines_exit.
  - unfold tcp_connect_entry. rewrite run_record_connection.
    by eapply refines_view; [apply same_view_record|].
  - unfold tcp_accept_ret. rewrite run_record_connection.
    by eapply refines_view; [apply same_view_record|].
  - rewrite run_tcp_close. eapply refines_view; [|done]. cbn [snd]. unfold tcp_close_spec.
    auto with view.
  - rewrite run_ssl_set_fd. eapply refines_view; [|done]. cbn [snd]. unfold ssl_set_fd_spec.
    cbv zeta. destruct (_ || _); auto with view.
  - by apply refines_ssl_free.
  - eapply refines_view; [apply exec_view|done].
  - by rewrite lsm_state.
Qed.
End Steps.

(** * Properties *)

Lemma refines_run b arch l s sp :
  Forall (fun ei => calm b ei.1) l → refines arch s sp →
  refines arch (run_all b arch l s) (spec_run arch l sp).
Proof.
  unfold run_all, spec_run. intros Hl. revert s sp.
  induction Hl as [|[e i] l He _ IH]; intros s sp Href; [done|]. cbn [fold_left fst snd].
  apply IH. by apply refines_step.
Qed.

(** A freshly loaded object: nothing recorded, rates that keep every call. *)
Definition loaded (s : kstate) : Prop :=
  (∀ m, k_maps s m = ∅) ∧ k_rings s events = [] ∧ unsampled s.

Lemma refines_loaded arch s : loaded s → refines arch s sensor_empty.
Proof.
  intros (Hm & Hr & Hun).
  split; [intros m k _ _; unfold lookup_map; by rewrite Hm, lookup_empty| |by rewrite Hr|done].
  intros k. unfold lookup_map. by rewrite Hm, lookup_empty.
Qed.

Lemma demo_loaded : loaded demo_state.
Proof. split; [done|]. split; [done|]. vm_compute. by split. Qed.

(** C1: the probes implement the abstract sensor. Take any sequence of probe firings of any
    threads, processes and CPUs, run one after the other, where the maps and the ring have room
    and the rates keep every call. If the kernel state represents an abstract sensor before, it
    represents [spec_run] of that sensor after: the published records are, in order, exactly the
    reports of the completed calls whose buffers could be read, and the saved arguments and object
    counters are those of the calls in progress and of the traffic so far. A freshly loaded object
    represents the empty sensor. *)
Theorem sensor_refines_spec (b : bool) (arch : target_arch) (l : list (env * invocation))
    (s : kstate) (sp : sensor)
    (Hcalm : Forall (fun ei => calm b ei.1) l)
    (Hstart : refines arch s sp ∨ (sp = sensor_empty ∧ loaded s)) :
  let s' := run_all b arch l s in
  let sp' := spec_run arch l sp in
  report_of <$> k_rings s' events = sn_log sp' ∧
  (∀ k, lookup_map s' ssl_state_map k = sn_objects sp' k) ∧
  refines arch s' sp'.
Proof.
  cbv zeta. assert (refines arch s sp) as Hs.
  { destruct Hstart as [Hs|[-> Hs]]; [done|by apply refines_loaded]. }
  pose proof (refines_run b arch l s sp Hcalm Hs) as Href.
  split; [apply (rf_log _ _ _ Href)|]. split; [apply (rf_objects _ _ _ Href)|done].
Qed.

Lemma demo_calm b : calm b demo_env.
Proof. split; [done|]. intros n Hn. by destruct b. Qed.

(** A write, an exit without an entry, a read that fails, [SSL_free], a write of a new object. *)
Definition demo_session : list (env * invocation) :=
  (fun i => (demo_env, i)) <$>
    [SiteEntry SslWrite write_ctx; SiteExit SslWrite returned_20; SiteExit SslRead returned_20;
     SiteEntry SslRead write_ctx; SiteExit SslRead (demo_ctx 0 0 0 (-1)); SslFree free_ctx;
     SiteEntry SslWrite write_ctx; SiteExit SslWrite returned_20].

Lemma sensor_refines_spec_witness :
  Forall (fun ei => calm true ei.1) demo_session ∧
  report_of <$> k_rings (run_all true arch_x86 demo_session demo_state) events =
    (fun g => {| rp_pid := 1000; rp_tid := 1001; rp_object := 7; rp_generation := g; rp_seq := 0;
                 rp_direction := 1; rp_library := PROVIDER_OPENSSL; rp_length := 20;
                 rp_bytes := demo_request |}) <$> [0; 1].
Proof.
  assert (Forall (fun ei => calm true ei.1) demo_session) as Hc.
  { unfold demo_session. cbn [fmap list_fmap].
    repeat apply Forall_cons_2; try apply Forall_nil_2; exact (demo_calm true). }
  split; [exact Hc|].
  destruct (sensor_refines_spec true arch_x86 demo_session demo_state sensor_empty Hc
    (or_intror (conj eq_refl demo_loaded))) as (Hlog & _).
  rewrite Hlog. vm_compute. reflexivity.
Defined.
