(* ===== verification/Numbering.v ===== *)
(** The numbers on the published records of one TLS object, over whole histories: the property a
    reader needs to put chunks in order and to notice a missing one. Proved on the abstract sensor
    of [Spec] and carried to the ring buffer by the refinement. At the end, what the numbers are worth
    when two CPUs report on one object at once. *)

From S2P Require Import Prelude Abi Kernel Logic Sampling Fixture TlsState Emit EmitProps Conn Lifecycle.
From S2P Require Import Calls Probes Ktls GoTls CallSites Proc System Spec.

(** * Numbers in a log *)

(** Sequence numbers of the reports on object [k] in generation [g] and direction [d]. *)
Definition numbers (log : list report) (k : ssl_key) (g d : Z) : list Z :=
  rp_seq <$> filter (λ r, rp_pid r = sk_tgid k ∧ rp_object r = sk_ptr k ∧
                          rp_generation r = g ∧ rp_direction r = d) log.

Lemma numbers_app log log' k g d :
  numbers (log ++ log') k g d = numbers log k g d ++ numbers log' k g d.
Proof. unfold numbers. by rewrite list.filter_app, fmap_app. Qed.

(** [0, 1, ..., n-1], possibly with gaps; without gaps when [R] holds. *)
Definition in_order (R : Prop) (xs : list Z) (n : Z) : Prop :=
  sublist xs (seqZ 0 n) ∧ (R → xs = seqZ 0 n).

Lemma in_order_nil R : in_order R [] 0.
Proof. done. Qed.

Lemma seqZ_snoc n : 0 <= n → seqZ 0 (n + 1) = seqZ 0 n ++ [n].
Proof. intros Hn. rewrite seqZ_app by lia. done. Qed.

Lemma in_order_next R xs n : 0 <= n → in_order R xs n → in_order R (xs ++ [n]) (n + 1).
Proof.
  intros Hn [Hs Hr]. unfold in_order. rewrite seqZ_snoc by done.
  split; [by apply sublist_app|]. intros H. by rewrite Hr.
Qed.

Lemma in_order_gap (R : Prop) xs n : 0 <= n → ¬ R → in_order R xs n → in_order R xs (n + 1).
Proof.
  intros Hn HR [Hs _]. split; [|done]. rewrite seqZ_snoc by done.
  by apply sublist_inserts_r.
Qed.

(** * The invariant of the abstract sensor *)

Definition object_state (sp : sensor) (k : ssl_key) : ssl_state :=
  default ssl_state_zero (sn_objects sp k).

(** Every byte of user memory can be read. *)
Definition readable (e : env) : Prop := ∀ addr n, is_Some (uread e addr n).

(** After at most [N] probes: counters have not wrapped, and in every generation up to the current
    one the numbers are in order. *)
Record numbered (R : Prop) (N : Z) (sp : sensor) : Prop := {
  nb_generation k : 0 <= ss_generation (object_state sp k) <= N;
  nb_seq k d : 0 <= ss_seq d (object_state sp k) <= N;
  nb_future k g d : sk__pad k = 0 → ss_generation (object_state sp k) < g → numbers (sn_log sp) k g d = [];
  nb_current k d : sk__pad k = 0 → d = 0 ∨ d = 1 →
    in_order R (numbers (sn_log sp) k (ss_generation (object_state sp k)) d)
      (ss_seq d (object_state sp k));
  nb_past k g d : sk__pad k = 0 → d = 0 ∨ d = 1 → ∃ n, in_order R (numbers (sn_log sp) k g d) n
}.

Lemma numbered_empty R : numbered R 0 sensor_empty.
Proof. split; try done; [intros k d; by destruct d|intros k d _ [-> | ->]; done|by exists 0]. Qed.

Lemma numbered_weaken R N N' sp : N <= N' → numbered R N sp → numbered R N' sp.
Proof.
  intros HN [H1 H2 H3 H4 H5]. split; try done.
  - intros k. specialize (H1 k). lia.
  - intros k d. specialize (H2 k d). lia.
Qed.

(** The calls in progress do not matter. *)
Lemma numbered_same R N sp sp' :
  sn_objects sp' = sn_objects sp → sn_log sp' = sn_log sp → numbered R N sp → numbered R N sp'.
Proof.
  intros Ho Hl [H1 H2 H3 H4 H5]. unfold object_state in *. split; unfold object_state;
    rewrite ?Ho, ?Hl; auto.
Qed.

(** * Each probe keeps it *)

Lemma ss_seq_set d d' v st :
  d' = 0 ∨ d' = 1 →
  ss_seq d (set_ss_seq d' v st) = if decide ((d =? 0) = (d' =? 0)) then v else ss_seq d st.
Proof. intros [-> | ->]; unfold ss_seq, set_ss_seq; by destruct (d =? 0). Qed.

Lemma object_state_set k o sp k' :
  object_state (set_object k o sp) k' =
    if decide (k = k') then default ssl_state_zero o else object_state sp k'.
Proof. unfold object_state. cbn. unfold fn_set. by case_decide. Qed.

(** The report of a call, seen from one object, generation and direction. *)
Lemma numbers_report r k g d :
  numbers [r] k g d =
    if decide (rp_pid r = sk_tgid k ∧ rp_object r = sk_ptr k ∧
               rp_generation r = g ∧ rp_direction r = d) then [rp_seq r] else [].
Proof. unfold numbers. cbn. by case_decide. Qed.

Section Traffic.
Context (R : Prop) (N : Z) (e : env) (em : emission) (sp : sensor).
Hypothesis Hinv : numbered R N sp.
Hypothesis Hdir : em_direction em = 0 ∨ em_direction em = 1.
Hypothesis Hread : R → readable e.
Hypothesis HN : N + 1 < 2 ^ 32.

Let k0 := key_of e (em_ptr em).
Let st0 := object_state sp k0.
Let d0 := em_direction em.

(** The report the call adds, if any. *)
Definition traffic_report : list report :=
  match uread e (em_buf em) (Z.min (em_len em) (MAX_DATA - 1)) with
  | Some bs =>
      [{| rp_pid := tgid_of (e_pid_tgid e); rp_tid := u32 (e_pid_tgid e);
          rp_object := em_ptr em; rp_generation := ss_generation st0;
          rp_seq := ss_seq d0 st0; rp_direction := d0; rp_library := em_provider em;
          rp_length := em_len em; rp_bytes := bs |}]
  | None => []
  end.

Lemma traffic_log : sn_log (traffic e em sp) = sn_log sp ++ traffic_report.
Proof using. done. Qed.

Lemma traffic_seq : u32 (ss_seq d0 st0 + 1) = ss_seq d0 st0 + 1.
Proof using Hinv HN. apply wrap_small. pose proof (nb_seq R N sp Hinv k0 d0). unfold st0. lia. Qed.

Lemma traffic_generation k :
  ss_generation (object_state (traffic e em sp) k) = ss_generation (object_state sp k).
Proof using.
  unfold traffic. cbv zeta.
  change (object_state (?x <| sn_log := ?l |>) k) with (object_state x k).
  rewrite object_state_set. case_decide as Hk; [subst k|done]. cbn.
  unfold set_ss_seq. by destruct (_ =? 0).
Qed.

Lemma traffic_object_seq k d :
  ss_seq d (object_state (traffic e em sp) k) =
    if decide (k0 = k ∧ (d =? 0) = (d0 =? 0)) then ss_seq d0 st0 + 1
    else ss_seq d (object_state sp k).
Proof using Hinv Hdir HN.
  unfold traffic. cbv zeta.
  change (object_state (?x <| sn_log := ?l |>) k) with (object_state x k).
  rewrite object_state_set. fold k0 d0 (object_state sp k0). fold st0.
  destruct (decide (k0 = k)) as [Hk|Hk].
  - cbn [default from_option id]. rewrite ss_seq_set by done. rewrite traffic_seq.
    repeat case_decide; subst; naive_solver.
  - by rewrite decide_False by naive_solver.
Qed.

(** The log gains at most the number the object was at. *)
Lemma traffic_numbers k g d :
  sk__pad k = 0 →
  let xs := numbers (sn_log sp) k g d in
  let ys := numbers (sn_log (traffic e em sp)) k g d in
  if decide (k0 = k ∧ ss_generation st0 = g ∧ d0 = d)
  then ys = xs ++ [ss_seq d0 st0] ∨ (¬ R ∧ ys = xs)
  else ys = xs.
Proof using Hread.
  intros Hpad. cbv zeta. rewrite traffic_log, numbers_app. unfold traffic_report.
  destruct (uread e (em_buf em) _) as [bs|] eqn:E.
  - rewrite numbers_report. cbn [rp_pid rp_object rp_generation rp_direction rp_seq].
    case_decide as H1; case_decide as H2.
    + by left.
    + exfalso. apply H2. destruct H1 as (<- & <- & <-). done.
    + exfalso. apply H1. destruct H2 as (H2 & H3 & <- & <-). split; [|done].
      destruct k; cbn in *; subst. done.
    + apply app_nil_r.
  - change (numbers [] k g d) with (@nil Z). rewrite app_nil_r. case_decide; [|done].
    right. split; [|done]. intros HR. destruct (Hread HR (em_buf em)
      (Z.min (em_len em) (MAX_DATA - 1))) as [? ?]. congruence.
Qed.
End Traffic.

Lemma numbered_traffic R N e em sp :
  numbered R N sp → em_direction em = 0 ∨ em_direction em = 1 → (R → readable e) →
  N + 1 < 2 ^ 32 → numbered R (N + 1) (traffic e em sp).
Proof.
  intros Hinv Hdir Hread HN. pose proof Hinv as [H1 H2 H3 H4 H5].
  assert (∀ d, d = 0 ∨ d = 1 → ((d =? 0) = (em_direction em =? 0) ↔ em_direction em = d)) as Hd
    by (intros d [-> | ->]; destruct Hdir as [-> | ->]; done).
  split.
  - intros k. rewrite traffic_generation. specialize (H1 k). lia.
  - intros k d. rewrite (traffic_object_seq R N) by done.
    pose proof (H2 (key_of e (em_ptr em)) (em_direction em)). specialize (H2 k d).
    case_decide; lia.
  - intros k g d Hpad Hg. rewrite traffic_generation in Hg.
    pose proof (traffic_numbers R e em sp Hread k g d Hpad) as Hx. cbv zeta in Hx.
    case_decide as Hc; [destruct Hc as (<- & Hc & _); lia|]. rewrite Hx. by apply H3.
  - intros k d Hpad Hd'. rewrite traffic_generation.
    rewrite (traffic_object_seq R N) by done.
    pose proof (traffic_numbers R e em sp Hread k (ss_generation (object_state sp k)) d Hpad) as Hx.
    cbv zeta in Hx. case_decide as Hc.
    + destruct Hc as (<- & _ & Hc). rewrite decide_True by naive_solver. rewrite Hc in *.
      specialize (H4 _ d Hpad Hd'). specialize (H2 (key_of e (em_ptr em)) d).
      destruct Hx as [-> | [HR ->]]; [apply in_order_next|apply in_order_gap]; done || lia.
    + rewrite Hx. rewrite decide_False by (intros [Hk Hz]; apply Hd in Hz; [naive_solver|done]). by apply H4.
  - intros k g d Hpad Hd'.
    pose proof (traffic_numbers R e em sp Hread k g d Hpad) as Hx. cbv zeta in Hx.
    case_decide as Hc; [|rewrite Hx; by apply H5]. destruct Hc as (<- & <- & Hc).
    rewrite Hc in *. specialize (H4 _ d Hpad Hd'). specialize (H2 (key_of e (em_ptr em)) d).
    destruct Hx as [-> | [HR ->]]; eexists; [apply in_order_next|]; done || lia.
Qed.

Lemma numbered_free R N k0 sp :
  numbered R N sp → N + 1 < 2 ^ 32 →
  numbered R (N + 1) (set_object k0 (end_generation_state <$> sn_objects sp k0) sp).
Proof.
  intros Hinv HN. pose proof Hinv as [H1 H2 H3 H4 H5].
  set (sp' := set_object k0 _ sp).
  assert (∀ k, object_state sp' k = object_state sp k ∨
    (k = k0 ∧ ss_generation (object_state sp' k) = ss_generation (object_state sp k) + 1 ∧
     ss_seq0 (object_state sp' k) = 0 ∧ ss_seq1 (object_state sp' k) = 0)) as Hob.
  { intros k. unfold sp'. rewrite object_state_set. case_decide as Hk; [subst k|by left].
    specialize (H1 k0). unfold object_state in *. destruct (sn_objects sp k0) as [st|]; [right|by left].
    cbn in *. split; [done|]. split; [|done]. rewrite wrap_small; lia. }
  change (sn_log sp') with (sn_log sp) in *. split; try exact H5.
  - intros k. specialize (H1 k). destruct (Hob k) as [-> | (_ & -> & _)]; lia.
  - intros k d. specialize (H2 k d). unfold ss_seq in *.
    destruct (Hob k) as [-> | (_ & _ & -> & ->)]; [|specialize (H1 k)]; destruct (d =? 0); lia.
  - intros k g d Hpad. destruct (Hob k) as [-> | (_ & -> & _)]; intros Hg; apply H3; done || lia.
  - intros k d Hpad Hd. destruct (Hob k) as [-> | (_ & -> & Hs0 & Hs1)]; [by apply H4|].
    unfold ss_seq. rewrite Hs0, Hs1.
    change (sn_log sp') with (sn_log sp). rewrite H3 by (done || lia). by destruct (d =? 0).
Qed.

Lemma numbered_step R N arch e i sp :
  numbered R N sp → (R → readable e) → N + 1 < 2 ^ 32 →
  numbered R (N + 1) (spec_step arch e i sp).
Proof.
  intros Hinv Hread HN. pose proof (numbered_weaken R N (N + 1) sp ltac:(lia) Hinv) as Hw.
  destruct i as [c ctx|c ctx|ctx|ctx|ctx|ctx|ctx|args|so ad al]; cbn [spec_step]; try exact Hw.
  - destruct (site_key arch c e ctx); [|exact Hw]. by eapply numbered_same; [| |exact Hw].
  - destruct (site_key arch c e ctx) as [k|]; [|exact Hw].
    destruct (sn_calls sp (site_map c) k) as [st|]; [|exact Hw].
    destruct (site_emission arch c _ _ e ctx) as [em|] eqn:Hem.
    + eapply numbered_same; [| |apply (numbered_traffic R N e em sp)]; try done.
      unfold site_emission in Hem. destruct (site_len _ _ _ _ _ _); [|done].
      injection Hem as <-. destruct c; cbn; auto.
    + by eapply numbered_same; [| |exact Hw].
  - by apply numbered_free.
Qed.

Lemma numbered_run R N arch l sp :
  numbered R N sp → (R → Forall (fun ei => readable ei.1) l) → N + zlen l < 2 ^ 32 →
  numbered R (N + zlen l) (spec_run arch l sp).
Proof.
  unfold spec_run, zlen. revert N sp. induction l as [|[e i] l IH]; intros N sp Hinv Hread HN.
  { cbn. by rewrite Z.add_0_r. }
  cbn [fold_left length fst snd] in *.
  replace (N + Z.of_nat (S (length l))) with (N + 1 + Z.of_nat (length l)) by lia.
  apply IH; [|intros HR; by specialize (Hread HR); inversion Hread|lia].
  apply numbered_step; [done| |lia]. intros HR. specialize (Hread HR). by inversion Hread.
Qed.

(** * Property *)

Lemma numbers_records xs k g d :
  numbers (report_of <$> xs) k g d =
    h_dir_seq ∘ ev_hdr <$> filter (λ x, h_pid (ev_hdr x) = sk_tgid k ∧
      h_ssl_ptr (ev_hdr x) = sk_ptr k ∧ h_conn_generation (ev_hdr x) = g ∧
      h_direction (ev_hdr x) = d) xs.
Proof.
  induction xs as [|x xs IH]; [done|]. unfold numbers in *. cbn [fmap list_fmap].
  rewrite !list.filter_cons. cbn [rp_pid rp_object rp_generation rp_direction report_of].
  case_decide; [|done]. cbn [fmap list_fmap]. by f_equal.
Qed.

(** C12: One firing after another, the numbers on the records of an object are in order and gaps are losses.
    From a freshly loaded state with sampling off, after fewer than 2^32 probe firings of which each ends before the
    next begins, with room in maps and ring: the records of one object of one process, in one generation and one
    direction, carry strictly increasing numbers out of 0, 1, ..., n-1, and if every buffer could be read they carry
    exactly 0, 1, ..., n-1. For the current generation n is the object's counter. (Firings that run at the same time on two
    processors can share a number: [concurrent_calls_share_sequence].) *)
Theorem records_are_numbered (b : bool) (arch : target_arch) (l : list (env * invocation))
    (s : kstate) (tgid ptr g d : Z)
    (Hloaded : loaded s)
    (Hcalm : Forall (fun ei => calm b ei.1) l)
    (Hshort : zlen l < 2 ^ 32)
    (Hd : d = 0 ∨ d = 1) :
  let s' := run_all b arch l s in
  let k := {| sk_tgid := tgid; sk__pad := 0; sk_ptr := ptr |} in
  let seqs := h_dir_seq ∘ ev_hdr <$>
    filter (λ x, h_pid (ev_hdr x) = tgid ∧ h_ssl_ptr (ev_hdr x) = ptr ∧
                 h_conn_generation (ev_hdr x) = g ∧ h_direction (ev_hdr x) = d)
      (k_rings s' events) in
  ∃ n, sublist seqs (seqZ 0 n) ∧
    (Forall (fun ei => readable ei.1) l → seqs = seqZ 0 n) ∧
    (∀ st, lookup_map s' ssl_state_map k = Some st → ss_generation st = g → n = ss_seq d st).
Proof.
  cbv zeta. set (k := {| sk_tgid := tgid; sk__pad := 0; sk_ptr := ptr |}).
  pose proof (refines_run b arch l s sensor_empty Hcalm (refines_loaded arch s Hloaded)) as Href.
  pose proof (numbered_run (Forall (fun ei => readable ei.1) l) 0 arch l sensor_empty
    (numbered_empty _) (fun H => H) Hshort) as [_ _ _ Hcur Hpast].
  rewrite (rf_objects _ _ _ Href).
  match goal with |- context [sublist ?x _] =>
    assert (x = numbers (report_of <$> k_rings (run_all b arch l s) events) k g d) as ->
      by (symmetry; apply (numbers_records _ k)) end.
  rewrite (rf_log _ _ _ Href).
  set (sp := spec_run arch l sensor_empty) in *.
  destruct (decide (ss_generation (object_state sp k) = g)) as [Hg|Hg].
  - exists (ss_seq d (object_state sp k)). destruct (Hcur k d eq_refl Hd) as [H1 H2].
    rewrite Hg in *. split; [done|]. split; [done|]. intros st Hst _. unfold object_state.
    by rewrite Hst.
  - destruct (Hpast k g d eq_refl Hd) as (n & H1 & H2). exists n. split; [done|].
    split; [done|]. intros st Hst Hst'. unfold object_state in Hg. by rewrite Hst in Hg.
Qed.

(** Three writes on one object, the second from an unmapped buffer. *)
Definition lossy_session : list (env * invocation) :=
  (fun i => (demo_env, i)) <$>
    [SiteEntry SslWrite write_ctx; SiteExit SslWrite returned_20;
     SiteEntry SslWrite (demo_ctx 7 64 20 0); SiteExit SslWrite returned_20;
     SiteEntry SslWrite write_ctx; SiteExit SslWrite returned_20].

Lemma records_are_numbered_witness :
  loaded demo_state ∧
  ∃ n, sublist (h_dir_seq ∘ ev_hdr <$> k_rings (run_all true arch_x86 lossy_session demo_state)
                  events) (seqZ 0 n) ∧ n = 3 ∧
  h_dir_seq ∘ ev_hdr <$> k_rings (run_all true arch_x86 lossy_session demo_state) events = [0; 2].
Proof.
  split; [exact demo_loaded|].
  assert (Forall (fun ei => calm true ei.1) lossy_session) as Hc.
  { unfold lossy_session. cbn [fmap list_fmap].
    repeat apply Forall_cons_2; try apply Forall_nil_2; exact (demo_calm true). }
  destruct (records_are_numbered true arch_x86 lossy_session demo_state 1000 7 0 1 demo_loaded Hc
    eq_refl (or_intror eq_refl)) as (n & Hs & _ & Hn).
  exists n. split.
  - revert Hs. match goal with |- sublist ?x _ → sublist ?y _ => assert (x = y) as -> end; [|done].
    vm_compute. reflexivity.
  - split; [|vm_compute; reflexivity]. by apply (Hn
      {| ss_generation := 0; ss_seq0 := 0; ss_seq1 := 3; ss__pad := 0 |} ltac:(vm_compute; reflexivity)).
Defined.

(** * Calls at the same time

    Interleavings of two CPUs on one TLS object.

    [next_seq] loads the counter of its direction and stores the successor without holding
    anything, so two handlers can number their calls alike. *)

(** * Running a part of a handler *)

(** The program and the state after (at most) the next [n] helper calls of [p]. *)
Fixpoint advance {A} (e : env) (n : nat) (p : prog A) (s : kstate) : prog A * kstate :=
  match n, p with
  | S n', Call c k => advance e n' (k (handle e c s).1) (handle e c s).2
  | _, _ => (p, s)
  end.

Section Advance.
Context (b : bool) (arch : target_arch) (starts : Z → invocation → Prop) (envs : env → Prop).

Notation reaches := (reachable b arch starts envs).

Lemma advance_reaches e n (p : prog Z) s ths :
  envs e → ths (e_cpu e) = Some {| th_id := e_pid_tgid e; th_prog := p |} →
  ∃ ths', reaches {| c_state := s; c_threads := ths |}
                  {| c_state := (advance e n p s).2; c_threads := ths' |} ∧
    ths' (e_cpu e) = Some {| th_id := e_pid_tgid e; th_prog := (advance e n p s).1 |} ∧
    ∀ c, c ≠ e_cpu e → ths' c = ths c.
Proof.
  intros He. revert p s ths. induction n as [|n IH]; intros p s ths Hth; [by exists ths|].
  destruct p as [a|R c k]; [by exists ths|]. cbn [advance].
  destruct (IH (k (handle e c s).1) (handle e c s).2 (fn_set ths (e_cpu e)
    (Some {| th_id := e_pid_tgid e; th_prog := k (handle e c s).1 |}))) as (ths' & Hr & H1 & H2);
    [by rewrite fn_set_eq|].
  exists ths'. split; [eapply rtc_l; [by eapply step_call|exact Hr]|]. split; [done|].
  intros c' Hc. rewrite H2 by done. by rewrite fn_set_ne by congruence.
Qed.
End Advance.

(** * The race *)

Section Race.
Context (ptr d : Z) (st : ssl_state) (e : env).

(** [next_seq] on the verge of its store. *)
Lemma advance_next_seq (k : Z * Z → prog Z) s :
  lookup_map s ssl_state_map (key_of e ptr) = Some st →
  advance e 4 (next_seq ptr d ≫= k) s =
    (Call (ref_store_seq (key_of e ptr) (Z.land d 1) (u32 (ss_seq (Z.land d 1) st + 1)))
       (fun _ => k (ss_generation st, ss_seq (Z.land d 1) st)), s).
Proof.
  intros Hst. unfold next_seq, ssl_key_for. cbn. fold (key_of e ptr). rewrite Hst. cbn.
  unfold load_state. rewrite Hst. done.
Qed.

Lemma advance_store key v (k : prog Z) s :
  advance e 1 (Call (ref_store_seq key (Z.land d 1) v) (fun _ => k)) s =
    (k, store_state key (set_ss_seq (Z.land d 1) v) s).
Proof. done. Qed.
End Race.

(** Sequence numbers are not unique under concurrency. When handlers on two CPUs are about to
    number calls on the same object in the same direction, there is an interleaving after which
    both were given the same generation and sequence number, and the counter has advanced by one
    only: two records will carry one number, and nothing shows that a call is missing. *)
Theorem concurrent_calls_share_sequence (b : bool) (arch : target_arch)
    (starts : Z → invocation → Prop) (envs : env → Prop) (e1 e2 : env) (s : kstate)
    (ths : Z → option thread) (ptr d : Z) (k1 k2 : Z * Z → prog Z) (st : ssl_state)
    (He1 : envs e1) (He2 : envs e2) (Hcpu : e_cpu e1 ≠ e_cpu e2)
    (Hproc : key_of e2 ptr = key_of e1 ptr)
    (Hst : lookup_map s ssl_state_map (key_of e1 ptr) = Some st)
    (Hth1 : ths (e_cpu e1) =
              Some {| th_id := e_pid_tgid e1; th_prog := next_seq ptr d ≫= k1 |})
    (Hth2 : ths (e_cpu e2) =
              Some {| th_id := e_pid_tgid e2; th_prog := next_seq ptr d ≫= k2 |}) :
  let bit := Z.land d 1 in
  let numbered := (ss_generation st, ss_seq bit st) in
  ∃ cfg, reachable b arch starts envs {| c_state := s; c_threads := ths |} cfg ∧
    c_threads cfg (e_cpu e1) = Some {| th_id := e_pid_tgid e1; th_prog := k1 numbered |} ∧
    c_threads cfg (e_cpu e2) = Some {| th_id := e_pid_tgid e2; th_prog := k2 numbered |} ∧
    lookup_map (c_state cfg) ssl_state_map (key_of e1 ptr) =
      Some (set_ss_seq bit (u32 (ss_seq bit st + 1)) st).
Proof.
  cbv zeta.
  destruct (advance_reaches b arch starts envs e1 4 _ s ths He1 Hth1) as (t1 & R1 & A1 & O1).
  rewrite (advance_next_seq ptr d st e1 k1 s Hst) in *. cbn [fst snd] in *.
  pose proof (eq_trans (O1 _ (not_eq_sym Hcpu)) Hth2) as Hth2'.
  destruct (advance_reaches b arch starts envs e2 4 _ s t1 He2 Hth2') as (t2 & R2 & A2 & O2).
  rewrite (advance_next_seq ptr d st e2 k2 s) in * by (by rewrite Hproc). cbn [fst snd] in *.
  pose proof (eq_trans (O2 _ Hcpu) A1) as A1'.
  destruct (advance_reaches b arch starts envs e1 1 _ s t2 He1 A1') as (t3 & R3 & A3 & O3).
  rewrite advance_store in *. cbn [fst snd] in *.
  pose proof (eq_trans (O3 _ (not_eq_sym Hcpu)) A2) as A2'.
  match type of R3 with context [store_state ?key ?f s] => set (s1 := store_state key f s) in * end.
  destruct (advance_reaches b arch starts envs e2 1 _ s1 t3 He2 A2') as (t4 & R4 & A4 & O4).
  rewrite advance_store in *. cbn [fst snd] in *.
  eexists. split; [etransitivity; [exact R1|etransitivity; [exact R2|etransitivity;
    [exact R3|exact R4]]]|].
  cbn [c_threads c_state]. split; [by rewrite O4|]. split; [done|].
  subst s1. rewrite Hproc, !lookup_store_state, !decide_True, Hst by done. cbn.
  unfold set_ss_seq. by destruct (_ =? 0).
Qed.

(** Two threads of one process, on two CPUs, both about to number a write on object 7. *)
Definition race_env : env := demo_env <| e_cpu := 1 |> <| e_pid_tgid := demo_pid_tgid + 1 |>.

Definition racing (cpu : Z) : option thread :=
  let numbering e := Some {| th_id := e_pid_tgid e;
                             th_prog := next_seq 7 1 ≫= λ gs, mret gs.2 |} in
  if cpu =? 0 then numbering demo_env else if cpu =? 1 then numbering race_env else None.

Lemma concurrent_calls_share_sequence_witness :
  lookup_map used_state ssl_state_map (key_of demo_env 7) = Some used_ssl_state ∧
  ∃ cfg n, reachable false arch_x86 (fun _ _ => True) (fun _ => True)
      {| c_state := used_state; c_threads := racing |} cfg ∧
    (th_prog <$> c_threads cfg 0) = Some (Ret n) ∧
    (th_prog <$> c_threads cfg 1) = Some (Ret n).
Proof.
  split; [exact used_state_tracks|].
  destruct (concurrent_calls_share_sequence false arch_x86 (fun _ _ => True) (fun _ => True)
    demo_env race_env used_state racing 7 1 (λ gs, mret gs.2) (λ gs, mret gs.2) used_ssl_state
    Logic.I Logic.I ltac:(discriminate) eq_refl used_state_tracks eq_refl eq_refl)
    as (cfg & Hr & H0 & H1 & _).
  change (e_cpu demo_env) with 0 in H0. change (e_cpu race_env) with 1 in H1.
  exists cfg. eexists. split; [exact Hr|]. rewrite H0, H1. split; reflexivity.
Defined.
