(* ===== verification/Accounting.v ===== *)
(** Loss accounting, ring reservations and termination of every handler, on every path and in every
    interleaving. *)

From S2P Require Import Prelude Abi Kernel Logic Sampling Fixture TlsState Emit EmitProps Conn.
From S2P Require Import Lifecycle Calls Probes Ktls GoTls CallSites Proc System.

(** * The ghost state of a handler *)

(** Attempts counted and not yet settled, reservations held, helper calls that may still be made. *)
Record acct := { a_pending : Z; a_held : Z; a_budget : nat }.

(** How a bump of a [producer_stats] counter moves the pending attempts. *)
Definition stat_delta (idx : Z) : Z :=
  if idx =? STAT_ATTEMPTED then 1 else
  if (STAT_SUBMITTED <=? idx) && (idx <=? STAT_SAMPLED) then -1 else 0.

Definition spend (g : acct) : acct :=
  {| a_pending := a_pending g; a_held := a_held g; a_budget := pred (a_budget g) |}.

Definition move (dp dh : Z) (g : acct) : acct :=
  {| a_pending := a_pending g + dp; a_held := a_held g + dh; a_budget := a_budget g |}.

Definition acct_pre {R} (c : helper R) (g : acct) : Prop :=
  match c with
  | sync_fetch_and_add producer_stats idx v =>
      v = 1 ∧ 0 <= idx < 6 ∧ a_pending g + stat_delta idx ∈ [0; 1]
  | bpf_ringbuf_reserve _ _ | bpf_ringbuf_reserve_dynptr _ => a_held g = 0
  | bpf_ringbuf_submit _ _ | bpf_ringbuf_discard _ => a_held g = 1
  | bpf_ringbuf_submit_dynptr dp | bpf_ringbuf_discard_dynptr dp =>
      a_held g = match dp with Some _ => 1 | None => 0 end
  | _ => True
  end.

Definition acct_next {R} (c : helper R) : R → acct → acct :=
  match c in helper R return R → acct → acct with
  | sync_fetch_and_add producer_stats idx _ => fun _ g => move (stat_delta idx) 0 (spend g)
  | bpf_ringbuf_reserve _ _ => fun r g => move 0 (if r then 1 else 0) (spend g)
  | bpf_ringbuf_reserve_dynptr _ => fun r g => move 0 (if r.2 then 1 else 0) (spend g)
  | bpf_ringbuf_submit _ _ | bpf_ringbuf_discard _ => fun _ g => move 0 (-1) (spend g)
  | bpf_ringbuf_submit_dynptr dp | bpf_ringbuf_discard_dynptr dp =>
      fun _ g => move 0 (if dp then -1 else 0) (spend g)
  | _ => fun _ => spend
  end.

Definition accounting : watcher acct := {|
  w_ok R c g := (0 < a_budget g)%nat ∧ acct_pre c g;
  w_rely _ _ _ := True;
  w_next R c r g := acct_next c r g
|}.

Definition mk (p h : Z) (n : nat) : acct := {| a_pending := p; a_held := h; a_budget := n |}.

(** * Programs that neither count nor reserve *)

Section Quiet.
Context (id : Z).

Notation wpa := (wp accounting id).

(** [p] makes at most [n] calls, none of which counts, reserves or releases. *)
Definition quiet (n : nat) {A} (p : prog A) : Prop :=
  ∀ Q pe h K, (n <= K)%nat → (∀ a K', (K - n <= K')%nat → Q a (mk pe h K')) → wpa p Q (mk pe h K).

Definition quiet_call {R} (c : helper R) : Prop :=
  (∀ g, acct_pre c g) ∧ ∀ r g, acct_next c r g = spend g.

Lemma quiet_ret {A} n (a : A) : quiet n (mret a).
Proof. intros Q pe h K Hn HQ. apply wp_ret, HQ. lia. Qed.

Lemma quiet_call_bind {R A} n (c : helper R) (f : R → prog A) :
  quiet_call c → (∀ r, possible id c r → quiet n (f r)) → quiet (S n) (call c ≫= f).
Proof.
  intros [Hpre Hnext] Hf Q pe h K Hn HQ. apply wp_call_bind; [split; [cbn; lia|apply Hpre]|].
  intros r Hr _. cbn [w_next accounting]. rewrite Hnext. apply Hf; [done|cbn; lia|].
  intros a K' HK. apply HQ. cbn in HK. lia.
Qed.

Lemma quiet_last {R} n (c : helper R) : quiet_call c → quiet (S n) (call c).
Proof.
  intros [Hpre Hnext] Q pe h K Hn HQ. apply wp_call; [split; [cbn; lia|apply Hpre]|].
  intros r Hr _. cbn [w_next accounting]. rewrite Hnext. apply HQ. cbn. lia.
Qed.

Lemma quiet_bind {A B} n N (p : prog A) (f : A → prog B) :
  quiet n p → (n <= N)%nat → (∀ a, quiet (N - n) (f a)) → quiet N (p ≫= f).
Proof.
  intros Hp HnN Hf Q pe h K Hn HQ. apply wp_bind, Hp; [lia|]. intros a K' HK.
  apply Hf; [lia|]. intros b K2 HK2. apply HQ. lia.
Qed.

Lemma quiet_weaken {A} n m (p : prog A) : quiet n p → (n <= m)%nat → quiet m p.
Proof. intros Hp Hnm Q pe h K Hn HQ. apply Hp; [lia|]. intros a K' HK. apply HQ. lia. Qed.
End Quiet.

#[export] Hint Extern 1 (quiet_call _) => (split; [intros ?; exact I|done]) : quiet.

(** Walk a program made of quiet calls and quiet parts; branches are split. *)
Ltac quiet_walk :=
  repeat first
    [ apply quiet_ret
    | eapply quiet_bind; [solve [eauto with quiet]|lia|intros ?; cbn [Nat.sub]]
    | eapply quiet_weaken; [solve [eauto with quiet]|lia]
    | apply quiet_call_bind; [solve [auto with quiet]|intros ? ?]
    | apply quiet_last; solve [auto with quiet]
    | case_match ].

Section QuietParts.
Context (id : Z).

Lemma quiet_ssl_key_for ptr : quiet id 1 (ssl_key_for ptr).
Proof. unfold ssl_key_for. quiet_walk. Qed.

Lemma quiet_core_read size f src : quiet id 1 (core_read size f src).
Proof. unfold core_read. quiet_walk. Qed.

#[local] Hint Resolve quiet_ssl_key_for quiet_core_read : quiet.

Lemma quiet_start : quiet id 3 current_proc_start_ns.
Proof. unfold current_proc_start_ns. quiet_walk. Qed.

Lemma quiet_owner ptr t : quiet id 2 (remember_ssl_owner ptr t).
Proof. unfold remember_ssl_owner. quiet_walk. Qed.

Lemma quiet_netns h : quiet id 4 (read_netns_ino h).
Proof. unfold read_netns_ino. quiet_walk. Qed.

#[local] Hint Resolve quiet_start quiet_owner quiet_netns : quiet.

Lemma quiet_fill_event_hdr h t ptr al cl d prov g q :
  quiet id 13 (fill_event_hdr h t ptr al cl d prov g q).
Proof. unfold fill_event_hdr. cbv zeta. quiet_walk. Qed.

Lemma quiet_should_sample_out data len : quiet id 3 (should_sample_out data len).
Proof. unfold should_sample_out. cbv zeta. quiet_walk. Qed.

Lemma quiet_sock_ino c sk : quiet id 4 (read_sock_ino c sk).
Proof. unfold read_sock_ino. quiet_walk. Qed.

#[local] Hint Resolve quiet_sock_ino : quiet.

Lemma quiet_fill_conn_info c sk : quiet id 9 (fill_conn_info c sk).
Proof.
  unfold fill_conn_info. eapply quiet_bind; [apply quiet_core_read|lia|]. intros f. cbv zeta.
  apply (quiet_bind id 2); [quiet_walk|lia|]. intros out. cbn [Nat.sub]. quiet_walk.
Qed.

Lemma quiet_sock_of_fd fd : quiet id 7 (sock_of_fd fd).
Proof. unfold sock_of_fd. cbv zeta. quiet_walk. Qed.

Lemma quiet_end_generation k : quiet id 5 (end_generation k).
Proof. unfold end_generation. quiet_walk. Qed.
End QuietParts.

#[export] Hint Resolve quiet_ssl_key_for quiet_core_read quiet_start quiet_owner quiet_netns
  quiet_fill_event_hdr quiet_should_sample_out quiet_fill_conn_info quiet_sock_of_fd
  quiet_end_generation : quiet.

(** * Programs that settle what they start *)

Section Settle.
Context (id : Z).

Notation wpa := (wp accounting id).

(** From no pending attempt and no reservation held, [p] makes at most [n] calls and ends the
    same way. *)
Definition settles (n : nat) {A} (p : prog A) : Prop :=
  ∀ Q K, (n <= K)%nat → (∀ a K', (K - n <= K')%nat → Q a (mk 0 0 K')) → wpa p Q (mk 0 0 K).

Lemma quiet_settles {A} n m (p : prog A) : quiet id m p → (m <= n)%nat → settles n p.
Proof. intros Hp Hmn Q K Hn HQ. apply Hp; [lia|]. intros a K' HK. apply HQ. lia. Qed.

Lemma settles_bind {A B} n N (p : prog A) (f : A → prog B) :
  settles n p → (n <= N)%nat → (∀ a, settles (N - n) (f a)) → settles N (p ≫= f).
Proof.
  intros Hp HnN Hf Q K Hn HQ. apply wp_bind, Hp; [lia|]. intros a K' HK.
  apply Hf; [lia|]. intros b K2 HK2. apply HQ. lia.
Qed.

Lemma settles_call_bind {R A} n (c : helper R) (f : R → prog A) :
  quiet_call c → (∀ r, possible id c r → settles n (f r)) → settles (S n) (call c ≫= f).
Proof.
  intros [Hpre Hnext] Hf Q K Hn HQ. apply wp_call_bind; [split; [cbn; lia|apply Hpre]|].
  intros r Hr _. cbn [w_next accounting]. rewrite Hnext. apply Hf; [done|cbn; lia|].
  intros a K' HK. apply HQ. cbn in HK. lia.
Qed.

(** One counter. *)
Lemma wp_count_stat idx Q pe h K :
  0 <= idx < 6 → pe + stat_delta idx ∈ [0; 1] → (2 <= K)%nat →
  (∀ K', (K - 2 <= K')%nat → Q tt (mk (pe + stat_delta idx) h K')) →
  wpa (count_stat idx) Q (mk pe h K).
Proof.
  intros Hidx Hd HK HQ. unfold count_stat. apply wp_call_bind; [split; [cbn; lia|exact I]|].
  intros [[]|] Hr _.
  - apply wp_call_bind; [split; [cbn; lia|exact (conj eq_refl (conj Hidx Hd))]|]. intros r _ _. apply wp_ret.
    destruct K as [|[|K]]; [lia|lia|]. cbn. unfold move, spend. cbn. rewrite Z.add_0_r.
    apply HQ. lia.
  - exfalso. destruct Hr as [_ Hr]. destruct Hr as [? ?]; [|done]. unfold in_range. cbn.
    apply andb_true_iff. split; [apply Z.leb_le|apply Z.ltb_lt]; lia.
Qed.

(** A quiet part in the middle of a path. *)
Lemma wp_quiet_bind {A B} n (p : prog A) (f : A → prog B) Q pe h K :
  quiet id n p → (n <= K)%nat →
  (∀ a K', (K - n <= K')%nat → wpa (f a) Q (mk pe h K')) → wpa (p ≫= f) Q (mk pe h K).
Proof. intros Hp HK Hf. by apply wp_bind, Hp. Qed.

Lemma wp_count_stat_bind {B} idx (f : unit → prog B) Q pe h K :
  0 <= idx < 6 → pe + stat_delta idx ∈ [0; 1] → (2 <= K)%nat →
  (∀ K', (K - 2 <= K')%nat → wpa (f tt) Q (mk (pe + stat_delta idx) h K')) →
  wpa (count_stat idx ≫= f) Q (mk pe h K).
Proof. intros. by apply wp_bind, wp_count_stat. Qed.

(** A quiet call in the middle of a path. *)
Lemma wp_quiet_call_bind {R B} (c : helper R) (f : R → prog B) Q pe h K :
  quiet_call c → (1 <= K)%nat →
  (∀ r, possible id c r → wpa (f r) Q (mk pe h (pred K))) → wpa (call c ≫= f) Q (mk pe h K).
Proof.
  intros [Hpre Hnext] HK Hf. apply wp_call_bind; [split; [cbn; lia|apply Hpre]|].
  intros r Hr _. cbn [w_next accounting]. rewrite Hnext. by apply Hf.
Qed.

End Settle.

(** One step of a path: a quiet part, then a quiet call. *)
Ltac wp_part := eapply wp_quiet_bind; [solve [eauto with quiet]|lia|intros ? ? ?].
Ltac wp_at st := lazymatch goal with |- wp ?W ?i ?p ?Q _ => change (wp W i p Q st) end.
Ltac wp_quiet := apply wp_quiet_call_bind; [solve [auto with quiet]|lia|intros ? ?].
Ltac wp_stat := apply wp_count_stat_bind;
  [unfold STAT_ATTEMPTED, STAT_SUBMITTED, STAT_RESERVE_FAIL, STAT_COPY_FAIL, STAT_SAMPLED,
     STAT_MAP_FAIL; lia
  |apply (bool_decide_unpack _); vm_compute; exact I|lia|intros ? ?].

(** * Emission *)

Section Emission.
Context (id : Z).

Notation wpa := (wp accounting id).

Lemma wp_next_seq ptr d Q pe h K :
  pe ∈ [0; 1] → (7 <= K)%nat →
  (∀ a K', (K - 7 <= K')%nat → Q a (mk pe h K')) → wpa (next_seq ptr d) Q (mk pe h K).
Proof.
  intros Hpe HK HQ. unfold next_seq. wp_part. wp_quiet.
  eapply (wp_quiet_bind id 2); [|lia|].
  { case_match; quiet_walk. }
  intros st K2 HK2. destruct st as [st|].
  - do 3 wp_quiet. apply wp_ret, HQ. lia.
  - apply wp_count_stat_bind; [unfold STAT_MAP_FAIL; lia| |lia|].
    + change (stat_delta STAT_MAP_FAIL) with 0. by rewrite Z.add_0_r.
    + intros K3 HK3. apply wp_ret. change (stat_delta STAT_MAP_FAIL) with 0. rewrite Z.add_0_r.
      apply HQ. lia.
Qed.

(** A sampled-out attempt is settled by the sampler. *)
Lemma wp_sampled_out buf n Q h K :
  (6 <= K)%nat →
  (∀ (out : bool) K', (K - 6 <= K')%nat → Q out (mk (if out then 0 else 1) h K')) →
  wpa (sampled_out buf n) Q (mk 1 h K).
Proof.
  intros HK HQ. unfold sampled_out. destruct (0 <? n); [|apply wp_ret, (HQ false); lia].
  cbv zeta. wp_quiet. wp_part. destruct a; [|apply wp_ret, (HQ false); lia].
  wp_stat. apply wp_ret, (HQ true). lia.
Qed.

(** Leaving the dynptr path: the outcome is counted, then the reservation is released. *)
Lemma wp_dynptr_fail stat (dp : option dyn_mem) Q K :
  STAT_RESERVE_FAIL <= stat <= STAT_COPY_FAIL → (3 <= K)%nat →
  (∀ a K', (K - 3 <= K')%nat → Q a (mk 0 0 K')) →
  wpa (dynptr_fail stat dp) Q (mk 1 (if dp then 1 else 0) K).
Proof.
  intros Hs HK HQ. unfold dynptr_fail.
  assert (stat_delta stat = -1) as Hd.
  { unfold stat_delta, STAT_RESERVE_FAIL, STAT_COPY_FAIL, STAT_ATTEMPTED, STAT_SUBMITTED,
      STAT_SAMPLED in *. destruct (stat =? 0) eqn:E0; zbool; [lia|].
    by rewrite (proj2 (Z.leb_le 1 stat)), (proj2 (Z.leb_le stat 4)) by lia. }
  unfold STAT_RESERVE_FAIL, STAT_COPY_FAIL in Hs.
  apply wp_count_stat_bind; [lia|rewrite Hd; by apply (bool_decide_unpack _)|lia|].
  intros K' HK'. rewrite Hd. destruct K' as [|K']; [lia|].
  apply wp_call_bind; [split; [cbn; lia|by destruct dp]|]. intros r _ _. apply wp_ret.
  destruct dp; apply (HQ _ K'); lia.
Qed.

Lemma wp_dynptr_submit (d : dyn_mem) Q K :
  (3 <= K)%nat → (∀ a K', (K - 3 <= K')%nat → Q a (mk 0 0 K')) →
  wpa (dynptr_submit (Some d)) Q (mk 1 1 K).
Proof.
  intros HK HQ. unfold dynptr_submit. wp_stat. destruct K' as [|K']; [lia|].
  apply wp_call_bind; [split; [cbn; lia|done]|]. intros r _ _. apply wp_ret, (HQ _ K'). lia.
Qed.

Lemma wp_dynptr_copy buf n (d : dyn_mem) Q K :
  (6 <= K)%nat → (∀ a K', (K - 6 <= K')%nat → Q a (mk 0 0 K')) →
  wpa (dynptr_copy buf n (Some d)) Q (mk 1 1 K).
Proof.
  intros HK HQ. unfold dynptr_copy.
  assert (∀ stat dp K', STAT_RESERVE_FAIL <= stat <= STAT_COPY_FAIL → is_Some dp →
    (K - 3 <= K')%nat → wpa (dynptr_fail stat dp) Q (mk 1 1 K')) as Hfail.
  { intros stat dp K' Hs [d' ->] HK'. apply (wp_dynptr_fail stat (Some d')); [done|lia|].
    intros a K2 HK2. apply HQ. lia. }
  destruct (0 <? n); [|apply wp_dynptr_submit; [lia|]; intros; apply HQ; lia].
  wp_quiet. destruct r as [[]|]; [|apply Hfail; [done|done|lia]].
  cbv zeta. wp_quiet. destruct (negb (r =? 0)); [apply Hfail; [done|done|lia]|].
  wp_quiet. destruct (proj2 (H1 : is_Some r0.2 ↔ _) ltac:(done)) as [d' Hd'].
  destruct (negb (r0.1 =? 0)); [apply Hfail; [done|done|lia]|].
  rewrite Hd'. apply wp_dynptr_submit; [lia|]. intros. apply HQ. lia.
Qed.

(** Every emission settles its attempt and releases its reservation within 40 calls. *)
Lemma settles_emit_event b buf len d ptr prov :
  settles id 40 (emit_event b buf len d ptr prov).
Proof.
  intros Q K HK HQ. unfold emit_event, emit_event_dynptr. destruct b.
  - wp_quiet. cbv zeta. wp_stat. apply wp_bind, wp_next_seq; [by apply (bool_decide_unpack _)|lia|].
    intros gs K2 HK2. apply wp_bind, wp_sampled_out; [lia|]. intros [|] K3 HK3.
    { apply wp_ret, HQ. lia. }
    destruct K3 as [|K3]; [lia|]. apply wp_call_bind; [split; [cbn; lia|done]|].
    intros [rc dp] Hr _. cbn [possible fst snd] in *. destruct dp as [dm|].
    + rewrite (proj2 (Z.leb_le 0 rc)) by (apply Hr; done).
      wp_at (mk 1 1 K3). wp_quiet. destruct r0.
      * wp_part. apply wp_dynptr_copy; [lia|]. intros. apply HQ. lia.
      * apply (wp_dynptr_fail _ (Some dm)); [done|lia|]. intros. apply HQ. lia.
    + wp_at (mk 1 0 K3). destruct (0 <=? rc); (apply (wp_dynptr_fail _ None); [done|lia|intros; apply HQ; lia]).
  - wp_quiet. cbv zeta. wp_stat. apply wp_bind, wp_next_seq; [by apply (bool_decide_unpack _)|lia|].
    intros gs K2 HK2. apply wp_bind, wp_sampled_out; [lia|]. intros [|] K3 HK3.
    { apply wp_ret, HQ. lia. }
    destruct K3 as [|K3]; [lia|]. apply wp_call_bind; [split; [cbn; lia|done]|].
    intros [x|] _ _.
    + wp_at (mk 1 1 K3). wp_part.
      eapply (wp_quiet_bind id 1); [destruct (0 <? clamp_len len); quiet_walk|lia|].
      intros copied K5 HK5. destruct copied as [bs|].
      all: wp_stat; match goal with HK : (_ <= ?K')%nat |- wp _ _ _ _ (mk _ _ ?K') =>
             destruct K' as [|?]; [lia|] end;
           apply wp_call_bind; [split; [cbn; lia|done]|]; intros ? _ _; apply wp_ret;
           apply HQ; cbn; lia.
    + wp_at (mk 1 0 K3). wp_stat. apply wp_ret, HQ. lia.
Qed.
End Emission.

(** * Every handler *)

Section Handlers.
Context (id : Z).

Lemma settles_weaken {A} n m (p : prog A) : settles id n p → (n <= m)%nat → settles id m p.
Proof. intros Hp Hnm Q K Hn HQ. apply Hp; [lia|]. intros a K' HK. apply HQ. lia. Qed.

(** The part of an exit probe that may report. *)
Ltac settles_report :=
  solve [ repeat first
    [ eapply settles_weaken; [apply settles_emit_event|lia]
    | eapply (quiet_settles id _ 0); [apply quiet_ret|lia]
    | apply settles_call_bind; [solve [auto with quiet]|intros ? ?]
    | case_match ] ].

Ltac settles_exit :=
  repeat first
    [ eapply (quiet_settles id _ 0); [apply quiet_ret|lia]
    | apply settles_call_bind; [solve [auto with quiet]|intros ? ?]
    | eapply (settles_bind id 1); [apply (quiet_settles id 1 1); [solve [quiet_walk]|lia]|lia|
                                   intros ?; cbn [Nat.sub]]
    | eapply (settles_bind id 41); [settles_report|lia|intros ?; cbn [Nat.sub]]
    | case_match ].

Lemma settles_site_exit b arch c ctx : settles id 64 (site_exit b arch c ctx).
Proof.
  destruct c; cbn [site_exit];
    unfold ssl_write_exit, ssl_read_exit, ssl_write_ex_exit, ssl_read_ex_exit, gnutls_send_exit,
      gnutls_recv_exit, nss_write_exit, nss_read_exit, quic_stream_send_exit,
      quic_stream_recv_exit, ktls_send_exit, ktls_recv_exit, go_tls_write_exit, go_tls_read_exit,
      go_call_key_for; cbv zeta; settles_exit.
Qed.

Lemma quiet_ktls_save_args sk msg a : quiet id 15 (ktls_save_args sk msg a).
Proof.
  unfold ktls_save_args. cbv zeta. eapply quiet_bind; [apply quiet_core_read|lia|].
  intros iov. apply (quiet_bind id 2); [quiet_walk|lia|]. intros a'. cbn [Nat.sub].
  apply (quiet_bind id 12); [|lia|intros; apply quiet_ret]. unfold when. quiet_walk.
Qed.

#[local] Hint Resolve quiet_ktls_save_args : quiet.

Lemma quiet_go_call_key_for arch ctx : quiet id 1 (go_call_key_for arch ctx).
Proof. unfold go_call_key_for. cbv zeta. quiet_walk. Qed.

#[local] Hint Resolve quiet_go_call_key_for : quiet.

Lemma quiet_site_entry arch c ctx : quiet id 18 (site_entry arch c ctx).
Proof.
  destruct c; cbn [site_entry];
    unfold ssl_write_entry, ssl_read_entry, ssl_write_ex_entry, ssl_read_ex_entry,
      gnutls_send_entry, gnutls_recv_entry, nss_write_entry, nss_read_entry,
      quic_stream_send_entry, quic_stream_recv_entry, ktls_send_entry, ktls_recv_entry,
      go_tls_write_entry, go_tls_read_entry; cbv zeta; quiet_walk.
Qed.

Lemma quiet_record_connection sk role : quiet id 13 (record_connection sk role).
Proof. unfold record_connection. cbv zeta. quiet_walk. Qed.

Lemma quiet_tcp_close ctx : quiet id 5 (tcp_close_entry ctx).
Proof.
  unfold tcp_close_entry. cbv zeta. apply quiet_call_bind; [auto with quiet|]. intros o _.
  apply (quiet_bind id 1); [quiet_walk|lia|]. intros t. cbn [Nat.sub]. quiet_walk.
Qed.

Lemma quiet_ssl_set_fd ctx : quiet id 19 (ssl_set_fd_entry ctx).
Proof. unfold ssl_set_fd_entry. cbv zeta. quiet_walk. Qed.

Lemma quiet_scan fuel i ip : quiet id fuel (scan_rules fuel i ip).
Proof.
  revert i. induction fuel as [|fuel IH]; intros i; cbn [scan_rules]; [apply quiet_ret|].
  destruct (_ <? _); [|apply quiet_ret]. apply quiet_call_bind; [auto with quiet|].
  intros r _. destruct (rule_blocks ip r); [apply quiet_ret|apply IH].
Qed.

Lemma quiet_lsm sock address addrlen : quiet id 18 (lsm_socket_connect sock address addrlen).
Proof.
  unfold lsm_socket_connect. destruct (_ || _); [apply quiet_ret|].
  eapply quiet_bind; [apply quiet_core_read|lia|]. intros f.
  destruct (negb _); [apply quiet_ret|]. eapply quiet_bind; [apply quiet_core_read|lia|].
  intros ip. destruct (ip =? 0); [apply quiet_ret|]. apply quiet_scan.
Qed.

Lemma settles_send_close ptr t g : settles id 6 (send_close ptr t g).
Proof.
  intros Q K HK HQ. unfold send_close. destruct K as [|K]; [lia|].
  apply wp_call_bind; [split; [cbn; lia|done]|]. intros [x|] _ _.
  - wp_at (mk 0 1 K). wp_quiet. wp_part. destruct K' as [|K']; [lia|].
    apply wp_call; [split; [cbn; lia|done]|]. intros [] _ _. apply (HQ tt K'). lia.
  - wp_at (mk 0 0 K). apply wp_ret, HQ. lia.
Qed.

Lemma settles_ssl_free ctx : settles id 18 (ssl_free_entry ctx).
Proof.
  unfold ssl_free_entry. cbv zeta.
  apply (settles_bind id 1); [by apply (quiet_settles id 1 1 _ (quiet_ssl_key_for id _))|lia|].
  intros k. apply settles_call_bind; [auto with quiet|]. intros o _.
  apply (settles_bind id 1); [apply (quiet_settles id 1 1); [quiet_walk|lia]|lia|]. intros t.
  apply (settles_bind id 5); [by apply (quiet_settles id 5 5 _ (quiet_end_generation id _))|cbn; lia|].
  intros g. apply (settles_bind id 6); [apply settles_send_close|cbn; lia|]. intros _.
  apply (quiet_settles id _ 3); [quiet_walk|cbn; lia].
Qed.

Lemma settles_exec args : settles id 7 (handle_new_process args).
Proof.
  intros Q K HK HQ. unfold handle_new_process. cbv zeta. destruct K as [|K]; [lia|].
  apply wp_call_bind; [split; [cbn; lia|done]|]. intros [x|] _ _.
  - wp_at (mk 0 1 K). do 3 wp_quiet. wp_part. wp_quiet. destruct K' as [|[|K']]; [lia|lia|].
    apply wp_call_bind; [split; [cbn; lia|done]|]. intros [] _ _. apply wp_ret, (HQ _ K'). lia.
  - wp_at (mk 0 0 K). apply wp_ret, HQ. lia.
Qed.

(** From nothing pending and nothing held, every handler ends the same way, within 64 calls. *)
Lemma settles_handler b arch i : settles id 64 (handler b arch i).
Proof.
  destruct i; cbn [handler].
  - eapply quiet_settles; [apply quiet_site_entry|lia].
  - apply settles_site_exit.
  - eapply quiet_settles; [apply quiet_record_connection|lia].
  - eapply quiet_settles; [apply quiet_record_connection|lia].
  - eapply quiet_settles; [apply quiet_tcp_close|lia].
  - eapply quiet_settles; [apply quiet_ssl_set_fd|lia].
  - eapply settles_weaken; [apply settles_ssl_free|lia].
  - eapply settles_weaken; [apply settles_exec|lia].
  - eapply quiet_settles; [apply quiet_lsm|lia].
Qed.
End Handlers.

(** * Termination and results *)

(** Every path of [p] makes at most [n] helper calls. *)
Fixpoint bounded (id : Z) (n : nat) {A} (p : prog A) : Prop :=
  match p with
  | Ret _ => True
  | Call c k =>
      match n with
      | O => False
      | S n' => ∀ r, possible id c r → bounded id n' (k r)
      end
  end.

(** Every path of [p] ends with a result that satisfies [P], whatever the helpers answer. *)
Fixpoint results {A} (P : A → Prop) (p : prog A) : Prop :=
  match p with
  | Ret a => P a
  | Call c k => ∀ r, results P (k r)
  end.

Lemma acct_next_budget {R} (c : helper R) r g : a_budget (acct_next c r g) = pred (a_budget g).
Proof. destruct c; try done. by destruct m. Qed.

Lemma wp_bounded {A} id (p : prog A) Q g : wp accounting id p Q g → bounded id (a_budget g) p.
Proof.
  revert g. induction p as [a|R c k IH]; intros g; [by destruct (a_budget g)|].
  cbn [wp bounded]. intros [[Hb _] Hk]. cbn in Hb. destruct (a_budget g) as [|n] eqn:En; [lia|].
  intros r Hr. specialize (Hk r Hr Logic.I). apply IH in Hk.
  cbn [w_next accounting] in Hk. rewrite acct_next_budget, En in Hk. exact Hk.
Qed.

Lemma results_bind {A B} (P : B → Prop) (p : prog A) (f : A → prog B) :
  (∀ a, results P (f a)) → results P (p ≫= f).
Proof. intros Hf. induction p as [a|R c k IH]; [apply Hf|]. intros r. apply IH. Qed.

Ltac results_walk :=
  repeat first
    [ reflexivity
    | apply results_bind; intros ?
    | case_match ].

(** Tracing programs return 0; the connect hook 0 or [-EPERM]. *)
Definition result_ok (i : invocation) (r : Z) : Prop :=
  match i with
  | SocketConnect _ _ _ => r = 0 ∨ r = - EPERM
  | _ => r = 0
  end.

Lemma results_scan fuel i ip : results (fun r => r = 0 ∨ r = - EPERM) (scan_rules fuel i ip).
Proof.
  revert i. induction fuel as [|fuel IH]; intros i; cbn [scan_rules]; [by left|].
  destruct (_ <? _); [|by left]. apply results_bind. intros r.
  destruct (rule_blocks ip r); [by right|apply IH].
Qed.

Lemma handler_results b arch i : results (result_ok i) (handler b arch i).
Proof.
  destruct i as [c ctx|c ctx|ctx|ctx|ctx|ctx|ctx|args|so ad al]; cbn [handler result_ok].
  - destruct c; cbn [site_entry];
      unfold ssl_write_entry, ssl_read_entry, ssl_write_ex_entry, ssl_read_ex_entry,
        gnutls_send_entry, gnutls_recv_entry, nss_write_entry, nss_read_entry,
        quic_stream_send_entry, quic_stream_recv_entry, ktls_send_entry, ktls_recv_entry,
        go_tls_write_entry, go_tls_read_entry; cbv zeta; results_walk.
  - destruct c; cbn [site_exit];
      unfold ssl_write_exit, ssl_read_exit, ssl_write_ex_exit, ssl_read_ex_exit,
        gnutls_send_exit, gnutls_recv_exit, nss_write_exit, nss_read_exit,
        quic_stream_send_exit, quic_stream_recv_exit, ktls_send_exit, ktls_recv_exit,
        go_tls_write_exit, go_tls_read_exit; cbv zeta; results_walk.
  - unfold tcp_connect_entry, record_connection. cbv zeta. results_walk.
  - unfold tcp_accept_ret, record_connection. cbv zeta. results_walk.
  - unfold tcp_close_entry. cbv zeta. results_walk.
  - unfold ssl_set_fd_entry. cbv zeta. results_walk.
  - unfold ssl_free_entry. cbv zeta. results_walk.
  - unfold handle_new_process. cbv zeta. results_walk.
  - unfold lsm_socket_connect. destruct (_ || _); [by left|]. apply results_bind. intros f.
    destruct (negb _); [by left|]. apply results_bind. intros ip.
    destruct (ip =? 0); [by left|apply results_scan].
Qed.

(** * The invariant *)

Definition pend (g : option acct) : Z := match g with Some g => a_pending g | None => 0 end.
Definition held (g : option acct) : Z := match g with Some g => a_held g | None => 0 end.

(** Attempts of a CPU that have an outcome. *)
Definition settled_attempts (s : kstate) (cpu : Z) : Z :=
  stat s cpu STAT_SUBMITTED + stat s cpu STAT_RESERVE_FAIL + stat s cpu STAT_COPY_FAIL +
  stat s cpu STAT_SAMPLED.

Definition balanced (s : kstate) (gs : Z → option acct) : Prop :=
  ∀ cpu, (2 ^ 64 | stat s cpu STAT_ATTEMPTED - settled_attempts s cpu - pend (gs cpu)) ∧
    pend (gs cpu) ∈ [0; 1] ∧
    k_reserved s cpu = held (gs cpu) ∧ held (gs cpu) ∈ [0; 1].

Lemma balanced_same s s' gs gs' :
  (∀ cpu i, stat s' cpu i = stat s cpu i) → k_reserved s' = k_reserved s →
  (∀ cpu, pend (gs' cpu) = pend (gs cpu) ∧ held (gs' cpu) = held (gs cpu)) →
  balanced s gs → balanced s' gs'.
Proof.
  intros Hst Hres Hgs Hb cpu. unfold settled_attempts. rewrite !Hst, Hres.
  destruct (Hgs cpu) as [-> ->]. apply Hb.
Qed.


Section Balance.
Context (s : kstate) (gs : Z → option acct) (cpu0 : Z) (g : acct).
Hypothesis Hb : balanced s gs.
Hypothesis Hg : gs cpu0 = Some g.

Lemma ghost_set g' cpu :
  fn_set gs cpu0 (Some g') cpu = if decide (cpu0 = cpu) then Some g' else gs cpu.
Proof. done. Qed.

(** Counters and reservations as they were. *)
Lemma balanced_quiet s' :
  (∀ cpu i, stat s' cpu i = stat s cpu i) → k_reserved s' = k_reserved s →
  balanced s' (fn_set gs cpu0 (Some (spend g))).
Proof using Hb Hg.
  intros Hst Hres. apply (balanced_same s s' gs); try done. intros cpu.
  rewrite ghost_set. case_decide as Hc; [|done]. subst cpu. by rewrite Hg.
Qed.

(** One reservation taken or released. *)
Lemma balanced_reserve s' d :
  (∀ cpu i, stat s' cpu i = stat s cpu i) →
  (∀ cpu, k_reserved s' cpu = if decide (cpu0 = cpu) then k_reserved s cpu + d
                              else k_reserved s cpu) →
  a_held g + d ∈ [0; 1] →
  balanced s' (fn_set gs cpu0 (Some (move 0 d (spend g)))).
Proof using Hb Hg.
  intros Hst Hres Hd cpu. specialize (Hb cpu). unfold settled_attempts in *. rewrite !Hst, Hres.
  rewrite ghost_set. case_decide as Hc; [|done]. subst cpu. rewrite Hg in Hb.
  cbn [pend held move spend a_pending a_held] in *. rewrite Z.add_0_r.
  destruct Hb as (H1 & H2 & H3 & H4). rewrite H3. done.
Qed.

(** One counter bumped. *)
Lemma balanced_bump idx :
  0 <= idx < 6 → a_pending g + stat_delta idx ∈ [0; 1] →
  balanced (bump_stat cpu0 idx s) (fn_set gs cpu0 (Some (move (stat_delta idx) 0 (spend g)))).
Proof using Hb Hg.
  intros Hidx Hd cpu. specialize (Hb cpu). rewrite ghost_set.
  destruct (decide (cpu0 = cpu)) as [<-|Hne].
  - rewrite Hg in Hb. cbn [pend held move spend a_pending a_held] in *. rewrite Z.add_0_r.
    destruct Hb as ([q Hq] & H2 & H3 & H4). split; [|done].
    unfold settled_attempts in *. rewrite !stat_bump.
    assert (∀ z, ∃ r, u64 z = z + r * 2 ^ 64) as Hu.
    { intros z. exists (- (z / 2 ^ 64)). unfold wrap. rewrite Z.mod_eq by done. lia. }
    destruct (Hu (stat s cpu0 idx + 1)) as [r Hr]. rewrite Hr.
    unfold stat_delta, STAT_ATTEMPTED, STAT_SUBMITTED, STAT_RESERVE_FAIL, STAT_COPY_FAIL,
      STAT_SAMPLED in *.
    assert (idx = 0 ∨ idx = 1 ∨ idx = 2 ∨ idx = 3 ∨ idx = 4 ∨ idx = 5)
      as [-> |[-> |[-> |[-> |[-> | ->]]]]] by lia; cbn -[Z.pow] in *.
    + exists (q + r). repeat case_decide; lia.
    + exists (q - r). repeat case_decide; lia.
    + exists (q - r). repeat case_decide; lia.
    + exists (q - r). repeat case_decide; lia.
    + exists (q - r). repeat case_decide; lia.
    + exists q. repeat case_decide; lia.
  - unfold settled_attempts. rewrite !stat_bump_other by done. done.
Qed.
End Balance.

Lemma balanced_call s gs e g {R} (c : helper R) :
  balanced s gs → gs (e_cpu e) = Some g → acct_pre c g →
  balanced (handle e c s).2 (fn_set gs (e_cpu e) (Some (acct_next c (handle e c s).1 g))).
Proof.
  intros Hb Hg Hpre. pose proof (balanced_quiet s gs (e_cpu e) g Hb Hg) as Hquiet.
  pose proof (balanced_reserve s gs (e_cpu e) g Hb Hg) as Hreserve.
  assert (∀ s0 d cpu, k_reserved s0 = k_reserved s →
    k_reserved (add_reserved (e_cpu e) d s0) cpu =
    if decide (e_cpu e = cpu) then k_reserved s cpu + d else k_reserved s cpu) as Hadd.
  { intros s0 d cpu Hs0. unfold add_reserved, fn_set. cbn. rewrite Hs0.
    case_decide; by subst. }
  destruct c; cbn [handle acct_next acct_pre fst snd] in *; try (by apply Hquiet).
  - destruct (uread e addr size); by apply Hquiet.
  - apply Hquiet; [intros; apply stat_update_elem|]. unfold update_elem.
    by destruct f, (k_maps s m !! k); cbn; try case_match.
  - destruct m; cbn [fst snd].
    + apply Hquiet; [|done]. intros cpu i. apply counter_set_counter_ne. congruence.
    + destruct Hpre as (-> & Hidx & Hd). by apply balanced_bump.
    + apply Hquiet; [|done]. intros cpu i. apply counter_set_counter_ne. congruence.
  - destruct (e_reserve e r size); cbn [fst snd].
    + apply Hreserve; [done|intros; by apply Hadd|]. rewrite Hpre. by apply (bool_decide_unpack _).
    + apply Hreserve; [done|intros; by case_decide; rewrite ?Z.add_0_r|].
      rewrite Hpre. by apply (bool_decide_unpack _).
  - apply Hreserve; [done|intros; by apply Hadd|]. rewrite Hpre. by apply (bool_decide_unpack _).
  - apply Hreserve; [done|intros; by apply Hadd|]. rewrite Hpre. by apply (bool_decide_unpack _).
  - destruct (e_reserve e events size); cbn [fst snd].
    + apply Hreserve; [done|intros; by apply Hadd|]. rewrite Hpre. by apply (bool_decide_unpack _).
    + apply Hreserve; [done|intros; by case_decide; rewrite ?Z.add_0_r|].
      rewrite Hpre. by apply (bool_decide_unpack _).
  - destruct dp; [|by apply Hquiet]. destruct (e_dynptr_write_err e =? 0); by apply Hquiet.
  - destruct dp; cbn [snd].
    + apply Hreserve; [done|intros; by apply Hadd|]. rewrite Hpre. by apply (bool_decide_unpack _).
    + apply Hreserve; [done|intros; by case_decide; rewrite ?Z.add_0_r|].
      rewrite Hpre. by apply (bool_decide_unpack _).
  - destruct dp; cbn [snd].
    + apply Hreserve; [done|intros; by apply Hadd|]. rewrite Hpre. by apply (bool_decide_unpack _).
    + apply Hreserve; [done|intros; by case_decide; rewrite ?Z.add_0_r|].
      rewrite Hpre. by apply (bool_decide_unpack _).
Qed.

(** * Properties *)

Definition anyone (_ : Z) (_ : invocation) : Prop := True.
Definition anywhere (_ : env) : Prop := True.

(** The counters and reservations of a freshly loaded object. *)
Definition fresh_counters (s : kstate) : Prop :=
  ∀ cpu, (∀ i, stat s cpu i = 0) ∧ k_reserved s cpu = 0.

(** C38: every handler terminates and answers what its program type must. Whatever the helpers
    answer, every path of every handler ends after at most 64 helper calls, with 0 for a tracing
    program and 0 or [-EPERM] for the connect hook. *)
Theorem handlers_terminate (b : bool) (arch : target_arch) (id : Z) (i : invocation) :
  bounded id 64 (handler b arch i) ∧ results (result_ok i) (handler b arch i).
Proof.
  split; [|apply handler_results].
  apply (wp_bounded id _ (fun _ _ => True) (mk 0 0 64)), settles_handler; [lia|done].
Qed.

Lemma balanced_init s : fresh_counters s → balanced s (fun _ => None).
Proof.
  intros Hs cpu. destruct (Hs cpu) as [Hst Hres]. unfold settled_attempts. rewrite !Hst, Hres.
  cbn [pend held]. split; [by exists 0|]. repeat split; by apply (bool_decide_unpack _).
Qed.

Definition acct_end (_ : Z) (g : acct) : Prop := a_pending g = 0 ∧ a_held g = 0.

Lemma balanced_reachable b arch s cfg :
  fresh_counters s → reachable b arch anyone anywhere (idle s) cfg →
  holds accounting acct_end balanced cfg.
Proof.
  intros Hs. apply (inv_sound b arch anyone anywhere accounting (fun _ => mk 0 0 64)).
  - intros id i _. apply settles_handler; [done|]. intros a K' _. done.
  - intros s1 gs e g R c Hb Hg _ [_ Hpre]. split; [done|]. by apply balanced_call.
  - intros s1 gs cpu id i Hb Hnone _. apply (balanced_same s1 s1 gs); try done.
    intros cpu'. unfold fn_set. case_decide; [|done]. subst. by rewrite Hnone.
  - intros s1 gs cpu g a Hb Hg [H1 H2]. apply (balanced_same s1 s1 gs); try done.
    intros cpu'. unfold fn_set. case_decide; [|done]. subst. rewrite Hg. cbn. lia.
  - intros s1 gs arrays Hb. exact Hb.
  - by apply balanced_init.
Qed.

(** C2: no attempt is lost from the accounts, in any interleaving. Starting from fresh counters,
    in every reachable state and on every CPU: attempted = submitted + reserve failures + copy
    failures + sampled, modulo 2^64, plus one exactly while the handler running there is between
    counting its attempt and counting its outcome; and the CPU holds at most one ring reservation.
    A CPU that runs no handler has settled every attempt and holds nothing. *)
Theorem loss_accounting_conserved (b : bool) (arch : target_arch) (s : kstate) (cfg : config)
    (Hfresh : fresh_counters s)
    (Hreach : reachable b arch anyone anywhere (idle s) cfg) (cpu : Z) :
  let s' := c_state cfg in
  ∃ pending,
    pending ∈ [0; 1] ∧ k_reserved s' cpu ∈ [0; 1] ∧
    stat s' cpu STAT_ATTEMPTED mod 2 ^ 64 =
      (stat s' cpu STAT_SUBMITTED + stat s' cpu STAT_RESERVE_FAIL + stat s' cpu STAT_COPY_FAIL +
       stat s' cpu STAT_SAMPLED + pending) mod 2 ^ 64 ∧
    (c_threads cfg cpu = None → pending = 0 ∧ k_reserved s' cpu = 0).
Proof.
  destruct (balanced_reachable b arch s cfg Hfresh Hreach) as (gs & Hb & Hf).
  destruct (Hb cpu) as ([q Hq] & Hp & Hres & Hh). specialize (Hf cpu).
  exists (pend (gs cpu)). split; [done|]. split; [by rewrite Hres|]. split.
  - unfold settled_attempts in Hq.
    rewrite <- (Z.mod_add (_ + pend (gs cpu)) q (2 ^ 64)) by done. f_equal. lia.
  - intros Hnone. rewrite Hnone in Hf. destruct (gs cpu); [done|]. by rewrite Hres.
Qed.

(** A failed write on CPU 0: the buffer is unmapped. *)
Definition failing_write : invocation := SiteExit SslWrite (demo_ctx 0 0 0 20).

Definition saved_state : kstate :=
  (run demo_env (site_entry arch_x86 SslWrite (demo_ctx 7 64 20 0)) demo_state).2.

Lemma loss_accounting_conserved_witness :
  fresh_counters saved_state ∧
  ∃ cfg pending, reachable false arch_x86 anyone anywhere (idle saved_state) cfg ∧
    stat (c_state cfg) 0 STAT_ATTEMPTED = 1 ∧ stat (c_state cfg) 0 STAT_COPY_FAIL = 1 ∧
    1 mod 2 ^ 64 =
      (stat (c_state cfg) 0 STAT_SUBMITTED + stat (c_state cfg) 0 STAT_RESERVE_FAIL +
       stat (c_state cfg) 0 STAT_COPY_FAIL + stat (c_state cfg) 0 STAT_SAMPLED + pending)
      mod 2 ^ 64.
Proof.
  assert (fresh_counters saved_state) as Hfresh by done.
  split; [exact Hfresh|].
  destruct (invocation_reaches false arch_x86 anyone anywhere demo_env failing_write saved_state
    (fun _ => None) Logic.I Logic.I (fun _ => eq_refl)) as (ths & Hr & _).
  eexists. destruct (loss_accounting_conserved false arch_x86 saved_state _ Hfresh Hr 0)
    as (pending & _ & _ & Heq & _).
  exists pending. split; [exact Hr|]. cbn [c_state] in *.
  assert (stat (run demo_env (handler false arch_x86 failing_write) saved_state).2 0
            STAT_ATTEMPTED = 1) as Ha by (vm_compute; reflexivity).
  split; [exact Ha|]. split; [vm_compute; reflexivity|].
  rewrite Ha in Heq. exact Heq.
Defined.
