(* ===== verification/Progress.v ===== *)
(** Handlers that have started come to an end, whatever the scheduler does: no handler waits for
    another one, so the machine drains. *)

From S2P Require Import Prelude Abi Kernel Logic Sampling Fixture TlsState Emit EmitProps Conn.
From S2P Require Import Lifecycle Calls Probes CallSites System Accounting.

(** * Steps of running handlers *)

Section Progress.
Context (b : bool) (arch : target_arch).

(** The steps of the machine that start nothing and are not userspace's. *)
Inductive progress : config → config → Prop :=
  | progress_call s ths cpu id R (c : helper R) (k : R → prog Z) e :
      ths cpu = Some {| th_id := id; th_prog := Call c k |} →
      e_cpu e = cpu → e_pid_tgid e = id →
      progress {| c_state := s; c_threads := ths |}
               {| c_state := (handle e c s).2;
                  c_threads :=
                    fn_set ths cpu (Some {| th_id := id; th_prog := k (handle e c s).1 |}) |}
  | progress_end s ths cpu id a :
      ths cpu = Some {| th_id := id; th_prog := Ret a |} →
      progress {| c_state := s; c_threads := ths |}
               {| c_state := s; c_threads := fn_set ths cpu None |}.

Lemma progress_is_step cfg cfg' : progress cfg cfg' → step b arch anyone anywhere cfg cfg'.
Proof. destruct 1; [by eapply step_call|by eapply step_end]. Qed.

(** A CPU that runs a handler can always take a step. *)
Lemma progress_possible cfg cpu th :
  c_threads cfg cpu = Some th → ∃ cfg', progress cfg cfg'.
Proof.
  destruct cfg as [s ths], th as [id p]. cbn [c_threads]. intros Hth. destruct p as [a|R c k].
  - eexists. by eapply progress_end.
  - eexists. eapply (progress_call s ths cpu id R c k
      (demo_env <| e_cpu := cpu |> <| e_pid_tgid := id |>)); done.
Qed.

(** * The steps left *)

(** [w cpu] steps are enough for the handler on [cpu]; only the CPUs of [cpus] run one. *)
Definition work_left (cpus : list Z) (w : Z → nat) (cfg : config) : Prop :=
  NoDup cpus ∧
  ∀ cpu th, c_threads cfg cpu = Some th →
    cpu ∈ cpus ∧ ∃ n, w cpu = S n ∧ bounded (th_id th) n (th_prog th).

Lemma sum_fn_set (w : Z → nat) c v cpus :
  NoDup cpus → c ∈ cpus →
  (sum_list_with (fn_set w c v) cpus + w c = sum_list_with w cpus + v)%nat.
Proof.
  induction 1 as [|c' cpus Hc' _ IH]; [by intros ?%not_elem_of_nil|].
  intros [<-|Hc]%elem_of_cons; cbn.
  - rewrite fn_set_eq. enough (sum_list_with (fn_set w c v) cpus = sum_list_with w cpus) by lia.
    clear IH. induction cpus as [|c2 cpus IH2]; [done|]. cbn.
    apply not_elem_of_cons in Hc' as [Hne Hc']. rewrite IH2, fn_set_ne by done. done.
  - specialize (IH Hc). rewrite fn_set_ne by congruence. lia.
Qed.

(** A step uses up some of the work. *)
Lemma progress_works cpus w cfg cfg' :
  work_left cpus w cfg → progress cfg cfg' →
  ∃ w', work_left cpus w' cfg' ∧ (sum_list_with w' cpus < sum_list_with w cpus)%nat.
Proof.
  intros [Hnd Hw] Hp. destruct Hp as [s ths cpu id R c k e Hth Hcpu Hid|s ths cpu id a Hth];
    cbn [c_threads] in *; destruct (Hw cpu _ Hth) as (Hin & n & Hn & Hb); cbn [th_id th_prog] in Hb.
  - destruct n as [|n]; [done|]. exists (fn_set w cpu (S n)). split.
    + split; [done|]. cbn [c_threads]. intros cpu' th. unfold fn_set at 1.
      case_decide as Hc; [|intros Hth'; rewrite fn_set_ne by done; by apply Hw].
      intros [= <-]. subst cpu'. split; [done|]. rewrite fn_set_eq. exists n. split; [done|].
      cbn [th_id th_prog]. apply Hb. subst id. apply handle_possible.
    + pose proof (sum_fn_set w cpu (S n) cpus Hnd Hin). lia.
  - exists (fn_set w cpu 0%nat). split.
    + split; [done|]. cbn [c_threads]. intros cpu' th. unfold fn_set at 1.
      case_decide as Hc; [done|]. intros Hth'. rewrite fn_set_ne by done. by apply Hw.
    + pose proof (sum_fn_set w cpu 0%nat cpus Hnd Hin). lia.
Qed.

Lemma progress_bound cpus n : ∀ w cfg cfg',
  work_left cpus w cfg → nsteps progress n cfg cfg' → (n <= sum_list_with w cpus)%nat.
Proof.
  induction n as [|n IH]; intros w cfg cfg' Hw Hn; [lia|].
  inversion Hn as [|? ? cfg1 ? Hp Hrest]; subst.
  destruct (progress_works cpus w cfg cfg1 Hw Hp) as (w' & Hw' & Hlt).
  specialize (IH w' cfg1 cfg' Hw' Hrest). lia.
Qed.

(** Finitely many CPUs have been used, and every handler is bounded. *)
Lemma reachable_cpus s cfg :
  reachable b arch anyone anywhere (idle s) cfg →
  ∃ cpus, NoDup cpus ∧ ∀ cpu th, c_threads cfg cpu = Some th → cpu ∈ cpus.
Proof.
  intros Hr. unfold reachable in Hr.
  cut (∃ cpus : list Z, ∀ cpu th, c_threads cfg cpu = Some th → cpu ∈ cpus).
  { intros (cpus & Hc). exists (remove_dups cpus). split; [apply NoDup_remove_dups|].
    intros cpu th Hth. apply elem_of_remove_dups. by eapply Hc. }
  assert (∃ cpus : list Z, ∀ cpu th, c_threads (idle s) cpu = Some th → cpu ∈ cpus) as Hi by (by exists []).
  revert Hi. generalize (idle s) Hr. clear Hr. induction 1 as [c|c1 c2 c3 Hs _ IH]; [done|].
  intros (cpus & Hc). apply IH. destruct Hs as [s1 ths cpu id i Hn Hst|s1 ths cpu id R c k e Hth ? ? ?
    |s1 ths cpu id a Hth|s1 ths arrays]; cbn [c_threads] in *; [exists (cpu :: cpus)|exists cpus..];
    intros cpu' th; unfold fn_set; try case_decide; subst; intros; try by eauto.
  - by left.
  - right. by eapply Hc.
Qed.
End Progress.

(** * Property *)

(** C30: the machine drains. From any reachable state there is a bound on the number of steps the
    running handlers can still take, under every scheduler and whatever the helpers answer; and
    when none of them can take a step, every CPU is idle and no ring reservation is held. No
    handler blocks, and none depends on another one's progress. *)
Theorem handlers_drain (b : bool) (arch : target_arch) (s : kstate) (cfg : config)
    (Hfresh : fresh_counters s)
    (Hreach : reachable b arch anyone anywhere (idle s) cfg) :
  (∃ bound, ∀ n cfg', nsteps progress n cfg cfg' → (n <= bound)%nat) ∧
  (∀ cfg', rtc progress cfg cfg' → (∀ cfg2, ¬ progress cfg' cfg2) →
     ∀ cpu, c_threads cfg' cpu = None ∧ k_reserved (c_state cfg') cpu = 0).
Proof.
  split.
  - destruct (reachable_cpus b arch s cfg Hreach) as (cpus & Hnd & Hc).
    destruct (balanced_reachable b arch s cfg Hfresh Hreach) as (gs & _ & Hf).
    set (w cpu := match gs cpu with Some g => S (a_budget g) | None => 0%nat end).
    exists (sum_list_with w cpus). intros n cfg' Hn. eapply progress_bound; [|exact Hn].
    split; [done|]. intros cpu th Hth. split; [by eapply Hc|].
    specialize (Hf cpu). rewrite Hth in Hf. unfold w. destruct (gs cpu) as [g|]; [|done].
    exists (a_budget g). split; [done|]. by eapply wp_bounded.
  - intros cfg' Hr Hstuck cpu.
    assert (reachable b arch anyone anywhere (idle s) cfg') as Hr'.
    { transitivity cfg; [exact Hreach|]. eapply rtc_subrel; [|exact Hr].
      intros c1 c2. apply progress_is_step. }
    assert (c_threads cfg' cpu = None) as Hnone.
    { destruct (c_threads cfg' cpu) as [th|] eqn:E; [|done].
      destruct (progress_possible cfg' cpu th E) as (cfg2 & H2). by destruct (Hstuck cfg2). }
    split; [done|]. destruct (balanced_reachable b arch s cfg' Hfresh Hr') as (gs & Hb & Hf).
    destruct (Hb cpu) as (_ & _ & -> & _). specialize (Hf cpu). rewrite Hnone in Hf.
    by destruct (gs cpu).
Qed.

(** A handler one helper call into its path, with the machine's steps written out. *)
Definition failing_write_started : config :=
  {| c_state := saved_state;
     c_threads := fn_set (fun _ => None) 0
       (Some {| th_id := e_pid_tgid demo_env; th_prog := handler false arch_x86 failing_write |}) |}.

Lemma handlers_drain_witness :
  fresh_counters saved_state ∧
  reachable false arch_x86 anyone anywhere (idle saved_state) failing_write_started ∧
  c_threads failing_write_started 0 ≠ None ∧
  (∃ cfg2, progress failing_write_started cfg2) ∧
  (∃ bound, ∀ n cfg', nsteps progress n failing_write_started cfg' → (n <= bound)%nat).
Proof.
  assert (fresh_counters saved_state) as Hfresh by done.
  assert (reachable false arch_x86 anyone anywhere (idle saved_state) failing_write_started) as Hr.
  { apply rtc_once. exact (step_start false arch_x86 anyone anywhere saved_state (fun _ => None) 0
      (e_pid_tgid demo_env) failing_write eq_refl Logic.I). }
  split; [exact Hfresh|]. split; [exact Hr|].
  pose proof (fn_set_eq (fun _ => None) 0 (Some {| th_id := e_pid_tgid demo_env;
    th_prog := handler false arch_x86 failing_write |})) as H0.
  change (c_threads failing_write_started 0 =
    Some {| th_id := e_pid_tgid demo_env; th_prog := handler false arch_x86 failing_write |}) in H0.
  split; [congruence|]. split.
  - exact (progress_possible _ _ _ H0).
  - exact (proj1 (handlers_drain false arch_x86 saved_state _ Hfresh Hr)).
Defined.
