(* ===== verification/Guard.v ===== *)
(** What a handler may write: map entries filed under its own thread, goroutine or process, values
    that fit their types, and records labelled with its own process and thread. [guard] checks it
    call by call; [guarded_handler] shows every path of every handler passes. *)

From S2P Require Import Prelude Abi Kernel Logic Sampling Fixture TlsState Emit EmitProps Conn.
From S2P Require Import Lifecycle Calls Probes Ktls GoTls CallSites Proc Wire System.

(** * The rules *)

Definition u64_ok (z : Z) : Prop := 0 <= z < 2 ^ 64.

(** Values that fit the struct they are stored in, as far as records depend on them; the owner of a
    TLS object is a thread of the object's process. *)
Definition val_wf (m : lru) : lru_key m → lru_val m → Prop :=
  match m return lru_key m → lru_val m → Prop with
  | ssl_state_map => fun _ => ss_wf
  | ssl_read_args | gnutls_read_args => fun _ a => u64_ok (ra_ssl_ptr a)
  | ssl_write_args | gnutls_write_args => fun _ a => u64_ok (wa_ssl_ptr a)
  | ssl_read_ex_args => fun _ a => u64_ok (rx_ssl_ptr a)
  | ssl_write_ex_args => fun _ a => u64_ok (wx_ssl_ptr a)
  | active_connections | ssl_ptr_to_conn => fun _ => conn_wf
  | sock_role => fun _ r => 0 <= r < 2 ^ 8
  | ssl_ptr_to_pid => fun k t => tgid_of t = sk_tgid k
  | sock_to_pid => fun _ _ => True
  | go_tls_write_args => fun _ a => u64_ok (gw_conn_ptr a) ∧ 0 <= gw_buf_len a < 2 ^ 32
  | go_tls_read_args => fun _ a => u64_ok (gr_conn_ptr a) ∧ 0 <= gr_buf_len a < 2 ^ 32
  | quic_recv_args | quic_send_args => fun _ a => u64_ok (qa_conn_ptr a)
  | ktls_sendmsg_args | ktls_recvmsg_args => fun _ a => u64_ok (ka_sock_ptr a)
  end.

(** Whose entry a key names: a thread's, a goroutine's or TLS object's process, or nobody's. *)
Definition owns (id : Z) (m : lru) : lru_key m → Prop :=
  match m return lru_key m → Prop with
  | ssl_state_map | ssl_ptr_to_pid | ssl_ptr_to_conn => fun k => sk_tgid k = tgid_of id
  | go_tls_write_args | go_tls_read_args => fun k => gk_tgid k = tgid_of id
  | sock_role | sock_to_pid => fun _ => True
  | ssl_read_args | ssl_write_args | ssl_read_ex_args | ssl_write_ex_args
  | gnutls_write_args | gnutls_read_args | active_connections
  | quic_recv_args | quic_send_args | ktls_sendmsg_args | ktls_recvmsg_args =>
      fun k => k = id
  end.

(** Closing and freeing may drop the current connection of another thread. *)
Definition may_delete (id : Z) (m : lru) (k : lru_key m) : Prop :=
  m = active_connections ∨ owns id m k.

(** A record userspace can decode. *)
Definition record_ok (x : tls_event) : Prop :=
  hdr_wf (ev_hdr x) ∧ h_copied_len (ev_hdr x) <= zlen (ev_data x) ∧
  h_data_len (ev_hdr x) = h_copied_len (ev_hdr x).

Definition ring_ok (r : ring) : ring_record r → Prop :=
  match r return ring_record r → Prop with
  | events => record_ok
  | close_events => fits
  | proc_events => fits
  end.

Definition labelled (id : Z) (h : tls_event_hdr) : Prop :=
  h_pid h = tgid_of id ∧ h_tid h = u32 id.

(** Whose record it is. *)
Definition names (id : Z) (r : ring) : ring_record r → Prop :=
  match r return ring_record r → Prop with
  | events => fun x => labelled id (ev_hdr x)
  | close_events => fun x => ce_pid x = tgid_of id
  | proc_events => fun x => pe_pid x = tgid_of id
  end.

Definition may_call (id : Z) {R} (c : helper R) : Prop :=
  match c with
  | bpf_map_update_elem m k v _ => owns id m k ∧ val_wf m k v
  | bpf_map_delete_elem m k => may_delete id m k
  | ref_store_generation st v => sk_tgid st = tgid_of id ∧ 0 <= v < 2 ^ 32
  | ref_store_seq st _ v => sk_tgid st = tgid_of id ∧ 0 <= v < 2 ^ 32
  | bpf_ringbuf_submit r x => ring_ok r x ∧ names id r x
  | bpf_probe_read_user_scratch size _ => 0 <= size <= MAX_DATA
  | bpf_dynptr_write _ off len => off = sizeof_tls_event_hdr ∧ 0 <= len <= MAX_DATA
  | bpf_ringbuf_submit_dynptr (Some d) => record_ok (dp_rec d) ∧ labelled id (ev_hdr (dp_rec d))
  | _ => True
  end.

(** What the answers may be relied on to be, in a state whose maps hold well-formed values. *)
Definition answer_ok {R} (c : helper R) : R → Prop :=
  match c in helper R return R → Prop with
  | bpf_ktime_get_ns => u64_ok
  | bpf_get_current_cgroup_id => u64_ok
  | bpf_map_lookup_elem m k => fun r => ∀ v, r = Some v → val_wf m k v
  | bpf_probe_read_kernel_str dst _ => fun r => length r = length dst
  | bpf_ringbuf_reserve r _ =>
      match r return option (ring_record r) → Prop with
      | proc_events => fun o => ∀ x, o = Some x → fits x
      | _ => fun _ => True
      end
  | ref_load_generation _ => fun r => 0 <= r < 2 ^ 32
  | ref_load_seq _ _ => fun r => 0 <= r < 2 ^ 32
  | bpf_dynptr_write dp _ len => fun r =>
      ∀ d d', dp = Some d → r.2 = Some d' →
        ev_hdr (dp_rec d') = ev_hdr (dp_rec d) ∧
        (r.1 = 0 → len <= zlen (ev_data (dp_rec d')))
  | _ => fun _ => True
  end.

(** The ghost state is the thread the handler runs for. *)
Definition guard : watcher Z := {|
  w_ok R c id := may_call id c;
  w_rely R c r := answer_ok c r;
  w_next R c r id := id
|}.

Section Safe.
Context (id : Z).

(** Every path of [p] obeys the rules and ends with a result that satisfies [Post]. *)
Definition safe {A} (p : prog A) (Post : A → Prop) : Prop :=
  wp guard id p (fun a g => g = id ∧ Post a) id.

Lemma safe_ret {A} (a : A) (Post : A → Prop) : Post a → safe (mret a) Post.
Proof. intros H. by apply wp_ret. Qed.

Lemma safe_mono {A} (p : prog A) (Post Post' : A → Prop) :
  safe p Post → (∀ a, Post a → Post' a) → safe p Post'.
Proof. intros Hp HP. eapply wp_mono; [|exact Hp]. naive_solver. Qed.

Lemma safe_bind {A B} (p : prog A) (f : A → prog B) (Mid : A → Prop) (Post : B → Prop) :
  safe p Mid → (∀ a, Mid a → safe (f a) Post) → safe (p ≫= f) Post.
Proof.
  intros Hp Hf. apply wp_bind. eapply wp_mono; [|exact Hp]. intros a g [-> Ha]. by apply Hf.
Qed.

Lemma safe_call_bind {R B} (c : helper R) (f : R → prog B) (Post : B → Prop) :
  may_call id c → (∀ r, possible id c r → answer_ok c r → safe (f r) Post) →
  safe (call c ≫= f) Post.
Proof. intros Hc Hf. by apply wp_call_bind. Qed.

Lemma safe_call {R} (c : helper R) (Post : R → Prop) :
  may_call id c → (∀ r, possible id c r → answer_ok c r → Post r) → safe (call c) Post.
Proof. intros Hc HP. apply wp_call; [done|]. intros r Hr Ha. split; [done|by apply HP]. Qed.

Definition any {A} (_ : A) : Prop := True.

Lemma safe_any {A} (p : prog A) (Post : A → Prop) : safe p Post → safe p any.
Proof. intros Hp. by eapply safe_mono. Qed.
End Safe.

#[export] Hint Extern 1 (may_call _ _) => exact Logic.I : guard.
#[export] Hint Extern 2 (any _) => exact Logic.I : guard.
#[export] Hint Resolve safe_any : guard.

(** Calls the rules do not restrict, and results nobody constrains. *)
Ltac safe_call_step := apply safe_call_bind; [solve [auto with guard]|intros ? ? ?].
Ltac safe_walk :=
  repeat first
    [ apply safe_ret; exact Logic.I
    | eapply safe_bind; [solve [eauto 3 with guard]|intros ? ?]
    | safe_call_step
    | apply safe_call; [solve [auto with guard]|intros; exact Logic.I]
    | solve [eauto 3 with guard]
    | case_match ].

Section Parts.
Context (id : Z).

Lemma safe_ssl_key_for ptr : safe id (ssl_key_for ptr) (fun k => sk_tgid k = tgid_of id).
Proof. unfold ssl_key_for. safe_call_step. cbn in H. subst. by apply safe_ret. Qed.

Lemma safe_core_read size f src :
  0 <= size → safe id (core_read size f src) (fun v => 0 <= v < 2 ^ (8 * size)).
Proof.
  intros Hs. unfold core_read. safe_call_step. apply safe_ret. cbn [possible] in H.
  pose proof (le_val_range r) as Hr. by rewrite H, Z2Nat.id in Hr.
Qed.

Lemma safe_start : safe id current_proc_start_ns u64_ok.
Proof.
  unfold current_proc_start_ns. safe_call_step.
  eapply safe_bind; [by apply safe_core_read|]. intros leader _.
  destruct (leader =? 0); [apply safe_ret; done|]. by apply (safe_core_read 8).
Qed.

Lemma safe_count_stat idx : safe id (count_stat idx) any.
Proof. unfold count_stat. safe_walk. Qed.

Lemma safe_owner ptr t :
  tgid_of t = tgid_of id → safe id (remember_ssl_owner ptr t) any.
Proof.
  intros Ht. unfold remember_ssl_owner. eapply safe_bind; [apply safe_ssl_key_for|]. intros k Hk.
  apply safe_call_bind; [split; [done|cbn; congruence]|]. intros. by apply safe_ret.
Qed.

Lemma safe_next_seq ptr d :
  safe id (next_seq ptr d) (fun gs => 0 <= gs.1 < 2 ^ 32 ∧ 0 <= gs.2 < 2 ^ 32).
Proof.
  unfold next_seq. eapply safe_bind; [apply safe_ssl_key_for|]. intros k Hk.
  safe_call_step. eapply (safe_bind id _ _ (fun o => o = None ∨ o = Some k)).
  { destruct r; [by apply safe_ret; destruct H; auto|].
    apply safe_call_bind; [by repeat split|]. intros. by apply safe_call. }
  intros o [-> | ->].
  - eapply safe_bind; [apply safe_count_stat|]. intros. apply safe_ret. cbn. lia.
  - do 2 safe_call_step. apply safe_call_bind; [split; [done|by apply wrap_range]|].
    intros. by apply safe_ret.
Qed.

Lemma safe_should_sample_out data len : safe id (should_sample_out data len) any.
Proof. unfold should_sample_out. cbv zeta. safe_walk. Qed.

Lemma safe_sampled_out buf n : safe id (sampled_out buf n) any.
Proof.
  unfold sampled_out. destruct (0 <? n); [|by apply safe_ret]. cbv zeta. safe_call_step.
  eapply safe_bind; [apply safe_should_sample_out|]. intros [] _; [|by apply safe_ret].
  eapply safe_bind; [apply safe_count_stat|]. intros. by apply safe_ret.
Qed.

(** A header of this thread that fits its struct and reports [n] bytes. *)
Definition hdr_ready (n : Z) (h : tls_event_hdr) : Prop :=
  hdr_wf h ∧ labelled id h ∧ h_copied_len h = n ∧ h_data_len h = n.

Lemma hdr_ready_attribute n a h :
  match a with AttrSsl i | AttrThread i => conn_wf i | AttrNone => True end →
  hdr_ready n h → hdr_ready n (hdr_attribute a h).
Proof.
  intros Ha (Hwf & [Hp Ht] & Hc & Hd). split; [by apply hdr_attribute_wf|].
  destruct (hdr_attribute_keeps a h) as (-> & _ & -> & _ & _ & _ & _ & _ & Hp' & Ht' & _).
  by split; [split; congruence|].
Qed.

Lemma safe_netns n h : hdr_ready n h → safe id (read_netns_ino h) (hdr_ready n).
Proof.
  intros Hh. unfold read_netns_ino. safe_call_step.
  eapply safe_bind; [by apply safe_core_read|]. intros nsproxy _.
  destruct (nsproxy =? 0); [by apply safe_ret|].
  eapply safe_bind; [by apply safe_core_read|]. intros ns _.
  destruct (ns =? 0); [by apply safe_ret|].
  eapply safe_bind; [by apply safe_core_read|]. intros ino Hino. apply safe_ret.
  destruct Hh as (Hwf & Hl & Hc & Hd). split; [by apply hdr_netns_wf|done].
Qed.

Lemma safe_fill_event_hdr h ptr al cl d prov g q :
  call_wf al d ptr prov → 0 <= cl < 2 ^ 32 → 0 <= g < 2 ^ 32 → 0 <= q < 2 ^ 32 →
  safe id (fill_event_hdr h id ptr al cl d prov g q) (hdr_ready cl).
Proof.
  intros (Hal & Hd & Hptr & Hprov) Hcl Hg Hq. unfold fill_event_hdr.
  do 3 safe_call_step. cbn [answer_ok] in *.
  eapply safe_bind; [apply safe_start|]. intros start Hstart. cbv zeta.
  eapply safe_bind; [apply safe_netns|].
  { split; [by apply hdr_init_wf|]. by split. }
  intros h1 Hh1. eapply safe_bind; [apply safe_ssl_key_for|]. intros k _.
  apply safe_call_bind; [done|]. intros [i|] _ Hi; [|apply safe_call_bind; [done|];
    intros [i|] _ Hi'; [|by apply safe_ret]]; apply safe_ret.
  - apply (hdr_ready_attribute cl (AttrSsl i)); [by apply Hi|done].
  - apply (hdr_ready_attribute cl (AttrThread i)); [by apply Hi'|done].
Qed.

Lemma safe_dynptr_fail stat dp : safe id (dynptr_fail stat dp) any.
Proof.
  unfold dynptr_fail. eapply safe_bind; [apply safe_count_stat|]. intros _ _.
  apply safe_call_bind; [by destruct dp|]. intros. by apply safe_ret.
Qed.

Lemma safe_dynptr_submit n d :
  hdr_ready n (ev_hdr (dp_rec d)) → n <= zlen (ev_data (dp_rec d)) →
  safe id (dynptr_submit (Some d)) any.
Proof.
  intros (Hwf & Hl & Hc & Hd) Hn. unfold dynptr_submit.
  eapply safe_bind; [apply safe_count_stat|]. intros _ _.
  apply safe_call_bind; [|intros; by apply safe_ret]. split; [|done].
  split; [done|]. rewrite Hc, Hd. done.
Qed.

Lemma safe_dynptr_copy buf n d :
  0 <= n < MAX_DATA → hdr_ready n (ev_hdr (dp_rec d)) →
  safe id (dynptr_copy buf n (Some d)) any.
Proof.
  intros Hn Hd. unfold dynptr_copy. destruct (0 <? n) eqn:En; zbool.
  - safe_call_step. destruct r; [|apply safe_dynptr_fail]. cbv zeta. rewrite mask_len by done.
    apply safe_call_bind; [cbn; lia|]. intros rc _ _.
    destruct (negb (rc =? 0)); [apply safe_dynptr_fail|].
    apply safe_call_bind; [split; [done|lia]|]. intros w Hw Ha. cbn [possible answer_ok] in *.
    destruct (proj2 Hw ltac:(done)) as [d' Hd']. destruct (Ha _ _ eq_refl Hd') as [Hh Hlen].
    destruct (w.1 =? 0) eqn:E; cbn [negb]; [zbool|apply safe_dynptr_fail].
    rewrite Hd'. apply (safe_dynptr_submit n); [by rewrite Hh|by apply Hlen].
  - apply (safe_dynptr_submit n); [done|]. unfold zlen. lia.
Qed.

Lemma safe_emit_event b buf len d ptr prov :
  call_wf len d ptr prov → safe id (emit_event b buf len d ptr prov) any.
Proof.
  intros Hcall. pose proof Hcall as (Hlen & _).
  pose proof (clamp_len_range len (proj1 Hlen)) as Hcl.
  assert (0 <= clamp_len len < 2 ^ 32) as Hcl' by (unfold MAX_DATA in *; lia).
  unfold emit_event, emit_event_dynptr. destruct b.
  - apply safe_call_bind; [done|]. intros t Ht _. cbn in Ht. subst t. cbv zeta.
    eapply safe_bind; [apply safe_count_stat|]. intros _ _.
    eapply safe_bind; [apply safe_next_seq|]. intros [g q] [Hg Hq]. cbn [fst snd] in *.
    eapply safe_bind; [apply safe_sampled_out|]. intros [] _; [by apply safe_ret|].
    apply safe_call_bind; [done|]. intros [rc dp] _ _. cbn [fst snd].
    destruct (0 <=? rc); [|apply safe_dynptr_fail]. destruct dp as [dm|];
      [|apply safe_dynptr_fail].
    apply safe_call_bind; [done|]. intros [[]|] _ _; [|apply safe_dynptr_fail].
    eapply safe_bind; [by apply safe_fill_event_hdr|]. intros h Hh.
    by apply safe_dynptr_copy.
  - apply safe_call_bind; [done|]. intros t Ht _. cbn in Ht. subst t. cbv zeta.
    eapply safe_bind; [apply safe_count_stat|]. intros _ _.
    eapply safe_bind; [apply safe_next_seq|]. intros [g q] [Hg Hq]. cbn [fst snd] in *.
    eapply safe_bind; [apply safe_sampled_out|]. intros [] _; [by apply safe_ret|].
    apply safe_call_bind; [done|]. intros [x|] _ _.
    + eapply safe_bind; [by apply safe_fill_event_hdr|]. intros h (Hwf & Hl & Hc & Hdl).
      eapply (safe_bind id _ _ (fun o => ∀ bs, o = Some bs → clamp_len len <= zlen bs)).
      { destruct (0 <? clamp_len len) eqn:E; zbool.
        - apply safe_call; [done|]. intros r Hr _ bs Hbs. apply Hr in Hbs.
          rewrite mask_len in Hbs by done. unfold zlen. lia.
        - apply safe_ret. intros bs [= <-]. unfold zlen. cbn. lia. }
      intros [bs|] Hbs.
      * eapply safe_bind; [apply safe_count_stat|]. intros _ _.
        apply safe_call_bind; [|intros; by apply safe_ret]. split; [|done].
        split; [done|]. cbn. rewrite Hc, Hdl. split; [|done]. specialize (Hbs bs eq_refl).
        unfold overlay, zlen in *. rewrite length_app. lia.
      * eapply safe_bind; [apply safe_count_stat|]. intros _ _.
        apply safe_call_bind; [done|]. intros. by apply safe_ret.
    + eapply safe_bind; [apply safe_count_stat|]. intros. by apply safe_ret.
Qed.
End Parts.

(** * Every handler *)

(** Registers hold 64-bit values. *)
Definition ctx_wf (ctx : pt_regs) : Prop :=
  u64_ok (PT_REGS_PARM1 ctx) ∧ u64_ok (r_ax ctx) ∧ u64_ok (r_regs ctx 0).

Definition inv_wf (_ : Z) (i : invocation) : Prop :=
  match i with
  | SiteEntry _ ctx => ctx_wf ctx
  | SslFree ctx => u64_ok (PT_REGS_PARM1 ctx)
  | _ => True
  end.

Section Handlers.
Context (id : Z).

Lemma bpf_ntohs_range x : 0 <= x < 2 ^ 16 → 0 <= bpf_ntohs x < 2 ^ 16.
Proof.
  intros Hx. unfold bpf_ntohs. change 255 with (Z.ones 8).
  rewrite Z.land_ones, Z.shiftl_mul_pow2, Z.shiftr_div_pow2 by lia.
  change (2 ^ 8) with 256. change (2 ^ 16) with 65536 in Hx.
  pose proof (Z.mod_pos_bound x 256 ltac:(lia)).
  pose proof (Z.div_pos x 256 ltac:(lia) ltac:(lia)).
  pose proof (Z.div_lt_upper_bound x 256 256 ltac:(lia) ltac:(lia)).
  apply lor_range; change (2 ^ 16) with 65536; lia.
Qed.

Lemma conn_wf_intro i :
  0 <= ci_src_port i < 2 ^ 16 → 0 <= ci_dst_port i < 2 ^ 16 → 0 <= ci_role i < 2 ^ 8 →
  0 <= ci_src_ip4 i < 2 ^ 32 → 0 <= ci_dst_ip4 i < 2 ^ 32 →
  length (ci_src_ip6 i) = 16%nat → length (ci_dst_ip6 i) = 16%nat →
  0 <= ci_sock_ino i < 2 ^ 64 → conn_wf i.
Proof. unfold conn_wf. tauto. Qed.

Lemma safe_fill_conn_info c sk : conn_wf c → safe id (fill_conn_info c sk) conn_wf.
Proof.
  intros (H1 & H2 & H3 & H4 & H5 & H6 & H7 & H8). unfold fill_conn_info.
  eapply safe_bind; [by apply safe_core_read|]. intros f Hf. cbv zeta.
  eapply (safe_bind id _ _ conn_wf).
  { destruct (f =? AF_INET6).
    - apply safe_call_bind; [done|]. intros src Hsrc _.
      apply safe_call_bind; [done|]. intros dst Hdst _. cbn [possible] in *.
      apply safe_ret. by apply conn_wf_intro.
    - eapply safe_bind; [by apply safe_core_read|]. intros src Hsrc.
      eapply safe_bind; [by apply safe_core_read|]. intros dst Hdst. apply safe_ret.
      by apply conn_wf_intro. }
  intros c1 (G1 & G2 & G3 & G4 & G5 & G6 & G7 & G8).
  eapply safe_bind; [by apply safe_core_read|]. intros sport Hsp.
  eapply safe_bind; [by apply safe_core_read|]. intros dport Hdp.
  set (c2 := c1 <| ci_src_port := sport |> <| ci_dst_port := bpf_ntohs dport |>).
  assert (conn_wf c2) as Hc2.
  { pose proof (bpf_ntohs_range dport Hdp) as Hn.
    by apply conn_wf_intro. }
  clearbody c2. destruct Hc2 as (K1 & K2 & K3 & K4 & K5 & K6 & K7 & K8). unfold read_sock_ino.
  assert (safe id (mret c2) conn_wf) as Hret by (apply safe_ret; by apply conn_wf_intro).
  do 3 (eapply safe_bind; [by apply safe_core_read|intros ? _; destruct (_ =? 0); [exact Hret|]]).
  eapply safe_bind; [by apply safe_core_read|]. intros ino Hino. apply safe_ret. by apply conn_wf_intro.
Qed.

Lemma conn_info_zero_wf : conn_wf conn_info_zero.
Proof. by apply conn_wf_intro. Qed.

Lemma safe_record_connection sk role :
  0 <= role < 2 ^ 8 → safe id (record_connection sk role) any.
Proof.
  intros Hr. unfold record_connection. destruct (sk =? 0); [by apply safe_ret|].
  eapply safe_bind; [apply safe_fill_conn_info, conn_info_zero_wf|]. intros c Hc. cbv zeta.
  apply safe_call_bind; [done|]. intros t Ht _. cbn in Ht. subst t.
  apply safe_call_bind.
  { split; [done|]. destruct Hc as (? & ? & ? & ? & ? & ? & ? & ?). by apply conn_wf_intro. }
  intros _ _ _. apply safe_call_bind; [done|]. intros _ _ _.
  apply safe_call_bind; [done|]. intros. by apply safe_ret.
Qed.

Lemma safe_tcp_close ctx : safe id (tcp_close_entry ctx) any.
Proof.
  unfold tcp_close_entry. cbv zeta. apply safe_call_bind; [done|]. intros o _ _.
  eapply (safe_bind id _ _ any); [destruct o; [by apply safe_ret|by apply safe_call]|].
  intros t _. apply safe_call_bind; [by left|]. intros _ _ _.
  apply safe_call_bind; [by right|]. intros _ _ _.
  apply safe_call_bind; [by right|]. intros. by apply safe_ret.
Qed.

Lemma safe_sock_of_fd fd : safe id (sock_of_fd fd) any.
Proof.
  assert (∀ f src, safe id (core_read 8 f src) any) as Hread
    by (intros; eapply safe_any; by apply safe_core_read).
  unfold sock_of_fd. apply safe_call_bind; [done|]. intros task _ _.
  do 3 (eapply safe_bind; [apply Hread|intros ? _; destruct (_ =? 0); [by apply safe_ret|]]).
  apply safe_call_bind; [done|]. intros slot _ _. cbv zeta.
  destruct (_ =? 0); [by apply safe_ret|].
  eapply safe_bind; [apply Hread|intros ? _; destruct (_ =? 0); [by apply safe_ret|]].
  apply Hread.
Qed.

Lemma safe_ssl_set_fd ctx : safe id (ssl_set_fd_entry ctx) any.
Proof.
  unfold ssl_set_fd_entry. cbv zeta. destruct (_ <? 0); [by apply safe_ret|].
  eapply safe_bind; [apply safe_sock_of_fd|]. intros sk _.
  destruct (sk =? 0); [by apply safe_ret|].
  eapply safe_bind; [apply safe_fill_conn_info, conn_info_zero_wf|]. intros c Hc.
  apply safe_call_bind; [done|]. intros role _ Hrole.
  eapply safe_bind; [apply safe_ssl_key_for|]. intros k Hk.
  apply safe_call_bind; [|intros; by apply safe_ret]. split; [done|]. cbn [answer_ok] in Hrole.
  destruct role as [r|]; [|done]. specialize (Hrole r eq_refl).
  destruct Hc as (? & ? & ? & ? & ? & ? & ? & ?). apply conn_wf_intro; try done; apply Hrole.
Qed.

Lemma safe_end_generation k :
  sk_tgid k = tgid_of id → safe id (end_generation k) (fun g => 0 <= g < 2 ^ 32).
Proof.
  intros Hk. unfold end_generation. apply safe_call_bind; [done|].
  intros [st|] Hst _; [|by apply safe_ret]. cbn in Hst. destruct Hst as [|[= ->]]; [done|].
  apply safe_call_bind; [done|]. intros g _ Hg.
  apply safe_call_bind; [split; [done|by apply wrap_range]|]. intros _ _ _.
  apply safe_call_bind; [by repeat split|]. intros _ _ _.
  apply safe_call_bind; [by repeat split|]. intros _ _ _. by apply safe_ret.
Qed.

Lemma safe_send_close ptr owner g :
  u64_ok ptr → tgid_of owner = tgid_of id → 0 <= g < 2 ^ 32 →
  safe id (send_close ptr owner g) any.
Proof.
  intros Hptr Howner Hg. unfold send_close. apply safe_call_bind; [done|].
  intros [x|] _ _; [|by apply safe_ret]. apply safe_call_bind; [done|]. intros ts _ Hts.
  eapply safe_bind; [apply safe_start|]. intros start Hstart. apply safe_call; [|done].
  split; [|exact Howner].
  repeat apply Forall2_cons_2; try apply Forall2_nil_2; cbn [val_ok ce_ts_ns ce_pid ce_tid
    ce_ssl_ptr ce_proc_start_ns ce_generation ce__pad]; try done; by apply wrap_range.
Qed.

Lemma safe_ssl_free ctx : u64_ok (PT_REGS_PARM1 ctx) → safe id (ssl_free_entry ctx) any.
Proof.
  intros Hptr. unfold ssl_free_entry. cbv zeta.
  eapply safe_bind; [apply safe_ssl_key_for|]. intros k Hk.
  apply safe_call_bind; [done|]. intros o _ Ho.
  eapply (safe_bind id _ _ (fun t => tgid_of t = tgid_of id)).
  { destruct o as [t|]; [apply safe_ret; rewrite <- Hk; by apply Ho|].
    apply safe_call; [done|]. by intros r ->. }
  intros t Ht. eapply safe_bind; [by apply safe_end_generation|]. intros g Hg.
  eapply safe_bind; [by apply safe_send_close|].
  intros _ _. apply safe_call_bind; [by right|]. intros _ _ _.
  apply safe_call_bind; [by right|]. intros _ _ _.
  apply safe_call_bind; [by left|]. intros. by apply safe_ret.
Qed.

Lemma safe_exec args : safe id (handle_new_process args) any.
Proof.
  unfold handle_new_process. cbv zeta. apply safe_call_bind; [done|].
  intros [x|] _ Hx; [|by apply safe_ret]. specialize (Hx x eq_refl).
  apply safe_call_bind; [done|]. intros t Ht _. cbn in Ht. subst t.
  apply safe_call_bind; [done|]. intros cg _ Hcg.
  apply safe_call_bind; [done|]. intros comm _ _.
  eapply safe_bind; [by apply safe_core_read|]. intros name _.
  apply safe_call_bind; [done|]. intros filename _ Hf.
  apply safe_call_bind; [|intros ? _ _; by apply safe_ret]. split; [|done].
  cbn [answer_ok] in *. unfold fits in *. cbn [rc_fields rc_vals new_proc_event_repr] in *.
  unfold proc_fields, proc_vals in *. decompose_Forall_hyps.
  repeat first [apply Forall2_nil_2 | apply Forall2_cons_2]; try done.
  - by apply (wrap_range 32).
  - cbn [val_ok]. change (length (ztake 16 (overlay comm zeros16)) = 16%nat).
    unfold ztake, overlay. rewrite length_take, length_app, length_drop. cbn. lia.
  - by rewrite <- H3.
Qed.

Lemma safe_lsm sock address addrlen : safe id (lsm_socket_connect sock address addrlen) any.
Proof.
  assert (∀ fuel i ip, safe id (scan_rules fuel i ip) any) as Hscan.
  { induction fuel as [|fuel IH]; intros i ip; cbn [scan_rules]; [by apply safe_ret|].
    destruct (_ <? _); [|by apply safe_ret]. apply safe_call_bind; [done|]. intros r _ _.
    destruct (rule_blocks ip r); [by apply safe_ret|apply IH]. }
  unfold lsm_socket_connect. destruct (_ || _); [by apply safe_ret|].
  eapply safe_bind; [by apply safe_core_read|]. intros f _.
  destruct (negb _); [by apply safe_ret|].
  eapply safe_bind; [by apply safe_core_read|]. intros ip _.
  destruct (ip =? 0); [by apply safe_ret|]. apply Hscan.
Qed.
End Handlers.

Section Calls.
Context (id : Z).

(** Saving arguments under one's own thread. *)
Lemma safe_save {A} (m : lru) (v : lru_val m) (k : lru_key m) (p : prog A) :
  owns id m k → val_wf m k v → safe id p any →
  safe id (_ ← call (bpf_map_update_elem m k v BPF_ANY); p) any.
Proof. intros Hk Hv Hp. apply safe_call_bind; [done|]. by intros. Qed.

Lemma safe_ktls_save_args sk msg a :
  u64_ok sk → safe id (ktls_save_args sk msg a) (fun a' => u64_ok (ka_sock_ptr a')).
Proof.
  intros Hsk. unfold ktls_save_args. cbv zeta.
  eapply safe_bind; [by apply safe_core_read|]. intros iov _.
  eapply (safe_bind id _ _ (fun a' => u64_ok (ka_sock_ptr a'))).
  { destruct (negb _); [|by apply safe_ret].
    do 2 (eapply safe_bind; [by apply safe_core_read|intros ? _]). by apply safe_ret. }
  intros a' Ha'. eapply (safe_bind id _ _ any); [|by intros; apply safe_ret].
  unfold when. destruct (negb _); [|by apply safe_ret].
  eapply safe_bind; [apply safe_fill_conn_info, conn_info_zero_wf|]. intros c Hc.
  apply safe_call_bind; [done|]. intros t Ht _. cbn in Ht. subst t.
  apply (safe_save active_connections); [done|done|].
  apply (safe_save sock_to_pid); [done|done|]. by apply safe_ret.
Qed.

Lemma safe_go_call_key_for arch ctx :
  safe id (go_call_key_for arch ctx) (fun o => ∀ k, o = Some k → gk_tgid k = tgid_of id).
Proof.
  unfold go_call_key_for. cbv zeta. destruct (_ =? 0); [by apply safe_ret|].
  apply safe_call_bind; [done|]. intros t Ht _. cbn in Ht. subst t.
  apply safe_ret. by intros k [= <-].
Qed.

Lemma safe_site_entry arch c ctx : ctx_wf ctx → safe id (site_entry arch c ctx) any.
Proof.
  intros (H1 & Hax & Hr0).
  assert (∀ (m : lru) (k : lru_key m) (v : lru_val m), owns id m k → val_wf m k v →
    safe id (_ ← call (bpf_map_update_elem m k v BPF_ANY); mret 0) any) as Hplain
    by (intros; apply safe_save; [done|done|by apply safe_ret]).
  assert (∀ (m : lru) (k : lru_key m) (v : lru_val m) ptr, owns id m k → val_wf m k v →
    safe id (_ ← call (bpf_map_update_elem m k v BPF_ANY);
             _ ← remember_ssl_owner ptr id; mret 0) any) as Howner.
  { intros. apply safe_save; [done|done|]. eapply safe_bind; [by apply safe_owner|].
    intros. by apply safe_ret. }
  assert (u64_ok (gw_conn_ptr (go_write_args_of arch ctx)) ∧
          u64_ok (gr_conn_ptr (go_read_args_of arch ctx))) as [Hgw Hgr] by by destruct arch.
  assert (0 <= gw_buf_len (go_write_args_of arch ctx) < 2 ^ 32 ∧
          0 <= gr_buf_len (go_read_args_of arch ctx) < 2 ^ 32) as [Hlw Hlr].
  { split; destruct arch; cbn [gw_buf_len gr_buf_len go_write_args_of go_read_args_of];
      by first [apply go_buf_len_range | lia]. }
  destruct c; cbn [site_entry];
    try (apply safe_call_bind; [done|]; intros t Ht _; cbn in Ht; subst t; cbv zeta;
         first [by apply Howner | by apply Hplain]);
    try (unfold ktls_send_entry, ktls_recv_entry; cbv zeta;
         eapply safe_bind; [by apply safe_ktls_save_args|]; intros a Ha;
         apply safe_call_bind; [done|]; intros t Ht _; cbn in Ht; subst t; by apply Hplain).
  all: unfold go_tls_write_entry, go_tls_read_entry;
    eapply safe_bind; [apply safe_go_call_key_for|]; intros [k|] Hk; [|by apply safe_ret];
    apply Hplain; [by apply Hk|done].
Qed.

(** The report of an exit probe, then the delete. *)
Lemma safe_report (m : lru) (k : lru_key m) (p : prog Z) :
  owns id m k → safe id p any →
  safe id (_ ← p; _ ← call (bpf_map_delete_elem m k); mret 0) any.
Proof.
  intros Hk Hp. eapply safe_bind; [exact Hp|]. intros _ _.
  apply safe_call_bind; [by right|]. intros. by apply safe_ret.
Qed.

Lemma call_wf_intro len d ptr prov :
  0 <= len < 2 ^ 32 → 0 <= d < 2 ^ 8 → u64_ok ptr → 0 <= prov < 2 ^ 8 → call_wf len d ptr prov.
Proof. unfold call_wf, u64_ok; tauto. Qed.

Lemma quic_len_range ret : 0 <= quic_len ret < 2 ^ 32.
Proof. unfold quic_len. case_match; [lia|]. by apply wrap_range. Qed.

Lemma safe_count_report b (cond : bool) buf len d ptr prov :
  0 <= len < 2 ^ 32 → 0 <= d < 2 ^ 8 → u64_ok ptr → 0 <= prov < 2 ^ 8 →
  safe id (if cond then emit_event b buf len d ptr prov else mret 0) any.
Proof.
  intros. destruct cond; [|by apply safe_ret]. by apply safe_emit_event, call_wf_intro.
Qed.

Lemma safe_site_exit b arch c ctx : safe id (site_exit b arch c ctx) any.
Proof.
  destruct c; cbn [site_exit];
    try (apply safe_call_bind; [done|]; intros t Ht _; cbn in Ht; subst t; cbv zeta;
         apply safe_call_bind; [done|]; intros [a|] _ Ha; [|by apply safe_ret];
         specialize (Ha a eq_refl); cbn [val_wf site_map] in Ha; apply safe_report; [done|]).
  1,2,5,6,7,8,11,12: apply safe_count_report; try done; by apply wrap_range.
  3,4: apply safe_count_report; try done; apply quic_len_range.
  1,2: destruct (_ && _); [|by apply safe_ret];
    apply safe_call_bind; [done|]; intros [bs|] _ _; [|by apply safe_ret]; cbv zeta;
    apply safe_count_report; try done; by apply wrap_range.
  all: unfold go_tls_write_exit, go_tls_read_exit;
    eapply safe_bind; [apply safe_go_call_key_for|]; intros [k|] Hk; [|by apply safe_ret];
    apply safe_call_bind; [done|]; intros [a|] _ Ha; [|by apply safe_ret]; cbv zeta;
    destruct (Ha a eq_refl) as [Hp Hl]; apply safe_report; [by apply Hk|];
    apply safe_count_report; try done.
  - pose proof (go_ret_len_range (go_ret arch ctx) (gw_buf_len a) (proj1 Hl)). lia.
  - pose proof (go_ret_len_range (go_ret arch ctx) (gr_buf_len a) (proj1 Hl)). lia.
Qed.

Lemma guarded_handler b arch i : inv_wf id i → safe id (handler b arch i) any.
Proof.
  destruct i; cbn [handler inv_wf]; intros Hi.
  - by apply safe_site_entry.
  - apply safe_site_exit.
  - by apply safe_record_connection.
  - by apply safe_record_connection.
  - apply safe_tcp_close.
  - apply safe_ssl_set_fd.
  - by apply safe_ssl_free.
  - apply safe_exec.
  - apply safe_lsm.
Qed.
End Calls.

(** * Well-formed states *)

Definition vals_wf (s : kstate) : Prop :=
  ∀ m k v, lookup_map s m k = Some v → val_wf m k v.

(** Every stored value fits its struct, every published record can be decoded, every scratch
    buffer has its full size. *)
Definition sound (s : kstate) : Prop :=
  vals_wf s ∧ (∀ r, Forall (ring_ok r) (k_rings s r)) ∧ ∀ cpu, MAX_DATA <= zlen (k_scratch s cpu).

Lemma vals_wf_set_map s m t :
  vals_wf s → (∀ k v, t !! k = Some v → val_wf m k v) → vals_wf (set_map m t s).
Proof.
  intros Hs Ht m' k v. destruct (decide (m = m')) as [<-|Hne].
  - unfold lookup_map. rewrite k_maps_set_map. apply Ht.
  - rewrite lookup_map_set_map_ne by done. apply Hs.
Qed.

Lemma vals_wf_update e m k v f s :
  vals_wf s → val_wf m k v → vals_wf (update_elem e m k v f s).2.
Proof.
  intros Hs Hv m' k' v' Hl. destruct (decide (m = m')) as [<-|Hne].
  - apply update_elem_lookup in Hl as [[-> ->]|Hl]; [done|by eapply Hs].
  - unfold lookup_map in Hl. rewrite update_elem_other in Hl by done. by apply (Hs m' k' v').
Qed.

Lemma vals_wf_store k f s :
  vals_wf s → (∀ st, ss_wf st → ss_wf (f st)) → vals_wf (store_state k f s).
Proof.
  intros Hs Hf. apply vals_wf_set_map; [done|]. intros k' v' Hl.
  rewrite lookup_alter in Hl. case_decide as Hk; [subst k'|by apply (Hs ssl_state_map k' v')].
  apply fmap_Some in Hl as (st & Hst & ->). apply Hf. by apply (Hs ssl_state_map k st).
Qed.

Lemma update_elem_rest e m k v f s :
  k_rings (update_elem e m k v f s).2 = k_rings s ∧
  k_scratch (update_elem e m k v f s).2 = k_scratch s.
Proof. unfold update_elem. by destruct f, (k_maps s m !! k); cbn; try case_match. Qed.

Lemma sound_scratch s cpu bs :
  sound s → sound (set_scratch cpu (overlay bs (k_scratch s cpu)) s).
Proof.
  intros (Hv & He & Hs). split; [exact Hv|]. split; [exact He|]. intros cpu'.
  unfold set_scratch, fn_set. cbn. case_decide as Hc; [subst cpu'|by apply Hs].
  specialize (Hs cpu). unfold overlay, zlen in *. rewrite length_app, length_drop. lia.
Qed.

Lemma sound_push r (x : ring_record r) s :
  sound s → ring_ok r x → sound (push_ring r x s).
Proof.
  intros (Hv & He & Hs) Hx. split; [exact Hv|]. split; [|exact Hs]. intros r'.
  destruct (decide (r = r')) as [<-|Hne]; [|by rewrite k_rings_push_ring_ne].
  rewrite k_rings_push_ring. apply Forall_app. split; [done|]. by apply Forall_singleton.
Qed.

Lemma read_str_length mem addr n bs : read_str mem addr n = Some bs → (length bs <= n)%nat.
Proof.
  revert addr bs. induction n as [|[|n] IH]; intros addr bs; [by intros [= <-]..|].
  cbn [read_str]. destruct (mem addr) as [b|]; [|done]. case_bool_decide.
  - intros [= <-]. cbn. lia.
  - intros (bs' & Hbs & ->)%fmap_Some. specialize (IH _ _ Hbs). cbn in *. lia.
Qed.

Lemma length_kernel_str mem addr (dst : list byte) :
  length (match read_str mem addr (length dst) with
          | Some bs => overlay bs dst
          | None => zeros (zlen dst)
          end) = length dst.
Proof.
  destruct (read_str _ _ _) eqn:E.
  - apply read_str_length in E. unfold overlay. rewrite length_app, length_drop. lia.
  - unfold zeros, zlen. rewrite length_replicate. lia.
Qed.

(** The kernel's answers are the ones relied on. *)
Lemma handle_answer_ok e id {R} (c : helper R) s :
  env_wf e → sound s → may_call id c → answer_ok c (handle e c s).1.
Proof.
  intros (Hts & Hcg & Hfr & Hst) (Hv & _ & Hscr) Hc. destruct c; cbn [answer_ok handle fst]; try done.
  - by apply length_kernel_str.
  - intros v Hl. by eapply Hv.
  - unfold load_state. destruct (lookup_map _ _ _) eqn:E; [|done]. apply Hv in E. apply E.
  - unfold load_state. destruct (lookup_map _ _ _) eqn:E; [|done]. apply Hv in E.
    by apply ss_seq_range.
  - destruct r; try done. intros x. by destruct (e_reserve e proc_events size); [intros [= <-]|].
  - cbn [may_call] in Hc. destruct Hc as [-> Hlen]. intros d d' -> .
    destruct (e_dynptr_write_err e =? 0) eqn:Ew; cbn [fst snd]; intros [= <-]; zbool;
      [|split; [done|lia]].
    split; [done|]. intros _. cbn. specialize (Hscr (e_cpu e)).
    unfold overlay, zlen, ztake in *. rewrite !length_app, !length_take. lia.
Qed.

(** The rules keep the state well formed. *)
Lemma handle_sound e id {R} (c : helper R) s :
  sound s → may_call id c → sound (handle e c s).2.
Proof.
  intros Hs Hc. pose proof Hs as (Hv & He & Hscr).
  destruct c; cbn [handle snd may_call] in *; try exact Hs.
  - destruct (uread e addr size); cbn [snd]; by apply sound_scratch.
  - destruct (update_elem_rest e m k v f s) as [Hr Hsc]. destruct Hc as [_ Hc].
    split; [by apply vals_wf_update|]. by rewrite Hr, Hsc.
  - split; [|by split]. apply vals_wf_set_map; [done|].
    intros k' v' [_ Hl]%lookup_delete_Some. by apply (Hv m k' v').
  - split; [|by split]. apply vals_wf_store; [done|]. intros x Hx. destruct Hc.
    unfold ss_wf in *. cbn. tauto.
  - split; [|by split]. apply vals_wf_store; [done|]. intros x Hx. destruct Hc.
    unfold set_ss_seq, ss_wf in *. destruct (d =? 0); cbn; tauto.
  - by destruct (e_reserve e r size).
  - apply sound_push; [done|]. apply Hc.
  - by destruct (e_reserve e events size).
  - destruct dp; [|done]. by destruct (e_dynptr_write_err e =? 0).
  - destruct dp as [d|]; [|done]. cbn [snd]. apply (sound_push events); [done|]. apply Hc.
  - by destruct dp.
Qed.

(** * Properties *)

Lemma sound_reachable b arch s cfg :
  sound s → reachable b arch inv_wf env_wf (idle s) cfg → sound (c_state cfg).
Proof.
  intros Hs Hr.
  destruct (inv_sound b arch inv_wf env_wf guard (fun id => id) (fun _ _ => True)
    (fun s _ => sound s)) with (s := s) (cfg := cfg) as (gs & H & _); try done.
  - intros id i Hi. eapply wp_mono; [|exact (guarded_handler id b arch i Hi)]. done.
  - intros s1 gs e g R c H1 _ He Hc. exact (conj (handle_answer_ok e g c s1 He H1 Hc) (handle_sound e g c s1 H1 Hc)).
Qed.

Lemma sound_records b arch s cfg r x :
  sound s → reachable b arch inv_wf env_wf (idle s) cfg → x ∈ k_rings (c_state cfg) r → ring_ok r x.
Proof.
  intros Hs Hr Hx. destruct (sound_reachable b arch s cfg Hs Hr) as (_ & He & _).
  specialize (He r). rewrite Forall_forall in He. by apply He, list_elem_of_In.
Qed.

(** C3: whatever interleaves, every published record can be decoded. From any well-formed state,
    with 64-bit registers and clocks, in every reachable state: every record in [events] fits its
    struct, and the reader gets its header back, with exactly the first [copied_len] bytes that
    follow it, over any padding; every record in [close_events] has the 40 bytes and every record
    in [proc_events] the 160 bytes reserved for it, and each is read back member for member. *)
Theorem every_record_decodes (b : bool) (arch : target_arch) (s : kstate) (cfg : config)
    (pad : nat → byte)
    (Hsound : sound s) (Hreach : reachable b arch inv_wf env_wf (idle s) cfg) :
  (∀ x : tls_event, x ∈ k_rings (c_state cfg) events →
     from_bytes (event_bytes pad x) =
       Some (ev_hdr x, ztake (h_copied_len (ev_hdr x)) (ev_data x)) ∧
     h_copied_len (ev_hdr x) <= zlen (ev_data x)) ∧
  (∀ c : close_event, c ∈ k_rings (c_state cfg) close_events →
     zlen (bytes_of pad c) = 40 ∧ read_unaligned (bytes_of pad c) = Some c) ∧
  (∀ p : new_proc_event, p ∈ k_rings (c_state cfg) proc_events →
     zlen (bytes_of pad p) = sizeof_new_proc_event ∧ read_unaligned (bytes_of pad p) = Some p).
Proof.
  pose proof (sound_records b arch s cfg) as Hok. split; [|split].
  - intros x Hx. destruct (Hok events x Hsound Hreach Hx) as (Hwf & Hc & Hd). split; [|done].
    unfold event_bytes. rewrite from_bytes_hdr by done. do 3 f_equal.
    unfold reported_len. rewrite Hd. destruct (0 <? _); lia.
  - intros c Hc. pose proof (Hok close_events c Hsound Hreach Hc : fits (A := close_event) c) as Hf.
    split; [by rewrite length_bytes_of|by apply read_stored].
  - intros x Hx. pose proof (Hok proc_events x Hsound Hreach Hx : fits (A := new_proc_event) x) as Hf.
    split; [by rewrite length_bytes_of|by apply read_stored].
Qed.

Lemma demo_state_sound : sound demo_state.
Proof.
  split; [intros m k v Hl; by destruct m|]. split; [intros r; by apply Forall_nil|].
  intros cpu. vm_compute. discriminate.
Qed.

(** A write of the request, entry and exit, is a schedule of the machine. *)
Definition demo_write : list (env * invocation) :=
  [(demo_env, SiteEntry SslWrite write_ctx); (demo_env, SiteExit SslWrite returned_20)].

Definition demo_written : kstate := run_all false arch_x86 demo_write demo_state.

Lemma demo_write_wf : Forall (fun ei => env_wf ei.1 ∧ inv_wf (e_pid_tgid ei.1) ei.2) demo_write.
Proof.
  repeat apply Forall_cons_2; [split|split|apply Forall_nil_2];
    first [exact demo_env_wf|cbn; unfold ctx_wf, u64_ok; cbn; lia].
Qed.

Lemma every_record_decodes_witness :
  sound demo_state ∧
  ∃ cfg x, reachable false arch_x86 inv_wf env_wf (idle demo_state) cfg ∧
    k_rings (c_state cfg) events = [x] ∧
    from_bytes (event_bytes (fun _ => x00) x) = Some (ev_hdr x, demo_request).
Proof.
  split; [exact demo_state_sound|].
  destruct (run_all_reaches false arch_x86 inv_wf env_wf demo_write demo_state demo_write_wf)
    as (ths & Hr).
  assert (∃ x, k_rings demo_written events = [x] ∧
    ztake (h_copied_len (ev_hdr x)) (ev_data x) = demo_request) as (x & Hx & Hd)
    by (eexists; split; vm_compute; reflexivity).
  eexists _, x. split; [exact Hr|]. split; [exact Hx|].
  rewrite <- Hd. apply (proj1 (every_record_decodes false arch_x86 demo_state _ (fun _ => x00)
    demo_state_sound Hr) x). cbn [c_state]. fold demo_written. rewrite Hx.
  by apply list_elem_of_singleton.
Defined.

(** * Ownership *)

(** A call leaves an entry of somebody else as it was, or drops it. *)
Lemma handle_frame e id {R} (c : helper R) s m k v :
  may_call id c → ¬ owns id m k →
  lookup_map (handle e c s).2 m k = Some v → lookup_map s m k = Some v.
Proof.
  intros Hc Hk.
  assert (∀ st f, sk_tgid st = tgid_of id → lookup_map (store_state st f s) m k = Some v →
    lookup_map s m k = Some v) as Hstore.
  { intros st f Hst. destruct (decide (m = ssl_state_map)) as [->|Hne].
    - rewrite lookup_store_state. case_decide; [|done]. subst st. by destruct Hk.
    - unfold store_state. by rewrite lookup_map_set_map_ne by congruence. }
  destruct c; cbn [handle snd may_call] in *; try done.
  - by destruct (uread e addr size).
  - destruct (decide (m0 = m)) as [->|Hne].
    + intros [[-> ->]|Hl]%update_elem_lookup; [by destruct Hk, Hc|done].
    + unfold lookup_map. by rewrite update_elem_other.
  - destruct (decide (m0 = m)) as [->|Hne].
    + unfold lookup_map. rewrite k_maps_set_map. by intros [_ Hl]%lookup_delete_Some.
    + by rewrite lookup_map_set_map_ne.
  - by apply Hstore, Hc.
  - by apply Hstore, Hc.
  - by destruct (e_reserve e r size).
  - by destruct (e_reserve e events size).
  - destruct dp; [|done]. by destruct (e_dynptr_write_err e =? 0).
  - by destruct dp.
  - by destruct dp.
Qed.

(** A call publishes no record of another thread. *)
Lemma handle_names e id {R} (c : helper R) s r x :
  may_call id c → x ∈ k_rings (handle e c s).2 r → x ∈ k_rings s r ∨ names id r x.
Proof.
  intros Hc.
  assert (∀ r' (x' : ring_record r'), names id r' x' →
    x ∈ k_rings (add_reserved (e_cpu e) (-1) (push_ring r' x' s)) r →
    x ∈ k_rings s r ∨ names id r x) as Hpush.
  { intros r' x' Hx'.
    change (k_rings (add_reserved (e_cpu e) (-1) (push_ring r' x' s)) r) with
      (k_rings (push_ring r' x' s) r).
    destruct (decide (r' = r)) as [<-|Hne].
    - rewrite k_rings_push_ring. intros [Hx|Hx]%elem_of_app; [by left|].
      apply list_elem_of_singleton in Hx as ->. by right.
    - rewrite k_rings_push_ring_ne by done. by left. }
  destruct c; cbn [handle snd may_call] in *; try (by left).
  - destruct (uread e addr size); by left.
  - destruct (update_elem_rest e m k v f s) as [-> _]. by left.
  - destruct (e_reserve e r0 size); by left.
  - apply Hpush, Hc.
  - destruct (e_reserve e events size); by left.
  - destruct dp; [|by left]. destruct (e_dynptr_write_err e =? 0); by left.
  - destruct dp as [d|]; [|by left]. apply (Hpush events). apply Hc.
  - destruct dp; by left.
Qed.

(** Only threads in [who] run probes. *)
Definition only (who : Z → Prop) (id : Z) (i : invocation) : Prop := inv_wf id i ∧ who id.

(** The common shape of the ownership theorems: a relation to the initial state that every
    permitted call of every permitted thread preserves. *)
Lemma owned_reachable b arch (who : Z → Prop) (P : kstate → Prop) s cfg :
  sound s → P s →
  (∀ e id R (c : helper R) s', who id → may_call id c → P s' → P (handle e c s').2) →
  (∀ s' arrays, P s' → P (s' <| k_arrays := arrays |>)) →
  reachable b arch (only who) env_wf (idle s) cfg → P (c_state cfg).
Proof.
  intros Hs HP Hcall Huser Hr.
  destruct (inv_sound b arch (only who) env_wf guard (fun id => id) (fun _ _ => True)
    (fun s' gs => sound s' ∧ P s' ∧ ∀ cpu id, gs cpu = Some id → who id))
    with (s := s) (cfg := cfg) as (gs & (_ & H & _) & _); try done.
  - intros id i [Hi _]. eapply wp_mono; [|exact (guarded_handler id b arch i Hi)]. done.
  - intros s1 gs e id R c (H1 & H2 & H3) Hg He Hc.
    split; [exact (handle_answer_ok e id c s1 He H1 Hc)|].
    split; [exact (handle_sound e id c s1 H1 Hc)|].
    split; [apply (Hcall e id); [by eapply H3|done|done]|].
    intros cpu id'. unfold fn_set. case_decide; [intros [= <-]; by eapply H3|apply H3].
  - intros s1 gs cpu id i (H1 & H2 & H3) _ [_ Hw]. split; [done|]. split; [done|].
    intros cpu' id'. unfold fn_set. case_decide; [by intros [= <-]|apply H3].
  - intros s1 gs cpu g a (H1 & H2 & H3) _ _. split; [done|]. split; [done|].
    intros cpu' id'. unfold fn_set. case_decide; [done|apply H3].
  - intros s1 gs arrays (H1 & H2 & H3). split; [exact H1|]. split; [by apply Huser|done].
Qed.

(** What one caller saves, no other caller rewrites. Take an entry of the argument maps or of
    the thread fallback filed under a thread, or an entry filed under a goroutine's or a TLS
    object's process. While only probes of other threads (other processes) run, in any
    interleaving, the entry can be evicted or dropped but never changed or created: a value found
    there later is the one that was there before. *)
Theorem entries_are_private (b : bool) (arch : target_arch) (s : kstate) (cfg : config)
    (m : lru) (k : lru_key m) (v : lru_val m)
    (Hsound : sound s)
    (Hothers : reachable b arch (only (fun id => ¬ owns id m k)) env_wf (idle s) cfg)
    (Hfound : lookup_map (c_state cfg) m k = Some v) :
  lookup_map s m k = Some v.
Proof.
  revert v Hfound. apply (owned_reachable b arch (fun id => ¬ owns id m k)
    (fun s' => ∀ v, lookup_map s' m k = Some v → lookup_map s m k = Some v) s cfg);
    [done|by auto| |done|done].
  intros e id R c s' Hno Hc IH v Hl. apply IH. by eapply handle_frame.
Qed.

(** C18: records name their caller. While only probes of the threads in [who] run, every record
    added to a ring carries the process of one of them, and a record of [events] its thread too:
    nothing is attributed to a process that ran no probe, and no process can close the connection
    of another one. *)
Theorem records_name_their_caller (b : bool) (arch : target_arch) (who : Z → Prop) (s : kstate)
    (cfg : config) (r : ring) (x : ring_record r)
    (Hsound : sound s)
    (Hreach : reachable b arch (only who) env_wf (idle s) cfg)
    (Hx : x ∈ k_rings (c_state cfg) r) :
  x ∈ k_rings s r ∨ ∃ id, who id ∧ names id r x.
Proof.
  revert r x Hx. apply (owned_reachable b arch who
    (fun s' => ∀ r x, x ∈ k_rings s' r → x ∈ k_rings s r ∨ ∃ id, who id ∧ names id r x) s cfg);
    [done|by auto| |done|done].
  intros e id R c s' Hw Hc IH r x Hx.
  destruct (handle_names e id c s' r x Hc Hx) as [H|H]; [by apply IH|right; by exists id].
Qed.

(** A thread of another process that writes while the first one is inside its own write. *)
Definition other_env : env := demo_env <| e_pid_tgid := 2000 * 2 ^ 32 + 2001 |>.

Definition other_write : list (env * invocation) :=
  [(other_env, SiteEntry SslWrite write_ctx); (other_env, SiteExit SslWrite returned_20)].

Definition demo_started : kstate :=
  run_all false arch_x86 [(demo_env, SiteEntry SslWrite write_ctx)] demo_state.

Lemma demo_started_sound : sound demo_started.
Proof.
  destruct (run_all_reaches false arch_x86 inv_wf env_wf
    [(demo_env, SiteEntry SslWrite write_ctx)] demo_state) as (ths & Hr).
  - apply Forall_singleton. exact (Forall_inv demo_write_wf).
  - exact (sound_reachable _ _ _ _ demo_state_sound Hr).
Qed.

Lemma other_write_only (who : Z → Prop) :
  who (e_pid_tgid other_env) →
  Forall (fun ei => env_wf ei.1 ∧ only who (e_pid_tgid ei.1) ei.2) other_write.
Proof.
  intros Hw. repeat apply Forall_cons_2; [split; [|split]|split; [|split]|apply Forall_nil_2];
    first [exact Hw|exact demo_env_wf|cbn; unfold ctx_wf, u64_ok; cbn; lia].
Qed.

Lemma entries_are_private_witness :
  sound demo_started ∧
  ∃ cfg v, reachable false arch_x86 (only (fun id => ¬ owns id ssl_write_args demo_pid_tgid))
      env_wf (idle demo_started) cfg ∧
    k_rings (c_state cfg) events ≠ k_rings demo_started events ∧
    lookup_map (c_state cfg) ssl_write_args demo_pid_tgid = Some v ∧
    lookup_map demo_started ssl_write_args demo_pid_tgid = Some v.
Proof.
  split; [exact demo_started_sound|].
  destruct (run_all_reaches false arch_x86
    (only (fun id => ¬ owns id ssl_write_args demo_pid_tgid)) env_wf other_write demo_started)
    as (ths & Hr); [apply other_write_only; cbn; discriminate|].
  assert (∃ v, lookup_map (run_all false arch_x86 other_write demo_started) ssl_write_args
    demo_pid_tgid = Some v) as (v & Hv) by (eexists; vm_compute; reflexivity).
  eexists _, v. split; [exact Hr|]. split; [vm_compute; discriminate|]. split; [exact Hv|].
  exact (entries_are_private false arch_x86 demo_started _ ssl_write_args demo_pid_tgid v
    demo_started_sound Hr Hv).
Defined.

Lemma records_name_their_caller_witness :
  sound demo_started ∧
  ∃ cfg x, reachable false arch_x86 (only (eq (e_pid_tgid other_env))) env_wf
      (idle demo_started) cfg ∧
    k_rings (c_state cfg) events = [x] ∧ h_pid (ev_hdr x) = 2000 ∧
    (x ∈ k_rings demo_started events ∨
     ∃ id, e_pid_tgid other_env = id ∧ labelled id (ev_hdr x)).
Proof.
  split; [exact demo_started_sound|].
  destruct (run_all_reaches false arch_x86 (only (eq (e_pid_tgid other_env))) env_wf
    other_write demo_started (other_write_only _ eq_refl)) as (ths & Hr).
  assert (∃ x, k_rings (run_all false arch_x86 other_write demo_started) events = [x] ∧
    h_pid (ev_hdr x) = 2000) as (x & Hx & Hp) by (eexists; split; vm_compute; reflexivity).
  eexists _, x. split; [exact Hr|]. split; [exact Hx|]. split; [exact Hp|].
  apply (records_name_their_caller false arch_x86 _ demo_started _ events x demo_started_sound Hr).
  cbn [c_state]. rewrite Hx. by apply list_elem_of_singleton.
Defined.
