(* ===== verification/Pending.v ===== *)
(** Requests that wait for their response in the userspace reader, and the memory they are charged
    for: [PendingBytes], [PendingQueue], [PendingStreams] and [InflightResponses] of
    [userspace/src/stream.rs].

    A [HashMap] is a [gmap] when its keys are stream ids, and a list in iteration order when its
    keys are header names. [net] stands for the network context of a request, which nothing here
    looks into; [sizeof_request] is the size the compiler gives [ParsedRequest]. *)

From S2P Require Import Prelude.
From Stdlib Require Import Strings.String.
From stdpp Require Import sorting.

#[local] Open Scope list_scope.
#[local] Open Scope Z_scope.

Notation bytes := (list byte).

Definition MAX_PENDING_PER_CONN : Z := 100.
Definition MAX_BODY_CAPTURE_BYTES : Z := 8192.

(** * Memory *)

(** The global counters the queues touch. *)
Record memory := {
  TOTAL_BUFFER_BYTES : Z;
  EVENTS_DROPPED : Z
}.

#[export] Instance memory_fields : Fields memory := fun m =>
  Build_memory (TOTAL_BUFFER_BYTES m) (EVENTS_DROPPED m).

(** [checked_add] on [usize], then the comparison with the ceiling. *)
Definition reserve_memory (max_total additional : Z) (m : memory) : bool * memory :=
  let next := TOTAL_BUFFER_BYTES m + additional in
  if (next <? 2 ^ 64) && (next <=? max_total)
  then (true, m <| TOTAL_BUFFER_BYTES := next |>) else (false, m).

Definition release_memory (amount : Z) (m : memory) : memory :=
  if amount =? 0 then m
  else m <| TOTAL_BUFFER_BYTES := Z.max 0 (TOTAL_BUFFER_BYTES m - amount) |>.

Definition count_drop (m : memory) : memory :=
  m <| EVENTS_DROPPED := u64 (EVENTS_DROPPED m + 1) |>.

(** [PendingBytes::add] and [PendingBytes::sub]; [Drop] is [release_memory]. *)
Definition pb_add (max_total n pb : Z) (m : memory) : bool * Z * memory :=
  let '(ok, m) := reserve_memory max_total n m in
  if ok then (true, u64 (pb + n), m) else (false, pb, m).

Definition pb_sub (n pb : Z) (m : memory) : Z * memory :=
  let n := Z.min n pb in (pb - n, release_memory n m).

(** * Requests *)

Record ParsedRequest {net : Type} := {
  pr_method : bytes;
  pr_path : bytes;
  pr_host : option bytes;
  pr_headers : list (bytes * bytes);
  pr_ts_ms : Z;
  pr_net_ctx : net;
  pr_body : bytes
}.
Arguments ParsedRequest : clear implicits.

#[export] Instance ParsedRequest_fields net : Fields (ParsedRequest net) := fun r =>
  Build_ParsedRequest net (pr_method r) (pr_path r) (pr_host r) (pr_headers r) (pr_ts_ms r)
    (pr_net_ctx r) (pr_body r).

Definition zsum {A} (f : A → Z) (l : list A) : Z := foldr (fun a n => f a + n) 0 l.

Definition is_http_method (method : bytes) : bool :=
  existsb (fun s => bool_decide (method = list_byte_of_string s))
    ["GET"; "POST"; "PUT"; "PATCH"; "DELETE"; "HEAD"; "OPTIONS"; "TRACE"; "CONNECT"]%string.

Definition is_usable_http_request (method path : bytes) : bool :=
  is_http_method method && negb (zlen path =? 0).

Definition saturating_sub (a b : Z) : Z := Z.max 0 (a - b).

(** A sum over the values of a map. *)
Definition map_sum {A} `{Countable K} (f : A → Z) (M : gmap K A) : Z :=
  map_fold (fun _ a n => f a + n) 0 M.

Section Pending.
Context {net : Type} (sizeof_request : Z).

Notation ParsedRequest := (ParsedRequest net).

Definition approx_bytes (r : ParsedRequest) : Z :=
  sizeof_request + 384 + zlen (pr_method r) + zlen (pr_path r) +
  match pr_host r with Some h => zlen h | None => 0 end +
  zsum (fun kv => zlen kv.1 + zlen kv.2 + 64) (pr_headers r) + zlen (pr_body r).

Definition truncate_body (r : ParsedRequest) : ParsedRequest :=
  r <| pr_body := ztake MAX_BODY_CAPTURE_BYTES (pr_body r) |>.

(** * HTTP/1 and HTTP/3: a queue per connection *)

Record PendingQueue := { pq_items : list ParsedRequest; pq_bytes : Z }.

Definition pq_default : PendingQueue := {| pq_items := []; pq_bytes := 0 |}.

Definition pq_push (req : ParsedRequest) (max_total : Z) (q : PendingQueue) (m : memory)
    : bool * PendingQueue * memory :=
  let req := truncate_body req in
  let size := approx_bytes req in
  if MAX_PENDING_PER_CONN <=? zlen (pq_items q) then (false, q, count_drop m) else
  let '(ok, pb, m) := pb_add max_total size (pq_bytes q) m in
  if ok then (true, {| pq_items := pq_items q ++ [req]; pq_bytes := pb |}, m)
  else (false, q, count_drop m).

Fixpoint pop_usable_from (items : list ParsedRequest) (pb : Z) (m : memory)
    : option ParsedRequest * PendingQueue * memory :=
  match items with
  | [] => (None, {| pq_items := []; pq_bytes := pb |}, m)
  | req :: items' =>
      let '(pb, m) := pb_sub (approx_bytes req) pb m in
      if is_usable_http_request (pr_method req) (pr_path req)
      then (Some req, {| pq_items := items'; pq_bytes := pb |}, m)
      else pop_usable_from items' pb m
  end.

Definition pq_pop_usable (q : PendingQueue) (m : memory) :=
  pop_usable_from (pq_items q) (pq_bytes q) m.

(** The request has waited [ttl_ms] or longer. *)
Definition stale (now_ms ttl_ms : Z) (r : ParsedRequest) : bool :=
  ttl_ms <=? saturating_sub now_ms (pr_ts_ms r).

Fixpoint expire_from (now_ms ttl_ms : Z) (items : list ParsedRequest) (pb : Z) (m : memory)
    : list ParsedRequest * PendingQueue * memory :=
  match items with
  | [] => ([], {| pq_items := []; pq_bytes := pb |}, m)
  | r :: items' =>
      if stale now_ms ttl_ms r then
        let '(pb, m) := pb_sub (approx_bytes r) pb m in
        let '(out, q, m) := expire_from now_ms ttl_ms items' pb m in
        (r :: out, q, m)
      else ([], {| pq_items := r :: items'; pq_bytes := pb |}, m)
  end.

Definition pq_expire_take (now_ms ttl_ms : Z) (q : PendingQueue) (m : memory) :=
  expire_from now_ms ttl_ms (pq_items q) (pq_bytes q) m.

Definition pq_take_all (q : PendingQueue) (m : memory) := pq_expire_take (2 ^ 64 - 1) 0 q m.

Definition pq_recount (q : PendingQueue) : Z := zsum approx_bytes (pq_items q).

(** * HTTP/2: requests by stream id *)

Record PendingStreams := { ps_map : gmap Z ParsedRequest; ps_bytes : Z }.

Definition ps_default : PendingStreams := {| ps_map := ∅; ps_bytes := 0 |}.

Definition ps_remove (id : Z) (p : PendingStreams) (m : memory)
    : option ParsedRequest * PendingStreams * memory :=
  match ps_map p !! id with
  | None => (None, p, m)
  | Some req =>
      let '(pb, m) := pb_sub (approx_bytes req) (ps_bytes p) m in
      (Some req, {| ps_map := delete id (ps_map p); ps_bytes := pb |}, m)
  end.

Definition ps_insert (id : Z) (req : ParsedRequest) (max_total cap : Z) (p : PendingStreams)
    (m : memory) : bool * PendingStreams * memory :=
  let req := truncate_body req in
  let '(_, p, m) := ps_remove id p m in
  let charge := approx_bytes req in
  if cap <=? Z.of_nat (size (ps_map p)) then (false, p, count_drop m) else
  let '(ok, pb, m) := pb_add max_total charge (ps_bytes p) m in
  if ok then (true, {| ps_map := <[id := req]> (ps_map p); ps_bytes := pb |}, m)
  else (false, p, count_drop m).

Definition ps_contains (id : Z) (p : PendingStreams) : bool :=
  bool_decide (is_Some (ps_map p !! id)).

Definition ps_append_body (id : Z) (data : bytes) (max_total : Z) (p : PendingStreams) (m : memory)
    : bool * PendingStreams * memory :=
  match ps_map p !! id with
  | None => (false, p, m)
  | Some req =>
      let n := Z.min (zlen data) (saturating_sub MAX_BODY_CAPTURE_BYTES (zlen (pr_body req))) in
      if 0 <? n then
        let '(ok, pb, m) := pb_add max_total n (ps_bytes p) m in
        if ok then
          let req := req <| pr_body := pr_body req ++ ztake n data |> in
          (true, {| ps_map := <[id := req]> (ps_map p); ps_bytes := pb |}, m)
        else (true, p, m)
      else (true, p, m)
  end.

Fixpoint ps_remove_all (ids : list Z) (p : PendingStreams) (m : memory)
    : list ParsedRequest * PendingStreams * memory :=
  match ids with
  | [] => ([], p, m)
  | id :: ids' =>
      let '(o, p, m) := ps_remove id p m in
      let '(out, p, m) := ps_remove_all ids' p m in
      (match o with Some r => r :: out | None => out end, p, m)
  end.

Definition stale_ids (now_ms ttl_ms : Z) (p : PendingStreams) : list Z :=
  merge_sort Z.le (filter (fun kr => stale now_ms ttl_ms kr.2 = true) (map_to_list (ps_map p))).*1.

Definition ps_expire_take (now_ms ttl_ms : Z) (p : PendingStreams) (m : memory) :=
  ps_remove_all (stale_ids now_ms ttl_ms p) p m.

Definition ps_take_all (p : PendingStreams) (m : memory) := ps_expire_take (2 ^ 64 - 1) 0 p m.

Definition ps_recount (p : PendingStreams) : Z := map_sum approx_bytes (ps_map p).
End Pending.

Arguments PendingQueue : clear implicits.
Arguments PendingStreams : clear implicits.

(** * HTTP/2: responses whose headers have been seen *)

Record InflightResponse := {
  ir_headers : list (bytes * bytes);
  ir_body : bytes;
  ir_charged : Z
}.

#[export] Instance InflightResponse_fields : Fields InflightResponse := fun r =>
  Build_InflightResponse (ir_headers r) (ir_body r) (ir_charged r).

Definition ir_size_of (headers : list (bytes * bytes)) (body_len : Z) : Z :=
  256 + zsum (fun kv => zlen kv.1 + zlen kv.2 + 64) headers + body_len.

(** [HashMap::insert] on header names: at most one value per name. *)
Definition header_insert (k v : bytes) (headers : list (bytes * bytes)) : list (bytes * bytes) :=
  (k, v) :: filter (fun kv => kv.1 ≠ k) headers.

Record InflightResponses := { is_map : gmap Z InflightResponse; is_bytes : Z }.

Definition is_default : InflightResponses := {| is_map := ∅; is_bytes := 0 |}.

Definition is_remove (id : Z) (p : InflightResponses) (m : memory)
    : option InflightResponse * InflightResponses * memory :=
  match is_map p !! id with
  | None => (None, p, m)
  | Some r =>
      let '(pb, m) := pb_sub (ir_charged r) (is_bytes p) m in
      (Some r, {| is_map := delete id (is_map p); is_bytes := pb |}, m)
  end.

Definition is_start (id : Z) (headers : list (bytes * bytes)) (max_total cap : Z)
    (p : InflightResponses) (m : memory) : bool * InflightResponses * memory :=
  let '(_, p, m) := is_remove id p m in
  let charged := ir_size_of headers 0 in
  if cap <=? Z.of_nat (size (is_map p)) then (false, p, count_drop m) else
  let '(ok, pb, m) := pb_add max_total charged (is_bytes p) m in
  if ok then
    let r := {| ir_headers := headers; ir_body := []; ir_charged := charged |} in
    (true, {| is_map := <[id := r]> (is_map p); is_bytes := pb |}, m)
  else (false, p, count_drop m).

Definition is_append (id : Z) (data : bytes) (max_total : Z) (p : InflightResponses) (m : memory)
    : bool * InflightResponses * memory :=
  match is_map p !! id with
  | None => (false, p, m)
  | Some r =>
      let room := saturating_sub MAX_BODY_CAPTURE_BYTES (zlen (ir_body r)) in
      let n := Z.min (zlen data) room in
      if 0 <? n then
        let '(ok, pb, m) := pb_add max_total n (is_bytes p) m in
        if ok then
          let r := r <| ir_body := ir_body r ++ ztake n data |>
                     <| ir_charged := ir_charged r + n |> in
          (true, {| is_map := <[id := r]> (is_map p); is_bytes := pb |}, m)
        else (true, p, m)
      else (true, p, m)
  end.

(** The loop of [merge_trailers] on the response it found. *)
Fixpoint merge_into (trailers : list (bytes * bytes)) (max_total : Z) (r : InflightResponse)
    (pb : Z) (m : memory) : InflightResponse * Z * memory :=
  match trailers with
  | [] => (r, pb, m)
  | (k, v) :: trailers' =>
      let extra := zlen k + zlen v + 64 in
      let '(ok, pb, m) := pb_add max_total extra pb m in
      if ok then
        merge_into trailers' max_total
          (r <| ir_charged := ir_charged r + extra |>
             <| ir_headers := header_insert k v (ir_headers r) |>) pb m
      else merge_into trailers' max_total r pb m
  end.

Definition is_merge_trailers (id : Z) (trailers : list (bytes * bytes)) (max_total : Z)
    (p : InflightResponses) (m : memory) : bool * InflightResponses * memory :=
  match is_map p !! id with
  | None => (false, p, m)
  | Some r =>
      let '(r, pb, m) := merge_into trailers max_total r (is_bytes p) m in
      (true, {| is_map := <[id := r]> (is_map p); is_bytes := pb |}, m)
  end.

Definition is_take (id : Z) (p : InflightResponses) (m : memory)
    : option (list (bytes * bytes) * bytes) * InflightResponses * memory :=
  let '(o, p, m) := is_remove id p m in ((fun r => (ir_headers r, ir_body r)) <$> o, p, m).

Fixpoint is_take_all (ids : list Z) (p : InflightResponses) (m : memory)
    : InflightResponses * memory :=
  match ids with
  | [] => (p, m)
  | id :: ids' => let '(_, p, m) := is_take id p m in is_take_all ids' p m
  end.

(** Responses whose request is no longer pending. *)
Definition is_expire {net} (live : PendingStreams net) (p : InflightResponses) (m : memory)
    : Z * InflightResponses * memory :=
  let gone := filter (fun id => ps_contains id live = false) (map_to_list (is_map p)).*1 in
  let '(p, m) := is_take_all gone p m in (zlen gone, p, m).

Definition is_recount (p : InflightResponses) : Z := map_sum ir_charged (is_map p).
