(* ===== verification/Memory.v ===== *)
(** The memory ceiling of the userspace reader: whatever is queued is charged, nothing is charged
    twice, and the charge never passes the ceiling.

    [Holder] is what the three kinds of queue have in common: bytes they have been charged, and
    bytes their contents account for. Each operation keeps the two equal and moves the global
    counter by the difference; [heap_step] lets any number of queues, and the rest of the reader,
    share one counter. *)

From S2P Require Import Prelude Pending.
From Stdlib Require Import Strings.String.

#[local] Open Scope list_scope.
#[local] Open Scope Z_scope.

(** * Sums over maps *)

Section Sums.
Context {A : Type} `{Countable K} (f : A → Z).
Implicit Types M : gmap K A.

Lemma map_sum_empty : map_sum f (∅ : gmap K A) = 0.
Proof. apply map_fold_empty. Qed.

Lemma map_sum_insert M i a : M !! i = None → map_sum f (<[i := a]> M) = f a + map_sum f M.
Proof. intros Hi. unfold map_sum. rewrite map_fold_insert_L; [done|intros; lia|done]. Qed.

Lemma map_sum_delete M i a : M !! i = Some a → map_sum f M = f a + map_sum f (delete i M).
Proof. intros Hi. unfold map_sum. rewrite (map_fold_delete_L _ _ i a); [done|intros; lia|done]. Qed.

Lemma map_sum_replace M i a b :
  M !! i = Some a → map_sum f (<[i := b]> M) = map_sum f M - f a + f b.
Proof.
  intros Hi. rewrite <- (insert_delete_eq M i b), map_sum_insert by apply lookup_delete_eq.
  rewrite (map_sum_delete M i a Hi). lia.
Qed.

Lemma map_sum_filter (P : K * A → bool) M :
  map_sum f M = map_sum f (filter (fun ka => P ka = true) M) +
                map_sum f (filter (fun ka => P ka = false) M).
Proof.
  induction M as [|i a M Hi IH] using map_ind; [by rewrite !map_filter_empty, map_sum_empty|].
  rewrite map_sum_insert, IH by done. destruct (P (i, a)) eqn:E.
  - rewrite map_filter_insert_True, map_filter_insert_False, (delete_id M i) by congruence.
    rewrite map_sum_insert by (apply map_lookup_filter_None; by left). lia.
  - rewrite map_filter_insert_False, map_filter_insert_True, (delete_id M i) by congruence.
    rewrite map_sum_insert by (apply map_lookup_filter_None; by left). lia.
Qed.

Lemma map_sum_list M : map_sum f M = zsum (fun ka => f ka.2) (map_to_list M).
Proof.
  induction M as [|i a M Hi IH] using map_ind; [by rewrite map_sum_empty, map_to_list_empty|].
  rewrite map_sum_insert, IH by done.
  assert (∀ l l' : list (K * A), l ≡ₚ l' → zsum (fun ka => f ka.2) l = zsum (fun ka => f ka.2) l') as Hp.
  { induction 1; unfold zsum in *; cbn; lia. }
  rewrite (Hp _ _ (map_to_list_insert M i a Hi)). done.
Qed.

Lemma map_sum_nonneg M : map_Forall (fun _ a => 0 <= f a) M → 0 <= map_sum f M.
Proof.
  induction M as [|i a M Hi IH] using map_ind; [by rewrite map_sum_empty|].
  intros [Ha HM]%map_Forall_insert; [|done]. rewrite map_sum_insert by done. specialize (IH HM). lia.
Qed.

Lemma zsum_cons a l : zsum f (a :: l) = f a + zsum f l.
Proof. done. Qed.

Lemma zsum_app l l' : zsum f (l ++ l') = zsum f l + zsum f l'.
Proof. induction l as [|a l IH]; [done|]. unfold zsum in *. cbn. lia. Qed.

Lemma zsum_nonneg l : Forall (fun a => 0 <= f a) l → 0 <= zsum f l.
Proof. induction 1 as [|a l Ha _ IH]; [done|]. unfold zsum in *. cbn. lia. Qed.
End Sums.

Arguments zsum : simpl never.

(** * Charging and releasing *)

Notation total := TOTAL_BUFFER_BYTES.

(** The counter ends no higher than it was, or within the ceiling. *)
Definition within (max : Z) (m m' : memory) : Prop := total m' <= Z.max (total m) max.

Lemma within_refl max m : within max m m.
Proof. unfold within. lia. Qed.

Lemma within_trans max m1 m2 m3 : within max m1 m2 → within max m2 m3 → within max m1 m3.
Proof. unfold within. lia. Qed.

Lemma pb_add_spec max n pb m rest :
  0 <= n → 0 <= pb → 0 <= rest → total m = rest + pb →
  let '(ok, pb', m') := pb_add max n pb m in
  pb' = pb + (if ok then n else 0) ∧ total m' = rest + pb' ∧ within max m m'.
Proof.
  intros Hn Hpb Hrest Hm. unfold pb_add, reserve_memory.
  destruct (_ && _) eqn:E; cbn [fst snd].
  - zbool. rewrite wrap_small by lia. split; [done|]. unfold within. cbn. lia.
  - split; [lia|]. split; [done|]. apply within_refl.
Qed.

Lemma pb_sub_spec max n pb m rest :
  0 <= n <= pb → 0 <= rest → total m = rest + pb →
  let '(pb', m') := pb_sub n pb m in
  pb' = pb - n ∧ total m' = rest + pb' ∧ within max m m'.
Proof.
  intros Hn Hrest Hm. unfold pb_sub, release_memory. rewrite Z.min_l by lia.
  split; [done|]. unfold within. destruct (n =? 0) eqn:E; zbool; cbn; lia.
Qed.

(** A refused charge changes nothing. *)
Lemma pb_add_refused max n pb m :
  let '(ok, _, m') := pb_add max n pb m in ok = false → m' = m.
Proof. unfold pb_add, reserve_memory. by destruct (_ && _). Qed.

(** * What the queues have in common *)

Class Holder (H : Type) := {
  hd_bytes : H → Z;     (* its [PendingBytes] *)
  hd_recount : H → Z;   (* what its contents account for *)
  hd_limits : H → Prop  (* the caps on its contents *)
}.

Section Holder.
Context {H : Type} `{!Holder H}.

Definition exact (h : H) : Prop := hd_bytes h = hd_recount h ∧ 0 <= hd_bytes h ∧ hd_limits h.

(** [h] is charged exactly, and the counter is that charge and [rest]. *)
Definition charged (rest : Z) (h : H) (m : memory) : Prop :=
  0 <= rest ∧ total m = rest + hd_bytes h ∧ exact h.

(** From [h] and [m] to [h'] and [m'] the charge stays exact and within the ceiling. *)
Definition keeps (max : Z) (h : H) (m : memory) (h' : H) (m' : memory) : Prop :=
  ∀ rest, charged rest h m → charged rest h' m' ∧ within max m m'.

Lemma keeps_refl max h m : keeps max h m h m.
Proof. intros rest Hc. split; [done|apply within_refl]. Qed.

Lemma keeps_trans max h1 m1 h2 m2 h3 m3 :
  keeps max h1 m1 h2 m2 → keeps max h2 m2 h3 m3 → keeps max h1 m1 h3 m3.
Proof.
  intros H1 H2 rest Hc. destruct (H1 rest Hc) as [Hc2 W1]. destruct (H2 rest Hc2) as [Hc3 W2].
  split; [done|by eapply within_trans].
Qed.

(** Counting a dropped request charges nothing. *)
Lemma keeps_drop max h m h' m' : keeps max h m h' m' → keeps max h m h' (count_drop m').
Proof. intros Hk rest Hc. exact (Hk rest Hc). Qed.

(** Charge [n] for contents that grow by [n]. *)
Lemma keeps_add max n h m (h' : Z → H) :
  0 <= n →
  (∀ pb, hd_bytes (h' pb) = pb) →
  (exact h → ∀ pb, hd_recount (h' pb) = hd_recount h + n ∧ hd_limits (h' pb)) →
  let '(ok, pb, m') := pb_add max n (hd_bytes h) m in
  if ok then keeps max h m (h' pb) m' else keeps max h m h m'.
Proof.
  intros Hn Hb Hr. destruct (pb_add max n (hd_bytes h) m) as [[ok pb] m'] eqn:E.
  assert (∀ rest, charged rest h m →
    pb = hd_bytes h + (if ok then n else 0) ∧ total m' = rest + pb ∧ within max m m') as Hspec.
  { intros rest (Hrest & Hm & He & Hpb & _).
    pose proof (pb_add_spec max n (hd_bytes h) m rest Hn Hpb Hrest Hm) as Hs. by rewrite E in Hs. }
  destruct ok; intros rest Hc; destruct (Hspec rest Hc) as (Hp & Hm' & Hw);
    (split; [|done]); destruct Hc as (Hrest & Hm & He).
  - destruct (Hr He pb) as [Hr1 Hr2]. destruct He as (He & Hpb & _).
    split; [done|]. rewrite Hb. split; [done|]. split; [rewrite Hb; lia|].
    split; [rewrite Hb; lia|done].
  - split; [done|]. split; [lia|done].
Qed.

(** Release [n] for contents that shrink by [n]. *)
Lemma keeps_sub max n h m (h' : Z → H) :
  (exact h → 0 <= n <= hd_bytes h) →
  (∀ pb, hd_bytes (h' pb) = pb) →
  (exact h → ∀ pb, hd_recount (h' pb) = hd_recount h - n ∧ hd_limits (h' pb)) →
  let '(pb, m') := pb_sub n (hd_bytes h) m in keeps max h m (h' pb) m'.
Proof.
  intros Hn Hb Hr. destruct (pb_sub n (hd_bytes h) m) as [pb m'] eqn:E.
  intros rest (Hrest & Hm & He).
  pose proof (pb_sub_spec max n (hd_bytes h) m rest (Hn He) Hrest Hm) as Hs. rewrite E in Hs.
  destruct Hs as (Hp & Hm' & Hw). split; [|done]. destruct (Hr He pb) as [Hr1 Hr2].
  specialize (Hn He). destruct He as (He & Hpb & _).
  split; [done|]. rewrite Hb. split; [done|]. split; [rewrite Hb; lia|].
  split; [rewrite Hb; lia|done].
Qed.
End Holder.

(** * The three kinds of queue *)

(** A body never exceeds what is ever shipped. *)
Definition body_ok (body : bytes) : Prop := zlen body <= MAX_BODY_CAPTURE_BYTES.

Definition header_bytes (headers : list (bytes * bytes)) : Z :=
  zsum (fun kv => zlen kv.1 + zlen kv.2 + 64) headers.

Lemma header_bytes_nonneg headers : 0 <= header_bytes headers.
Proof.
  apply zsum_nonneg, Forall_forall. intros kv _.
  pose proof (zlen_nonneg kv.1). pose proof (zlen_nonneg kv.2). lia.
Qed.

Lemma header_insert_bytes k v headers :
  header_bytes (header_insert k v headers) <= zlen k + zlen v + 64 + header_bytes headers.
Proof.
  unfold header_insert, header_bytes. rewrite zsum_cons. cbn [fst snd].
  enough (header_bytes (filter (fun kv => kv.1 ≠ k) headers) <= header_bytes headers)
    by (unfold header_bytes in *; lia).
  induction headers as [|kv headers IH]; [done|]. rewrite filter_cons.
  pose proof (zlen_nonneg kv.1). pose proof (zlen_nonneg kv.2).
  unfold header_bytes in *. case_decide; rewrite !zsum_cons; lia.
Qed.

Lemma body_ok_append body data :
  body_ok body →
  let n := Z.min (zlen data) (saturating_sub MAX_BODY_CAPTURE_BYTES (zlen body)) in
  body_ok (body ++ ztake n data) ∧ zlen (body ++ ztake n data) = zlen body + n ∧ 0 <= n.
Proof.
  unfold body_ok, saturating_sub. intros Hb. cbv zeta. pose proof (zlen_nonneg data).
  rewrite zlen_app, length_ztake by lia. lia.
Qed.

Section Queues.
Context {net : Type} (sizeof_request : Z).
Context (Hsize : 0 <= sizeof_request).

Notation approx_bytes := (approx_bytes (net := net) sizeof_request).

Lemma approx_bytes_nonneg r : 0 <= approx_bytes r.
Proof using Hsize.
  unfold approx_bytes. pose proof (header_bytes_nonneg (pr_headers r)) as H.
  unfold header_bytes in H. pose proof (zlen_nonneg (pr_method r)).
  pose proof (zlen_nonneg (pr_path r)). pose proof (zlen_nonneg (pr_body r)).
  destruct (pr_host r) as [h|]; [pose proof (zlen_nonneg h)|]; lia.
Qed.

Lemma truncate_body_ok r : body_ok (pr_body (truncate_body (net := net) r)).
Proof.
  unfold body_ok, truncate_body. cbn. rewrite length_ztake by (unfold MAX_BODY_CAPTURE_BYTES; lia).
  lia.
Qed.

(** ** Queues *)

#[local] Instance queue_holder : Holder (PendingQueue net) := {
  hd_bytes := pq_bytes;
  hd_recount := pq_recount sizeof_request;
  hd_limits q := zlen (pq_items q) <= MAX_PENDING_PER_CONN ∧
                 Forall (fun r => body_ok (pr_body r)) (pq_items q)
}.

Lemma keeps_push max req q m :
  let '(_, q', m') := pq_push sizeof_request req max q m in keeps max q m q' m'.
Proof using Hsize.
  unfold pq_push. destruct (MAX_PENDING_PER_CONN <=? _) eqn:E; [apply keeps_drop, keeps_refl|].
  zbool. set (req' := truncate_body req).
  pose proof (keeps_add max (approx_bytes req') q m
    (fun pb => {| pq_items := pq_items q ++ [req']; pq_bytes := pb |})) as Hk.
  cbn [hd_bytes queue_holder] in Hk. specialize (Hk (approx_bytes_nonneg req') (fun _ => eq_refl)).
  destruct (pb_add _ _ _ _) as [[ok pb] m']. destruct ok.
  - apply Hk. intros (_ & _ & Hl & Hb) pb'. cbn. unfold pq_recount. cbn.
    rewrite zsum_app, zlen_app, zsum_cons. change (zsum _ []) with 0. split; [lia|]. split; [unfold zlen in *; cbn; lia|].
    apply Forall_app. split; [done|]. apply Forall_singleton, truncate_body_ok.
  - apply keeps_drop, Hk. intros (_ & _ & Hl & Hb) pb'. cbn. unfold pq_recount. cbn.
    rewrite zsum_app, zlen_app, zsum_cons. change (zsum _ []) with 0. split; [lia|]. split; [unfold zlen in *; cbn; lia|].
    apply Forall_app. split; [done|]. apply Forall_singleton, truncate_body_ok.
Qed.

(** Taking the front request out. *)
Lemma keeps_front max r items pb m :
  let '(pb', m') := pb_sub (approx_bytes r) pb m in
  keeps max {| pq_items := r :: items; pq_bytes := pb |} m
            {| pq_items := items; pq_bytes := pb' |} m'.
Proof using Hsize.
  pose proof (keeps_sub max (approx_bytes r) {| pq_items := r :: items; pq_bytes := pb |} m
    (fun pb => {| pq_items := items; pq_bytes := pb |})) as Hk.
  cbn [hd_bytes queue_holder pq_bytes] in Hk. destruct (pb_sub _ _ _) as [pb' m'].
  apply Hk; [|done|].
  - intros (He & _ & _). cbn in *. unfold pq_recount in He. cbn in He. rewrite zsum_cons in He.
    pose proof (approx_bytes_nonneg r).
    assert (0 <= zsum approx_bytes items)
      by (apply zsum_nonneg, Forall_forall; intros; apply approx_bytes_nonneg).
    lia.
  - intros (_ & _ & Hl & Hb) pb2. cbn in *. unfold pq_recount. cbn. apply Forall_inv_tail in Hb.
    rewrite zsum_cons. split; [lia|]. split; [unfold zlen in *; cbn in Hl; lia|done].
Qed.

Lemma keeps_pop_usable_from max items pb m :
  let '(_, q', m') := pop_usable_from sizeof_request items pb m in
  keeps max {| pq_items := items; pq_bytes := pb |} m q' m'.
Proof using Hsize.
  revert pb m. induction items as [|r items IH]; intros pb m; cbn [pop_usable_from];
    [apply keeps_refl|].
  pose proof (keeps_front max r items pb m) as Hf. destruct (pb_sub _ _ _) as [pb' m'].
  destruct (is_usable_http_request _ _); [exact Hf|]. specialize (IH pb' m').
  destruct (pop_usable_from _ _ _ _) as [[o q'] m2]. by eapply keeps_trans.
Qed.

Lemma keeps_expire_from max now ttl items pb m :
  let '(_, q', m') := expire_from sizeof_request now ttl items pb m in
  keeps max {| pq_items := items; pq_bytes := pb |} m q' m'.
Proof using Hsize.
  revert pb m. induction items as [|r items IH]; intros pb m; cbn [expire_from];
    [apply keeps_refl|]. destruct (stale now ttl r); [|apply keeps_refl].
  pose proof (keeps_front max r items pb m) as Hf. destruct (pb_sub _ _ _) as [pb' m'].
  specialize (IH pb' m'). destruct (expire_from _ _ _ _ _ _) as [[o q'] m2].
  by eapply keeps_trans.
Qed.

(** ** Streams *)

#[local] Instance streams_holder : Holder (PendingStreams net) := {
  hd_bytes := ps_bytes;
  hd_recount := ps_recount sizeof_request;
  hd_limits p := map_Forall (fun _ r => body_ok (pr_body r)) (ps_map p)
}.

Lemma streams_sum_nonneg (M : gmap Z (ParsedRequest net)) : 0 <= map_sum approx_bytes M.
Proof using Hsize. apply map_sum_nonneg. intros i r _. apply approx_bytes_nonneg. Qed.

Lemma keeps_ps_remove max id p m :
  let '(_, p', m') := ps_remove sizeof_request id p m in keeps max p m p' m'.
Proof using Hsize.
  unfold ps_remove. destruct (ps_map p !! id) as [r|] eqn:E; [|apply keeps_refl].
  pose proof (keeps_sub max (approx_bytes r) p m
    (fun pb => {| ps_map := delete id (ps_map p); ps_bytes := pb |})) as Hk.
  cbn [hd_bytes streams_holder] in Hk.
  destruct (pb_sub _ _ _) as [pb m']. apply Hk; [|done|].
  - intros (He & _ & _). cbn in *. unfold ps_recount in He. rewrite (map_sum_delete _ _ _ _ E) in He.
    pose proof (approx_bytes_nonneg r). pose proof (streams_sum_nonneg (delete id (ps_map p))). lia.
  - intros (_ & _ & Hb) pb'. cbn in *. unfold ps_recount. cbn.
    rewrite (map_sum_delete _ (ps_map p) id r E). split; [lia|]. by apply map_Forall_delete.
Qed.

Lemma ps_remove_gone id p m : ps_map ((ps_remove (net := net) sizeof_request id p m).1.2) !! id = None.
Proof.
  unfold ps_remove. destruct (ps_map p !! id) eqn:E; [|done].
  destruct (pb_sub _ _ _). apply lookup_delete_eq.
Qed.

Lemma keeps_ps_insert max id req cap p m :
  let '(_, p', m') := ps_insert sizeof_request id req max cap p m in keeps max p m p' m'.
Proof using Hsize.
  unfold ps_insert. pose proof (keeps_ps_remove max id p m) as Hr.
  pose proof (ps_remove_gone id p m) as Hgone.
  destruct (ps_remove _ id p m) as [[o p1] m1]. cbn [fst snd] in Hgone.
  destruct (cap <=? _); [by apply keeps_drop|]. set (req' := truncate_body req).
  pose proof (keeps_add max (approx_bytes req') p1 m1
    (fun pb => {| ps_map := <[id := req']> (ps_map p1); ps_bytes := pb |})) as Hk.
  cbn [hd_bytes streams_holder] in Hk. specialize (Hk (approx_bytes_nonneg req') (fun _ => eq_refl)).
  destruct (pb_add _ _ _ _) as [[ok pb] m']. destruct ok; [|apply keeps_drop].
  all: eapply keeps_trans; [exact Hr|]; apply Hk; intros (_ & _ & Hb) pb'; cbn in *;
    unfold ps_recount; cbn; rewrite map_sum_insert by done; split; [lia|];
    apply map_Forall_insert_2; [apply truncate_body_ok|done].
Qed.

Lemma keeps_ps_append max id data p m :
  let '(_, p', m') := ps_append_body id data max p m in keeps max p m p' m'.
Proof.
  unfold ps_append_body. destruct (ps_map p !! id) as [r|] eqn:E; [|apply keeps_refl].
  cbv zeta. set (n := Z.min _ _). destruct (0 <? n) eqn:En; [|apply keeps_refl]. zbool.
  set (r' := r <| pr_body := pr_body r ++ ztake n data |>).
  pose proof (keeps_add max n p m
    (fun pb => {| ps_map := <[id := r']> (ps_map p); ps_bytes := pb |})) as Hk.
  cbn [hd_bytes streams_holder] in Hk. specialize (Hk ltac:(lia) (fun _ => eq_refl)).
  destruct (pb_add _ _ _ _) as [[ok pb] m']. destruct ok; apply Hk; intros (_ & _ & Hb) pb';
    cbn in *; unfold ps_recount; cbn; rewrite (map_sum_replace _ _ _ _ _ E);
    destruct (body_ok_append (pr_body r) data (Hb id r E)) as (H1 & H2 & _); fold n in H1, H2;
    (split; [unfold approx_bytes; cbn; lia|by apply map_Forall_insert_2]).
Qed.

Lemma keeps_ps_remove_all max ids p m :
  let '(_, p', m') := ps_remove_all sizeof_request ids p m in keeps max p m p' m'.
Proof using Hsize.
  revert p m. induction ids as [|id ids IH]; intros p m; cbn [ps_remove_all]; [apply keeps_refl|].
  pose proof (keeps_ps_remove max id p m) as Hr. destruct (ps_remove _ id p m) as [[o p1] m1].
  specialize (IH p1 m1). destruct (ps_remove_all _ ids p1 m1) as [[out p2] m2].
  by eapply keeps_trans.
Qed.
End Queues.

(** ** Responses

    The charge is kept beside each response; it covers the headers and the body that are held. *)
Definition response_ok (r : InflightResponse) : Prop :=
  body_ok (ir_body r) ∧ ir_size_of (ir_headers r) (zlen (ir_body r)) <= ir_charged r.

#[local] Instance responses_holder : Holder InflightResponses := {
  hd_bytes := is_bytes;
  hd_recount := is_recount;
  hd_limits p := map_Forall (fun _ => response_ok) (is_map p)
}.

Lemma response_charge_nonneg r : response_ok r → 0 <= ir_charged r.
Proof.
  intros [_ Hs]. unfold ir_size_of in Hs. pose proof (header_bytes_nonneg (ir_headers r)) as Hh.
  unfold header_bytes in Hh. pose proof (zlen_nonneg (ir_body r)). lia.
Qed.

Lemma responses_sum_nonneg (M : gmap Z InflightResponse) :
  map_Forall (fun _ => response_ok) M → 0 <= map_sum ir_charged M.
Proof. intros HM. apply map_sum_nonneg. intros i r Hi. apply response_charge_nonneg, (HM i r Hi). Qed.

Lemma keeps_is_remove max id p m :
  let '(_, p', m') := is_remove id p m in keeps max p m p' m'.
Proof.
  unfold is_remove. destruct (is_map p !! id) as [r|] eqn:E; [|apply keeps_refl].
  pose proof (keeps_sub max (ir_charged r) p m
    (fun pb => {| is_map := delete id (is_map p); is_bytes := pb |})) as Hk.
  cbn [hd_bytes responses_holder] in Hk.
  destruct (pb_sub _ _ _) as [pb m']. apply Hk; [|done|].
  - intros (He & _ & Hb). cbn in *. unfold is_recount in He. rewrite (map_sum_delete _ _ _ _ E) in He.
    pose proof (response_charge_nonneg r (Hb id r E)).
    pose proof (responses_sum_nonneg (delete id (is_map p)) (map_Forall_delete _ _ _ Hb)). lia.
  - intros (_ & _ & Hb) pb'. cbn in *. unfold is_recount. cbn.
    rewrite (map_sum_delete _ (is_map p) id r E). split; [lia|]. by apply map_Forall_delete.
Qed.

Lemma is_remove_gone id p m : is_map ((is_remove id p m).1.2) !! id = None.
Proof.
  unfold is_remove. destruct (is_map p !! id) eqn:E; [|done].
  destruct (pb_sub _ _ _). apply lookup_delete_eq.
Qed.

Lemma keeps_is_start max id headers cap p m :
  let '(_, p', m') := is_start id headers max cap p m in keeps max p m p' m'.
Proof.
  unfold is_start. pose proof (keeps_is_remove max id p m) as Hr.
  pose proof (is_remove_gone id p m) as Hgone.
  destruct (is_remove id p m) as [[o p1] m1]. cbn [fst snd] in Hgone.
  destruct (cap <=? _); [by apply keeps_drop|].
  set (r := {| ir_headers := headers; ir_body := []; ir_charged := ir_size_of headers 0 |}).
  assert (response_ok r) as Hok by (split; [discriminate|done]).
  pose proof (keeps_add max (ir_size_of headers 0) p1 m1
    (fun pb => {| is_map := <[id := r]> (is_map p1); is_bytes := pb |})
    (response_charge_nonneg r Hok) (fun _ => eq_refl)) as Hk.
  cbn [hd_bytes responses_holder] in Hk.
  destruct (pb_add _ _ _ _) as [[ok pb] m']. destruct ok; [|apply keeps_drop].
  all: eapply keeps_trans; [exact Hr|]; apply Hk; intros (_ & _ & Hb) pb'; cbn in *;
    unfold is_recount; cbn; rewrite map_sum_insert by done; cbn [ir_charged r];
    split; [lia|]; by apply map_Forall_insert_2.
Qed.

Lemma keeps_is_append max id data p m :
  let '(_, p', m') := is_append id data max p m in keeps max p m p' m'.
Proof.
  unfold is_append. destruct (is_map p !! id) as [r|] eqn:E; [|apply keeps_refl].
  cbv zeta. set (n := Z.min _ _). destruct (0 <? n) eqn:En; [|apply keeps_refl]. zbool.
  set (r' := r <| ir_body := ir_body r ++ ztake n data |> <| ir_charged := ir_charged r + n |>).
  pose proof (keeps_add max n p m
    (fun pb => {| is_map := <[id := r']> (is_map p); is_bytes := pb |})) as Hk.
  cbn [hd_bytes responses_holder] in Hk. specialize (Hk ltac:(lia) (fun _ => eq_refl)).
  destruct (pb_add _ _ _ _) as [[ok pb] m']. destruct ok; apply Hk; intros (_ & _ & Hb) pb';
    cbn in *; unfold is_recount; cbn; rewrite (map_sum_replace _ _ _ _ _ E);
    destruct (Hb id r E) as [Hbody Hcharge];
    destruct (body_ok_append (ir_body r) data Hbody) as (H1 & H2 & _); fold n in H1, H2;
    (split; [cbn; lia|apply map_Forall_insert_2; [|done]]); (split; [exact H1|]);
    cbn; unfold ir_size_of in *; lia.
Qed.

(** A response under [id] with its charge, while trailers are merged into it. *)
Definition with_response (id : Z) (p : InflightResponses) (r : InflightResponse) (pb : Z) :=
  {| is_map := <[id := r]> (is_map p); is_bytes := pb |}.

Lemma keeps_merge_into max id p trailers r pb m :
  let '(r', pb', m') := merge_into trailers max r pb m in
  keeps max (with_response id p r pb) m (with_response id p r' pb') m'.
Proof.
  revert r pb m. induction trailers as [|[k v] trailers IH]; intros r pb m; cbn [merge_into];
    [apply keeps_refl|]. cbv zeta.
  set (n := zlen k + zlen v + 64).
  set (r1 := r <| ir_charged := ir_charged r + n |>
               <| ir_headers := header_insert k v (ir_headers r) |>).
  pose proof (zlen_nonneg k). pose proof (zlen_nonneg v).
  pose proof (keeps_add max n (with_response id p r pb) m (with_response id p r1)
    ltac:(unfold n; lia) (fun _ => eq_refl)) as Hk.
  cbn [hd_bytes responses_holder with_response is_bytes] in Hk.
  assert (exact (with_response id p r pb) → ∀ pb',
    hd_recount (with_response id p r1 pb') = hd_recount (with_response id p r pb) + n ∧
    hd_limits (with_response id p r1 pb')) as Hgrow.
  { intros (_ & _ & Hb) pb'. cbn in *. unfold is_recount. cbn.
    pose proof (Hb id r (lookup_insert_eq _ _ _)) as [Hbody Hcharge].
    rewrite <- (insert_insert_eq (is_map p) id r1 r).
    rewrite (map_sum_replace _ _ id r r1) by apply lookup_insert_eq.
    split; [cbn; lia|]. apply map_Forall_insert_2; [|exact Hb]. split; [exact Hbody|].
    pose proof (header_insert_bytes k v (ir_headers r)) as Hh.
    unfold header_bytes, ir_size_of in *. cbn. lia. }
  specialize (Hk Hgrow). destruct (pb_add _ _ _ _) as [[ok pb1] m1] eqn:E. destruct ok.
  - specialize (IH r1 pb1 m1). destruct (merge_into trailers max r1 pb1 m1) as [[r2 pb2] m2].
    by eapply keeps_trans.
  - assert (pb1 = pb) as ->.
    { unfold pb_add in E. destruct (reserve_memory _ _ _) as [[] ?]; congruence. }
    specialize (IH r pb m1). destruct (merge_into trailers max r pb m1) as [[r2 pb2] m2].
    by eapply keeps_trans.
Qed.

Lemma keeps_is_merge max id trailers p m :
  let '(_, p', m') := is_merge_trailers id trailers max p m in keeps max p m p' m'.
Proof.
  unfold is_merge_trailers. destruct (is_map p !! id) as [r|] eqn:E; [|apply keeps_refl].
  pose proof (keeps_merge_into max id p trailers r (is_bytes p) m) as Hk.
  destruct (merge_into _ _ _ _ _) as [[r' pb'] m']. unfold with_response in Hk at 1.
  rewrite insert_id in Hk by done. by destruct p.
Qed.

Lemma keeps_is_take max id p m :
  let '(_, p', m') := is_take id p m in keeps max p m p' m'.
Proof.
  unfold is_take. pose proof (keeps_is_remove max id p m) as Hr.
  by destruct (is_remove id p m) as [[o p1] m1].
Qed.

Lemma keeps_is_take_all max ids p m :
  let '(p', m') := is_take_all ids p m in keeps max p m p' m'.
Proof.
  revert p m. induction ids as [|id ids IH]; intros p m; cbn [is_take_all]; [apply keeps_refl|].
  pose proof (keeps_is_take max id p m) as Hr. destruct (is_take id p m) as [[o p1] m1].
  specialize (IH p1 m1). destruct (is_take_all ids p1 m1). by eapply keeps_trans.
Qed.

Lemma keeps_is_expire {net} max (live : PendingStreams net) p m :
  let '(_, p', m') := is_expire live p m in keeps max p m p' m'.
Proof.
  unfold is_expire. cbv zeta. set (gone := filter _ _).
  pose proof (keeps_is_take_all max gone p m) as Hk. by destruct (is_take_all gone p m).
Qed.

(** * Everything that shares the counter *)

Section Heap.
Context {net : Type} (sizeof_request : Z) (max_total : Z).

Inductive holder :=
  | HQueue (q : PendingQueue net)
  | HStreams (p : PendingStreams net)
  | HResponses (p : InflightResponses).

Definition held (h : holder) : Z :=
  match h with HQueue q => pq_bytes q | HStreams p => ps_bytes p | HResponses p => is_bytes p end.

Definition recount (h : holder) : Z :=
  match h with
  | HQueue q => pq_recount sizeof_request q
  | HStreams p => ps_recount sizeof_request p
  | HResponses p => is_recount p
  end.

Definition limits (h : holder) : Prop :=
  match h with
  | HQueue q => hd_limits (Holder := queue_holder sizeof_request) q
  | HStreams p => hd_limits (Holder := streams_holder sizeof_request) p
  | HResponses p => hd_limits p
  end.

#[local] Instance any_holder : Holder holder :=
  { hd_bytes := held; hd_recount := recount; hd_limits := limits }.

(** The public operations, each on the kind of queue it belongs to. *)
Inductive op :=
  | OpPush (req : ParsedRequest net)
  | OpPopUsable
  | OpExpireTake (now_ms ttl_ms : Z)
  | OpInsert (id : Z) (req : ParsedRequest net) (cap : Z)
  | OpAppendBody (id : Z) (data : bytes)
  | OpRemove (id : Z)
  | OpStart (id : Z) (headers : list (bytes * bytes)) (cap : Z)
  | OpAppend (id : Z) (data : bytes)
  | OpMergeTrailers (id : Z) (trailers : list (bytes * bytes))
  | OpTake (id : Z)
  | OpExpire (live : PendingStreams net).

(** What is left of a queue and of the counters after an operation. *)
Definition after {A H} (wrap : H → holder) (x : A * H * memory) : holder * memory :=
  let '(_, h, m) := x in (wrap h, m).

Definition apply_op (o : op) (h : holder) (m : memory) : holder * memory :=
  match o, h with
  | OpPush req, HQueue q => after HQueue (pq_push sizeof_request req max_total q m)
  | OpPopUsable, HQueue q => after HQueue (pq_pop_usable sizeof_request q m)
  | OpExpireTake now ttl, HQueue q => after HQueue (pq_expire_take sizeof_request now ttl q m)
  | OpInsert id req cap, HStreams p =>
      after HStreams (ps_insert sizeof_request id req max_total cap p m)
  | OpAppendBody id data, HStreams p => after HStreams (ps_append_body id data max_total p m)
  | OpRemove id, HStreams p => after HStreams (ps_remove sizeof_request id p m)
  | OpExpireTake now ttl, HStreams p => after HStreams (ps_expire_take sizeof_request now ttl p m)
  | OpStart id hs cap, HResponses p => after HResponses (is_start id hs max_total cap p m)
  | OpAppend id data, HResponses p => after HResponses (is_append id data max_total p m)
  | OpMergeTrailers id ts, HResponses p =>
      after HResponses (is_merge_trailers id ts max_total p m)
  | OpTake id, HResponses p => after HResponses (is_take id p m)
  | OpExpire live, HResponses p => after HResponses (is_expire live p m)
  | _, _ => (h, m)
  end.

(** The queues of all connections, by any numbering, and the bytes the rest of the reader holds. *)
Record heap := {
  hp_holders : gmap Z holder;
  hp_others : Z;
  hp_memory : memory
}.

Inductive heap_step : heap → heap → Prop :=
  | heap_new i h M r m :
      M !! i = None → h ∈ [HQueue pq_default; HStreams ps_default; HResponses is_default] →
      heap_step {| hp_holders := M; hp_others := r; hp_memory := m |}
                {| hp_holders := <[i := h]> M; hp_others := r; hp_memory := m |}
  | heap_op i h o M r m :
      M !! i = Some h →
      heap_step {| hp_holders := M; hp_others := r; hp_memory := m |}
                {| hp_holders := <[i := (apply_op o h m).1]> M; hp_others := r;
                   hp_memory := (apply_op o h m).2 |}
  | heap_drop i h M r m :
      M !! i = Some h →
      heap_step {| hp_holders := M; hp_others := r; hp_memory := m |}
                {| hp_holders := delete i M; hp_others := r; hp_memory := release_memory (held h) m |}
  | heap_reserve n M r m m' :
      0 <= n → reserve_memory max_total n m = (true, m') →
      heap_step {| hp_holders := M; hp_others := r; hp_memory := m |}
                {| hp_holders := M; hp_others := r + n; hp_memory := m' |}
  | heap_release n M r m :
      0 <= n <= r →
      heap_step {| hp_holders := M; hp_others := r; hp_memory := m |}
                {| hp_holders := M; hp_others := r - n; hp_memory := release_memory n m |}.

(** Every queue is charged exactly and the counter is the sum of the charges. *)
Definition heap_ok (s : heap) : Prop :=
  0 <= hp_others s ∧ map_Forall (fun _ => exact) (hp_holders s) ∧
  total (hp_memory s) = hp_others s + map_sum held (hp_holders s) ∧
  total (hp_memory s) <= max_total.

Lemma held_sum_nonneg (M : gmap Z holder) :
  map_Forall (fun _ => exact) M → 0 <= map_sum held M.
Proof. intros HM. apply map_sum_nonneg. intros i h Hi. apply (HM i h Hi). Qed.

Lemma release_memory_spec n m : 0 <= n <= total m → total (release_memory n m) = total m - n.
Proof. intros Hn. unfold release_memory. destruct (n =? 0) eqn:E; zbool; cbn; lia. Qed.

Context (Hsize : 0 <= sizeof_request).

Lemma keeps_op o h m : keeps max_total h m (apply_op o h m).1 (apply_op o h m).2.
Proof using Hsize.
  assert (∀ A H (HH : Holder H) (w : H → holder) (h0 : H) (x : A * H * memory),
    (∀ h1, hd_bytes (w h1) = hd_bytes h1 ∧ hd_recount (w h1) = hd_recount h1 ∧
           hd_limits (w h1) = hd_limits h1) →
    (let '(_, h1, m1) := x in keeps max_total h0 m h1 m1) →
    keeps max_total (w h0) m (after w x).1 (after w x).2) as Hlift.
  { intros A H HH w h0 [[a h1] m1] Hw Hk rest. cbn [after fst snd].
    destruct (Hw h0) as (E1 & E2 & E3), (Hw h1) as (F1 & F2 & F3). specialize (Hk rest).
    unfold charged, exact in *. by rewrite E1, E2, E3, F1, F2, F3. }
  destruct o, h; cbn [apply_op]; try (apply keeps_refl);
    first [ apply (Hlift _ _ (queue_holder sizeof_request) HQueue); [done|]
          | apply (Hlift _ _ (streams_holder sizeof_request) HStreams); [done|]
          | apply (Hlift _ _ responses_holder HResponses); [done|] ].
  - by apply keeps_push.
  - destruct q as [items pb]. by apply keeps_pop_usable_from.
  - destruct q as [items pb]. by apply keeps_expire_from.
  - by apply keeps_ps_remove_all.
  - by apply keeps_ps_insert.
  - apply keeps_ps_append.
  - by apply keeps_ps_remove.
  - apply keeps_is_start.
  - apply keeps_is_append.
  - apply keeps_is_merge.
  - apply keeps_is_take.
  - apply keeps_is_expire.
Qed.

Lemma default_ok h :
  h ∈ [HQueue pq_default; HStreams ps_default; HResponses is_default] → exact h ∧ held h = 0.
Proof.
  intros Hh. repeat apply elem_of_cons in Hh as [->|Hh]; [..|by apply not_elem_of_nil in Hh];
    (split; [|done]); (split; [|split; [done|]]); cbn;
    first [done | symmetry; apply map_sum_empty | apply map_Forall_empty | split; [done|by apply Forall_nil]].
Qed.

Lemma heap_step_ok s s' : heap_step s s' → heap_ok s → heap_ok s'.
Proof using Hsize.
  intros Hstep (Hr & He & Hm & Hmax). unfold heap_ok.
  destruct Hstep as [i h M r m Hi Hh|i h o M r m Hi|i h M r m Hi|n M r m m' Hn Hres|n M r m Hn];
    cbn [hp_holders hp_others hp_memory] in *.
  - destruct (default_ok h Hh) as [Hex Hz]. rewrite map_sum_insert by done.
    split; [done|]. split; [by apply map_Forall_insert_2|]. lia.
  - pose proof (He i h Hi) as Hex.
    pose proof (held_sum_nonneg _ (map_Forall_delete _ _ i He)) as Hrest.
    rewrite (map_sum_delete held M i h Hi) in Hm.
    destruct (keeps_op o h m (r + map_sum held (delete i M))) as [(_ & Hm' & Hex') Hw].
    { split; [lia|]. split; [cbn; lia|done]. }
    cbn [hd_bytes any_holder] in Hm'. rewrite (map_sum_replace held M i h _ Hi).
    rewrite (map_sum_delete held M i h Hi). unfold within in Hw.
    split; [done|]. split; [by apply map_Forall_insert_2|]. lia.
  - pose proof (held_sum_nonneg _ (map_Forall_delete _ _ i He)) as Hrest.
    destruct (He i h Hi) as (_ & Hpos & _). cbn [hd_bytes any_holder] in Hpos.
    rewrite (map_sum_delete held M i h Hi) in Hm.
    rewrite release_memory_spec by lia. split; [done|]. split; [by apply map_Forall_delete|]. lia.
  - unfold reserve_memory in Hres. destruct (_ && _) eqn:E; [|done]. injection Hres as <-. zbool.
    cbn. split; [lia|]. split; [done|]. lia.
  - pose proof (held_sum_nonneg M He). rewrite release_memory_spec by lia.
    split; [lia|]. split; [done|]. lia.
Qed.

Lemma heap_reachable_ok s s' : heap_ok s → rtc heap_step s s' → heap_ok s'.
Proof using Hsize. intros Hs Hr. revert Hs. induction Hr; [done|]. eauto using heap_step_ok. Qed.
End Heap.

Arguments HQueue {net}.
Arguments HStreams {net}.
Arguments HResponses {net}.

(** Memory is accounted for exactly. Starting without queues and under the ceiling, after any
    sequence of operations on any number of queues of the three kinds, of queues created and
    dropped, and of reservations and releases by the rest of the reader: the global counter is
    what the rest holds plus the sum of what the contents of the queues account for; every queue
    is charged for exactly its contents, holds at most its hundred requests and bodies of at most
    8192 bytes; and the counter never passes the ceiling. When every queue is gone, nothing of
    theirs is left charged. *)
Theorem memory_accounted {net : Type} (sizeof_request max_total : Z) (s s' : heap (net := net))
    (Hsize : 0 <= sizeof_request)
    (Hstart : hp_holders s = ∅ ∧ total (hp_memory s) = hp_others s ∧ 0 <= hp_others s <= max_total)
    (Hsteps : rtc (heap_step sizeof_request max_total) s s') :
  total (hp_memory s') = hp_others s' + map_sum (recount sizeof_request) (hp_holders s') ∧
  total (hp_memory s') <= max_total ∧
  (∀ i h, hp_holders s' !! i = Some h →
     held h = recount sizeof_request h ∧ limits sizeof_request h) ∧
  (hp_holders s' = ∅ → total (hp_memory s') = hp_others s').
Proof.
  destruct Hstart as (H1 & H2 & H3).
  assert (heap_ok sizeof_request max_total s) as Hs.
  { split; [lia|]. split; [rewrite H1; apply map_Forall_empty|].
    rewrite H1, map_sum_empty. lia. }
  destruct (heap_reachable_ok sizeof_request max_total Hsize s s' Hs Hsteps) as (Hr & He & Hm & Hmax).
  assert (map_sum held (hp_holders s') = map_sum (recount sizeof_request) (hp_holders s')) as Hsum.
  { clear -He. induction (hp_holders s') as [|i h M Hi IH] using map_ind;
      [by rewrite !map_sum_empty|]. apply map_Forall_insert in He as [[Hh _] HM]; [|done].
    rewrite !map_sum_insert by done. cbn in Hh. rewrite Hh, IH; done. }
  rewrite Hm, Hsum. split; [done|]. split; [lia|]. split.
  - intros i h Hi. destruct (He i h Hi) as (Hh & _ & Hl). done.
  - intros ->. rewrite map_sum_empty. lia.
Qed.

(** One connection queues a request under a ceiling of a million bytes. *)
Definition demo_parsed : ParsedRequest unit := {|
  pr_method := list_byte_of_string "GET"%string; pr_path := list_byte_of_string "/orders"%string;
  pr_host := None; pr_headers := []; pr_ts_ms := 5; pr_net_ctx := tt; pr_body := [] |}.

Definition demo_start : heap (net := unit) :=
  {| hp_holders := ∅; hp_others := 0;
     hp_memory := {| TOTAL_BUFFER_BYTES := 0; EVENTS_DROPPED := 0 |} |}.

Definition demo_queued : heap (net := unit) :=
  {| hp_holders := <[0 := HQueue {| pq_items := [demo_parsed]; pq_bytes := 594 |}]>
                     (<[0 := HQueue pq_default]> ∅);
     hp_others := 0;
     hp_memory := {| TOTAL_BUFFER_BYTES := 594; EVENTS_DROPPED := 0 |} |}.

Lemma memory_accounted_witness :
  rtc (heap_step 200 1000000) demo_start demo_queued ∧
  total (hp_memory demo_queued) = 594 ∧
  594 = 0 + map_sum (recount 200) (hp_holders demo_queued).
Proof.
  assert (rtc (heap_step 200 1000000) demo_start demo_queued) as Hr.
  { eapply rtc_l; [exact (heap_new 200 1000000 0 (HQueue pq_default) ∅ 0 _ eq_refl
      ltac:(by left))|]. apply rtc_once.
    exact (heap_op 200 1000000 0 (HQueue pq_default) (OpPush demo_parsed)
      (<[0 := HQueue pq_default]> ∅) 0
      {| TOTAL_BUFFER_BYTES := 0; EVENTS_DROPPED := 0 |} eq_refl). }
  split; [exact Hr|]. split; [reflexivity|].
  exact (proj1 (memory_accounted 200 1000000 demo_start demo_queued ltac:(lia)
    ltac:(cbn; repeat split; lia) Hr)).
Defined.
