(* ===== verification/Queues.v ===== *)
(** What the queues of the userspace reader give back, and in which order. *)

From S2P Require Import Prelude Pending.
From stdpp Require Import sorting.

#[local] Open Scope Z_scope.

Section Order.
Context {net : Type} (sizeof_request : Z).

Notation ParsedRequest := (ParsedRequest net).

Definition usable (r : ParsedRequest) : bool := is_usable_http_request (pr_method r) (pr_path r).

Lemma push_items (req : ParsedRequest) max q m :
  let '(ok, q', m') := pq_push sizeof_request req max q m in
  pq_items q' = pq_items q ++ (if ok then [truncate_body req] else []) ∧
  EVENTS_DROPPED m' = (if ok then EVENTS_DROPPED m else u64 (EVENTS_DROPPED m + 1)).
Proof.
  unfold pq_push, pb_add, reserve_memory. destruct (_ <=? _); [by rewrite app_nil_r|].
  destruct (_ && _); cbn; [done|by rewrite app_nil_r].
Qed.

Lemma pop_items (items : list ParsedRequest) pb m :
  let '(o, q', _) := pop_usable_from sizeof_request items pb m in
  ∃ junk, Forall (fun r => usable r = false) junk ∧
    match o with
    | Some r => usable r = true ∧ items = junk ++ r :: pq_items q'
    | None => items = junk ∧ pq_items q' = []
    end.
Proof.
  revert pb m. induction items as [|r items IH]; intros pb m; cbn [pop_usable_from].
  - exists []. by split.
  - destruct (pb_sub _ _ _) as [pb' m']. fold (usable r). destruct (usable r) eqn:E.
    + exists []. by split.
    + specialize (IH pb' m'). destruct (pop_usable_from _ _ _ _) as [[o q'] m2].
      destruct IH as (junk & Hj & Ho). exists (r :: junk). split; [by apply Forall_cons_2|].
      destruct o; [destruct Ho as [H1 ->]|destruct Ho as [-> H1]]; done.
Qed.

Lemma expire_items now ttl (items : list ParsedRequest) pb m :
  let '(out, q', _) := expire_from sizeof_request now ttl items pb m in
  items = out ++ pq_items q' ∧ Forall (fun r => stale now ttl r = true) out ∧
  ∀ r rest, pq_items q' = r :: rest → stale now ttl r = false.
Proof.
  revert pb m. induction items as [|r items IH]; intros pb m; cbn [expire_from]; [done|].
  destruct (stale now ttl r) eqn:E.
  - destruct (pb_sub _ _ _) as [pb' m']. specialize (IH pb' m').
    destruct (expire_from _ _ _ _ _ _) as [[out q'] m2]. destruct IH as (-> & H1 & H2).
    split; [done|]. split; [by apply Forall_cons_2|done].
  - split; [done|]. split; [done|]. by intros ? ? [= <- _].
Qed.

Lemma stale_always now r : stale (net := net) now 0 r = true.
Proof. unfold stale, saturating_sub. lia. Qed.

Lemma remove_all_map ids (p : PendingStreams net) m :
  NoDup ids → (∀ id, id ∈ ids → is_Some (ps_map p !! id)) →
  let '(out, p', _) := ps_remove_all sizeof_request ids p m in
  Some <$> out = (fun id => ps_map p !! id) <$> ids ∧
  ∀ id, ps_map p' !! id = if decide (id ∈ ids) then None else ps_map p !! id.
Proof.
  intros Hnd. revert p m. induction Hnd as [|id ids Hid Hnd IH]; intros p m Hsome;
    cbn [ps_remove_all]; [done|].
  destruct (Hsome id ltac:(by left)) as [r Hr]. unfold ps_remove. rewrite Hr.
  destruct (pb_sub _ _ _) as [pb m1]. set (p1 := {| ps_map := _; ps_bytes := pb |}).
  assert (∀ i, i ∈ ids → ps_map p1 !! i = ps_map p !! i) as Hsame.
  { intros i Hi. apply lookup_delete_ne. by intros ->. }
  specialize (IH p1 m1). destruct (ps_remove_all _ ids p1 m1) as [[out p'] m2].
  destruct IH as [Hout Hmap].
  { intros i Hi. rewrite Hsame by done. apply Hsome. by right. }
  split.
  - rewrite !fmap_cons, Hr, Hout. f_equal. apply list_fmap_ext. intros k i Hk. apply Hsame.
    by eapply list_elem_of_lookup_2.
  - intros i. rewrite Hmap. destruct (decide (i ∈ ids)) as [Hi|Hi].
    + by rewrite decide_True by by right.
    + destruct (decide (i = id)) as [->|Hne].
      * rewrite decide_True by by left. apply lookup_delete_eq.
      * rewrite decide_False by (intros [?|?]%elem_of_cons; done). by apply lookup_delete_ne.
Qed.

Lemma stale_ids_spec now ttl (p : PendingStreams net) id :
  id ∈ stale_ids now ttl p ↔ ∃ r, ps_map p !! id = Some r ∧ stale now ttl r = true.
Proof.
  unfold stale_ids. rewrite (merge_sort_Permutation Z.le), list_elem_of_fmap. split.
  - intros ([i r] & -> & Hin). apply list_elem_of_filter in Hin as [Hs Hin].
    apply elem_of_map_to_list in Hin. by exists r.
  - intros (r & Hr & Hs). exists (id, r). split; [done|]. apply list_elem_of_filter.
    split; [done|]. by apply elem_of_map_to_list.
Qed.

Lemma stale_ids_NoDup now ttl p : NoDup (stale_ids (net := net) now ttl p).
Proof.
  unfold stale_ids. rewrite (merge_sort_Permutation Z.le). apply NoDup_fmap_fst.
  - intros i r r' Hr Hr'. apply list_elem_of_filter in Hr as [_ Hr], Hr' as [_ Hr'].
    apply elem_of_map_to_list in Hr, Hr'. congruence.
  - apply NoDup_filter, NoDup_map_to_list.
Qed.
End Order.

(** A queued request leaves its queue once, and in order. A push appends the request with its
    body cut to 8192 bytes, or leaves the queue as it was and counts a drop. A pop returns the
    oldest usable request and discards only unusable ones before it. An expiry takes the longest
    prefix of requests that have waited [ttl_ms], oldest first; taking everything takes everything
    in order. On HTTP/2 an expiry takes exactly the requests that have waited [ttl_ms], in
    ascending order of stream, and leaves the others as they were. *)
Theorem requests_leave_in_order {net : Type} (sizeof_request : Z) (q : PendingQueue net)
    (p : PendingStreams net) (m : memory) :
  (∀ req max_total,
     let '(ok, q', m') := pq_push sizeof_request req max_total q m in
     pq_items q' = pq_items q ++ (if ok then [truncate_body req] else []) ∧
     EVENTS_DROPPED m' = (if ok then EVENTS_DROPPED m else u64 (EVENTS_DROPPED m + 1))) ∧
  (let '(o, q', _) := pq_pop_usable sizeof_request q m in
   ∃ junk, Forall (fun r => usable r = false) junk ∧
     match o with
     | Some r => usable r = true ∧ pq_items q = junk ++ r :: pq_items q'
     | None => pq_items q = junk ∧ pq_items q' = []
     end) ∧
  (∀ now_ms ttl_ms,
     let '(out, q', _) := pq_expire_take sizeof_request now_ms ttl_ms q m in
     pq_items q = out ++ pq_items q' ∧ Forall (fun r => stale now_ms ttl_ms r = true) out ∧
     ∀ r rest, pq_items q' = r :: rest → stale now_ms ttl_ms r = false) ∧
  (let '(out, q', _) := pq_take_all sizeof_request q m in out = pq_items q ∧ pq_items q' = []) ∧
  (∀ now_ms ttl_ms,
     let '(out, p', _) := ps_expire_take sizeof_request now_ms ttl_ms p m in
     ∃ ids, Sorted Z.le ids ∧ Some <$> out = (fun id => ps_map p !! id) <$> ids ∧
       (∀ id, id ∈ ids ↔ ∃ r, ps_map p !! id = Some r ∧ stale now_ms ttl_ms r = true) ∧
       ∀ id, ps_map p' !! id = if decide (id ∈ ids) then None else ps_map p !! id).
Proof.
  split; [intros; apply push_items|]. split; [apply pop_items|].
  split; [intros; apply expire_items|]. split.
  - pose proof (expire_items sizeof_request (2 ^ 64 - 1) 0 (pq_items q) (pq_bytes q) m) as He.
    unfold pq_take_all, pq_expire_take. destruct (expire_from _ _ _ _ _ _) as [[out q'] m'].
    destruct He as (H1 & _ & H2). destruct (pq_items q') as [|r rest].
    + by rewrite app_nil_r in H1.
    + specialize (H2 r rest eq_refl). by rewrite stale_always in H2.
  - intros now ttl. pose proof (remove_all_map sizeof_request (stale_ids now ttl p) p m) as Hr.
    unfold ps_expire_take. destruct (ps_remove_all _ _ _ _) as [[out p'] m'].
    destruct Hr as [Hout Hmap]; [apply stale_ids_NoDup| |].
    { intros id Hid. apply stale_ids_spec in Hid as (r & Hr & _). by exists r. }
    exists (stale_ids now ttl p). split; [apply Sorted_merge_sort, _|].
    split; [done|]. split; [apply stale_ids_spec|done].
Qed.
