(* ===== verification/Text.v ===== *)
(** Strings of the userspace reader: what the Rust code uses of [str], [String] and the number
    parsers of its standard library.

    A [str] is kept as its UTF-8 bytes and worked on as the list of its characters ([chars]), each
    a code point. [from_utf8] and [from_utf8_lossy] split a byte string the way the standard
    library does, into characters and maximal invalid parts. White space is the White_Space
    property of Unicode, written out. The lower case of characters beyond ASCII is a parameter. *)

From S2P Require Import Prelude.
From S2P Require Import Pending.
From Stdlib Require Import Strings.String.

#[local] Notation length := List.length.

#[local] Open Scope list_scope.
#[local] Open Scope Z_scope.

(** The bytes and the characters of a literal of the source. *)
Notation lit s := (list_byte_of_string s%string).
Notation clit s := (byte_val <$> list_byte_of_string s%string).

(** A big-endian integer. *)
Definition be_val (bs : bytes) : Z := foldl (fun n b => n * 256 + byte_val b) 0 bs.

(** * UTF-8 *)

Inductive utf8_item := Char (c : Z) | Bad (n : Z).

Definition between (lo hi : Z) (b : byte) : bool := (lo <=? byte_val b) && (byte_val b <=? hi).

Definition is_cont : byte → bool := between 128 191.

(** The second byte a three- or four-byte character may have. *)
Definition second_of_3 (b0 : byte) : byte → bool :=
  if byte_val b0 =? 224 then between 160 191
  else if byte_val b0 =? 237 then between 128 159 else is_cont.

Definition second_of_4 (b0 : byte) : byte → bool :=
  if byte_val b0 =? 240 then between 144 191
  else if byte_val b0 =? 244 then between 128 143 else is_cont.

Definition char_2 (b0 b1 : byte) : Z := (byte_val b0 - 192) * 64 + (byte_val b1 - 128).

Definition char_3 (b0 b1 b2 : byte) : Z :=
  (byte_val b0 - 224) * 4096 + (byte_val b1 - 128) * 64 + (byte_val b2 - 128).

Definition char_4 (b0 b1 b2 b3 : byte) : Z :=
  (byte_val b0 - 240) * 262144 + (byte_val b1 - 128) * 4096 + (byte_val b2 - 128) * 64 +
  (byte_val b3 - 128).

(** The characters of a byte string; a part that starts none is [Bad] with its length. *)
Fixpoint utf8_items (b : bytes) : list utf8_item :=
  match b with
  | [] => []
  | b0 :: t0 =>
      if between 0 127 b0 then Char (byte_val b0) :: utf8_items t0
      else if between 194 223 b0 then
        match t0 with
        | b1 :: t1 =>
            if is_cont b1 then Char (char_2 b0 b1) :: utf8_items t1 else Bad 1 :: utf8_items t0
        | [] => [Bad 1]
        end
      else if between 224 239 b0 then
        match t0 with
        | b1 :: t1 =>
            if second_of_3 b0 b1 then
              match t1 with
              | b2 :: t2 =>
                  if is_cont b2 then Char (char_3 b0 b1 b2) :: utf8_items t2
                  else Bad 2 :: utf8_items t1
              | [] => [Bad 2]
              end
            else Bad 1 :: utf8_items t0
        | [] => [Bad 1]
        end
      else if between 240 244 b0 then
        match t0 with
        | b1 :: t1 =>
            if second_of_4 b0 b1 then
              match t1 with
              | b2 :: t2 =>
                  if is_cont b2 then
                    match t2 with
                    | b3 :: t3 =>
                        if is_cont b3 then Char (char_4 b0 b1 b2 b3) :: utf8_items t3
                        else Bad 3 :: utf8_items t2
                    | [] => [Bad 3]
                    end
                  else Bad 2 :: utf8_items t1
              | [] => [Bad 2]
              end
            else Bad 1 :: utf8_items t0
        | [] => [Bad 1]
        end
      else Bad 1 :: utf8_items t0
  end.

Definition item_char (i : utf8_item) : option Z :=
  match i with Char c => Some c | Bad _ => None end.

(** [std::str::from_utf8]: the characters, when every byte belongs to one. *)
Definition from_utf8 (b : bytes) : option (list Z) := mapM item_char (utf8_items b).

(** [String::from_utf8_lossy]: U+FFFD for an invalid part. *)
Definition from_utf8_lossy (b : bytes) : list Z :=
  (fun i => default 65533 (item_char i)) <$> utf8_items b.

Definition encode_char (c : Z) : bytes :=
  byte_of_Z <$>
  (if c <? 128 then [c]
   else if c <? 2048 then [192 + c / 64; 128 + c mod 64]
   else if c <? 65536 then [224 + c / 4096; 128 + c / 64 mod 64; 128 + c mod 64]
   else [240 + c / 262144; 128 + c / 4096 mod 64; 128 + c / 64 mod 64; 128 + c mod 64]).

(** The bytes of a string with these characters. *)
Definition utf8 (cs : list Z) : bytes := mjoin (encode_char <$> cs).

(** * Characters *)

(** [char::is_whitespace]. *)
Definition is_whitespace (c : Z) : bool :=
  ((9 <=? c) && (c <=? 13)) || (c =? 32) || (c =? 133) || (c =? 160) || (c =? 5760) ||
  ((8192 <=? c) && (c <=? 8202)) || (c =? 8232) || (c =? 8233) || (c =? 8239) || (c =? 8287) ||
  (c =? 12288).

Definition ascii_lower (c : Z) : Z := if (65 <=? c) && (c <=? 90) then c + 32 else c.

Definition to_ascii_lowercase (s : list Z) : list Z := ascii_lower <$> s.

Definition is_ascii (c : Z) : Prop := 0 <= c < 128.

(** [str::to_lowercase] follows the tables of Unicode; on ASCII it is [to_ascii_lowercase]. *)
Class Unicode := {
  to_lowercase : list Z → list Z;
  to_lowercase_ascii s : Forall is_ascii s → to_lowercase s = to_ascii_lowercase s
}.

(** * Strings *)

Fixpoint trim_start (s : list Z) : list Z :=
  match s with
  | c :: s' => if is_whitespace c then trim_start s' else s
  | [] => []
  end.

Definition trim (s : list Z) : list Z := reverse (trim_start (reverse (trim_start s))).

(** [split] on a one-character separator; never empty. *)
Fixpoint split_on (sep : Z) (s : list Z) : list (list Z) :=
  match s with
  | [] => [[]]
  | c :: s' =>
      if c =? sep then [] :: split_on sep s'
      else match split_on sep s' with
           | w :: ws => (c :: w) :: ws
           | [] => [[c]]
           end
  end.

(** [split("\r\n")]. *)
Fixpoint split_crlf (s : list Z) : list (list Z) :=
  match s with
  | [] => [[]]
  | c :: s' =>
      match s' with
      | c' :: s'' =>
          if (c =? 13) && (c' =? 10) then [] :: split_crlf s''
          else match split_crlf s' with
               | w :: ws => (c :: w) :: ws
               | [] => [[c]]
               end
      | [] => [[c]]
      end
  end.

(** [split_once] on a one-character separator. *)
Fixpoint split_once (sep : Z) (s : list Z) : option (list Z * list Z) :=
  match s with
  | [] => None
  | c :: s' =>
      if c =? sep then Some ([], s')
      else '(k, v) ← split_once sep s'; Some (c :: k, v)
  end.

(** [split_whitespace]: the maximal parts without white space. *)
Fixpoint split_whitespace (s : list Z) : list (list Z) :=
  match s with
  | [] => []
  | c :: s' =>
      if is_whitespace c then split_whitespace s'
      else match s' with
           | c' :: _ =>
               if is_whitespace c' then [c] :: split_whitespace s'
               else match split_whitespace s' with
                    | w :: ws => (c :: w) :: ws
                    | [] => [[c]]
                    end
           | [] => [[c]]
           end
  end.

Definition strip_prefix {A} `{EqDecision A} (p s : list A) : option (list A) :=
  if bool_decide (take (length p) s = p) then Some (drop (length p) s) else None.

Definition starts_with {A} `{EqDecision A} (p s : list A) : bool :=
  bool_decide (take (length p) s = p).

(** [buf.windows(n).position(|w| w == needle)] for a needle of [n] bytes, [n] positive. *)
Fixpoint find (needle s : bytes) : option nat :=
  if bool_decide (take (length needle) s = needle) then Some O
  else match s with [] => None | _ :: s' => S <$> find needle s' end.

(** * Numbers *)

Definition digit (radix c : Z) : option Z :=
  let d := if (48 <=? c) && (c <=? 57) then c - 48
           else if (97 <=? c) && (c <=? 122) then c - 87
           else if (65 <=? c) && (c <=? 90) then c - 55 else radix in
  if d <? radix then Some d else None.

Definition digits (radix : Z) (s : list Z) : option Z :=
  foldl (fun acc c => a ← acc; d ← digit radix c; Some (a * radix + d)) (Some 0) s.

(** [from_str_radix] of an integer type with values [lo..hi]: a sign and at least one digit; ['-'] is
    a sign of the signed types only. *)
Definition from_str_radix (lo hi radix : Z) (s : list Z) : option Z :=
  let '(negative, ds) :=
    match s with
    | 43 :: ds => (false, ds)
    | 45 :: ds => if lo <? 0 then (true, ds) else (false, s)
    | _ => (false, s)
    end in
  if bool_decide (ds = []) then None else
  v ← digits radix ds;
  let v := if negative : bool then - v else v in
  if (lo <=? v) && (v <=? hi) then Some v else None.

Definition parse_u64 (s : list Z) : option Z := from_str_radix 0 (2 ^ 64 - 1) 10 s.
Definition parse_i32 (s : list Z) : option Z := from_str_radix (- 2 ^ 31) (2 ^ 31 - 1) 10 s.
Definition parse_hex_u64 (s : list Z) : option Z := from_str_radix 0 (2 ^ 64 - 1) 16 s.

(** * UTF-8 round trip *)

(** A Unicode scalar value: what a [char] holds. *)
Definition scalar (c : Z) : Prop := 0 <= c < 55296 ∨ 57344 <= c < 1114112.

Definition scalar_item (i : utf8_item) : Prop :=
  match i with Char c => scalar c | Bad _ => True end.

Lemma between_spec lo hi b : between lo hi b = true ↔ lo <= byte_val b <= hi.
Proof. unfold between. rewrite andb_true_iff, !Z.leb_le. done. Qed.

Lemma second_of_3_spec b0 b1 : second_of_3 b0 b1 = true →
  128 <= byte_val b1 <= 191 ∧ (byte_val b0 = 224 → 160 <= byte_val b1) ∧
  (byte_val b0 = 237 → byte_val b1 <= 159).
Proof.
  unfold second_of_3, is_cont. repeat case_match; zbool; rewrite between_spec; lia.
Qed.

Lemma second_of_4_spec b0 b1 : second_of_4 b0 b1 = true →
  128 <= byte_val b1 <= 191 ∧ (byte_val b0 = 240 → 144 <= byte_val b1) ∧
  (byte_val b0 = 244 → byte_val b1 <= 143).
Proof.
  unfold second_of_4, is_cont. repeat case_match; zbool; rewrite between_spec; lia.
Qed.

Lemma is_cont_spec b : is_cont b = true → 128 <= byte_val b <= 191.
Proof. apply between_spec. Qed.

(** Case analysis on the tests of [utf8_items]. *)
Ltac utf8_case :=
  match goal with
  | |- context [if between ?l ?h ?b then _ else _] =>
      let E := fresh in destruct (between l h b) eqn:E; [apply between_spec in E|clear E]
  | |- context [if second_of_3 ?a ?b then _ else _] =>
      let E := fresh in destruct (second_of_3 a b) eqn:E; [apply second_of_3_spec in E|clear E]
  | |- context [if second_of_4 ?a ?b then _ else _] =>
      let E := fresh in destruct (second_of_4 a b) eqn:E; [apply second_of_4_spec in E|clear E]
  | |- context [if is_cont ?b then _ else _] =>
      let E := fresh in destruct (is_cont b) eqn:E; [apply is_cont_spec in E|clear E]
  | |- context [match ?t with [] => _ | _ :: _ => _ end] => is_var t; destruct t
  end.

(** Bytes only ever decode to scalar values. *)
Lemma utf8_items_scalar b : Forall scalar_item (utf8_items b).
Proof.
  remember (length b) as n eqn:Hn. revert b Hn. induction n as [n IH] using lt_wf_ind.
  intros [|b0 t0] ->; [apply Forall_nil_2|]. cbn [utf8_items].
  repeat utf8_case; repeat apply Forall_cons_2; try apply Forall_nil_2; try done;
    try (eapply IH; [|reflexivity]; cbn [List.length]; lia);
    unfold scalar_item, scalar, char_2, char_3, char_4; lia.
Qed.

Lemma byte_val_small z : 0 <= z < 256 → byte_val (byte_of_Z z) = z.
Proof. intros Hz. by rewrite byte_val_of_Z, Z.mod_small. Qed.

Ltac div_lia := Z.to_euclidean_division_equations; lia.

(** Decide the next test of [utf8_items] on encoded bytes. *)
Ltac utf8_test :=
  match goal with
  | |- context [if ?t then _ else _] =>
      first
        [ assert (t = true) as -> by
            (unfold second_of_3, second_of_4, is_cont; rewrite ?byte_val_small by div_lia;
             repeat case_match; zbool; apply between_spec; rewrite byte_val_small; div_lia)
        | assert (t = false) as -> by
            (unfold between; rewrite byte_val_small by div_lia;
             apply andb_false_iff; rewrite !Z.leb_gt; div_lia) ]
  end.

Lemma utf8_items_encode c rest :
  scalar c → utf8_items (encode_char c ++ rest) = Char c :: utf8_items rest.
Proof.
  intros Hc. unfold scalar in Hc. unfold encode_char.
  destruct (Z.ltb_spec c 128); [|destruct (Z.ltb_spec c 2048); [|destruct (Z.ltb_spec c 65536)]];
    cbn [fmap list_fmap app utf8_items]; repeat utf8_test; f_equal; f_equal;
    unfold char_2, char_3, char_4; rewrite !byte_val_small; div_lia.
Qed.

Lemma utf8_items_app cs rest :
  Forall scalar cs → utf8_items (utf8 cs ++ rest) = (Char <$> cs) ++ utf8_items rest.
Proof.
  induction 1 as [|c cs Hc _ IH]; [done|]. cbn [fmap list_fmap app]. rewrite <- IH.
  unfold utf8. cbn [fmap list_fmap]. change (mjoin (?a :: ?l)) with (a ++ mjoin l).
  by rewrite <- app_assoc, utf8_items_encode.
Qed.

(** Encoding and decoding are inverse. *)
Lemma from_utf8_utf8 cs : Forall scalar cs → from_utf8 (utf8 cs) = Some cs.
Proof.
  intros Hcs. unfold from_utf8. rewrite <- (app_nil_r (utf8 cs)), utf8_items_app by done.
  cbn [utf8_items]. rewrite app_nil_r. induction cs as [|c cs IH]; [done|].
  cbn. inversion Hcs. by rewrite IH.
Qed.

Lemma from_utf8_lossy_app cs rest :
  Forall scalar cs → from_utf8_lossy (utf8 cs ++ rest) = cs ++ from_utf8_lossy rest.
Proof.
  intros Hcs. unfold from_utf8_lossy. rewrite utf8_items_app, fmap_app by done. f_equal.
  rewrite <- list_fmap_compose. apply list_fmap_id.
Qed.

Lemma from_utf8_scalar b cs : from_utf8 b = Some cs → Forall scalar cs.
Proof.
  unfold from_utf8. pose proof (utf8_items_scalar b) as Hs. revert cs Hs.
  induction (utf8_items b) as [|i l IH]; intros cs Hs Hm.
  - cbn in Hm. injection Hm as <-. apply Forall_nil_2.
  - cbn in Hm. apply bind_Some in Hm as (c & Hi & (cs' & Hm & [= <-])%bind_Some).
    inversion Hs as [|? ? Hc Hl]; subst. apply Forall_cons_2; [|by apply IH].
    destruct i; [|done]. by injection Hi as <-.
Qed.

(** Lower case of ASCII alone, where a theorem is applied to an example. *)
Definition ascii_only : Unicode :=
  {| to_lowercase := to_ascii_lowercase; to_lowercase_ascii _ _ := eq_refl |}.
