(* ===== verification/Http1.v ===== *)
(** The incremental HTTP/1 decoder of [userspace/src/http.rs]: [parse_head], [body_framing] and
    [Http1Decoder], one per direction of a connection.

    A header map is a list in iteration order, as in [Pending]. The loop of [feed] is [feed_loop],
    one round of it [feed_step]; [Http1Props.feed_loop_enough] shows that the fuel
    [feed] starts it with is enough. *)

From S2P Require Import Prelude.
From S2P Require Import Pending Text.
From Stdlib Require Import Strings.String.

#[local] Notation length := List.length.

#[local] Open Scope list_scope.
#[local] Open Scope Z_scope.

Inductive result (A : Type) := Ok (a : A) | Err (reason : string).
Arguments Ok {A} a.
Arguments Err {A} reason.

#[export] Instance result_ret : MRet result := @Ok.
#[export] Instance result_bind : MBind result := fun A B f r =>
  match r with Ok a => f a | Err e => Err e end.

Definition ok_or {A} (reason : string) (o : option A) : result A :=
  match o with Some a => Ok a | None => Err reason end.

Notation headers := (list (bytes * bytes)).

(** * Messages *)

Record HttpRequestParsed := {
  rq_method : bytes;
  rq_path : bytes;
  rq_host : option bytes;
  rq_headers : headers;
  rq_body : bytes
}.

Record HttpResponseParsed := {
  rs_status_code : Z;
  rs_headers : headers;
  rs_body : bytes
}.

#[export] Instance HttpRequestParsed_fields : Fields HttpRequestParsed := fun r =>
  Build_HttpRequestParsed (rq_method r) (rq_path r) (rq_host r) (rq_headers r) (rq_body r).

#[export] Instance HttpResponseParsed_fields : Fields HttpResponseParsed := fun r =>
  Build_HttpResponseParsed (rs_status_code r) (rs_headers r) (rs_body r).

Inductive HttpMessage :=
| Request (r : HttpRequestParsed)
| Response (r : HttpResponseParsed).

Record Http1Message := {
  hm_msg : HttpMessage;
  hm_body_total : Z;
  hm_body_truncated : bool;
  hm_partial : bool
}.

#[export] Instance Http1Message_fields : Fields Http1Message := fun m =>
  Build_Http1Message (hm_msg m) (hm_body_total m) (hm_body_truncated m) (hm_partial m).

Inductive Http1Item :=
| Message (m : Http1Message)
| Invalid (reason : string).

Inductive Body :=
| Fixed (remaining : Z)
| ChunkSize
| ChunkData (remaining : Z)
| ChunkCrlf
| Trailers.

Inductive Http1State :=
| Head
| InBody (pending : Http1Message) (body : Body)
| Upgraded
| UntilClose.

Inductive Framing := FNone | FFixed (n : Z) | FChunked | FUntilClose | FUpgrade.

Definition MAX_HTTP1_HEADER_BYTES : Z := 64 * 1024.
Definition MAX_CHUNK_LINE : Z := 1024.

Definition CRLF : bytes := [x0d; x0a].

Definition body_of (msg : HttpMessage) : bytes :=
  match msg with Request r => rq_body r | Response r => rs_body r end.

Definition body_len (msg : HttpMessage) : Z := zlen (body_of msg).

Definition append_body (msg : HttpMessage) (bs : bytes) : HttpMessage :=
  match msg with
  | Request r => Request (r <| rq_body := rq_body r ++ bs |>)
  | Response r => Response (r <| rs_body := rs_body r ++ bs |>)
  end.

Definition headers_of (msg : HttpMessage) : headers :=
  match msg with Request r => rq_headers r | Response r => rs_headers r end.

Definition set_headers (hs : headers) (msg : HttpMessage) : HttpMessage :=
  match msg with
  | Request r => Request (r <| rq_headers := hs |>)
  | Response r => Response (r <| rs_headers := hs |>)
  end.

(** * Header fields *)

Fixpoint header_get (k : bytes) (hs : headers) : option bytes :=
  match hs with
  | [] => None
  | (k', v) :: hs' => if bool_decide (k = k') then Some v else header_get k hs'
  end.

(** The value of a known name gets longer, a new name is added. *)
Fixpoint header_push (sep k v : bytes) (hs : headers) : headers :=
  match hs with
  | [] => [(k, v)]
  | (k', old) :: hs' =>
      if bool_decide (k = k') then (k', old ++ sep ++ v) :: hs'
      else (k', old) :: header_push sep k v hs'
  end.

(** [entry(k).or_insert(v)]. *)
Definition header_or_insert (k v : bytes) (hs : headers) : headers :=
  match header_get k hs with Some _ => hs | None => hs ++ [(k, v)] end.

Section Http1.
Context `{Unicode}.

(** Name and value of a field line. *)
Definition header_field (line : list Z) : option (bytes * bytes) :=
  '(k, v) ← split_once 58 line;
  Some (utf8 (to_lowercase (trim k)), utf8 (trim v)).

Definition header_sep (k : bytes) : bytes :=
  if bool_decide (k = lit "set-cookie") then [x0a] else lit ", ".

Definition add_header_line (hs : headers) (line : list Z) : headers :=
  match header_field line with
  | Some (k, v) => header_push (header_sep k) k v hs
  | None => hs
  end.

(** The loop of [parse_headers] stops at the first empty line. *)
Fixpoint parse_headers_from (hs : headers) (lines : list (list Z)) : headers :=
  match lines with
  | [] => hs
  | [] :: _ => hs
  | line :: lines' => parse_headers_from (add_header_line hs line) lines'
  end.

Definition parse_headers : list (list Z) → headers := parse_headers_from [].

(** * Framing *)

(** The loop over the elements of [content-length]. *)
Fixpoint content_length_from (value : option Z) (parts : list (list Z)) : result Framing :=
  match parts with
  | [] => Ok (FFixed (default 0 value))
  | part :: parts' =>
      n ← ok_or "invalid content-length" (parse_u64 (trim part));
      match value with
      | Some v => if v =? n then content_length_from (Some n) parts'
                  else Err "conflicting content-length"
      | None => content_length_from (Some n) parts'
      end
  end.

(** The characters of a stored value: the reader only stores what it decoded. *)
Definition chars (s : bytes) : list Z := from_utf8_lossy s.

Definition body_framing (hs : headers) (is_request : bool) : result Framing :=
  let te := header_get (lit "transfer-encoding") hs in
  let cl := header_get (lit "content-length") hs in
  match te, cl with
  | Some _, Some _ => Err "both transfer-encoding and content-length"
  | Some te, None =>
      let lst := to_ascii_lowercase (trim (default [] (reverse (split_on 44 (chars te)) !! 0%nat))) in
      if bool_decide (lst = clit "chunked") then Ok FChunked
      else if is_request then Err "request transfer-encoding without final chunked"
      else Ok FUntilClose
  | None, Some cl => content_length_from None (split_on 44 (chars cl))
  | None, None => Ok (if is_request then FNone else FUntilClose)
  end.

Definition in_range (lo hi s : Z) : bool := (lo <=? s) && (s <? hi).

Definition parse_status_line (rest : list Z) (lines : list (list Z)) (to_head to_connect : bool)
    : result (HttpMessage * Framing) :=
  status ← ok_or "bad status line" (split_whitespace rest !! 1%nat ≫= parse_i32);
  if negb (in_range 100 1000 status) then Err "bad status code" else
  let hs := parse_headers lines in
  framing ←
    (if (status =? 101) || (to_connect && in_range 200 300 status) then Ok FUpgrade
     else if in_range 100 200 status || (status =? 204) || (status =? 304) || to_head then Ok FNone
     else body_framing hs false);
  Ok (Response {| rs_status_code := status; rs_headers := hs; rs_body := [] |}, framing).

Definition parse_request_line (first : list Z) (lines : list (list Z))
    : result (HttpMessage * Framing) :=
  let parts := split_whitespace first in
  let method := utf8 (default [] (parts !! 0%nat)) in
  path ← ok_or "missing request target" (parts !! 1%nat);
  let version := default [] (parts !! 2%nat) in
  if negb (is_http_method method) || negb (starts_with (clit "HTTP/1.") version)
  then Err "not an HTTP/1 request line" else
  let hs := parse_headers lines in
  framing ← body_framing hs true;
  Ok (Request {| rq_method := method; rq_path := utf8 path;
                 rq_host := header_get (lit "host") hs; rq_headers := hs; rq_body := [] |},
      framing).

Definition parse_head (head : bytes) (to_head to_connect : bool) : result (HttpMessage * Framing) :=
  text ← ok_or "non-UTF-8 header block" (from_utf8 head);
  let lines := split_crlf text in
  let first := default [] (lines !! 0%nat) in
  match strip_prefix (clit "HTTP/") first with
  | Some rest => parse_status_line rest (drop 1 lines) to_head to_connect
  | None => parse_request_line first (drop 1 lines)
  end.

(** * The decoder *)

(** Number and first [remaining] of the bytes at hand. *)
Definition preview (cap : Z) (m : Http1Message) (bs : bytes) : Http1Message :=
  let room := saturating_sub cap (body_len (hm_msg m)) in
  let n := Z.min (zlen bs) room in
  m <| hm_body_total := Z.min (2 ^ 64 - 1) (hm_body_total m + zlen bs) |>
    <| hm_msg := append_body (hm_msg m) (ztake n bs) |>
    <| hm_body_truncated := hm_body_truncated m || (n <? zlen bs) |>.

Definition add_trailer (line : bytes) (m : Http1Message) : Http1Message :=
  match from_utf8 line ≫= header_field with
  | Some (k, v) => m <| hm_msg := set_headers (header_or_insert k v (headers_of (hm_msg m))) (hm_msg m) |>
  | None => m
  end.

(** How a round of the loop ends: it goes on behind [n] bytes, it returns [pos] behind [n] bytes, or
    it returns [buf.len()]. *)
Inductive outcome :=
| Next (st : Http1State) (n : Z) (out : list Http1Item)
| Wait (st : Http1State) (n : Z)
| Stop (st : Http1State) (out : list Http1Item).

Section Decoder.
Context (cap : Z) (to_head to_connect : bool).

Definition head_step (rest : bytes) : outcome :=
  match find (CRLF ++ CRLF) rest with
  | None =>
      if MAX_HTTP1_HEADER_BYTES <? zlen rest then Stop Head [Invalid "header block too large"]
      else Wait Head 0
  | Some e =>
      let n := Z.of_nat e + 4 in
      match parse_head (ztake n rest) to_head to_connect with
      | Err reason => Stop Head [Invalid reason]
      | Ok (msg, framing) =>
          let pending := {| hm_msg := msg; hm_body_total := 0; hm_body_truncated := false;
                            hm_partial := false |} in
          match framing with
          | FNone => Next Head n [Message pending]
          | FUpgrade => Stop Upgraded [Message pending]
          | FFixed 0 => Next Head n [Message pending]
          | FFixed k => Next (InBody pending (Fixed k)) n []
          | FChunked => Next (InBody pending ChunkSize) n []
          | FUntilClose =>
              let body := zdrop n rest in
              let take := Z.min (zlen body) cap in
              let m := pending <| hm_msg := append_body msg (ztake take body) |>
                               <| hm_body_total := zlen body |>
                               <| hm_body_truncated := take <? zlen body |>
                               <| hm_partial := true |> in
              Stop UntilClose [Message m]
          end
      end
  end.

(** [size_line] reads the size off a chunk-size line. *)
Definition size_line (line : bytes) : option Z :=
  let hex := trim (default [] (split_on 59 (default [] (from_utf8 line)) !! 0%nat)) in
  size ← parse_hex_u64 hex;
  if negb (bool_decide (hex = [])) && (zlen (utf8 hex) <=? 16) then Some size else None.

Definition body_step (pending : Http1Message) (body : Body) (rest : bytes) : outcome :=
  match body with
  | Fixed remaining =>
      let take := Z.min (zlen rest) remaining in
      let pending := preview cap pending (ztake take rest) in
      let left := remaining - take in
      if left =? 0 then Next Head take [Message pending]
      else Wait (InBody pending (Fixed left)) take
  | ChunkSize =>
      match find CRLF rest with
      | None =>
          if MAX_CHUNK_LINE <? zlen rest then Stop Head [Invalid "chunk size line too long"]
          else Wait (InBody pending ChunkSize) 0
      | Some eol =>
          match size_line (take eol rest) with
          | None => Stop Head [Invalid "bad chunk size"]
          | Some size =>
              Next (InBody pending (if size =? 0 then Trailers else ChunkData size))
                (Z.of_nat eol + 2) []
          end
      end
  | ChunkData remaining =>
      let take := Z.min (zlen rest) remaining in
      let pending := preview cap pending (ztake take rest) in
      let left := remaining - take in
      if left =? 0 then Next (InBody pending ChunkCrlf) take []
      else Wait (InBody pending (ChunkData left)) take
  | ChunkCrlf =>
      if zlen rest <? 2 then Wait (InBody pending ChunkCrlf) 0
      else if bool_decide (take 2 rest = CRLF) then Next (InBody pending ChunkSize) 2 []
      else Stop Head [Invalid "missing CRLF after chunk"]
  | Trailers =>
      match find CRLF rest with
      | None =>
          if MAX_HTTP1_HEADER_BYTES <? zlen rest then Stop Head [Invalid "trailers too large"]
          else Wait (InBody pending Trailers) 0
      | Some O => Next Head 2 [Message pending]
      | Some eol =>
          Next (InBody (add_trailer (take eol rest) pending) Trailers) (Z.of_nat eol + 2) []
      end
  end.

Definition feed_step (st : Http1State) (rest : bytes) : outcome :=
  match st with
  | Upgraded => Stop Upgraded []
  | UntilClose => Stop UntilClose []
  | Head => head_step rest
  | InBody pending body => body_step pending body rest
  end.

(** Bytes consumed, items, state. *)
Definition fed : Type := Z * list Http1Item * Http1State.

(** After [n] bytes and the items [out]. *)
Definition after (n : Z) (out : list Http1Item) (r : fed) : fed :=
  let '(k, items, st) := r in (n + k, out ++ items, st).

Definition is_head (st : Http1State) : bool := match st with Head => true | _ => false end.

Fixpoint feed_loop (fuel : nat) (st : Http1State) (rest : bytes) : option fed :=
  match fuel with
  | O => None
  | S fuel =>
      match feed_step st rest with
      | Stop st out => Some (zlen rest, out, st)
      | Wait st n => Some (n, [], st)
      | Next st n out =>
          let rest := zdrop n rest in
          if (zlen rest =? 0) && is_head st then Some (n, out, st)
          else after n out <$> feed_loop fuel st rest
      end
  end.

(** Twice the bytes, and the rounds of a body without a byte left. *)
Definition feed_fuel (rest : bytes) : nat := 2 * length rest + 2.
End Decoder.

Record Http1Decoder := { h1_state : Http1State; h1_preview_cap : Z }.

Definition Http1Decoder_new (preview_cap : Z) : Http1Decoder :=
  {| h1_state := Head; h1_preview_cap := preview_cap |}.

Definition is_idle (d : Http1Decoder) : bool := is_head (h1_state d).

Definition is_upgraded (d : Http1Decoder) : bool :=
  match h1_state d with Upgraded | UntilClose => true | _ => false end.

(** [None] would be a loop that does not end; [Http1Props.feed_loop_enough] excludes it. *)
Definition feed (d : Http1Decoder) (buf : bytes) (to_head to_connect : bool)
    : option (Z * list Http1Item * Http1Decoder) :=
  '(n, items, st) ←
    feed_loop (h1_preview_cap d) to_head to_connect (feed_fuel buf) (h1_state d) buf;
  Some (n, items, {| h1_state := st; h1_preview_cap := h1_preview_cap d |}).

(** The reads of one direction, decoded as they come: each is appended to what the decoder left. *)
Fixpoint decode_reads (d : Http1Decoder) (buf : bytes) (reads : list bytes)
    (to_head to_connect : bool) : option (list Http1Item * bytes * Http1Decoder) :=
  match reads with
  | [] => Some ([], buf, d)
  | payload :: reads' =>
      let buf := buf ++ payload in
      '(consumed, items, d) ← feed d buf to_head to_connect;
      '(items', buf, d) ← decode_reads d (zdrop consumed buf) reads' to_head to_connect;
      Some (items ++ items', buf, d)
  end.
End Http1.
