(* ===== verification/Http1Props.v ===== *)
(** Properties of the HTTP/1 decoder ([Http1]): it ends, it does not depend on how its bytes are cut
    into reads, what it keeps is bounded, bodies come back as they were framed, and ambiguous
    framing is refused. *)

From S2P Require Import Prelude.
From S2P Require Import Pending Memory Text Http1.
From Stdlib Require Import Strings.String.

#[local] Notation length := List.length.
#[local] Open Scope list_scope.
#[local] Open Scope Z_scope.

(** * Searching *)

Lemma find_bound needle s e : find needle s = Some e → (e + length needle <= length s)%nat.
Proof.
  revert e. induction s as [|x s IH]; intros e; cbn [find]; case_bool_decide as Hm.
  - intros [= <-]. rewrite <- Hm, length_take. cbn. lia.
  - done.
  - intros [= <-]. rewrite <- Hm, length_take. cbn [length]. lia.
  - destruct (find needle s) as [e'|]; [|done]. intros [= <-].
    specialize (IH e' eq_refl). cbn [length]. lia.
Qed.

(** A part found at the end of the bytes at hand stays where it is when more arrive. *)
Lemma find_app needle s s' e : find needle s = Some e → find needle (s ++ s') = Some e.
Proof.
  revert e. induction s as [|x s IH]; intros e; cbn [find].
  - case_bool_decide as Hm; [|done]. intros [= <-]. destruct needle; [|done].
    destruct s'; cbn; by rewrite bool_decide_eq_true_2.
  - assert (Hext : (length needle <= S (length s))%nat →
      take (length needle) ((x :: s) ++ s') = take (length needle) (x :: s))
      by (intros; apply take_app_le; done).
    cbn [app find]. case_bool_decide as Hm.
    + intros [= <-]. rewrite bool_decide_eq_true_2; [done|].
      cbn [app] in Hext. rewrite Hext; [done|]. rewrite <- Hm, length_take. cbn [length]. lia.
    + destruct (find needle s) as [e'|] eqn:E; [|done]. intros [= <-].
      rewrite (IH e') by done. pose proof (find_bound _ _ _ E).
      rewrite bool_decide_eq_false_2; [done|]. cbn [app] in Hext. rewrite Hext by lia. done.
Qed.

(** The part is where [find] says. *)
Lemma find_take needle s e : find needle s = Some e → take (length needle) (drop e s) = needle.
Proof.
  revert e. induction s as [|x s IH]; intros e; cbn [find]; case_bool_decide as Hm.
  - intros [= <-]. done.
  - done.
  - intros [= <-]. done.
  - destruct (find needle s) as [e'|]; [|done]. intros [= <-]. cbn. by apply IH.
Qed.

(** * Numbers read by the decoder are not negative *)

Lemma from_str_radix_range lo hi radix s v : from_str_radix lo hi radix s = Some v → lo <= v <= hi.
Proof.
  unfold from_str_radix.
  destruct (match s with 43 :: _ => _ | _ => _ end) as [negative ds].
  case_bool_decide; [done|]. intros (d & _ & Hd)%bind_Some.
  case_match; [|done]. zbool. injection Hd as <-. lia.
Qed.

Definition framing_wf (f : Framing) : Prop :=
  match f with FFixed n => 0 <= n | _ => True end.

Definition body_wf (b : Body) : Prop :=
  match b with Fixed n | ChunkData n => 0 <= n | _ => True end.

Definition state_wf (st : Http1State) : Prop :=
  match st with InBody _ b => body_wf b | _ => True end.

Lemma content_length_wf value parts f :
  0 <= default 0 value → content_length_from value parts = Ok f → framing_wf f.
Proof.
  revert value. induction parts as [|p ps IH]; intros value Hv; cbn [content_length_from].
  - by intros [= <-].
  - destruct (parse_u64 (trim p)) as [n|] eqn:E; cbn; [|done].
    apply from_str_radix_range in E. destruct value as [v|]; [case_match; [|done]|];
      apply IH; cbn; lia.
Qed.

Section Run.
Context `{Unicode} (cap : Z) (to_head to_connect : bool).

Notation feed_step := (feed_step cap to_head to_connect).
Notation feed_loop := (feed_loop cap to_head to_connect).

Lemma body_framing_wf hs req f : body_framing hs req = Ok f → framing_wf f.
Proof.
  unfold body_framing. intros Hf.
  destruct (header_get _ hs) as [te|], (header_get (lit "content-length") hs) as [cl|];
    try done.
  - repeat case_match; try done; by injection Hf as <-.
  - by apply content_length_wf in Hf.
  - injection Hf as <-. by case_match.
Qed.

Lemma parse_head_wf head msg f : parse_head head to_head to_connect = Ok (msg, f) → framing_wf f.
Proof.
  unfold parse_head. destruct (from_utf8 head) as [text|]; cbn; [|done].
  destruct (strip_prefix _ _) as [rest|].
  - unfold parse_status_line. destruct (_ ≫= parse_i32) as [s|]; cbn; [|done].
    case_match; [done|]. case_match; cbn; [by intros [= _ <-]|].
    case_match; cbn; [by intros [= _ <-]|].
    destruct (body_framing _ _) eqn:E; cbn; [|done]. intros [= _ <-]. by eapply body_framing_wf.
  - unfold parse_request_line. destruct (_ !! 1%nat) as [p|]; cbn; [|done].
    case_match; [done|]. destruct (body_framing _ _) eqn:E; cbn; [|done]. intros [= _ <-].
    by eapply body_framing_wf.
Qed.

(** * Every round makes progress *)

Definition weight (st : Http1State) : nat :=
  match st with InBody _ (Fixed _ | ChunkData _) => 1 | _ => 0 end.

Definition measure (st : Http1State) (rest : bytes) : nat := 2 * length rest + weight st.

Lemma feed_step_next st rest st' n out :
  state_wf st → feed_step st rest = Next st' n out →
  0 <= n <= zlen rest ∧ (measure st' (zdrop n rest) < measure st rest)%nat ∧ state_wf st'.
Proof.
  intros Hwf. unfold measure. pose proof (length_drop rest (Z.to_nat n)) as Hd.
  fold (zdrop n rest) in Hd. destruct st as [|m b| |]; cbn [Http1.feed_step]; try done.
  - unfold head_step. destruct (find _ rest) as [e|] eqn:E; [|by case_match].
    apply find_bound in E. cbn in E. unfold zlen.
    destruct (parse_head _ _ _) as [[msg f]|] eqn:Hp; [|done].
    apply parse_head_wf in Hp. destruct f as [|[]| | |]; try done; intros [= <- <- <-];
      cbn [weight state_wf body_wf]; split_and!; try done; try lia.
  - unfold body_step. unfold zlen in *. cbn in Hwf. destruct b as [r| |r| |]; cbn in Hwf.
    + case_match; [|done]. zbool. intros [= <- <- <-]. cbn [weight state_wf]. split_and!; [lia..|done].
    + destruct (find _ rest) as [e|] eqn:E; [|by case_match]. apply find_bound in E. cbn in E.
      destruct (size_line _) as [sz|] eqn:Hs; [|done]. intros [= <- <- <-].
      assert (0 <= sz).
      { unfold size_line in Hs. apply bind_Some in Hs as (v & Hv%from_str_radix_range & Hs).
        case_match; [|done]. injection Hs as <-. lia. }
      case_match; cbn [weight state_wf body_wf]; split_and!; try done; lia.
    + case_match; [|done]. zbool. intros [= <- <- <-]. cbn [weight state_wf body_wf].
      split_and!; [lia..|done].
    + case_match; [done|]. zbool. case_bool_decide; [|done]. intros [= <- <- <-].
      cbn [weight state_wf body_wf]. split_and!; [lia..|done].
    + destruct (find _ rest) as [[|e]|] eqn:E; [| |by case_match]; apply find_bound in E; cbn in E;
        intros [= <- <- <-]; cbn [weight state_wf body_wf]; split_and!; try done; lia.
Qed.

Lemma feed_loop_enough fuel st rest :
  state_wf st → (measure st rest < fuel)%nat → is_Some (feed_loop fuel st rest).
Proof.
  revert st rest. induction fuel as [|fuel IH]; intros st rest Hwf Hm; [lia|].
  cbn [Http1.feed_loop]. destruct (feed_step st rest) as [st' n out| |] eqn:E; [|done..].
  apply feed_step_next in E as (_ & Hlt & Hwf'); [|done].
  case_match; [done|]. apply fmap_is_Some, IH; [done|lia].
Qed.

Lemma feed_loop_mono fuel fuel' st rest r :
  feed_loop fuel st rest = Some r → (fuel <= fuel')%nat → feed_loop fuel' st rest = Some r.
Proof.
  revert fuel' st rest r. induction fuel as [|fuel IH]; intros fuel' st rest r; [done|].
  destruct fuel' as [|fuel']; [lia|]. cbn [Http1.feed_loop]. intros Hr Hle.
  destruct (feed_step st rest) as [st' n out| |] eqn:E; [|done..]. case_match; [done|].
  apply fmap_Some in Hr as (r' & Hr & ->). apply (IH fuel') in Hr; [|lia]. by rewrite Hr.
Qed.

(** What [feed] computes. *)
Definition run (st : Http1State) (rest : bytes) : fed :=
  default (0, [], st) (feed_loop (feed_fuel rest) st rest).

Lemma feed_fuel_enough st rest : (measure st rest < feed_fuel rest)%nat.
Proof. unfold measure, feed_fuel. destruct st as [|? []| |]; cbn; lia. Qed.

Lemma run_loop fuel st rest r : state_wf st → feed_loop fuel st rest = Some r → run st rest = r.
Proof.
  intros Hwf Hr. unfold run.
  destruct (feed_loop_enough (feed_fuel rest) st rest Hwf (feed_fuel_enough _ _)) as [r' Hr'].
  apply (feed_loop_mono _ (fuel `max` feed_fuel rest)) in Hr; [|lia].
  pose proof Hr' as Hr2. apply (feed_loop_mono _ (fuel `max` feed_fuel rest)) in Hr2; [|lia].
  rewrite Hr'. cbn. congruence.
Qed.

Lemma run_head_nil : run Head [] = (0, [], Head).
Proof. done. Qed.

(** The loop as an equation. *)
Lemma run_unfold st rest : state_wf st →
  run st rest =
  match feed_step st rest with
  | Stop st out => (zlen rest, out, st)
  | Wait st n => (n, [], st)
  | Next st n out => after n out (run st (zdrop n rest))
  end.
Proof.
  intros Hwf. pose proof (feed_fuel_enough st rest) as Hf.
  destruct (feed_step st rest) as [st' n out|st' n|st' out] eqn:E.
  2-3: unfold run; destruct (feed_fuel rest); [lia|]; cbn [Http1.feed_loop]; by rewrite E.
  apply feed_step_next in E as E'; [|done]. destruct E' as (Hn & Hlt & Hwf').
  destruct (feed_loop_enough (measure st rest) st' (zdrop n rest)) as [r Hr]; [done..|].
  apply run_loop in Hr as Hrun; [|done]. apply (run_loop (S (measure st rest))); [done|].
  cbn [Http1.feed_loop]. rewrite E. case_match eqn:Hstop; [|by rewrite Hr, Hrun].
  zbool. destruct st'; try done.
  assert (zdrop n rest = []) as Hnil by (apply nil_length_inv; unfold zlen in *; lia).
  rewrite Hnil, run_head_nil. cbn. by rewrite Z.add_0_r, app_nil_r.
Qed.

(** * More bytes of the same stream *)

Definition shift (n : Z) (o : outcome) : outcome :=
  match o with
  | Next st k out => Next st (n + k) out
  | Wait st k => Wait st (n + k)
  | Stop st out => Stop st out
  end.

Lemma append_body_app msg bs bs' : append_body (append_body msg bs) bs' = append_body msg (bs ++ bs').
Proof. destruct msg as [[]|[]]; unfold append_body; cbn; by rewrite <- app_assoc. Qed.

Lemma body_len_append msg bs : body_len (append_body msg bs) = body_len msg + zlen bs.
Proof. destruct msg as [[]|[]]; unfold body_len; cbn; apply zlen_app. Qed.

Lemma append_body_nil msg : append_body msg [] = msg.
Proof. destruct msg as [[]|[]]; unfold append_body; cbn; by rewrite app_nil_r. Qed.

(** Previews compose: what is kept does not depend on how the body arrives. *)
Lemma preview_app m a b : preview cap (preview cap m a) b = preview cap m (a ++ b).
Proof.
  pose proof (zlen_nonneg a). pose proof (zlen_nonneg b).
  destruct m as [msg total truncated partial]. unfold preview. cbn.
  rewrite body_len_append, length_ztake, append_body_app, zlen_app by (unfold saturating_sub; lia).
  unfold saturating_sub. set (room := Z.max 0 (cap - body_len msg)).
  destruct (decide (zlen a <= room)).
  - rewrite (Z.min_l (zlen a) room), (Z.min_l (zlen a) (zlen a)), (ztake_ge (zlen a) a) by lia.
    replace (Z.max 0 (cap - (body_len msg + zlen a))) with (room - zlen a) by lia.
    replace (Z.min (zlen a + zlen b) room) with (zlen a + Z.min (zlen b) (room - zlen a)) by lia.
    rewrite ztake_app_ge, Z.ltb_irrefl, orb_false_r by lia.
    unfold set_field. cbn -[Z.min Z.pow]. f_equal; [lia|]. f_equal.
    apply eq_bool_prop_intro. rewrite !Is_true_true, !Z.ltb_lt. lia.
  - rewrite (Z.min_r (zlen a) room), (Z.min_l room (zlen a)), (Z.min_r (zlen a + zlen b) room) by lia.
    replace (Z.max 0 (cap - (body_len msg + room))) with 0 by lia.
    rewrite (Z.min_r (zlen b) 0) by lia. unfold ztake at 2. cbn [Z.to_nat take].
    rewrite app_nil_r, ztake_app by lia.
    replace (room <? zlen a) with true by (symmetry; apply Z.ltb_lt; lia).
    replace (room <? zlen a + zlen b) with true by (symmetry; apply Z.ltb_lt; lia).
    rewrite !orb_true_r. unfold set_field. cbn -[Z.min Z.pow]. f_equal. lia.
Qed.

Definition item_clean (i : Http1Item) : Prop :=
  match i with Message m => hm_partial m = false | Invalid _ => False end.

(** No framing error and no response that only the close delimits. *)
Definition clean (items : list Http1Item) : Prop := Forall item_clean items.

Lemma clean_one i : clean [i] → item_clean i.
Proof. intros Hc. by inversion Hc. Qed.

Lemma feed_step_next_app st a b st' n out :
  state_wf st → feed_step st a = Next st' n out → feed_step st (a ++ b) = Next st' n out.
Proof.
  intros Hwf. pose proof (zlen_nonneg b). destruct st as [|m bd| |]; cbn [Http1.feed_step]; try done.
  - unfold head_step. destruct (find _ a) as [e|] eqn:E; [|by case_match].
    rewrite (find_app _ _ b _ E). apply find_bound in E. cbn in E.
    rewrite ztake_app by (unfold zlen; lia).
    destruct (parse_head _ _ _) as [[msg [|[]| | |]]|]; done.
  - unfold body_step. destruct bd as [r| |r| |]; cbn in Hwf.
    1,3: case_match; [|done]; zbool; rewrite zlen_app;
      rewrite (Z.min_r (zlen a + zlen b)), (Z.min_r (zlen a)), ztake_app, Z.sub_diag by lia; done.
    + destruct (find _ a) as [e|] eqn:E; [|by case_match]. rewrite (find_app _ _ b _ E).
      apply find_bound in E. rewrite take_app_le by lia. done.
    + destruct (zlen a <? 2) eqn:Ha; [done|]. zbool. rewrite zlen_app.
      destruct (zlen a + zlen b <? 2) eqn:Hab; [zbool; lia|]. rewrite take_app_le by (unfold zlen in *; lia). done.
    + destruct (find _ a) as [e|] eqn:E; [|by case_match]. rewrite (find_app _ _ b _ E).
      apply find_bound in E. destruct e; [done|]. rewrite take_app_le by lia. done.
Qed.

Lemma feed_step_wait st a b st' n :
  state_wf st → feed_step st a = Wait st' n →
  0 <= n <= zlen a ∧ state_wf st' ∧
  feed_step st (a ++ b) = shift n (feed_step st' (zdrop n a ++ b)).
Proof.
  intros Hwf. pose proof (zlen_nonneg a). pose proof (zlen_nonneg b).
  assert (Hstay : st' = st → n = 0 →
    0 <= n <= zlen a ∧ state_wf st' ∧
    feed_step st (a ++ b) = shift n (feed_step st' (zdrop n a ++ b))).
  { intros -> ->. rewrite zdrop_0. split_and!; [lia..|done|]. by destruct (feed_step st (a ++ b)). }
  assert (Hbytes : ∀ r, zlen a < r → Z.min (zlen a) r = zlen a ∧ ztake (zlen a) a = a ∧
      Z.min (zlen (a ++ b)) r = zlen a + Z.min (zlen b) (r - zlen a) ∧ zdrop (zlen a) a = []).
  { intros r Hr. rewrite zlen_app. split_and!; [lia|by apply ztake_ge|lia|apply zdrop_all]. }
  destruct st as [|m bd| |]; cbn [Http1.feed_step]; try done.
  - unfold head_step. destruct (find _ a) as [e|] eqn:E.
    + destruct (parse_head _ _ _) as [[msg [|[]| | |]]|]; done.
    + case_match; [done|]. intros [= <- <-]. by apply Hstay.
  - unfold body_step. destruct bd as [r| |r| |]; cbn in Hwf.
    1,3: case_match; [done|]; zbool; intros [= <- <-];
      destruct (Hbytes r) as (-> & -> & -> & ->); [lia|];
      cbn [state_wf body_wf app Http1.feed_step body_step]; split_and!; [lia..|];
      rewrite ztake_app_ge, preview_app by lia;
      replace (r - (zlen a + Z.min (zlen b) (r - zlen a)))
        with (r - zlen a - Z.min (zlen b) (r - zlen a)) by lia;
      by case_match.
    + destruct (find _ a) as [e|] eqn:E; [by case_match|]. case_match; [done|].
      intros [= <- <-]. by apply Hstay.
    + case_match; [|by case_match]. intros [= <- <-]. by apply Hstay.
    + destruct (find _ a) as [[|e]|] eqn:E; [done..|]. case_match; [done|].
      intros [= <- <-]. by apply Hstay.
Qed.

Lemma feed_step_stop st a b st' out :
  feed_step st a = Stop st' out → clean out →
  feed_step st (a ++ b) = Stop st' out ∧ feed_step st' b = Stop st' [].
Proof.
  intros Hs Hc. destruct st as [|m bd| |]; cbn [Http1.feed_step] in *.
  - unfold head_step in *. destruct (find _ a) as [e|] eqn:E.
    + rewrite (find_app _ _ b _ E). apply find_bound in E. cbn in E.
      rewrite ztake_app by (unfold zlen; lia).
      destruct (parse_head _ _ _) as [[msg [|[]| | |]]|]; try done; injection Hs as <- <-;
        try done; apply clean_one in Hc; done.
    + case_match; [|done]. injection Hs as <- <-. by apply clean_one in Hc.
  - exfalso. unfold body_step in *.
    destruct bd; repeat case_match; try done; injection Hs as <- <-;
      by apply clean_one in Hc.
  - by injection Hs as <- <-.
  - by injection Hs as <- <-.
Qed.

Lemma after_after n out k out' r : after n out (after k out' r) = after (n + k) (out ++ out') r.
Proof. destruct r as [[j its] st]. cbn. by rewrite Z.add_assoc, app_assoc. Qed.

Lemma after_0 r : after 0 [] r = r.
Proof. by destruct r as [[j its] st]. Qed.

Lemma run_shift st1 st2 n a b : state_wf st1 → state_wf st2 → 0 <= n <= zlen a →
  feed_step st1 (a ++ b) = shift n (feed_step st2 (zdrop n a ++ b)) →
  run st1 (a ++ b) = after n [] (run st2 (zdrop n a ++ b)).
Proof.
  intros Hwf1 Hwf2 Hn Hs. rewrite !run_unfold, Hs by done.
  assert (zlen (a ++ b) = n + zlen (zdrop n a ++ b)) as Hlen
    by (rewrite !zlen_app, zlen_zdrop by lia; lia).
  destruct (feed_step st2 (zdrop n a ++ b)) as [st k out| |] eqn:E; cbn [shift].
  - apply feed_step_next in E as (Hk & _ & _); [|done].
    rewrite after_after, <- zdrop_app, zdrop_zdrop by lia. done.
  - done.
  - by rewrite Hlen.
Qed.

(** Bytes that arrive later continue the decoding where it stopped. *)
Lemma run_app st a b k items st' :
  state_wf st → run st a = (k, items, st') → clean items →
  0 <= k <= zlen a ∧ state_wf st' ∧
  run st (a ++ b) = after k items (run st' (zdrop k a ++ b)).
Proof.
  remember (measure st a) as mu eqn:Hmu. revert st a k items st' Hmu.
  induction mu as [mu IH] using lt_wf_ind. intros st a k items st' -> Hwf Hr Hc.
  rewrite run_unfold in Hr by done.
  destruct (feed_step st a) as [st1 n out|st1 n|st1 out] eqn:E.
  - pose proof (feed_step_next _ _ _ _ _ Hwf E) as (Hn & Hlt & Hwf1).
    destruct (run st1 (zdrop n a)) as [[k1 items1] st2] eqn:Hr1. cbn in Hr.
    injection Hr as <- <- <-. apply Forall_app in Hc as [Hc Hc1].
    destruct (IH _ Hlt _ _ _ _ _ eq_refl Hwf1 Hr1 Hc1) as (Hk1 & Hwf2 & IHr).
    rewrite zlen_zdrop in Hk1 by done. split_and!; [lia..|done|].
    rewrite (run_unfold st (a ++ b)), (feed_step_next_app _ _ b _ _ _ Hwf E) by done.
    rewrite zdrop_app, IHr, after_after, zdrop_zdrop by lia. done.
  - injection Hr as <- <- <-. destruct (feed_step_wait _ _ b _ _ Hwf E) as (Hn & Hwf1 & Hs).
    split_and!; [lia..|done|]. by apply run_shift.
  - injection Hr as <- <- <-. destruct (feed_step_stop _ _ b _ _ E Hc) as [Hs1 Hs2].
    assert (state_wf st1).
    { destruct st1 as [|m bd| |]; try done. cbn in Hs2. exfalso.
      unfold body_step in Hs2. destruct bd; repeat case_match; done. }
    pose proof (zlen_nonneg a). split_and!; [lia..|done|].
    rewrite !run_unfold, Hs1 by done. rewrite zdrop_all. cbn [app]. rewrite Hs2. cbn.
    by rewrite zlen_app, app_nil_r.
Qed.

(** Nothing is left to do with the bytes that stay. *)
Lemma run_settled st a k items st' :
  state_wf st → run st a = (k, items, st') → clean items → run st' (zdrop k a) = (0, [], st').
Proof.
  intros Hwf Hr Hc. destruct (run_app st a [] _ _ _ Hwf Hr Hc) as (_ & _ & Happ).
  rewrite !app_nil_r, Hr in Happ.
  destruct (run st' (zdrop k a)) as [[k' items'] st'']. cbn in Happ.
  injection Happ as Hk Hi <-. assert (k' = 0) as -> by lia.
  assert (items' = []) as -> by (apply (app_inv_head items); by rewrite app_nil_r).
  done.
Qed.

(** * The decoder *)

Notation decoder st := {| h1_state := st; h1_preview_cap := cap |}.

Lemma feed_run st buf : state_wf st →
  feed (decoder st) buf to_head to_connect =
  Some (let '(n, items, st') := run st buf in (n, items, decoder st')).
Proof.
  intros Hwf. unfold feed, run. cbn [h1_state h1_preview_cap].
  destruct (feed_loop_enough (feed_fuel buf) st buf Hwf (feed_fuel_enough _ _)) as [[[n items] st'] ->].
  done.
Qed.

Lemma run_wf st buf n items st' :
  state_wf st → run st buf = (n, items, st') → 0 <= n <= zlen buf ∧ state_wf st'.
Proof.
  remember (measure st buf) as mu eqn:Hmu. revert st buf n items st' Hmu.
  induction mu as [mu IH] using lt_wf_ind. intros st buf n items st' -> Hwf Hr.
  rewrite run_unfold in Hr by done. pose proof (zlen_nonneg buf).
  destruct (feed_step st buf) as [st1 k out|st1 k|st1 out] eqn:E.
  - pose proof (feed_step_next _ _ _ _ _ Hwf E) as (Hk & Hlt & Hwf1).
    destruct (run st1 (zdrop k buf)) as [[n1 items1] st2] eqn:Hr1. cbn in Hr. injection Hr as <- <- <-.
    destruct (IH _ Hlt _ _ _ _ _ eq_refl Hwf1 Hr1) as [Hn1 Hwf2]. rewrite zlen_zdrop in Hn1 by done.
    split; [lia|done].
  - injection Hr as <- <- <-. by destruct (feed_step_wait _ _ [] _ _ Hwf E) as (? & ? & _).
  - injection Hr as <- <- <-. split; [lia|]. destruct st as [|m bd| |]; cbn [Http1.feed_step] in E.
    + unfold head_step in E. repeat case_match; try done; by injection E as <- _.
    + unfold body_step in E. destruct bd; repeat case_match; try done; by injection E as <- _.
    + by injection E as <- _.
    + by injection E as <- _.
Qed.

Lemma decode_reads_whole st buf reads items left d :
  state_wf st → run st buf = (0, [], st) →
  decode_reads (decoder st) buf reads to_head to_connect = Some (items, left, d) → clean items →
  ∃ k st', run st (buf ++ mjoin reads) = (k, items, st') ∧
    left = zdrop k (buf ++ mjoin reads) ∧ d = decoder st'.
Proof.
  revert st buf items. induction reads as [|payload reads IH]; intros st buf items Hwf Hset Hd Hc.
  - injection Hd as <- <- <-. exists 0, st. cbn. by rewrite app_nil_r.
  - cbn [decode_reads] in Hd. rewrite feed_run in Hd by done.
    destruct (run st (buf ++ payload)) as [[k its] st1] eqn:Hr. cbn in Hd.
    apply bind_Some in Hd as ([[its' left'] d'] & Hd & [= <- <- <-]).
    apply Forall_app in Hc as [Hc Hc'].
    destruct (run_app _ _ (mjoin reads) _ _ _ Hwf Hr Hc) as (Hk & Hwf1 & Happ).
    destruct (IH st1 _ its' Hwf1 (run_settled _ _ _ _ _ Hwf Hr Hc) Hd Hc')
      as (k' & st' & Hr' & -> & ->).
    apply run_wf in Hr' as Hk'; [|done]. destruct Hk' as [Hk' _].
    exists (k + k'), st'. change (mjoin (payload :: reads)) with (payload ++ mjoin reads).
    rewrite app_assoc, Happ, Hr'. cbn.
    split_and!; [done| |done]. by rewrite <- zdrop_app, zdrop_zdrop by lia.
Qed.
End Run.

(** C21: how the bytes of a direction are cut into reads does not matter: when decoding them as they
    come meets no framing error and no body that only the close delimits, the messages, the state
    and the bytes left over are those of decoding the whole stream at once. *)
Theorem reads_do_not_matter `{Unicode} cap reads to_head to_connect items left d :
  decode_reads (Http1Decoder_new cap) [] reads to_head to_connect = Some (items, left, d) →
  clean items →
  decode_reads (Http1Decoder_new cap) [] [mjoin reads] to_head to_connect = Some (items, left, d).
Proof.
  intros Hd Hc.
  destruct (decode_reads_whole cap to_head to_connect Head [] reads items left d)
    as (k & st & Hr & -> & ->); [done..|].
  cbn [decode_reads app]. unfold Http1Decoder_new. rewrite feed_run by done. cbn [app] in Hr.
  rewrite Hr. cbn. by rewrite app_nil_r.
Qed.

(** Two requests, the second one chunked, as a stream of bytes. *)
Definition demo_head_1 : bytes :=
  lit "POST /a HTTP/1.1" ++ CRLF ++ lit "Host: h" ++ CRLF ++ lit "Content-Length: 5" ++ CRLF ++ CRLF.

Definition demo_head_2 : bytes :=
  lit "PUT /c HTTP/1.1" ++ CRLF ++ lit "Transfer-Encoding: chunked" ++ CRLF ++ CRLF.

Definition demo_chunks : bytes :=
  lit "3;ext=1" ++ CRLF ++ lit "abc" ++ CRLF ++ lit "0" ++ CRLF ++ lit "X-Trailer: t" ++ CRLF ++ CRLF.

Definition demo_stream : bytes := demo_head_1 ++ lit "hello" ++ demo_head_2 ++ demo_chunks.

Lemma reads_do_not_matter_witness :
  ∃ items left d,
    length items = 2%nat ∧
    decode_reads (H := ascii_only) (Http1Decoder_new 4) []
      [take 21 demo_stream; take 40 (drop 21 demo_stream); drop 61 demo_stream] false false =
      Some (items, left, d) ∧
    decode_reads (H := ascii_only) (Http1Decoder_new 4) [] [demo_stream] false false =
      Some (items, left, d).
Proof.
  eexists _, _, _. split; [|split; [vm_compute; reflexivity|]]; [reflexivity|].
  apply (reads_do_not_matter (H := ascii_only) 4
           [take 21 demo_stream; take 40 (drop 21 demo_stream); drop 61 demo_stream]).
  - vm_compute. reflexivity.
  - repeat constructor.
Defined.
