(* ===== verification/Http1Bodies.v ===== *)
(** What the HTTP/1 decoder ([Http1]) makes of bodies and of their framing: what it keeps is bounded,
    bodies come back as they were framed, ambiguous framing is refused. *)

From S2P Require Import Prelude.
From S2P Require Import Pending Memory Text Http1 Http1Props.
From Stdlib Require Import Strings.String.

#[local] Notation length := List.length.
#[local] Open Scope list_scope.
#[local] Open Scope Z_scope.

(** * What a message may hold *)

Definition msg_ok (cap : Z) (m : Http1Message) : Prop :=
  body_len (hm_msg m) <= cap ∧ body_len (hm_msg m) <= hm_body_total m ∧
  (hm_body_truncated m = true ↔ body_len (hm_msg m) < hm_body_total m).

Definition item_ok (cap : Z) (i : Http1Item) : Prop :=
  match i with Message m => msg_ok cap m | Invalid _ => True end.

Definition state_ok (cap : Z) (st : Http1State) : Prop :=
  match st with InBody m _ => msg_ok cap m | _ => True end.

Section Bodies.
Context `{Unicode} (cap : Z) (to_head to_connect : bool).
Context (Hcap : 0 <= cap < 2 ^ 64 - 1).

Notation feed_step := (feed_step cap to_head to_connect).
Notation run := (run cap to_head to_connect).

Lemma preview_ok m bs : msg_ok cap m → msg_ok cap (preview cap m bs).
Proof using Hcap.
  unfold msg_ok. intros (Hlen & Htot & Htr). pose proof (zlen_nonneg bs).
  assert (0 <= body_len (hm_msg m)) by apply zlen_nonneg.
  unfold preview, set_field. cbn -[Z.pow Z.min].
  rewrite body_len_append, length_ztake by (unfold saturating_sub; lia). unfold saturating_sub.
  rewrite orb_true_iff, Z.ltb_lt, Htr. split_and!; [lia..|]. split; [lia|].
  intros Hlt. destruct (decide (body_len (hm_msg m) < hm_body_total m)); [by left|right; lia].
Qed.

Lemma add_trailer_ok line m : msg_ok cap m → msg_ok cap (add_trailer line m).
Proof.
  unfold msg_ok, add_trailer. destruct (from_utf8 line ≫= header_field) as [[k v]|]; [|done].
  by destruct m as [[[]|[]] ? ? ?].
Qed.

Lemma parse_head_body head msg f :
  parse_head head to_head to_connect = Ok (msg, f) → body_of msg = [].
Proof.
  unfold parse_head. destruct (from_utf8 head) as [text|]; cbn; [|done].
  destruct (strip_prefix _ _) as [rest|].
  - unfold parse_status_line. destruct (_ ≫= parse_i32) as [s|]; cbn; [|done].
    case_match; [done|]. case_match; cbn; [by intros [= <- _]|].
    case_match; cbn; [by intros [= <- _]|]. destruct (body_framing _ _); by intros [= <- _].
  - unfold parse_request_line. destruct (_ !! 1%nat) as [p|]; cbn; [|done].
    case_match; [done|]. destruct (body_framing _ _); by intros [= <- _].
Qed.

Definition fresh (msg : HttpMessage) : Http1Message :=
  {| hm_msg := msg; hm_body_total := 0; hm_body_truncated := false; hm_partial := false |}.

Lemma fresh_ok msg : body_of msg = [] → msg_ok cap (fresh msg).
Proof using Hcap. unfold msg_ok, body_len. cbn. intros ->. unfold zlen. cbn. split_and!; [lia..|]. by split. Qed.

(** The items of a round, the message it leaves pending, and the bytes it leaves in the buffer. *)
Definition step_ok (rest : bytes) (o : outcome) : Prop :=
  match o with
  | Next st _ out => state_ok cap st ∧ Forall (item_ok cap) out
  | Wait st n => state_ok cap st ∧ zlen rest - n <= MAX_HTTP1_HEADER_BYTES
  | Stop st out => state_ok cap st ∧ Forall (item_ok cap) out
  end.

Ltac items_ok :=
  split; [solve [done | cbn; eauto using add_trailer_ok]
         |repeat first [apply Forall_nil_2 | apply Forall_cons_2]; solve [done | cbn; eauto]].

Lemma head_step_ok rest : step_ok rest (head_step cap to_head to_connect rest).
Proof using Hcap.
  unfold head_step. destruct (find _ rest) as [e|] eqn:E.
  - destruct (parse_head _ _ _) as [[msg f]|] eqn:Hp; [|items_ok].
    apply parse_head_body in Hp. fold (fresh msg). pose proof (fresh_ok msg Hp) as Hf.
    assert (Hz : body_len msg = 0) by (unfold body_len; by rewrite Hp).
    destruct f as [|[]| | |]; try items_ok.
    set (body := zdrop _ rest). pose proof (zlen_nonneg body). split; [done|].
    apply Forall_cons_2; [|done]. unfold msg_ok, set_field. cbn -[Z.min].
    unfold msg_ok. cbn -[Z.min]. rewrite body_len_append, length_ztake, Z.ltb_lt by lia. lia.
  - case_match; [items_ok|]. zbool. split; [done|lia].
Qed.

Lemma body_step_ok m body rest : msg_ok cap m → step_ok rest (body_step cap m body rest).
Proof using Hcap.
  intros Hm. pose proof (zlen_nonneg rest).
  assert (∀ n, msg_ok cap (preview cap m (ztake n rest))) by (intros; by apply preview_ok).
  unfold body_step, MAX_CHUNK_LINE. destruct body as [r| |r| |]; repeat case_match; zbool;
    try items_ok; (split; [cbn; solve [done | eauto]|]); unfold MAX_HTTP1_HEADER_BYTES in *; lia.
Qed.

Lemma run_ok st rest n items st' :
  state_wf st → state_ok cap st → run st rest = (n, items, st') →
  state_wf st' ∧ state_ok cap st' ∧ Forall (item_ok cap) items ∧
  zlen rest - n <= MAX_HTTP1_HEADER_BYTES.
Proof using Hcap.
  remember (measure st rest) as mu eqn:Hmu. revert st rest n items st' Hmu.
  induction mu as [mu IH] using lt_wf_ind. intros st rest n items st' -> Hwf Hok Hr.
  split; [by eapply run_wf|]. rewrite run_unfold in Hr by done.
  assert (Hstep : step_ok rest (feed_step st rest)).
  { destruct st; cbn [Http1.feed_step]; [apply head_step_ok|by apply body_step_ok|items_ok..]. }
  destruct (feed_step st rest) as [st1 k out|st1 k|st1 out] eqn:E; destruct Hstep as [Hst Hout].
  - pose proof (feed_step_next _ _ _ _ _ _ _ _ Hwf E) as (Hk & Hlt & Hwf1).
    destruct (run st1 (zdrop k rest)) as [[n1 items1] st2] eqn:Hr1. cbn in Hr. injection Hr as <- <- <-.
    destruct (IH _ Hlt _ _ _ _ _ eq_refl Hwf1 Hst Hr1) as (_ & Hok2 & Hits & Hlen).
    rewrite zlen_zdrop in Hlen by done. split_and!; [done|by apply Forall_app|lia].
  - by injection Hr as <- <- <-.
  - injection Hr as <- <- <-. rewrite Z.sub_diag. done.
Qed.

Lemma decode_reads_ok st buf reads :
  state_wf st → state_ok cap st → zlen buf <= MAX_HTTP1_HEADER_BYTES →
  ∃ items left d,
    decode_reads {| h1_state := st; h1_preview_cap := cap |} buf reads to_head to_connect =
      Some (items, left, d) ∧
    zlen left <= MAX_HTTP1_HEADER_BYTES ∧ Forall (item_ok cap) items.
Proof using Hcap.
  revert st buf. induction reads as [|payload reads IH]; intros st buf Hwf Hok Hlen.
  - by eexists [], _, _.
  - cbn [decode_reads]. rewrite feed_run by done.
    destruct (run st (buf ++ payload)) as [[n items] st'] eqn:Hr. cbn.
    apply run_wf in Hr as Hn; [|done]. destruct Hn as [Hn _].
    apply run_ok in Hr as (Hwf' & Hok' & Hits & Hleft); [|done..].
    destruct (IH st' (zdrop n (buf ++ payload))) as (items' & left & d & -> & ? & ?);
      [done..|by rewrite zlen_zdrop|].
    cbn. eexists _, _, _. split; [done|]. split; [done|]. by apply Forall_app.
Qed.
End Bodies.

(** C39: Whatever bytes arrive in whatever reads, decoding them returns, keeps at most 64 KiB (one header
    block or chunk line) in the buffer, and every message it completes carries at most [cap] bytes of its body, counts
    all of it, and is marked exactly when bytes are missing. *)
Theorem decoding_is_bounded `{Unicode} cap reads to_head to_connect :
  0 <= cap < 2 ^ 64 - 1 →
  ∃ items left d,
    decode_reads (Http1Decoder_new cap) [] reads to_head to_connect = Some (items, left, d) ∧
    zlen left <= MAX_HTTP1_HEADER_BYTES ∧ Forall (item_ok cap) items.
Proof. intros Hcap. by apply decode_reads_ok. Qed.

(** * Bodies as they are framed *)

Definition line_ends (line : bytes) : Prop := find CRLF (line ++ CRLF) = Some (length line).

(** Chunked coding: size lines in any spelling the decoder reads, data, a last chunk of size zero,
    trailer fields. *)
Inductive chunked (fields : list bytes) : bytes → bytes → Prop :=
| chunked_last line :
    line_ends line → size_line line = Some 0 →
    chunked fields (line ++ CRLF ++ mjoin ((fun f => f ++ CRLF) <$> fields) ++ CRLF) []
| chunked_more line data wire body :
    line_ends line → size_line line = Some (zlen data) → data ≠ [] → chunked fields wire body →
    chunked fields (line ++ CRLF ++ data ++ CRLF ++ wire) (data ++ body).

(** [wire] carries [body] and the trailer [fields] under framing [f]. *)
Definition framed (f : Framing) (wire body : bytes) (fields : list bytes) : Prop :=
  match f with
  | FNone => wire = [] ∧ body = [] ∧ fields = []
  | FFixed n => n = zlen body ∧ wire = body ∧ fields = []
  | FChunked => Forall (fun f => f ≠ [] ∧ line_ends f) fields ∧ chunked fields wire body
  | _ => False
  end.

Record exchange := {
  x_head : bytes;
  x_wire : bytes;
  x_msg : HttpMessage;
  x_framing : Framing;
  x_body : bytes;
  x_fields : list bytes
}.

Section Pipeline.
Context `{Unicode} (cap : Z) (to_head to_connect : bool).

Notation feed_step := (feed_step cap to_head to_connect).
Notation run := (run cap to_head to_connect).

(** A head block that ends with its empty line, and the body its framing announces. *)
Definition well_framed (x : exchange) : Prop :=
  (∃ e, find (CRLF ++ CRLF) (x_head x) = Some e ∧ zlen (x_head x) = Z.of_nat e + 4) ∧
  parse_head (x_head x) to_head to_connect = Ok (x_msg x, x_framing x) ∧
  framed (x_framing x) (x_wire x) (x_body x) (x_fields x).

Definition with_trailers (fields : list bytes) (m : Http1Message) : Http1Message :=
  foldl (fun m f => add_trailer f m) m fields.

(** The message a reader should see: the body up to [cap], its full length, its trailers. *)
Definition delivered (x : exchange) : Http1Message :=
  with_trailers (x_fields x) (preview cap (fresh (x_msg x)) (x_body x)).

Lemma run_next st st' pre rest out : state_wf st →
  feed_step st (pre ++ rest) = Next st' (zlen pre) out →
  run st (pre ++ rest) = after (zlen pre) out (run st' rest).
Proof.
  intros Hwf Hs. rewrite run_unfold, Hs by done.
  by rewrite zdrop_app, zdrop_all by lia.
Qed.

Lemma find_line line rest : line_ends line → find CRLF (line ++ CRLF ++ rest) = Some (length line).
Proof. intros Hl. rewrite app_assoc. by apply find_app. Qed.

Lemma run_line st st' line rest out : state_wf st →
  feed_step st (line ++ CRLF ++ rest) = Next st' (Z.of_nat (length line) + 2) out →
  run st (line ++ CRLF ++ rest) = after (zlen (line ++ CRLF)) out (run st' rest).
Proof.
  intros Hwf Hs. rewrite app_assoc in *. apply run_next; [done|]. rewrite Hs, zlen_app. done.
Qed.

Lemma preview_nil m : hm_body_total m <= 2 ^ 64 - 1 → preview cap m [] = m.
Proof.
  intros Hm. destruct m as [msg total tr pa]. cbn in Hm. unfold preview, set_field.
  cbn -[Z.min Z.pow]. change (zlen []) with 0. unfold ztake. rewrite take_nil, append_body_nil.
  f_equal; [lia|]. unfold saturating_sub. rewrite Z.min_l, Z.ltb_irrefl by lia. apply orb_false_r.
Qed.

Lemma run_trailers fields m rest :
  Forall (fun f => f ≠ [] ∧ line_ends f) fields →
  run (InBody m Trailers) ((mjoin ((fun f => f ++ CRLF) <$> fields) ++ CRLF) ++ rest) =
  after (zlen (mjoin ((fun f => f ++ CRLF) <$> fields) ++ CRLF))
    [Message (with_trailers fields m)] (run Head rest).
Proof.
  intros Hf. revert m. induction Hf as [|f fields [Hne Hl] Hf IH]; intros m.
  - by apply (run_next (InBody m Trailers) Head CRLF rest).
  - cbn [fmap list_fmap]. change (mjoin (?a :: ?l)) with (a ++ mjoin l).
    set (tail := mjoin _) in *. rewrite <- (app_assoc (f ++ CRLF)), <- !(app_assoc f).
    rewrite <- (app_assoc CRLF (tail ++ CRLF) rest).
    rewrite (run_line (InBody m Trailers) (InBody (add_trailer f m) Trailers) f _ []); [|done|].
    + rewrite IH, after_after, !zlen_app. cbn [app]. f_equal. lia.
    + cbn [Http1.feed_step body_step]. rewrite find_line by done.
      destruct f as [|c f]; [done|]. cbn [length]. rewrite (take_app_length' (c :: f)); done.
Qed.

Lemma run_size m line size rest : line_ends line → size_line line = Some size →
  run (InBody m ChunkSize) (line ++ CRLF ++ rest) =
  after (zlen (line ++ CRLF)) []
    (run (InBody m (if size =? 0 then Trailers else ChunkData size)) rest).
Proof.
  intros Hl Hs. apply run_line; [done|]. cbn [Http1.feed_step body_step].
  rewrite find_line by done. by rewrite take_app_length, Hs.
Qed.

Lemma run_chunked fields wire body m rest :
  Forall (fun f => f ≠ [] ∧ line_ends f) fields → chunked fields wire body →
  hm_body_total m <= 2 ^ 64 - 1 →
  run (InBody m ChunkSize) (wire ++ rest) =
  after (zlen wire) [Message (with_trailers fields (preview cap m body))] (run Head rest).
Proof.
  intros Hf Hch. revert m. induction Hch as [line Hl Hs|line data wire body Hl Hs Hne Hch IH]; intros m Hm.
  - rewrite <- (app_assoc line), <- (app_assoc CRLF), (run_size m line 0) by done.
    cbn [Z.eqb]. rewrite run_trailers, after_after, preview_nil, !zlen_app by done.
    cbn [app]. f_equal. lia.
  - assert (0 < zlen data) by (destruct data; [done|unfold zlen; cbn; lia]).
    rewrite <- (app_assoc line), <- !(app_assoc CRLF), <- (app_assoc data), <- (app_assoc CRLF).
    rewrite (run_size m line (zlen data)) by done. replace (zlen data =? 0) with false by lia.
    rewrite (run_next (InBody m (ChunkData (zlen data))) (InBody (preview cap m data) ChunkCrlf)
               data _ []); [|cbn; lia|].
    + rewrite (run_next (InBody _ ChunkCrlf) (InBody (preview cap m data) ChunkSize) CRLF _ []); [|done|].
      * rewrite IH, !after_after, preview_app, !zlen_app; [cbn [app]; f_equal; lia|].
        unfold preview, set_field. cbn -[Z.min Z.pow]. lia.
      * cbn [Http1.feed_step body_step]. rewrite zlen_app. pose proof (zlen_nonneg (wire ++ rest)).
        change (zlen CRLF) with 2. by replace (2 + _ <? 2) with false by lia.
    + cbn [Http1.feed_step body_step]. rewrite zlen_app.
      pose proof (zlen_nonneg (CRLF ++ wire ++ rest)).
      rewrite Z.min_r, Z.sub_diag, ztake_app, ztake_ge by lia. done.
Qed.

Lemma head_step_framed x rest : well_framed x →
  head_step cap to_head to_connect (x_head x ++ rest) =
  match x_framing x with
  | FFixed 0 | FNone => Next Head (zlen (x_head x)) [Message (fresh (x_msg x))]
  | FFixed n => Next (InBody (fresh (x_msg x)) (Fixed n)) (zlen (x_head x)) []
  | _ => Next (InBody (fresh (x_msg x)) ChunkSize) (zlen (x_head x)) []
  end.
Proof.
  intros [(e & He & Hlen) [Hp Hf]]. unfold head_step. rewrite (find_app _ _ rest _ He), <- Hlen.
  rewrite ztake_app, ztake_ge, Hp by lia. fold (fresh (x_msg x)).
  by destruct (x_framing x) as [|[]| | |].
Qed.

Lemma run_exchange x rest : well_framed x →
  run Head (x_head x ++ x_wire x ++ rest) =
  after (zlen (x_head x ++ x_wire x)) [Message (delivered x)] (run Head rest).
Proof.
  intros Hx. pose proof (head_step_framed x (x_wire x ++ rest) Hx) as Hs.
  destruct Hx as (_ & _ & Hf). unfold delivered. rewrite zlen_app.
  destruct x as [head wire msg f body fields].
  cbn [x_head x_wire x_msg x_framing x_body x_fields] in *.
  destruct f as [|n| | |]; cbn [framed] in Hf; try done.
  - destruct Hf as (-> & -> & ->). rewrite (run_next Head Head _ _ _ I Hs), preview_nil by done.
    change (zlen []) with 0. by rewrite Z.add_0_r.
  - destruct Hf as (-> & -> & ->). pose proof (zlen_nonneg body). destruct body as [|b body].
    + rewrite (run_next Head Head _ _ _ I Hs), preview_nil by done.
      change (zlen []) with 0. by rewrite Z.add_0_r.
    + set (bs := b :: body) in *. assert (0 < zlen bs) by (unfold zlen; cbn; lia).
      rewrite (run_next Head (InBody (fresh msg) (Fixed (zlen bs))) _ _ []);
        [|done|cbn [Http1.feed_step]; rewrite Hs; by destruct (zlen bs)].
      rewrite (run_next (InBody (fresh msg) (Fixed (zlen bs))) Head bs rest
                 [Message (preview cap (fresh msg) bs)]); [by rewrite after_after|cbn; lia|].
      cbn [Http1.feed_step body_step]. rewrite zlen_app. pose proof (zlen_nonneg rest).
      by rewrite Z.min_r, Z.sub_diag, ztake_app, ztake_ge by lia.
  - destruct Hf as [Hfields Hch]. rewrite (run_next Head _ _ _ [] I Hs).
    by rewrite (run_chunked fields _ body), after_after by done.
Qed.

Lemma run_exchanges xs : Forall well_framed xs →
  run Head (mjoin ((fun x => x_head x ++ x_wire x) <$> xs)) =
  (zlen (mjoin ((fun x => x_head x ++ x_wire x) <$> xs)), (fun x => Message (delivered x)) <$> xs,
   Head).
Proof.
  induction 1 as [|x xs Hx _ IH]; [done|]. cbn [fmap list_fmap].
  change (mjoin (?a :: ?l)) with (a ++ mjoin l). rewrite <- app_assoc, run_exchange, IH by done.
  unfold after. by rewrite app_assoc, (zlen_app (_ ++ _)).
Qed.
End Pipeline.

(** C22: messages sent one after the other on a direction, with no body, a counted one or a chunked
    one with extensions and trailers, are decoded one for one, each with its own body up to the
    cap, its full length and its trailers, and nothing is left over. *)
Theorem pipeline_decoded `{Unicode} cap to_head to_connect xs :
  Forall (well_framed to_head to_connect) xs →
  decode_reads (Http1Decoder_new cap) [] [mjoin ((fun x => x_head x ++ x_wire x) <$> xs)]
    to_head to_connect =
  Some ((fun x => Message (delivered cap x)) <$> xs, [], Http1Decoder_new cap).
Proof.
  intros Hxs. cbn [decode_reads app]. unfold Http1Decoder_new.
  rewrite feed_run, run_exchanges by done. cbn. by rewrite zdrop_all, app_nil_r.
Qed.

Lemma decoding_is_bounded_witness :
  ∃ items left d,
    decode_reads (H := ascii_only) (Http1Decoder_new 8192) [] [demo_stream; [x0d]] false false =
      Some (items, left, d) ∧
    zlen left <= MAX_HTTP1_HEADER_BYTES ∧ Forall (item_ok 8192) items.
Proof. apply (decoding_is_bounded (H := ascii_only) 8192). split; [lia|reflexivity]. Defined.

Definition demo_framing (head : bytes) : HttpMessage * Framing :=
  match parse_head (H := ascii_only) head false false with
  | Ok mf => mf
  | Err _ => (Response {| rs_status_code := 0; rs_headers := []; rs_body := [] |}, FNone)
  end.

Definition demo_exchanges : list exchange :=
  [ {| x_head := demo_head_1; x_wire := lit "hello"; x_msg := (demo_framing demo_head_1).1;
       x_framing := FFixed 5; x_body := lit "hello"; x_fields := [] |};
    {| x_head := demo_head_2; x_wire := demo_chunks; x_msg := (demo_framing demo_head_2).1;
       x_framing := FChunked; x_body := lit "abc"; x_fields := [lit "X-Trailer: t"] |} ].

Lemma pipeline_decoded_witness :
  decode_reads (H := ascii_only) (Http1Decoder_new 4) [] [demo_stream] false false =
  Some ((fun x => Message (delivered (H := ascii_only) 4 x)) <$> demo_exchanges, [],
        Http1Decoder_new 4).
Proof.
  apply (pipeline_decoded (H := ascii_only) 4 false false demo_exchanges).
  repeat constructor; try (vm_compute; reflexivity); try done.
  - exists 44%nat. split; vm_compute; reflexivity.
  - exists 43%nat. split; vm_compute; reflexivity.
  - apply (chunked_more _ (lit "3;ext=1") (lit "abc") (lit "0" ++ CRLF ++ lit "X-Trailer: t" ++ CRLF ++ CRLF) []);
      [vm_compute; reflexivity..|done|].
    apply (chunked_last [lit "X-Trailer: t"] (lit "0")); vm_compute; reflexivity.
Defined.
