(* ===== verification/Http1Framing.v ===== *)
(** The framing of a request is never guessed: what [parse_head] and [body_framing] ([Http1]) accept
    as the length of a body is what every length field of the header block says. *)

From S2P Require Import Prelude.
From S2P Require Import Pending Memory Text Http1 Http1Props Http1Bodies.
From Stdlib Require Import Strings.String.

#[local] Notation length := List.length.
#[local] Open Scope list_scope.
#[local] Open Scope Z_scope.

(** * Parts of strings *)

Lemma split_on_ne sep s : split_on sep s ≠ [].
Proof. destruct s as [|c s]; cbn [split_on]; [done|]. repeat case_match; done. Qed.

Lemma split_on_app sep a b : split_on sep (a ++ sep :: b) = split_on sep a ++ split_on sep b.
Proof.
  induction a as [|c a IH]; cbn [app split_on].
  - by rewrite Z.eqb_refl.
  - rewrite IH. case_match; [done|]. pose proof (split_on_ne sep a).
    by destruct (split_on sep a).
Qed.

Lemma trim_space s : trim (32 :: s) = trim s.
Proof. done. Qed.

Lemma split_on_space sep s : sep ≠ 32 → trim <$> split_on sep (32 :: s) = trim <$> split_on sep s.
Proof.
  intros Hsep. cbn [split_on]. case_match; [zbool; lia|]. pose proof (split_on_ne sep s).
  destruct (split_on sep s); [done|]. by rewrite !fmap_cons, trim_space.
Qed.

Lemma split_crlf_cons c c' s :
  split_crlf (c :: c' :: s) =
  if (c =? 13) && (c' =? 10) then [] :: split_crlf s
  else match split_crlf (c' :: s) with w :: ws => (c :: w) :: ws | [] => [[c]] end.
Proof. done. Qed.

Section Forall.
Context (P : Z → Prop).

Lemma trim_start_Forall s : Forall P s → Forall P (trim_start s).
Proof. induction 1; cbn; [done|]. case_match; [done|by apply Forall_cons_2]. Qed.

Lemma trim_Forall s : Forall P s → Forall P (trim s).
Proof.
  intros Hs. unfold trim. apply Forall_reverse, trim_start_Forall, Forall_reverse.
  by apply trim_start_Forall.
Qed.

Lemma split_once_Forall sep s k v :
  split_once sep s = Some (k, v) → Forall P s → Forall P k ∧ Forall P v.
Proof.
  revert k. induction s as [|c s IH]; intros k; cbn [split_once]; [done|]. intros Hsp Hs.
  inversion Hs; subst. case_match; [injection Hsp as <- <-; by split|].
  apply bind_Some in Hsp as ([k' v'] & Hsp & [= <- <-]). apply IH in Hsp as [? ?]; [|done].
  split; [by apply Forall_cons_2|done].
Qed.

Lemma split_crlf_Forall s : Forall P s → Forall (Forall P) (split_crlf s).
Proof.
  remember (length s) as n eqn:Hn. revert s Hn. induction n as [n IH] using lt_wf_ind.
  intros [|c [|c' s]] -> Hs.
  - by repeat constructor.
  - repeat constructor. by inversion Hs.
  - inversion Hs as [|? ? Hc Hs']; subst. inversion Hs'; subst. rewrite split_crlf_cons. case_match.
    + apply Forall_cons_2; [apply Forall_nil_2|]. eapply IH; [|done|done]. cbn; lia.
    + assert (Forall (Forall P) (split_crlf (c' :: s))) as HF by (eapply IH; [|done|done]; cbn; lia).
      destruct (split_crlf (c' :: s)); inversion HF; subst;
        repeat first [done | apply Forall_nil_2 | apply Forall_cons_2].
Qed.
End Forall.

(** * Header maps *)

Lemma header_get_push sep k k' v hs :
  header_get k (header_push sep k' v hs) =
  if bool_decide (k = k')
  then Some (match header_get k hs with Some old => old ++ sep ++ v | None => v end)
  else header_get k hs.
Proof.
  induction hs as [|[k1 v1] hs IH]; cbn [header_push header_get].
  - by case_bool_decide.
  - repeat case_bool_decide; subst; cbn [header_get]; repeat case_bool_decide; try done.
    all: rewrite IH; repeat case_bool_decide; done.
Qed.

(** The field lines of a header block: those before the first empty one. *)
Fixpoint field_lines (lines : list (list Z)) : list (list Z) :=
  match lines with
  | [] => []
  | [] :: _ => []
  | line :: lines' => line :: field_lines lines'
  end.

Section Framing.
Context `{Unicode}.

Definition fields (text : list Z) : list (bytes * bytes) :=
  omap header_field (field_lines (drop 1 (split_crlf text))).

Definition push (hs : headers) (kv : bytes * bytes) : headers :=
  header_push (header_sep kv.1) kv.1 kv.2 hs.

Lemma parse_headers_fields lines : parse_headers lines = foldl push [] (omap header_field (field_lines lines)).
Proof.
  unfold parse_headers. generalize (@nil (bytes * bytes)).
  induction lines as [|[|c line] lines IH]; intros hs; cbn [parse_headers_from field_lines]; try done.
  rewrite IH. unfold add_header_line. cbn [omap list_omap].
  by destruct (header_field (c :: line)) as [[k v]|].
Qed.

Definition scalar_value (v : bytes) : Prop := ∃ cs, Forall scalar cs ∧ v = utf8 cs.

Lemma header_field_scalar line k v :
  Forall scalar line → header_field line = Some (k, v) → scalar_value v.
Proof.
  unfold header_field. intros Hl ([k' v'] & Hs & [= _ <-])%bind_Some.
  apply (split_once_Forall scalar) in Hs as [_ Hv]; [|done].
  exists (trim v'). split; [by apply trim_Forall|done].
Qed.

Lemma fields_scalar text : Forall scalar text → Forall (fun kv => scalar_value kv.2) (fields text).
Proof.
  intros Ht%split_crlf_Forall. apply list.Forall_forall. intros [k v] (line & Hline & Hf)%list_elem_of_omap.
  apply (header_field_scalar line k v); [|done].
  assert (∀ ls, line ∈ field_lines ls → line ∈ ls) as Hsub.
  { induction ls as [|[|c l] ls IH]; cbn [field_lines]; rewrite ?elem_of_cons; set_solver. }
  apply Hsub in Hline. apply (Forall_drop _ 1) in Ht. rewrite list.Forall_forall in Ht. by apply Ht.
Qed.

Notation TE := (lit "transfer-encoding").
Notation CL := (lit "content-length").

(** The elements of a stored value. *)
Definition parts (v : bytes) : list (list Z) := trim <$> split_on 44 (chars v).

(** The values of repeated fields are joined so that their elements are. *)
Definition comma_field (k : bytes) : Prop := header_sep k = utf8 [44; 32].

Lemma parts_app k old v :
  comma_field k → scalar_value old → scalar_value v → parts (old ++ header_sep k ++ v) = parts old ++ parts v.
Proof.
  intros -> (cs & Hcs & ->) (cs' & Hcs' & ->).
  unfold parts, chars. rewrite from_utf8_lossy_app by done.
  rewrite from_utf8_lossy_app by (repeat constructor; unfold scalar; lia).
  rewrite <- (app_nil_r (utf8 cs)), <- (app_nil_r (utf8 cs')), !from_utf8_lossy_app by done.
  change (from_utf8_lossy []) with (@nil Z). rewrite !app_nil_r. cbn [app].
  by rewrite split_on_app, fmap_app, split_on_space by lia.
Qed.

Lemma scalar_value_app k old v :
  comma_field k → scalar_value old → scalar_value v → scalar_value (old ++ header_sep k ++ v).
Proof.
  intros -> (cs & Hcs & ->) (cs' & Hcs' & ->). exists (cs ++ [44; 32] ++ cs').
  split; [repeat apply Forall_app_2; try done; repeat constructor; unfold scalar; lia|].
  unfold utf8. by rewrite !fmap_app, !join_app.
Qed.

(** What a push leaves under a name is made of scalar values. *)
Lemma push_scalar k kv hs :
  comma_field k → scalar_value kv.2 → (∀ old, header_get k hs = Some old → scalar_value old) →
  ∀ v, header_get k (push hs kv) = Some v → scalar_value v.
Proof.
  intros Hk Hv Hhs v. unfold push. rewrite header_get_push. case_bool_decide as Hkk; [|apply Hhs].
  intros [= <-]. rewrite <- Hkk. destruct (header_get k hs) as [old|]; [|done]. apply scalar_value_app; auto.
Qed.

Lemma fields_stored_scalar k fs :
  comma_field k → Forall (fun kv => scalar_value kv.2) fs →
  ∀ v, header_get k (foldl push [] fs) = Some v → scalar_value v.
Proof.
  intros Hk. induction fs as [|kv fs IH] using rev_ind; [done|]. rewrite Forall_app, foldl_app.
  intros [Hfs [Hkv _]%Forall_cons_1]. cbn [foldl]. apply push_scalar; [done|done|by apply IH].
Qed.

(** The last element under a name is the last element of its last field line. *)
Lemma last_part k fs total :
  comma_field k → Forall (fun kv => scalar_value kv.2) fs → header_get k (foldl push [] fs) = Some total →
  ∃ before v after, fs = before ++ (k, v) :: after ∧ (∀ w, (k, w) ∉ after) ∧ list.last (parts total) = list.last (parts v).
Proof.
  intros Hk. revert total. induction fs as [|[k' v] fs IH] using rev_ind; intros total; [done|].
  rewrite Forall_app, foldl_app. intros [Hfs [Hv _]%Forall_cons_1]. cbn [foldl] in *. unfold push at 1.
  rewrite header_get_push. cbn [fst snd] in *. case_bool_decide as Hkk.
  - subst k'. intros [= <-]. exists fs, v, []. split; [done|]. split; [by intros w ?%not_elem_of_nil|].
    destruct (header_get k _) as [old|] eqn:Hg; [|done]. rewrite parts_app; [|done|by eapply fields_stored_scalar|done].
    rewrite last_app. destruct (list.last (parts v)) eqn:Hl; [done|]. apply last_None in Hl. unfold parts in Hl.
    by apply fmap_nil_inv, split_on_ne in Hl.
  - intros Hg. destruct (IH total Hfs Hg) as (before & w & after & -> & Hafter & Hlast).
    exists before, w, (after ++ [(k', v)]). split; [by rewrite <- app_assoc|]. split; [|done].
    intros x. rewrite elem_of_app, list_elem_of_singleton. intros [Hx|[= -> _]]; [by apply (Hafter x)|done].
Qed.

(** The last transfer coding of a field value, in lower case. *)
Definition final_coding (v : bytes) : list Z := to_ascii_lowercase (default [] (list.last (parts v))).

(** A name has a value after the loop exactly when a field line has it. *)
Lemma header_get_fields k fs hs :
  is_Some (header_get k (foldl push hs fs)) ↔
  is_Some (header_get k hs) ∨ ∃ v, (k, v) ∈ fs.
Proof.
  revert hs. induction fs as [|[k' v'] fs IH]; intros hs; cbn [foldl].
  - split; [by left|]. intros [?|(v & Hv)]; [done|]. by apply elem_of_nil in Hv.
  - rewrite IH. unfold push. cbn. rewrite header_get_push. case_bool_decide as Hk.
    + subst. split; [intros _; right; exists v'; apply list_elem_of_here|]. intros _. left. by eexists.
    + split; intros [?|(v & Hv)]; try by left.
      * right. exists v. by apply list_elem_of_further.
      * right. exists v. by apply elem_of_cons in Hv as [[= -> ->]|].
Qed.

(** Every element of every [content-length] line is an element of the stored value. *)
Lemma content_length_parts fs hs :
  Forall (fun kv => scalar_value kv.2) fs →
  (∀ old, header_get CL hs = Some old → scalar_value old) →
  ∀ total, header_get CL (foldl push hs fs) = Some total →
  (∀ old, header_get CL hs = Some old → parts old ⊆ parts total) ∧
  (∀ v, (CL, v) ∈ fs → parts v ⊆ parts total).
Proof.
  intros Hfs. revert hs. induction Hfs as [|[k v] fs Hv Hfs IH]; intros hs Hhs total Ht; cbn [foldl] in Ht.
  - split; [by intros old; rewrite Ht; intros [= ->]|]. intros v Hv. by apply elem_of_nil in Hv.
  - cbn in Hv. unfold push in Ht at 2. cbn [fst snd] in Ht.
    assert (∀ old, header_get CL (header_push (header_sep k) k v hs) = Some old → scalar_value old) as Hnew.
    { by apply (push_scalar CL (k, v) hs). }
    destruct (IH _ Hnew total Ht) as [Hold Hmem]. rewrite header_get_push in Hold. split.
    + intros old Hg. case_bool_decide as Hk; [|by apply Hold]. subst k. rewrite Hg in Hold.
      specialize (Hold _ eq_refl). rewrite parts_app in Hold by (done || auto). set_solver.
    + intros w [[= <- <-]|Hw]%elem_of_cons; [|by apply Hmem].
      rewrite bool_decide_eq_true_2 in Hold by done. specialize (Hold _ eq_refl).
      destruct (header_get CL hs) as [o|] eqn:Hg; [|done].
      rewrite parts_app in Hold by (done || auto). set_solver.
Qed.

Lemma content_length_agree value ps f :
  content_length_from value ps = Ok f → ps ≠ [] ∨ is_Some value →
  ∃ n, f = FFixed n ∧ (∀ v, value = Some v → v = n) ∧ ∀ p, p ∈ ps → parse_u64 (trim p) = Some n.
Proof.
  revert value. induction ps as [|p ps IH]; intros value; cbn [content_length_from].
  - intros [= <-] [?|[v ->]]; [done|]. exists v. split_and!; [done|by intros ? [= ->]|].
    intros p Hp. by apply elem_of_nil in Hp.
  - destruct (parse_u64 (trim p)) as [n|] eqn:E; [|done]. cbn. intros Hc _.
    assert (content_length_from (Some n) ps = Ok f ∧ ∀ v, value = Some v → v = n) as [Hn Hv].
    { destruct value as [v|]; [|done]. destruct (v =? n) eqn:Hvn; [|done]. zbool. subst.
      split; [done|]. by intros ? [= ->]. }
    apply IH in Hn as (m & -> & Hm & Hps); [|by right]. specialize (Hm n eq_refl). subst m.
    exists n. split_and!; [done..|]. intros q [->|Hq]%elem_of_cons; auto.
Qed.

Lemma body_framing_request fs f :
  Forall (fun kv => scalar_value kv.2) fs → body_framing (foldl push [] fs) true = Ok f →
  match f with
  | FChunked => (∃ before v after, fs = before ++ (TE, v) :: after ∧ (∀ w, (TE, w) ∉ after) ∧
                   final_coding v = clit "chunked") ∧ ∀ v, (CL, v) ∉ fs
  | FFixed n => (∀ v, (TE, v) ∉ fs) ∧ (∃ v, (CL, v) ∈ fs) ∧
      ∀ v part, (CL, v) ∈ fs → part ∈ split_on 44 (chars v) → parse_u64 (trim part) = Some n
  | FNone => (∀ v, (TE, v) ∉ fs) ∧ ∀ v, (CL, v) ∉ fs
  | FUntilClose | FUpgrade => False
  end.
Proof.
  intros Hfs Hf.
  assert (Habsent : ∀ k, header_get k (foldl push [] fs) = None → ∀ v, (k, v) ∉ fs).
  { intros k Hk v Hv. pose proof (header_get_fields k fs []) as [_ Hsome].
    rewrite Hk in Hsome. destruct Hsome; [right; by exists v|done]. }
  assert (Hpresent : ∀ k v, header_get k (foldl push [] fs) = Some v → ∃ v, (k, v) ∈ fs).
  { intros k v Hk. pose proof (header_get_fields k fs []) as [Hsome _].
    rewrite Hk in Hsome. by destruct Hsome as [[? ?]|]. }
  unfold body_framing in Hf.
  destruct (header_get TE (foldl push [] fs)) as [te|] eqn:Hte,
           (header_get CL (foldl push [] fs)) as [cl|] eqn:Hcl; [done|..].
  - case_bool_decide as Hch; [|done]. injection Hf as <-. split; [|by apply Habsent].
    destruct (last_part TE fs te ltac:(done) Hfs Hte) as (before & v & after & Heq & Hafter & Hlast).
    exists before, v, after. split_and!; [done..|]. unfold final_coding. rewrite <- Hlast, <- Hch. unfold parts.
    rewrite fmap_last, <- head_reverse, <- head_lookup. by destruct (list.head (reverse _)).
  - apply content_length_agree in Hf as (n & -> & _ & Hps); [|left; apply split_on_ne].
    split_and!; [by apply Habsent|by eapply Hpresent|]. intros v part Hv Hpart.
    destruct (content_length_parts fs [] Hfs ltac:(done) cl Hcl) as [_ Hmem].
    specialize (Hmem v Hv (trim part)). unfold parts in Hmem at 1.
    destruct (list_elem_of_fmap_1 trim _ _ (Hmem (list_elem_of_fmap_2 _ _ _ Hpart)))
      as (q & -> & Hq). by apply Hps.
  - injection Hf as <-. split; by apply Habsent.
Qed.
End Framing.

(** C23: The framing of a request is never guessed. When its head is accepted, a chunked body means
    that there is a transfer-encoding line, that in the last of these lines the last element, without blanks around and
    in whatever case, is [chunked], and that no line is a content length; a counted body means that no field line is a
    transfer encoding and that every element of every content-length line reads as the same number; no body
    means that there is neither. Every other combination is refused. *)
Theorem request_framing_unambiguous `{Unicode} head to_head to_connect text r f :
  from_utf8 head = Some text →
  parse_head head to_head to_connect = Ok (Request r, f) →
  match f with
  | FChunked =>
      (∃ before v after, fields text = before ++ (lit "transfer-encoding", v) :: after ∧
         (∀ w, (lit "transfer-encoding", w) ∉ after) ∧ final_coding v = clit "chunked") ∧
      ∀ v, (lit "content-length", v) ∉ fields text
  | FFixed n => (∀ v, (lit "transfer-encoding", v) ∉ fields text) ∧
      (∃ v, (lit "content-length", v) ∈ fields text) ∧
      ∀ v part, (lit "content-length", v) ∈ fields text → part ∈ split_on 44 (chars v) →
        parse_u64 (trim part) = Some n
  | FNone => (∀ v, (lit "transfer-encoding", v) ∉ fields text) ∧
      ∀ v, (lit "content-length", v) ∉ fields text
  | FUntilClose | FUpgrade => False
  end.
Proof.
  intros Htext Hp. unfold parse_head in Hp. rewrite Htext in Hp. cbn in Hp.
  destruct (strip_prefix _ _) as [rest|].
  - unfold parse_status_line in Hp. destruct (_ ≫= parse_i32) as [s|]; cbn in Hp; [|done].
    case_match; [done|]. case_match; cbn in Hp; [done|]. case_match; cbn in Hp; [done|].
    by destruct (body_framing _ _).
  - unfold parse_request_line in Hp. destruct (_ !! 1%nat) as [p|]; cbn in Hp; [|done].
    case_match; [done|]. destruct (body_framing _ _) as [f'|] eqn:Hf; cbn in Hp; [|done].
    injection Hp as <- <-. rewrite parse_headers_fields in Hf. fold (fields text) in Hf.
    apply body_framing_request; [|done]. by eapply fields_scalar, from_utf8_scalar.
Qed.

Definition demo_text : list Z := default [] (from_utf8 demo_head_1).

Definition demo_request : HttpRequestParsed :=
  {| rq_method := lit "POST"; rq_path := lit "/a"; rq_host := Some (lit "h");
     rq_headers := [(lit "host", lit "h"); (lit "content-length", lit "5")]; rq_body := [] |}.

Lemma request_framing_unambiguous_witness :
  from_utf8 demo_head_1 = Some demo_text ∧
  parse_head (H := ascii_only) demo_head_1 false false = Ok (Request demo_request, FFixed 5) ∧
  ∀ v part, (lit "content-length", v) ∈ fields (H := ascii_only) demo_text →
    part ∈ split_on 44 (chars v) → parse_u64 (trim part) = Some 5.
Proof.
  assert (from_utf8 demo_head_1 = Some demo_text) as Ht by (vm_compute; reflexivity).
  assert (parse_head (H := ascii_only) demo_head_1 false false = Ok (Request demo_request, FFixed 5))
    as Hp by (vm_compute; reflexivity).
  split; [exact Ht|split; [exact Hp|]].
  apply (request_framing_unambiguous (H := ascii_only) demo_head_1 false false demo_text
           demo_request (FFixed 5) Ht Hp).
Defined.

(** What is a number is decided by [str::parse], which takes a sign: [+5] is a length, for a chunk as
    for a content length, although the grammar of both is digits only. *)
Lemma signed_lengths_accepted :
  body_framing [(lit "content-length", lit "+5")] true = Ok (FFixed 5) ∧
  size_line (lit "+5") = Some 5.
Proof. split; vm_compute; reflexivity. Qed.
