(* ===== verification/Http2.v ===== *)
(** The incremental HTTP/2 parser of [userspace/src/http2.rs]: [Http2HpackDecoder] and
    [Http2Direction], one per direction of a connection.

    The HPACK tables are those of the [hpack] crate: a parameter [table] with the crate's decoder
    [hpack_decode], which can also panic; the code relies on nothing else of it. A function that
    adds to [H2_PARSE_ERRORS] also returns how much it adds. *)

From S2P Require Import Prelude.
From S2P Require Import Pending Text Http1.
From Stdlib Require Import Strings.String.

#[local] Notation length := List.length.
#[local] Open Scope list_scope.
#[local] Open Scope Z_scope.

Definition HTTP2_PREFACE : bytes := lit "PRI * HTTP/2.0".

Definition HTTP2_CONNECTION_PREFACE : bytes :=
  HTTP2_PREFACE ++ CRLF ++ CRLF ++ lit "SM" ++ CRLF ++ CRLF.

Definition H2_DEFAULT_MAX_FRAME_SIZE : Z := 16384.
Definition H2_MAX_ACCEPTED_FRAME : Z := 2 ^ 20.
Definition H2_MAX_HEADER_BLOCK_BYTES : Z := 128 * 1024.
Definition RESET_THRESHOLD : Z := 3.

(** [usize::clamp]. *)
Definition clamp (lo hi n : Z) : Z := Z.max lo (Z.min hi n).

(** [flags & bit != 0]. *)
Definition has_flag (flags bit : Z) : bool := negb (Z.land flags bit =? 0).

(** * Checking a header block *)

(** The loop of [read_hpack_int]: [total] octets are read, at most five in all. *)
Fixpoint hpack_ext (bs : bytes) (result shift total : Z) : option (Z * Z) :=
  match bs with
  | [] => None
  | b :: bs' =>
      let result := result + Z.shiftl (Z.land (byte_val b) 127) shift in
      let total := total + 1 in
      if Z.land (byte_val b) 128 =? 0 then Some (result, total)
      else if 5 <=? total then None
      else hpack_ext bs' result (shift + 7) total
  end.

(** Value and octets of an integer with a prefix of [prefix_bits] bits. *)
Definition read_hpack_int (block : bytes) (prefix_bits : Z) : option (Z * Z) :=
  match block with
  | [] => None
  | b :: rest =>
      let mask := 2 ^ prefix_bits - 1 in
      let val := Z.land (byte_val b) mask in
      if val <? mask then Some (val, 1) else hpack_ext rest mask 0 1
  end.

Definition skip_hpack_string (block : bytes) : option Z :=
  '(str_len, int_consumed) ← read_hpack_int block 7;
  let total := int_consumed + str_len in
  if zlen block <? total then None else Some total.

(** A literal field: an index, its name when the index is zero, its value. *)
Definition skip_literal (block : bytes) (prefix_bits : Z) : option Z :=
  '(index, n) ← read_hpack_int block prefix_bits;
  n ← (if index =? 0 then k ← skip_hpack_string (zdrop n block); Some (n + k) else Some n);
  k ← skip_hpack_string (zdrop n block);
  Some (n + k).

(** One entry of a block: how many bytes it takes. *)
Definition skip_hpack_entry (block : bytes) : option Z :=
  match block with
  | [] => None
  | b :: _ =>
      let byte := byte_val b in
      if negb (Z.land byte 128 =? 0) then snd <$> read_hpack_int block 7
      else if Z.land byte 192 =? 64 then skip_literal block 6
      else if Z.land byte 224 =? 32 then snd <$> read_hpack_int block 5
      else skip_literal block 4
  end.

Fixpoint validate_from (fuel : nat) (block : bytes) : bool :=
  match block, fuel with
  | [], _ => true
  | _, O => false
  | _, S fuel =>
      match skip_hpack_entry block with
      | Some n => validate_from fuel (zdrop n block)
      | None => false
      end
  end.

(** Every entry takes at least one byte. *)
Definition validate_hpack_block (block : bytes) : bool := validate_from (length block) block.

(** * Items *)

Inductive H2Item :=
| Headers (stream_id : Z) (hs : headers) (end_stream : bool)
| Data (stream_id : Z) (data : bytes) (end_stream : bool)
| Reset (stream_id : Z)
| GoAway (last_stream_id : Z).

Record HeaderBlock := {
  hb_stream_id : Z;
  hb_bytes : bytes;
  hb_end_stream : bool;
  hb_promise : bool
}.

(** What the crate's decoder does with a block. *)
Inductive hpack_result := HOk (fields : list (bytes * bytes)) | HErr | HPanic.

(** [insert_header] joins the values of a repeated name. *)
Definition h2_sep (name : bytes) : bytes :=
  if bool_decide (name = lit "cookie") then lit "; "
  else if bool_decide (name = lit "set-cookie") then [x0a] else lit ", ".

Definition insert_header (hs : headers) (name value : bytes) : headers :=
  header_push (h2_sep name) name value hs.

Definition insert_field (hs : headers) (field : bytes * bytes) : headers :=
  let name := utf8 (to_ascii_lowercase (from_utf8_lossy field.1)) in
  if zlen name =? 0 then hs else insert_header hs name (utf8 (from_utf8_lossy field.2)).

(** The payload without its padding. *)
Definition unpad (flags : Z) (payload : bytes) : option bytes :=
  if negb (has_flag flags 8) then Some payload else
  match payload with
  | [] => None
  | pad :: rest =>
      if zlen rest <? byte_val pad then None else Some (ztake (zlen rest - byte_val pad) rest)
  end.

(** The [SETTINGS_MAX_FRAME_SIZE] values of a SETTINGS payload; the last one stays. *)
Fixpoint scan_settings (payload : bytes) (announced : option Z) : option Z :=
  match payload with
  | a :: b :: c :: d :: e :: f :: payload' =>
      scan_settings payload'
        (if be_val [a; b] =? 5
         then Some (clamp H2_DEFAULT_MAX_FRAME_SIZE (2 ^ 24 - 1) (be_val [c; d; e; f]))
         else announced)
  | _ => announced
  end.

(** * One direction *)

Section Http2.
Context {table : Type} (hpack_new : table).
Context (hpack_decode : table → bytes → hpack_result * table).

Record Http2HpackDecoder := { hd_inner : table; hd_error_count : Z }.

Definition Http2HpackDecoder_new : Http2HpackDecoder :=
  {| hd_inner := hpack_new; hd_error_count := 0 |}.

(** An error is counted; the third one in a row resets the decoder. *)
Definition count_error (h : Http2HpackDecoder) : Http2HpackDecoder :=
  let n := hd_error_count h + 1 in
  if RESET_THRESHOLD <=? n then Http2HpackDecoder_new
  else {| hd_inner := hd_inner h; hd_error_count := n |}.

Definition decode (block : bytes) (h : Http2HpackDecoder)
    : option (list (bytes * bytes)) * Http2HpackDecoder :=
  if negb (validate_hpack_block block) then (None, count_error h) else
  match hpack_decode (hd_inner h) block with
  | (HPanic, _) => (None, Http2HpackDecoder_new)
  | (HOk fields, inner) => (Some fields, {| hd_inner := inner; hd_error_count := 0 |})
  | (HErr, inner) => (None, count_error {| hd_inner := inner; hd_error_count := hd_error_count h |})
  end.

Record Http2Direction := {
  d_buf : bytes;
  d_hpack : Http2HpackDecoder;
  d_preface_done : bool;
  d_continuation : option HeaderBlock;
  d_max_frame : Z;
  d_announced_max_frame : option Z;
  d_broken : bool
}.

#[local] Instance Http2Direction_fields : Fields Http2Direction := fun d =>
  Build_Http2Direction (d_buf d) (d_hpack d) (d_preface_done d) (d_continuation d) (d_max_frame d)
    (d_announced_max_frame d) (d_broken d).

Definition Http2Direction_new (expect_preface : bool) : Http2Direction := {|
  d_buf := []; d_hpack := Http2HpackDecoder_new; d_preface_done := negb expect_preface;
  d_continuation := None; d_max_frame := H2_DEFAULT_MAX_FRAME_SIZE;
  d_announced_max_frame := None; d_broken := false |}.

Definition buffered (d : Http2Direction) : Z :=
  zlen (d_buf d) + match d_continuation d with Some b => zlen (hb_bytes b) | None => 0 end.

Definition set_max_frame (size : Z) (d : Http2Direction) : Http2Direction :=
  d <| d_max_frame := clamp H2_DEFAULT_MAX_FRAME_SIZE H2_MAX_ACCEPTED_FRAME size |>.

Definition fail (d : Http2Direction) : Http2Direction :=
  d <| d_broken := true |> <| d_buf := [] |> <| d_continuation := None |>.

(** The direction, the items pushed, the errors counted. *)
Definition effect : Type := Http2Direction * list H2Item * Z.

Definition failed (d : Http2Direction) : effect := (fail d, [], 1).

Definition finish_block (block : HeaderBlock) (d : Http2Direction) : effect :=
  let '(decoded, h) := decode (hb_bytes block) (d_hpack d) in
  let d := d <| d_hpack := h |> in
  match decoded with
  | None => (d, [], 1)
  | Some fields =>
      if hb_promise block then (d, [], 0)
      else (d, [Headers (hb_stream_id block) (foldl insert_field [] fields) (hb_end_stream block)], 0)
  end.

(** A block is complete with END_HEADERS, and waits for CONTINUATION otherwise. *)
Definition open_or_finish (flags : Z) (block : HeaderBlock) (d : Http2Direction) : effect :=
  if has_flag flags 4 then finish_block block d else (d <| d_continuation := Some block |>, [], 0).

Definition on_continuation (open : HeaderBlock) (ftype flags stream_id : Z) (payload : bytes)
    (d : Http2Direction) : effect :=
  if negb (ftype =? 9) || negb (stream_id =? hb_stream_id open) then failed d
  else if H2_MAX_HEADER_BLOCK_BYTES <? zlen (hb_bytes open) + zlen payload then failed d
  else open_or_finish flags
         {| hb_stream_id := hb_stream_id open; hb_bytes := hb_bytes open ++ payload;
            hb_end_stream := hb_end_stream open; hb_promise := hb_promise open |} d.

Definition on_headers (flags stream_id : Z) (payload : bytes) (d : Http2Direction) : effect :=
  if stream_id =? 0 then failed d else
  match unpad flags payload with
  | None => failed d
  | Some frag =>
      if has_flag flags 32 && (zlen frag <? 5) then failed d else
      let frag := if has_flag flags 32 then zdrop 5 frag else frag in
      if H2_MAX_HEADER_BLOCK_BYTES <? zlen frag then failed d
      else open_or_finish flags
             {| hb_stream_id := stream_id; hb_bytes := frag; hb_end_stream := has_flag flags 1;
                hb_promise := false |} d
  end.

Definition on_frame (ftype flags stream_id : Z) (payload : bytes) (d : Http2Direction) : effect :=
  match d_continuation d with
  | Some open =>
      on_continuation open ftype flags stream_id payload (d <| d_continuation := None |>)
  | None =>
      match ftype with
      | 0 =>
          if stream_id =? 0 then failed d else
          match unpad flags payload with
          | None => failed d
          | Some data => (d, [Data stream_id data (has_flag flags 1)], 0)
          end
      | 1 => on_headers flags stream_id payload d
      | 3 => (d, if stream_id =? 0 then [] else [Reset stream_id], 0)
      | 4 =>
          if negb (has_flag flags 1) && (zlen payload mod 6 =? 0)
          then (d <| d_announced_max_frame := scan_settings payload (d_announced_max_frame d) |>, [], 0)
          else (d, [], 0)
      | 5 =>
          match unpad flags payload with
          | None => failed d
          | Some frag =>
              if (zlen frag <? 4) || (H2_MAX_HEADER_BLOCK_BYTES <? zlen frag - 4) then failed d
              else open_or_finish flags
                     {| hb_stream_id := stream_id; hb_bytes := zdrop 4 frag;
                        hb_end_stream := false; hb_promise := true |} d
          end
      | 7 =>
          if negb (stream_id =? 0) || (zlen payload <? 8) then failed d
          else (d, [GoAway (Z.land (be_val (ztake 4 payload)) (2 ^ 31 - 1))], 0)
      | 9 => failed d
      | _ => (d, [], 0)
      end
  end.

(** The frame at the start of [b], when it is all there. *)
Record frame := { f_type : Z; f_flags : Z; f_stream : Z; f_payload : bytes }.

Definition frame_len (b : bytes) : Z := be_val (ztake 3 b).

Definition frame_at (b : bytes) : frame := {|
  f_type := byte_val (byte_at b 3);
  f_flags := byte_val (byte_at b 4);
  f_stream := Z.land (be_val (ztake 4 (zdrop 5 b))) (2 ^ 31 - 1);
  f_payload := ztake (frame_len b) (zdrop 9 b)
|}.

(** Items [out] and errors [errs] before an effect. *)
Definition andthen (out : list H2Item) (errs : Z) (e : effect) : effect :=
  let '(d, out', errs') := e in (d, out ++ out', errs + errs').

(** The loop of [feed]; [b] is the buffer from [pos] on. Every frame takes at least nine bytes. *)
Fixpoint feed_frames (fuel : nat) (d : Http2Direction) (b : bytes) : effect :=
  match fuel with
  | O => (d <| d_buf := b |>, [], 0)
  | S fuel =>
      if zlen b <? 9 then (d <| d_buf := b |>, [], 0)
      else if d_max_frame d <? frame_len b then failed d
      else if zlen b <? 9 + frame_len b then (d <| d_buf := b |>, [], 0)
      else
        let f := frame_at b in
        let '(d, out, errs) := on_frame (f_type f) (f_flags f) (f_stream f) (f_payload f) d in
        if d_broken d then (d, out, errs)
        else andthen out errs (feed_frames fuel d (zdrop (9 + frame_len b) b))
  end.

Definition run_frames (d : Http2Direction) (b : bytes) : effect := feed_frames (length b) d b.

Definition feed (data : bytes) (d : Http2Direction) : effect :=
  if d_broken d then (d, [], 0) else
  let buf := d_buf d ++ data in
  if d_preface_done d then run_frames d buf
  else if zlen HTTP2_CONNECTION_PREFACE <=? zlen buf then
    if starts_with HTTP2_CONNECTION_PREFACE buf
    then run_frames (d <| d_preface_done := true |>) (zdrop (zlen HTTP2_CONNECTION_PREFACE) buf)
    else failed d
  else if starts_with buf HTTP2_CONNECTION_PREFACE then (d <| d_buf := buf |>, [], 0)
  else failed d.
End Http2.
