(* ===== verification/Http2Props.v ===== *)
(** Properties of the HTTP/2 parser ([Http2]): it does not depend on how its bytes are cut into reads,
    every frame is handled once and in order, what it buffers is bounded, and a block that reaches
    the HPACK decoder is a sequence of complete entries. *)

From S2P Require Import Prelude Pending Memory Text Http1 Http1Props Http2.
From Stdlib Require Import Strings.String.

#[local] Notation length := List.length.
#[local] Open Scope list_scope.
#[local] Open Scope Z_scope.

Lemma be_val_range bs : 0 <= be_val bs < 2 ^ (8 * zlen bs).
Proof.
  unfold be_val. induction bs as [|b bs IH] using rev_ind; [by cbn|].
  rewrite foldl_snoc, zlen_app. change (zlen [b]) with 1. pose proof (byte_val_range b).
  pose proof (zlen_nonneg bs).
  replace (8 * (zlen bs + 1)) with (8 * zlen bs + 8) by lia.
  rewrite Z.pow_add_r by lia. change (2 ^ 8) with 256. lia.
Qed.

Lemma frame_len_nonneg b : 0 <= frame_len b.
Proof. apply be_val_range. Qed.

Section Http2.
Context {table : Type} (hpack_new : table).
Context (hpack_decode : table → bytes → hpack_result * table).

Notation direction := (Http2Direction (table := table)).
Notation on_frame := (on_frame hpack_new hpack_decode).
Notation finish_block := (finish_block hpack_new hpack_decode).
Notation open_or_finish := (open_or_finish hpack_new hpack_decode).
Notation feed_frames := (feed_frames hpack_new hpack_decode).
Notation run_frames := (run_frames hpack_new hpack_decode).
Notation feed := (feed hpack_new hpack_decode).

#[local] Existing Instance Http2Direction_fields.

Implicit Types d : direction.

(** * One frame *)

(** The buffer is not looked at while a frame is handled. *)
Definition commutes (x : bytes) (e e' : effect (table := table)) : Prop :=
  let '(d, out, errs) := e in
  e' = (if d_broken d then d else d <| d_buf := x |>, out, errs).

Lemma failed_commutes x d d' : d' = d <| d_buf := x |> → commutes x (failed d) (failed d').
Proof. by intros ->. Qed.

Lemma finish_block_commutes x block d : d_broken d = false →
  commutes x (finish_block block d) (finish_block block (d <| d_buf := x |>)).
Proof.
  intros Hb. unfold Http2.finish_block.
  change (d_hpack (d <| d_buf := x |>)) with (d_hpack d).
  destruct (decode _ _ _ _) as [[fields|] h]; [case_match|]; cbn; by rewrite Hb.
Qed.

Lemma open_or_finish_commutes x flags block d : d_broken d = false →
  commutes x (open_or_finish flags block d) (open_or_finish flags block (d <| d_buf := x |>)).
Proof.
  intros Hb. unfold Http2.open_or_finish. case_match; [by apply finish_block_commutes|].
  cbn. by rewrite Hb.
Qed.

Lemma on_frame_commutes x ftype flags sid payload d : d_broken d = false →
  commutes x (on_frame ftype flags sid payload d) (on_frame ftype flags sid payload (d <| d_buf := x |>)).
Proof.
  intros Hb. unfold Http2.on_frame.
  change (d_continuation (d <| d_buf := x |>)) with (d_continuation d).
  assert (Hsame : ∀ out, commutes x (d, out, 0) (d <| d_buf := x |>, out, 0)) by (intros; cbn; by rewrite Hb).
  destruct (d_continuation d) as [open|].
  - change (d <| d_buf := x |> <| d_continuation := None |>)
      with (d <| d_continuation := None |> <| d_buf := x |>).
    unfold on_continuation. repeat (case_match; [by apply failed_commutes|]).
    by apply (open_or_finish_commutes x flags _ (d <| d_continuation := None |>)).
  - unfold on_headers. repeat case_match; try apply Hsame; try by apply failed_commutes.
    all: try by apply open_or_finish_commutes.
    cbn. by rewrite Hb.
Qed.

Definition after_frame (d d' : direction) : Prop :=
  d_preface_done d' = d_preface_done d ∧ d_max_frame d' = d_max_frame d.

Lemma on_frame_after ftype flags sid payload d :
  after_frame d (on_frame ftype flags sid payload d).1.1.
Proof.
  assert (∀ block (d1 : direction), after_frame d1 (finish_block block d1).1.1) as Hf.
  { intros block d1. unfold Http2.finish_block. destruct (decode _ _ _ _) as [[|] h]; by repeat case_match. }
  assert (∀ block (d1 : direction), after_frame d1 (open_or_finish flags block d1).1.1) as Ho.
  { intros block d1. unfold Http2.open_or_finish. by case_match. }
  unfold Http2.on_frame, on_continuation, on_headers. repeat case_match; try done.
  all: match goal with |- after_frame _ (open_or_finish _ ?b ?d1).1.1 => apply (Ho b d1) end.
Qed.

(** * The loop *)

Lemma feed_frames_fuel fuel fuel' d b :
  (length b <= fuel)%nat → (length b <= fuel')%nat → feed_frames fuel d b = feed_frames fuel' d b.
Proof.
  revert fuel' d b. induction fuel as [|fuel IH]; intros fuel' d b Hf Hf'.
  - destruct b; [|cbn in Hf; lia]. by destruct fuel'.
  - destruct fuel' as [|fuel']; [destruct b; [done|cbn in Hf'; lia]|]. cbn [Http2.feed_frames].
    pose proof (frame_len_nonneg b). case_match; [done|]. case_match; [done|]. case_match; [done|].
    destruct (on_frame _ _ _ _ _) as [[d1 out] errs]. case_match; [done|]. zbool.
    assert (length (zdrop (9 + frame_len b) b) < length b)%nat
      by (unfold zdrop; rewrite length_drop; unfold zlen in *; lia).
    f_equal. apply IH; lia.
Qed.

(** The loop as an equation. *)
Lemma run_frames_unfold d b :
  run_frames d b =
  if zlen b <? 9 then (d <| d_buf := b |>, [], 0)
  else if d_max_frame d <? frame_len b then failed d
  else if zlen b <? 9 + frame_len b then (d <| d_buf := b |>, [], 0)
  else
    let f := frame_at b in
    let '(d, out, errs) := on_frame (f_type f) (f_flags f) (f_stream f) (f_payload f) d in
    if d_broken d then (d, out, errs)
    else andthen out errs (run_frames d (zdrop (9 + frame_len b) b)).
Proof.
  unfold Http2.run_frames. rewrite (feed_frames_fuel (length b) (S (length b))) by lia.
  cbn [Http2.feed_frames]. repeat (case_match; [done|]).
  destruct (on_frame _ _ _ _ _) as [[d1 out] errs]. case_match; [done|].
  f_equal. apply feed_frames_fuel; [|done]. unfold zdrop. rewrite length_drop. lia.
Qed.

(** Induction on a buffer, one frame at a time. *)
Lemma frames_ind (P : bytes → Prop) :
  (∀ b, (9 <= zlen b → P (zdrop (9 + frame_len b) b)) → P b) → ∀ b, P b.
Proof.
  intros Hstep b. remember (length b) as n eqn:Hn. revert b Hn.
  induction n as [n IH] using lt_wf_ind. intros b ->. apply Hstep. intros Hb.
  pose proof (frame_len_nonneg b). eapply IH; [|done].
  unfold zdrop. rewrite length_drop. unfold zlen in *. lia.
Qed.

Lemma run_frames_buf x b d : d_broken d = false → run_frames (d <| d_buf := x |>) b = run_frames d b.
Proof.
  revert d. induction b as [b IH] using frames_ind. intros d Hb.
  rewrite !run_frames_unfold. change (d_max_frame (d <| d_buf := x |>)) with (d_max_frame d).
  case_match; [done|]. case_match; [done|]. case_match; [done|]. zbool. cbn zeta.
  pose proof (on_frame_commutes x (f_type (frame_at b)) (f_flags (frame_at b))
                (f_stream (frame_at b)) (f_payload (frame_at b)) d Hb) as Hc.
  unfold commutes in Hc. destruct (on_frame _ _ _ _ d) as [[d1 out] errs]. rewrite Hc.
  destruct (d_broken d1) eqn:Hb1; [by rewrite Hb1|].
  change (d_broken (d1 <| d_buf := x |>)) with (d_broken d1). rewrite Hb1. by rewrite IH by (done || lia).
Qed.

Lemma andthen_nil (e : effect (table := table)) : andthen [] 0 e = e.
Proof. by destruct e as [[d out] errs]. Qed.

Lemma andthen_andthen out errs out' errs' (e : effect (table := table)) :
  andthen out errs (andthen out' errs' e) = andthen (out ++ out') (errs + errs') e.
Proof. destruct e as [[d o] n]. cbn. by rewrite app_assoc, Z.add_assoc. Qed.

Lemma frame_at_app x y : 9 <= zlen x → 9 + frame_len x <= zlen x →
  frame_len (x ++ y) = frame_len x ∧ frame_at (x ++ y) = frame_at x.
Proof.
  intros Hx Hl. assert (frame_len (x ++ y) = frame_len x) as Hlen
    by (unfold frame_len; by rewrite ztake_app by lia).
  split; [done|]. unfold frame_at. rewrite Hlen, !zdrop_app by lia.
  rewrite !ztake_app by (rewrite zlen_zdrop; lia).
  unfold byte_at. by rewrite !app_nth1 by (unfold zlen in *; lia).
Qed.

Lemma run_frames_app x y d : d_broken d = false →
  run_frames d (x ++ y) =
  let '(d1, out, errs) := run_frames d x in
  if d_broken d1 then (d1, out, errs) else andthen out errs (run_frames d1 (d_buf d1 ++ y)).
Proof.
  revert d. induction x as [x IH] using frames_ind. intros d Hb. pose proof (zlen_nonneg y).
  assert (Hwait : run_frames d (x ++ y) =
    let '(d1, out, errs) := (d <| d_buf := x |>, [], 0) in
    if d_broken d1 then (d1, out, errs) else andthen out errs (run_frames d1 (d_buf d1 ++ y))).
  { change (d_broken (d <| d_buf := x |>)) with (d_broken d).
    by rewrite Hb, andthen_nil, run_frames_buf. }
  rewrite (run_frames_unfold d x). destruct (zlen x <? 9) eqn:H9; [done|]. zbool.
  assert (frame_len (x ++ y) = frame_len x) as Hlen
    by (unfold frame_len; by rewrite ztake_app by lia).
  destruct (d_max_frame d <? frame_len x) eqn:Hmax;
    [|destruct (zlen x <? 9 + frame_len x) eqn:Hall; [done|]];
    rewrite (run_frames_unfold d (x ++ y)), zlen_app, Hlen.
  - replace (zlen x + zlen y <? 9) with false by lia. by rewrite Hmax.
  - zbool. replace (zlen x + zlen y <? 9) with false by lia.
    replace (d_max_frame d <? frame_len x) with false by lia.
    replace (zlen x + zlen y <? 9 + frame_len x) with false by lia.
    destruct (frame_at_app x y) as [_ ->]; [lia..|]. cbn zeta.
    destruct (on_frame _ _ _ _ d) as [[d1 out] errs]. destruct (d_broken d1) eqn:Hb1; [by rewrite Hb1|].
    rewrite zdrop_app, IH by (done || lia).
    destruct (run_frames d1 _) as [[d2 out'] errs']. cbn [andthen].
    destruct (d_broken d2); [done|]. by rewrite andthen_andthen.
Qed.

Lemma run_frames_after d b :
  d_broken (run_frames d b).1.1 = true ∨ d_preface_done (run_frames d b).1.1 = d_preface_done d.
Proof.
  revert d. induction b as [b IH] using frames_ind. intros d. rewrite run_frames_unfold.
  destruct (zlen b <? 9) eqn:H9; [by right|].
  destruct (d_max_frame d <? frame_len b); [by left|].
  destruct (zlen b <? 9 + frame_len b); [by right|]. cbn zeta. zbool.
  pose proof (on_frame_after (f_type (frame_at b)) (f_flags (frame_at b)) (f_stream (frame_at b))
                (f_payload (frame_at b)) d) as [Hp _].
  destruct (on_frame _ _ _ _ d) as [[d1 out] errs]. cbn in Hp.
  destruct (d_broken d1) eqn:Hb1; [by left|]. specialize (IH ltac:(lia) d1).
  destruct (run_frames d1 _) as [[d2 out'] errs']. cbn in *. by rewrite <- Hp.
Qed.

Lemma starts_with_app (p s s' : bytes) :
  (length p <= length s)%nat → starts_with p (s ++ s') = starts_with p s.
Proof. intros Hl. unfold starts_with. by rewrite take_app_le. Qed.

(** A buffer that is neither the preface nor a part of it never becomes one. *)
Lemma not_preface (p s s' : bytes) :
  (length s < length p)%nat → starts_with s p = false →
  starts_with p (s ++ s') = false ∧ starts_with (s ++ s') p = false.
Proof.
  unfold starts_with. intros Hl. rewrite !bool_decide_eq_false. intros Hs. split.
  - intros Hp. apply Hs. rewrite <- Hp, take_take, Nat.min_l, take_app_le, firstn_all by lia. done.
  - intros Hp. apply Hs. rewrite <- (take_app_length s s') at 2. rewrite <- Hp, take_take.
    f_equal. rewrite length_app. lia.
Qed.

Lemma feed_app a b d :
  feed (a ++ b) d = let '(d1, out, errs) := feed a d in andthen out errs (feed b d1).
Proof.
  destruct (d_broken d) eqn:Hb.
  { unfold Http2.feed. rewrite Hb. cbn. by rewrite Hb. }
  assert (Hloop : ∀ d0 x, d_broken d0 = false → d_preface_done d0 = true →
    run_frames d0 (x ++ b) =
    let '(d1, out, errs) := run_frames d0 x in andthen out errs (feed b d1)).
  { intros d0 x Hb0 Hp0. rewrite run_frames_app by done. pose proof (run_frames_after d0 x) as Hafter.
    destruct (run_frames d0 x) as [[d1 out] errs]. cbn in Hafter. unfold Http2.feed.
    destruct (d_broken d1) eqn:Hb1; [by cbn; rewrite app_nil_r, Z.add_0_r|].
    destruct Hafter as [|Hp1]; [done|]. by rewrite Hp1, Hp0. }
  unfold Http2.feed at 1 2. rewrite Hb, app_assoc. set (x := d_buf d ++ a).
  destruct (d_preface_done d) eqn:Hp; [by apply Hloop|].
  set (p := HTTP2_CONNECTION_PREFACE). rewrite zlen_app. pose proof (zlen_nonneg b).
  destruct (zlen p <=? zlen x) eqn:Hlen; zbool.
  - replace (zlen p <=? zlen x + zlen b) with true by lia.
    rewrite starts_with_app by (unfold zlen in *; lia). destruct (starts_with p x) eqn:Hsw.
    + rewrite zdrop_app by lia. by apply Hloop.
    + done.
  - destruct (starts_with x p) eqn:Hpre; cbn [andthen].
    + unfold Http2.feed. change (d_broken (d <| d_buf := x |>)) with (d_broken d).
      change (d_preface_done (d <| d_buf := x |>)) with (d_preface_done d).
      change (d_buf (d <| d_buf := x |>)) with x. rewrite Hb, Hp, zlen_app. fold p.
      destruct (zlen p <=? _) eqn:Hl2; [destruct (starts_with p _)|destruct (starts_with _ p)];
        rewrite ?andthen_nil; try done.
      symmetry. by rewrite <- (run_frames_buf x _ (d <| d_preface_done := true |>)).
    + destruct (not_preface p x b) as [-> ->]; [unfold zlen in *; lia|done|].
      by destruct (zlen p <=? _).
Qed.

(** * Reads *)

Fixpoint feed_reads (reads : list bytes) (d : direction) : effect :=
  match reads with
  | [] => (d, [], 0)
  | data :: reads' => let '(d, out, errs) := feed data d in andthen out errs (feed_reads reads' d)
  end.

Lemma feed_new_nil expect :
  feed [] (Http2Direction_new hpack_new expect) = (Http2Direction_new hpack_new expect, [], 0).
Proof. by destruct expect. Qed.

Lemma feed_reads_from a d reads :
  (let '(d, out, errs) := feed a d in andthen out errs (feed_reads reads d)) = feed (a ++ mjoin reads) d.
Proof.
  revert a d. induction reads as [|b reads IH]; intros a d.
  - change (mjoin []) with (@nil byte). rewrite app_nil_r. destruct (feed a d) as [[d1 out] errs].
    cbn. by rewrite app_nil_r, Z.add_0_r.
  - change (mjoin (b :: reads)) with (b ++ mjoin reads). rewrite feed_app.
    destruct (feed a d) as [[d1 out] errs]. cbn [feed_reads]. by rewrite IH.
Qed.

(** * Frames on the wire *)

Definition be_bytes (n : nat) (z : Z) : bytes := reverse (le_bytes n z).

Lemma be_val_reverse bs : be_val (reverse bs) = le_val bs.
Proof.
  unfold be_val. induction bs as [|b bs IH]; [done|].
  rewrite reverse_cons, foldl_snoc, IH. cbn [le_val]. lia.
Qed.

Lemma be_val_be_bytes n z : 0 <= z < 2 ^ (8 * Z.of_nat n) → be_val (be_bytes n z) = z.
Proof. intros Hz. unfold be_bytes. by rewrite be_val_reverse, le_val_le_bytes, wrap_small. Qed.

Lemma zlen_be_bytes n z : zlen (be_bytes n z) = Z.of_nat n.
Proof. unfold be_bytes, zlen. by rewrite length_reverse, length_le_bytes. Qed.

Definition frame_prefix (f : frame) : bytes :=
  be_bytes 3 (zlen (f_payload f)) ++ [byte_of_Z (f_type f); byte_of_Z (f_flags f)] ++
  be_bytes 4 (f_stream f).

Definition encode_frame (f : frame) : bytes := frame_prefix f ++ f_payload f.

(** A frame the direction accepts by its length. *)
Definition frame_wf (max_frame : Z) (f : frame) : Prop :=
  0 <= f_type f < 256 ∧ 0 <= f_flags f < 256 ∧ 0 <= f_stream f < 2 ^ 31 ∧
  zlen (f_payload f) <= max_frame < 2 ^ 24.

Lemma frame_at_encode max f rest : frame_wf max f →
  frame_len (encode_frame f ++ rest) = zlen (f_payload f) ∧
  frame_at (encode_frame f ++ rest) = f ∧
  zlen (encode_frame f) = 9 + zlen (f_payload f).
Proof.
  intros (Ht & Hfl & Hs & Hp). pose proof (zlen_nonneg (f_payload f)).
  assert (Hlen : frame_len (encode_frame f ++ rest) = zlen (f_payload f)).
  { unfold frame_len, encode_frame, frame_prefix. rewrite <- !app_assoc.
    rewrite (ztake_exact (be_bytes 3 _)) by apply zlen_be_bytes. apply be_val_be_bytes. lia. }
  assert (zlen (frame_prefix f) = 9) as H9
    by (unfold frame_prefix; rewrite !zlen_app, !zlen_be_bytes; done).
  split_and!; [done| |unfold encode_frame; rewrite zlen_app; lia].
  unfold frame_at. rewrite Hlen. destruct f as [ty fl sid payload]. cbn [f_payload f_type f_flags f_stream] in *.
  unfold encode_frame. cbn [f_payload]. f_equal.
  - unfold frame_prefix, byte_at. cbn [f_payload f_type f_flags f_stream]. rewrite <- !app_assoc.
    rewrite app_nth2; change (length (be_bytes 3 (zlen payload))) with 3%nat; [|lia].
    transitivity (byte_val (byte_of_Z ty)); [done|by apply byte_val_small].
  - unfold frame_prefix, byte_at. cbn [f_payload f_type f_flags f_stream]. rewrite <- !app_assoc.
    rewrite app_nth2; change (length (be_bytes 3 (zlen payload))) with 3%nat; [|lia].
    transitivity (byte_val (byte_of_Z fl)); [done|by apply byte_val_small].
  - unfold frame_prefix. cbn [f_payload f_type f_flags f_stream]. rewrite <- (app_assoc _ payload).
    rewrite (app_assoc (be_bytes 3 _)), <- (app_assoc (be_bytes 3 _ ++ _)), zdrop_exact
      by (rewrite zlen_app, zlen_be_bytes; done).
    rewrite ztake_exact by apply zlen_be_bytes. rewrite be_val_be_bytes by lia.
    change (2 ^ 31 - 1) with (Z.ones 31). rewrite Z.land_ones by lia. by rewrite Z.mod_small.
  - rewrite <- app_assoc, zdrop_exact by done. by rewrite ztake_exact.
Qed.

(** Handling frames one after the other, until one breaks the direction. *)
Fixpoint handle_frames (fs : list frame) (d : direction) : effect :=
  match fs with
  | [] => (d <| d_buf := [] |>, [], 0)
  | f :: fs' =>
      let '(d, out, errs) := on_frame (f_type f) (f_flags f) (f_stream f) (f_payload f) d in
      if d_broken d then (d, out, errs) else andthen out errs (handle_frames fs' d)
  end.

Lemma run_frames_encoded fs d :
  Forall (frame_wf (d_max_frame d)) fs →
  run_frames d (mjoin (encode_frame <$> fs)) = handle_frames fs d.
Proof.
  revert d. induction fs as [|f fs IH]; intros d Hfs; [done|].
  inversion Hfs as [|? ? Hf Hrest]; subst. cbn [fmap list_fmap handle_frames].
  change (mjoin (?a :: ?l)) with (a ++ mjoin l).
  destruct (frame_at_encode _ _ (mjoin (encode_frame <$> fs)) Hf) as (Hlen & Hat & Hz).
  rewrite run_frames_unfold, Hlen, Hat, zlen_app, Hz. cbn zeta.
  pose proof (zlen_nonneg (f_payload f)). pose proof (zlen_nonneg (mjoin (encode_frame <$> fs))).
  destruct Hf as (_ & _ & _ & Hp).
  replace (_ <? 9) with false by lia. replace (d_max_frame d <? _) with false by lia.
  replace (_ <? 9 + zlen (f_payload f)) with false by lia.
  pose proof (on_frame_after (f_type f) (f_flags f) (f_stream f) (f_payload f) d) as [_ Hmax].
  destruct (on_frame _ _ _ _ d) as [[d1 out] errs]. cbn in Hmax.
  destruct (d_broken d1); [done|]. f_equal.
  rewrite (zdrop_exact (encode_frame f)) by lia. apply IH. by rewrite Hmax.
Qed.

Lemma feed_reads_new reads expect :
  feed_reads reads (Http2Direction_new hpack_new expect) =
  feed (mjoin reads) (Http2Direction_new hpack_new expect).
Proof.
  pose proof (feed_reads_from [] (Http2Direction_new hpack_new expect) reads) as Hf.
  rewrite feed_new_nil, andthen_nil in Hf. exact Hf.
Qed.

Lemma feed_preface b :
  feed (HTTP2_CONNECTION_PREFACE ++ b) (Http2Direction_new hpack_new true) =
  run_frames (Http2Direction_new hpack_new false) b.
Proof.
  set (p := HTTP2_CONNECTION_PREFACE). unfold Http2.feed.
  cbn [Http2Direction_new d_broken d_preface_done d_buf app negb]. fold p.
  rewrite zlen_app. pose proof (zlen_nonneg b).
  replace (zlen p <=? zlen p + zlen b) with true by lia.
  unfold starts_with. rewrite bool_decide_eq_true_2 by apply take_app_length.
  by rewrite zdrop_exact.
Qed.
End Http2.

(** C24: how the bytes of an HTTP/2 direction are cut into reads does not matter, whatever the bytes
    are and whatever HPACK does: the items, the parse errors and the state, with its HPACK tables,
    are those of feeding the whole stream at once. *)
Theorem h2_reads_do_not_matter {table : Type} (hpack_new : table) hpack_decode expect_preface reads :
  feed_reads hpack_new hpack_decode reads (Http2Direction_new hpack_new expect_preface) =
  feed hpack_new hpack_decode (mjoin reads) (Http2Direction_new hpack_new expect_preface).
Proof. apply feed_reads_new. Qed.

(** Frames sent on a direction, after the connection preface where there is one, are handled
    once each and in order, with their type, flags, stream and payload, however they are cut into
    reads, until one of them breaks the direction; nothing else is taken for a frame. *)
Theorem frames_handled_once {table : Type} (hpack_new : table) hpack_decode expect_preface fs reads :
  Forall (frame_wf H2_DEFAULT_MAX_FRAME_SIZE) fs →
  mjoin reads = (if expect_preface : bool then HTTP2_CONNECTION_PREFACE else []) ++
    mjoin (encode_frame <$> fs) →
  feed_reads hpack_new hpack_decode reads (Http2Direction_new hpack_new expect_preface) =
  handle_frames hpack_new hpack_decode fs (Http2Direction_new hpack_new false).
Proof.
  intros Hfs Hreads. rewrite feed_reads_new, Hreads.
  rewrite <- (run_frames_encoded hpack_new hpack_decode) by done.
  destruct expect_preface; [apply feed_preface|done].
Qed.

(** A toy HPACK that knows one block, for the examples. *)
Definition demo_hpack (t : Z) (block : bytes) : hpack_result * Z :=
  (if bool_decide (block = [x88]) then HOk [(lit ":status", lit "200")] else HErr, t + 1).

Definition demo_frames : list frame :=
  [ {| f_type := 4; f_flags := 0; f_stream := 0; f_payload := [] |};
    {| f_type := 1; f_flags := 4; f_stream := 1; f_payload := [x88] |};
    {| f_type := 0; f_flags := 1; f_stream := 1; f_payload := lit "ok" |} ].

Definition demo_h2_stream : bytes := HTTP2_CONNECTION_PREFACE ++ mjoin (encode_frame <$> demo_frames).

Lemma frames_handled_once_witness :
  feed_reads 0 demo_hpack [take 10 demo_h2_stream; take 30 (drop 10 demo_h2_stream); drop 40 demo_h2_stream]
    (Http2Direction_new 0 true) =
  (Build_Http2Direction [] {| hd_inner := 1; hd_error_count := 0 |} true None 16384 None false,
   [Headers 1 [(lit ":status", lit "200")] false; Data 1 (lit "ok") true], 0).
Proof.
  transitivity (handle_frames 0 demo_hpack demo_frames (Http2Direction_new 0 false));
    [|vm_compute; reflexivity].
  apply (frames_handled_once 0 demo_hpack true demo_frames); [|vm_compute; reflexivity].
  repeat constructor; vm_compute; done.
Defined.

(** * Bounds

    What an HTTP/2 direction ([Http2]) may hold in memory, and which header blocks reach the HPACK
    decoder. *)

Definition open_bytes (c : option HeaderBlock) : Z :=
  match c with Some b => zlen (hb_bytes b) | None => 0 end.

Lemma open_bytes_nonneg c : 0 <= open_bytes c.
Proof. destruct c; [apply zlen_nonneg|done]. Qed.

Section Http2.
Context {table : Type} (hpack_new : table).
Context (hpack_decode : table → bytes → hpack_result * table).

Notation direction := (Http2Direction (table := table)).
Notation on_frame := (on_frame hpack_new hpack_decode).
Notation finish_block := (finish_block hpack_new hpack_decode).
Notation open_or_finish := (open_or_finish hpack_new hpack_decode).
Notation run_frames := (run_frames hpack_new hpack_decode).
Notation feed := (feed hpack_new hpack_decode).

#[local] Existing Instance Http2Direction_fields.

Implicit Types d : direction.

(** A broken direction holds nothing; an open block stays below its limit. *)
Definition block_ok d : Prop :=
  (d_broken d = true → d_buf d = [] ∧ d_continuation d = None) ∧
  open_bytes (d_continuation d) <= H2_MAX_HEADER_BLOCK_BYTES.

(** What handling a frame of [n] bytes of payload may do to the open block. *)
Definition grows (n : Z) d d' : Prop :=
  block_ok d' ∧ open_bytes (d_continuation d') <= open_bytes (d_continuation d) + n ∧
  (d_broken d' = false → d_broken d = false).

Lemma grows_fail n d d1 : 0 <= n → grows n d (fail d1).
Proof.
  intros Hn. pose proof (open_bytes_nonneg (d_continuation d)).
  split_and!; [split; [done|cbn; unfold H2_MAX_HEADER_BLOCK_BYTES; lia]|cbn; lia|done].
Qed.

Lemma grows_refl n d : 0 <= n → block_ok d → grows n d d.
Proof. intros. split_and!; [done|lia|done]. Qed.

Lemma grows_finish n block d : 0 <= n → d_broken d = false → d_continuation d = None →
  grows n d (finish_block block d).1.1.
Proof.
  intros Hn Hb Hc. assert (∀ h, grows n d (d <| d_hpack := h |>)) as Hg.
  { intros h. split_and!; [split|..]; cbn; rewrite ?Hb, ?Hc; try done;
      unfold H2_MAX_HEADER_BLOCK_BYTES; cbn; lia. }
  unfold Http2.finish_block. destruct (decode _ _ _ _) as [[fields|] h]; [case_match|]; apply Hg.
Qed.

Lemma grows_open n flags block d : d_broken d = false → d_continuation d = None →
  0 <= zlen (hb_bytes block) <= n → zlen (hb_bytes block) <= H2_MAX_HEADER_BLOCK_BYTES →
  grows n d (open_or_finish flags block d).1.1.
Proof.
  intros Hb Hc Hn Hmax. unfold Http2.open_or_finish. case_match; [apply grows_finish; [lia|done..]|].
  split_and!; [split|..]; cbn; rewrite ?Hb, ?Hc; try done; cbn; lia.
Qed.

Lemma unpad_length flags payload data : unpad flags payload = Some data → zlen data <= zlen payload.
Proof.
  unfold unpad. case_match; [by intros [= <-]|]. destruct payload as [|pad rest]; [done|].
  case_match; [done|]. intros [= <-]. zbool. pose proof (byte_val_range pad).
  rewrite length_ztake by lia. unfold zlen in *. cbn [List.length]. lia.
Qed.

Lemma on_frame_grows ftype flags sid payload d : d_broken d = false → block_ok d →
  grows (zlen payload) d (on_frame ftype flags sid payload d).1.1.
Proof.
  intros Hb Hok. pose proof (zlen_nonneg payload) as Hn. unfold Http2.on_frame.
  destruct (d_continuation d) as [open|] eqn:Hc.
  - set (d0 := d <| d_continuation := None |>). unfold on_continuation.
    case_match; [by apply grows_fail|]. case_match; [by apply grows_fail|]. zbool.
    assert (grows (zlen (hb_bytes open) + zlen payload) d0
      (open_or_finish flags
         {| hb_stream_id := hb_stream_id open; hb_bytes := hb_bytes open ++ payload;
            hb_end_stream := hb_end_stream open; hb_promise := hb_promise open |} d0).1.1) as Hg.
    { pose proof (zlen_nonneg (hb_bytes open)). apply grows_open; cbn [hb_bytes];
        rewrite ?zlen_app; try done; lia. }
    destruct Hg as (Hok' & Hlen & Hb'). split_and!; [done| |done].
    rewrite Hc. cbn [open_bytes]. cbn in Hlen. lia.
  - unfold on_headers.
    repeat case_match; zbool; try (by apply grows_fail); try (by apply grows_refl).
    all: repeat match goal with H : unpad _ _ = Some _ |- _ => apply unpad_length in H end.
    all: try (apply grows_open; cbn [hb_bytes];
              [done|done
              |split; [apply zlen_nonneg|solve [lia | etrans; [apply zlen_zdrop_le|done]]]
              |solve [lia | rewrite zlen_zdrop by lia; lia]]).
    destruct Hok as [Hok1 Hok2]. split_and!; [split|..]; cbn; rewrite ?Hb, ?Hc in *; try done; lia.
Qed.

(** What a direction may hold between two reads. *)
Definition dir_ok d : Prop :=
  block_ok d ∧ zlen (d_buf d) < 9 + H2_MAX_ACCEPTED_FRAME ∧ d_max_frame d <= H2_MAX_ACCEPTED_FRAME.

Lemma buffered_fail d : buffered (fail d) = 0.
Proof. done. Qed.

Lemma run_frames_ok b d : d_broken d = false → block_ok d → d_max_frame d <= H2_MAX_ACCEPTED_FRAME →
  dir_ok (run_frames d b).1.1 ∧
  buffered (run_frames d b).1.1 <= zlen b + open_bytes (d_continuation d).
Proof.
  revert d. induction b as [b IH] using frames_ind. intros d Hb Hok Hmax.
  pose proof (zlen_nonneg b). pose proof (open_bytes_nonneg (d_continuation d)).
  assert (Hwait : zlen b < 9 + H2_MAX_ACCEPTED_FRAME →
    dir_ok (d <| d_buf := b |>) ∧ buffered (d <| d_buf := b |>) <= zlen b + open_bytes (d_continuation d)).
  { intros Hlt. split; [|done]. split_and!; [|done..]. destruct Hok as [_ Hok]. split; [|done].
    change (d_broken (d <| d_buf := b |>)) with (d_broken d). by rewrite Hb. }
  rewrite run_frames_unfold. destruct (zlen b <? 9) eqn:H9; zbool.
  { apply Hwait. unfold H2_MAX_ACCEPTED_FRAME. lia. }
  destruct (d_max_frame d <? frame_len b) eqn:Hlen; zbool.
  { cbn [failed fst]. rewrite buffered_fail. split; [|lia].
    split_and!; [by apply (grows_fail 0 d)|done..]. }
  destruct (zlen b <? 9 + frame_len b) eqn:Hall; zbool; [apply Hwait; lia|]. cbn zeta.
  pose proof (on_frame_after hpack_new hpack_decode (f_type (frame_at b)) (f_flags (frame_at b))
                (f_stream (frame_at b)) (f_payload (frame_at b)) d) as [_ Hkeep].
  pose proof (on_frame_grows (f_type (frame_at b)) (f_flags (frame_at b)) (f_stream (frame_at b))
                (f_payload (frame_at b)) d Hb Hok) as (Hok1 & Hlen1 & _).
  pose proof (frame_len_nonneg b).
  assert (zlen (f_payload (frame_at b)) = frame_len b) as Hpay.
  { cbn [frame_at f_payload]. rewrite length_ztake, zlen_zdrop by lia. lia. }
  destruct (on_frame _ _ _ _ d) as [[d1 out] errs]. cbn [fst] in Hkeep, Hok1, Hlen1. rewrite Hpay in Hlen1.
  destruct (d_broken d1) eqn:Hb1.
  - destruct Hok1 as [Hempty ?], (Hempty Hb1) as [Hbuf Hcont]. cbn [fst].
    unfold dir_ok, buffered. rewrite Hbuf, Hcont, Hkeep. change (zlen []) with 0.
    split; [|lia]. split_and!; [|unfold H2_MAX_ACCEPTED_FRAME; lia|done]. by split.
  - destruct (IH ltac:(lia) d1 Hb1 Hok1) as [Hd Hbuf]; [by rewrite Hkeep|].
    rewrite zlen_zdrop in Hbuf by lia.
    destruct (run_frames d1 _) as [[d2 out'] errs']. cbn in Hd, Hbuf |- *. split; [done|lia].
Qed.

Lemma feed_ok data d : dir_ok d →
  dir_ok (feed data d).1.1 ∧ buffered (feed data d).1.1 <= buffered d + zlen data.
Proof.
  intros (Hok & Hbuf & Hmax). pose proof (zlen_nonneg data). pose proof (zlen_nonneg (d_buf d)).
  pose proof (open_bytes_nonneg (d_continuation d)). unfold Http2.feed.
  destruct (d_broken d) eqn:Hb; [split; [done|cbn [fst]; lia]|].
  assert (Hlen : zlen (d_buf d ++ data) + open_bytes (d_continuation d) = buffered d + zlen data).
  { rewrite zlen_app. unfold buffered. fold (open_bytes (d_continuation d)). lia. }
  pose proof (zlen_nonneg (d_buf d ++ data)).
  assert (dir_ok (fail d) ∧ buffered (fail d) <= buffered d + zlen data) as Hfail.
  { rewrite buffered_fail. split; [split_and!; [by apply (grows_fail 0 d)|done..]|]. lia. }
  destruct (d_preface_done d); [rewrite <- Hlen; by apply run_frames_ok|].
  set (buf := d_buf d ++ data) in *. set (p := HTTP2_CONNECTION_PREFACE).
  destruct (zlen p <=? zlen buf) eqn:Hp; zbool.
  - destruct (starts_with p buf); [|exact Hfail].
    destruct (run_frames_ok (zdrop (zlen p) buf) (d <| d_preface_done := true |>)) as [Hd Hl]; [done..|].
    split; [done|]. rewrite <- Hlen. etrans; [exact Hl|]. pose proof (zlen_zdrop_le (zlen p) buf).
    change (d_continuation (d <| d_preface_done := true |>)) with (d_continuation d). lia.
  - destruct (starts_with buf p); [|exact Hfail]. cbn [fst]. change (zlen p) with 24 in Hp. split.
    + split_and!; [|cbn; unfold H2_MAX_ACCEPTED_FRAME; lia|done]. destruct Hok as [_ Hok].
      split; [|done]. change (d_broken (d <| d_buf := buf |>)) with (d_broken d). by rewrite Hb.
    + rewrite <- Hlen. unfold buffered. cbn. fold (open_bytes (d_continuation d)). lia.
Qed.

(** * What happens to a direction *)

Inductive h2_op := Feed (data : bytes) | SetMaxFrame (size : Z).

Definition apply_op (d : direction) (o : h2_op) : direction :=
  match o with Feed data => (feed data d).1.1 | SetMaxFrame size => set_max_frame size d end.

Lemma apply_op_ok d o : dir_ok d → dir_ok (apply_op d o).
Proof.
  intros Hd. destruct o as [data|size]; cbn [apply_op]; [by apply feed_ok|].
  destruct Hd as (Hok & Hbuf & _). split_and!; [done..|].
  cbn. unfold clamp, H2_DEFAULT_MAX_FRAME_SIZE, H2_MAX_ACCEPTED_FRAME. lia.
Qed.

Lemma dir_new_ok expect : dir_ok (Http2Direction_new hpack_new expect).
Proof. split_and!; [split|..]; done. Qed.
End Http2.

(** Whatever bytes arrive and whatever frame sizes are announced, a direction never holds more
    than one frame of 1 MiB and one header block of 128 KiB, nothing once it is broken, and a read
    never makes it hold more than its own bytes in addition. *)
Theorem h2_buffer_bounded {table : Type} (hpack_new : table) hpack_decode expect_preface ops data :
  let d := foldl (apply_op hpack_new hpack_decode) (Http2Direction_new hpack_new expect_preface) ops in
  0 <= buffered d <= 9 + H2_MAX_ACCEPTED_FRAME + H2_MAX_HEADER_BLOCK_BYTES ∧
  (d_broken d = true → buffered d = 0) ∧
  buffered (feed hpack_new hpack_decode data d).1.1 <= buffered d + zlen data.
Proof.
  cbn zeta.
  assert (∀ d, dir_ok d → dir_ok (foldl (apply_op hpack_new hpack_decode) d ops)) as Hops.
  { induction ops as [|o ops IH]; intros d Hd; [done|]. by apply IH, apply_op_ok. }
  specialize (Hops _ (dir_new_ok hpack_new expect_preface)).
  set (d := foldl _ _ ops) in *. split_and!; [..|by apply feed_ok].
  - unfold buffered. pose proof (zlen_nonneg (d_buf d)). pose proof (open_bytes_nonneg (d_continuation d)).
    unfold open_bytes in *. lia.
  - destruct Hops as ([_ Hc] & Hbuf & _). unfold buffered. fold (open_bytes (d_continuation d)). lia.
  - intros Hb. destruct Hops as ([Hempty _] & _), (Hempty Hb) as [Hbuf Hc].
    unfold buffered. by rewrite Hbuf, Hc.
Qed.
