(* ===== verification/Hpack.v ===== *)
(** The header blocks that reach the HPACK decoder: [validate_hpack_block] ([Http2]) accepts exactly
    the sequences of complete RFC 7541 entries whose integers take at most five octets. *)

From S2P Require Import Prelude.
From S2P Require Import Pending Memory Text Http1 Http1Props Http2 Http2Props.
From Stdlib Require Import Strings.String.

#[local] Notation length := List.length.
#[local] Open Scope list_scope.
#[local] Open Scope Z_scope.

(** * The grammar *)

(** The octets behind a full prefix: all but the last have their top bit set. *)
Inductive cont_octets : bytes → Prop :=
| cont_last b : byte_val b < 128 → cont_octets [b]
| cont_more b bs : 128 <= byte_val b → cont_octets bs → cont_octets (b :: bs).

Definition cont_val (bs : bytes) : Z := foldr (fun b v => byte_val b mod 128 + 128 * v) 0 bs.

(** An integer with a prefix of [w] bits and its value. *)
Inductive hpack_integer (w : Z) : bytes → Z → Prop :=
| int_short b : byte_val b mod 2 ^ w < 2 ^ w - 1 → hpack_integer w [b] (byte_val b mod 2 ^ w)
| int_long b bs : byte_val b mod 2 ^ w = 2 ^ w - 1 → cont_octets bs → zlen bs <= 4 →
    hpack_integer w (b :: bs) (2 ^ w - 1 + cont_val bs).

(** A length, then that many octets, Huffman-coded or not. *)
Definition hpack_string (s : bytes) : Prop :=
  ∃ int data, s = int ++ data ∧ hpack_integer 7 int (zlen data).

(** A literal field names an entry of a table, or spells its name out at index zero. *)
Definition hpack_literal (w : Z) (s : bytes) : Prop :=
  ∃ int index name value, s = int ++ name ++ value ∧ hpack_integer w int index ∧
    (if index =? 0 then hpack_string name else name = []) ∧ hpack_string value.

Definition first_in (lo hi : Z) (s : bytes) : Prop := ∃ b t, s = b :: t ∧ lo <= byte_val b < hi.

Inductive hpack_entry (s : bytes) : Prop :=
| entry_indexed v : first_in 128 256 s → hpack_integer 7 s v → hpack_entry s
| entry_incremental : first_in 64 128 s → hpack_literal 6 s → hpack_entry s
| entry_size_update v : first_in 32 64 s → hpack_integer 5 s v → hpack_entry s
| entry_literal : first_in 0 32 s → hpack_literal 4 s → hpack_entry s.

Definition hpack_block (block : bytes) : Prop := ∃ entries, Forall hpack_entry entries ∧ block = mjoin entries.

(** * Reading a prefix of the input *)

(** [f] measures the part at the start of its input that [P] describes. *)
Definition measures (f : bytes → option Z) (P : bytes → Prop) : Prop :=
  ∀ block n, f block = Some n ↔ ∃ s rest, block = s ++ rest ∧ P s ∧ zlen s = n.

Lemma measures_app f P s rest : measures f P → P s → f (s ++ rest) = Some (zlen s).
Proof. intros Hf HP. apply Hf. by exists s, rest. Qed.

Lemma land_ones_mod z w : 0 <= w → Z.land z (2 ^ w - 1) = z mod 2 ^ w.
Proof. intros Hw. by rewrite <- Z.land_ones, Z.ones_equiv. Qed.

Lemma top_bit b : (Z.land (byte_val b) 128 =? 0) = (byte_val b <? 128).
Proof. by destruct b. Qed.

Lemma hpack_ext_spec bs result shift total v t : 0 <= shift →
  hpack_ext bs result shift total = Some (v, t) ↔
  ∃ cs rest, bs = cs ++ rest ∧ cont_octets cs ∧ zlen cs = t - total ∧
    (zlen cs <= Z.max 1 (5 - total)) ∧ v = result + 2 ^ shift * cont_val cs.
Proof.
  revert result shift total. induction bs as [|b bs IH]; intros result shift total Hsh; cbn [hpack_ext].
  - split; [done|]. intros (cs & rest & Heq & Hc & _). by destruct Hc.
  - rewrite top_bit. change 127 with (2 ^ 7 - 1). rewrite land_ones_mod, Z.shiftl_mul_pow2 by lia.
    change (2 ^ 7) with 128. destruct (byte_val b <? 128) eqn:Hb; zbool.
    + rewrite (Z.mod_small (byte_val b)) by (pose proof (byte_val_range b); lia). split.
      * intros [= <- <-]. exists [b], bs. split_and!; [done|by constructor|unfold zlen; cbn; lia..|].
        unfold cont_val. cbn. rewrite Z.mod_small by (pose proof (byte_val_range b); lia). lia.
      * intros (cs & rest & Heq & Hc & Hlen & _ & ->). destruct Hc as [b' Hb'|b' cs Hb' Hc];
          injection Heq as <- ->; [|lia]. unfold cont_val, zlen in *. cbn in *.
        rewrite Z.mod_small by (pose proof (byte_val_range b); lia). f_equal. f_equal; lia.
    + case_match eqn:H5; zbool.
      * split; [done|]. intros (cs & rest & Heq & Hc & _ & Hmax & _).
        destruct Hc as [b' Hb'|b' cs Hb' Hc]; injection Heq as <- ->; [lia|].
        assert (0 < zlen cs) by (destruct Hc; unfold zlen; cbn; lia).
        unfold zlen in *. cbn in Hmax. lia.
      * rewrite IH by lia. rewrite Z.pow_add_r by lia. change (2 ^ 7) with 128. split.
        -- intros (cs & rest & -> & Hc & Hlen & Hmax & ->). exists (b :: cs), rest.
           split_and!; [done|by constructor|unfold zlen in *; cbn; lia..|].
           unfold cont_val. cbn [foldr]. lia.
        -- intros (cs & rest & Heq & Hc & Hlen & Hmax & ->).
           destruct Hc as [b' Hb'|b' cs Hb' Hc]; injection Heq as <- ->; [lia|].
           exists cs, rest. split_and!; [done|done|unfold zlen in *; cbn in *; lia..|].
           unfold cont_val. cbn [foldr]. lia.
Qed.

Lemma read_hpack_int_spec w block v n : 0 < w →
  read_hpack_int block w = Some (v, n) ↔
  ∃ s rest, block = s ++ rest ∧ hpack_integer w s v ∧ zlen s = n.
Proof.
  intros Hw. unfold read_hpack_int. destruct block as [|b bs].
  - split; [done|]. intros (s & rest & Heq & Hi & _). destruct Hi; done.
  - rewrite land_ones_mod by lia. pose proof (Z.mod_pos_bound (byte_val b) (2 ^ w) ltac:(lia)).
    case_match eqn:Hm; zbool.
    + split.
      * intros [= <- <-]. exists [b], bs. split_and!; [done|by constructor|done].
      * intros (s & rest & Heq & Hi & <-). destruct Hi as [b' Hb'|b' cs Hb' Hc Hlen];
          injection Heq as <- ->; [done|lia].
    + rewrite hpack_ext_spec by lia. split.
      * intros (cs & rest & -> & Hc & Hlen & Hmax & ->). exists (b :: cs), rest.
        split_and!; [done| |unfold zlen in *; cbn; lia]. rewrite Z.mul_1_l.
        constructor; [lia|done|lia].
      * intros (s & rest & Heq & Hi & <-). destruct Hi as [b' Hb'|b' cs Hb' Hc Hlen];
          injection Heq as <- ->; [lia|]. exists cs, rest.
        split_and!; [done|done|unfold zlen; cbn; lia|lia|]. rewrite Z.mul_1_l. lia.
Qed.

Lemma hpack_integer_nonneg w s v : 0 < w → hpack_integer w s v → 0 <= v ∧ 0 < zlen s.
Proof.
  intros Hw Hi. destruct Hi as [b Hb|b bs Hb Hc Hlen].
  - split; [apply Z.mod_pos_bound; lia|unfold zlen; cbn; lia].
  - assert (0 <= cont_val bs).
    { clear. induction bs as [|b bs IH]; [done|]. unfold cont_val in *. cbn [foldr].
      pose proof (Z.mod_pos_bound (byte_val b) 128). lia. }
    pose proof (Z.pow_pos_nonneg 2 w). pose proof (zlen_nonneg bs). unfold zlen in *. cbn. lia.
Qed.

(** Reading an integer off a block that starts with one. *)
Lemma read_hpack_int_app w s v rest : 0 < w → hpack_integer w s v →
  read_hpack_int (s ++ rest) w = Some (v, zlen s).
Proof. intros Hw Hi. apply read_hpack_int_spec; [done|]. by exists s, rest. Qed.

Lemma skip_hpack_string_measures : measures skip_hpack_string hpack_string.
Proof.
  intros block n. unfold skip_hpack_string. split.
  - intros ([v k] & Hr & Hn)%bind_Some. apply read_hpack_int_spec in Hr as (int & rest & -> & Hi & <-); [|lia].
    case_match; [done|]. injection Hn as <-. zbool.
    destruct (hpack_integer_nonneg 7 int v) as [Hv _]; [lia|done|]. rewrite zlen_app in *.
    exists (int ++ ztake v rest), (zdrop v rest). split_and!.
    + rewrite <- app_assoc. unfold ztake, zdrop. by rewrite take_drop.
    + exists int, (ztake v rest). split; [done|]. rewrite length_ztake by lia.
      by rewrite Z.min_l by lia.
    + rewrite zlen_app, length_ztake by lia. lia.
  - intros (s & rest & -> & (int & data & -> & Hi) & <-). rewrite <- app_assoc.
    rewrite (read_hpack_int_app 7 int (zlen data)) by (lia || done). cbn.
    rewrite !zlen_app. pose proof (zlen_nonneg rest). case_match; [zbool; lia|done].
Qed.

Lemma skip_literal_measures w : 0 < w → measures (λ block, skip_literal block w) (hpack_literal w).
Proof.
  intros Hw block n. unfold skip_literal. split.
  - intros ([index k] & Hr & (n1 & Hname & (n2 & Hval & [= <-])%bind_Some)%bind_Some)%bind_Some.
    apply read_hpack_int_spec in Hr as (int & rest & -> & Hi & <-); [|done].
    assert (∃ name rest', rest = name ++ rest' ∧ n1 = zlen int + zlen name ∧
      (if index =? 0 then hpack_string name else name = [])) as (name & rest' & -> & -> & Hn).
    { case_match.
      - apply bind_Some in Hname as (k & Hs & [= <-]). rewrite zdrop_exact in Hs by done.
        apply skip_hpack_string_measures in Hs as (name & rest' & -> & Hs & <-). by exists name, rest'.
      - injection Hname as <-. exists [], rest. split_and!; [done|unfold zlen; cbn; lia|done]. }
    rewrite <- zlen_app, app_assoc, zdrop_exact in Hval by done.
    apply skip_hpack_string_measures in Hval as (value & rest & -> & Hs & <-).
    exists (int ++ name ++ value), rest. rewrite !zlen_app, <- !app_assoc.
    split_and!; [done| |lia]. by exists int, index, name, value.
  - intros (s & rest & -> & (int & index & name & value & -> & Hi & Hn & Hs) & <-).
    rewrite <- !app_assoc, (read_hpack_int_app w int index) by done. cbn.
    assert ((if index =? 0
             then k ← skip_hpack_string (zdrop (zlen int) (int ++ name ++ value ++ rest));
                  Some (zlen int + k) else Some (zlen int)) = Some (zlen int + zlen name)) as ->.
    { case_match.
      - by rewrite zdrop_exact, (measures_app _ _ _ _ skip_hpack_string_measures Hn).
      - subst name. f_equal. unfold zlen. cbn. lia. }
    cbn. rewrite <- zlen_app, app_assoc, zdrop_exact by done.
    rewrite (measures_app _ _ _ _ skip_hpack_string_measures Hs). cbn. rewrite !zlen_app. f_equal. lia.
Qed.

Lemma read_int_measures w : 0 < w →
  measures (λ block, snd <$> read_hpack_int block w) (λ s, ∃ v, hpack_integer w s v).
Proof.
  intros Hw block n. rewrite fmap_Some. split.
  - intros ([v k] & Hr & ->). apply read_hpack_int_spec in Hr as (s & rest & -> & Hi & <-); [|done].
    exists s, rest. split_and!; [done|by exists v|done].
  - intros (s & rest & -> & (v & Hi) & <-). exists (v, zlen s). split; [|done].
    by apply read_hpack_int_app.
Qed.

(** The tests on the first octet, as ranges. *)
Lemma entry_class b :
  (Z.land (byte_val b) 128 =? 0) = (byte_val b <? 128) ∧
  (Z.land (byte_val b) 192 =? 64) = ((64 <=? byte_val b) && (byte_val b <? 128)) ∧
  (Z.land (byte_val b) 224 =? 32) = ((32 <=? byte_val b) && (byte_val b <? 64)).
Proof. by destruct b. Qed.

Lemma first_in_fun lo hi lo' hi' s :
  first_in lo hi s → first_in lo' hi' s → lo <= hi' - 1 ∧ lo' <= hi - 1.
Proof. intros (b & t & -> & Hr) (b' & t' & Heq & Hr'). injection Heq as <- <-. lia. Qed.

(** An entry whose first octet is known is of the kind that octet announces. *)
Ltac by_kind Hex Hf He :=
  destruct He as [v' H1 H2|H1 H2|v' H1 H2|H1 H2];
  try (exfalso; apply (Hex _ _ _ _ Hf H1); lia); first [exact H2 | by exists v'].

Lemma entry_kind s :
  (first_in 128 256 s → (∃ v, hpack_integer 7 s v) ↔ hpack_entry s) ∧
  (first_in 64 128 s → hpack_literal 6 s ↔ hpack_entry s) ∧
  (first_in 32 64 s → (∃ v, hpack_integer 5 s v) ↔ hpack_entry s) ∧
  (first_in 0 32 s → hpack_literal 4 s ↔ hpack_entry s).
Proof.
  assert (∀ lo hi lo' hi', first_in lo hi s → first_in lo' hi' s → hi <= lo' ∨ hi' <= lo → False) as Hex
    by (intros lo hi lo' hi' H1 H2; pose proof (first_in_fun _ _ _ _ _ H1 H2); lia).
  split_and!; intros Hf; (split; [|intros He; by_kind Hex Hf He]).
  - intros [v Hv]. by apply (entry_indexed _ v).
  - by apply entry_incremental.
  - intros [v Hv]. by apply (entry_size_update _ v).
  - by apply entry_literal.
Qed.

(** One kind of entry at the start of a block. *)
Lemma measures_entry lo hi f P b t n :
  measures f P → lo <= byte_val b < hi → (∀ s, P s → s ≠ []) →
  (∀ s, first_in lo hi s → P s ↔ hpack_entry s) →
  f (b :: t) = Some n ↔ ∃ s rest, b :: t = s ++ rest ∧ hpack_entry s ∧ zlen s = n.
Proof.
  intros Hf Hb Hne Hk. etrans; [apply Hf|].
  assert (∀ s rest, s ≠ [] → b :: t = s ++ rest → first_in lo hi s) as Hfirst.
  { intros [|b' s] rest Hs Heq; [done|]. injection Heq as <- _. by exists b, s. }
  split; intros (s & rest & Heq & HP & Hn); exists s, rest; split_and!; try done;
    eapply Hk, HP; eapply Hfirst; try done; [by apply Hne|].
  intros ->. by destruct HP as [? (? & ? & ? & _)|(? & ? & ? & _)|? (? & ? & ? & _)|(? & ? & ? & _)].
Qed.

Lemma integer_ne w s : 0 < w → (∃ v, hpack_integer w s v) → s ≠ [].
Proof. intros Hw [v Hi] ->. by apply hpack_integer_nonneg in Hi as [_ ?]. Qed.

Lemma literal_ne w s : 0 < w → hpack_literal w s → s ≠ [].
Proof.
  intros Hw (int & v & ? & ? & -> & Hi & _) Heq. apply app_eq_nil in Heq as [-> _].
  by apply (integer_ne w []); [|by exists v|].
Qed.

Lemma skip_hpack_entry_measures : measures skip_hpack_entry hpack_entry.
Proof.
  intros [|b t] n.
  - split; [done|]. intros (s & rest & Heq & He & _). symmetry in Heq.
    apply app_eq_nil in Heq as [-> _].
    by destruct He as [? (? & ? & ? & _)|(? & ? & ? & _)|? (? & ? & ? & _)|(? & ? & ? & _)].
  - unfold skip_hpack_entry. destruct (entry_class b) as (-> & -> & ->).
    pose proof (byte_val_range b).
    destruct (byte_val b <? 128) eqn:H1;
      [destruct (64 <=? byte_val b) eqn:H2; [|destruct (32 <=? byte_val b) eqn:H3]|];
      zbool; cbn [negb andb].
    + apply (measures_entry 64 128 (λ bs, skip_literal bs 6) (hpack_literal 6));
        [by apply skip_literal_measures|lia|by intros; eapply (literal_ne 6)|apply entry_kind].
    + replace (byte_val b <? 64) with true by lia.
      apply (measures_entry 32 64 (λ bs, snd <$> read_hpack_int bs 5) (λ s, ∃ v, hpack_integer 5 s v));
        [by apply read_int_measures|lia|by intros; eapply (integer_ne 5)|apply entry_kind].
    + apply (measures_entry 0 32 (λ bs, skip_literal bs 4) (hpack_literal 4));
        [by apply skip_literal_measures|lia|by intros; eapply (literal_ne 4)|apply entry_kind].
    + apply (measures_entry 128 256 (λ bs, snd <$> read_hpack_int bs 7) (λ s, ∃ v, hpack_integer 7 s v));
        [by apply read_int_measures|lia|by intros; eapply (integer_ne 7)|apply entry_kind].
Qed.

Lemma hpack_entry_length s : hpack_entry s → (0 < length s)%nat.
Proof.
  by destruct 1 as [? (? & ? & -> & _)|(? & ? & -> & _)|? (? & ? & -> & _)|(? & ? & -> & _)];
    cbn; lia.
Qed.

Lemma validate_from_spec fuel block :
  (length block <= fuel)%nat → validate_from fuel block = true ↔ hpack_block block.
Proof.
  revert block. induction fuel as [|fuel IH]; intros block Hlen.
  - destruct block; [|cbn in Hlen; lia]. split; [by exists []|done].
  - destruct block as [|b t]; [split; [by exists []|done]|]. cbn [validate_from].
    set (block := b :: t) in *. split.
    + destruct (skip_hpack_entry block) as [n|] eqn:Hn; [|done]. intros Hv.
      apply skip_hpack_entry_measures in Hn as (s & rest & Hb & He & <-). rewrite Hb in *.
      pose proof (hpack_entry_length _ He). rewrite length_app in Hlen.
      rewrite zdrop_exact in Hv by done. apply IH in Hv as (es & Hes & ->); [|lia].
      exists (s :: es). split; [by constructor|done].
    + intros (es & Hes & Hb). destruct Hes as [|s es He Hes]; [done|].
      change (mjoin (s :: es)) with (s ++ mjoin es) in Hb. rewrite Hb in *.
      rewrite (measures_app _ _ _ _ skip_hpack_entry_measures He), zdrop_exact by done.
      pose proof (hpack_entry_length _ He). rewrite length_app in Hlen.
      apply IH; [lia|]. by exists es.
Qed.

(** C33: the check in front of the HPACK decoder accepts exactly the blocks that are sequences of
    complete entries: no integer is cut short or longer than five octets, no string runs past the
    end of the block. *)
Theorem validation_is_the_grammar block : validate_hpack_block block = true ↔ hpack_block block.
Proof. by apply validate_from_spec. Qed.
