(* ===== verification/Codecs.v ===== *)
(** The small decoders of the userspace reader: WebSocket frames ([userspace/src/websocket.rs]), the
    protobuf fields of a gRPC message ([userspace/src/grpc.rs]), HTTP/3 frames and QPACK header
    blocks ([userspace/src/quic.rs]). *)

From S2P Require Import Prelude.
From S2P Require Import Pending Memory Text Http1 Http1Props Http2 Http2Props.
From Stdlib Require Import Strings.String Numbers.DecimalString.

#[local] Notation length := List.length.
#[local] Open Scope list_scope.
#[local] Open Scope Z_scope.

(** * WebSocket *)

Record WsFrame := { ws_fin : bool; ws_opcode : Z; ws_payload_len : Z; ws_payload : bytes }.

Definition xor_byte (a b : byte) : byte := byte_of_Z (Z.lxor (byte_val a) (byte_val b)).

(** [mask[i % 4]] from index [i] on. *)
Fixpoint unmask (mask : bytes) (i : nat) (bs : bytes) : bytes :=
  match bs with
  | [] => []
  | b :: bs' => xor_byte b (nth (i mod 4) mask x00) :: unmask mask (S i) bs'
  end.

(** Header length and payload length. *)
Definition ws_lengths (buf : bytes) : option (Z * Z) :=
  let len7 := Z.land (byte_val (byte_at buf 1)) 127 in
  if len7 =? 126 then if zlen buf <? 4 then None else Some (4, be_val (ztake 2 (zdrop 2 buf)))
  else if len7 =? 127 then if zlen buf <? 10 then None else Some (10, be_val (ztake 8 (zdrop 2 buf)))
  else Some (2, len7).

Definition parse_websocket_frame (buf : bytes) : option (WsFrame * Z) :=
  if zlen buf <? 2 then None else
  let fin := has_flag (byte_val (byte_at buf 0)) 128 in
  let opcode := Z.land (byte_val (byte_at buf 0)) 15 in
  let masked := has_flag (byte_val (byte_at buf 1)) 128 in
  '(mask_start, payload_len) ← ws_lengths buf;
  let data_start := if masked then mask_start + 4 else mask_start in
  let total_len := data_start + payload_len in
  if 2 ^ 64 <=? total_len then None else
  let capture := Z.min payload_len 4096 in
  if zlen buf <? data_start then None else
  let available := Z.min (saturating_sub (zlen buf) data_start) capture in
  let data := ztake available (zdrop data_start buf) in
  let payload := if masked then unmask (ztake 4 (zdrop mask_start buf)) 0 data else data in
  Some ({| ws_fin := fin; ws_opcode := opcode; ws_payload_len := payload_len; ws_payload := payload |},
        total_len).

(** * gRPC *)

Record ProtoField := { pf_field_number : Z; pf_wire_type : Z; pf_value_str : bytes }.

(** The loop of [read_varint]: [i] octets are read, ten at most; a shift of a 64-bit word drops what
    leaves it. *)
Fixpoint read_varint_from (bs : bytes) (result shift i : Z) : option (Z * Z) :=
  match bs with
  | [] => None
  | b :: bs' =>
      if 10 <=? i then None else
      let result := Z.lor result (u64 (Z.shiftl (Z.land (byte_val b) 127) shift)) in
      if Z.land (byte_val b) 128 =? 0 then Some (result, i + 1)
      else read_varint_from bs' result (shift + 7) (i + 1)
  end.

Definition read_varint (buf : bytes) : option (Z * Z) := read_varint_from buf 0 0 0.

(** ["{}"] of an unsigned number. *)
Definition show_dec (n : Z) : bytes := list_byte_of_string (NilZero.string_of_uint (N.to_uint (Z.to_N n))).

Definition hex_digit (n : Z) : byte := byte_of_Z (if n <? 10 then 48 + n else 87 + n).

(** [n] with at least [width] lower-case hexadecimal digits, when it fits in them. *)
Fixpoint show_hex (width : nat) (n : Z) : bytes :=
  match width with O => [] | S w => show_hex w (n / 16) ++ [hex_digit (n mod 16)] end.

Definition hex_encode (data : bytes) : bytes :=
  mjoin ((fun b => show_hex 2 (byte_val b)) <$> ztake 32 data).

(** [char::is_control]. *)
Definition is_control (c : Z) : bool := (c <? 32) || ((127 <=? c) && (c <? 160)).

Definition quote : byte := x22.

(** How a length-delimited value is shown. *)
Definition show_data (data : bytes) : bytes :=
  match from_utf8 data with
  | Some s =>
      if forallb (fun c => negb (is_control c) || (c =? 10)) s
      then [quote] ++ utf8 (ztake 128 s) ++ [quote]
      else lit "hex:" ++ hex_encode data
  | None => lit "hex:" ++ hex_encode data
  end.

(** The value of a field of wire type [wt], and what is left behind it. *)
Definition proto_value (wt : Z) (rest : bytes) : option (bytes * bytes) :=
  match wt with
  | 0 => '(val, n) ← read_varint rest; Some (show_dec val, zdrop n rest)
  | 1 => if zlen rest <? 8 then None
         else Some (lit "0x" ++ show_hex 16 (le_val (ztake 8 rest)), zdrop 8 rest)
  | 2 => '(len, n) ← read_varint rest;
         let rest := zdrop n rest in
         Some (show_data (ztake (Z.min (Z.min len (zlen rest)) 256) rest), zdrop (Z.min len (zlen rest)) rest)
  | 5 => if zlen rest <? 4 then None
         else Some (lit "0x" ++ show_hex 8 (le_val (ztake 4 rest)), zdrop 4 rest)
  | _ => None
  end.

(** The loop of [decode_grpc_fields], which makes at most [room] fields. *)
Fixpoint decode_fields (room : nat) (rest : bytes) : list ProtoField :=
  match room with
  | O => []
  | S room =>
      match read_varint rest with
      | None => []
      | Some (tag, n) =>
          match proto_value (Z.land tag 7) (zdrop n rest) with
          | None => []
          | Some (value_str, rest) =>
              {| pf_field_number := u32 (Z.shiftr tag 3); pf_wire_type := Z.land tag 7;
                 pf_value_str := value_str |} :: decode_fields room rest
          end
      end
  end.

Definition decode_grpc_fields (buf : bytes) : list ProtoField :=
  if zlen buf <? 5 then [] else
  let msg_len := be_val (ztake 4 (zdrop 1 buf)) in
  decode_fields 64 (ztake msg_len (zdrop 5 buf)).

(** * HTTP/3 *)

Record H3Frame := { h3_type : Z; h3_payload : bytes }.

Definition H3_DATA : Z := 0.
Definition H3_HEADERS : Z := 1.
Definition H3_CANCEL_PUSH : Z := 3.
Definition H3_SETTINGS : Z := 4.
Definition H3_PUSH_PROMISE : Z := 5.
Definition H3_GOAWAY : Z := 7.

(** A QUIC variable-length integer. *)
Definition decode_varint (buf : bytes) : option (Z * Z) :=
  match buf with
  | [] => None
  | b :: _ =>
      let len := Z.shiftl 1 (Z.shiftr (byte_val b) 6) in
      if zlen buf <? len then None
      else Some (foldl (fun val b => Z.lor (u64 (Z.shiftl val 8)) (byte_val b))
                   (Z.land (byte_val b) 63) (ztake (len - 1) (zdrop 1 buf)), len)
  end.

Definition parse_h3_frame (buf : bytes) : option (H3Frame * Z) :=
  '(frame_type, t_len) ← decode_varint buf;
  '(payload_len, p_len) ← decode_varint (zdrop t_len buf);
  let header_len := t_len + p_len in
  if zlen buf <? header_len + payload_len then None
  else Some ({| h3_type := frame_type; h3_payload := ztake payload_len (zdrop header_len buf) |},
             header_len + payload_len).

(** The loop of [parse_h3_frames]; every frame takes at least two bytes. *)
Fixpoint parse_h3_from (fuel : nat) (buf : bytes) : list H3Frame :=
  match buf, fuel with
  | [], _ | _, O => []
  | _, S fuel =>
      match parse_h3_frame buf with
      | Some (frame, consumed) =>
          if consumed =? 0 then [] else frame :: parse_h3_from fuel (zdrop consumed buf)
      | None => []
      end
  end.

Definition parse_h3_frames (buf : bytes) : list H3Frame := parse_h3_from (length buf) buf.

Definition looks_like_http3 (buf : bytes) : bool :=
  if zlen buf <? 2 then false else
  match decode_varint buf with
  | None => false
  | Some (frame_type, t_len) =>
      match decode_varint (zdrop t_len buf) with
      | None => false
      | Some (payload_len, _) =>
          existsb (Z.eqb frame_type)
            [H3_DATA; H3_HEADERS; H3_SETTINGS; H3_GOAWAY; H3_CANCEL_PUSH; H3_PUSH_PROMISE] &&
          (payload_len <? 1000000)
      end
  end.

(** The static table of QPACK. *)
Definition QPACK_STATIC_TABLE : list (string * string) := [
  (":authority", "");
  (":path", "/");
  ("age", "0");
  ("content-disposition", "");
  ("content-length", "0");
  ("cookie", "");
  ("date", "");
  ("etag", "");
  ("if-modified-since", "");
  ("if-none-match", "");
  ("last-modified", "");
  ("link", "");
  ("location", "");
  ("referer", "");
  ("set-cookie", "");
  (":method", "CONNECT");
  (":method", "DELETE");
  (":method", "GET");
  (":method", "HEAD");
  (":method", "OPTIONS");
  (":method", "POST");
  (":method", "PUT");
  (":scheme", "http");
  (":scheme", "https");
  (":status", "103");
  (":status", "200");
  (":status", "304");
  (":status", "404");
  (":status", "503");
  ("accept", "*/*");
  ("accept", "application/dns-message");
  ("accept-encoding", "gzip, deflate, br");
  ("accept-ranges", "bytes");
  ("access-control-allow-headers", "cache-control");
  ("access-control-allow-headers", "content-type");
  ("access-control-allow-origin", "*");
  ("cache-control", "max-age=0");
  ("cache-control", "max-age=2592000");
  ("cache-control", "max-age=604800");
  ("cache-control", "no-cache");
  ("cache-control", "no-store");
  ("cache-control", "public, max-age=31536000");
  ("content-encoding", "br");
  ("content-encoding", "gzip");
  ("content-type", "application/dns-message");
  ("content-type", "application/javascript");
  ("content-type", "application/json");
  ("content-type", "application/x-www-form-urlencoded");
  ("content-type", "image/gif");
  ("content-type", "image/jpeg");
  ("content-type", "image/png");
  ("content-type", "text/css");
  ("content-type", "text/html; charset=utf-8");
  ("content-type", "text/plain");
  ("content-type", "text/plain;charset=utf-8");
  ("range", "bytes=0-");
  ("strict-transport-security", "max-age=31536000");
  ("strict-transport-security", "max-age=31536000; includesubdomains");
  ("strict-transport-security", "max-age=31536000; includesubdomains; preload");
  ("vary", "accept-encoding");
  ("vary", "origin");
  ("x-content-type-options", "nosniff");
  ("x-xss-protection", "1; mode=block");
  (":status", "100");
  (":status", "204");
  (":status", "206");
  (":status", "302");
  (":status", "400");
  (":status", "403");
  (":status", "421");
  (":status", "425");
  (":status", "500");
  ("accept-language", "");
  ("access-control-allow-credentials", "FALSE");
  ("access-control-allow-credentials", "TRUE");
  ("access-control-allow-headers", "*");
  ("access-control-allow-methods", "get");
  ("access-control-allow-methods", "get, post, options");
  ("access-control-allow-methods", "options");
  ("access-control-expose-headers", "content-length");
  ("access-control-request-headers", "content-type");
  ("access-control-request-method", "get");
  ("access-control-request-method", "post");
  ("alt-svc", "clear");
  ("authorization", "");
  ("content-security-policy", "script-src 'none'; object-src 'none'; base-uri 'none'");
  ("early-data", "1");
  ("expect-ct", "");
  ("forwarded", "");
  ("if-range", "");
  ("origin", "");
  ("purpose", "prefetch");
  ("server", "");
  ("timing-allow-origin", "*");
  ("upgrade-insecure-requests", "1");
  ("user-agent", "");
  ("x-forwarded-for", "");
  ("x-frame-options", "deny");
  ("x-frame-options", "sameorigin")
]%string.

(** The loop of [decode_prefix_int]; [m] is the shift of the next octet, [i] the octets read. *)
Fixpoint prefix_int_from (bs : bytes) (val m i : Z) : option (Z * Z) :=
  match bs with
  | [] => None
  | b :: bs' =>
      let val := val + Z.shiftl (Z.land (byte_val b) 127) m in
      let m := m + 7 in
      if Z.land (byte_val b) 128 =? 0 then Some (val, i + 1)
      else if 56 <? m then None else prefix_int_from bs' val m (i + 1)
  end.

Definition decode_prefix_int (buf : bytes) (prefix_bits : Z) : option (Z * Z) :=
  match buf with
  | [] => None
  | b :: rest =>
      let mask := 2 ^ prefix_bits - 1 in
      let val := Z.land (byte_val b) mask in
      if val <? mask then Some (val, 1) else prefix_int_from rest val 0 1
  end.

(** A string literal; a Huffman-coded one is taken as it is. *)
Definition decode_string (buf : bytes) (prefix_bits : Z) : option (bytes * Z) :=
  '(len, start) ← decode_prefix_int buf prefix_bits;
  if zlen buf <? start + len then None
  else Some (utf8 (from_utf8_lossy (ztake len (zdrop start buf))), start + len).

Section Qpack.
Context `{Unicode}.

Definition static_entry (idx : Z) : option (bytes * bytes) :=
  (fun nv => (list_byte_of_string nv.1, list_byte_of_string nv.2)) <$>
  QPACK_STATIC_TABLE !! Z.to_nat idx.

(** One field line: its effect on the map and the bytes it takes; [None] ends the loop. *)
Definition qpack_line (b : byte) (buf : bytes) (hs : headers) : option (headers * Z) :=
  let bit n := has_flag (byte_val b) n in
  if bit 128 then
    '(idx, consumed) ← decode_prefix_int buf 6;
    Some (match static_entry idx with
          | Some (name, value) => if bit 64 then header_insert name value hs else hs
          | None => hs
          end, consumed)
  else if bit 64 then
    '(idx, n) ← decode_prefix_int buf 4;
    '(value, k) ← decode_string (zdrop n buf) 7;
    Some (match static_entry idx with
          | Some (name, _) => if bit 16 then header_insert name value hs else hs
          | None => hs
          end, n + k)
  else if bit 32 then
    match decode_string (zdrop 1 buf) 3 with
    | Some (name, n) =>
        '(value, k) ← decode_string (zdrop (1 + n) buf) 7;
        Some (header_insert (utf8 (to_lowercase (chars name))) value hs, 1 + n + k)
    | None => Some (hs, 1)
    end
  else Some (hs, 1).

(** The loop of [decode_qpack_headers]; every line takes at least one byte. *)
Fixpoint qpack_lines (fuel : nat) (buf : bytes) (hs : headers) : headers :=
  match buf, fuel with
  | [], _ | _, O => hs
  | b :: _, S fuel =>
      match qpack_line b buf hs with
      | Some (hs, n) => qpack_lines fuel (zdrop n buf) hs
      | None => hs
      end
  end.

Definition decode_qpack_headers (buf : bytes) : headers :=
  if zlen buf <? 2 then [] else
  match decode_prefix_int buf 8 with
  | None => []
  | Some (_, ric_len) =>
      if zlen buf <=? ric_len then [] else
      match decode_prefix_int (zdrop ric_len buf) 7 with
      | None => []
      | Some (_, db_len) => qpack_lines (length buf) (zdrop (ric_len + db_len) buf) []
      end
  end.

Definition extract_h3_headers (buf : bytes) : list headers :=
  filter (fun hs => hs ≠ [])
    (decode_qpack_headers ∘ h3_payload <$> filter (fun f => h3_type f = H3_HEADERS) (parse_h3_frames buf)).
End Qpack.
