(* ===== verification/CodecsProps.v ===== *)
(** Properties of the small decoders ([Codecs]): WebSocket frames and HTTP/3 frames come back as they
    were encoded, and what QPACK makes of a literal name. *)

From S2P Require Import Prelude.
From S2P Require Import Pending Memory Text Http1 Http1Props Http2 Http2Props Codecs.
From Stdlib Require Import Strings.String.

#[local] Notation length := List.length.
#[local] Open Scope list_scope.
#[local] Open Scope Z_scope.

(** * Bits *)

Lemma lor_shift v b n : 0 <= n → 0 <= b < 2 ^ n → Z.lor (v * 2 ^ n) b = v * 2 ^ n + b.
Proof.
  intros Hn Hb. symmetry. apply Z.add_nocarry_lor, Z.bits_inj'. intros i Hi.
  rewrite Z.land_spec, Z.bits_0, <- Z.shiftl_mul_pow2, Z.shiftl_spec by done.
  destruct (decide (i < n)).
  - by rewrite Z.testbit_neg_r by lia.
  - rewrite (testbit_high n b) by lia. apply andb_false_r.
Qed.

Lemma lxor_byte_range a b : 0 <= Z.lxor (byte_val a) (byte_val b) < 256.
Proof.
  pose proof (byte_val_range a) as Ha. pose proof (byte_val_range b) as Hb.
  assert (0 <= Z.lxor (byte_val a) (byte_val b)) as H0 by (apply Z.lxor_nonneg; lia).
  split; [done|]. assert (Z.lxor (byte_val a) (byte_val b) = wrap 8 (Z.lxor (byte_val a) (byte_val b))) as ->;
    [|apply (wrap_range 8); lia].
  unfold wrap. rewrite <- Z.land_ones by lia. apply Z.bits_inj'. intros i Hi.
  rewrite Z.land_spec, Z.lxor_spec, Z.testbit_ones_nonneg by lia. destruct (i <? 8) eqn:E; zbool.
  - by rewrite andb_true_r.
  - by rewrite !(testbit_high 8) by lia.
Qed.

Lemma xor_byte_involutive a m : xor_byte (xor_byte a m) m = a.
Proof.
  unfold xor_byte. rewrite byte_val_small by apply lxor_byte_range.
  by rewrite Z.lxor_assoc, Z.lxor_nilpotent, Z.lxor_0_r, byte_of_Z_val.
Qed.

Lemma unmask_involutive mask i bs : unmask mask i (unmask mask i bs) = bs.
Proof. revert i. induction bs as [|b bs IH]; intros i; cbn; [done|]. by rewrite xor_byte_involutive, IH. Qed.

Lemma zlen_unmask mask i bs : zlen (unmask mask i bs) = zlen bs.
Proof.
  unfold zlen. f_equal. revert i. induction bs as [|b bs IH]; intros i; cbn; [done|]. by rewrite IH.
Qed.

Lemma ztake_unmask n mask i bs : ztake n (unmask mask i bs) = unmask mask i (ztake n bs).
Proof.
  unfold ztake. generalize (Z.to_nat n) as k. revert i.
  induction bs as [|b bs IH]; intros i [|k]; cbn; [done..|]. by rewrite IH.
Qed.

(** * WebSocket *)

(** RFC 6455: two octets, an extended length, a mask. *)
Definition ws_header (fin : bool) (opcode : Z) (mask : option bytes) (len : Z) : bytes :=
  let m := match mask with Some _ => 128 | None => 0 end in
  byte_of_Z ((if fin then 128 else 0) + opcode) ::
  (if len <? 126 then [byte_of_Z (m + len)]
   else if len <? 65536 then byte_of_Z (m + 126) :: be_bytes 2 len
   else byte_of_Z (m + 127) :: be_bytes 8 len) ++ default [] mask.

(** RFC 6455 5.3: octet [i] of the data goes out xored with octet [i mod 4] of the key. *)
Definition masked_with (mask : option bytes) (bs : bytes) : bytes :=
  match mask with
  | Some k => imap (fun i b => xor_byte b (nth (i mod 4) k x00)) bs
  | None => bs
  end.

Lemma unmask_imap k i bs : unmask k i bs = imap (fun j b => xor_byte b (nth ((i + j) mod 4) k x00)) bs.
Proof.
  revert i. induction bs as [|b bs IH]; intros i; [done|]. rewrite imap_cons. cbn [unmask].
  rewrite IH, Nat.add_0_r. f_equal. apply imap_ext. intros j c _. unfold compose.
  by rewrite <- plus_n_Sm.
Qed.

Lemma unmask_masked k n bs : unmask k 0 (ztake n (masked_with (Some k) bs)) = ztake n bs.
Proof.
  change (masked_with (Some k) bs) with (imap (fun j b => xor_byte b (nth ((0 + j) mod 4) k x00)) bs).
  by rewrite <- unmask_imap, ztake_unmask, unmask_involutive.
Qed.

Lemma zlen_masked mask bs : zlen (masked_with mask bs) = zlen bs.
Proof. destruct mask; [|done]. unfold zlen, masked_with. by rewrite length_imap. Qed.

Lemma flag_add hi lo : (hi = 0 ∨ hi = 128) → 0 <= lo < 128 →
  let b := byte_val (byte_of_Z (hi + lo)) in
  has_flag b 128 = negb (hi =? 0) ∧ Z.land b 127 = lo ∧ (lo < 16 → Z.land b 15 = lo).
Proof.
  intros Hhi Hlo. cbn zeta. rewrite byte_val_small by lia. unfold has_flag.
  assert (Z.land (hi + lo) 128 = hi) as ->.
  { assert (0 <= hi + lo < 256) as Hr by lia. destruct Hhi as [-> | ->];
      apply Z.bits_inj'; intros i Hi; rewrite Z.land_spec; change 128 with (2 ^ 7);
      rewrite Z.pow2_bits_eqb, ?Z.bits_0 by lia.
    - destruct (7 =? i) eqn:E; zbool; [|by rewrite andb_false_r]. subst i.
      by rewrite (testbit_high 7) by lia.
    - destruct (7 =? i) eqn:E; zbool; [|by rewrite andb_false_r]. subst i. rewrite andb_true_r.
      change (2 ^ 7) with (1 * 2 ^ 7). rewrite <- lor_shift, Z.lor_spec by lia.
      change (1 * 2 ^ 7) with (2 ^ 7). by rewrite Z.pow2_bits_eqb by lia. }
  split_and!; [done| |intros Hlt].
  - change 127 with (Z.ones 7). rewrite Z.land_ones by lia. change (2 ^ 7) with 128.
    destruct Hhi as [-> | ->]; [by rewrite Z.mod_small|].
    change 128 with (1 * 128) at 1. by rewrite Z.add_comm, Z.mod_add, Z.mod_small by lia.
  - change 15 with (Z.ones 4). rewrite Z.land_ones by lia. change (2 ^ 4) with 16.
    destruct Hhi as [-> | ->]; [by rewrite Z.mod_small by lia|].
    change 128 with (8 * 16). by rewrite Z.add_comm, Z.mod_add, Z.mod_small by lia.
Qed.

(** The octets that hold the length. *)
Definition ws_length_bytes (m len : Z) : bytes :=
  if len <? 126 then [byte_of_Z (m + len)]
  else if len <? 65536 then byte_of_Z (m + 126) :: be_bytes 2 len
  else byte_of_Z (m + 127) :: be_bytes 8 len.

Lemma ws_length_bytes_len m len : 1 <= zlen (ws_length_bytes m len) <= 9.
Proof.
  unfold ws_length_bytes. repeat case_match; rewrite zlen_cons, ?zlen_be_bytes;
    [change (zlen []) with 0|..]; lia.
Qed.

Lemma ws_lengths_header b0 m len rest :
  (m = 0 ∨ m = 128) → 0 <= len < 2 ^ 64 →
  ws_lengths (b0 :: ws_length_bytes m len ++ rest) = Some (1 + zlen (ws_length_bytes m len), len) ∧
  has_flag (byte_val (byte_at (b0 :: ws_length_bytes m len ++ rest) 1)) 128 = negb (m =? 0).
Proof.
  intros Hm Hlen. pose proof (zlen_nonneg rest). unfold ws_lengths, ws_length_bytes.
  destruct (len <? 126) eqn:H126; [|destruct (len <? 65536) eqn:H64]; zbool.
  - change (byte_at (b0 :: [byte_of_Z (m + len)] ++ rest) 1) with (byte_of_Z (m + len)).
    destruct (flag_add m len) as (-> & -> & _); [done|lia|].
    replace (len =? 126) with false by lia. replace (len =? 127) with false by lia. done.
  - change (byte_at (b0 :: (byte_of_Z (m + 126) :: be_bytes 2 len) ++ rest) 1) with (byte_of_Z (m + 126)).
    destruct (flag_add m 126) as (-> & -> & _); [done|lia|]. split; [|done].
    cbn [Z.eqb Pos.eqb]. change (zdrop 2 _) with (be_bytes 2 len ++ rest).
    rewrite ztake_exact by apply zlen_be_bytes.
    rewrite be_val_be_bytes by (change (2 ^ (8 * Z.of_nat 2)) with 65536; lia).
    assert (zlen (b0 :: (byte_of_Z (m + 126) :: be_bytes 2 len) ++ rest) = 4 + zlen rest) as ->
      by (unfold zlen; cbn; lia).
    by replace (4 + zlen rest <? 4) with false by lia.
  - change (byte_at (b0 :: (byte_of_Z (m + 127) :: be_bytes 8 len) ++ rest) 1) with (byte_of_Z (m + 127)).
    destruct (flag_add m 127) as (-> & -> & _); [done|lia|]. split; [|done].
    cbn [Z.eqb Pos.eqb]. change (zdrop 2 _) with (be_bytes 8 len ++ rest).
    rewrite ztake_exact by apply zlen_be_bytes.
    rewrite be_val_be_bytes by (change (2 ^ (8 * Z.of_nat 8)) with (2 ^ 64); lia).
    assert (zlen (b0 :: (byte_of_Z (m + 127) :: be_bytes 8 len) ++ rest) = 10 + zlen rest) as ->
      by (unfold zlen; cbn; lia).
    by replace (10 + zlen rest <? 10) with false by lia.
Qed.

(** A WebSocket frame whose header has arrived is read with its flags, its full length and
    where it ends, and its payload is what the sender masked, as far as it is at hand and up to 4096
    bytes, whether or not the rest of it has arrived. *)
Theorem ws_frame_parsed fin opcode mask len data :
  0 <= opcode < 16 → 0 <= len < 2 ^ 63 → match mask with Some k => zlen k = 4 | None => True end →
  parse_websocket_frame (ws_header fin opcode mask len ++ masked_with mask data) =
  Some ({| ws_fin := fin; ws_opcode := opcode; ws_payload_len := len;
           ws_payload := ztake (Z.min len 4096) data |},
        zlen (ws_header fin opcode mask len) + len).
Proof.
  intros Hop Hlen Hmask. pose proof (zlen_nonneg data). pose proof (zlen_masked mask data) as Hmasked.
  set (sent := masked_with mask data) in *.
  set (m := match mask with Some _ => 128 | None => 0 end).
  assert (Hm : m = 0 ∨ m = 128) by (subst m; destruct mask; lia).
  set (b0 := byte_of_Z ((if fin then 128 else 0) + opcode)).
  assert (Hhdr : ws_header fin opcode mask len = b0 :: ws_length_bytes m len ++ default [] mask) by done.
  destruct (flag_add (if fin then 128 else 0) opcode) as (Hfin & _ & Hopc);
    [destruct fin; lia|lia|]. fold b0 in Hfin, Hopc. specialize (Hopc ltac:(lia)).
  destruct (ws_lengths_header b0 m len (default [] mask ++ sent) Hm ltac:(lia)) as [Hl Hf].
  rewrite Hhdr. cbn [app]. rewrite <- app_assoc. set (buf := b0 :: ws_length_bytes m len ++ default [] mask ++ sent) in *.
  pose proof (ws_length_bytes_len m len) as Hsz.
  assert (zlen buf = 1 + zlen (ws_length_bytes m len) + zlen (default [] mask) + zlen data) as Hbuf.
  { subst buf. rewrite zlen_cons, !zlen_app. lia. }
  assert (∀ k, zlen (b0 :: ws_length_bytes m len ++ k) = 1 + zlen (ws_length_bytes m len) + zlen k) as Hk.
  { intros k. rewrite zlen_cons, zlen_app. lia. }
  assert (zdrop (1 + zlen (ws_length_bytes m len)) buf = default [] mask ++ sent) as Hd.
  { subst buf. apply (zdrop_exact (b0 :: ws_length_bytes m len)). apply zlen_cons. }
  pose proof (zlen_nonneg (default [] mask)).
  unfold parse_websocket_frame. change (byte_at buf 0) with b0.
  rewrite Hfin, Hopc, Hf, Hl, Hk. replace (zlen buf <? 2) with false by lia. cbn [mbind option_bind].
  destruct mask as [k|]; cbn [default] in *; subst m; cbn [Z.eqb negb].
  - change (id k) with k in *.
    replace (2 ^ 64 <=? _) with false by lia. replace (zlen buf <? _) with false by lia.
    rewrite <- (zdrop_zdrop (1 + zlen (ws_length_bytes 128 len)) 4 buf) by lia.
    rewrite Hd, zdrop_exact, ztake_exact by done.
    f_equal. f_equal; [|f_equal; lia]. f_equal; [by destruct fin|].
    rewrite <- (ztake_min (Z.min len 4096) data). subst sent. rewrite unmask_masked.
    unfold saturating_sub. f_equal. lia.
  - change (zlen []) with 0 in *.
    replace (2 ^ 64 <=? _) with false by lia. replace (zlen buf <? _) with false by lia.
    rewrite Hd. f_equal. f_equal; [|f_equal; lia]. f_equal; [by destruct fin|].
    rewrite <- (ztake_min (Z.min len 4096) data). subst sent. cbn [masked_with app].
    unfold saturating_sub. f_equal. lia.
Qed.

Lemma ws_frame_parsed_witness :
  parse_websocket_frame
    (ws_header true 1 (Some [x37; xfa; x21; x3d]) 2 ++ masked_with (Some [x37; xfa; x21; x3d]) (lit "Hi")) =
  Some ({| ws_fin := true; ws_opcode := 1; ws_payload_len := 2; ws_payload := lit "Hi" |}, 8).
Proof.
  rewrite (ws_frame_parsed true 1 (Some [x37; xfa; x21; x3d]) 2 (lit "Hi"));
    [vm_compute; reflexivity|lia|lia|reflexivity].
Defined.

(** A header that is cut before its length has arrived is dropped, and the next read is taken to
    start with a header: here the length byte and the payload of a five-byte frame are read as the
    header of another one. *)
Lemma ws_header_cut_loses_sync :
  parse_websocket_frame [x81] = None ∧
  parse_websocket_frame (x81 :: x05 :: lit "hello") =
    Some ({| ws_fin := true; ws_opcode := 1; ws_payload_len := 5; ws_payload := lit "hello" |}, 7) ∧
  (fun r => (ws_payload_len r.1, r.2)) <$> parse_websocket_frame (x05 :: lit "hello") = Some (104, 106).
Proof. split_and!; vm_compute; reflexivity. Qed.

(** * HTTP/3 *)

(** RFC 9000: two bits of length, then the value. *)
Definition encode_varint (n : Z) : bytes :=
  if n <? 64 then be_bytes 1 n
  else if n <? 16384 then be_bytes 2 (16384 + n)
  else if n <? 2 ^ 30 then be_bytes 4 (2 * 2 ^ 30 + n)
  else be_bytes 8 (3 * 2 ^ 62 + n).

Lemma foldl_be t v : 0 <= v → v * 256 ^ zlen t + 256 ^ zlen t <= 2 ^ 64 →
  foldl (fun val b => Z.lor (u64 (Z.shiftl val 8)) (byte_val b)) v t = v * 256 ^ zlen t + be_val t ∧
  0 <= be_val t < 256 ^ zlen t.
Proof.
  revert v. induction t as [|b t IH] using rev_ind; intros v Hv Hmax.
  - change (zlen []) with 0. cbn. lia.
  - rewrite zlen_app in *. change (zlen [b]) with 1 in *. pose proof (zlen_nonneg t).
    rewrite Z.pow_add_r in * by lia. change (256 ^ 1) with 256 in *.
    pose proof (Z.pow_pos_nonneg 256 (zlen t)). pose proof (byte_val_range b).
    destruct (IH v) as [Hf Hb]; [lia|nia|]. unfold be_val in *. rewrite !foldl_snoc, Hf.
    set (w := v * 256 ^ zlen t + foldl _ 0 t) in *. rewrite Z.shiftl_mul_pow2 by lia.
    rewrite wrap_small by (change (2 ^ 8) with 256; nia).
    rewrite lor_shift by (change (2 ^ 8) with 256; lia). change (2 ^ 8) with 256. nia.
Qed.

Lemma be_val_cons b t : be_val (b :: t) = byte_val b * 256 ^ zlen t + be_val t.
Proof.
  induction t as [|c t IH] using rev_ind; [unfold be_val; change (zlen []) with 0; cbn; lia|].
  unfold be_val in *. rewrite app_comm_cons, !foldl_snoc, IH, zlen_app.
  change (zlen [c]) with 1. rewrite Z.pow_add_r by (pose proof (zlen_nonneg t); lia). lia.
Qed.

(** A first octet with length class [p], then [k] more. *)
Lemma decode_varint_class p k n rest :
  (p = 0 ∧ k = 0 ∨ p = 1 ∧ k = 1 ∨ p = 2 ∧ k = 3 ∨ p = 3 ∧ k = 7) →
  0 <= n < 64 * 256 ^ k →
  decode_varint (be_bytes (Z.to_nat (1 + k)) (p * (64 * 256 ^ k) + n) ++ rest) = Some (n, 1 + k).
Proof.
  intros Hc Hn. set (z := p * _ + n). pose proof (zlen_be_bytes (Z.to_nat (1 + k)) z) as Hlen.
  pose proof (Z.pow_pos_nonneg 256 k).
  assert (Hval : be_val (be_bytes (Z.to_nat (1 + k)) z) = z).
  { apply be_val_be_bytes. rewrite Z2Nat.id by lia. rewrite Z.pow_mul_r by lia.
    change (2 ^ 8) with 256. rewrite Z.pow_add_r by lia. subst z. nia. }
  rewrite Z2Nat.id in Hlen by lia.
  destruct (be_bytes (Z.to_nat (1 + k)) z) as [|b t] eqn:Hb; [change (zlen []) with 0 in Hlen; lia|].
  rewrite zlen_cons in Hlen. assert (zlen t = k) as Ht by lia.
  rewrite be_val_cons, Ht in Hval. pose proof (byte_val_range b).
  destruct (foldl_be t (byte_val b mod 64)) as [Hf Hr]; [apply Z.mod_pos_bound; lia| |].
  { rewrite Ht. pose proof (Z.mod_pos_bound (byte_val b) 64).
    assert (256 ^ k <= 256 ^ 7) by (apply Z.pow_le_mono_r; lia).
    change (256 ^ 7) with 72057594037927936 in *. change (2 ^ 64) with 18446744073709551616. nia. }
  rewrite Ht in Hf, Hr.
  assert (byte_val b / 64 = p ∧ (byte_val b mod 64) * 256 ^ k + be_val t = n) as [Hp Hn'].
  { pose proof (Z.div_mod (byte_val b) 64). pose proof (Z.mod_pos_bound (byte_val b) 64).
    assert (byte_val b / 64 = p) by nia. split; [done|]. nia. }
  unfold decode_varint. cbn [app]. rewrite Z.shiftr_div_pow2 by lia. change (2 ^ 6) with 64.
  rewrite Hp. assert (Z.shiftl 1 p = 1 + k) as -> by (destruct Hc as [[-> ->]|[[-> ->]|[[-> ->]|[-> ->]]]]; done).
  rewrite zlen_cons, zlen_app, Ht. pose proof (zlen_nonneg rest).
  replace (_ <? 1 + k) with false by lia. f_equal. f_equal.
  change (zdrop 1 (b :: t ++ rest)) with (t ++ rest). rewrite ztake_exact by lia.
  change 63 with (Z.ones 6). rewrite Z.land_ones by lia. change (2 ^ 6) with 64. by rewrite Hf.
Qed.

Lemma decode_varint_encode n rest : 0 <= n < 2 ^ 62 →
  decode_varint (encode_varint n ++ rest) = Some (n, zlen (encode_varint n)).
Proof.
  intros Hn. unfold encode_varint.
  destruct (n <? 64) eqn:H1; [|destruct (n <? 16384) eqn:H2; [|destruct (n <? 2 ^ 30) eqn:H3]];
    zbool; rewrite zlen_be_bytes.
  - apply (decode_varint_class 0 0); [lia|]. lia.
  - apply (decode_varint_class 1 1); [lia|]. lia.
  - apply (decode_varint_class 2 3); [lia|]. lia.
  - apply (decode_varint_class 3 7); [lia|]. lia.
Qed.

Definition encode_h3 (f : H3Frame) : bytes :=
  encode_varint (h3_type f) ++ encode_varint (zlen (h3_payload f)) ++ h3_payload f.

Definition h3_wf (f : H3Frame) : Prop := 0 <= h3_type f < 2 ^ 62 ∧ zlen (h3_payload f) < 2 ^ 62.

Lemma encode_varint_length n : 0 < zlen (encode_varint n).
Proof. unfold encode_varint. repeat case_match; rewrite zlen_be_bytes; lia. Qed.

Lemma parse_h3_encode f rest : h3_wf f →
  parse_h3_frame (encode_h3 f ++ rest) = Some (f, zlen (encode_h3 f)).
Proof.
  intros [Ht Hp]. destruct f as [ty payload]. unfold encode_h3 in *. cbn [h3_type h3_payload] in *.
  pose proof (zlen_nonneg payload). pose proof (zlen_nonneg rest).
  unfold parse_h3_frame. rewrite <- !app_assoc, decode_varint_encode by done. cbn [mbind option_bind].
  rewrite zdrop_exact by done. rewrite decode_varint_encode by lia. cbn [mbind option_bind].
  rewrite !zlen_app. replace (_ <? _) with false by lia.
  rewrite <- zlen_app, app_assoc, zdrop_exact, ztake_exact by done.
  f_equal. f_equal. rewrite zlen_app. lia.
Qed.

(** HTTP/3 frames of any type and size, one after the other, are parsed back one for one. *)
Theorem h3_frames_roundtrip fs :
  Forall h3_wf fs → parse_h3_frames (mjoin (encode_h3 <$> fs)) = fs.
Proof.
  intros Hfs. unfold parse_h3_frames. set (buf := mjoin _).
  assert (∀ fuel, (length buf <= fuel)%nat → parse_h3_from fuel buf = fs) as Hf; [|by apply Hf].
  subst buf. induction Hfs as [|f fs Hf Hfs IH]; intros fuel Hfuel; [by destruct fuel|].
  cbn [fmap list_fmap] in *. change (mjoin (?a :: ?l)) with (a ++ mjoin l) in *.
  assert (0 < zlen (encode_h3 f)) as Hpos.
  { unfold encode_h3. rewrite !zlen_app. pose proof (encode_varint_length (h3_type f)).
    pose proof (encode_varint_length (zlen (h3_payload f))). pose proof (zlen_nonneg (h3_payload f)). lia. }
  rewrite length_app in Hfuel. destruct fuel as [|fuel]; [unfold zlen in Hpos; lia|].
  cbn [parse_h3_from]. rewrite parse_h3_encode by done.
  destruct (encode_h3 f ++ _) eqn:Hnil; [apply app_eq_nil in Hnil as [Hnil _]; by rewrite Hnil in Hpos|].
  replace (zlen (encode_h3 f) =? 0) with false by lia. rewrite <- Hnil, zdrop_exact by done.
  f_equal. apply IH. unfold zlen in Hpos. lia.
Qed.

Lemma h3_frames_roundtrip_witness :
  parse_h3_frames
    (mjoin (encode_h3 <$> [ {| h3_type := 4; h3_payload := [] |}; {| h3_type := 16384; h3_payload := lit "ok" |} ])) =
  [ {| h3_type := 4; h3_payload := [] |}; {| h3_type := 16384; h3_payload := lit "ok" |} ].
Proof. apply h3_frames_roundtrip. repeat constructor; vm_compute; done. Defined.

(** * QPACK *)

(** RFC 9204 puts the length of a literal name into the first octet of the line; the code looks for it
    in the next one. The line that spells [foo: bar] is lost, with everything behind it. *)
Lemma qpack_literal_name_lost `{Unicode} :
  decode_qpack_headers ([x00; x00; x23] ++ lit "foo" ++ [x03] ++ lit "bar" ++ [xd1]) = [].
Proof. vm_compute. reflexivity. Qed.
