(* ===== verification/Mcp.v ===== *)
(** Recognising calls of the Model Context Protocol in HTTP bodies: [userspace/src/mcp.rs].

    The JSON parser and printer of [serde_json] are the class [Json]; a value is a [json]. Objects
    keep their members in order, one per name. *)

From S2P Require Import Prelude.
From S2P Require Import Pending Text Http1.
From Stdlib Require Import Strings.String.

#[local] Notation length := List.length.
#[local] Open Scope list_scope.
#[local] Open Scope Z_scope.

(** * JSON values *)

(** [serde_json::Value]; a number is its text. *)
Inductive json :=
| JNull
| JBool (b : bool)
| JNumber (text : list Z)
| JString (s : list Z)
| JArray (vs : list json)
| JObject (kvs : list (list Z * json)).

Class Json := {
  from_slice : bytes → option json;
  from_str : list Z → option json;
  json_text : json → list Z
}.

Fixpoint member (k : list Z) (kvs : list (list Z * json)) : option json :=
  match kvs with
  | [] => None
  | (k', v) :: kvs' => if bool_decide (k = k') then Some v else member k kvs'
  end.

(** [Value::get] with a string. *)
Definition json_get (k : list Z) (v : json) : option json :=
  match v with JObject kvs => member k kvs | _ => None end.

Definition as_str (v : json) : option (list Z) := match v with JString s => Some s | _ => None end.

(** * Strings *)

Definition contains {A} `{EqDecision A} (needle : list A) : list A → bool :=
  fix go s := starts_with needle s || match s with [] => false | _ :: s' => go s' end.

Definition strip_cr (line : list Z) : list Z :=
  match reverse line with 13 :: r => reverse r | _ => line end.

(** [str::lines]: parts between line feeds, without a carriage return before one; an empty part
    behind the last line feed is no line. *)
Fixpoint lines_of (parts : list (list Z)) : list (list Z) :=
  match parts with
  | [] => []
  | [l] => if bool_decide (l = []) then [] else [l]
  | l :: ls => strip_cr l :: lines_of ls
  end.

Definition lines (s : list Z) : list (list Z) := lines_of (split_on 10 s).

(** * Calls *)

Record McpEvent := {
  me_method : option bytes;
  me_id : option json;
  me_tool_name : option bytes;
  me_has_injection : bool;
  me_permission_flags : list bytes
}.

Definition injection_patterns : list (list Z) :=
  [ clit "ignore previous instructions"; clit "ignore all previous"; clit "you are now";
    clit "disregard the above"; clit "system prompt"; clit "jailbreak"; clit "act as";
    [10; 10] ++ clit "human:"; [10; 10] ++ clit "assistant:"; clit "<|im_start|>"; clit "[inst]" ].

Definition permission_keywords : list (list Z) :=
  [ clit "execute"; clit "admin"; clit "root"; clit "sudo"; clit "chmod"; clit "write";
    clit "delete"; clit "drop"; clit "truncate"; clit "shell"; clit "cmd"; clit "bash";
    clit "system"; clit "eval"; clit "exec"; clit "spawn" ].

Section Mcp.
Context `{Unicode, Json}.

Definition analyse_jsonrpc (val : json) : option McpEvent :=
  if negb (bool_decide (json_get (clit "jsonrpc") val ≫= as_str = Some (clit "2.0"))) then None else
  let json_str := to_lowercase (json_text val) in
  Some {|
    me_method := utf8 <$> (json_get (clit "method") val ≫= as_str);
    me_id := json_get (clit "id") val;
    me_tool_name := utf8 <$> ((json_get (clit "params") val ≫= json_get (clit "name")) ≫= as_str);
    me_has_injection := existsb (fun p => contains p json_str) injection_patterns;
    me_permission_flags := utf8 <$> List.filter (fun kw => contains kw json_str) permission_keywords |}.

Definition sse_event (line : list Z) : option McpEvent :=
  data ← trim <$> strip_prefix (clit "data: ") line;
  if bool_decide (data = []) || bool_decide (data = clit "[DONE]") then None
  else from_str data ≫= analyse_jsonrpc.

Definition parse_sse_events (body : bytes) : list McpEvent :=
  match from_utf8 body with
  | Some text => omap sse_event (lines text)
  | None => []
  end.

Definition parse_jsonrpc_request (body : bytes) : list McpEvent :=
  match from_slice body with
  | Some val =>
      let calls := match val with JArray items => items | other => [other] end in
      omap (fun v => if bool_decide (is_Some (json_get (clit "method") v ≫= as_str))
                     then analyse_jsonrpc v else None) calls
  | None => []
  end.
End Mcp.

Definition is_mcp_response (hs : headers) : bool :=
  match header_get (lit "content-type") hs with
  | Some ct => contains (lit "text/event-stream") ct
  | None => false
  end.
