(* ===== verification/Reader.v ===== *)
(** The reader's view of a connection: the keys records are filed under, and what a close record
    makes it forget ([StreamKey], [ConnKey] of [userspace/src/types.rs], [evict_connection_by_ptr]
    of [userspace/src/stream.rs]).

    The parsers have files of their own ([Http1], [Http2]): here [dec] is the state of an HTTP/1
    decoder and [h2dir] one direction of HTTP/2, which a close only drops. A [HashMap] is a [gmap]; a loop over one visits its
    entries in the order of [map_to_list], which the code leaves open. *)

From S2P Require Import Prelude Abi Kernel Logic Sampling Fixture TlsState Emit EmitProps Conn.
From S2P Require Import Lifecycle Wire Pending Memory Queues.
From stdpp Require Import sorting.
From stdpp Require Import strings.

#[local] Open Scope list_scope.
#[local] Open Scope Z_scope.

Definition MAX_INCOMPLETE_PER_SWEEP : Z := 1024.

(** * Keys *)

Record StreamKey := {
  sk_pid : Z;
  sk_ssl_ptr : Z;
  sk_direction : Z;
  sk_proc_start_ns : Z;
  sk_generation : Z
}.

Record ConnKey := {
  ck_pid : Z;
  ck_ssl_ptr : Z;
  ck_born_ms : Z;
  ck_proc_start_ns : Z;
  ck_generation : Z
}.

#[export] Instance StreamKey_eq_dec : EqDecision StreamKey.
Proof. solve_decision. Defined.

#[export] Instance ConnKey_eq_dec : EqDecision ConnKey.
Proof. solve_decision. Defined.

#[export] Instance StreamKey_countable : Countable StreamKey.
Proof.
  apply (inj_countable'
    (fun k => (sk_pid k, sk_ssl_ptr k, sk_direction k, sk_proc_start_ns k, sk_generation k))
    (fun '(a, b, c, d, e) => Build_StreamKey a b c d e)). by intros [].
Defined.

#[export] Instance ConnKey_countable : Countable ConnKey.
Proof.
  apply (inj_countable'
    (fun k => (ck_pid k, ck_ssl_ptr k, ck_born_ms k, ck_proc_start_ns k, ck_generation k))
    (fun '(a, b, c, d, e) => Build_ConnKey a b c d e)). by intros [].
Defined.

Definition StreamKey_from_event (ev : tls_event_hdr) : StreamKey := {|
  sk_pid := h_pid ev; sk_ssl_ptr := h_ssl_ptr ev; sk_direction := h_direction ev;
  sk_proc_start_ns := h_proc_start_ns ev; sk_generation := h_conn_generation ev |}.

Definition ConnKey_from_event (ev : tls_event_hdr) (born_ms : Z) : ConnKey := {|
  ck_pid := h_pid ev; ck_ssl_ptr := h_ssl_ptr ev; ck_born_ms := born_ms;
  ck_proc_start_ns := h_proc_start_ns ev; ck_generation := h_conn_generation ev |}.

Definition ConnKey_from_close (ev : close_event) : ConnKey := {|
  ck_pid := ce_pid ev; ck_ssl_ptr := ce_ssl_ptr ev; ck_born_ms := 0;
  ck_proc_start_ns := ce_proc_start_ns ev; ck_generation := ce_generation ev |}.

(** Which incarnations a close key stands for. *)
Definition close_exact (key : ConnKey) : bool :=
  negb (ck_proc_start_ns key =? 0) || negb (ck_generation key =? 0).

Definition hit (key : ConnKey) (pid ssl_ptr start generation : Z) : bool :=
  (pid =? ck_pid key) && (ssl_ptr =? ck_ssl_ptr key) &&
  (negb (close_exact key) ||
   ((start =? ck_proc_start_ns key) && (generation =? ck_generation key))).

Definition hit_conn (key k : ConnKey) : bool :=
  hit key (ck_pid k) (ck_ssl_ptr k) (ck_proc_start_ns k) (ck_generation k).

Definition hit_stream (key : ConnKey) (k : StreamKey) : bool :=
  hit key (sk_pid k) (sk_ssl_ptr k) (sk_proc_start_ns k) (sk_generation k).

(** * State *)

Section Reader.
Context {net dec h2dir : Type} (sizeof_request : Z).

Record Http2Conn := {
  hc_req : h2dir;
  hc_resp : h2dir;
  hc_pending_requests : PendingStreams net;
  hc_responses : InflightResponses;
  hc_last_event_ts : Z;
  hc_buffered : Z
}.

Record EarlyResp := { er_data : bytes; er_seen_ms : Z; er_charge : Z }.

(** The tables of one shard. [Shard] adds its configuration and the time of its last sweep; the
    bookkeeping of its log is left out. *)
Record StreamState := {
  buffers : gmap StreamKey (bytes * Z);
  pending : gmap ConnKey (PendingQueue net);
  http2_state : gmap ConnKey Http2Conn;
  h2_early_resp : gmap ConnKey EarlyResp;
  http3_connections : gset ConnKey;
  ws_connections : gset ConnKey;
  known_connections : gset ConnKey;
  conn_born_ms : gmap (Z * Z * Z * Z) Z;
  conn_roles : gmap ConnKey Z;
  gapped_streams : gset StreamKey;
  h1_decoders : gmap StreamKey dec;
  h2_prefix : gmap ConnKey bytes;
  ws_remaining : gmap StreamKey Z
}.

(** [retain] on the entries a predicate on keys does not hit. *)
Definition retain {K V} `{Countable K} (h : K → bool) (M : gmap K V) : gmap K V :=
  filter (fun kv => h kv.1 = false) M.

Definition retain_set {K} `{Countable K} (h : K → bool) (X : gset K) : gset K :=
  filter (fun k => h k = false) X.

(** The entries it does hit, in the order of a loop. *)
Definition hits {K V} `{Countable K} (h : K → bool) (M : gmap K V) : list (K * V) :=
  map_to_list (filter (fun kv => h kv.1 = true) M).

(** * Forgetting a connection *)

Notation unanswered := (list (ParsedRequest net * string)).

(** [take_all] on every queue of the loop; the queues stay in the table for now. *)
Fixpoint drain_queues (h3 : gset ConnKey) (l : list (ConnKey * PendingQueue net)) (m : memory)
    : unanswered * list (PendingQueue net) * memory :=
  match l with
  | [] => ([], [], m)
  | (k, q) :: l' =>
      let proto := (if bool_decide (k ∈ h3) then "HTTP/3" else "HTTP/1.1")%string in
      let '(out, q, m) := pq_take_all sizeof_request q m in
      let '(reqs, qs, m) := drain_queues h3 l' m in
      (((fun r => (r, proto)) <$> out) ++ reqs, q :: qs, m)
  end.

Fixpoint drain_conns (l : list (ConnKey * Http2Conn)) (m : memory)
    : unanswered * list Http2Conn * memory :=
  match l with
  | [] => ([], [], m)
  | (_, c) :: l' =>
      let '(out, p, m) := ps_take_all sizeof_request (hc_pending_requests c) m in
      let c := {| hc_req := hc_req c; hc_resp := hc_resp c; hc_pending_requests := p;
                  hc_responses := hc_responses c; hc_last_event_ts := hc_last_event_ts c;
                  hc_buffered := hc_buffered c |} in
      let '(reqs, cs, m) := drain_conns l' m in
      (((fun r => (r, "HTTP/2"%string)) <$> out) ++ reqs, c :: cs, m)
  end.

(** [incomplete_events]: at most [MAX_INCOMPLETE_PER_SWEEP] requests become events. *)
Definition incomplete_events (reqs : unanswered) (m : memory) : unanswered * memory :=
  let out := ztake MAX_INCOMPLETE_PER_SWEEP reqs in
  let n := zlen reqs - zlen out in
  (out, if 0 <? n then m <| EVENTS_DROPPED := u64 (EVENTS_DROPPED m + n) |> else m).

(** Dropping a value releases what each [PendingBytes] in it still holds, in field order. *)
Definition drop_queue (m : memory) (q : PendingQueue net) : memory := release_memory (pq_bytes q) m.

Definition drop_conn (m : memory) (c : Http2Conn) : memory :=
  release_memory (hc_buffered c)
    (release_memory (is_bytes (hc_responses c))
       (release_memory (ps_bytes (hc_pending_requests c)) m)).

Definition drop_early (m : memory) (e : EarlyResp) : memory := release_memory (er_charge e) m.

Definition evict_connection_by_ptr (key : ConnKey) (s : StreamState) (m : memory)
    : unanswered * StreamState * memory :=
  let hc := hit_conn key in
  let hs := hit_stream key in
  let '(reqs1, queues, m) := drain_queues (http3_connections s) (hits hc (pending s)) m in
  let '(reqs2, conns, m) := drain_conns (hits hc (http2_state s)) m in
  let '(incomplete, m) := incomplete_events (reqs1 ++ reqs2) m in
  let freed_bytes := zsum (fun kb => zlen kb.2.1) (hits hs (buffers s)) in
  let m := fold_left drop_queue queues m in
  let m := fold_left drop_conn conns m in
  let m := fold_left drop_early (snd <$> hits hc (h2_early_resp s)) m in
  let m := if 0 <? freed_bytes then release_memory freed_bytes m else m in
  (incomplete,
   {| buffers := retain hs (buffers s);
      pending := retain hc (pending s);
      http2_state := retain hc (http2_state s);
      h2_early_resp := retain hc (h2_early_resp s);
      http3_connections := retain_set hc (http3_connections s);
      ws_connections := retain_set hc (ws_connections s);
      known_connections := retain_set hc (known_connections s);
      conn_born_ms := retain (fun '(p, ptr, st, g) => hit key p ptr st g) (conn_born_ms s);
      conn_roles := retain hc (conn_roles s);
      gapped_streams := retain_set hs (gapped_streams s);
      h1_decoders := retain hs (h1_decoders s);
      h2_prefix := retain hc (h2_prefix s);
      ws_remaining := retain hs (ws_remaining s) |},
   m).

(** * What the tables are charged for *)

Definition conn_bytes (c : Http2Conn) : Z :=
  ps_bytes (hc_pending_requests c) + is_bytes (hc_responses c) + hc_buffered c.

Definition charged_bytes (s : StreamState) : Z :=
  map_sum (fun b => zlen b.1) (buffers s) + map_sum pq_bytes (pending s) +
  map_sum conn_bytes (http2_state s) + map_sum er_charge (h2_early_resp s).

#[local] Existing Instance responses_holder.

Definition conn_ok (c : Http2Conn) : Prop :=
  exact (Holder0 := streams_holder sizeof_request) (hc_pending_requests c) ∧
  exact (hc_responses c) ∧ 0 <= hc_buffered c.

(** Every queue of the shard is charged for exactly its contents ([Memory.memory_accounted]). *)
Definition state_ok (s : StreamState) : Prop :=
  map_Forall (fun _ => exact (Holder0 := queue_holder sizeof_request)) (pending s) ∧
  map_Forall (fun _ => conn_ok) (http2_state s) ∧
  map_Forall (fun _ e => 0 <= er_charge e) (h2_early_resp s).

(** The requests of the connections a close ends, with their protocol. *)
Definition queue_requests (h3 : gset ConnKey) (kq : ConnKey * PendingQueue net) : unanswered :=
  (fun r => (r, (if bool_decide (kq.1 ∈ h3) then "HTTP/3" else "HTTP/1.1")%string)) <$>
  pq_items kq.2.

(** In ascending order of stream. *)
Definition stream_requests (p : PendingStreams net) : list (ParsedRequest net) :=
  omap (fun id => ps_map p !! id) (merge_sort Z.le (map_to_list (ps_map p)).*1).

Definition unanswered_of (key : ConnKey) (s : StreamState) : unanswered :=
  mjoin (queue_requests (http3_connections s) <$> hits (hit_conn key) (pending s)) ++
  mjoin ((fun kc => (fun r => (r, "HTTP/2"%string)) <$> stream_requests (hc_pending_requests kc.2)) <$>
          hits (hit_conn key) (http2_state s)).
End Reader.
