(* ===== verification/ReaderProps.v ===== *)
(** What a close record does to the reader: the connection it names is forgotten, its unanswered
    requests are reported, its memory is given back; and the close of a TLS object names exactly
    the records of that object's generation. *)

From S2P Require Import Prelude Abi Kernel Logic Sampling Fixture TlsState Emit EmitProps Conn.
From S2P Require Import Lifecycle Wire Pending Memory Queues Reader Proc System Guard.
From stdpp Require Import sorting.
From stdpp Require Import strings.

#[local] Open Scope list_scope.
#[local] Open Scope Z_scope.

#[local] Existing Instance responses_holder.

#[local] Notation total := TOTAL_BUFFER_BYTES.

(** * Draining *)

Section Drain.
Context {net dec h2dir : Type} (sizeof_request : Z) (Hsize : 0 <= sizeof_request).

#[local] Instance queue_holder' : Holder (PendingQueue net) := queue_holder sizeof_request.
#[local] Instance streams_holder' : Holder (PendingStreams net) := streams_holder sizeof_request.

Notation StreamState := (StreamState (net := net) (dec := dec) (h2dir := h2dir)).
Notation Http2Conn := (Http2Conn (net := net) (h2dir := h2dir)).
Notation dropped := EVENTS_DROPPED.

Lemma pb_sub_dropped n pb m : dropped (pb_sub n pb m).2 = dropped m.
Proof. unfold pb_sub, release_memory. cbn. by destruct (_ =? 0). Qed.

Lemma expire_dropped now ttl (items : list (ParsedRequest net)) pb m :
  dropped (expire_from sizeof_request now ttl items pb m).2 = dropped m.
Proof.
  revert pb m. induction items as [|r items IH]; intros pb m; cbn [expire_from]; [done|].
  destruct (stale now ttl r); [|done]. pose proof (pb_sub_dropped (approx_bytes sizeof_request r) pb m).
  destruct (pb_sub _ _ _) as [pb' m']. specialize (IH pb' m').
  destruct (expire_from _ _ _ _ _ _) as [[out q] m2]. cbn in *. congruence.
Qed.

(** Taking everything out of a queue that is charged exactly leaves nothing charged. *)
Lemma pq_take_all_charged (q : PendingQueue net) m rest :
  charged rest q m →
  ∃ m', pq_take_all sizeof_request q m = (pq_items q, pq_default, m') ∧
        total m' = rest ∧ dropped m' = dropped m.
Proof using Hsize.
  intros Hq. destruct q as [items pb]. unfold pq_take_all, pq_expire_take. cbn [pq_items pq_bytes].
  pose proof (keeps_expire_from sizeof_request Hsize 0 (2 ^ 64 - 1) 0 items pb m) as Hk.
  pose proof (expire_items sizeof_request (2 ^ 64 - 1) 0 items pb m) as Hi.
  pose proof (expire_dropped (2 ^ 64 - 1) 0 items pb m) as Hd.
  destruct (expire_from _ _ _ _ _ _) as [[out q'] m']. cbn [snd] in Hd.
  destruct (Hk rest Hq) as [(_ & Hm & Hex & _) _]. destruct Hi as (H1 & _ & H2).
  assert (pq_items q' = []) as Hnil.
  { destruct (pq_items q') as [|r l]; [done|]. specialize (H2 r l eq_refl).
    by rewrite stale_always in H2. }
  rewrite Hnil, app_nil_r in H1. subst out. destruct q' as [items' pb']. cbn in *. subst items'.
  change (pb' = 0) in Hex. subst pb'. exists m'. split; [done|]. split; [lia|done].
Qed.

Lemma ps_remove_dropped id (p : PendingStreams net) m :
  dropped (ps_remove sizeof_request id p m).2 = dropped m.
Proof.
  unfold ps_remove. destruct (ps_map p !! id) as [r|]; [|done].
  pose proof (pb_sub_dropped (approx_bytes sizeof_request r) (ps_bytes p) m).
  by destruct (pb_sub _ _ _).
Qed.

Lemma ps_remove_all_dropped ids (p : PendingStreams net) m :
  dropped (ps_remove_all sizeof_request ids p m).2 = dropped m.
Proof.
  revert p m. induction ids as [|id ids IH]; intros p m; cbn [ps_remove_all]; [done|].
  pose proof (ps_remove_dropped id p m) as H1. destruct (ps_remove _ id p m) as [[o p1] m1].
  specialize (IH p1 m1). destruct (ps_remove_all _ ids p1 m1) as [[out p2] m2]. cbn in *. congruence.
Qed.

Lemma all_stale now (p : PendingStreams net) :
  stale_ids now 0 p = merge_sort Z.le (map_to_list (ps_map p)).*1.
Proof.
  unfold stale_ids. do 2 f_equal. induction (map_to_list (ps_map p)) as [|kr l IH]; [done|].
  by rewrite filter_cons, stale_always, decide_True, IH.
Qed.

Lemma omap_some {A B} (f : A → option B) (l : list A) (out : list B) : Some <$> out = f <$> l → out = omap f l.
Proof.
  revert out. induction l as [|a l IH]; intros [|b out] Hs; try done.
  rewrite !fmap_cons in Hs. injection Hs as Hb Hs. cbn. rewrite <- Hb. f_equal. by apply IH.
Qed.

Lemma ps_take_all_charged (p : PendingStreams net) m rest :
  charged rest p m →
  ∃ m', ps_take_all sizeof_request p m = (stream_requests p, ps_default, m') ∧
        total m' = rest ∧ dropped m' = dropped m.
Proof using Hsize.
  intros Hp. unfold ps_take_all, ps_expire_take. rewrite all_stale. unfold stream_requests.
  set (ids := merge_sort Z.le (map_to_list (ps_map p)).*1).
  assert (ids = stale_ids 0 0 p) as Hids by (by rewrite all_stale).
  pose proof (keeps_ps_remove_all sizeof_request Hsize 0 ids p m) as Hk.
  pose proof (remove_all_map sizeof_request ids p m) as Hr.
  pose proof (ps_remove_all_dropped ids p m) as Hd.
  destruct (ps_remove_all _ _ _ _) as [[out p'] m']. cbn [snd] in Hd.
  destruct (Hk rest Hp) as [(_ & Hm & Hex & _) _].
  destruct Hr as [Hout Hmap]; [rewrite Hids; apply stale_ids_NoDup| |].
  { intros id Hid. rewrite Hids in Hid. apply stale_ids_spec in Hid as (r & Hr & _). by exists r. }
  assert (ps_map p' = ∅) as Hnil.
  { apply map_empty. intros id. rewrite Hmap. case_decide as Hin; [done|].
    destruct (ps_map p !! id) as [r|] eqn:E; [|done]. destruct Hin. rewrite Hids.
    apply stale_ids_spec. exists r. split; [done|apply stale_always]. }
  rewrite (omap_some _ _ _ Hout). destruct p' as [mp pb']. cbn in *. subst mp.
  cbn in Hex. unfold ps_recount in Hex. cbn in Hex. rewrite map_sum_empty in Hex. subst pb'.
  exists m'. split; [done|]. split; [lia|done].
Qed.

Lemma drain_queues_charged h3 (l : list (ConnKey * PendingQueue net)) m rest :
  0 <= rest → total m = rest + zsum (fun kq => pq_bytes kq.2) l → Forall (fun kq => exact kq.2) l →
  ∃ m', drain_queues sizeof_request h3 l m =
          (mjoin (queue_requests h3 <$> l), replicate (length l) pq_default, m') ∧
        total m' = rest ∧ dropped m' = dropped m.
Proof using Hsize.
  intros Hrest. revert m. induction l as [|[k q] l IH]; intros m Hm Hl; cbn [drain_queues].
  - exists m. split; [done|]. change (zsum _ []) with 0 in Hm. split; [lia|done].
  - apply Forall_cons_1 in Hl as [Hq Hl]. rewrite zsum_cons in Hm. cbn [snd] in Hq, Hm.
    assert (0 <= zsum (fun kq => pq_bytes kq.2) l) as Hpos.
    { apply zsum_nonneg. eapply Forall_impl; [exact Hl|]. by intros ? (_ & ? & _). }
    destruct (pq_take_all_charged q m (rest + zsum (fun kq => pq_bytes kq.2) l))
      as (m1 & E1 & T1 & D1); [split; [lia|split; [cbn; lia|done]]|].
    destruct (IH m1 T1 Hl) as (m2 & E2 & T2 & D2).
    rewrite E1, E2. exists m2. split; [done|]. split; [done|congruence].
Qed.

(** An HTTP/2 connection whose requests have been taken. *)
Definition drained (c : Http2Conn) : Http2Conn :=
  {| hc_req := hc_req c; hc_resp := hc_resp c; hc_pending_requests := ps_default;
     hc_responses := hc_responses c; hc_last_event_ts := hc_last_event_ts c;
     hc_buffered := hc_buffered c |}.

Lemma drain_conns_charged (l : list (ConnKey * Http2Conn)) m rest :
  0 <= rest → total m = rest + zsum (fun kc => ps_bytes (hc_pending_requests kc.2)) l →
  Forall (fun kc => conn_ok sizeof_request kc.2) l →
  ∃ m', drain_conns sizeof_request l m =
          (mjoin ((fun kc => (fun r => (r, "HTTP/2"%string)) <$>
                     stream_requests (hc_pending_requests kc.2)) <$> l),
           (fun kc => drained kc.2) <$> l, m') ∧
        total m' = rest ∧ dropped m' = dropped m.
Proof using Hsize.
  intros Hrest. revert m. induction l as [|[k c] l IH]; intros m Hm Hl; cbn [drain_conns].
  - exists m. split; [done|]. change (zsum _ []) with 0 in Hm. split; [lia|done].
  - apply Forall_cons_1 in Hl as [[Hc _] Hl]. rewrite zsum_cons in Hm. cbn [snd] in Hc, Hm.
    set (tl := zsum (fun kc => ps_bytes (hc_pending_requests kc.2)) l) in *.
    assert (0 <= tl) as Hpos.
    { apply zsum_nonneg. eapply Forall_impl; [exact Hl|]. by intros ? [(_ & ? & _) _]. }
    destruct (ps_take_all_charged (hc_pending_requests c) m (rest + tl))
      as (m1 & E1 & T1 & D1); [split; [lia|split; [cbn; lia|done]]|].
    destruct (IH m1 T1 Hl) as (m2 & E2 & T2 & D2).
    rewrite E1, E2. exists m2. split; [done|]. split; [done|congruence].
Qed.

(** ** Giving the memory back *)

Lemma release_dropped n m : dropped (release_memory n m) = dropped m.
Proof. unfold release_memory. by destruct (n =? 0). Qed.

Lemma drop_defaults n m : fold_left drop_queue (replicate n (pq_default (net := net))) m = m.
Proof. induction n as [|n IH]; [done|exact IH]. Qed.

Definition rest_bytes (c : Http2Conn) : Z :=
  is_bytes (hc_responses c) + hc_buffered c.

Lemma drop_conns_total (l : list (ConnKey * Http2Conn)) m :
  Forall (fun kc => conn_ok sizeof_request kc.2) l →
  zsum (fun kc => rest_bytes kc.2) l <= total m →
  total (fold_left drop_conn ((fun kc => drained kc.2) <$> l) m) =
    total m - zsum (fun kc => rest_bytes kc.2) l ∧
  dropped (fold_left drop_conn ((fun kc => drained kc.2) <$> l) m) = dropped m.
Proof.
  revert m. induction l as [|[k c] l IH]; intros m Hl Hm; cbn [fmap list_fmap fold_left].
  - change (zsum _ []) with 0. split; [lia|done].
  - apply Forall_cons_1 in Hl as [(_ & (_ & Hr & _) & Hb) Hl]. rewrite zsum_cons in *.
    cbn [snd hd_bytes responses_holder] in *.
    assert (0 <= zsum (fun kc => rest_bytes kc.2) l) as Hpos.
    { apply zsum_nonneg. eapply Forall_impl; [exact Hl|].
      intros kc (_ & (_ & H1 & _) & H2). unfold rest_bytes. cbn in H1. lia. }
    assert (rest_bytes c = is_bytes (hc_responses c) + hc_buffered c) as Hrc by done.
    assert (total (drop_conn m (drained c)) =
            total m - is_bytes (hc_responses c) - hc_buffered c) as Hd.
    { unfold drop_conn. cbn [drained hc_buffered hc_responses hc_pending_requests].
      change (release_memory (ps_bytes ps_default) m) with m.
      rewrite release_memory_spec; rewrite release_memory_spec; lia. }
    destruct (IH (drop_conn m (drained c)) Hl) as [E1 E2]; [lia|].
    split; [rewrite E1; lia|]. rewrite E2. unfold drop_conn. by rewrite !release_dropped.
Qed.

Lemma drop_early_total (l : list (ConnKey * EarlyResp)) m :
  Forall (fun ke => 0 <= er_charge ke.2) l → zsum (fun ke => er_charge ke.2) l <= total m →
  total (fold_left drop_early (snd <$> l) m) = total m - zsum (fun ke => er_charge ke.2) l ∧
  dropped (fold_left drop_early (snd <$> l) m) = dropped m.
Proof.
  revert m. induction l as [|[k e] l IH]; intros m Hl Hm; cbn [fmap list_fmap fold_left].
  - change (zsum _ []) with 0. split; [lia|done].
  - apply Forall_cons_1 in Hl as [He Hl]. rewrite zsum_cons in *. cbn [snd] in *.
    pose proof (zsum_nonneg _ _ Hl). unfold drop_early at 2 4.
    destruct (IH (release_memory (er_charge e) m) Hl) as [E1 E2];
      [rewrite release_memory_spec by lia; lia|].
    split; [rewrite E1, release_memory_spec by lia; lia|]. by rewrite E2, release_dropped.
Qed.
End Drain.

(** * Closing a connection *)

Section Close.
Context {net dec h2dir : Type}.

Lemma retain_lookup {K V} `{Countable K} (h : K → bool) (M : gmap K V) k :
  retain h M !! k = if h k then None else M !! k.
Proof.
  unfold retain. destruct (h k) eqn:E.
  - apply map_lookup_filter_None. right. intros v _. cbn. congruence.
  - destruct (M !! k) as [v|] eqn:Ev.
    + by apply map_lookup_filter_Some.
    + apply map_lookup_filter_None. by left.
Qed.

Lemma retain_set_elem {K} `{Countable K} (h : K → bool) (X : gset K) k :
  k ∈ retain_set h X ↔ k ∈ X ∧ h k = false.
Proof. unfold retain_set. rewrite elem_of_filter. tauto. Qed.

(** What a table is charged for: the entries a loop visits, and those it leaves. *)
Lemma hits_sum {K V} `{Countable K} (h : K → bool) (f : V → Z) (M : gmap K V) :
  map_sum f M = zsum (fun kv => f kv.2) (hits h M) + map_sum f (retain h M).
Proof. unfold hits, retain. rewrite <- map_sum_list. exact (map_sum_filter f (fun kv => h kv.1) M). Qed.

Lemma hits_Forall {K V} `{Countable K} (h : K → bool) (P : V → Prop) (M : gmap K V) :
  map_Forall (fun _ => P) M → Forall (fun kv => P kv.2) (hits h M).
Proof.
  intros HM. apply Forall_forall. intros [k v] Hin. unfold hits in Hin.
  apply elem_of_map_to_list, map_lookup_filter_Some in Hin as [Hk _].
  exact (HM k v Hk).
Qed.

Lemma retain_sum_nonneg {K V} `{Countable K} (h : K → bool) (f : V → Z) (M : gmap K V) :
  map_Forall (fun _ v => 0 <= f v) M → 0 <= map_sum f (retain h M).
Proof.
  intros HM. apply map_sum_nonneg. intros k v Hk. rewrite retain_lookup in Hk.
  destruct (h k); [done|]. exact (HM k v Hk).
Qed.

Lemma zsum_conn_bytes (l : list (ConnKey * Http2Conn (net := net) (h2dir := h2dir))) :
  zsum (fun kc => conn_bytes kc.2) l =
  zsum (fun kc => ps_bytes (hc_pending_requests kc.2)) l + zsum (fun kc => rest_bytes kc.2) l.
Proof.
  induction l as [|kc l IH]; [done|]. rewrite !zsum_cons, IH. unfold conn_bytes, rest_bytes. lia.
Qed.

(** What the tables still hold when the entries hit are gone. *)
Definition kept_bytes (hc : ConnKey → bool) (hs : StreamKey → bool)
    (s : StreamState (net := net) (dec := dec) (h2dir := h2dir)) : Z :=
  map_sum (fun b => zlen b.1) (retain hs (buffers s)) + map_sum pq_bytes (retain hc (pending s)) +
  map_sum conn_bytes (retain hc (http2_state s)) + map_sum er_charge (retain hc (h2_early_resp s)).

Context (sizeof_request : Z).

Notation queue_exact := (exact (Holder0 := queue_holder sizeof_request)).

Lemma conn_bytes_nonneg c : conn_ok sizeof_request c → 0 <= conn_bytes (net := net) (h2dir := h2dir) c.
Proof.
  intros ((_ & H1 & _) & (_ & H2 & _) & H3). unfold conn_bytes. cbn in H1, H2. lia.
Qed.

Lemma kept_nonneg hc hs s :
  map_Forall (fun _ => queue_exact) (pending s) →
  map_Forall (fun _ => conn_ok sizeof_request) (http2_state s) →
  map_Forall (fun _ e => 0 <= er_charge e) (h2_early_resp s) → 0 <= kept_bytes hc hs s.
Proof.
  intros Hq Hc He. unfold kept_bytes.
  pose proof (retain_sum_nonneg hs (fun b => zlen b.1) (buffers s) (fun _ _ _ => zlen_nonneg _)).
  pose proof (retain_sum_nonneg hc pq_bytes (pending s) (fun k q Hk => proj1 (proj2 (Hq k q Hk)))).
  pose proof (retain_sum_nonneg hc conn_bytes (http2_state s)
    (fun k c Hk => conn_bytes_nonneg c (Hc k c Hk))).
  pose proof (retain_sum_nonneg hc er_charge (h2_early_resp s) He). lia.
Qed.

Lemma hit_sums_nonneg (lq : list (ConnKey * PendingQueue net))
    (lc : list (ConnKey * Http2Conn (net := net) (h2dir := h2dir))) (le : list (ConnKey * EarlyResp))
    (lb : list (StreamKey * (bytes * Z))) :
  Forall (fun kq => queue_exact kq.2) lq → Forall (fun kc => conn_ok sizeof_request kc.2) lc →
  Forall (fun ke => 0 <= er_charge ke.2) le →
  0 <= zsum (fun kq => pq_bytes kq.2) lq ∧
  0 <= zsum (fun kc => ps_bytes (hc_pending_requests kc.2)) lc ∧
  0 <= zsum (fun kc => rest_bytes kc.2) lc ∧ 0 <= zsum (fun ke => er_charge ke.2) le ∧
  0 <= zsum (fun kb => zlen kb.2.1) lb.
Proof.
  intros Hq Hc He. split_and!; apply zsum_nonneg.
  - eapply Forall_impl; [exact Hq|]. by intros ? (_ & ? & _).
  - eapply Forall_impl; [exact Hc|]. by intros ? ((_ & ? & _) & _).
  - eapply Forall_impl; [exact Hc|]. intros ? (_ & (_ & H1 & _) & H2). unfold rest_bytes. cbn in H1. lia.
  - exact He.
  - apply Forall_forall. intros. apply zlen_nonneg.
Qed.
(** The tables after a close. *)
Definition closed_tables (key : ConnKey) (s : StreamState (net := net) (dec := dec) (h2dir := h2dir))
    : StreamState (net := net) (dec := dec) (h2dir := h2dir) :=
  let hc := hit_conn key in
  let hs := hit_stream key in
  {| buffers := retain hs (buffers s);
     pending := retain hc (pending s);
     http2_state := retain hc (http2_state s);
     h2_early_resp := retain hc (h2_early_resp s);
     http3_connections := retain_set hc (http3_connections s);
     ws_connections := retain_set hc (ws_connections s);
     known_connections := retain_set hc (known_connections s);
     conn_born_ms := retain (fun '(p, ptr, st, g) => hit key p ptr st g) (conn_born_ms s);
     conn_roles := retain hc (conn_roles s);
     gapped_streams := retain_set hs (gapped_streams s);
     h1_decoders := retain hs (h1_decoders s);
     h2_prefix := retain hc (h2_prefix s);
     ws_remaining := retain hs (ws_remaining s) |}.

Lemma evict_settles (key : ConnKey) s m rest :
  0 <= sizeof_request → 0 <= rest → state_ok sizeof_request s → total m = rest + charged_bytes s →
  ∃ m', evict_connection_by_ptr sizeof_request key s m =
    (ztake MAX_INCOMPLETE_PER_SWEEP (unanswered_of key s), closed_tables key s, m') ∧
  EVENTS_DROPPED m' =
    (if MAX_INCOMPLETE_PER_SWEEP <? zlen (unanswered_of key s)
     then u64 (EVENTS_DROPPED m + (zlen (unanswered_of key s) - MAX_INCOMPLETE_PER_SWEEP))
     else EVENTS_DROPPED m) ∧
  total m' = rest + charged_bytes (closed_tables key s) ∧ total m' <= total m.
Proof.
  intros Hsize Hrest (Hq & Hc & He) Hm. unfold evict_connection_by_ptr, closed_tables.
  set (hc := hit_conn key). set (hs := hit_stream key).
  set (lq := hits hc (pending s)). set (lc := hits hc (http2_state s)).
  set (le := hits hc (h2_early_resp s)). set (lb := hits hs (buffers s)).
  pose proof (hits_Forall hc _ _ Hq : Forall (fun kq => exact kq.2) lq) as Fq.
  pose proof (hits_Forall hc _ _ Hc : Forall _ lc) as Fc.
  pose proof (hits_Forall hc _ _ He : Forall _ le) as Fe.
  pose proof (kept_nonneg hc hs s Hq Hc He) as Hkept.
  set (kept := kept_bytes hc hs s) in *.
  assert (total m = rest + kept + zsum (fun kq => pq_bytes kq.2) lq +
    zsum (fun kc => ps_bytes (hc_pending_requests kc.2)) lc + zsum (fun kc => rest_bytes kc.2) lc +
    zsum (fun ke => er_charge ke.2) le + zsum (fun kb => zlen kb.2.1) lb) as Htotal.
  { rewrite Hm. unfold charged_bytes, kept, kept_bytes.
    rewrite (hits_sum hs (fun b => zlen b.1) (buffers s)), (hits_sum hc pq_bytes (pending s)),
      (hits_sum hc conn_bytes (http2_state s)), (hits_sum hc er_charge (h2_early_resp s)).
    rewrite zsum_conn_bytes. fold lq lc le lb. lia. }
  destruct (hit_sums_nonneg lq lc le lb Fq Fc Fe) as (N1 & N2 & N3 & N4 & N5).
  destruct (drain_queues_charged sizeof_request Hsize (http3_connections s) lq m
    (total m - zsum (fun kq => pq_bytes kq.2) lq)) as (m1 & -> & T1 & D1); [lia|lia|done|].
  destruct (drain_conns_charged sizeof_request Hsize lc m1
    (total m1 - zsum (fun kc => ps_bytes (hc_pending_requests kc.2)) lc))
    as (m2 & -> & T2 & D2); [lia|lia|done|].
  set (reqs := _ ++ _). assert (reqs = unanswered_of key s) as <- by done.
  unfold incomplete_events. cbv zeta. set (m3 := if 0 <? zlen reqs - _ then _ else m2).
  assert (total m3 = total m2) as T3 by (unfold m3; by case_match).
  rewrite drop_defaults.
  destruct (drop_conns_total sizeof_request lc m3 Fc) as [T4 D4]; [lia|].
  set (m4 := fold_left drop_conn _ m3) in *.
  destruct (drop_early_total le m4 Fe) as [T5 D5]; [lia|].
  set (m5 := fold_left drop_early _ m4) in *. eexists. split; [reflexivity|]. split.
  - transitivity (EVENTS_DROPPED m3); [case_match; rewrite ?release_dropped; congruence|].
    unfold m3. rewrite length_ztake by (unfold MAX_INCOMPLETE_PER_SWEEP; lia).
    unfold MAX_INCOMPLETE_PER_SWEEP. destruct (1024 <? zlen reqs) eqn:E; zbool.
    + rewrite Z.min_l by lia. replace (0 <? zlen reqs - 1024) with true by lia. cbn. congruence.
    + rewrite Z.min_r by lia. replace (0 <? zlen reqs - zlen reqs) with false by lia. congruence.
  - change (charged_bytes _) with kept.
    destruct (0 <? zsum (fun kb => zlen kb.2.1) lb) eqn:E; zbool;
      [rewrite release_memory_spec by lia|]; lia.
Qed.
End Close.

(** A close gives back what its connection held, and reports what it left unanswered. In a
    shard whose queues are charged exactly, under a counter that is [rest] and what the shard
    holds: the requests still waiting on the connections the key names come back in order with
    their protocol, the first 1024 of them as events and the others counted as drops; the counter
    ends as [rest] and what the shard still holds; and exactly the entries of those connections
    are gone. *)
Theorem close_settles_connection {net dec h2dir : Type} (sizeof_request : Z) (key : ConnKey)
    (s : StreamState (net := net) (dec := dec) (h2dir := h2dir)) (m : memory) (rest : Z)
    (Hsize : 0 <= sizeof_request) (Hrest : 0 <= rest)
    (Hok : state_ok sizeof_request s) (Hm : total m = rest + charged_bytes s) :
  let '(reported, s', m') := evict_connection_by_ptr sizeof_request key s m in
  let reqs := unanswered_of key s in
  reported = ztake MAX_INCOMPLETE_PER_SWEEP reqs ∧
  EVENTS_DROPPED m' =
    (if MAX_INCOMPLETE_PER_SWEEP <? zlen reqs
     then u64 (EVENTS_DROPPED m + (zlen reqs - MAX_INCOMPLETE_PER_SWEEP)) else EVENTS_DROPPED m) ∧
  total m' = rest + charged_bytes s' ∧
  (∀ k, buffers s' !! k = if hit_stream key k then None else buffers s !! k) ∧
  (∀ k, pending s' !! k = if hit_conn key k then None else pending s !! k) ∧
  (∀ k, http2_state s' !! k = if hit_conn key k then None else http2_state s !! k) ∧
  (∀ k, k ∈ known_connections s' ↔ k ∈ known_connections s ∧ hit_conn key k = false).
Proof.
  destruct (evict_settles sizeof_request key s m rest) as (m' & -> & Hd & Ht & _); [done..|].
  split_and!; [done..| | | |]; intros; apply retain_lookup || apply retain_set_elem.
Qed.

(** A queue with one request, under a counter of which ten bytes are somebody else's. *)
Definition demo_conn_key : ConnKey := {|
  ck_pid := 1000; ck_ssl_ptr := 7; ck_born_ms := 12; ck_proc_start_ns := 3; ck_generation := 1 |}.

Definition demo_shard : StreamState (net := unit) (dec := unit) (h2dir := unit) := {|
  buffers := ∅; pending := {[ demo_conn_key := {| pq_items := [demo_parsed]; pq_bytes := 594 |} ]};
  http2_state := ∅; h2_early_resp := ∅; http3_connections := ∅; ws_connections := ∅;
  known_connections := {[ demo_conn_key ]}; conn_born_ms := ∅; conn_roles := ∅;
  gapped_streams := ∅; h1_decoders := ∅; h2_prefix := ∅; ws_remaining := ∅ |}.

Definition demo_close_key : ConnKey := {|
  ck_pid := 1000; ck_ssl_ptr := 7; ck_born_ms := 0; ck_proc_start_ns := 3; ck_generation := 1 |}.

Lemma close_settles_connection_witness :
  state_ok 200 demo_shard ∧
  let '(reported, s', m') := evict_connection_by_ptr 200 demo_close_key demo_shard
    {| TOTAL_BUFFER_BYTES := 604; EVENTS_DROPPED := 0 |} in
  reported = [(demo_parsed, "HTTP/1.1"%string)] ∧ total m' = 10 + charged_bytes s'.
Proof.
  assert (state_ok 200 demo_shard) as Hok.
  { split; [|split; apply map_Forall_empty]. apply map_Forall_singleton.
    split; [reflexivity|]. split; [discriminate|]. split; [discriminate|].
    apply Forall_singleton. discriminate. }
  split; [exact Hok|].
  pose proof (close_settles_connection 200 demo_close_key demo_shard
    {| TOTAL_BUFFER_BYTES := 604; EVENTS_DROPPED := 0 |} 10 ltac:(lia) ltac:(lia) Hok eq_refl) as Hc.
  destruct (evict_connection_by_ptr _ _ _ _) as [[reported s'] m'].
  destruct Hc as (-> & _ & Hm & _). split; [reflexivity|exact Hm].
Defined.

(** * From the kernel's close to the reader's tables *)

Lemma close_record_fits e ptr t g :
  env_wf e → 0 <= ptr < 2 ^ 64 → 0 <= g < 2 ^ 32 → fits (close_record e ptr t g).
Proof.
  intros (Hts & _) Hptr Hg.
  repeat apply Forall2_cons_2; try apply Forall2_nil_2; cbn [val_ok close_record ce_ts_ns ce_pid
    ce_tid ce_ssl_ptr ce_proc_start_ns ce_generation ce__pad]; try done;
    first [by apply (wrap_range 32) | apply proc_start_range].
Qed.

Lemma hit_eq key pid ptr start g :
  close_exact key = true →
  hit key pid ptr start g = true ↔
  pid = ck_pid key ∧ ptr = ck_ssl_ptr key ∧ start = ck_proc_start_ns key ∧ g = ck_generation key.
Proof. intros He. unfold hit. rewrite He. cbn. rewrite !andb_true_iff, !Z.eqb_eq. tauto. Qed.

(** The close of a TLS object names the records of its generation and no others. When
    [SSL_free] of a tracked object finds room, the close record it sends reaches the reader member
    for member; the key the reader builds from it hits the stream and the connection of every
    record published for the object in that generation, misses those of every record published
    for the same address afterwards, and misses every record of another process or another
    object. (The process start time or the generation must not be zero: the reader takes a close
    without either for one of an older kernel program, and matches the address alone.) *)
Theorem close_names_its_records (b : bool) (e0 e1 e2 : env) (ctx : pt_regs) (pad : nat → byte)
    (buf0 len0 dir0 prov0 buf2 len2 dir2 prov2 : Z) (s0 s : kstate) (st0 st : ssl_state)
    (x0 x2 : tls_event)
    (Hwf : sound s ∧ env_wf e1 ∧ 0 <= PT_REGS_PARM1 ctx < 2 ^ 64)
    (Hroom : e_reserve e1 close_events 40 = true)
    (Hst : lookup_map s ssl_state_map (key_of e1 (PT_REGS_PARM1 ctx)) = Some st)
    (Hexact : proc_start_ns e1 ≠ 0 ∨ ss_generation st ≠ 0)
    (Hproc : Forall (fun e => tgid_of (e_pid_tgid e) = tgid_of (e_pid_tgid e1) ∧
                              proc_start_ns e = proc_start_ns e1) [e0; e2])
    (Hgen : tracked e0 (PT_REGS_PARM1 ctx) st0 s0 ∧ ss_generation st0 = ss_generation st)
    (Hlen : 0 <= len0 ∧ 0 <= len2)
    (Hbefore : x0 ∈ new_events s0
       (run e0 (emit_event b buf0 len0 dir0 (PT_REGS_PARM1 ctx) prov0) s0).2) :
  let s1 := (run e1 (ssl_free_entry ctx) s).2 in
  ∀ (Hafter : x2 ∈ new_events s1
       (run e2 (emit_event b buf2 len2 dir2 (PT_REGS_PARM1 ctx) prov2) s1).2),
  ∃ c, k_rings s1 close_events = k_rings s close_events ++ [c] ∧
    read_unaligned (bytes_of pad c) = Some c ∧
    let key := ConnKey_from_close c in
    hit_stream key (StreamKey_from_event (ev_hdr x0)) = true ∧
    (∀ born, hit_conn key (ConnKey_from_event (ev_hdr x0) born) = true) ∧
    hit_stream key (StreamKey_from_event (ev_hdr x2)) = false ∧
    (∀ born, hit_conn key (ConnKey_from_event (ev_hdr x2) born) = false) ∧
    (∀ h, h_pid h ≠ tgid_of (e_pid_tgid e1) ∨ h_ssl_ptr h ≠ PT_REGS_PARM1 ctx →
       hit_stream key (StreamKey_from_event h) = false).
Proof.
  destruct Hwf as ((Hvals & _) & Henv & Hptr). destruct Hlen as [Hlen0 Hlen2].
  destruct Hgen as [Htr Hg]. apply Forall_cons_1 in Hproc as [[Hp0 Ht0] Hproc].
  apply Forall_cons_1 in Hproc as [[Hp2 Ht2] _].
  pose proof (Hvals ssl_state_map _ _ Hst) as Hss. destruct Hss as (Hgr & _).
  cbv zeta. intros Hafter.
  pose proof (tracked_after_free e1 e2 ctx s st Hst Hp2) as Htr2.
  destruct (published_tracked _ _ _ _ _ _ _ _ _ _ Hlen0 Htr Hbefore) as (B1 & B2 & B3 & B4 & _).
  destruct (published_tracked _ _ _ _ _ _ _ _ _ _ Hlen2 Htr2 Hafter) as (A1 & A2 & A3 & A4 & _).
  clear Hbefore Hafter. rewrite run_ssl_free. cbn [snd].
  set (owner := owner_or_current e1 (lookup_map s ssl_ptr_to_pid (key_of e1 (PT_REGS_PARM1 ctx)))).
  pose proof (ssl_free_rings e1 (PT_REGS_PARM1 ctx) s) as Hr. cbv zeta in Hr.
  rewrite Hst, Hroom in Hr. cbn [fmap option_fmap option_map default from_option id] in Hr.
  assert (tgid_of owner = tgid_of (e_pid_tgid e1)) as Howner.
  { unfold owner, owner_or_current. destruct (lookup_map s ssl_ptr_to_pid _) as [t|] eqn:E; [|done].
    exact (Hvals ssl_ptr_to_pid _ t E). }
  exists (close_record e1 (PT_REGS_PARM1 ctx) owner (ss_generation st)). split; [exact Hr|].
  split; [by apply read_stored, close_record_fits|]. cbv zeta.
  set (key := ConnKey_from_close _).
  assert (close_exact key = true) as Hex.
  { unfold close_exact. cbn. destruct Hexact as [H|H]; apply Z.eqb_neq in H; rewrite H;
      [done|apply orb_true_r]. }
  assert (ck_pid key = tgid_of (e_pid_tgid e1)) as Hpid by exact Howner.
  pose proof (next_generation_ne _ Hgr) as Hne.
  assert (∀ pid ptr start g, hit key pid ptr start g = false ↔
    ¬ (pid = tgid_of (e_pid_tgid e1) ∧ ptr = PT_REGS_PARM1 ctx ∧ start = proc_start_ns e1 ∧
       g = ss_generation st)) as Hmiss.
  { intros. rewrite <- not_true_iff_false, hit_eq, Hpid by done. done. }
  unfold hit_stream, hit_conn. cbn [StreamKey_from_event ConnKey_from_event sk_pid sk_ssl_ptr
    sk_proc_start_ns sk_generation ck_pid ck_ssl_ptr ck_proc_start_ns ck_generation].
  split_and!; intros; try (apply hit_eq; [done|]); try (apply Hmiss);
    rewrite ?B1, ?B2, ?B3, ?B4, ?A1, ?A2, ?A3, ?A4; cbn [end_generation_state ss_generation];
    intuition congruence.
Qed.

(** The object at 7 has been written through and freed once: its second generation. *)
Definition demo_reuse : list (env * invocation) :=
  demo_write ++ [(demo_env, SslFree free_ctx)].

Definition reused_state : kstate := run_all false arch_x86 demo_reuse demo_state.

Definition reused_ssl_state : ssl_state :=
  {| ss_generation := 1; ss_seq0 := 0; ss_seq1 := 0; ss__pad := 0 |}.

Lemma reused_state_sound : sound reused_state.
Proof.
  destruct (run_all_reaches false arch_x86 inv_wf env_wf demo_reuse demo_state) as (ths & Hr).
  - unfold demo_reuse. apply Forall_app. split; [exact demo_write_wf|]. apply Forall_singleton.
    split; [exact demo_env_wf|]. cbn. unfold u64_ok. lia.
  - exact (sound_reachable _ _ _ _ demo_state_sound Hr).
Qed.

Lemma close_names_its_records_witness :
  sound reused_state ∧
  ∃ x0 x2 c,
    new_events reused_state (run demo_env (emit_event false demo_buf 20 1 7 1) reused_state).2 = [x0] ∧
    new_events (run demo_env (ssl_free_entry free_ctx) reused_state).2
      (run demo_env (emit_event false demo_buf 20 1 7 1)
         (run demo_env (ssl_free_entry free_ctx) reused_state).2).2 = [x2] ∧
    hit_stream (ConnKey_from_close c) (StreamKey_from_event (ev_hdr x0)) = true ∧
    hit_stream (ConnKey_from_close c) (StreamKey_from_event (ev_hdr x2)) = false.
Proof.
  split; [exact reused_state_sound|].
  assert (∃ x0, new_events reused_state
    (run demo_env (emit_event false demo_buf 20 1 (PT_REGS_PARM1 free_ctx) 1) reused_state).2 = [x0])
    as (x0 & H0) by (eexists; vm_compute; reflexivity).
  assert (∃ x2, new_events (run demo_env (ssl_free_entry free_ctx) reused_state).2
    (run demo_env (emit_event false demo_buf 20 1 (PT_REGS_PARM1 free_ctx) 1)
       (run demo_env (ssl_free_entry free_ctx) reused_state).2).2 = [x2])
    as (x2 & H2) by (eexists; vm_compute; reflexivity).
  assert (lookup_map reused_state ssl_state_map (key_of demo_env (PT_REGS_PARM1 free_ctx)) =
    Some reused_ssl_state) as Hst by (vm_compute; reflexivity).
  assert (0 <= PT_REGS_PARM1 free_ctx < 2 ^ 64) as Hptr by (split; [discriminate|reflexivity]).
  assert (proc_start_ns demo_env ≠ 0 ∨ ss_generation reused_ssl_state ≠ 0) as Hexact
    by (right; discriminate).
  assert (Forall (fun e => tgid_of (e_pid_tgid e) = tgid_of (e_pid_tgid demo_env) ∧
    proc_start_ns e = proc_start_ns demo_env) [demo_env; demo_env]) as Hproc
    by (repeat apply Forall_cons_2; [split; reflexivity..|apply Forall_nil_2]).
  assert (x0 ∈ [x0] ∧ x2 ∈ [x2]) as [I0 I2] by (split; by apply list_elem_of_singleton).
  rewrite <- H0 in I0. rewrite <- H2 in I2.
  assert (0 <= 20 ∧ 0 <= 20) as Hlen by (split; discriminate).
  destruct (close_names_its_records false demo_env demo_env demo_env free_ctx (fun _ => x00)
    demo_buf 20 1 1 demo_buf 20 1 1 reused_state reused_state reused_ssl_state reused_ssl_state x0 x2
    (conj reused_state_sound (conj demo_env_wf Hptr)) eq_refl Hst Hexact Hproc
    (conj (or_introl Hst) eq_refl) Hlen I0 I2) as (c & _ & _ & Hhit & _ & Hmiss & _).
  exists x0, x2, c. split; [exact H0|]. split; [exact H2|]. split; [exact Hhit|exact Hmiss].
Defined.
