(* ===== verification/H2Conn.v ===== *)
(** One HTTP/2 connection of the reader: [process_http2_event] and [finish_h2_response] of
    [userspace/src/stream.rs], with the parsers of both directions ([Http2]), the requests and
    responses they complete ([Pending]) and the memory all of them are charged for.

    An event of the connection is the arguments of [build_event]; what that function makes of them
    is [Builder]. The count of parse errors is left out here. A loop over the ids of a [HashMap] goes
    in the order of [map_to_list]. *)

From S2P Require Import Prelude Pending Memory Text Http1 Http1Props Http2 Http2Props Codecs Reader.
From Stdlib Require Import Strings.String.

#[local] Notation length := List.length.
#[local] Open Scope list_scope.
#[local] Open Scope Z_scope.

Definition MAX_H2_PENDING_STREAMS : Z := 200.

Section H2Conn.
Context {net table : Type} (sizeof_request : Z).
Context (hpack_new : table) (hpack_decode : table → bytes → hpack_result * table).
Context (max_total : Z).

Notation direction := (Http2Direction (table := table)).
Notation conn := (Http2Conn (net := net) (h2dir := direction)).

#[local] Instance Http2Conn_fields : Fields conn := fun c =>
  Build_Http2Conn (hc_req c) (hc_resp c) (hc_pending_requests c) (hc_responses c)
    (hc_last_event_ts c) (hc_buffered c).

Definition Http2Conn_default : conn := {|
  hc_req := Http2Direction_new hpack_new true;
  hc_resp := Http2Direction_new hpack_new false;
  hc_pending_requests := ps_default;
  hc_responses := is_default;
  hc_last_event_ts := 0;
  hc_buffered := 0 |}.

(** What [build_event] is called with, and the fields that replace the body of a gRPC response. *)
Record transaction := {
  tx_request : ParsedRequest net;
  tx_response : HttpResponseParsed;
  tx_latency_ms : Z;
  tx_protocol : string;
  tx_grpc : option (list ProtoField)
}.

(** What is pushed to the output, and the calls of [skip_unpaired_response]. *)
Inductive h2_output := Emit (t : transaction) | SkipUnpaired.

Definition starts_with_text (p : string) (v : bytes) : bool := starts_with (list_byte_of_string p) v.

Definition transaction_of (request : ParsedRequest net) (hs : headers) (data : bytes) (ts_ms : Z)
    : transaction :=
  let status := default 0 (header_get (lit ":status") hs ≫= fun s => parse_i32 (chars s)) in
  let is_grpc := match header_get (lit "content-type") hs with
                 | Some v => starts_with_text "application/grpc" v
                 | None => false
                 end in
  let fields := decode_grpc_fields data in
  {| tx_request := request;
     tx_response := {| rs_status_code := status; rs_headers := hs;
                       rs_body := if is_grpc then [] else data |};
     tx_latency_ms := saturating_sub ts_ms (pr_ts_ms request);
     tx_protocol := if is_grpc then "gRPC" else "HTTP/2";
     tx_grpc := if is_grpc && negb (zlen fields =? 0) then Some fields else None |}.

Definition finish_h2_response (c : conn) (stream_id ts_ms : Z) (m : memory)
    : list h2_output * conn * memory :=
  match is_take stream_id (hc_responses c) m with
  | (None, rs, m) => ([], c <| hc_responses := rs |>, m)
  | (Some (hs, data), rs, m) =>
      let '(request, ps, m) := ps_remove sizeof_request stream_id (hc_pending_requests c) m in
      let c := c <| hc_responses := rs |> <| hc_pending_requests := ps |> in
      match request with
      | Some r =>
          if is_usable_http_request (pr_method r) (pr_path r)
          then ([Emit (transaction_of r hs data ts_ms)], c, m)
          else ([SkipUnpaired], c, m)
      | None => ([SkipUnpaired], c, m)
      end
  end.

(** The request of a HEADERS item of the client. *)
Definition request_of (hs : headers) (ts_ms : Z) (net_ctx : net) : option (ParsedRequest net) :=
  method ← header_get (lit ":method") hs;
  let path := default (lit "/") (header_get (lit ":path") hs) in
  if is_usable_http_request method path
  then Some {| pr_method := method; pr_path := path; pr_host := header_get (lit ":authority") hs;
               pr_headers := hs; pr_ts_ms := ts_ms; pr_net_ctx := net_ctx; pr_body := [] |}
  else None.

(** An item of the client's direction. *)
Definition on_request_item (item : H2Item) (ts_ms : Z) (net_ctx : net) (c : conn) (m : memory)
    : conn * memory :=
  match item with
  | Headers stream_id hs _ =>
      match request_of hs ts_ms net_ctx with
      | Some r =>
          let '(_, ps, m) := ps_insert sizeof_request stream_id r max_total MAX_H2_PENDING_STREAMS
                               (hc_pending_requests c) m in
          (c <| hc_pending_requests := ps |>, m)
      | None => (c, m)
      end
  | Data stream_id data _ =>
      let '(_, ps, m) := ps_append_body stream_id data max_total (hc_pending_requests c) m in
      (c <| hc_pending_requests := ps |>, m)
  | _ => (c, m)
  end.

(** HEADERS of the server: they open a response, or are the trailers of one. *)
Definition on_response_headers (stream_id : Z) (hs : headers) (end_stream : bool) (ts_ms : Z)
    (c : conn) (m : memory) : list h2_output * conn * memory :=
  match header_get (lit ":status") hs with
  | Some status =>
      if starts_with_text "1" status then ([], c, m)
      else if negb (ps_contains stream_id (hc_pending_requests c)) then ([SkipUnpaired], c, m)
      else
        let '(_, rs, m) := is_start stream_id hs max_total MAX_H2_PENDING_STREAMS (hc_responses c) m in
        let c := c <| hc_responses := rs |> in
        if end_stream then finish_h2_response c stream_id ts_ms m else ([], c, m)
  | None =>
      let '(merged, rs, m) := is_merge_trailers stream_id hs max_total (hc_responses c) m in
      let c := c <| hc_responses := rs |> in
      if merged && end_stream then finish_h2_response c stream_id ts_ms m else ([], c, m)
  end.

Definition forget_stream (stream_id : Z) (c : conn) (m : memory) : conn * memory :=
  let '(_, rs, m) := is_take stream_id (hc_responses c) m in
  let '(_, ps, m) := ps_remove sizeof_request stream_id (hc_pending_requests c) m in
  (c <| hc_responses := rs |> <| hc_pending_requests := ps |>, m).

Fixpoint forget_streams (ids : list Z) (c : conn) (m : memory) : conn * memory :=
  match ids with
  | [] => (c, m)
  | id :: ids' => let '(c, m) := forget_stream id c m in forget_streams ids' c m
  end.

Definition on_item (is_request_dir : bool) (ts_ms : Z) (net_ctx : net) (item : H2Item)
    (c : conn) (m : memory) : list h2_output * conn * memory :=
  match item with
  | Headers stream_id hs end_stream =>
      if is_request_dir then let '(c, m) := on_request_item item ts_ms net_ctx c m in ([], c, m)
      else on_response_headers stream_id hs end_stream ts_ms c m
  | Data stream_id data end_stream =>
      if is_request_dir then let '(c, m) := on_request_item item ts_ms net_ctx c m in ([], c, m)
      else
        let '(appended, rs, m) := is_append stream_id data max_total (hc_responses c) m in
        let c := c <| hc_responses := rs |> in
        if appended && end_stream then finish_h2_response c stream_id ts_ms m else ([], c, m)
  | Reset stream_id => let '(c, m) := forget_stream stream_id c m in ([], c, m)
  | GoAway last_stream_id =>
      let dropped := filter (fun id => last_stream_id < id)
                       (map_to_list (ps_map (hc_pending_requests c))).*1 in
      let '(c, m) := forget_streams dropped c m in ([], c, m)
  end.

Fixpoint on_items (is_request_dir : bool) (ts_ms : Z) (net_ctx : net) (items : list H2Item)
    (c : conn) (m : memory) : list h2_output * conn * memory :=
  match items with
  | [] => ([], c, m)
  | item :: items' =>
      let '(out, c, m) := on_item is_request_dir ts_ms net_ctx item c m in
      let '(outs, c, m) := on_items is_request_dir ts_ms net_ctx items' c m in
      (out ++ outs, c, m)
  end.

(** The bytes of a read go through the parser of their direction; the charge follows what the parser
    holds; what one side announces bounds the frames of the other. *)
Definition feed_direction (is_request_dir : bool) (payload : bytes) (c : conn) (m : memory)
    : list H2Item * conn * memory :=
  let dir := if is_request_dir then hc_req c else hc_resp c in
  let before := buffered dir in
  let '(dir, items, _) := feed hpack_new hpack_decode payload dir in
  let after := buffered dir in
  let '(pb, m) := pb_sub (saturating_sub (zlen payload + before) after) (hc_buffered c) m in
  let c := c <| hc_buffered := pb |> in
  let c := if is_request_dir then c <| hc_req := dir |> else c <| hc_resp := dir |> in
  (items,
   match d_announced_max_frame dir with
   | Some size => if is_request_dir then c <| hc_resp := set_max_frame size (hc_resp c) |>
                  else c <| hc_req := set_max_frame size (hc_req c) |>
   | None => c
   end, m).

Definition process_http2_event (payload : bytes) (ts_ms : Z) (is_request_dir : bool) (net_ctx : net)
    (c : conn) (m : memory) : list h2_output * conn * memory :=
  let c := c <| hc_last_event_ts := ts_ms |> in
  if zlen payload =? 0 then ([], c, m) else
  let '(ok, pb, m) := pb_add max_total (zlen payload) (hc_buffered c) m in
  if negb ok then ([], c, count_drop m) else
  let '(items, c, m) := feed_direction is_request_dir payload (c <| hc_buffered := pb |>) m in
  on_items is_request_dir ts_ms net_ctx items c m.
End H2Conn.

(** * The memory of a connection

    A connection is charged for exactly what it holds, and pairs a response with the request of its own
    stream. *)

#[local] Existing Instance responses_holder.

Section H2ConnProps.
Context {net table : Type} (sizeof_request : Z) (Hsize : 0 <= sizeof_request).
Context (hpack_new : table) (hpack_decode : table → bytes → hpack_result * table).
Context (max_total : Z).

Notation direction := (Http2Direction (table := table)).
Notation conn := (Http2Conn (net := net) (h2dir := direction)).
Notation feed_direction := (feed_direction hpack_new hpack_decode).
Notation finish_h2_response := (finish_h2_response sizeof_request).
Notation on_item := (on_item sizeof_request max_total).
Notation on_items := (on_items sizeof_request max_total).
Notation process := (process_http2_event sizeof_request hpack_new hpack_decode max_total).

#[local] Existing Instance Http2Conn_fields.
#[local] Instance streams : Holder (PendingStreams net) := streams_holder sizeof_request.

Implicit Types c : conn.

(** Bytes of incomplete frames and open header blocks. *)
Definition frames_held c : Z := buffered (hc_req c) + buffered (hc_resp c).

(** The connection as a holder of memory: its three charges, and what they stand for. *)
#[local] Instance conn_holder : Holder conn := {
  hd_bytes := conn_bytes;
  hd_recount c := ps_recount sizeof_request (hc_pending_requests c) + is_recount (hc_responses c) +
                  frames_held c;
  hd_limits c := exact (hc_pending_requests c) ∧ exact (hc_responses c) ∧
                 hc_buffered c = frames_held c ∧ dir_ok (hc_req c) ∧ dir_ok (hc_resp c)
}.

Lemma buffered_nonneg (d : direction) : 0 <= buffered d.
Proof.
  unfold buffered. pose proof (zlen_nonneg (d_buf d)).
  pose proof (open_bytes_nonneg (d_continuation d)). unfold open_bytes in *. lia.
Qed.

Lemma charged_conn rest c m :
  0 <= rest → total m = rest + conn_bytes c →
  exact (hc_pending_requests c) → exact (hc_responses c) → hc_buffered c = frames_held c →
  dir_ok (hc_req c) → dir_ok (hc_resp c) → charged rest c m.
Proof.
  intros Hrest Hm Hps Hrs Hbuf Hd1 Hd2. pose proof Hps as (Hps1 & Hps2 & _).
  pose proof Hrs as (Hrs1 & Hrs2 & _). cbn in Hps1, Hps2, Hrs1, Hrs2.
  pose proof (buffered_nonneg (hc_req c)). pose proof (buffered_nonneg (hc_resp c)).
  unfold frames_held in *. split; [done|]. split; [done|].
  split; [cbn; unfold conn_bytes, frames_held; lia|].
  split; [cbn; unfold conn_bytes; lia|]. by split_and!.
Qed.

(** The connection keeps its charge when one of its queues does. *)
Lemma keeps_streams c m ps m' : keeps max_total (hc_pending_requests c) m ps m' →
  keeps max_total c m (c <| hc_pending_requests := ps |>) m'.
Proof.
  intros Hk rest (Hrest & Hm & He & Hpb & Hps & Hrs & Hbuf & Hd1 & Hd2).
  pose proof Hrs as (Hrs1 & Hrs2 & _). pose proof (buffered_nonneg (hc_req c)).
  pose proof (buffered_nonneg (hc_resp c)). unfold frames_held in *. cbn in Hm, Hrs1, Hrs2.
  unfold conn_bytes in *.
  destruct (Hk (rest + is_bytes (hc_responses c) + hc_buffered c)) as [(Hr' & Hm' & Hps') Hw].
  { split_and!; [lia|cbn; lia|done]. }
  split; [|done]. cbn in Hm'. apply charged_conn; try done. unfold conn_bytes. cbn. lia.
Qed.

Lemma keeps_responses c m rs m' : keeps max_total (hc_responses c) m rs m' →
  keeps max_total c m (c <| hc_responses := rs |>) m'.
Proof.
  intros Hk rest (Hrest & Hm & He & Hpb & Hps & Hrs & Hbuf & Hd1 & Hd2).
  pose proof Hps as (Hps1 & Hps2 & _). pose proof (buffered_nonneg (hc_req c)).
  pose proof (buffered_nonneg (hc_resp c)). unfold frames_held in *. cbn in Hm, Hps1, Hps2.
  unfold conn_bytes in *.
  destruct (Hk (rest + ps_bytes (hc_pending_requests c) + hc_buffered c)) as [(Hr' & Hm' & Hrs') Hw].
  { split_and!; [lia|cbn; lia|done]. }
  split; [|done]. cbn in Hm'. apply charged_conn; try done. unfold conn_bytes. cbn. lia.
Qed.

(** [(a, p, m)] results of the queues. *)
Tactic Notation "queue_step" constr(lem) "as" simple_intropattern(p) :=
  let Hk := fresh "Hk" in
  pose proof lem as Hk;
  lazymatch type of Hk with match ?e with _ => _ end => destruct e as p end.

Lemma keeps_take c id m :
  let '(_, rs, m') := is_take id (hc_responses c) m in
  keeps max_total c m (c <| hc_responses := rs |>) m'.
Proof.
  queue_step (keeps_is_take max_total id (hc_responses c) m) as [[o rs] m']. by apply keeps_responses.
Qed.

Lemma keeps_remove c id m :
  let '(_, ps, m') := ps_remove sizeof_request id (hc_pending_requests c) m in
  keeps max_total c m (c <| hc_pending_requests := ps |>) m'.
Proof using Hsize.
  queue_step (keeps_ps_remove sizeof_request Hsize max_total id (hc_pending_requests c) m) as [[o ps] m'].
  by apply keeps_streams.
Qed.

Lemma keeps_finish c id ts m :
  let '(_, c', m') := finish_h2_response c id ts m in keeps max_total c m c' m'.
Proof using Hsize.
  unfold finish_h2_response. queue_step (keeps_take c id m) as [[o rs] m1].
  destruct o as [[hs data]|]; [|done].
  pose proof (keeps_remove (c <| hc_responses := rs |>) id m1) as Hr.
  change (hc_pending_requests (c <| hc_responses := rs |>)) with (hc_pending_requests c) in Hr.
  destruct (ps_remove _ _ _ _) as [[r ps] m2].
  destruct r as [r|]; [destruct (is_usable_http_request _ _)|]; by eapply keeps_trans.
Qed.

Lemma keeps_forget c id m :
  let '(c', m') := forget_stream sizeof_request id c m in keeps max_total c m c' m'.
Proof using Hsize.
  unfold forget_stream. queue_step (keeps_take c id m) as [[o rs] m1].
  pose proof (keeps_remove (c <| hc_responses := rs |>) id m1) as Hr.
  change (hc_pending_requests (c <| hc_responses := rs |>)) with (hc_pending_requests c) in Hr.
  destruct (ps_remove _ _ _ _) as [[r ps] m2]. by eapply keeps_trans.
Qed.

Lemma keeps_forget_all ids c m :
  let '(c', m') := forget_streams sizeof_request ids c m in keeps max_total c m c' m'.
Proof using Hsize.
  revert c m. induction ids as [|id ids IH]; intros c m; cbn [forget_streams]; [apply keeps_refl|].
  queue_step (keeps_forget c id m) as [c1 m1]. specialize (IH c1 m1).
  destruct (forget_streams _ ids c1 m1) as [c2 m2]. by eapply keeps_trans.
Qed.

Lemma keeps_request_item item ts ctx c m :
  let '(c', m') := on_request_item sizeof_request max_total item ts ctx c m in keeps max_total c m c' m'.
Proof using Hsize.
  unfold on_request_item. destruct item as [id hs e|id data e|id|id]; try apply keeps_refl.
  - destruct (request_of hs ts ctx) as [r|]; [|apply keeps_refl].
    queue_step (keeps_ps_insert sizeof_request Hsize max_total id r MAX_H2_PENDING_STREAMS
                  (hc_pending_requests c) m) as [[b ps] m1]. by apply keeps_streams.
  - queue_step (keeps_ps_append sizeof_request max_total id data (hc_pending_requests c) m)
      as [[b ps] m1]. by apply keeps_streams.
Qed.

(** Handling a response after its queue has been updated. *)
Lemma keeps_then_finish c m c1 m1 (b : bool) id ts :
  keeps max_total c m c1 m1 →
  let '(_, c', m') := (if b then finish_h2_response c1 id ts m1 else ([], c1, m1)) in
  keeps max_total c m c' m'.
Proof using Hsize.
  intros Hk. destruct b; [|done]. pose proof (keeps_finish c1 id ts m1) as Hf.
  destruct (finish_h2_response c1 id ts m1) as [[out c2] m2]. by eapply keeps_trans.
Qed.

Lemma keeps_item req ts ctx item c m :
  let '(_, c', m') := on_item req ts ctx item c m in keeps max_total c m c' m'.
Proof using Hsize.
  unfold on_item. destruct item as [id hs e|id data e|id|id].
  - destruct req; [by queue_step (keeps_request_item (Headers id hs e) ts ctx c m) as [c1 m1]|].
    unfold on_response_headers. destruct (header_get _ hs) as [status|].
    + destruct (starts_with_text "1" status); [apply keeps_refl|].
      destruct (negb _); [apply keeps_refl|].
      queue_step (keeps_is_start max_total id hs MAX_H2_PENDING_STREAMS (hc_responses c) m) as [[b rs] m1].
      apply keeps_then_finish. by apply keeps_responses.
    + queue_step (keeps_is_merge max_total id hs (hc_responses c) m) as [[b rs] m1].
      apply keeps_then_finish. by apply keeps_responses.
  - destruct req; [by queue_step (keeps_request_item (Data id data e) ts ctx c m) as [c1 m1]|].
    queue_step (keeps_is_append max_total id data (hc_responses c) m) as [[b rs] m1].
    apply keeps_then_finish. by apply keeps_responses.
  - by queue_step (keeps_forget c id m) as [c1 m1].
  - by queue_step (keeps_forget_all (filter (fun i => id < i)
      (map_to_list (ps_map (hc_pending_requests c))).*1) c m) as [c1 m1].
Qed.

Lemma keeps_items req ts ctx items c m :
  let '(_, c', m') := on_items req ts ctx items c m in keeps max_total c m c' m'.
Proof using Hsize.
  revert c m. induction items as [|item items IH]; intros c m; cbn [on_items]; [apply keeps_refl|].
  queue_step (keeps_item req ts ctx item c m) as [[out c1] m1]. specialize (IH c1 m1).
  destruct (on_items req ts ctx items c1 m1) as [[outs c2] m2]. by eapply keeps_trans.
Qed.

(** The parsers: the whole read is charged, and what they do not hold of it is given back. *)
Lemma keeps_fed req data c m pb m1 :
  pb_add max_total (zlen data) (hc_buffered c) m = (true, pb, m1) →
  let '(_, c', m') := feed_direction req data (c <| hc_buffered := pb |>) m1 in keeps max_total c m c' m'.
Proof.
  intros Eadd. pose proof (zlen_nonneg data) as Hlen.
  destruct (feed_direction _ _ _ m1) as [[items c'] m'] eqn:Efeed.
  intros rest (Hrest & Hm & He & Hpb & Hps & Hrs & Hbuf & Hd1 & Hd2).
  pose proof Hps as (Hps1 & Hps2 & _). pose proof Hrs as (Hrs1 & Hrs2 & _).
  cbn in Hps1, Hps2, Hrs1, Hrs2, Hm. unfold conn_bytes, frames_held in *.
  pose proof (buffered_nonneg (hc_req c)). pose proof (buffered_nonneg (hc_resp c)).
  pose proof (pb_add_spec max_total (zlen data) (hc_buffered c) m
    (rest + ps_bytes (hc_pending_requests c) + is_bytes (hc_responses c)) Hlen) as Hadd.
  rewrite Eadd in Hadd. destruct Hadd as (Hpb1 & Hm1 & Hw1); [lia..|].
  unfold feed_direction in Efeed. cbn [hc_req hc_resp hc_buffered] in Efeed.
  set (d := if req then hc_req (c <| hc_buffered := pb |>) else hc_resp (c <| hc_buffered := pb |>)) in *.
  assert (dir_ok d ∧ buffered d <= frames_held c) as [Hd Hle].
  { unfold d, frames_held. destruct req; cbn; split; solve [done|lia]. }
  pose proof (feed_ok hpack_new hpack_decode data d Hd) as [Hd' Hgrow].
  destruct (feed hpack_new hpack_decode data d) as [[d' out] errs]. cbn [fst] in Hd', Hgrow.
  pose proof (buffered_nonneg d'). pose proof (buffered_nonneg d).
  pose proof (pb_sub_spec max_total (saturating_sub (zlen data + buffered d) (buffered d')) pb m1
    (rest + ps_bytes (hc_pending_requests c) + is_bytes (hc_responses c))) as Hsub.
  unfold frames_held in Hle. unfold saturating_sub in *.
  change (hc_buffered (c <| hc_buffered := pb |>)) with pb in Efeed.
  destruct (pb_sub _ pb m1) as [pb2 m2]. destruct Hsub as (Hpb2 & Hm2 & Hw2); [lia..|].
  assert (∀ size (e : direction), dir_ok e → dir_ok (set_max_frame size e)) as Hset.
  { intros size e He'. exact (apply_op_ok hpack_new hpack_decode e (SetMaxFrame size) He'). }
  split; [|injection Efeed as <- <- <-; by eapply within_trans].
  destruct req; destruct (d_announced_max_frame d'); injection Efeed as <- <- <-;
    (apply charged_conn; try done; [unfold conn_bytes; cbn; lia|unfold d, frames_held, buffered in *; cbn in *; lia|..]; cbn; auto).
Qed.

Lemma keeps_process data ts req ctx c m :
  let '(_, c', m') := process data ts req ctx c m in keeps max_total c m c' m'.
Proof using Hsize.
  unfold process_http2_event. set (c0 := c <| hc_last_event_ts := ts |>).
  assert (∀ m', keeps max_total c m c0 m' ↔ keeps max_total c0 m c0 m') as Hts by done.
  destruct (zlen data =? 0); [apply Hts, keeps_refl|].
  pose proof (pb_add_refused max_total (zlen data) (hc_buffered c0) m) as Href.
  destruct (pb_add _ _ _ m) as [[ok pb] m1] eqn:Eadd. destruct ok; cbn [negb].
  - pose proof (keeps_fed req data c0 m pb m1 Eadd) as Hfed.
    destruct (feed_direction req data _ m1) as [[items c1] m2].
    pose proof (keeps_items req ts ctx items c1 m2) as Hitems.
    destruct (on_items req ts ctx items c1 m2) as [[out c2] m3]. by eapply keeps_trans.
  - rewrite (Href eq_refl). apply Hts, keeps_drop, keeps_refl.
Qed.
End H2ConnProps.

(** * A connection from its first event on *)

(** A read of the connection: its bytes, its time, whether it comes from the client, and whose it is. *)
Record h2_read {net : Type} := { hr_data : bytes; hr_ts : Z; hr_is_request : bool; hr_net : net }.
Arguments h2_read : clear implicits.

(** The reads of a connection, one after the other. *)
Definition process_reads {net table : Type} sizeof_request hpack_new hpack_decode max_total
    (reads : list (h2_read net)) (c : Http2Conn (net := net) (h2dir := Http2Direction (table := table)))
    (m : memory) :=
  foldl (fun '(c, m) r =>
    let '(_, c, m) := process_http2_event sizeof_request hpack_new hpack_decode max_total
                        (hr_data r) (hr_ts r) (hr_is_request r) (hr_net r) c m in (c, m)) (c, m) reads.

(** Whatever an HTTP/2 connection reads, what it is charged for is exactly what it holds: its
    requests without a response, its responses without an end, and the incomplete frames and header
    blocks of its two parsers. The rest of the reader's counter is untouched, and the counter never
    passes the ceiling (unless it was past it, and then it does not grow). *)
Theorem h2_connection_charged_exactly {net table : Type} sizeof_request (hpack_new : table) hpack_decode
    max_total (reads : list (h2_read net)) m :
  0 <= sizeof_request → 0 <= TOTAL_BUFFER_BYTES m →
  let '(c, m') := process_reads sizeof_request hpack_new hpack_decode max_total reads
                    (Http2Conn_default hpack_new) m in
  ps_bytes (hc_pending_requests c) = ps_recount sizeof_request (hc_pending_requests c) ∧
  is_bytes (hc_responses c) = is_recount (hc_responses c) ∧
  hc_buffered c = buffered (hc_req c) + buffered (hc_resp c) ∧
  TOTAL_BUFFER_BYTES m' = TOTAL_BUFFER_BYTES m + conn_bytes c ∧
  TOTAL_BUFFER_BYTES m' <= Z.max (TOTAL_BUFFER_BYTES m) max_total.
Proof.
  intros Hsize Hm. pose (H := conn_holder (net := net) (table := table) sizeof_request).
  assert (∀ c m0, charged (TOTAL_BUFFER_BYTES m) c m0 →
    within max_total m m0 →
    let '(c', m') := process_reads sizeof_request hpack_new hpack_decode max_total reads c m0 in
    charged (TOTAL_BUFFER_BYTES m) c' m' ∧ within max_total m m') as Hall.
  { induction reads as [|r reads IH]; intros c m0 Hc Hw; [done|].
    pose proof (keeps_process sizeof_request Hsize hpack_new hpack_decode max_total
      (hr_data r) (hr_ts r) (hr_is_request r) (hr_net r) c m0) as Hk.
    unfold process_reads. cbn [foldl].
    destruct (process_http2_event _ _ _ _ _ _ _ _ c m0) as [[out c1] m1].
    destruct (Hk _ Hc) as [Hc1 Hw1]. apply IH; [done|]. by eapply within_trans. }
  specialize (Hall (Http2Conn_default hpack_new) m).
  destruct (process_reads _ _ _ _ _ _ m) as [c m']. destruct Hall as [Hc Hw].
  { apply charged_conn; try done. unfold conn_bytes. cbn. lia. }
  { apply within_refl. }
  destruct Hc as (_ & Ht & Hb & _ & [Hps _] & [Hrs _] & Hbuf & _). by split_and!.
Qed.

(** A request that arrives in two pieces, the first within a frame. *)
Lemma h2_connection_charged_exactly_witness :
  let reads := [{| hr_data := take 30 demo_h2_stream; hr_ts := 1; hr_is_request := true; hr_net := tt |};
                {| hr_data := drop 30 demo_h2_stream; hr_ts := 2; hr_is_request := true; hr_net := tt |}] in
  let m := {| TOTAL_BUFFER_BYTES := 7; EVENTS_DROPPED := 0 |} in
  let '(c, m') := process_reads 100 0 demo_hpack 100000 reads (Http2Conn_default 0) m in
  ps_bytes (hc_pending_requests c) = ps_recount 100 (hc_pending_requests c) ∧
  is_bytes (hc_responses c) = is_recount (hc_responses c) ∧
  hc_buffered c = buffered (hc_req c) + buffered (hc_resp c) ∧
  TOTAL_BUFFER_BYTES m' = TOTAL_BUFFER_BYTES m + conn_bytes c ∧
  TOTAL_BUFFER_BYTES m' <= Z.max (TOTAL_BUFFER_BYTES m) 100000.
Proof. intros reads m. apply (h2_connection_charged_exactly 100 0 demo_hpack 100000 reads m); cbn; lia. Defined.
