(* ===== verification/H2Pairing.v ===== *)
(** An HTTP/2 connection of the reader ([H2Conn]) pairs a response with the request of its own
    stream, whatever the streams interleave. *)

From S2P Require Import Prelude.
From S2P Require Import Pending Memory Text Http1 Http1Props Http1Framing Http2 Http2Props.
From S2P Require Import Codecs Reader H2Conn.
From Stdlib Require Import Strings.String.

#[local] Notation length := List.length.
#[local] Open Scope list_scope.
#[local] Open Scope Z_scope.

(** An item of one of the two parsers, with what the record it came in says of it. *)
Record h2_event {net : Type} := { he_is_request : bool; he_ts : Z; he_net : net; he_item : H2Item }.
Arguments h2_event : clear implicits.

Lemma header_get_insert k k' v hs :
  header_get k (header_insert k' v hs) = if bool_decide (k = k') then Some v else header_get k hs.
Proof.
  unfold header_insert. cbn [header_get]. case_bool_decide as Hk; [done|].
  induction hs as [|[k1 v1] hs IH]; [done|]. rewrite filter_cons. cbn [fst].
  case_decide as H1; cbn [header_get]; rewrite IH; case_bool_decide; congruence.
Qed.

(** Trailers without a name leave its value. *)
Lemma merge_into_get k trailers max r pb m :
  header_get k trailers = None →
  header_get k (ir_headers (merge_into trailers max r pb m).1.1) = header_get k (ir_headers r).
Proof.
  revert r pb m. induction trailers as [|[k' v] trailers IH]; intros r pb m; cbn [merge_into header_get];
    [done|]. case_bool_decide as Hk; [done|]. intros Hn.
  destruct (pb_add _ _ _ _) as [[[] pb'] m']; rewrite IH by done; [|done].
  transitivity (header_get k (header_insert k' v (ir_headers r))); [done|].
  rewrite header_get_insert. by case_bool_decide.
Qed.

Section Pairing.
Context {net table : Type} (sizeof_request max_total : Z).

Notation conn := (Http2Conn (net := net) (h2dir := Http2Direction (table := table))).
Notation event := (h2_event net).
Notation on_item := (on_item (table := table) sizeof_request max_total).
Notation finish_h2_response := (finish_h2_response (table := table) sizeof_request).

#[local] Existing Instance Http2Conn_fields.

Implicit Types c : conn.

(** The items one after the other: what [process_http2_event] does with those of each read. *)
Fixpoint on_events (events : list event) c (m : memory) : list h2_output * conn * memory :=
  match events with
  | [] => ([], c, m)
  | e :: events' =>
      let '(out, c, m) := on_item (he_is_request e) (he_ts e) (he_net e) (he_item e) c m in
      let '(outs, c, m) := on_events events' c m in
      (out ++ outs, c, m)
  end.

Lemma on_items_events req ts ctx items c m :
  on_items sizeof_request max_total req ts ctx items c m =
  on_events ((fun i => {| he_is_request := req; he_ts := ts; he_net := ctx; he_item := i |}) <$> items) c m.
Proof.
  revert c m. induction items as [|i items IH]; intros c m; [done|]. 
  cbn [on_items on_events fmap list_fmap he_is_request he_ts he_net he_item].
  destruct (on_item req ts ctx i c m) as [[out c1] m1]. by rewrite IH.
Qed.

Lemma on_events_app es es' c m :
  on_events (es ++ es') c m =
  let '(out, c, m) := on_events es c m in
  let '(outs, c, m) := on_events es' c m in (out ++ outs, c, m).
Proof.
  revert c m. induction es as [|e es IH]; intros c m; cbn [app on_events].
  - by destruct (on_events es' c m) as [[??]?].
  - destruct (on_item _ _ _ _ c m) as [[out c1] m1]. rewrite IH.
    destruct (on_events es c1 m1) as [[out1 c2] m2]. destruct (on_events es' c2 m2) as [[out2 c3] m3].
    by rewrite app_assoc.
Qed.

(** * Where requests and responses come from *)

(** [r] is the request of a HEADERS item of the client on stream [id], and bytes of its body. *)
Definition request_origin (h : list event) (id : Z) (r : ParsedRequest net) : Prop :=
  ∃ ts ctx hs e, {| he_is_request := true; he_ts := ts; he_net := ctx; he_item := Headers id hs e |} ∈ h ∧
    request_of hs ts ctx = Some (r <| pr_body := [] |>).

(** [hs] has the status of a HEADERS item of the server on stream [id] that is no interim response. *)
Definition response_origin (h : list event) (id : Z) (hs : headers) : Prop :=
  ∃ ts ctx hs' e status,
    {| he_is_request := false; he_ts := ts; he_net := ctx; he_item := Headers id hs' e |} ∈ h ∧
    header_get (lit ":status") hs' = Some status ∧ starts_with_text "1" status = false ∧
    header_get (lit ":status") hs = Some status.

Definition requests_known h (ps : PendingStreams net) : Prop :=
  map_Forall (request_origin h) (ps_map ps).

Definition responses_known h (rs : InflightResponses) : Prop :=
  map_Forall (fun id r => response_origin h id (ir_headers r)) (is_map rs).

Definition known h c : Prop :=
  requests_known h (hc_pending_requests c) ∧ responses_known h (hc_responses c).

(** What may be emitted after [h]. *)
Definition emitted_ok h (o : h2_output) : Prop :=
  match o with
  | Emit t => ∃ id hs, request_origin h id (tx_request t) ∧ response_origin h id hs ∧
      rs_headers (tx_response t) = hs ∧
      rs_status_code (tx_response t) =
        default 0 (header_get (lit ":status") hs ≫= fun s => parse_i32 (chars s))
  | SkipUnpaired => True
  end.

Lemma requests_remove h id ps m :
  requests_known h ps →
  let '(o, ps', _) := ps_remove sizeof_request id ps m in
  requests_known h ps' ∧ ∀ r, o = Some r → request_origin h id r.
Proof.
  intros Hk. unfold ps_remove. destruct (ps_map ps !! id) as [r|] eqn:E; [|done].
  destruct (pb_sub _ _ _) as [pb m']. split; [by apply map_Forall_delete|].
  intros ? [= <-]. by apply Hk.
Qed.

Lemma responses_remove h id rs m :
  responses_known h rs →
  let '(o, rs', _) := is_remove id rs m in
  responses_known h rs' ∧ ∀ r, o = Some r → response_origin h id (ir_headers r).
Proof.
  intros Hk. unfold is_remove. destruct (is_map rs !! id) as [r|] eqn:E; [|done].
  destruct (pb_sub _ _ _) as [pb m']. split; [by apply map_Forall_delete|].
  intros ? [= <-]. by apply (Hk id r).
Qed.

Lemma responses_take h id rs m :
  responses_known h rs →
  let '(o, rs', _) := is_take id rs m in
  responses_known h rs' ∧ ∀ hs data, o = Some (hs, data) → response_origin h id hs.
Proof.
  intros Hk. unfold is_take. pose proof (responses_remove h id rs m Hk) as Hr.
  destruct (is_remove id rs m) as [[o rs'] m']. destruct Hr as [Hr Ho]. split; [done|].
  destruct o as [r|]; [|done]. intros hs data [= <- _]. by apply Ho.
Qed.

(** * The operations *)

(** The outputs are accounted for by [h], and so is the connection afterwards. *)
Definition sound h (e : list h2_output * conn * memory) : Prop :=
  Forall (emitted_ok h) e.1.1 ∧ known h e.1.2.

Lemma sound_idle h c m : known h c → sound h ([], c, m).
Proof. by split. Qed.

Lemma sound_finish h id ts c m : known h c → sound h (finish_h2_response c id ts m).
Proof.
  intros [Hps Hrs]. unfold H2Conn.finish_h2_response.
  pose proof (responses_take h id (hc_responses c) m Hrs) as Ht.
  destruct (is_take id _ m) as [[o rs] m1]. destruct Ht as [Hrs' Ho].
  destruct o as [[hs data]|]; [|by split].
  pose proof (requests_remove h id (hc_pending_requests c) m1 Hps) as Hr.
  destruct (ps_remove _ id _ m1) as [[r ps] m2]. destruct Hr as [Hps' Hr].
  destruct r as [r|]; [destruct (is_usable_http_request _ _)|];
    (split; [|by split]); (apply Forall_cons_2; [|done]); [|done..].
  exists id, hs. split_and!; [by apply Hr|by eapply Ho|done|done].
Qed.

Lemma sound_then_finish h (b : bool) id ts c m :
  known h c → sound h (if b then finish_h2_response c id ts m else ([], c, m)).
Proof. intros Hk. destruct b; [by apply sound_finish|by apply sound_idle]. Qed.

Lemma known_forget h id c m : known h c → known h (forget_stream sizeof_request id c m).1.
Proof.
  intros [Hps Hrs]. unfold forget_stream. pose proof (responses_take h id (hc_responses c) m Hrs) as Ht.
  destruct (is_take id _ m) as [[o rs] m1]. destruct Ht as [Hrs' _].
  pose proof (requests_remove h id (hc_pending_requests c) m1 Hps) as Hr.
  destruct (ps_remove _ id _ m1) as [[r ps] m2]. destruct Hr as [Hps' _]. by split.
Qed.

Lemma known_forget_all h ids c m : known h c → known h (forget_streams sizeof_request ids c m).1.
Proof.
  revert c m. induction ids as [|id ids IH]; intros c m Hk; cbn [forget_streams]; [done|].
  pose proof (known_forget h id c m Hk) as H1. destruct (forget_stream _ id c m) as [c1 m1]. by apply IH.
Qed.

Lemma request_origin_body h id r r' :
  r <| pr_body := [] |> = r' <| pr_body := [] |> → request_origin h id r → request_origin h id r'.
Proof. intros Heq (ts & ctx & hs & e & Hin & Hr). exists ts, ctx, hs, e. by rewrite <- Heq. Qed.

Lemma requests_insert h id r ps m :
  requests_known h ps → request_origin h id (truncate_body r) →
  requests_known h (ps_insert sizeof_request id r max_total MAX_H2_PENDING_STREAMS ps m).1.2.
Proof.
  intros Hps Ho. unfold ps_insert. pose proof (requests_remove h id ps m Hps) as Hr.
  destruct (ps_remove _ id ps m) as [[o ps'] m1]. destruct Hr as [Hps' _].
  case_match; [done|]. destruct (pb_add _ _ _ _) as [[[] pb] m2]; [|done].
  by apply map_Forall_insert_2.
Qed.

Lemma requests_append h id data ps m :
  requests_known h ps → requests_known h (ps_append_body id data max_total ps m).1.2.
Proof.
  intros Hps. unfold ps_append_body. destruct (ps_map ps !! id) as [r|] eqn:E; [|done].
  case_match; [|done]. destruct (pb_add _ _ _ _) as [[[] pb] m2]; [|done].
  apply map_Forall_insert_2; [|done]. eapply request_origin_body; [|exact (Hps id r E)]. done.
Qed.

Lemma known_request_item h ts ctx item c m :
  known h c →
  {| he_is_request := true; he_ts := ts; he_net := ctx; he_item := item |} ∈ h →
  known h (on_request_item sizeof_request max_total item ts ctx c m).1.
Proof.
  intros [Hps Hrs] Hin. unfold on_request_item. destruct item as [id hs e|id data e|id|id]; try by split.
  - destruct (request_of hs ts ctx) as [r|] eqn:Hreq; [|by split].
    pose proof (requests_insert h id r (hc_pending_requests c) m Hps) as Hi.
    destruct (ps_insert _ _ _ _ _ _ m) as [[b ps] m1]. split; [apply Hi|done].
    exists ts, ctx, hs, e. split; [done|]. rewrite Hreq. unfold request_of in Hreq.
    apply bind_Some in Hreq as (method & _ & Hreq). case_match; [|done]. by injection Hreq as <-.
  - pose proof (requests_append h id data (hc_pending_requests c) m Hps) as Ha.
    destruct (ps_append_body _ _ _ _ m) as [[b ps] m1]. by split.
Qed.

Lemma responses_start h id hs rs m :
  responses_known h rs → response_origin h id hs →
  responses_known h (is_start id hs max_total MAX_H2_PENDING_STREAMS rs m).1.2.
Proof.
  intros Hrs Ho. unfold is_start. pose proof (responses_remove h id rs m Hrs) as Hr.
  destruct (is_remove id rs m) as [[o rs'] m1]. destruct Hr as [Hrs' _].
  case_match; [done|]. destruct (pb_add _ _ _ _) as [[[] pb] m2]; [|done].
  by apply map_Forall_insert_2.
Qed.

Lemma responses_append h id data rs m :
  responses_known h rs → responses_known h (is_append id data max_total rs m).1.2.
Proof.
  intros Hrs. unfold is_append. destruct (is_map rs !! id) as [r|] eqn:E; [|done].
  case_match; [|done]. destruct (pb_add _ _ _ _) as [[[] pb] m2]; [|done].
  apply map_Forall_insert_2; [|done]. exact (Hrs id r E).
Qed.

Lemma responses_merge h id hs rs m :
  responses_known h rs → header_get (lit ":status") hs = None →
  responses_known h (is_merge_trailers id hs max_total rs m).1.2.
Proof.
  intros Hrs Hno. unfold is_merge_trailers. destruct (is_map rs !! id) as [r|] eqn:E; [|done].
  pose proof (merge_into_get (lit ":status") hs max_total r (is_bytes rs) m Hno) as Hget.
  destruct (merge_into _ _ _ _ _) as [[r' pb] m']. apply map_Forall_insert_2; [|done].
  destruct (Hrs id r E) as (ts & ctx & hs' & e & status & Hin & Hs & H1 & Hr).
  exists ts, ctx, hs', e, status. split_and!; [done..|]. by rewrite <- Hr.
Qed.

Lemma sound_item h e c m :
  known h c → e ∈ h → sound h (on_item (he_is_request e) (he_ts e) (he_net e) (he_item e) c m).
Proof.
  intros Hk Hin. pose proof Hk as [Hps Hrs]. destruct e as [req ts ctx item].
  cbn [he_is_request he_ts he_net he_item]. unfold H2Conn.on_item.
  assert (req = true → sound h (let '(c, m) := on_request_item sizeof_request max_total item ts ctx c m in
    ([], c, m))) as Hreq.
  { intros ->. pose proof (known_request_item h ts ctx item c m Hk Hin).
    by destruct (on_request_item _ _ _ _ _ c m). }
  destruct item as [id hs e|id data e|id|id].
  - destruct req; [by apply Hreq|]. unfold on_response_headers.
    destruct (header_get _ hs) as [status|] eqn:Hs.
    + destruct (starts_with_text "1" status) eqn:H1; [by apply sound_idle|].
      destruct (negb _); [by split; [apply Forall_cons_2|]|].
      pose proof (responses_start h id hs (hc_responses c) m Hrs) as Hst.
      destruct (is_start _ _ _ _ _ _) as [[b rs] m1]. apply sound_then_finish. split; [done|].
      apply Hst. by exists ts, ctx, hs, e, status.
    + pose proof (responses_merge h id hs (hc_responses c) m Hrs Hs) as Hst.
      destruct (is_merge_trailers _ _ _ _ _) as [[b rs] m1]. by apply sound_then_finish.
  - destruct req; [by apply Hreq|].
    pose proof (responses_append h id data (hc_responses c) m Hrs) as Hst.
    destruct (is_append _ _ _ _ _) as [[b rs] m1]. by apply sound_then_finish.
  - pose proof (known_forget h id c m Hk). destruct (forget_stream _ id c m). by split.
  - pose proof (known_forget_all h (filter (fun i => id < i)
      (map_to_list (ps_map (hc_pending_requests c))).*1) c m Hk).
    destruct (forget_streams _ _ c m). by split.
Qed.

Lemma sound_events h events c m : known h c → (∀ e, e ∈ events → e ∈ h) → sound h (on_events events c m).
Proof.
  revert c m. induction events as [|e events IH]; intros c m Hk Hin; cbn [on_events];
    [by apply sound_idle|].
  destruct (sound_item h e c m Hk (Hin e ltac:(left))) as [Ho1 Hk1].
  destruct (on_item _ _ _ _ c m) as [[out c1] m1]. cbn [fst snd] in Ho1, Hk1.
  destruct (IH c1 m1 Hk1) as [Ho2 Hk2]; [intros e' He'; apply Hin; by right|].
  destruct (on_events events c1 m1) as [[outs c2] m2]. split; [by apply Forall_app_2|done].
Qed.
End Pairing.

(** C25: however streams, requests and responses interleave on a connection, whatever is emitted pairs
    a response with the request of its own stream: the request is one the client sent on that stream,
    and the status is the one the server sent on it. *)
Theorem h2_pairs_within_stream {net table : Type} sizeof_request max_total (hpack_new : table)
    (events : list (h2_event net)) m t :
  Emit t ∈ (on_events sizeof_request max_total events (Http2Conn_default hpack_new) m).1.1 →
  ∃ id hs, request_origin events id (tx_request t) ∧ response_origin events id hs ∧
    rs_headers (tx_response t) = hs ∧
    rs_status_code (tx_response t) = default 0 (header_get (lit ":status") hs ≫= fun s => parse_i32 (chars s)).
Proof.
  intros Hin. destruct (sound_events sizeof_request max_total events events (Http2Conn_default hpack_new) m)
    as [Ho _]; [|done|].
  { by split; apply map_Forall_empty. }
  exact (proj1 (list.Forall_forall _ _) Ho _ Hin).
Qed.

(** * An exchange *)

Definition request_item {net} ts (ctx : net) item : h2_event net :=
  {| he_is_request := true; he_ts := ts; he_net := ctx; he_item := item |}.

Definition response_item {net} ts (ctx : net) item : h2_event net :=
  {| he_is_request := false; he_ts := ts; he_net := ctx; he_item := item |}.

(** The counter moved by [n]. *)
Definition moved (n : Z) (m : memory) : memory := m <| TOTAL_BUFFER_BYTES := TOTAL_BUFFER_BYTES m + n |>.

Lemma moved_0 m : moved 0 m = m.
Proof. destruct m. unfold moved. cbn. by rewrite Z.add_0_r. Qed.

Lemma moved_moved a b m : moved a (moved b m) = moved (b + a) m.
Proof. destruct m. unfold moved. cbn. by rewrite Z.add_assoc. Qed.

Lemma pb_add_fits max n pb m :
  0 <= n → 0 <= pb <= TOTAL_BUFFER_BYTES m → TOTAL_BUFFER_BYTES m + n <= max → max < 2 ^ 64 →
  pb_add max n pb m = (true, pb + n, moved n m).
Proof.
  intros. unfold pb_add, reserve_memory.
  destruct (_ && _) eqn:E; [|lia]. by rewrite wrap_small by lia.
Qed.

Lemma pb_sub_fits n pb m :
  0 <= n <= pb → n <= TOTAL_BUFFER_BYTES m → pb_sub n pb m = (pb - n, moved (- n) m).
Proof.
  intros. unfold pb_sub, release_memory. rewrite Z.min_l by lia. destruct (n =? 0) eqn:E; zbool.
  - subst n. by rewrite moved_0.
  - unfold moved. do 2 f_equal. lia.
Qed.

Section Exchange.
Context {net table : Type} (sizeof_request max_total : Z).

Notation conn := (Http2Conn (net := net) (h2dir := Http2Direction (table := table))).

#[local] Existing Instance Http2Conn_fields.

(** Bytes of a first chunk of a body that are kept. *)
Definition kept (data : bytes) : bytes := ztake MAX_BODY_CAPTURE_BYTES data.

Lemma kept_length data : zlen (kept data) = Z.min (zlen data) MAX_BODY_CAPTURE_BYTES.
Proof. unfold kept. rewrite length_ztake; unfold MAX_BODY_CAPTURE_BYTES; lia. Qed.

Lemma kept_room data :
  Z.min (zlen data) (saturating_sub MAX_BODY_CAPTURE_BYTES (zlen (@nil Byte.byte))) = zlen (kept data).
Proof. by rewrite kept_length. Qed.

Lemma ztake_kept data : ztake (zlen (kept data)) data = kept data.
Proof.
  rewrite kept_length. unfold kept, ztake. pose proof (zlen_nonneg data). unfold zlen in *.
  destruct (Z.min_spec (Z.of_nat (length data)) MAX_BODY_CAPTURE_BYTES) as [[? ->]|[? ->]]; [|done].
  rewrite !take_ge; [done|lia..].
Qed.

Lemma kept_empty data : (0 <? zlen (kept data)) = false → kept data = [].
Proof.
  intros E. destruct (kept data) as [|b l]; [done|]. zbool. unfold zlen in E. cbn [List.length] in E. lia.
Qed.

Lemma ps_insert_new id (r : ParsedRequest net) (p : PendingStreams net) m :
  ps_map p !! id = None → pr_body r = [] → Z.of_nat (size (ps_map p)) < MAX_H2_PENDING_STREAMS →
  0 <= sizeof_request → 0 <= ps_bytes p <= TOTAL_BUFFER_BYTES m →
  TOTAL_BUFFER_BYTES m + approx_bytes sizeof_request r <= max_total → max_total < 2 ^ 64 →
  ps_insert sizeof_request id r max_total MAX_H2_PENDING_STREAMS p m =
    (true, {| ps_map := <[id := r]> (ps_map p); ps_bytes := ps_bytes p + approx_bytes sizeof_request r |},
     moved (approx_bytes sizeof_request r) m).
Proof.
  intros Hnone Hbody Hcap Hsize Hpb Hfit Hmax. unfold ps_insert.
  assert (truncate_body r = r) as ->.
  { unfold truncate_body. rewrite Hbody. destruct r. cbn in *. by subst. }
  unfold ps_remove. rewrite Hnone. destruct (_ <=? _) eqn:E; zbool; [lia|].
  pose proof (approx_bytes_nonneg sizeof_request Hsize r). by rewrite pb_add_fits.
Qed.

Lemma ps_append_first id data (p : PendingStreams net) m r :
  ps_map p !! id = Some r → pr_body r = [] → 0 <= ps_bytes p <= TOTAL_BUFFER_BYTES m →
  TOTAL_BUFFER_BYTES m + zlen (kept data) <= max_total → max_total < 2 ^ 64 →
  ps_append_body id data max_total p m =
    (true, {| ps_map := <[id := r <| pr_body := kept data |>]> (ps_map p);
              ps_bytes := ps_bytes p + zlen (kept data) |}, moved (zlen (kept data)) m).
Proof.
  intros Hr Hbody Hpb Hfit Hmax. unfold ps_append_body. rewrite Hr, Hbody, kept_room.
  pose proof (zlen_nonneg (kept data)). destruct (0 <? _) eqn:E.
  - by rewrite pb_add_fits, ztake_kept by lia.
  - rewrite (kept_empty _ E). change (zlen (@nil Byte.byte)) with 0. rewrite moved_0, Z.add_0_r.
    replace (r <| pr_body := [] |>) with r by (destruct r; cbn in *; by subst).
    rewrite insert_id by done. by destruct p.
Qed.

Lemma ps_remove_present id (p : PendingStreams net) m r :
  ps_map p !! id = Some r → 0 <= approx_bytes sizeof_request r <= ps_bytes p →
  ps_bytes p <= TOTAL_BUFFER_BYTES m →
  ps_remove sizeof_request id p m =
    (Some r, {| ps_map := delete id (ps_map p); ps_bytes := ps_bytes p - approx_bytes sizeof_request r |},
     moved (- approx_bytes sizeof_request r) m).
Proof. intros Hr Hb Hm. unfold ps_remove. by rewrite Hr, pb_sub_fits by lia. Qed.

Lemma is_start_new id hs (p : InflightResponses) m :
  is_map p !! id = None → Z.of_nat (size (is_map p)) < MAX_H2_PENDING_STREAMS →
  0 <= is_bytes p <= TOTAL_BUFFER_BYTES m →
  TOTAL_BUFFER_BYTES m + ir_size_of hs 0 <= max_total → max_total < 2 ^ 64 →
  is_start id hs max_total MAX_H2_PENDING_STREAMS p m =
    (true, {| is_map := <[id := {| ir_headers := hs; ir_body := []; ir_charged := ir_size_of hs 0 |}]> (is_map p);
              is_bytes := is_bytes p + ir_size_of hs 0 |}, moved (ir_size_of hs 0) m).
Proof.
  intros Hnone Hcap Hpb Hfit Hmax. unfold is_start, is_remove. rewrite Hnone.
  destruct (_ <=? _) eqn:E; zbool; [lia|].
  pose proof (header_bytes_nonneg hs). unfold ir_size_of, header_bytes in *. by rewrite pb_add_fits by lia.
Qed.

Lemma is_append_first id data (p : InflightResponses) m r :
  is_map p !! id = Some r → ir_body r = [] → 0 <= is_bytes p <= TOTAL_BUFFER_BYTES m →
  TOTAL_BUFFER_BYTES m + zlen (kept data) <= max_total → max_total < 2 ^ 64 →
  is_append id data max_total p m =
    (true, {| is_map := <[id := r <| ir_body := kept data |>
                                  <| ir_charged := ir_charged r + zlen (kept data) |>]> (is_map p);
              is_bytes := is_bytes p + zlen (kept data) |}, moved (zlen (kept data)) m).
Proof.
  intros Hr Hbody Hpb Hfit Hmax. unfold is_append. rewrite Hr, Hbody. cbn zeta. rewrite kept_room.
  pose proof (zlen_nonneg (kept data)). destruct (0 <? _) eqn:E.
  - by rewrite pb_add_fits, ztake_kept by lia.
  - rewrite (kept_empty _ E). change (zlen (@nil Byte.byte)) with 0. rewrite moved_0, !Z.add_0_r.
    replace (r <| ir_body := [] |> <| ir_charged := ir_charged r |>) with r
      by (destruct r; cbn in *; by subst).
    rewrite insert_id by done. by destruct p.
Qed.

Lemma is_take_present id (p : InflightResponses) m r :
  is_map p !! id = Some r → 0 <= ir_charged r <= is_bytes p → is_bytes p <= TOTAL_BUFFER_BYTES m →
  is_take id p m =
    (Some (ir_headers r, ir_body r),
     {| is_map := delete id (is_map p); is_bytes := is_bytes p - ir_charged r |}, moved (- ir_charged r) m).
Proof. intros Hr Hb Hm. unfold is_take, is_remove. by rewrite Hr, pb_sub_fits by lia. Qed.

Lemma approx_bytes_body (r : ParsedRequest net) body :
  pr_body r = [] →
  approx_bytes sizeof_request (r <| pr_body := body |>) = approx_bytes sizeof_request r + zlen body.
Proof. intros Hb. unfold approx_bytes. rewrite Hb. change (zlen (@nil Byte.byte)) with 0. cbn. lia. Qed.


#[local] Notation events := (on_events (table := table) sizeof_request max_total).

Lemma usable_request qs ts ctx (r : ParsedRequest net) :
  request_of qs ts ctx = Some r →
  pr_body r = [] ∧ is_usable_http_request (pr_method r) (pr_path r) = true.
Proof.
  intros Hreq. unfold request_of in Hreq. apply bind_Some in Hreq as (method & _ & Hreq).
  destruct (is_usable_http_request _ _) eqn:E; [|done]. by injection Hreq as <-.
Qed.

(** The request is pending afterwards, and charged for. *)
Lemma exchange_request (c : conn) m id ctx t1 t2 qs qdata r :
  let p := hc_pending_requests c in
  let n := approx_bytes sizeof_request r + zlen (kept qdata) in
  ps_map p !! id = None → Z.of_nat (size (ps_map p)) < MAX_H2_PENDING_STREAMS →
  0 <= sizeof_request → 0 <= ps_bytes p <= TOTAL_BUFFER_BYTES m → request_of qs t1 ctx = Some r →
  TOTAL_BUFFER_BYTES m + n <= max_total → max_total < 2 ^ 64 →
  events [request_item t1 ctx (Headers id qs false); request_item t2 ctx (Data id qdata true)] c m =
  ([], c <| hc_pending_requests := {| ps_map := <[id := r <| pr_body := kept qdata |>]> (ps_map p);
                                      ps_bytes := ps_bytes p + n |} |>, moved n m).
Proof.
  cbn zeta. intros Hq Hqn Hsize Hqb Hreq Hfit Hmax.
  destruct (usable_request _ _ _ _ Hreq) as [Hbody _].
  pose proof (approx_bytes_nonneg sizeof_request Hsize r). pose proof (zlen_nonneg (kept qdata)).
  cbn [on_events request_item he_is_request he_ts he_net he_item on_item].
  unfold on_request_item. rewrite Hreq, ps_insert_new by (done || lia).
  rewrite (ps_append_first id qdata _ _ r);
    [|apply lookup_insert_eq|done|cbn; lia|cbn; lia|done].
  rewrite moved_moved. cbn. by rewrite insert_insert_eq, Z.add_assoc.
Qed.

(** The response is emitted with the pending request, and both are forgotten. *)
Lemma exchange_response (c : conn) m id ctx t3 t4 rs status rdata r :
  let p := hc_pending_requests c in
  ps_map p !! id = Some r → is_map (hc_responses c) !! id = None →
  Z.of_nat (size (is_map (hc_responses c))) < MAX_H2_PENDING_STREAMS →
  0 <= approx_bytes sizeof_request r <= ps_bytes p → 0 <= is_bytes (hc_responses c) →
  ps_bytes p + is_bytes (hc_responses c) <= TOTAL_BUFFER_BYTES m →
  is_usable_http_request (pr_method r) (pr_path r) = true →
  header_get (lit ":status") rs = Some status → starts_with_text "1" status = false →
  TOTAL_BUFFER_BYTES m + ir_size_of rs 0 + zlen (kept rdata) <= max_total → max_total < 2 ^ 64 →
  events [response_item t3 ctx (Headers id rs false); response_item t4 ctx (Data id rdata true)] c m =
  ([Emit (transaction_of r rs (kept rdata) t4)],
   c <| hc_pending_requests := {| ps_map := delete id (ps_map p);
                                  ps_bytes := ps_bytes p - approx_bytes sizeof_request r |} |>,
   moved (- approx_bytes sizeof_request r) m).
Proof.
  cbn zeta. intros Hq Hr Hrn Hqb Hrb Htot Huse Hst H1 Hfit Hmax.
  pose proof (header_bytes_nonneg rs). pose proof (zlen_nonneg (kept rdata)).
  assert (0 <= ir_size_of rs 0) as Hs by (unfold ir_size_of, header_bytes in *; lia).
  cbn [on_events response_item he_is_request he_ts he_net he_item on_item].
  unfold on_response_headers. rewrite Hst, H1. unfold ps_contains. rewrite Hq.
  rewrite bool_decide_eq_true_2 by done. cbn [negb].
  rewrite is_start_new by (done || lia).
  erewrite (is_append_first id rdata);
    [|apply lookup_insert_eq|done|cbn; lia|cbn; lia|done].
  cbn [andb]. unfold H2Conn.finish_h2_response.
  erewrite is_take_present; [|apply lookup_insert_eq|cbn; lia|cbn; lia].
  erewrite ps_remove_present; [|exact Hq|done|cbn; lia].
  rewrite Huse. cbn [app]. rewrite !moved_moved.
  f_equal; [f_equal|f_equal; cbn; lia]. cbn.
  rewrite delete_insert_eq, delete_insert_id by done.
  replace (_ - (_ + zlen (kept rdata))) with (is_bytes (hc_responses c)) by lia.
  by destruct c as [? ? ? [] ? ?].
Qed.
End Exchange.

(** A request and its response, each with a body, on a stream of its own: exactly one event is
    emitted, with the request, the status and headers of the response and the first bytes of both
    bodies, and the connection and the memory counter are left as they were. *)
Theorem h2_exchange_emitted {net table : Type} sizeof_request max_total
    (c : Http2Conn (net := net) (h2dir := Http2Direction (table := table))) m
    id ctx t1 t2 t3 t4 qs qdata r rs status rdata :
  ps_map (hc_pending_requests c) !! id = None → is_map (hc_responses c) !! id = None →
  Z.of_nat (size (ps_map (hc_pending_requests c))) < MAX_H2_PENDING_STREAMS →
  Z.of_nat (size (is_map (hc_responses c))) < MAX_H2_PENDING_STREAMS →
  0 <= sizeof_request → 0 <= ps_bytes (hc_pending_requests c) → 0 <= is_bytes (hc_responses c) →
  ps_bytes (hc_pending_requests c) + is_bytes (hc_responses c) <= TOTAL_BUFFER_BYTES m →
  request_of qs t1 ctx = Some r →
  header_get (lit ":status") rs = Some status → starts_with_text "1" status = false →
  TOTAL_BUFFER_BYTES m + approx_bytes sizeof_request r + zlen (kept qdata) +
    ir_size_of rs 0 + zlen (kept rdata) <= max_total → max_total < 2 ^ 64 →
  on_events sizeof_request max_total
    [ request_item t1 ctx (Headers id qs false); request_item t2 ctx (Data id qdata true);
      response_item t3 ctx (Headers id rs false); response_item t4 ctx (Data id rdata true) ] c m =
  ([Emit (transaction_of (r <| pr_body := kept qdata |>) rs (kept rdata) t4)], c, m).
Proof.
  intros Hq Hr Hqn Hrn Hsize Hqb Hrb Htot Hreq Hst H1 Hfit Hmax.
  pose proof (approx_bytes_nonneg sizeof_request Hsize r) as Ha.
  pose proof (header_bytes_nonneg rs) as Hh.
  pose proof (zlen_nonneg (kept qdata)). pose proof (zlen_nonneg (kept rdata)).
  assert (0 <= ir_size_of rs 0) as Hs by (unfold ir_size_of, header_bytes in *; lia).
  destruct (usable_request _ _ _ _ Hreq) as [Hbody Huse].
  change [?a; ?b; ?d; ?e] with ([a; b] ++ [d; e]). rewrite on_events_app.
  rewrite (exchange_request _ _ c m id ctx t1 t2 qs qdata r) by (done || lia).
  rewrite (exchange_response _ _ _ _ id ctx t3 t4 rs status rdata (r <| pr_body := kept qdata |>));
    [|cbn; rewrite ?approx_bytes_body by done; first [done|apply lookup_insert_eq|lia]..].
  rewrite moved_moved, approx_bytes_body, Z.add_opp_diag_r, moved_0 by done. cbn.
  rewrite delete_insert_id, Z.add_simpl_r by done. by destruct c as [? ? [] ? ? ?].
Qed.

Lemma h2_exchange_emitted_witness :
  let qs := [(lit ":method", lit "POST"); (lit ":path", lit "/b")] in
  let rs := [(lit ":status", lit "201")] in
  let r := {| pr_method := lit "POST"; pr_path := lit "/b"; pr_host := None; pr_headers := qs;
              pr_ts_ms := 1; pr_net_ctx := tt; pr_body := [] |} in
  let c := Http2Conn_default 0 in
  let m := {| TOTAL_BUFFER_BYTES := 50; EVENTS_DROPPED := 3 |} in
  on_events 100 2000
    [ request_item 1 tt (Headers 3 qs false); request_item 2 tt (Data 3 (lit "data") true);
      response_item 3 tt (Headers 3 rs false); response_item 4 tt (Data 3 (lit "ok") true) ] c m =
  ([Emit (transaction_of (r <| pr_body := lit "data" |>) rs (lit "ok") 4)], c, m).
Proof.
  intros qs rs r c m. apply (h2_exchange_emitted 100 2000 c m 3 tt 1 2 3 4 qs (lit "data") r rs (lit "201") (lit "ok"));
    vm_compute; reflexivity || discriminate.
Defined.

(** Two requests on one connection, answered out of order. *)
Definition demo_events : list (h2_event unit) :=
  [ request_item 1 tt (Headers 1 [(lit ":method", lit "GET"); (lit ":path", lit "/a")] true);
    request_item 2 tt (Headers 3 [(lit ":method", lit "POST"); (lit ":path", lit "/b")] false);
    request_item 3 tt (Data 3 (lit "data") true);
    response_item 4 tt (Headers 3 [(lit ":status", lit "100")] false);
    response_item 5 tt (Headers 3 [(lit ":status", lit "201")] false);
    response_item 6 tt (Headers 1 [(lit ":status", lit "404")] true);
    response_item 7 tt (Data 3 (lit "ok") true) ].

Definition demo_outputs : list h2_output :=
  (on_events 100 100000 demo_events (Http2Conn_default 0) {| TOTAL_BUFFER_BYTES := 0; EVENTS_DROPPED := 0 |}).1.1.

Lemma h2_pairs_within_stream_witness :
  ∃ t1 t3, demo_outputs = [Emit t1; Emit t3] ∧
    (pr_path (tx_request t1), rs_status_code (tx_response t1)) = (lit "/a", 404) ∧
    (pr_path (tx_request t3), rs_status_code (tx_response t3)) = (lit "/b", 201) ∧
    ∃ id hs, request_origin demo_events id (tx_request t3) ∧ response_origin demo_events id hs ∧
      rs_headers (tx_response t3) = hs ∧
      rs_status_code (tx_response t3) =
        default 0 (header_get (lit ":status") hs ≫= fun s => parse_i32 (chars s)).
Proof.
  eexists _, _. split; [vm_compute; reflexivity|]. do 2 (split; [vm_compute; reflexivity|]).
  apply (h2_pairs_within_stream 100 100000 0 demo_events {| TOTAL_BUFFER_BYTES := 0; EVENTS_DROPPED := 0 |}).
  fold demo_outputs. vm_compute. right. left.
Defined.
