(* ===== verification/Shard.v ===== *)
(** A shard of the reader ([StreamState] of [userspace/src/stream.rs]): its configuration, what its
    handlers may do, and how it recognises what a payload is; at the end, the expiry of what waits too
    long. [Handle] has the way of a record through the shard.

    A handler is a value of [handler]: it reads and changes the tables of the shard ([StreamState] of
    [Reader]) and the memory counter, emits outputs, and may return early ([stop]). An output is the
    arguments of a call of [build_event] or [build_incomplete_event] ([EventLoop.finished] makes the
    call, on the definitions of [Builder]), or a step of a metric. What
    the container resolver, the DNS cache and the clock answer during a call is [surroundings]. The
    set of workloads already named in the log is left out. *)

From S2P Require Import Prelude Abi Wire Pending Memory Queues Text Http1 Http1Props Http2 Codecs Mcp Reader.
From S2P Require Import H2Conn.
From stdpp Require Import sorting.
From Stdlib Require Import Strings.String.

#[local] Notation length := List.length.
#[local] Open Scope list_scope.
#[local] Open Scope Z_scope.

(** * Constants *)

Definition MAX_STREAM_ENTRIES : Z := 10000.
Definition STREAM_TTL_MS : Z := 300000.
Definition MAX_H2_EARLY_BYTES : Z := 8192.
Definition MAX_H2_EARLY_CONNS : Z := 1024.
Definition ROLE_HINT_SERVER : Z := 1.
Definition ROLE_HINT_CLIENT : Z := 2.

Inductive TrafficRole := Server | Client | Auto.

Record config := {
  cf_role : TrafficRole;
  cf_max_buffer : Z;
  cf_max_total_buffer_bytes : Z;
  cf_namespace_scope : option (list bytes)
}.

(** * What a payload looks like *)

(** [payload] begins an HTTP/1 request line or status line. *)
Definition starts_http1_message (payload : bytes) : bool :=
  if starts_with (lit "HTTP/1.") payload then true else
  match Text.find [x20] (take 8 payload) with
  | None => false
  | Some sp => match from_utf8 (take sp payload) with
               | Some _ => is_http_method (take sp payload)
               | None => false
               end
  end.

Definition infer_request_direction (direction role_hint : Z) (payload : bytes) : option Z :=
  let other := if direction =? 0 then 1 else 0 in
  if starts_with HTTP2_PREFACE payload ||
     (negb (zlen payload =? 0) && starts_with payload HTTP2_PREFACE) then Some direction
  else if starts_with (lit "HTTP/1.") payload then Some other
  else if starts_http1_message payload then Some direction
  else if role_hint =? ROLE_HINT_SERVER then Some 0
  else if role_hint =? ROLE_HINT_CLIENT then Some 1
  else None.

(** The loop of [looks_like_h2_connection_frames]: a run of complete SETTINGS, PING and
    WINDOW_UPDATE frames on stream 0. *)
Fixpoint connection_frames (fuel : nat) (buf : bytes) (saw : bool) : bool :=
  match fuel with
  | O => false
  | S fuel =>
      if zlen buf <? 9 then saw && (zlen buf =? 0) else
      let f := frame_at buf in
      if 16384 <? frame_len buf then false
      else if zlen buf <? 9 + frame_len buf then saw
      else if negb (f_stream f =? 0) || negb (existsb (Z.eqb (f_type f)) [4; 6; 8]) then false
      else connection_frames fuel (zdrop (9 + frame_len buf) buf) true
  end.

Definition looks_like_h2_connection_frames (buf : bytes) : bool :=
  if zlen buf <? 9 then false else connection_frames (S (length buf)) buf false.

(** [PendingQueue::front_is_head_or_connect]. *)
Definition front_is_head_or_connect {net} (q : PendingQueue net) : bool * bool :=
  match pq_items q with
  | r :: _ => (bool_decide (pr_method r = lit "HEAD"), bool_decide (pr_method r = lit "CONNECT"))
  | [] => (false, false)
  end.

(** * Handlers *)

(** Metrics a handler steps. [EVENTS_DROPPED] is part of [memory]. *)
Inductive counter :=
| ACTIVE_CONNECTIONS | CAPTURE_GAPS | ROLE_AMBIGUOUS | EVENTS_OUT_OF_SCOPE | EVENTS_SCOPE_UNRESOLVED
| PENDING_EXPIRED | UNPAIRED_RESPONSES | PROTO_WEBSOCKET | BODIES_TRUNCATED | H1_PARSE_ERRORS.

(** What the process around the shard answers during one call. *)
Record surroundings {net : Type} := {
  w_now_ms : Z;                  (* the wall clock *)
  w_net_ctx : net;               (* [net_context_from_event] *)
  w_namespace : option bytes     (* the pod namespace the resolver knows for the workload *)
}.
Arguments surroundings : clear implicits.

Inductive output {net : Type} :=
| Event (t : transaction (net := net)) (metadata : option McpEvent)
| Incomplete (r : ParsedRequest net) (protocol outcome : string)
| Count (c : counter) (n : Z).
Arguments output : clear implicits.

Notation tables net table :=
  (StreamState (net := net) (dec := Http1Decoder) (h2dir := Http2Direction (table := table))).

Record shard {net table : Type} := { sh : tables net table; last_eviction_ms : Z }.
Arguments shard : clear implicits.

#[export] Instance shard_fields {net table} : Fields (shard net table) := fun s =>
  Build_shard _ _ (sh s) (last_eviction_ms s).

#[export] Instance StreamState_fields {net dec h2dir} :
    Fields (StreamState (net := net) (dec := dec) (h2dir := h2dir)) := fun s =>
  Build_StreamState (buffers s) (pending s) (http2_state s) (h2_early_resp s) (http3_connections s)
    (ws_connections s) (known_connections s) (conn_born_ms s) (conn_roles s) (gapped_streams s)
    (h1_decoders s) (h2_prefix s) (ws_remaining s).

(** A computation on the shard and the memory counter; [None] is an early return. *)
Definition handler (net table A : Type) : Type :=
  shard net table → memory → option A * list (output net) * shard net table * memory.

#[export] Instance handler_ret {net table} : MRet (handler net table) := fun A a s m => (Some a, [], s, m).

#[export] Instance handler_bind {net table} : MBind (handler net table) := fun A B f h s m =>
  let '(a, out, s, m) := h s m in
  match a with
  | Some a => let '(b, out', s, m) := f a s m in (b, out ++ out', s, m)
  | None => (None, out, s, m)
  end.

Section Handlers.
Context {net table : Type}.

Definition stop {A} : handler net table A := fun s m => (None, [], s, m).

Definition emit (out : list (output net)) : handler net table unit := fun s m => (Some tt, out, s, m).

Definition count (c : counter) : handler net table unit := emit [Count c 1].

Definition gets {A} (f : tables net table → A) : handler net table A := fun s m => (Some (f (sh s)), [], s, m).

Definition upd (f : tables net table → tables net table) : handler net table unit :=
  fun s m => (Some tt, [], s <| sh := f (sh s) |>, m).

(** An operation on the memory counter. *)
Definition charging {A} (f : memory → A * memory) : handler net table A :=
  fun s m => let '(a, m) := f m in (Some a, [], s, m).

Definition releasing (f : memory → memory) : handler net table unit := charging (fun m => (tt, f m)).

Definition when_ (b : bool) (h : handler net table unit) : handler net table unit :=
  if b then h else mret tt.

(** [StreamState::new]. *)
Definition Shard_new : shard net table := {|
  sh := {| buffers := ∅; pending := ∅; http2_state := ∅; h2_early_resp := ∅; http3_connections := ∅;
           ws_connections := ∅; known_connections := ∅; conn_born_ms := ∅; conn_roles := ∅;
           gapped_streams := ∅; h1_decoders := ∅; h2_prefix := ∅; ws_remaining := ∅ |};
  last_eviction_ms := 0 |}.
End Handlers.

(** * Expiry

    What waits too long in a shard ([evict_stale]), and what is left when the sensor stops
    ([take_all_incomplete]), of [userspace/src/stream.rs].

    A loop over a [HashMap] goes in the order of [map_to_list]; [sort_by_key] is a stable merge sort. *)

Definition by_age {K V} (age : V → Z) (a b : K * V) : Prop := age a.2 <= age b.2.

#[export] Instance by_age_dec {K V} (age : V → Z) : RelDecision (by_age (K := K) age) :=
  fun a b => decide (age a.2 <= age b.2).

(** The entries of the lowest [age] a table has beyond [MAX_STREAM_ENTRIES]. *)
Definition oldest {K V} `{Countable K} (age : V → Z) (M : gmap K V) : list (K * V) :=
  let excess := (size M - Z.to_nat MAX_STREAM_ENTRIES)%nat in
  take excess (merge_sort (by_age age) (map_to_list M)).

Definition without {K V W} `{Countable K} (l : list (K * W)) (M : gmap K V) : gmap K V :=
  foldr (fun kv M => delete kv.1 M) M l.

Section Sweep.
Context {net table : Type} (sizeof_request : Z).

Notation direction := (Http2Direction (table := table)).
Notation conn := (Http2Conn (net := net) (h2dir := direction)).
Notation queue := (PendingQueue net).
Notation unanswered := (list (ParsedRequest net * string)).
Notation handler := (handler net table).

#[local] Existing Instance Http2Conn_fields.

(** ["HTTP/3"] or ["HTTP/1.1"]. *)
Definition queue_protocol (h3 : gset ConnKey) (k : ConnKey) : string :=
  (if bool_decide (k ∈ h3) then "HTTP/3" else "HTTP/1.1")%string.

Definition labelled (protocol : string) (reqs : list (ParsedRequest net)) : unanswered :=
  (fun r => (r, protocol)) <$> reqs.

(** [expire_take] or [take_all] on every queue. *)
Fixpoint sweep_queues (take : queue → memory → list (ParsedRequest net) * queue * memory)
    (h3 : gset ConnKey) (l : list (ConnKey * queue)) (m : memory)
    : unanswered * list (ConnKey * queue) * memory :=
  match l with
  | [] => ([], [], m)
  | (k, q) :: l' =>
      let '(out, q, m) := take q m in
      let '(reqs, qs, m) := sweep_queues take h3 l' m in
      (labelled (queue_protocol h3 k) out ++ reqs, (k, q) :: qs, m)
  end.

Definition idle (now_ms : Z) (c : conn) : bool := STREAM_TTL_MS <=? saturating_sub now_ms (hc_last_event_ts c).

(** One round of the loop over [http2_state]. *)
Definition sweep_conn (now_ms : Z) (c : conn) (m : memory)
    : list (ParsedRequest net) * Z * conn * memory :=
  let '(reqs, ps, m) :=
    if idle now_ms c then ps_take_all sizeof_request (hc_pending_requests c) m
    else ps_expire_take sizeof_request now_ms STREAM_TTL_MS (hc_pending_requests c) m in
  let '(gone, rs, m) := is_expire ps (hc_responses c) m in
  (reqs, gone, c <| hc_pending_requests := ps |> <| hc_responses := rs |>, m).

(** The request queue of a connection, emptied. *)
Definition drain_conn (c : conn) (m : memory) : list (ParsedRequest net) * Z * conn * memory :=
  let '(reqs, ps, m) := ps_take_all sizeof_request (hc_pending_requests c) m in
  (reqs, 0, c <| hc_pending_requests := ps |>, m).

Fixpoint sweep_conns (take : conn → memory → list (ParsedRequest net) * Z * conn * memory)
    (l : list (ConnKey * conn)) (m : memory) : unanswered * Z * list (ConnKey * conn) * memory :=
  match l with
  | [] => ([], 0, [], m)
  | (k, c) :: l' =>
      let '(out, gone, c, m) := take c m in
      let '(reqs, gone', cs, m) := sweep_conns take l' m in
      (labelled "HTTP/2" out ++ reqs, gone + gone', (k, c) :: cs, m)
  end.

(** Keep the entries [old] does not hold of, and drop the others. *)
Definition retain_dropping {K V} `{Countable K} (old : V → bool) (drop : memory → V → memory)
    (f : tables net table → gmap K V) (set : gmap K V → tables net table → tables net table) : handler unit :=
  M ← gets f;
  let gone := filter (fun kv => old kv.2 = true) M in
  _ ← releasing (fun m => fold_left drop (map_to_list gone).*2 m);
  upd (set (filter (fun kv => old kv.2 = false) M)).

(** The connections something still waits on. *)
Definition still_active (s : tables net table) (k : ConnKey) : bool :=
  bool_decide (is_Some (pending s !! k)) || bool_decide (is_Some (http2_state s !! k)) ||
  bool_decide (k ∈ ws_connections s) || bool_decide (k ∈ http3_connections s).

Definition born_key (k : ConnKey) : Z * Z * Z * Z :=
  (ck_pid k, ck_ssl_ptr k, ck_proc_start_ns k, ck_generation k).

Definition stream_born_key (k : StreamKey) : Z * Z * Z * Z :=
  (sk_pid k, sk_ssl_ptr k, sk_proc_start_ns k, sk_generation k).

(** Forget the connections nothing waits on, with all that is kept for them. *)
Definition forget_inactive : handler unit :=
  s ← gets id;
  let gone := filter (fun k => still_active s k = false) (known_connections s) in
  let known := filter (fun k => still_active s k = true) (known_connections s) in
  _ ← emit [Count ACTIVE_CONNECTIONS (- Z.of_nat (size gone))];
  let ws := filter (fun k => k ∈ known) (ws_connections s) in
  let ws_streams := set_map (D := gset _) born_key ws in
  upd (fun s => s
    <| conn_born_ms := foldr (fun k M => delete (born_key k) M) (conn_born_ms s) (elements gone) |>
    <| known_connections := known |>
    <| ws_connections := ws |>
    <| http3_connections := filter (fun k => k ∈ known) (http3_connections s) |>
    <| conn_roles := filter (fun kv => kv.1 ∈ known) (conn_roles s) |>
    <| gapped_streams := if MAX_STREAM_ENTRIES <? Z.of_nat (size (gapped_streams s)) then ∅
                         else gapped_streams s |>
    <| h1_decoders := filter (fun kv => is_Some (buffers s !! kv.1)) (h1_decoders s) |>
    <| h2_prefix := filter (fun kv => kv.1 ∈ known) (h2_prefix s) |>
    <| ws_remaining := filter (fun kv => stream_born_key kv.1 ∈ ws_streams) (ws_remaining s) |>).

(** [incomplete_events], with what becomes of the requests. *)
Definition report_incomplete (reqs : unanswered) (outcome : string) : handler unit :=
  out ← charging (incomplete_events reqs);
  emit ((fun rp => Incomplete rp.1 rp.2 outcome) <$> out).

Definition evict_buffers (now_ms : Z) : handler Z :=
  M ← gets buffers;
  let kept := filter (fun kb => saturating_sub now_ms kb.2.2 < STREAM_TTL_MS) M in
  _ ← upd (fun s => s <| buffers := kept |>);
  mret (map_sum (fun b => zlen b.1) M - map_sum (fun b => zlen b.1) kept).

(** The tables never hold much more than [MAX_STREAM_ENTRIES] buffers and connections. *)
Definition cap_buffers : handler Z :=
  M ← gets buffers;
  let gone := oldest snd M in
  _ ← upd (fun s => s <| buffers := without gone M |>);
  mret (zsum (fun kb => zlen kb.2.1) gone).

Definition cap_conns : handler unit :=
  M ← gets http2_state;
  let gone := oldest hc_last_event_ts M in
  _ ← releasing (fun m => fold_left drop_conn gone.*2 m);
  upd (fun s => s <| http2_state := without gone M |>).

Definition expire_all (now_ms : Z) : handler unit :=
  freed ← evict_buffers now_ms;
  h3 ← gets http3_connections;
  qs ← gets pending;
  '(reqs1, qs) ← charging (sweep_queues (pq_expire_take sizeof_request now_ms STREAM_TTL_MS) h3 (map_to_list qs));
  _ ← upd (fun s => s <| pending := list_to_map qs |>);
  cs ← gets http2_state;
  '(reqs2, gone, cs) ← charging (sweep_conns (sweep_conn now_ms) (map_to_list cs));
  _ ← upd (fun s => s <| http2_state := list_to_map cs |>);
  _ ← retain_dropping (idle now_ms) drop_conn http2_state (fun M s => s <| http2_state := M |>);
  _ ← retain_dropping (fun e => STREAM_TTL_MS <=? saturating_sub now_ms (er_seen_ms e)) drop_early
        h2_early_resp (fun M s => s <| h2_early_resp := M |>);
  let reqs := reqs1 ++ reqs2 in
  let expired := gone + zlen reqs in
  _ ← when_ (0 <? expired) (emit [Count PENDING_EXPIRED expired]);
  _ ← retain_dropping (fun q => zlen (pq_items q) =? 0) drop_queue pending (fun M s => s <| pending := M |>);
  _ ← report_incomplete reqs "no_response_observed";
  freed' ← cap_buffers;
  _ ← cap_conns;
  _ ← releasing (release_memory (freed + freed'));
  forget_inactive.

Definition evict_stale (now_ms : Z) : handler unit := fun s m =>
  if saturating_sub now_ms (last_eviction_ms s) <? 10000 then (Some tt, [], s, m)
  else expire_all now_ms (s <| last_eviction_ms := now_ms |>) m.

(** Every request still waiting, when the sensor stops. *)
Definition take_all_incomplete (outcome : string) : handler unit :=
  h3 ← gets http3_connections;
  qs ← gets pending;
  '(reqs1, qs) ← charging (sweep_queues (pq_take_all sizeof_request) h3 (map_to_list qs));
  cs ← gets http2_state;
  '(reqs2, _, cs) ← charging (sweep_conns drain_conn (map_to_list cs));
  _ ← upd (fun s => s <| http2_state := list_to_map cs |>);
  _ ← releasing (fun m => fold_left drop_queue qs.*2 m);
  _ ← upd (fun s => s <| pending := ∅ |>);
  report_incomplete (reqs1 ++ reqs2) outcome.
End Sweep.
