(* ===== verification/Handle.v ===== *)
(** The way of a record through a shard of the reader: [handle_event] of [userspace/src/stream.rs],
    from the scope check over the recognition of the protocol to the queues of the connection.

    The parts of the function are definitions in the order of the code. A chunk with HTTP/1 goes to
    the decoder of its direction; [Http1.feed] always returns ([Http1Props.feed_loop_enough]), so
    the case in which it does not is never taken. *)

From S2P Require Import Prelude Abi.
From S2P Require Import Wire Pending Memory Queues Text Http1 Http1Props Http2 Codecs Mcp Reader H2Conn.
From S2P Require Import Shard.
From Stdlib Require Import Strings.String.

#[local] Notation length := List.length.
#[local] Open Scope list_scope.
#[local] Open Scope Z_scope.

Section Handle.
Context {net table : Type} `{Unicode, Json} (sizeof_request : Z).
Context (hpack_new : table) (hpack_decode : table → bytes → hpack_result * table).
Context (cf : config).

Notation direction := (Http2Direction (table := table)).
Notation conn := (Http2Conn (net := net) (h2dir := direction)).
Notation handler := (handler net table).
Notation max_total := (cf_max_total_buffer_bytes cf).
Notation surroundings := (surroundings net).

#[local] Existing Instance Http2Conn_fields.

(** * Scope, connection, role *)

(** [scope_allows]: without a scope everything is let through; within one, only what is known to run
    in one of its namespaces. *)
Definition check_scope (w : surroundings) : handler unit :=
  match cf_namespace_scope cf with
  | None => mret tt
  | Some allowed =>
      match w_namespace w with
      | Some ns => if bool_decide (ns ∈ allowed) then mret tt
                   else _ ← count EVENTS_OUT_OF_SCOPE; stop
      | None => _ ← count EVENTS_OUT_OF_SCOPE; _ ← count EVENTS_SCOPE_UNRESOLVED; stop
      end
  end.

(** When the connection of the event was first seen. *)
Definition first_seen (ev : tls_event_hdr) (ts_ms : Z) : handler Z :=
  let k := (h_pid ev, h_ssl_ptr ev, h_proc_start_ns ev, h_conn_generation ev) in
  born ← gets (fun s => conn_born_ms s !! k);
  match born with
  | Some born_ms => mret born_ms
  | None => _ ← upd (fun s => s <| conn_born_ms := <[k := ts_ms]> (conn_born_ms s) |>); mret ts_ms
  end.

Definition track (conn_key : ConnKey) : handler unit :=
  known ← gets known_connections;
  if bool_decide (conn_key ∈ known) then mret tt else
  _ ← upd (fun s => s <| known_connections := {[conn_key]} ∪ known_connections s |>);
  count ACTIVE_CONNECTIONS.

Definition request_direction (conn_key : ConnKey) (ev : tls_event_hdr) (payload : bytes)
    : handler (option Z) :=
  match cf_role cf with
  | Server => mret (Some 0)
  | Client => mret (Some 1)
  | Auto =>
      roles ← gets conn_roles;
      match roles !! conn_key with
      | Some dir => mret (Some dir)
      | None =>
          match infer_request_direction (h_direction ev) (h_role_hint ev) payload with
          | None => mret None
          | Some dir =>
              _ ← when_ (Z.of_nat (size roles) <? MAX_STREAM_ENTRIES)
                    (upd (fun s => s <| conn_roles := <[conn_key := dir]> (conn_roles s) |>));
              mret (Some dir)
          end
      end
  end.

(** Whether the chunk goes from the client to the server. Settings of a server may come before its
    client has been heard of. *)
Definition in_request_direction (conn_key : ConnKey) (ev : tls_event_hdr) (payload : bytes) : handler bool :=
  dir ← request_direction conn_key ev payload;
  match dir with
  | Some dir => mret (h_direction ev =? dir)
  | None => if looks_like_h2_connection_frames payload then mret false
            else _ ← count ROLE_AMBIGUOUS; stop
  end.

(** The buffered bytes of a direction are lost. *)
Definition discard_buffer (stream_key : StreamKey) : handler unit :=
  old ← gets (fun s => buffers s !! stream_key);
  match old with
  | None => mret tt
  | Some (buf, _) =>
      _ ← upd (fun s => s <| buffers := delete stream_key (buffers s) |>);
      releasing (release_memory (zlen buf))
  end.

(** The buffer stays, empty. *)
Definition clear_buffer (stream_key : StreamKey) : handler unit :=
  old ← gets (fun s => buffers s !! stream_key);
  match old with
  | None => mret tt
  | Some (buf, seen) =>
      _ ← releasing (release_memory (zlen buf));
      upd (fun s => s <| buffers := <[stream_key := ([], seen)]> (buffers s) |>)
  end.

(** Parsing goes on with the next chunk that begins a message. *)
Definition mark_gap (stream_key : StreamKey) : handler unit :=
  upd (fun s => s <| h1_decoders := delete stream_key (h1_decoders s) |>
                  <| gapped_streams := {[stream_key]} ∪ gapped_streams s |>).

(** The kernel cut the record short. *)
Definition on_truncated (conn_key : ConnKey) (stream_key : StreamKey) : handler unit :=
  _ ← count CAPTURE_GAPS;
  h2 ← gets (fun s => http2_state s !! conn_key);
  match h2 with
  | Some c =>
      _ ← upd (fun s => s <| http2_state := delete conn_key (http2_state s) |>);
      _ ← releasing (fun m => drop_conn m c);
      stop
  | None => _ ← discard_buffer stream_key; mark_gap stream_key
  end.

(** * HTTP/2 *)

(** [process_http2_event] on the connection of the key, which it creates. *)
Definition http2_event (w : surroundings) (conn_key : ConnKey) (payload : bytes) (is_request_dir : bool)
    : handler unit :=
  known ← gets (fun s => http2_state s !! conn_key);
  let c := default (Http2Conn_default hpack_new) known in
  '(out, c) ← charging (process_http2_event sizeof_request hpack_new hpack_decode max_total
                           payload (w_now_ms w) is_request_dir (w_net_ctx w) c);
  _ ← upd (fun s => s <| http2_state := <[conn_key := c]> (http2_state s) |>);
  emit ((fun o => match o with
                  | Emit t => Event t None
                  | SkipUnpaired => Count UNPAIRED_RESPONSES 1
                  end) <$> out).

(** A first chunk that may still become the preface was held back; it goes in front of this one. *)
Definition join_prefix (conn_key : ConnKey) (is_request_dir : bool) (payload : bytes) : handler bytes :=
  if is_request_dir then
    held ← gets (fun s => h2_prefix s !! conn_key);
    _ ← upd (fun s => s <| h2_prefix := delete conn_key (h2_prefix s) |>);
    mret (default [] held ++ payload)
  else mret payload.

Definition hold_prefix (conn_key : ConnKey) (stream_key : StreamKey) (is_request_dir is_known_h2 : bool)
    (payload : bytes) : handler unit :=
  s ← gets id;
  if negb is_known_h2 && is_request_dir && negb (zlen payload =? 0) &&
     (zlen payload <? zlen HTTP2_PREFACE) && starts_with payload HTTP2_PREFACE &&
     bool_decide (buffers s !! stream_key = None) &&
     (Z.of_nat (size (h2_prefix s)) <? MAX_H2_EARLY_CONNS)
  then _ ← upd (fun s => s <| h2_prefix := <[conn_key := payload]> (h2_prefix s) |>); stop
  else mret tt.

(** Frames of a server whose client has not been heard of are kept for the connection. *)
Definition hold_early (w : surroundings) (conn_key : ConnKey) (payload : bytes) : handler unit :=
  early ← gets h2_early_resp;
  if bool_decide (early !! conn_key = None) && (MAX_H2_EARLY_CONNS <=? Z.of_nat (size early))
  then _ ← releasing count_drop; stop else
  let e := default {| er_data := []; er_seen_ms := w_now_ms w; er_charge := 0 |} (early !! conn_key) in
  e ← (if zlen (er_data e) + zlen payload <=? MAX_H2_EARLY_BYTES then
         '(ok, charge) ← charging (pb_add max_total (zlen payload) (er_charge e));
         mret {| er_data := if ok : bool then er_data e ++ payload else er_data e;
                 er_seen_ms := er_seen_ms e; er_charge := charge |}
       else mret e);
  let e := {| er_data := er_data e; er_seen_ms := w_now_ms w; er_charge := er_charge e |} in
  _ ← upd (fun s => s <| h2_early_resp := <[conn_key := e]> (h2_early_resp s) |>);
  stop.

(** The frames kept for it, when the client opens the connection. *)
Definition replay_early (w : surroundings) (conn_key : ConnKey) : handler unit :=
  early ← gets (fun s => h2_early_resp s !! conn_key);
  match early with
  | None => mret tt
  | Some e =>
      _ ← upd (fun s => s <| h2_early_resp := delete conn_key (h2_early_resp s) |>);
      _ ← when_ (negb (zlen (er_data e) =? 0)) (http2_event w conn_key (er_data e) false);
      releasing (fun m => drop_early m e)
  end.

Definition http2_path (w : surroundings) (conn_key : ConnKey) (stream_key : StreamKey)
    (is_request_dir is_known_h2 : bool) (payload : bytes) : handler unit :=
  s ← gets id;
  let starts_h2 := negb is_known_h2 && is_request_dir && starts_with HTTP2_PREFACE payload &&
                   bool_decide (buffers s !! stream_key = None) in
  if negb is_known_h2 && negb is_request_dir && looks_like_h2_connection_frames payload
  then hold_early w conn_key payload
  else
    _ ← when_ starts_h2 (replay_early w conn_key);
    if is_known_h2 || starts_h2
    then _ ← http2_event w conn_key payload is_request_dir; stop
    else mret tt.

(** * The queue of a connection *)

Definition queue_of (conn_key : ConnKey) : handler (PendingQueue net) :=
  gets (fun s => default pq_default (pending s !! conn_key)).

Definition set_queue (conn_key : ConnKey) (q : PendingQueue net) : handler unit :=
  upd (fun s => s <| pending := <[conn_key := q]> (pending s) |>).

Definition push_request (conn_key : ConnKey) (r : ParsedRequest net) : handler unit :=
  q ← queue_of conn_key;
  '(_, q) ← charging (pq_push sizeof_request r max_total q);
  set_queue conn_key q.

(** The request a response answers, if there is one. *)
Definition pop_request (conn_key : ConnKey) : handler (option (ParsedRequest net)) :=
  q ← queue_of conn_key;
  '(r, q) ← charging (pq_pop_usable sizeof_request q);
  _ ← set_queue conn_key q;
  _ ← when_ (bool_decide (r = None)) (count UNPAIRED_RESPONSES);
  mret r.

Definition answered (w : surroundings) (r : ParsedRequest net) (resp : HttpResponseParsed)
    (protocol : string) (metadata : option McpEvent) : handler unit :=
  emit [Event {| tx_request := r; tx_response := resp;
                 tx_latency_ms := saturating_sub (w_now_ms w) (pr_ts_ms r);
                 tx_protocol := protocol; tx_grpc := None |} metadata].

(** * HTTP/3 *)

Definition h3_headers (w : surroundings) (conn_key : ConnKey) (is_request_dir : bool) (hs : headers)
    : handler unit :=
  if is_request_dir then
    match header_get (lit ":method") hs with
    | Some method =>
        let path := default (lit "/") (header_get (lit ":path") hs) in
        when_ (is_usable_http_request method path)
          (push_request conn_key
             {| pr_method := method; pr_path := path; pr_host := header_get (lit ":authority") hs;
                pr_headers := hs; pr_ts_ms := w_now_ms w; pr_net_ctx := w_net_ctx w; pr_body := [] |})
    | None => mret tt
    end
  else
    match header_get (lit ":status") hs with
    | Some status =>
        r ← pop_request conn_key;
        match r with
        | Some r => answered w r {| rs_status_code := default 0 (parse_i32 (chars status));
                                    rs_headers := hs; rs_body := [] |} "HTTP/3" None
        | None => mret tt
        end
    | None => mret tt
    end.

Fixpoint each {A} (f : A → handler unit) (l : list A) : handler unit :=
  match l with
  | [] => mret tt
  | a :: l' => _ ← f a; each f l'
  end.

Definition http3_path (w : surroundings) (conn_key : ConnKey) (is_request_dir is_known_h2 : bool)
    (payload : bytes) : handler unit :=
  h3 ← gets http3_connections;
  if bool_decide (conn_key ∈ h3) || (negb is_known_h2 && looks_like_http3 payload) then
    _ ← upd (fun s => s <| http3_connections := {[conn_key]} ∪ http3_connections s |>);
    _ ← each (h3_headers w conn_key is_request_dir) (extract_h3_headers payload);
    stop
  else mret tt.

(** * WebSocket *)

(** The loop over the frames of a chunk: what is still to come of the last one is left. *)
Fixpoint ws_frames (fuel : nat) (payload : bytes) (frames : Z) : Z * Z :=
  match fuel with
  | O => (frames, 0)
  | S fuel =>
      if zlen payload =? 0 then (frames, 0) else
      match parse_websocket_frame payload with
      | Some (_, consumed) =>
          if consumed =? 0 then (frames, 0)
          else if zlen payload <? consumed then (frames + 1, consumed - zlen payload)
          else ws_frames fuel (zdrop consumed payload) (frames + 1)
      | None => (frames, 0)
      end
  end.

Definition ws_path (conn_key : ConnKey) (stream_key : StreamKey) (payload : bytes) : handler unit :=
  ws ← gets ws_connections;
  if bool_decide (conn_key ∈ ws) then
    remaining ← gets (fun s => ws_remaining s !! stream_key);
    _ ← upd (fun s => s <| ws_remaining := delete stream_key (ws_remaining s) |>);
    let pos := Z.min (default 0 remaining) (zlen payload) in
    let missing := default 0 remaining - pos in
    let '(frames, missing) :=
      if missing =? 0 then ws_frames (length payload) (zdrop pos payload) 0 else (0, missing) in
    _ ← emit [Count PROTO_WEBSOCKET frames];
    s ← gets id;
    _ ← when_ ((0 <? missing) && (Z.of_nat (size (ws_remaining s)) <? MAX_STREAM_ENTRIES))
          (upd (fun s => s <| ws_remaining := <[stream_key := missing]> (ws_remaining s) |>));
    stop
  else mret tt.

(** * HTTP/1 *)

(** Behind a gap only a chunk that begins a message is parsed. *)
Definition resynchronise (ev : tls_event_hdr) (stream_key : StreamKey) (payload : bytes) : handler unit :=
  gapped ← gets gapped_streams;
  if bool_decide (stream_key ∈ gapped) then
    if negb (starts_http1_message payload) || is_truncated ev then stop
    else upd (fun s => s <| gapped_streams := gapped_streams s ∖ {[stream_key]} |>)
  else mret tt.

(** The chunk is charged, appended to the buffer of its direction and decoded; what the decoder has
    read is given back. *)
Definition http1_decode (w : surroundings) (conn_key : ConnKey) (stream_key : StreamKey)
    (is_request_dir : bool) (payload : bytes) : handler (list Http1Item) :=
  q ← gets (fun s => pending s !! conn_key);
  let '(head_resp, connect_resp) :=
    if is_request_dir then (false, false)
    else match q with Some q => front_is_head_or_connect q | None => (false, false) end in
  old ← gets (fun s => buffers s !! stream_key);
  let buf := default [] (fst <$> old) in
  let set_buffer buf := upd (fun s => s <| buffers := <[stream_key := (buf, w_now_ms w)]> (buffers s) |>) in
  _ ← set_buffer buf;
  ok ← charging (reserve_memory max_total (zlen payload));
  if negb ok then _ ← releasing count_drop; stop else
  let buf := buf ++ payload in
  _ ← set_buffer buf;
  if cf_max_buffer cf <? zlen buf then
    _ ← clear_buffer stream_key;
    _ ← count CAPTURE_GAPS;
    _ ← mark_gap stream_key;
    stop
  else
    decoders ← gets h1_decoders;
    let decoder := default (Http1Decoder_new MAX_BODY_CAPTURE_BYTES) (decoders !! stream_key) in
    match Http1.feed decoder buf head_resp connect_resp with
    | None => stop
    | Some (consumed, items, decoder) =>
        _ ← upd (fun s => s <| h1_decoders := <[stream_key := decoder]> (h1_decoders s) |>);
        _ ← set_buffer (zdrop consumed buf);
        _ ← releasing (release_memory consumed);
        mret items
    end.

(** The messages before the first framing error, at which the direction starts over. *)
Fixpoint messages (stream_key : StreamKey) (items : list Http1Item) : handler (list HttpMessage) :=
  match items with
  | [] => mret []
  | Message m :: items' =>
      _ ← when_ (hm_body_truncated m || hm_partial m) (count BODIES_TRUNCATED);
      msgs ← messages stream_key items';
      mret (hm_msg m :: msgs)
  | Invalid _ :: _ =>
      _ ← count H1_PARSE_ERRORS;
      _ ← clear_buffer stream_key;
      _ ← mark_gap stream_key;
      mret []
  end.

Definition on_request (w : surroundings) (conn_key : ConnKey) (is_request_dir : bool)
    (req : HttpRequestParsed) : handler unit :=
  when_ (is_request_dir && is_usable_http_request (rq_method req) (rq_path req))
    (push_request conn_key
       {| pr_method := rq_method req; pr_path := rq_path req; pr_host := rq_host req;
          pr_headers := rq_headers req; pr_ts_ms := w_now_ms w; pr_net_ctx := w_net_ctx w;
          pr_body := rq_body req |}).

Definition on_response (w : surroundings) (conn_key : ConnKey) (is_request_dir : bool) (payload : bytes)
    (resp : HttpResponseParsed) : handler unit :=
  let code := rs_status_code resp in
  if is_request_dir then mret tt
  else if (100 <=? code) && (code <? 200) && negb (code =? 101) then mret tt
  else
    let upgrade := bool_decide ((fun v => to_lowercase (chars v)) <$>
                                header_get (lit "upgrade") (rs_headers resp) = Some (clit "websocket")) in
    _ ← when_ upgrade (upd (fun s => s <| ws_connections := {[conn_key]} ∪ ws_connections s |>));
    r ← pop_request conn_key;
    match r with
    | None => mret tt
    | Some r =>
        let request_calls := parse_jsonrpc_request (pr_body r) in
        let mcp_events :=
          if negb (zlen request_calls =? 0) then request_calls
          else if is_mcp_response (rs_headers resp)
          then parse_sse_events (if zlen (rs_body resp) =? 0 then payload else rs_body resp)
          else [] in
        let is_mcp := negb (zlen mcp_events =? 0) in
        let protocol := (if is_mcp then "MCP" else if upgrade then "WebSocket" else "HTTP/1.1")%string in
        answered w r resp protocol (head mcp_events)
    end.

Definition on_message (w : surroundings) (conn_key : ConnKey) (is_request_dir : bool) (payload : bytes)
    (msg : HttpMessage) : handler unit :=
  match msg with
  | Request req => on_request w conn_key is_request_dir req
  | Response resp => on_response w conn_key is_request_dir payload resp
  end.

Definition http1_path (w : surroundings) (ev : tls_event_hdr) (conn_key : ConnKey) (stream_key : StreamKey)
    (is_request_dir : bool) (payload : bytes) : handler unit :=
  _ ← resynchronise ev stream_key payload;
  items ← http1_decode w conn_key stream_key is_request_dir payload;
  msgs ← messages stream_key items;
  each (on_message w conn_key is_request_dir payload) msgs.

(** * A record *)

Definition handle_event (w : surroundings) (ev : tls_event_hdr) (payload : bytes) : handler unit :=
  _ ← check_scope w;
  let ts_ms := w_now_ms w in
  born_ms ← first_seen ev ts_ms;
  let conn_key := ConnKey_from_event ev born_ms in
  let stream_key := StreamKey_from_event ev in
  _ ← evict_stale sizeof_request ts_ms;
  _ ← track conn_key;
  is_request_dir ← in_request_direction conn_key ev payload;
  _ ← when_ (is_truncated ev) (on_truncated conn_key stream_key);
  is_known_h2 ← gets (fun s => bool_decide (is_Some (http2_state s !! conn_key)));
  payload ← join_prefix conn_key is_request_dir payload;
  _ ← hold_prefix conn_key stream_key is_request_dir is_known_h2 payload;
  _ ← http2_path w conn_key stream_key is_request_dir is_known_h2 payload;
  if zlen payload =? 0 then mret tt else
  _ ← http3_path w conn_key is_request_dir is_known_h2 payload;
  _ ← ws_path conn_key stream_key payload;
  http1_path w ev conn_key stream_key is_request_dir payload.

(** The close of a connection: [evict_connection_by_ptr], its reports and its step of the gauge. *)
Definition evict_connection (key : ConnKey) : handler unit := fun s m =>
  let '(reqs, t, m) := evict_connection_by_ptr sizeof_request key (sh s) m in
  let evicted := Z.of_nat (size (known_connections (sh s))) - Z.of_nat (size (known_connections t)) in
  (Some tt, Count ACTIVE_CONNECTIONS (- evicted) ::
            ((fun rp => Incomplete rp.1 rp.2 "connection_closed") <$> reqs), s <| sh := t |>, m).
End Handle.
