(* ===== verification/ShardMem.v ===== *)
(** The memory counter of the reader and the tables of a shard: every byte a shard is charged for is
    in one of its tables, whatever it handles. *)

From S2P Require Import Prelude Abi.
From S2P Require Import Wire Pending Memory Queues Text Http1 Http1Props Http2 Http2Props.
From S2P Require Import Codecs Mcp Reader ReaderProps H2Conn Shard Handle.
From stdpp Require Import sorting.
From Stdlib Require Import Strings.String.

#[local] Notation length := List.length.
#[local] Open Scope list_scope.
#[local] Open Scope Z_scope.

#[local] Notation total := TOTAL_BUFFER_BYTES.

(** * Sums over tables *)

Section Sums.
Context {A : Type} `{Countable K} (f : A → Z).
Implicit Types M : gmap K A.

Lemma map_sum_at M k :
  map_sum f M = match M !! k with Some v => f v | None => 0 end + map_sum f (delete k M).
Proof.
  destruct (M !! k) as [v|] eqn:E; [by apply map_sum_delete|]. by rewrite delete_id by done.
Qed.

Lemma map_sum_put M k v : map_sum f (<[k := v]> M) = f v + map_sum f (delete k M).
Proof. rewrite (map_sum_at _ k), lookup_insert_eq. by rewrite delete_insert_eq. Qed.

Lemma zsum_fmap {B} (g : B → A) (l : list B) : zsum f (g <$> l) = zsum (fun b => f (g b)) l.
Proof. induction l as [|b l IH]; [done|]. cbn [fmap list_fmap]. by rewrite !zsum_cons, IH. Qed.

(** What a table keeps is no more than it had. *)
Lemma map_sum_subseteq M' M : (∀ k v, M !! k = Some v → 0 <= f v) → M' ⊆ M → map_sum f M' <= map_sum f M.
Proof.
  intros Hpos. revert M Hpos. induction M' as [|k v M' Hk IH] using map_ind; intros M Hpos Hsub.
  { rewrite map_sum_empty. by apply map_sum_nonneg. }
  assert (M !! k = Some v) as Hv by (eapply lookup_weaken; [apply lookup_insert_eq|done]).
  rewrite map_sum_insert, (map_sum_delete f M k v) by done.
  enough (map_sum f M' <= map_sum f (delete k M)) by lia. apply IH.
  - intros k' v' [_ Hv']%lookup_delete_Some. by eapply Hpos.
  - apply map_subseteq_spec. intros k' v' Hv'. assert (k' ≠ k) as Hne by congruence.
    rewrite lookup_delete_ne by done. eapply lookup_weaken; [|done]. by rewrite lookup_insert_ne.
Qed.

(** A table rebuilt from a list of its own keys. *)
Lemma map_sum_of_list (l : list (K * A)) : NoDup l.*1 → map_sum f (list_to_map l) = zsum (fun kv => f kv.2) l.
Proof.
  induction l as [|[k v] l IH]; [done|]. cbn [fmap list_fmap fst]. intros [Hk Hl]%NoDup_cons.
  cbn [list_to_map foldr uncurry fst snd]. rewrite zsum_cons, map_sum_insert; [by rewrite <- IH|].
  by apply not_elem_of_list_to_map_1.
Qed.

Lemma map_sum_without (l : list (K * A)) M :
  NoDup l.*1 → Forall (fun kv => M !! kv.1 = Some kv.2) l →
  map_sum f M = zsum (fun kv => f kv.2) l + map_sum f (without l M).
Proof.
  induction l as [|[k v] l IH]; [done|]. cbn [fmap list_fmap fst]. intros [Hk Hl]%NoDup_cons [Hv HM]%Forall_cons.
  rewrite zsum_cons, (IH Hl HM). change (without ((k, v) :: l) M) with (delete k (without l M)).
  rewrite (map_sum_delete _ (without l M) k v); [cbn; lia|].
  clear IH Hl HM. induction l as [|[k' v'] l IH]; [done|]. change (without ((k', v') :: l) M) with (delete k' (without l M)).
  cbn [fmap list_fmap fst] in Hk. apply not_elem_of_cons in Hk as [Hne Hk].
  rewrite lookup_delete_ne by done. by apply IH.
Qed.
End Sums.

Lemma oldest_in {K V} `{Countable K} (age : V → Z) (M : gmap K V) :
  NoDup (oldest age M).*1 ∧ Forall (fun kv => M !! kv.1 = Some kv.2) (oldest age M).
Proof.
  unfold oldest. set (l := merge_sort _ _).
  assert (l ≡ₚ map_to_list M) as Hl by apply merge_sort_Permutation.
  split.
  - rewrite fmap_take. apply (sublist_NoDup _ l.*1); [|apply sublist_take].
    rewrite Hl. apply NoDup_fst_map_to_list.
  - apply Forall_take. apply list.Forall_forall. intros [k v] Hin. rewrite Hl in Hin.
    by apply elem_of_map_to_list.
Qed.

(** * Handlers that keep the books

    [R] is what the rest of the process is charged for, [e] what was taken out of the tables and is
    not given back yet. *)

Section Books.
Context {net table : Type} (sizeof_request : Z) (Hsize : 0 <= sizeof_request) (max_total R : Z).

Notation direction := (Http2Direction (table := table)).
Notation conn := (Http2Conn (net := net) (h2dir := direction)).
Notation shard := (shard net table).
Notation handler := (handler net table).

#[local] Instance queues : Holder (PendingQueue net) := queue_holder sizeof_request.
#[local] Instance conns : Holder conn := conn_holder sizeof_request.

Implicit Types (s : shard) (t : tables net table).

(** Every queue, connection and early chunk is charged for exactly what it holds, and no decoder
    waits for a negative number of bytes. *)
Definition exact_tables t : Prop :=
  map_Forall (fun _ => exact) (pending t) ∧ map_Forall (fun _ => exact) (http2_state t) ∧
  map_Forall (fun _ e => er_charge e = zlen (er_data e)) (h2_early_resp t) ∧
  map_Forall (fun _ d => state_wf (h1_state d)) (h1_decoders t).

Definition owes (e : Z) s (m : memory) : Prop :=
  0 <= R ∧ 0 <= e ∧ total m = R + e + charged_bytes (sh s) ∧ exact_tables (sh s).

(** From [e] and [s] the handler comes to a result with [Φ], or stops owing nothing. *)
Definition wp {A} (h : handler A) (Φ : A → Z → shard → Prop) (e : Z) s : Prop :=
  ∀ m, owes e s m →
  let '(a, _, s', m') := h s m in
  within max_total m m' ∧
  match a with Some a => ∃ e', owes e' s' m' ∧ Φ a e' s' | None => owes 0 s' m' end.

Lemma keep_ret {A} (a : A) Φ e s : Φ a e s → wp (mret a) Φ e s.
Proof. intros HΦ m Hm. split; [apply within_refl|by exists e]. Qed.

Lemma keep_mono {A} (h : handler A) Φ Ψ e s : (∀ a e s, Φ a e s → Ψ a e s) → wp h Φ e s → wp h Ψ e s.
Proof.
  intros HΦ Hh m Hm. specialize (Hh m Hm). destruct (h s m) as [[[[a|] out] s'] m']; [|done].
  destruct Hh as (Hw & e' & Ho & Ha). split; [done|]. exists e'. split; [done|by apply HΦ].
Qed.

Lemma keep_bind {A B} (h : handler A) (f : A → handler B) Φ e s :
  wp h (fun a e s => wp (f a) Φ e s) e s → wp (h ≫= f) Φ e s.
Proof.
  intros Hh m Hm. specialize (Hh m Hm). unfold mbind, handler_bind.
  destruct (h s m) as [[[[a|] out] s'] m']; [|done]. destruct Hh as (Hw & e' & Ho & Ha).
  specialize (Ha m' Ho). destruct (f a s' m') as [[[[b|] out'] s2] m2]; destruct Ha as [Hw' Ha];
    (split; [by eapply within_trans|done]).
Qed.

Lemma keep_stop {A} (Φ : A → Z → shard → Prop) s : wp stop Φ 0 s.
Proof. intros m Hm. split; [apply within_refl|done]. Qed.

Lemma keep_emit out (Φ : unit → Z → shard → Prop) e s : Φ tt e s → wp (emit out) Φ e s.
Proof. intros HΦ m Hm. split; [apply within_refl|by exists e]. Qed.

Lemma keep_gets {A} (f : tables net table → A) Φ e s : Φ (f (sh s)) e s → wp (gets f) Φ e s.
Proof. intros HΦ m Hm. split; [apply within_refl|by exists e]. Qed.

(** What leaves the tables is owed. *)
Lemma keep_upd (f : tables net table → tables net table) (Φ : unit → Z → shard → Prop) e s :
  (exact_tables (sh s) → exact_tables (f (sh s)) ∧
    let e' := e + charged_bytes (sh s) - charged_bytes (f (sh s)) in
    (0 <= e → 0 <= e') ∧ Φ tt e' {| sh := f (sh s); last_eviction_ms := last_eviction_ms s |}) →
  wp (upd f) Φ e s.
Proof.
  intros Hf m (HR & He & Hm & Hex). destruct (Hf Hex) as (Hex' & Hpos & HΦ).
  split; [apply within_refl|]. eexists. split; [|exact HΦ].
  split_and!; [done|by apply Hpos|cbn; lia|done].
Qed.

(** Changes to what nothing is charged for; decoders may go. *)
Definition same_charges t t' : Prop :=
  buffers t' = buffers t ∧ pending t' = pending t ∧ http2_state t' = http2_state t ∧
  h2_early_resp t' = h2_early_resp t ∧ h1_decoders t' ⊆ h1_decoders t.

Lemma keep_upd_free (f : tables net table → tables net table) (Φ : unit → Z → shard → Prop) e s :
  same_charges (sh s) (f (sh s)) →
  Φ tt e {| sh := f (sh s); last_eviction_ms := last_eviction_ms s |} → wp (upd f) Φ e s.
Proof.
  intros (E1 & E2 & E3 & E4 & E5) HΦ. apply keep_upd. intros Hex.
  assert (charged_bytes (f (sh s)) = charged_bytes (sh s)) as ->.
  { unfold charged_bytes. by rewrite E1, E2, E3, E4. }
  split; [unfold exact_tables; rewrite E2, E3, E4|cbn zeta].
  { destruct Hex as (? & ? & ? & Hd). split_and!; [done..|].
    intros k d Hk. eapply Hd. by eapply lookup_weaken. }
  replace (e + _ - _) with e by lia. done.
Qed.

Lemma keep_count_drop (Φ : unit → Z → shard → Prop) e s : Φ tt e s → wp (releasing count_drop) Φ e s.
Proof. intros HΦ m Hm. split; [unfold within; cbn; lia|]. by exists e. Qed.

Lemma keep_when (b : bool) h (Φ : unit → Z → shard → Prop) e s :
  (b = true → wp h Φ e s) → (b = false → Φ tt e s) → wp (when_ b h) Φ e s.
Proof. intros Ht Hf. unfold when_. destruct b; [by apply Ht|by apply keep_ret, Hf]. Qed.

(** * One entry of a table *)

Lemma queue_nonneg (q : PendingQueue net) : exact q → 0 <= pq_bytes q.
Proof. by intros (_ & ? & _). Qed.

Lemma conn_nonneg (c : conn) : exact c → 0 <= conn_bytes c.
Proof. by intros (_ & ? & _). Qed.

Lemma early_nonneg e : er_charge e = zlen (er_data e) → 0 <= er_charge e.
Proof. intros ->. apply zlen_nonneg. Qed.

Lemma charged_nonneg t : exact_tables t → 0 <= charged_bytes t.
Proof.
  intros (Hq & Hc & He & _). unfold charged_bytes.
  pose proof (map_sum_nonneg (fun b => zlen b.1) (buffers t) (fun _ _ _ => zlen_nonneg _)).
  pose proof (map_sum_nonneg pq_bytes (pending t) (fun k q Hk => queue_nonneg q (Hq k q Hk))).
  pose proof (map_sum_nonneg conn_bytes (http2_state t) (fun k c Hk => conn_nonneg c (Hc k c Hk))).
  pose proof (map_sum_nonneg er_charge (h2_early_resp t) (fun k r Hk => early_nonneg r (He k r Hk))).
  lia.
Qed.

(** What is charged beside one entry is not negative. *)
Lemma others_nonneg t kb kq kc ke :
  exact_tables t →
  0 <= map_sum (fun b => zlen b.1) (delete kb (buffers t)) ∧
  0 <= map_sum pq_bytes (delete kq (pending t)) ∧
  0 <= map_sum conn_bytes (delete kc (http2_state t)) ∧
  0 <= map_sum er_charge (delete ke (h2_early_resp t)) ∧
  0 <= map_sum (fun b => zlen b.1) (buffers t) ∧ 0 <= map_sum pq_bytes (pending t) ∧
  0 <= map_sum conn_bytes (http2_state t) ∧ 0 <= map_sum er_charge (h2_early_resp t).
Proof.
  intros (Hq & Hc & He & _).
  split_and!; apply map_sum_nonneg; intros k v Hk; rewrite ?lookup_delete_Some in Hk;
    first [apply zlen_nonneg | apply queue_nonneg | apply conn_nonneg | apply early_nonneg];
    destruct_and?; first [by eapply Hq | by eapply Hc | by eapply He].
Qed.

Lemma queue_default_exact : exact (pq_default (net := net)).
Proof. split; [done|]. split; [done|]. split; [done|]. apply Forall_nil_2. Qed.

Lemma conn_default_exact (hpack_new : table) : exact (Http2Conn_default (net := net) hpack_new).
Proof.
  destruct (charged_conn sizeof_request 0 (Http2Conn_default (net := net) hpack_new)
    {| TOTAL_BUFFER_BYTES := 0; EVENTS_DROPPED := 0 |}) as (_ & _ & He); try done.
Qed.

Definition put_queue k q t : tables net table := t <| pending := <[k := q]> (pending t) |>.
Definition put_conn k c t : tables net table := t <| http2_state := <[k := c]> (http2_state t) |>.

Definition with_tables t s : shard := {| sh := t; last_eviction_ms := last_eviction_ms s |}.

Lemma owes_put_queue e s m k q' m' :
  keeps max_total (default pq_default (pending (sh s) !! k)) m q' m' → owes e s m →
  owes e (with_tables (put_queue k q' (sh s)) s) m' ∧ within max_total m m'.
Proof.
  intros Hk (HR & He & Hm & Hex). pose proof Hex as (Hq & Hc & Hr & Hdec).
  destruct (others_nonneg (sh s) (Build_StreamKey 0 0 0 0 0) k k k Hex) as (_ & Hd & _ & _ & Hb & _ & Hc' & He').
  set (q := default pq_default (pending (sh s) !! k)) in *.
  assert (exact q) as Hqe.
  { unfold q. destruct (pending (sh s) !! k) as [q0|] eqn:E; [exact (Hq k q0 E)|apply queue_default_exact]. }
  assert (match pending (sh s) !! k with Some v => pq_bytes v | None => 0 end = pq_bytes q) as Hv.
  { unfold q. by destruct (pending (sh s) !! k). }
  unfold charged_bytes in Hm. rewrite (map_sum_at pq_bytes _ k), Hv in Hm.
  destruct (Hk (total m - pq_bytes q)) as [(_ & Hm' & Hex') Hw]; [split_and!; [lia|cbn; lia|done..]|].
  split; [|done]. cbn in Hm'. split_and!; [done|done| |].
  - cbn. unfold charged_bytes. cbn. rewrite map_sum_put. lia.
  - split_and!; [|done..]. by apply map_Forall_insert_2.
Qed.

Lemma owes_put_conn hpack_new e s m k c' m' :
  keeps max_total (default (Http2Conn_default hpack_new) (http2_state (sh s) !! k)) m c' m' → owes e s m →
  owes e (with_tables (put_conn k c' (sh s)) s) m' ∧ within max_total m m'.
Proof.
  intros Hk (HR & He & Hm & Hex). pose proof Hex as (Hq & Hc & Hr & Hdec).
  destruct (others_nonneg (sh s) (Build_StreamKey 0 0 0 0 0) k k k Hex) as (_ & _ & Hd & _ & Hb & Hq' & _ & He').
  set (c := default _ (http2_state (sh s) !! k)) in *.
  assert (exact c) as Hce.
  { unfold c. destruct (http2_state (sh s) !! k) as [c0|] eqn:E; [exact (Hc k c0 E)|apply conn_default_exact]. }
  assert (match http2_state (sh s) !! k with Some v => conn_bytes v | None => 0 end = conn_bytes c) as Hv.
  { unfold c. by destruct (http2_state (sh s) !! k). }
  unfold charged_bytes in Hm. rewrite (map_sum_at conn_bytes _ k), Hv in Hm.
  destruct (Hk (total m - conn_bytes c)) as [(_ & Hm' & Hex') Hw]; [split_and!; [lia|cbn; lia|done..]|].
  split; [|done]. cbn in Hm'. split_and!; [done|done| |].
  - cbn. unfold charged_bytes. cbn. rewrite map_sum_put. lia.
  - split_and!; [done| |done..]. by apply map_Forall_insert_2.
Qed.

(** A charged operation whose result goes back into the tables. *)
Lemma keep_then_put {X B} (op : memory → X * memory) (k : X → handler B) Φ e s :
  (∀ m, owes e s m →
    let '(x, m') := op m in
    ∃ put h, k x = (_ ← upd put; h) ∧
      (owes e (with_tables (put (sh s)) s) m' ∧ within max_total m m') ∧ wp h Φ e (with_tables (put (sh s)) s)) →
  wp (charging op ≫= k) Φ e s.
Proof.
  intros Hop m Hm. specialize (Hop m Hm). unfold mbind, handler_bind at 1, charging.
  destruct (op m) as [x m1]. destruct Hop as (put & h & -> & [Ho Hw] & Hh). specialize (Hh m1 Ho).
  unfold mbind, handler_bind, upd. change (s <| sh := put (sh s) |>) with (with_tables (put (sh s)) s).
  destruct (h _ m1) as [[[[b|] out] s2] m2]; destruct Hh as [Hw2 Hh]; (split; [by eapply within_trans|done]).
Qed.

(** An operation on an entry that has been looked up, and the entry put back. *)
Lemma keep_put {A B V} (op : memory → A * V * memory) (put : V → tables net table → tables net table)
    (f : A → handler B) Φ e s :
  (∀ m, owes e s m →
    let '(a, v, m') := op m in
    (owes e (with_tables (put v (sh s)) s) m' ∧ within max_total m m') ∧
    wp (f a) Φ e (with_tables (put v (sh s)) s)) →
  wp ('(a, v) ← charging op; _ ← upd (put v); f a) Φ e s.
Proof.
  intros Hop. apply keep_then_put. intros m Hm. specialize (Hop m Hm). destruct (op m) as [[a v] m1].
  destruct Hop as [Ho Hf]. by exists (put v), (f a).
Qed.

Lemma keep_put_last {A V} (op : memory → A * V * memory) (put : V → tables net table → tables net table)
    (Φ : unit → Z → shard → Prop) e s :
  (∀ m, owes e s m →
    let '(a, v, m') := op m in
    (owes e (with_tables (put v (sh s)) s) m' ∧ within max_total m m') ∧
    Φ tt e (with_tables (put v (sh s)) s)) →
  wp ('(_, v) ← charging op; upd (put v)) Φ e s.
Proof.
  intros Hop. apply keep_then_put. intros m Hm. specialize (Hop m Hm). destruct (op m) as [[a v] m1].
  destruct Hop as [Ho HΦ]. exists (put v), (mret tt). split; [done|]. split; [done|by apply keep_ret].
Qed.

(** ** Charging *)

(** What the tables are known to be. *)
Lemma keep_known {A} (h : handler A) Φ e s :
  (0 <= e → exact_tables (sh s) → 0 <= charged_bytes (sh s) → wp h Φ e s) → wp h Φ e s.
Proof.
  intros Hh m Hm. pose proof Hm as (_ & He & _ & Hex). apply Hh; [done..| |done]. by apply charged_nonneg.
Qed.

Lemma keep_reserve n (Φ : bool → Z → shard → Prop) e s :
  0 <= n → (∀ ok : bool, Φ ok (e + if ok then n else 0) s) → wp (charging (reserve_memory max_total n)) Φ e s.
Proof.
  intros Hn HΦ m (HR & He & Hm & Hex). unfold charging, reserve_memory.
  destruct (_ && _) eqn:E; (split; [unfold within; zbool; cbn; lia|]); eexists; (split; [|apply HΦ]).
  - split_and!; [done|lia|cbn; lia|done].
  - split_and!; [done|lia|lia|done].
Qed.

Lemma keep_pb_add n pb (Φ : bool * Z → Z → shard → Prop) e s :
  0 <= n → 0 <= pb <= charged_bytes (sh s) →
  (∀ ok : bool, Φ (ok, pb + if ok then n else 0) (e + if ok then n else 0) s) →
  wp (charging (pb_add max_total n pb)) Φ e s.
Proof.
  intros Hn Hpb HΦ m (HR & He & Hm & Hex).
  pose proof (pb_add_spec max_total n pb m (total m - pb) Hn) as Hs. unfold charging.
  destruct (pb_add _ _ _ _) as [[ok pb'] m']. destruct Hs as (-> & Hm' & Hw); [lia..|].
  split; [done|]. exists (e + if ok then n else 0). split; [|apply HΦ].
  split_and!; [done|destruct ok; lia|lia|done].
Qed.

(** [g] gives back [n]. *)
Definition releases (g : memory → memory) (n : Z) : Prop := ∀ m, n <= total m → total (g m) = total m - n.

Lemma release_memory_releases n : 0 <= n → releases (release_memory n) n.
Proof. intros Hn m Hm. by apply release_memory_spec. Qed.

(** Dropping values one after the other. *)
Lemma releases_fold {V} (drop : memory → V → memory) (g : V → Z) (l : list V) :
  (∀ v, v ∈ l → 0 <= g v ∧ releases (fun m => drop m v) (g v)) →
  0 <= zsum g l ∧ releases (fold_left drop l) (zsum g l).
Proof.
  induction l as [|v l IH]; intros Hl.
  { change (zsum g []) with 0. split; [done|]. intros m _. cbn. lia. }
  rewrite zsum_cons. destruct (Hl v ltac:(left)) as [Hv Hr]. destruct IH as [Hpos Hfold].
  { intros v' Hv'. apply Hl. by right. }
  split; [lia|]. intros m Hm. specialize (Hr m ltac:(lia)). cbn beta in Hr. cbn [fold_left]. rewrite Hfold; lia.
Qed.

(** Giving back what is owed. *)
Lemma keep_release (g : memory → memory) n (Φ : unit → Z → shard → Prop) e s :
  releases g n → 0 <= n <= e → Φ tt (e - n) s → wp (releasing g) Φ e s.
Proof.
  intros Hg Hn HΦ m (HR & He & Hm & Hex). pose proof (charged_nonneg _ Hex). unfold releasing, charging.
  specialize (Hg m ltac:(lia)). split; [unfold within; lia|]. exists (e - n).
  split; [split_and!; [done|lia|lia|done]|done].
Qed.

Lemma drop_conn_releases c : exact c → releases (fun m => drop_conn m c) (conn_bytes c).
Proof.
  intros (_ & _ & (_ & H1 & _) & (_ & H2 & _) & H3 & _) m Hle. cbn in H1, H2. unfold conn_bytes in *.
  assert (0 <= hc_buffered c).
  { rewrite H3. unfold frames_held. pose proof (buffered_nonneg (hc_req c)).
    pose proof (buffered_nonneg (hc_resp c)). lia. }
  unfold drop_conn. do 3 (rewrite release_memory_spec); lia.
Qed.

(** [g] gives back [n], which the change of the tables then accounts for. *)
Lemma keep_release_upd (g : memory → memory) (f : tables net table → tables net table) n
    (Φ : unit → Z → shard → Prop) e s :
  releases g n →
  (exact_tables (sh s) → 0 <= n ∧ exact_tables (f (sh s)) ∧
     charged_bytes (f (sh s)) = charged_bytes (sh s) - n) →
  Φ tt e (with_tables (f (sh s)) s) → wp (_ ← releasing g; upd f) Φ e s.
Proof.
  intros Hg Hf HΦ m (HR & He & Hm & Hex). destruct (Hf Hex) as (Hn & Hex' & Hb).
  pose proof (charged_nonneg _ Hex'). cbn. specialize (Hg m ltac:(lia)).
  split; [unfold within; lia|]. exists e. split; [|done]. split_and!; [done|done|cbn; lia|done].
Qed.

(** ** The buffer of a direction *)

Definition buffer_len t k : Z := match buffers t !! k with Some b => zlen b.1 | None => 0 end.

Lemma buffer_len_nonneg t k : 0 <= buffer_len t k.
Proof. unfold buffer_len. case_match; [apply zlen_nonneg|lia]. Qed.

Lemma put_buffer_charged t k b ts :
  charged_bytes (t <| buffers := <[k := (b, ts)]> (buffers t) |>) = charged_bytes t - buffer_len t k + zlen b.
Proof.
  unfold charged_bytes, buffer_len. cbn. rewrite map_sum_put, (map_sum_at _ (buffers t) k). cbn. lia.
Qed.

Lemma delete_buffer_charged t k :
  charged_bytes (t <| buffers := delete k (buffers t) |>) = charged_bytes t - buffer_len t k.
Proof. unfold charged_bytes, buffer_len. cbn. rewrite (map_sum_at _ (buffers t) k). lia. Qed.

Definition put_buffer k b ts t : tables net table := t <| buffers := <[k := (b, ts)]> (buffers t) |>.

Lemma put_buffer_len k b ts t : buffer_len (put_buffer k b ts t) k = zlen b.
Proof. unfold buffer_len. cbn. by rewrite lookup_insert_eq. Qed.

Lemma keep_put_buffer k b ts (Φ : unit → Z → shard → Prop) e e' s :
  e' = e + buffer_len (sh s) k - zlen b → 0 <= e' →
  Φ tt e' (with_tables (put_buffer k b ts (sh s)) s) → wp (upd (put_buffer k b ts)) Φ e s.
Proof.
  intros He Hpos HΦ. apply keep_upd. intros Hex. unfold put_buffer at 2 3. cbn beta zeta.
  rewrite put_buffer_charged. split; [done|]. split; [lia|].
  by replace (e + charged_bytes (sh s) - _) with e' by lia.
Qed.

Definition put_decoder k d t : tables net table := t <| h1_decoders := <[k := d]> (h1_decoders t) |>.

(** Decoders are charged for nothing. *)
Lemma keep_put_decoder k d (Φ : unit → Z → shard → Prop) e s :
  state_wf (h1_state d) → Φ tt e (with_tables (put_decoder k d (sh s)) s) → wp (upd (put_decoder k d)) Φ e s.
Proof.
  intros Hwf HΦ. apply keep_upd. intros (Hq & Hc & He & Hd). cbn beta zeta.
  split; [split_and!; [done..|by apply map_Forall_insert_2]|].
  change (charged_bytes (put_decoder k d (sh s))) with (charged_bytes (sh s)).
  split; [lia|]. by replace (e + charged_bytes (sh s) - _) with e by lia.
Qed.

(** ** The early chunk of a connection *)

Definition early_charge t k : Z := match h2_early_resp t !! k with Some e => er_charge e | None => 0 end.

Lemma early_charge_bounds t k : exact_tables t → 0 <= early_charge t k <= charged_bytes t.
Proof.
  intros Hex. destruct (others_nonneg t (Build_StreamKey 0 0 0 0 0) k k k Hex) as (_ & _ & _ & Hd & Hb & Hq & Hc & _).
  pose proof Hex as (_ & _ & He & _). unfold charged_bytes. rewrite (map_sum_at er_charge (h2_early_resp t) k).
  unfold early_charge. destruct (h2_early_resp t !! k) as [r|] eqn:E; [|lia].
  pose proof (early_nonneg r (He k r E)). lia.
Qed.

Lemma delete_early_charged t k :
  charged_bytes (t <| h2_early_resp := delete k (h2_early_resp t) |>) = charged_bytes t - early_charge t k.
Proof. unfold charged_bytes, early_charge. cbn. rewrite (map_sum_at _ (h2_early_resp t) k). lia. Qed.

Lemma put_early_charged t k r :
  charged_bytes (t <| h2_early_resp := <[k := r]> (h2_early_resp t) |>) =
  charged_bytes t - early_charge t k + er_charge r.
Proof.
  unfold charged_bytes, early_charge. cbn. rewrite map_sum_put, (map_sum_at _ (h2_early_resp t) k). lia.
Qed.

(** [h] keeps the books, whatever is owed when it starts; or when nothing is. *)
Definition neutral {A} (h : handler A) : Prop := ∀ e s, wp h (fun _ e' _ => e' = e) e s.
Definition sound {A} (h : handler A) : Prop := ∀ s, wp h (fun _ e' _ => e' = 0) 0 s.

Lemma neutral_sound {A} (h : handler A) : neutral h → sound h.
Proof. intros Hh s. apply Hh. Qed.

Lemma sound_stop {A} : sound (stop : handler A).
Proof. intros s. apply keep_stop. Qed.

Lemma neutral_ret {A} (a : A) : neutral (mret a).
Proof. intros e s. by apply keep_ret. Qed.

Lemma neutral_emit out : neutral (emit out).
Proof. intros e s. by apply keep_emit. Qed.

Lemma neutral_gets {A} (f : tables net table → A) : neutral (gets f).
Proof. intros e s. by apply keep_gets. Qed.

Lemma neutral_upd f : (∀ t, same_charges t (f t)) → neutral (upd f).
Proof. intros Hf e s. by apply keep_upd_free. Qed.

Lemma neutral_count_drop : neutral (releasing count_drop).
Proof. intros e s. by apply keep_count_drop. Qed.

Lemma neutral_bind {A B} (h : handler A) (f : A → handler B) :
  neutral h → (∀ a, neutral (f a)) → neutral (h ≫= f).
Proof. intros Hh Hf e s. apply keep_bind. eapply keep_mono; [|apply Hh]. intros a e' s' ->. apply Hf. Qed.

Lemma sound_bind {A B} (h : handler A) (f : A → handler B) :
  sound h → (∀ a, sound (f a)) → sound (h ≫= f).
Proof. intros Hh Hf s. apply keep_bind. eapply keep_mono; [|apply Hh]. intros a e' s' ->. apply Hf. Qed.

Lemma neutral_when (b : bool) h : neutral h → neutral (when_ b h).
Proof. intros Hh. destruct b; [done|apply neutral_ret]. Qed.

Lemma sound_when (b : bool) h : sound h → sound (when_ b h).
Proof. intros Hh. destruct b; [done|apply neutral_sound, neutral_ret]. Qed.

Lemma neutral_each {A} (f : A → handler unit) l : (∀ a, neutral (f a)) → neutral (each f l).
Proof.
  intros Hf. induction l as [|a l IH]; [apply neutral_ret|]. cbn [each]. by apply neutral_bind.
Qed.
End Books.

Create HintDb books.
#[export] Hint Resolve neutral_ret neutral_emit neutral_gets neutral_count_drop sound_stop : books.

(** Handlers made of neutral and sound ones. *)
Ltac books :=
  repeat (intros; first
    [ progress (eauto with books nocore)
    | apply neutral_sound; solve [eauto with books nocore]
    | apply neutral_upd; intros ?; split_and!; by first [done | apply delete_subseteq | apply map_filter_subseteq]
    | apply neutral_bind | apply neutral_when | apply neutral_each
    | apply sound_bind | apply sound_when
    | match goal with
      | |- neutral _ _ _ (match ?x with _ => _ end) => destruct x
      | |- sound _ _ _ (match ?x with _ => _ end) => destruct x
      end
    | apply neutral_sound ]).
