(* ===== verification/ShardSweep.v ===== *)
(** The sweep of a shard ([Shard]) keeps the books of [ShardMem]. *)

From S2P Require Import Prelude Abi.
From S2P Require Import Wire Pending Memory Queues Text Http1 Http1Props Http2 Http2Props.
From S2P Require Import Codecs Mcp Reader ReaderProps H2Conn Shard ShardMem.
From stdpp Require Import sorting.
From Stdlib Require Import Strings.String.

#[local] Notation length := List.length.
#[local] Open Scope list_scope.
#[local] Open Scope Z_scope.

#[local] Notation total := TOTAL_BUFFER_BYTES.

(** * A loop over the entries of a table *)

Section Visit.
Context {K V : Type} `{!Holder V} (max : Z).

Fixpoint visit (take : V → memory → V * memory) (l : list (K * V)) (m : memory) : list (K * V) * memory :=
  match l with
  | [] => ([], m)
  | (k, v) :: l' =>
      let '(v, m) := take v m in
      let '(vs, m) := visit take l' m in
      ((k, v) :: vs, m)
  end.

Lemma visit_keys take l m : (visit take l m).1.*1 = l.*1.
Proof.
  revert m. induction l as [|[k v] l IH]; intros m; [done|]. cbn [visit]. destruct (take v m) as [v' m1].
  specialize (IH m1). destruct (visit take l m1) as [vs m2]. cbn in *. by f_equal.
Qed.

(** What keeps every entry charged keeps the table charged. *)
Lemma visit_keeps (take : V → memory → V * memory) l m rest :
  (∀ v m, keeps max v m (take v m).1 (take v m).2) →
  0 <= rest → total m = rest + zsum (fun kv => hd_bytes kv.2) l → Forall (fun kv => exact kv.2) l →
  let '(l', m') := visit take l m in
  Forall (fun kv => exact kv.2) l' ∧
  total m' = rest + zsum (fun kv => hd_bytes kv.2) l' ∧ within max m m'.
Proof.
  intros Htake. revert m rest. induction l as [|[k v] l IH]; intros m rest Hrest Hm Hl; cbn [visit].
  { split_and!; [done..|apply within_refl]. }
  apply Forall_cons_1 in Hl as [Hv Hl]. rewrite zsum_cons in Hm. cbn [snd] in Hv, Hm.
  assert (0 <= zsum (fun kv => hd_bytes kv.2) l) as Hpos.
  { apply zsum_nonneg. eapply Forall_impl; [exact Hl|]. by intros ? (_ & ? & _). }
  specialize (Htake v m). destruct (take v m) as [v' m1]. cbn [fst snd] in Htake.
  destruct (Htake (rest + zsum (fun kv => hd_bytes kv.2) l)) as [(_ & Hm1 & Hv') Hw1];
    [split; [lia|split; [lia|done]]|]. pose proof Hv' as (_ & Hpos' & _).
  specialize (IH m1 (rest + hd_bytes v')).
  destruct (visit take l m1) as [vs m2]. destruct IH as (Hvs & Hm2 & Hw2); [lia..|done|].
  rewrite zsum_cons. cbn [snd]. split_and!; [by apply Forall_cons|lia|by eapply within_trans].
Qed.

(** The table is rebuilt from the list the loop leaves. *)
Lemma visit_table `{Countable K} (take : V → memory → V * memory) (M : gmap K V) m rest :
  (∀ v m, keeps max v m (take v m).1 (take v m).2) →
  0 <= rest → total m = rest + map_sum hd_bytes M → map_Forall (fun _ => exact) M →
  let '(l, m') := visit take (map_to_list M) m in
  let M' := list_to_map l : gmap K V in
  map_Forall (fun _ => exact) M' ∧ total m' = rest + map_sum hd_bytes M' ∧ within max m m'.
Proof.
  intros Htake Hrest Hm HM. rewrite map_sum_list in Hm.
  pose proof (visit_keeps take (map_to_list M) m rest Htake Hrest Hm) as Hv.
  pose proof (visit_keys take (map_to_list M) m) as Hk.
  destruct (visit _ _ m) as [l m']. cbn [fst] in Hk. destruct Hv as (Hl & Ht & Hw).
  { apply list.Forall_forall. intros [k v] Hin. apply (HM k v). by apply elem_of_map_to_list. }
  assert (NoDup l.*1) as Hnd by (rewrite Hk; apply NoDup_fst_map_to_list).
  cbv zeta. rewrite map_sum_of_list by done. split_and!; [|done..].
  intros k v Hkv. apply elem_of_list_to_map in Hkv; [|done].
  rewrite list.Forall_forall in Hl. by apply (Hl (k, v)).
Qed.
End Visit.

Section Sweep.
Context {net table : Type} (sizeof_request : Z) (Hsize : 0 <= sizeof_request) (max_total R : Z).

Notation direction := (Http2Direction (table := table)).
Notation conn := (Http2Conn (net := net) (h2dir := direction)).
Notation queue := (PendingQueue net).
Notation shard := (shard net table).
Notation neutral := (neutral (net := net) (table := table) sizeof_request max_total R).
Notation sound := (sound (net := net) (table := table) sizeof_request max_total R).
Notation wp := (wp (net := net) (table := table) sizeof_request max_total R).
Notation exact_tables := (exact_tables (net := net) (table := table) sizeof_request).

#[local] Existing Instance Http2Conn_fields.
#[local] Existing Instance responses_holder.
#[local] Instance queues' : Holder queue := queue_holder sizeof_request.
#[local] Instance conns' : Holder conn := conn_holder sizeof_request.

Implicit Types (s : shard) (t : tables net table).

(** The loops are visits. *)
Lemma sweep_queues_visit take h3 (l : list (ConnKey * queue)) m :
  (let '(_, qs, m') := sweep_queues take h3 l m in (qs, m')) =
  visit (fun q m => let '(_, q, m) := take q m in (q, m)) l m.
Proof.
  revert m. induction l as [|[k q] l IH]; intros m; [done|]. cbn [sweep_queues visit].
  destruct (take q m) as [[out q'] m1]. rewrite <- IH. by destruct (sweep_queues take h3 l m1) as [[reqs qs] m2].
Qed.

Lemma sweep_conns_visit take (l : list (ConnKey * conn)) m :
  (let '(_, _, cs, m') := sweep_conns take l m in (cs, m')) =
  visit (fun c m => let '(_, _, c, m) := take c m in (c, m)) l m.
Proof.
  revert m. induction l as [|[k c] l IH]; intros m; [done|]. cbn [sweep_conns visit].
  destruct (take c m) as [[[out n] c'] m1]. rewrite <- IH. by destruct (sweep_conns take l m1) as [[[reqs n'] cs] m2].
Qed.

Lemma keeps_expire now ttl (q : queue) m :
  let '(_, q', m') := pq_expire_take sizeof_request now ttl q m in keeps max_total q m q' m'.
Proof using Hsize.
  pose proof (keeps_expire_from sizeof_request Hsize max_total now ttl (pq_items q) (pq_bytes q) m) as Hk.
  destruct q as [items pb]. exact Hk.
Qed.

Lemma keeps_sweep_conn now (c : conn) m :
  let '(_, _, c', m') := sweep_conn sizeof_request now c m in keeps max_total c m c' m'.
Proof using Hsize.
  unfold sweep_conn.
  assert (let '(_, ps, m1) := (if idle now c then ps_take_all sizeof_request (hc_pending_requests c) m
      else ps_expire_take sizeof_request now STREAM_TTL_MS (hc_pending_requests c) m) in
    keeps max_total c m (c <| hc_pending_requests := ps |>) m1) as Hk.
  { unfold ps_take_all, ps_expire_take. destruct (idle now c);
      match goal with |- context [ps_remove_all _ ?ids ?p m] =>
        pose proof (keeps_ps_remove_all sizeof_request Hsize max_total ids p m) as Hk;
        destruct (ps_remove_all _ ids p m) as [[reqs ps] m1] end; by apply keeps_streams. }
  destruct (if idle now c then _ else _) as [[reqs ps] m1].
  pose proof (keeps_is_expire max_total ps (hc_responses c) m1) as Hr.
  destruct (is_expire ps (hc_responses c) m1) as [[gone rs] m2].
  eapply keeps_trans; [exact Hk|]. by apply (keeps_responses _ _ (c <| hc_pending_requests := ps |>)).
Qed.

Lemma keeps_drain_conn (c : conn) m :
  let '(_, _, c', m') := drain_conn sizeof_request c m in keeps max_total c m c' m'.
Proof using Hsize.
  unfold drain_conn, ps_take_all, ps_expire_take. set (ids := stale_ids _ _ _).
  pose proof (keeps_ps_remove_all sizeof_request Hsize max_total ids (hc_pending_requests c) m) as Hk.
  destruct (ps_remove_all _ ids _ m) as [[reqs ps] m1]. by apply keeps_streams.
Qed.

(** * The tables after a loop *)

Lemma owes_sweep_queues take h3 e s m :
  (∀ q m, let '(_, q', m') := take q m in keeps max_total q m q' m') → owes sizeof_request R e s m →
  let '(_, l, m') := sweep_queues take h3 (map_to_list (pending (sh s))) m in
  owes sizeof_request R e (with_tables ((sh s) <| pending := list_to_map l |>) s) m' ∧ within max_total m m'.
Proof.
  intros Htake (HR & He & Hm & Hex). pose proof Hex as (Hq & Hc & Her & Hd).
  destruct (others_nonneg _ (sh s) (Build_StreamKey 0 0 0 0 0) (Build_ConnKey 0 0 0 0 0)
    (Build_ConnKey 0 0 0 0 0) (Build_ConnKey 0 0 0 0 0) Hex) as (_ & _ & _ & _ & Hb & _ & Hc' & He').
  pose proof (sweep_queues_visit take h3 (map_to_list (pending (sh s))) m) as Hv.
  pose proof (visit_table max_total (fun q m => let '(_, q, m) := take q m in (q, m)) (pending (sh s)) m
    (total m - map_sum pq_bytes (pending (sh s)))) as Ht.
  rewrite <- Hv in Ht. destruct (sweep_queues take h3 _ m) as [[reqs l] m1]. unfold charged_bytes in Hm.
  destruct Ht as (Hl & Ht & Hw); [|lia|cbn; lia|done|].
  { intros q m2. specialize (Htake q m2). by destruct (take q m2) as [[out q'] m3]. }
  split; [|done]. split_and!; [done..| |split_and!; done].
  unfold charged_bytes. cbn in *. lia.
Qed.

Lemma owes_sweep_conns take e s m :
  (∀ c m, let '(_, _, c', m') := take c m in keeps max_total c m c' m') → owes sizeof_request R e s m →
  let '(_, _, l, m') := sweep_conns take (map_to_list (http2_state (sh s))) m in
  owes sizeof_request R e (with_tables ((sh s) <| http2_state := list_to_map l |>) s) m' ∧ within max_total m m'.
Proof.
  intros Htake (HR & He & Hm & Hex). pose proof Hex as (Hq & Hc & Her & Hd).
  destruct (others_nonneg _ (sh s) (Build_StreamKey 0 0 0 0 0) (Build_ConnKey 0 0 0 0 0)
    (Build_ConnKey 0 0 0 0 0) (Build_ConnKey 0 0 0 0 0) Hex) as (_ & _ & _ & _ & Hb & Hq' & _ & He').
  pose proof (sweep_conns_visit take (map_to_list (http2_state (sh s))) m) as Hv.
  pose proof (visit_table max_total (fun c m => let '(_, _, c, m) := take c m in (c, m)) (http2_state (sh s)) m
    (total m - map_sum conn_bytes (http2_state (sh s)))) as Ht.
  rewrite <- Hv in Ht. destruct (sweep_conns take _ m) as [[[reqs n] l] m1]. unfold charged_bytes in Hm.
  destruct Ht as (Hl & Ht & Hw); [|lia|cbn; lia|done|].
  { intros c m2. specialize (Htake c m2). by destruct (take c m2) as [[[out n'] c'] m3]. }
  split; [|done]. split_and!; [done..| |split_and!; done].
  unfold charged_bytes. cbn in *. lia.
Qed.

(** * Entries that are dropped *)

Lemma neutral_retain_dropping `{Countable K} {V} (old : V → bool) (drop : memory → V → memory)
    (f : tables net table → gmap K V) (set : gmap K V → tables net table → tables net table) (g : V → Z) :
  (∀ t k v, exact_tables t → f t !! k = Some v → 0 <= g v ∧ releases (fun m => drop m v) (g v)) →
  (∀ t M, exact_tables t → M ⊆ f t →
     exact_tables (set M t) ∧ charged_bytes (set M t) = charged_bytes t - map_sum g (f t) + map_sum g M) →
  neutral (retain_dropping old drop f set).
Proof.
  intros Hdrop Hset e s. apply keep_known. intros _ Hex _. apply keep_bind, keep_gets.
  set (gone := filter _ (f (sh s))). set (kept := filter _ (f (sh s))).
  destruct (releases_fold drop g (map_to_list gone).*2) as [Hpos Hrel].
  { intros v Hv. apply list_elem_of_fmap in Hv as ([k v'] & -> & Hin). apply elem_of_map_to_list in Hin.
    apply map_lookup_filter_Some in Hin as [Hin _]. by eapply Hdrop. }
  assert (zsum g (map_to_list gone).*2 = map_sum g gone) as Hsum by (by rewrite zsum_fmap, map_sum_list).
  pose proof (map_sum_filter g (fun kv => old kv.2) (f (sh s)) :
    map_sum g (f (sh s)) = map_sum g gone + map_sum g kept) as Hsplit.
  rewrite Hsum in Hpos, Hrel. apply (keep_release_upd _ _ _ _ _ (map_sum g gone)); [done| |done].
  intros _. destruct (Hset (sh s) kept Hex) as [Hex' Hb]; [apply map_filter_subseteq|].
  split; [lia|]. split; [done|lia].
Qed.

Lemma neutral_drop_conns (old : conn → bool) :
  neutral (retain_dropping old drop_conn http2_state (fun M t => t <| http2_state := M |>)).
Proof.
  apply (neutral_retain_dropping _ _ _ _ conn_bytes).
  - intros t k c (_ & Hc & _) Hk. specialize (Hc k c Hk). split; [exact (conn_nonneg sizeof_request _ Hc)|].
    exact (drop_conn_releases sizeof_request _ Hc).
  - intros t M (Hq & Hc & He & Hd) HM. split; [split_and!; [done| |done..]|unfold charged_bytes; cbn; lia].
    intros k c Hk. eapply Hc. by eapply lookup_weaken.
Qed.

Lemma neutral_drop_early (old : EarlyResp → bool) :
  neutral (retain_dropping old drop_early h2_early_resp (fun M t => t <| h2_early_resp := M |>)).
Proof.
  apply (neutral_retain_dropping _ _ _ _ er_charge).
  - intros t k r (_ & _ & He & _) Hk. pose proof (early_nonneg r (He k r Hk)) as Hr. split; [done|].
    by apply release_memory_releases.
  - intros t M (Hq & Hc & He & Hd) HM. split; [split_and!; [done..| |done]|unfold charged_bytes; cbn; lia].
    intros k r Hk. eapply He. by eapply lookup_weaken.
Qed.

Lemma neutral_drop_queues (old : queue → bool) :
  neutral (retain_dropping old drop_queue pending (fun M t => t <| pending := M |>)).
Proof.
  apply (neutral_retain_dropping _ _ _ _ pq_bytes).
  - intros t k q (Hq & _) Hk. pose proof (queue_nonneg _ q (Hq k q Hk)) as Hp. split; [done|].
    by apply release_memory_releases.
  - intros t M (Hq & Hc & He & Hd) HM. split; [split_and!; [|done..]|unfold charged_bytes; cbn; lia].
    intros k q Hk. eapply Hq. by eapply lookup_weaken.
Qed.

(** ** What is beyond the caps *)

Lemma without_subseteq `{Countable K} {V W} (l : list (K * W)) (M : gmap K V) : without l M ⊆ M.
Proof.
  induction l as [|[k v] l IH]; [done|]. change (without ((k, v) :: l) M) with (delete k (without l M)).
  etransitivity; [apply delete_subseteq|done].
Qed.

Lemma neutral_cap_conns : neutral cap_conns.
Proof.
  intros e s. apply keep_known. intros _ Hex _. apply keep_bind, keep_gets.
  destruct (oldest_in hc_last_event_ts (http2_state (sh s))) as [Hnd Hin].
  set (gone := oldest _ _) in *. pose proof Hex as (Hq & Hc & He & Hd).
  destruct (releases_fold drop_conn conn_bytes gone.*2) as [Hpos Hrel].
  { intros c Hcin. apply list_elem_of_fmap in Hcin as ([k c'] & -> & Hk).
    rewrite list.Forall_forall in Hin. specialize (Hc k c' (Hin _ Hk)).
    split; [exact (conn_nonneg sizeof_request _ Hc)|exact (drop_conn_releases sizeof_request _ Hc)]. }
  pose proof (map_sum_without conn_bytes gone (http2_state (sh s)) Hnd Hin) as Hsum.
  apply (keep_release_upd _ _ _ _ _ (zsum conn_bytes gone.*2)); [done| |done].
  intros _. split; [done|]. split.
  - split_and!; [done| |done..]. intros k c Hk. eapply Hc. eapply lookup_weaken; [done|apply without_subseteq].
  - unfold charged_bytes. cbn. rewrite Hsum, zsum_fmap. lia.
Qed.

(** Buffers that go are given back at the end of the sweep. *)
Lemma keep_evict_buffers now e s : wp (evict_buffers now) (fun freed e' _ => e' = e + freed ∧ 0 <= freed) e s.
Proof.
  apply keep_bind, keep_gets. set (kept := filter _ (buffers (sh s))).
  assert (map_sum (fun b => zlen b.1) kept <= map_sum (fun b => zlen b.1) (buffers (sh s))) as Hle.
  { apply map_sum_subseteq; [intros; apply zlen_nonneg|apply map_filter_subseteq]. }
  apply keep_bind, keep_upd. intros Hex. split; [done|]. unfold charged_bytes. cbn.
  split; [lia|]. apply keep_ret. lia.
Qed.

Lemma keep_cap_buffers e s : wp cap_buffers (fun freed e' _ => e' = e + freed ∧ 0 <= freed) e s.
Proof.
  apply keep_bind, keep_gets. destruct (oldest_in snd (buffers (sh s))) as [Hnd Hin].
  pose proof (map_sum_without (fun b => zlen b.1) (oldest snd (buffers (sh s))) (buffers (sh s)) Hnd Hin) as Hsum.
  cbn beta in Hsum.
  assert (0 <= zsum (fun kb => zlen kb.2.1) (oldest snd (buffers (sh s)))).
  { apply zsum_nonneg, list.Forall_forall. intros ? _. apply zlen_nonneg. }
  apply keep_bind, keep_upd. intros Hex. split; [done|]. unfold charged_bytes. cbn. split; [lia|]. apply keep_ret. lia.
Qed.

(** * The sweep *)

Lemma neutral_forget_inactive : neutral forget_inactive.
Proof. unfold forget_inactive. books. Qed.

Lemma neutral_report_incomplete reqs outcome : neutral (report_incomplete reqs outcome).
Proof.
  apply neutral_bind; [|books]. intros e s m Hm. unfold charging, incomplete_events.
  split; [unfold within; case_match; cbn; lia|]. exists e. split; [|done]. by case_match.
Qed.

Lemma sound_expire_all now : sound (expire_all sizeof_request now).
Proof using Hsize.
  intros s. apply keep_bind. eapply keep_mono; [|apply keep_evict_buffers]. intros freed e s1 [-> Hf].
  apply keep_bind, keep_gets. apply keep_bind, keep_gets. apply keep_then_put. intros m Hm.
  apply (owes_sweep_queues (pq_expire_take sizeof_request now STREAM_TTL_MS) (http3_connections (sh s1))) in Hm;
    [|intros; by apply keeps_expire].
  destruct (sweep_queues _ _ _ m) as [[reqs1 qs] m1]. eexists _, _. split; [reflexivity|]. split; [exact Hm|].
  clear m m1 Hm. set (s2 := with_tables _ _). clearbody s2.
  apply keep_bind, keep_gets, keep_then_put. intros m Hm.
  apply (owes_sweep_conns (sweep_conn sizeof_request now)) in Hm; [|intros; by apply keeps_sweep_conn].
  destruct (sweep_conns _ _ m) as [[[reqs2 gone] cs] m1]. eexists _, _. split; [reflexivity|]. split; [exact Hm|].
  clear m m1 Hm. set (s3 := with_tables _ _). clearbody s3.
  apply keep_bind. eapply keep_mono; [|apply neutral_drop_conns]. intros _ e s4 ->.
  apply keep_bind. eapply keep_mono; [|apply neutral_drop_early]. intros _ e s5 ->.
  apply keep_bind. eapply keep_mono; [|apply neutral_when, neutral_emit]. intros _ e s6 ->.
  apply keep_bind. eapply keep_mono; [|apply neutral_drop_queues]. intros _ e s7 ->.
  apply keep_bind. eapply keep_mono; [|apply neutral_report_incomplete]. intros _ e s8 ->.
  apply keep_bind. eapply keep_mono; [|apply keep_cap_buffers]. intros freed' e s9 [-> Hf'].
  apply keep_bind. eapply keep_mono; [|apply neutral_cap_conns]. intros _ e s10 ->.
  apply keep_bind, (keep_release _ _ _ _ (freed + freed')); [apply release_memory_releases; lia|lia|].
  replace (0 + freed + freed' - (freed + freed')) with 0 by lia. apply neutral_sound, neutral_forget_inactive.
Qed.

Lemma sound_evict_stale now : sound (evict_stale sizeof_request now).
Proof using Hsize.
  intros s m Hm. unfold evict_stale. destruct (_ <? 10000); [split; [apply within_refl|by exists 0]|].
  exact (sound_expire_all now {| sh := sh s; last_eviction_ms := now |} m Hm).
Qed.

(** * Shutdown and close *)

(** [take_all_incomplete], with the emptied queues put back before they are dropped. *)
Definition take_all_in_steps (outcome : string) : handler net table unit :=
  h3 ← gets http3_connections;
  qs ← gets pending;
  '(reqs1, qs) ← charging (sweep_queues (pq_take_all sizeof_request) h3 (map_to_list qs));
  _ ← upd (fun t => t <| pending := list_to_map qs |>);
  cs ← gets http2_state;
  '(reqs2, _, cs) ← charging (sweep_conns (drain_conn sizeof_request) (map_to_list cs));
  _ ← upd (fun t => t <| http2_state := list_to_map cs |>);
  _ ← (_ ← releasing (fun m => fold_left drop_queue qs.*2 m); upd (fun t => t <| pending := ∅ |>));
  report_incomplete (reqs1 ++ reqs2) outcome.

Lemma take_all_steps outcome s m :
  take_all_incomplete sizeof_request outcome s m = take_all_in_steps outcome s m.
Proof.
  unfold take_all_incomplete, take_all_in_steps, mbind, handler_bind, gets, charging, upd, releasing, charging.
  destruct (sweep_queues _ _ _ m) as [[reqs1 qs] m1]. cbn.
  destruct (sweep_conns _ _ m1) as [[[reqs2 gone] cs] m2]. reflexivity.
Qed.

Lemma sweep_queues_nodup take h3 (M : gmap ConnKey queue) m :
  let '(_, l, _) := sweep_queues take h3 (map_to_list M) m in NoDup l.*1.
Proof.
  pose proof (visit_keys (fun q m => let '(_, q, m) := take q m in (q, m)) (map_to_list M) m) as Hk.
  rewrite <- (sweep_queues_visit take h3) in Hk. destruct (sweep_queues _ _ _ m) as [[reqs l] m1].
  cbn [fst] in Hk. rewrite Hk. apply NoDup_fst_map_to_list.
Qed.

(** Every queue of the table is dropped. *)
Lemma keep_drop_all_queues (l : list (ConnKey * queue)) (Φ : unit → Z → shard → Prop) e s :
  pending (sh s) = list_to_map l → NoDup l.*1 →
  Φ tt e (with_tables ((sh s) <| pending := ∅ |>) s) →
  wp (_ ← releasing (fun m => fold_left drop_queue l.*2 m); upd (fun t => t <| pending := ∅ |>)) Φ e s.
Proof.
  intros Hl Hnd HΦ. apply keep_known. intros _ (Hq & Hc & He & Hd) _. rewrite Hl in Hq.
  destruct (releases_fold drop_queue pq_bytes l.*2) as [Hpos Hrel].
  { intros q Hin. apply list_elem_of_fmap in Hin as ([k q'] & -> & Hin).
    pose proof (queue_nonneg _ q' (Hq k q' (elem_of_list_to_map_1 _ _ _ Hnd Hin))) as Hq'.
    split; [done|by apply release_memory_releases]. }
  apply (keep_release_upd _ _ _ _ _ (zsum pq_bytes l.*2)); [done| |done]. intros _. split; [done|].
  split; [split_and!; [apply map_Forall_empty|done..]|].
  unfold charged_bytes. cbn. rewrite Hl, map_sum_of_list, zsum_fmap, map_sum_empty by done. lia.
Qed.

Lemma sound_take_all_incomplete outcome : sound (take_all_incomplete sizeof_request outcome).
Proof using Hsize.
  intros s m Hm. rewrite take_all_steps. revert m Hm. fold (wp (take_all_in_steps outcome) (fun _ e' _ => e' = 0) 0 s).
  apply keep_bind, keep_gets. apply keep_bind, keep_gets. apply keep_then_put. intros m Hm.
  pose proof (sweep_queues_nodup (pq_take_all sizeof_request) (http3_connections (sh s)) (pending (sh s)) m) as Hnd.
  apply (owes_sweep_queues (pq_take_all sizeof_request) (http3_connections (sh s))) in Hm;
    [|intros; by apply keeps_expire].
  destruct (sweep_queues _ _ _ m) as [[reqs1 qs] m1]. eexists _, _. split; [reflexivity|]. split; [exact Hm|].
  clear m m1 Hm. set (s2 := with_tables _ s). assert (pending (sh s2) = list_to_map qs) as Hqs by done. clearbody s2.
  apply keep_bind, keep_gets, keep_then_put. intros m Hm.
  apply (owes_sweep_conns (drain_conn sizeof_request)) in Hm; [|intros; by apply keeps_drain_conn].
  destruct (sweep_conns _ _ m) as [[[reqs2 gone] cs] m1]. eexists _, _. split; [reflexivity|]. split; [exact Hm|].
  apply keep_bind, keep_drop_all_queues; [done..|]. apply neutral_sound, neutral_report_incomplete.
Qed.

Lemma conn_exact_ok (c : conn) : exact c → conn_ok sizeof_request c.
Proof.
  intros (_ & _ & Hp & Hr & Hb & _). split; [exact Hp|]. split; [exact Hr|].
  rewrite Hb. unfold frames_held. pose proof (buffered_nonneg (hc_req c)). pose proof (buffered_nonneg (hc_resp c)). lia.
Qed.

Lemma closed_exact key t : exact_tables t → exact_tables (closed_tables key t).
Proof.
  intros (Hq & Hc & He & Hd). split_and!; intros k v Hk; cbn in Hk; rewrite retain_lookup in Hk;
    destruct (hit_conn key _) || destruct (hit_stream key _); try done;
    [exact (Hq k v Hk)|exact (Hc k v Hk)|exact (He k v Hk)|exact (Hd k v Hk)].
Qed.
End Sweep.
