(* ===== verification/ShardBooks.v ===== *)
(** Every part of [handle_event] and [evict_stale] keeps the books of [ShardMem]. *)

From S2P Require Import Prelude Abi.
From S2P Require Import Wire Pending Memory Queues Text Http1 Http1Props Http2 Http2Props.
From S2P Require Import Codecs Mcp Reader ReaderProps H2Conn Shard Handle ShardMem ShardSweep.
From stdpp Require Import sorting.
From Stdlib Require Import Strings.String.

#[local] Notation length := List.length.
#[local] Open Scope list_scope.
#[local] Open Scope Z_scope.

#[local] Notation total := TOTAL_BUFFER_BYTES.

Section Handle.
Context {net table : Type} `{Unicode, Json} (sizeof_request : Z) (Hsize : 0 <= sizeof_request).
Context (hpack_new : table) (hpack_decode : table → bytes → hpack_result * table).
Context (cf : config) (R : Z).

Notation max_total := (cf_max_total_buffer_bytes cf).
Notation shard := (shard net table).
Notation neutral := (neutral (net := net) (table := table) sizeof_request max_total R).
Notation sound := (sound (net := net) (table := table) sizeof_request max_total R).
Notation wp := (wp (net := net) (table := table) sizeof_request max_total R).
Notation exact_tables := (exact_tables (net := net) (table := table) sizeof_request).

#[local] Instance queues' : Holder (PendingQueue net) := queue_holder sizeof_request.
#[local] Instance conns' : Holder (Http2Conn (net := net) (h2dir := Http2Direction (table := table))) :=
  conn_holder sizeof_request.

Implicit Types (s : shard) (t : tables net table).

(** * Queues and connections *)

Lemma neutral_push_request k r : neutral (push_request sizeof_request cf k r).
Proof using Hsize.
  intros e s. apply keep_bind, keep_gets, (keep_put_last _ _ _ _ (put_queue k)). intros m Hm.
  pose proof (keeps_push sizeof_request Hsize max_total r (default pq_default (pending (sh s) !! k)) m) as Hk.
  destruct (pq_push _ _ _ _ m) as [[b q] m1]. split; [by apply owes_put_queue|done].
Qed.

Lemma neutral_pop_request k : neutral (pop_request sizeof_request k).
Proof using Hsize.
  intros e s. apply keep_bind, keep_gets, (keep_put _ _ _ _ (put_queue k)). intros m Hm.
  pose proof (keeps_pop_usable_from sizeof_request Hsize max_total
    (pq_items (default pq_default (pending (sh s) !! k))) (pq_bytes (default pq_default (pending (sh s) !! k))) m) as Hk.
  unfold pq_pop_usable. destruct (pop_usable_from _ _ _ m) as [[r q] m1].
  split; [|generalize e (with_tables (put_queue k q (sh s)) s); books].
  apply owes_put_queue; [|done]. by destruct (default _ (pending _ !! k)).
Qed.

Lemma neutral_http2_event w k payload req :
  neutral (http2_event sizeof_request hpack_new hpack_decode cf w k payload req).
Proof using Hsize.
  intros e s. apply keep_bind, keep_gets, (keep_put _ _ _ _ (put_conn k)). intros m Hm.
  pose proof (keeps_process sizeof_request Hsize hpack_new hpack_decode max_total payload (w_now_ms w) req
    (w_net_ctx w) (default (Http2Conn_default hpack_new) (http2_state (sh s) !! k)) m) as Hk.
  destruct (process_http2_event _ _ _ _ _ _ _ _ _ m) as [[out c] m1].
  split; [by eapply owes_put_conn|by apply keep_emit].
Qed.

Hint Resolve neutral_push_request neutral_pop_request neutral_http2_event : books.

Lemma neutral_first_seen ev ts : neutral (first_seen ev ts).
Proof. unfold first_seen. books. Qed.

Lemma neutral_track k : neutral (track k).
Proof. unfold track, count. books. Qed.

Lemma neutral_request_direction k ev payload : neutral (request_direction cf k ev payload).
Proof. unfold request_direction. books. Qed.

Lemma neutral_mark_gap k : neutral (mark_gap k).
Proof. unfold mark_gap. books. Qed.

Lemma neutral_join_prefix k req payload : neutral (join_prefix k req payload).
Proof. unfold join_prefix. books. Qed.

Hint Resolve neutral_first_seen neutral_track neutral_request_direction neutral_mark_gap neutral_join_prefix : books.

Lemma neutral_answered w r resp proto meta : neutral (answered w r resp proto meta).
Proof. unfold answered. books. Qed.

Hint Resolve neutral_answered : books.

Lemma neutral_h3_headers w k req hs : neutral (h3_headers sizeof_request cf w k req hs).
Proof using Hsize. unfold h3_headers. books. Qed.

Lemma neutral_on_message w k req payload msg : neutral (on_message sizeof_request cf w k req payload msg).
Proof using Hsize. unfold on_message, on_request, on_response. books. Qed.

Hint Resolve neutral_h3_headers neutral_on_message : books.

Lemma sound_check_scope w : sound (check_scope cf w).
Proof. unfold check_scope, count. books. Qed.

Lemma sound_in_request_direction k ev payload : sound (in_request_direction cf k ev payload).
Proof. unfold in_request_direction, count. books. Qed.

Lemma sound_hold_prefix k sk req h2 payload : sound (hold_prefix k sk req h2 payload).
Proof. unfold hold_prefix. books. Qed.

Lemma sound_http3_path w k req h2 payload : sound (http3_path sizeof_request cf w k req h2 payload).
Proof using Hsize. unfold http3_path. books. Qed.

Lemma sound_ws_path k sk payload : sound (ws_path k sk payload).
Proof. unfold ws_path. books. Qed.

Lemma sound_resynchronise ev sk payload : sound (resynchronise ev sk payload).
Proof. unfold resynchronise. books. Qed.

(** * Buffers *)

Lemma neutral_discard_buffer k : neutral (discard_buffer k).
Proof.
  intros e s. apply keep_known. intros He _ _. apply keep_bind, keep_gets.
  destruct (buffers (sh s) !! k) as [[buf ts]|] eqn:E; [|by apply keep_ret]. apply keep_bind, keep_upd. intros Hex. cbn beta zeta. rewrite delete_buffer_charged.
  assert (buffer_len (sh s) k = zlen buf) as -> by (unfold buffer_len; by rewrite E).
  pose proof (zlen_nonneg buf). split; [done|]. split; [lia|]. apply (keep_release _ _ _ _ (zlen buf)); [by apply release_memory_releases|lia..].
Qed.

Lemma neutral_clear_buffer k : neutral (clear_buffer k).
Proof.
  intros e s. apply keep_bind, keep_gets. destruct (buffers (sh s) !! k) as [[buf ts]|] eqn:E; [|by apply keep_ret].
  apply (keep_release_upd _ _ _ _ _ (zlen buf)); [|intros Hex|done].
  - apply release_memory_releases, zlen_nonneg.
  - split; [apply zlen_nonneg|]. split; [done|]. rewrite put_buffer_charged.
    unfold buffer_len. rewrite E. change (zlen []) with 0. cbn [fst]. lia.
Qed.

Hint Resolve neutral_discard_buffer neutral_clear_buffer : books.

Lemma neutral_messages k items : neutral (messages k items).
Proof. induction items as [|[] items IH]; cbn [messages]; unfold count; books. Qed.
Hint Resolve neutral_messages : books.

Lemma sound_on_truncated ck sk : sound (on_truncated ck sk).
Proof.
  apply sound_bind; [unfold count; books|]. intros _ s. apply keep_bind, keep_gets.
  destruct (http2_state (sh s) !! ck) as [c|] eqn:E; [|generalize s; books].
  apply keep_bind, keep_upd. intros Hex. pose proof Hex as (Hq & Hc & Hr & Hd).
  split; [split_and!; [done|by apply map_Forall_delete|done..]|].
  assert (exact c) as Hce by exact (Hc ck c E). pose proof (conn_nonneg sizeof_request c Hce).
  cbn beta zeta. unfold charged_bytes. cbn. rewrite (map_sum_at conn_bytes (http2_state (sh s)) ck), E.
  split; [lia|]. apply keep_bind, (keep_release _ _ _ _ (conn_bytes c)); [by eapply drop_conn_releases|lia|].
  match goal with |- wp stop _ ?e _ => replace e with 0 by lia end. apply keep_stop.
Qed.

(** * Early frames of a server *)

Lemma neutral_replay_early w k :
  neutral (replay_early sizeof_request hpack_new hpack_decode cf w k).
Proof using Hsize.
  intros e s. apply keep_known. intros He Hex _. apply keep_bind, keep_gets.
  destruct (h2_early_resp (sh s) !! k) as [r|] eqn:E; [|by apply keep_ret].
  pose proof (early_charge_bounds sizeof_request (sh s) k Hex) as [Hr _].
  assert (early_charge (sh s) k = er_charge r) as Hk by (unfold early_charge; by rewrite E).
  apply keep_bind, keep_upd. intros (Hq & Hc & Her & Hd). cbn beta zeta. rewrite delete_early_charged, Hk. rewrite Hk in Hr.
  split; [split_and!; [done..|by apply map_Forall_delete|done]|]. split; [lia|].
  apply keep_bind. eapply keep_mono; [|apply neutral_when, neutral_http2_event]. intros _ e' s' ->.
  apply (keep_release _ _ _ _ (er_charge r)); [by apply release_memory_releases|lia..].
Qed.

Lemma sound_hold_early w k payload : sound (hold_early cf w k payload).
Proof.
  intros s. apply keep_known. intros _ Hex _. apply keep_bind, keep_gets.
  destruct (_ && _); [apply sound_bind; books|].
  set (e0 := default _ _). assert (er_charge e0 = early_charge (sh s) k ∧ er_charge e0 = zlen (er_data e0)) as [Hc Hz].
  { destruct Hex as (_ & _ & He & _). unfold e0, early_charge. destruct (h2_early_resp (sh s) !! k) as [r|] eqn:E; [|done].
    split; [done|exact (He k r E)]. }
  assert (∀ r e, er_charge r = zlen (er_data r) → e = er_charge r - er_charge e0 →
    wp (_ ← upd (fun t => t <| h2_early_resp := <[k := {| er_data := er_data r; er_seen_ms := w_now_ms w;
          er_charge := er_charge r |}]> (h2_early_resp t) |>); stop)
       (fun (_ : unit) e' _ => e' = 0) e s) as Hput.
  { intros r e Hr ->. apply keep_bind, keep_upd. intros (Hq & Hc' & Her & Hd). cbn beta zeta.
    rewrite put_early_charged. split; [split_and!; [done..|by apply map_Forall_insert_2|done]|].
    cbn [er_charge]. split; [lia|]. match goal with |- wp stop _ ?e _ => replace e with 0 by lia end. apply keep_stop. }
  apply keep_bind. case_match.
  - apply keep_bind, keep_pb_add; [apply zlen_nonneg|rewrite Hc; by eapply early_charge_bounds|].
    intros []; apply keep_ret, Hput; cbn; rewrite ?zlen_app; lia.
  - apply keep_ret, Hput; lia.
Qed.

Hint Resolve sound_hold_early neutral_replay_early : books.

Lemma sound_http2_path w ck sk req h2 payload :
  sound (http2_path sizeof_request hpack_new hpack_decode cf w ck sk req h2 payload).
Proof using Hsize. unfold http2_path. books. Qed.

(** * HTTP/1 *)

Lemma sound_http1_decode w ck sk req payload : sound (http1_decode cf w ck sk req payload).
Proof.
  intros s. apply keep_bind, keep_gets. destruct (if req then _ else _) as [head connect].
  apply keep_bind, keep_gets. set (buf := default [] _).
  assert (buffer_len (sh s) sk = zlen buf) as Hbuf.
  { unfold buf, buffer_len. by destruct (buffers (sh s) !! sk) as [[]|]. }
  apply keep_bind, (keep_put_buffer _ _ _ sk buf (w_now_ms w) _ 0 0); [lia..|].
  apply keep_bind, keep_reserve; [apply zlen_nonneg|]. intros [|]; cbn [negb];
    [|apply sound_bind; books]. pose proof (zlen_nonneg payload).
  apply keep_bind, (keep_put_buffer _ _ _ sk (buf ++ payload) (w_now_ms w) _ _ 0); [|lia|].
  { cbn [sh with_tables]. rewrite put_buffer_len, zlen_app. lia. }
  set (buf' := buf ++ payload). case_match; [apply sound_bind; unfold count; books|].
  apply keep_known. intros _ (_ & _ & _ & Hd) _. apply keep_bind, keep_gets. set (d := default _ _).
  assert (state_wf (h1_state d)) as Hwf.
  { unfold d. destruct (h1_decoders _ !! sk) as [d'|] eqn:E; [exact (Hd sk d' E)|exact I]. }
  destruct d as [st cap]. rewrite (feed_run cap head connect st buf' Hwf).
  destruct (run cap head connect st buf') as [[n items] st'] eqn:Hrun.
  apply run_wf in Hrun as [Hn Hwf']; [|done].
  apply keep_bind, keep_put_decoder; [done|].
  apply keep_bind, (keep_put_buffer _ _ _ sk (zdrop n buf') (w_now_ms w) _ _ n); [|lia|].
  { cbn [sh with_tables]. change (buffer_len (put_decoder _ _ ?t)) with (buffer_len t).
    rewrite put_buffer_len, zlen_zdrop by lia. lia. }
  apply keep_bind, (keep_release _ _ _ _ n); [apply release_memory_releases; lia|lia|]. apply keep_ret. lia.
Qed.

Hint Resolve sound_check_scope sound_in_request_direction sound_hold_prefix sound_http3_path sound_ws_path
  sound_resynchronise sound_on_truncated sound_http2_path sound_http1_decode : books.

Lemma sound_http1_path w ev ck sk req payload : sound (http1_path sizeof_request cf w ev ck sk req payload).
Proof using Hsize. unfold http1_path. books. Qed.

(** * A call *)

Lemma sound_handle_event w ev payload :
  sound (handle_event sizeof_request hpack_new hpack_decode cf w ev payload).
Proof using Hsize.
  pose proof sound_http1_path. pose proof (sound_evict_stale sizeof_request Hsize max_total R (net := net) (table := table)).
  unfold handle_event. books.
Qed.

Lemma sound_evict_connection key : sound (evict_connection sizeof_request key).
Proof using Hsize.
  intros s m (HR & _ & Hm & Hex). pose proof Hex as (Hq & Hc & He & Hd).
  destruct (evict_settles sizeof_request key (sh s) m R) as (m' & Hev & _ & Hm' & Hle); [done..| |lia|].
  { split; [exact Hq|]. split.
    - intros k c Hk. apply conn_exact_ok. exact (Hc k c Hk).
    - intros k r Hk. exact (early_nonneg r (He k r Hk)). }
  unfold evict_connection. rewrite Hev. split; [unfold within; lia|]. exists 0. split; [|done].
  split; [done|]. split; [done|]. split; [cbn; lia|by apply closed_exact].
Qed.
End Handle.
