(* ===== verification/Sharded.v ===== *)
(** The reader's shards behind one another's locks: [ShardedStreamState] of
    [userspace/src/stream.rs], and what the event loop of [userspace/src/main.rs] asks of it.

    A shard is locked for the whole of a call, so calls on one shard come one after the other; calls
    on different shards share the memory counter and the metrics only, which are atomic. A run of
    the reader is therefore a list of calls. [hash] is what [DefaultHasher] makes of a process and an
    object; the standard library does not say what that is. The sampling of the finished events,
    which drops some of them, is [EventLoop.serve_and_send]. The records and parsers of the examples
    stand at the end. *)

From S2P Require Import Prelude Abi Wire Pending Memory Queues Text Http1 Http1Props Http2 Codecs Mcp Reader.
From S2P Require Import H2Conn Shard Handle.
From Stdlib Require Import Strings.String.

#[local] Notation length := List.length.
#[local] Open Scope list_scope.
#[local] Open Scope Z_scope.

Definition NUM_SHARDS : Z := 16.

Section Sharded.
Context {net table : Type} `{Unicode, Json} (sizeof_request : Z).
Context (hpack_new : table) (hpack_decode : table → bytes → hpack_result * table).
Context (cf : config) (hash : Z → Z → Z).

Notation shard := (shard net table).
Notation handler := (handler net table).

Definition ShardedStreamState_new : list shard := replicate (Z.to_nat NUM_SHARDS) Shard_new.

(** By process and object: when the connection was first seen is resolved within the shard. *)
Definition shard_index (pid ssl_ptr : Z) : nat := Z.to_nat (hash pid ssl_ptr mod NUM_SHARDS).

(** A call on the shard with the index. *)
Definition on_shard (i : nat) (h : handler unit) (St : list shard) (m : memory)
    : list (output net) * list shard * memory :=
  match St !! i with
  | Some s => let '(_, out, s, m) := h s m in (out, <[i := s]> St, m)
  | None => ([], St, m)
  end.

(** A call on one shard after the other. *)
Fixpoint on_every_shard (h : handler unit) (St : list shard) (m : memory)
    : list (output net) * list shard * memory :=
  match St with
  | [] => ([], [], m)
  | s :: St' =>
      let '(_, out, s, m) := h s m in
      let '(out', St', m) := on_every_shard h St' m in
      (out ++ out', s :: St', m)
  end.

(** What the event loop asks for: a record, a close record, the sweep every few seconds, and the rest
    when the sensor stops. *)
Inductive call :=
| Record (w : surroundings net) (ev : tls_event_hdr) (payload : bytes)
| Close (key : ConnKey)
| Tick (now_ms : Z)
| Shutdown.

Definition serve (c : call) (St : list shard) (m : memory) : list (output net) * list shard * memory :=
  match c with
  | Record w ev payload =>
      on_shard (shard_index (h_pid ev) (h_ssl_ptr ev))
        (handle_event sizeof_request hpack_new hpack_decode cf w ev payload) St m
  | Close key => on_shard (shard_index (ck_pid key) (ck_ssl_ptr key)) (evict_connection sizeof_request key) St m
  | Tick now_ms => on_every_shard (evict_stale sizeof_request now_ms) St m
  | Shutdown => on_every_shard (take_all_incomplete sizeof_request "sensor_shutdown") St m
  end.

Fixpoint serve_all (calls : list call) (St : list shard) (m : memory)
    : list (output net) * list shard * memory :=
  match calls with
  | [] => ([], St, m)
  | c :: calls' =>
      let '(out, St, m) := serve c St m in
      let '(out', St, m) := serve_all calls' St m in
      (out ++ out', St, m)
  end.

(** * What the shards hold together *)

Definition shards_charged (St : list shard) : Z := zsum (fun s => charged_bytes (sh s)) St.

Definition shards_known (St : list shard) : Z := zsum (fun s => Z.of_nat (size (known_connections (sh s)))) St.

Definition counter_eqb (a b : counter) : bool :=
  match a, b with
  | ACTIVE_CONNECTIONS, ACTIVE_CONNECTIONS | CAPTURE_GAPS, CAPTURE_GAPS | ROLE_AMBIGUOUS, ROLE_AMBIGUOUS
  | EVENTS_OUT_OF_SCOPE, EVENTS_OUT_OF_SCOPE | EVENTS_SCOPE_UNRESOLVED, EVENTS_SCOPE_UNRESOLVED
  | PENDING_EXPIRED, PENDING_EXPIRED | UNPAIRED_RESPONSES, UNPAIRED_RESPONSES
  | PROTO_WEBSOCKET, PROTO_WEBSOCKET | BODIES_TRUNCATED, BODIES_TRUNCATED
  | H1_PARSE_ERRORS, H1_PARSE_ERRORS => true
  | _, _ => false
  end.

(** The steps a metric has made. *)
Definition steps (c : counter) (out : list (output net)) : Z :=
  zsum (fun o => match o with Count c' n => if counter_eqb c c' then n else 0 | _ => 0 end) out.
End Sharded.

Arguments call : clear implicits.

(** * Examples

    Records, a configuration and parsers for the examples of the shards. *)

(** Nothing is JSON. *)
#[export] Instance demo_json : Json := {
  from_slice _ := None;
  from_str _ := None;
  json_text _ := []
}.

#[export] Existing Instance ascii_only.

(** No header block of HTTP/2 decodes. *)
Definition demo_hpack (t : Z) (_ : bytes) : hpack_result * Z := (HErr, t).

Definition demo_config (r : TrafficRole) : config := {|
  cf_role := r; cf_max_buffer := 65536; cf_max_total_buffer_bytes := 100000; cf_namespace_scope := None |}.

Definition demo_at (now_ms : Z) : surroundings unit := {|
  w_now_ms := now_ms; w_net_ctx := tt; w_namespace := None |}.

(** A record of the object at 7 of process 42. *)
Definition demo_record (dir : Z) : tls_event_hdr := {|
  h_ts_ns := 1; h_pid := 42; h_tid := 42; h_ssl_ptr := 7; h_data_len := 0; h_direction := dir;
  h_ip_family := 4; h__pad16 := 0; h_comm := replicate 16 x00; h_cgroup_id := 0; h_netns_ino := 1;
  h_src_port := 43210; h_dst_port := 443; h_src_ip4 := 1; h_dst_ip4 := 2; h_src_ip6 := replicate 16 x00;
  h_dst_ip6 := replicate 16 x00; h_abi_version := 2; h_flags := 0; h_actual_len := 0; h_copied_len := 0;
  h_conn_generation := 1; h_proc_start_ns := 9; h_dir_seq := 0; h_attribution := 1; h_provider_id := 1;
  h_role_hint := 0; h__pad8 := 0; h_sock_cookie := 5 |}.

Definition demo_get : bytes := lit "GET /a HTTP/1.1" ++ CRLF ++ lit "Host: h" ++ CRLF ++ CRLF.

Definition demo_ok : bytes :=
  lit "HTTP/1.1 200 OK" ++ CRLF ++ lit "Content-Length: 2" ++ CRLF ++ CRLF ++ lit "ok".

Definition demo_memory : memory := {| TOTAL_BUFFER_BYTES := 10; EVENTS_DROPPED := 0 |}.

Definition demo_shard_0 : shard unit Z := Shard_new.
