(* ===== verification/ShardRel.v ===== *)
(** Relations between the shard a handler starts from, what it emits, and the shard it leaves.

    A relation that holds of nothing done and of one thing after the other holds of a handler when it
    holds of its steps. The first of them is the one of the gauge of the connections; [ShardLocal] has
    another. *)

From S2P Require Import Prelude Abi Wire Pending Memory Queues Text Http1 Http1Props Http2 Codecs Mcp Reader.
From S2P Require Import H2Conn Shard Handle Sharded.
From Stdlib Require Import Strings.String.

#[local] Notation length := List.length.
#[local] Open Scope list_scope.
#[local] Open Scope Z_scope.

Class Transition {net table : Type} (P : shard net table → list (output net) → shard net table → Prop) := {
  transition_refl s : P s [] s;
  transition_trans s1 s2 s3 out1 out2 : P s1 out1 s2 → P s2 out2 s3 → P s1 (out1 ++ out2) s3
}.

Section Rel.
Context {net table : Type} (P : shard net table → list (output net) → shard net table → Prop) `{!Transition P}.

Notation shard := (shard net table).
Notation handler := (handler net table).

Definition does {A} (h : handler A) : Prop :=
  ∀ s m, let '(_, out, s', _) := h s m in P s out s'.

Lemma does_ret {A} (a : A) : does (mret a).
Proof using Transition0. intros s m. apply transition_refl. Qed.

Lemma does_stop {A} : does (stop : handler A).
Proof using Transition0. intros s m. apply transition_refl. Qed.

Lemma does_gets {A} (f : tables net table → A) : does (gets f).
Proof using Transition0. intros s m. apply transition_refl. Qed.

Lemma does_charging {A} (f : memory → A * memory) : does (charging f).
Proof using Transition0. intros s m. unfold charging. destruct (f m). apply transition_refl. Qed.

Lemma does_emit out : (∀ s, P s out s) → does (emit out).
Proof. intros Hout s m. apply Hout. Qed.

Lemma does_upd f : (∀ s, P s [] {| sh := f (sh s); last_eviction_ms := last_eviction_ms s |}) → does (upd f).
Proof. intros Hf s m. apply Hf. Qed.

(** One run of a handler. *)
Definition does_at {A} (h : handler A) (s : shard) (m : memory) : Prop :=
  let '(_, out, s', _) := h s m in P s out s'.

Lemma does_at_bind {A B} (h : handler A) (f : A → handler B) s m :
  does_at h s m → (∀ a out s1 m1, h s m = (Some a, out, s1, m1) → does_at (f a) s1 m1) →
  does_at (h ≫= f) s m.
Proof using Transition0.
  unfold does_at, mbind, handler_bind. intros Hh Hf. destruct (h s m) as [[[[a|] out] s1] m1]; [|done].
  specialize (Hf a out s1 m1 eq_refl). destruct (f a s1 m1) as [[[b out'] s2] m2]. by eapply transition_trans.
Qed.

Lemma does_bind {A B} (h : handler A) (f : A → handler B) : does h → (∀ a, does (f a)) → does (h ≫= f).
Proof using Transition0. intros Hh Hf s m. apply does_at_bind; [apply Hh|]. intros a out s1 m1 _. apply Hf. Qed.

Lemma does_when (b : bool) h : does h → does (when_ b h).
Proof using Transition0. intros Hh. destruct b; [done|apply does_ret]. Qed.

Lemma does_each {A} (f : A → handler unit) l : (∀ a, does (f a)) → does (each f l).
Proof using Transition0. intros Hf. induction l as [|a l IH]; [apply does_ret|]. cbn [each]. by apply does_bind. Qed.
End Rel.

Create HintDb does.

(** Handlers made of steps: what an [emit] or an [upd] does is left. *)
Ltac does_steps :=
  repeat (intros; lazymatch goal with
  | |- Transition _ => typeclasses eauto
  | |- does _ _ => first
    [ solve [eauto with does nocore]
    | apply does_bind | apply does_when | apply does_each
    | apply does_ret | apply does_stop | apply does_gets | apply does_charging
    | apply does_emit | apply does_upd
    | match goal with |- does _ (match ?x with _ => _ end) => destruct x end ] end).

(** * The gauge of the connections

    A handler steps it by what it adds to the connections its shard knows. *)

Lemma size_split `{Countable K} (f : K → bool) (X : gset K) :
  size X = (size (filter (fun k => f k = true) X) + size (filter (fun k => f k = false) X))%nat.
Proof.
  rewrite <- size_union; [f_equal; apply leibniz_equiv; intros k|intros k [? ?]%elem_of_filter [? ?]%elem_of_filter; congruence].
  rewrite elem_of_union, !elem_of_filter. destruct (f k); naive_solver.
Qed.

Section Gauge.
Context {net table : Type} `{Unicode, Json} (sizeof_request : Z).
Context (hpack_new : table) (hpack_decode : table → bytes → hpack_result * table).
Context (cf : config).

Notation shard := (shard net table).

Definition known_size (s : shard) : Z := Z.of_nat (size (known_connections (sh s))).

Definition gauged (s : shard) (out : list (output net)) (s' : shard) : Prop :=
  steps ACTIVE_CONNECTIONS out = known_size s' - known_size s.

#[local] Instance gauged_transition : Transition gauged.
Proof.
  split; unfold gauged; [intros s; change (steps _ []) with 0; lia|].
  intros s1 s2 s3 out1 out2. unfold steps. rewrite zsum_app. lia.
Qed.

Notation does := (does gauged).

Lemma steps_none {A} (f : A → output net) l :
  (∀ a, match f a with Count ACTIVE_CONNECTIONS _ => False | _ => True end) →
  steps ACTIVE_CONNECTIONS (f <$> l) = 0.
Proof.
  intros Hf. induction l as [|a l IH]; [done|]. unfold steps in *. cbn [fmap list_fmap]. rewrite zsum_cons, IH.
  specialize (Hf a). destruct (f a) as [| |[] ]; done.
Qed.

Lemma gauged_put s t : known_connections t = known_connections (sh s) →
  gauged s [] {| sh := t; last_eviction_ms := last_eviction_ms s |}.
Proof. intros Ht. unfold gauged, known_size. cbn [sh]. rewrite Ht. change (steps _ []) with 0. lia. Qed.

Lemma gauged_out s out : steps ACTIVE_CONNECTIONS out = 0 → gauged s out s.
Proof. unfold gauged. lia. Qed.

Ltac gauge_steps :=
  does_steps; intros; solve [ by apply gauged_put | apply gauged_out; first [done | by apply steps_none] ].

(** * The parts of a record's way *)

Lemma gauged_check_scope w : does (check_scope cf w).
Proof. unfold check_scope, count. gauge_steps. Qed.

(** A connection not known yet is counted. *)
Lemma gauged_track k : does (track k).
Proof.
  intros s m. unfold track, count, mbind, handler_bind, gets. destruct (bool_decide_reflect (k ∈ known_connections (sh s))) as [Hk|Hk];
    [apply transition_refl|].
  unfold gauged, known_size. cbn. rewrite size_union by set_solver. rewrite size_singleton.
  change (steps _ _) with 1. lia.
Qed.

Hint Resolve gauged_check_scope gauged_track : does.

Lemma gauged_messages sk items : does (messages sk items).
Proof.
  induction items as [|[] items IH]; cbn [messages]; unfold clear_buffer, mark_gap, count, releasing; gauge_steps.
Qed.

Lemma gauged_http2_event w k payload req : does (http2_event sizeof_request hpack_new hpack_decode cf w k payload req).
Proof. unfold http2_event. does_steps; intros; [by apply gauged_put|]. apply gauged_out, steps_none. by intros []. Qed.

Lemma gauged_pop_request k : does (pop_request sizeof_request k).
Proof. unfold pop_request, queue_of, set_queue, count. gauge_steps. Qed.

Hint Resolve gauged_messages gauged_http2_event gauged_pop_request : does.

Lemma gauged_on_truncated ck sk : does (on_truncated ck sk).
Proof. unfold on_truncated, discard_buffer, mark_gap, count, releasing. gauge_steps. Qed.

Lemma gauged_http2_path w ck sk req h2 payload :
  does (http2_path sizeof_request hpack_new hpack_decode cf w ck sk req h2 payload).
Proof. unfold http2_path, hold_early, replay_early, releasing. gauge_steps. Qed.

Lemma gauged_http3_path w k req h2 payload : does (http3_path sizeof_request cf w k req h2 payload).
Proof. unfold http3_path, h3_headers, push_request, queue_of, set_queue, answered. gauge_steps. Qed.

Lemma gauged_ws_path k sk payload : does (ws_path k sk payload).
Proof. unfold ws_path. gauge_steps. Qed.

Lemma gauged_http1_decode w ck sk req payload : does (http1_decode cf w ck sk req payload).
Proof. unfold http1_decode, clear_buffer, mark_gap, count, releasing. gauge_steps. Qed.

Lemma gauged_on_message w k req payload msg : does (on_message sizeof_request cf w k req payload msg).
Proof.
  unfold on_message, on_request, on_response, push_request, queue_of, set_queue, answered. gauge_steps.
Qed.

Hint Resolve gauged_on_truncated gauged_http2_path gauged_http3_path gauged_ws_path gauged_http1_decode
  gauged_on_message : does.

(** * The sweep and the close *)

Lemma gauged_forget_inactive : does forget_inactive.
Proof.
  intros s m. pose proof (size_split (still_active (sh s)) (known_connections (sh s))) as Hs.
  unfold forget_inactive, mbind, handler_bind, gets, emit, upd, gauged, known_size, steps, zsum, id. cbn.
  lia.
Qed.

Lemma gauged_report_incomplete reqs outcome : does (report_incomplete reqs outcome).
Proof. unfold report_incomplete. gauge_steps. Qed.

Hint Resolve gauged_forget_inactive gauged_report_incomplete : does.

Lemma gauged_evict_stale now : does (evict_stale sizeof_request now).
Proof.
  assert (does (expire_all sizeof_request now)) as Hx.
  { unfold expire_all, evict_buffers, retain_dropping, cap_buffers, cap_conns, releasing. gauge_steps. }
  intros s m. unfold evict_stale. destruct (_ <? 10000); [apply transition_refl|].
  exact (Hx {| sh := sh s; last_eviction_ms := now |} m).
Qed.

Lemma gauged_take_all_incomplete outcome : does (take_all_incomplete sizeof_request outcome).
Proof. unfold take_all_incomplete, releasing. gauge_steps. Qed.

Lemma gauged_evict_connection key : does (evict_connection sizeof_request key).
Proof.
  intros s m. unfold evict_connection. destruct (evict_connection_by_ptr _ _ _ m) as [[reqs t] m'].
  unfold gauged, steps. rewrite zsum_cons. change (zsum _ ?l) with (steps ACTIVE_CONNECTIONS l).
  rewrite steps_none by done. unfold known_size. cbn. lia.
Qed.

Hint Resolve gauged_evict_stale : does.

Lemma gauged_handle_event w ev payload :
  does (handle_event sizeof_request hpack_new hpack_decode cf w ev payload).
Proof.
  unfold handle_event, first_seen, in_request_direction, request_direction, join_prefix, hold_prefix, http1_path,
    resynchronise, count. gauge_steps.
Qed.
End Gauge.
