(* ===== verification/ShardLocal.v ===== *)
(** A record changes nothing of what is kept for other connections. *)

From S2P Require Import Prelude Abi.
From S2P Require Import Wire Pending Memory Queues Text Http1 Http1Props Http2 Codecs Mcp Reader H2Conn.
From S2P Require Import Shard Handle Sharded ShardRel.
From Stdlib Require Import Strings.String.

#[local] Notation length := List.length.
#[local] Open Scope list_scope.
#[local] Open Scope Z_scope.

(** Tables that agree but at one key. *)
Section But.
Context `{Countable K} {V : Type}.
Implicit Types (k : K) (M : gmap K V) (X : gset K).

Definition but k M M' : Prop := delete k M' = delete k M.
Definition but_set k X X' : Prop := X' ∖ {[k]} = X ∖ {[k]}.

Lemma but_refl k M : but k M M.
Proof. done. Qed.

Lemma but_insert k v M : but k M (<[k := v]> M).
Proof. apply delete_insert_eq. Qed.

Lemma but_delete k M : but k M (delete k M).
Proof. unfold but. by rewrite delete_delete_eq. Qed.

Lemma but_lookup k M M' k' : but k M M' → k' ≠ k → M' !! k' = M !! k'.
Proof.
  intros HM Hk. rewrite <- (lookup_delete_ne M' k k'), <- (lookup_delete_ne M k k') by done. by rewrite HM.
Qed.

Lemma but_set_refl k X : but_set k X X.
Proof. done. Qed.

Lemma but_set_add k X : but_set k X ({[k]} ∪ X).
Proof. unfold but_set. set_solver. Qed.

Lemma but_set_remove k X : but_set k X (X ∖ {[k]}).
Proof. unfold but_set. set_solver. Qed.

Lemma but_set_elem k X X' k' : but_set k X X' → k' ≠ k → k' ∈ X' ↔ k' ∈ X.
Proof.
  intros HX Hk. transitivity (k' ∈ X' ∖ {[k]}); [set_solver|]. rewrite HX. set_solver.
Qed.
End But.

#[export] Hint Resolve but_refl but_insert but_delete but_set_refl but_set_add but_set_remove : but.

Section Local.
Context {net table : Type} `{Unicode, Json} (sizeof_request : Z).
Context (hpack_new : table) (hpack_decode : table → bytes → hpack_result * table).
Context (cf : config).

Notation shard := (shard net table).
Implicit Types t : tables net table.

Section Key.
Context (now_ms : Z) (ck : ConnKey) (sk : StreamKey).

(** What is kept for the connections other than [ck] and the directions other than [sk]. *)
Definition same_elsewhere t t' : Prop :=
  but sk (buffers t) (buffers t') ∧ but sk (h1_decoders t) (h1_decoders t') ∧
  but sk (ws_remaining t) (ws_remaining t') ∧ but_set sk (gapped_streams t) (gapped_streams t') ∧
  but ck (pending t) (pending t') ∧ but ck (http2_state t) (http2_state t') ∧
  but ck (h2_early_resp t) (h2_early_resp t') ∧ but ck (h2_prefix t) (h2_prefix t') ∧
  but ck (conn_roles t) (conn_roles t') ∧ but_set ck (http3_connections t) (http3_connections t') ∧
  but_set ck (ws_connections t) (ws_connections t') ∧ but_set ck (known_connections t) (known_connections t').

Definition due (s : shard) : bool := negb (saturating_sub now_ms (last_eviction_ms s) <? 10000).

(** Unless a sweep is due. *)
Definition local (s : shard) (out : list (output net)) (s' : shard) : Prop :=
  due s = false → due s' = false ∧ same_elsewhere (sh s) (sh s').

#[local] Instance local_transition : Transition local.
Proof.
  split; unfold local.
  - intros s Hs. by split_and!.
  - intros s1 s2 s3 _ _ H1 H2 Hs. destruct (H1 Hs) as [Hs2 E1]. destruct (H2 Hs2) as [Hs3 E2].
    split; [done|]. unfold same_elsewhere, but, but_set in *. destruct_and!. split_and!; congruence.
Qed.

Lemma local_out s out : local s out s.
Proof. intros Hs. by split_and!. Qed.

Lemma local_put s t : same_elsewhere (sh s) t → local s [] {| sh := t; last_eviction_ms := last_eviction_ms s |}.
Proof. by intros Ht Hs. Qed.

Notation does := (does local).

Ltac local_steps :=
  does_steps; intros; solve [ apply local_out | apply local_put; unfold same_elsewhere; cbn; split_and!; eauto with but nocore ].

Lemma local_check_scope w : does (check_scope cf w).
Proof. unfold check_scope, count. local_steps. Qed.

Lemma local_messages items : does (messages sk items).
Proof.
  induction items as [|[] items IH]; cbn [messages]; unfold clear_buffer, mark_gap, count, releasing; local_steps.
Qed.

Lemma local_http2_event w payload req : does (http2_event sizeof_request hpack_new hpack_decode cf w ck payload req).
Proof. unfold http2_event. local_steps. Qed.

Lemma local_pop_request : does (pop_request sizeof_request ck).
Proof. unfold pop_request, queue_of, set_queue, count. local_steps. Qed.

Hint Resolve local_check_scope local_messages local_http2_event local_pop_request : does.

Lemma local_on_truncated : does (on_truncated ck sk).
Proof. unfold on_truncated, discard_buffer, mark_gap, count, releasing. local_steps. Qed.

Lemma local_http2_path w req h2 payload :
  does (http2_path sizeof_request hpack_new hpack_decode cf w ck sk req h2 payload).
Proof. unfold http2_path, hold_early, replay_early, releasing. local_steps. Qed.

Lemma local_http3_path w req h2 payload : does (http3_path sizeof_request cf w ck req h2 payload).
Proof. unfold http3_path, h3_headers, push_request, queue_of, set_queue, answered. local_steps. Qed.

Lemma local_ws_path payload : does (ws_path ck sk payload).
Proof. unfold ws_path. local_steps. Qed.

Lemma local_http1_decode w req payload : does (http1_decode cf w ck sk req payload).
Proof. unfold http1_decode, clear_buffer, mark_gap, count, releasing. local_steps. Qed.

Lemma local_on_message w req payload msg : does (on_message sizeof_request cf w ck req payload msg).
Proof.
  unfold on_message, on_request, on_response, push_request, queue_of, set_queue, answered. local_steps.
Qed.

Lemma local_evict_stale : does (evict_stale sizeof_request now_ms).
Proof.
  intros s m. unfold evict_stale. destruct (saturating_sub now_ms (last_eviction_ms s) <? 10000) eqn:E;
    [apply local_out|]. destruct (expire_all _ _ _ m) as [[[a out] s'] m']. intros Hd. unfold due in Hd. by rewrite E in Hd.
Qed.

Hint Resolve local_on_truncated local_http2_path local_http3_path local_ws_path local_http1_decode
  local_on_message local_evict_stale : does.

(** The key an event is filed under. *)
Definition filed_under (w : surroundings net) (ev : tls_event_hdr) t : ConnKey :=
  ConnKey_from_event ev (default (w_now_ms w)
    (conn_born_ms t !! (h_pid ev, h_ssl_ptr ev, h_proc_start_ns ev, h_conn_generation ev))).

Lemma check_scope_state w (s : shard) m a out s1 m1 : check_scope cf w s m = (a, out, s1, m1) → s1 = s.
Proof.
  unfold check_scope, count, mbind, handler_bind, emit, stop, mret, handler_ret.
  repeat case_match; congruence.
Qed.

Lemma local_handle_event w ev payload s m :
  w_now_ms w = now_ms → filed_under w ev (sh s) = ck → StreamKey_from_event ev = sk →
  does_at local (handle_event sizeof_request hpack_new hpack_decode cf w ev payload) s m.
Proof.
  intros Hnow Hck Hsk. pose proof local_transition as HT. unfold handle_event. rewrite Hsk, Hnow.
  apply does_at_bind; [exact HT|apply local_check_scope|].
  intros _ out s1 m1 ->%check_scope_state. apply does_at_bind; [exact HT| |].
  { assert (does (first_seen ev now_ms)) as Hf; [|apply Hf]. unfold first_seen. local_steps. }
  intros born out' s2 m2 Hborn. assert (ConnKey_from_event ev born = ck) as ->.
  { rewrite <- Hck. unfold filed_under. rewrite Hnow. unfold first_seen, mbind, handler_bind, gets in Hborn.
    destruct (conn_born_ms (sh s) !! _); cbn in *; congruence. }
  match goal with |- does_at _ ?h _ _ => enough (does h) as Hh by apply Hh end.
  unfold track, in_request_direction, request_direction, join_prefix, hold_prefix, http1_path,
    resynchronise, count. local_steps.
Qed.
End Key.
End Local.

(** C17: the records of one connection are kept apart from those of every other. Unless a sweep is due,
    handling a record changes nothing that is kept for a connection other than the one the record is
    filed under, nor for a direction other than its own: not the queued requests, the HTTP/2 state, the
    held-back bytes, the role or the recognised protocol of another connection, nor the buffer, the
    decoder, the gap mark or the remainder of a frame of another direction. *)
Theorem records_stay_in_their_connection {net table : Type} `{Unicode, Json} (sizeof_request : Z)
    (hpack_new : table) (hpack_decode : table → bytes → hpack_result * table) (cf : config)
    (w : surroundings net) (ev : tls_event_hdr) (payload : bytes) (s : shard net table) (m : memory)
    (Hsweep : saturating_sub (w_now_ms w) (last_eviction_ms s) < 10000) :
  let t := sh s in
  let '(_, _, s', _) := handle_event sizeof_request hpack_new hpack_decode cf w ev payload s m in
  let t' := sh s' in
  (∀ k, k ≠ filed_under w ev t →
     pending t' !! k = pending t !! k ∧ http2_state t' !! k = http2_state t !! k ∧
     h2_early_resp t' !! k = h2_early_resp t !! k ∧ h2_prefix t' !! k = h2_prefix t !! k ∧
     conn_roles t' !! k = conn_roles t !! k ∧ (k ∈ http3_connections t' ↔ k ∈ http3_connections t) ∧
     (k ∈ ws_connections t' ↔ k ∈ ws_connections t) ∧ (k ∈ known_connections t' ↔ k ∈ known_connections t)) ∧
  (∀ k, k ≠ StreamKey_from_event ev →
     buffers t' !! k = buffers t !! k ∧ h1_decoders t' !! k = h1_decoders t !! k ∧
     ws_remaining t' !! k = ws_remaining t !! k ∧ (k ∈ gapped_streams t' ↔ k ∈ gapped_streams t)).
Proof.
  pose proof (local_handle_event sizeof_request hpack_new hpack_decode cf (w_now_ms w) _ _ w ev payload s m
    eq_refl eq_refl eq_refl) as Hl.
  unfold does_at in Hl. destruct (handle_event _ _ _ _ _ _ _ s m) as [[[a out] s'] m']. cbv zeta.
  destruct Hl as [_ (B1 & B2 & B3 & B4 & C1 & C2 & C3 & C4 & C5 & C6 & C7 & C8)].
  { unfold due. by replace (_ <? 10000) with true by lia. }
  split; intros k Hk; split_and!; first [by eapply but_lookup | by eapply but_set_elem].
Qed.

(** A connection waits for its response while another sends a request. *)
Definition demo_waiting : shard unit Z * memory :=
  let '(_, _, s, m) := handle_event 100 0 demo_hpack (demo_config Server) (demo_at 1000) (demo_record 0) demo_get
                         demo_shard_0 demo_memory in (s, m).

Definition demo_other_record : tls_event_hdr := (demo_record 0) <| h_ssl_ptr := 8 |>.

Lemma records_stay_in_their_connection_witness :
  let k := ConnKey_from_event (demo_record 0) 1000 in
  let '(_, _, s', _) := handle_event 100 0 demo_hpack (demo_config Server) (demo_at 1100) demo_other_record demo_get
                          demo_waiting.1 demo_waiting.2 in
  (zlen ∘ pq_items <$> pending (sh demo_waiting.1) !! k) = Some 1 ∧
  pending (sh s') !! k = pending (sh demo_waiting.1) !! k.
Proof.
  intros k.
  assert (saturating_sub (w_now_ms (demo_at 1100)) (last_eviction_ms demo_waiting.1) < 10000) as Hs
    by (vm_compute; reflexivity).
  pose proof (records_stay_in_their_connection 100 0 demo_hpack (demo_config Server) (demo_at 1100) demo_other_record
    demo_get demo_waiting.1 demo_waiting.2 Hs) as Hr.
  destruct (handle_event _ _ _ _ _ _ _ demo_waiting.1 demo_waiting.2) as [[[a out] s'] m'].
  split; [vm_compute; reflexivity|].
  assert (k ≠ filed_under (demo_at 1100) demo_other_record (sh demo_waiting.1)) as Hk by (vm_compute; discriminate).
  exact (proj1 (proj1 Hr k Hk)).
Defined.
