(* ===== verification/Exchange.v ===== *)
(** An exchange on a connection the reader has not seen: the request is queued, its response reported. *)

From S2P Require Import Prelude Abi.
From S2P Require Import Wire Pending Memory Queues Text Http1 Http1Props Http2 Codecs Mcp Reader H2Conn.
From S2P Require Import Shard Handle Sharded.
From Stdlib Require Import Strings.String.

#[local] Notation length := List.length.
#[local] Open Scope list_scope.
#[local] Open Scope Z_scope.

#[local] Notation total := TOTAL_BUFFER_BYTES.

(** * Running a handler *)

Section Run.
Context {net table : Type}.
Notation handler := (handler net table).

Lemma exec_ret {A B} (a : A) (k : A → handler B) s m : (mret a ≫= k) s m = k a s m.
Proof. unfold mbind, handler_bind, mret, handler_ret. by destruct (k a s m) as [[[b out] s'] m']. Qed.

Lemma exec_gets {A B} (f : tables net table → A) (k : A → handler B) s m : (gets f ≫= k) s m = k (f (sh s)) s m.
Proof. unfold mbind, handler_bind, gets. by destruct (k _ s m) as [[[b out] s'] m']. Qed.

Lemma exec_upd {B} f (k : unit → handler B) s m :
  (upd f ≫= k) s m = k tt {| sh := f (sh s); last_eviction_ms := last_eviction_ms s |} m.
Proof. unfold mbind, handler_bind, upd. cbn. by destruct (k tt _ m) as [[[b out] s'] m']. Qed.

Lemma exec_charging {A B} (f : memory → A * memory) (k : A → handler B) s m :
  (charging f ≫= k) s m = let '(a, m') := f m in k a s m'.
Proof.
  unfold mbind, handler_bind, charging. destruct (f m) as [a m']. by destruct (k a s m') as [[[b out] s'] m2].
Qed.

Lemma exec_releasing {B} (f : memory → memory) (k : unit → handler B) s m :
  (releasing f ≫= k) s m = k tt s (f m).
Proof. apply exec_charging. Qed.

(** Whatever the first part does. *)
Lemma exec_bind {A B} (h : handler A) (k : A → handler B) s m a out s1 m1 :
  h s m = (Some a, out, s1, m1) →
  (h ≫= k) s m = let '(b, out', s2, m2) := k a s1 m1 in (b, out ++ out', s2, m2).
Proof. intros Hh. unfold mbind, handler_bind. by rewrite Hh. Qed.

Lemma exec_bind_silent {A B} (h : handler A) (k : A → handler B) s m a s1 m1 :
  h s m = (Some a, [], s1, m1) → (h ≫= k) s m = k a s1 m1.
Proof. intros Hh. rewrite (exec_bind _ _ _ _ _ _ _ _ Hh). by destruct (k a s1 m1) as [[[b out] s2] m2]. Qed.

Lemma exec_assoc {A B C} (h : handler A) (f : A → handler B) (k : B → handler C) s m :
  ((h ≫= f) ≫= k) s m = (h ≫= fun a => f a ≫= k) s m.
Proof.
  unfold mbind, handler_bind. destruct (h s m) as [[[[a|] out] s1] m1]; [|done].
  destruct (f a s1 m1) as [[[[b|] out1] s2] m2]; [|done].
  destruct (k b s2 m2) as [[[c out2] s3] m3]. by rewrite app_assoc.
Qed.
End Run.

Lemma zlen_nil_inv {A} (l : list A) : zlen l = 0 → l = [].
Proof. destruct l; [done|]. rewrite zlen_cons. pose proof (zlen_nonneg l). lia. Qed.

(** * A chunk of HTTP/1 *)

Section Http1.
Context {net table : Type} `{Unicode, Json} (sizeof_request : Z).
Context (hpack_new : table) (hpack_decode : table → bytes → hpack_result * table).
Context (cf : config).

Notation shard := (shard net table).
Notation max_total := (cf_max_total_buffer_bytes cf).
Implicit Types (s : shard) (t : tables net table) (w : surroundings net).

Definition put s t : shard := {| sh := t; last_eviction_ms := last_eviction_ms s |}.

Lemma put_id s : put s (sh s) = s.
Proof. by destruct s. Qed.

(** The key of an object and its incarnation. *)
Definition object_key (ev : tls_event_hdr) : Z * Z * Z * Z :=
  (h_pid ev, h_ssl_ptr ev, h_proc_start_ns ev, h_conn_generation ev).

(** The shard knows the connection since [born]. *)
Definition registered (ev : tls_event_hdr) (born : Z) t : tables net table :=
  t <| conn_born_ms := <[object_key ev := born]> (conn_born_ms t) |>
    <| known_connections := {[ConnKey_from_event ev born]} ∪ known_connections t |>.

(** The direction a role gives the requests. *)
Definition role_direction (r : TrafficRole) : option Z :=
  match r with Server => Some 0 | Client => Some 1 | Auto => None end.

(** The direction of requests a record is handled with: that of the role, the one learned for the connection, or the
    one read off the record. *)
Definition requests_go (ck : ConnKey) (ev : tls_event_hdr) (payload : bytes) t : option Z :=
  match role_direction (cf_role cf) with
  | Some dir => Some dir
  | None => match conn_roles t !! ck with
            | Some dir => Some dir
            | None => infer_request_direction (h_direction ev) (h_role_hint ev) payload
            end
  end.

(** What is learned from it, if the table has room. *)
Definition roles_after (ck : ConnKey) (dir : Z) (roles : gmap ConnKey Z) : gmap ConnKey Z :=
  match role_direction (cf_role cf), roles !! ck with
  | None, None => if Z.of_nat (size roles) <? MAX_STREAM_ENTRIES then <[ck := dir]> roles else roles
  | _, _ => roles
  end.

Definition learned (ck : ConnKey) (dir : Z) t : tables net table := t <| conn_roles := roles_after ck dir (conn_roles t) |>.

(** The direction is that of the role, or has been learned. *)
Definition role_known (ck : ConnKey) (dir : Z) t : Prop :=
  match role_direction (cf_role cf) with Some d => d = dir | None => conn_roles t !! ck = Some dir end.

Lemma role_known_goes ck dir ev payload t : role_known ck dir t → requests_go ck ev payload t = Some dir.
Proof. unfold role_known, requests_go. destruct (role_direction _); [by intros ->|]. by intros ->. Qed.

Lemma learned_known ck dir ev payload t :
  requests_go ck ev payload t = Some dir →
  cf_role cf ≠ Auto ∨ Z.of_nat (size (conn_roles t)) < MAX_STREAM_ENTRIES → role_known ck dir (learned ck dir t).
Proof.
  unfold requests_go, role_known, learned, roles_after. cbn. destruct (cf_role cf); cbn [role_direction]; [by intros [= ->]..|].
  destruct (conn_roles t !! ck) eqn:Hk; [by intros [= ->]|]. intros _ [?|Hr]; [done|].
  rewrite (proj2 (Z.ltb_lt _ _) Hr). apply lookup_insert_eq.
Qed.

Lemma known_learned ck dir t : role_known ck dir t → role_known ck dir (learned ck dir t).
Proof.
  unfold role_known, learned, roles_after. cbn. destruct (role_direction _); [done|]. intros Hk. by rewrite Hk.
Qed.

(** The scope lets the record through. *)
Definition in_scope w : Prop :=
  match cf_namespace_scope cf with None => True | Some allowed => ∃ ns, w_namespace w = Some ns ∧ ns ∈ allowed end.

Lemma run_check_scope w s m : in_scope w → check_scope (table := table) cf w s m = (Some tt, [], s, m).
Proof.
  unfold in_scope, check_scope. destruct (cf_namespace_scope cf); [|done]. intros (ns & -> & Hns).
  by rewrite bool_decide_eq_true_2.
Qed.

(** Nothing but HTTP/1 has been seen on the connection. *)
Definition plain (ck : ConnKey) t : Prop :=
  http2_state t !! ck = None ∧ h2_prefix t !! ck = None ∧ ck ∉ http3_connections t ∧ ck ∉ ws_connections t.

(** A chunk that does not look like another protocol. *)
Definition looks_http1 (is_request_dir : bool) (payload : bytes) : Prop :=
  payload ≠ [] ∧ looks_like_http3 payload = false ∧
  if is_request_dir then starts_with HTTP2_PREFACE payload = false ∧ starts_with payload HTTP2_PREFACE = false
  else looks_like_h2_connection_frames payload = false.

Lemma run_first_seen ev ts s m :
  let born := default ts (conn_born_ms (sh s) !! object_key ev) in
  first_seen ev ts s m =
    (Some born, [], put s ((sh s) <| conn_born_ms := <[object_key ev := born]> (conn_born_ms (sh s)) |>), m).
Proof.
  cbv zeta. unfold first_seen. fold (object_key ev). rewrite exec_gets.
  destruct (conn_born_ms (sh s) !! object_key ev) as [born|] eqn:E; cbn [default from_option id].
  - rewrite insert_id by done. by destruct s as [[]].
  - by rewrite exec_upd.
Qed.

Lemma run_track ck s m :
  track ck s m = (Some tt, if bool_decide (ck ∈ known_connections (sh s)) then [] else [Count ACTIVE_CONNECTIONS 1],
                  put s ((sh s) <| known_connections := {[ck]} ∪ known_connections (sh s) |>), m).
Proof.
  unfold track. rewrite exec_gets. case_bool_decide as Hk; [|by rewrite exec_upd].
  replace ({[ck]} ∪ known_connections (sh s)) with (known_connections (sh s))
    by (by rewrite subseteq_union_1_L by by apply singleton_subseteq_l).
  by destruct s as [[]].
Qed.

Lemma run_join_prefix ck (b : bool) payload s m : h2_prefix (sh s) !! ck = None →
  join_prefix ck b payload s m = (Some payload, [], s, m).
Proof.
  intros Hk. destruct b; [|done]. unfold join_prefix. rewrite exec_gets, exec_upd, Hk, delete_id by done.
  by destruct s as [[]].
Qed.

Lemma run_in_request_direction dir ck ev payload s m :
  requests_go ck ev payload (sh s) = Some dir →
  in_request_direction cf ck ev payload s m = (Some (h_direction ev =? dir), [], put s (learned ck dir (sh s)), m).
Proof.
  unfold requests_go, in_request_direction, request_direction, learned, roles_after.
  destruct (cf_role cf); cbn [role_direction]; intros Hd;
    [injection Hd as <-; rewrite exec_ret; by destruct s as [[]]..|].
  rewrite exec_assoc, exec_gets. destruct (conn_roles (sh s) !! ck) as [d|] eqn:Hk.
  - injection Hd as <-. rewrite exec_ret. by destruct s as [[]].
  - rewrite Hd, exec_assoc. destruct (_ <? MAX_STREAM_ENTRIES); cbn [when_].
    + by rewrite exec_upd, exec_ret.
    + rewrite !exec_ret. by destruct s as [[]].
Qed.

Lemma run_plain w ck sk (b : bool) payload s m :
  plain ck (sh s) → looks_http1 b payload →
  (hold_prefix ck sk b false payload s m = (Some tt, [], s, m)) ∧
  (http2_path sizeof_request hpack_new hpack_decode cf w ck sk b false payload s m = (Some tt, [], s, m)) ∧
  (http3_path sizeof_request cf w ck b false payload s m = (Some tt, [], s, m)) ∧
  (ws_path ck sk payload s m = (Some tt, [], s, m)).
Proof.
  intros (Hh2 & Hp & H3 & Hws) (Hne & Hl3 & Hl). split_and!.
  - unfold hold_prefix. rewrite exec_gets. destruct b; [destruct Hl as [_ ->]|]; by rewrite ?andb_false_r.
  - unfold http2_path. rewrite exec_gets. destruct b; cbn [negb andb]; [destruct Hl as [-> _]|rewrite Hl]; done.
  - unfold http3_path. rewrite exec_gets, Hl3, bool_decide_eq_false_2 by done. done.
  - unfold ws_path. rewrite exec_gets, bool_decide_eq_false_2 by done. done.
Qed.

(** What [handle_event] does once the direction is known. *)
Definition in_direction w ev (ck : ConnKey) (sk : StreamKey) (payload : bytes) (b : bool) : handler net table unit :=
  _ ← when_ (is_truncated ev) (on_truncated ck sk);
  is_known_h2 ← gets (fun t => bool_decide (is_Some (http2_state t !! ck)));
  payload ← join_prefix ck b payload;
  _ ← hold_prefix ck sk b is_known_h2 payload;
  _ ← http2_path sizeof_request hpack_new hpack_decode cf w ck sk b is_known_h2 payload;
  if zlen payload =? 0 then mret tt else
  _ ← http3_path sizeof_request cf w ck b is_known_h2 payload;
  _ ← ws_path ck sk payload;
  http1_path sizeof_request cf w ev ck sk b payload.

(** A record in scope, before the next sweep, whose direction is decided. *)
Lemma run_record w ev payload s m dir :
  let born := default (w_now_ms w) (conn_born_ms (sh s) !! object_key ev) in
  let ck := ConnKey_from_event ev born in
  in_scope w → requests_go ck ev payload (sh s) = Some dir →
  saturating_sub (w_now_ms w) (last_eviction_ms s) < 10000 →
  handle_event sizeof_request hpack_new hpack_decode cf w ev payload s m =
  let '(a, out, s', m') :=
    in_direction w ev ck (StreamKey_from_event ev) payload (h_direction ev =? dir)
      (put s (learned ck dir (registered ev born (sh s)))) m in
  (a, (if bool_decide (ck ∈ known_connections (sh s)) then [] else [Count ACTIVE_CONNECTIONS 1]) ++ out, s', m').
Proof.
  cbv zeta. set (born := default _ _). set (ck := ConnKey_from_event ev born).
  intros Hscope Hrole Hsweep. unfold handle_event.
  rewrite (exec_bind_silent _ _ _ _ _ _ _ (run_check_scope w s m Hscope)).
  rewrite (exec_bind_silent _ _ _ _ _ _ _ (run_first_seen ev (w_now_ms w) s m)). fold born ck.
  set (s1 := put s _).
  rewrite (exec_bind_silent _ _ _ _ tt s1 m).
  2: { unfold evict_stale. cbn [last_eviction_ms s1 put]. replace (_ <? 10000) with true by lia. done. }
  rewrite (exec_bind _ _ _ _ _ _ _ _ (run_track ck s1 m)).
  set (s2 := put s1 _). by rewrite (exec_bind_silent _ _ _ _ _ _ _ (run_in_request_direction dir ck ev payload s2 m Hrole)).
Qed.

(** Behind the gap check, a chunk that looks like HTTP/1 comes to the HTTP/1 parser. *)
Lemma run_plain_path w ev ck sk payload b s m :
  plain ck (sh s) → looks_http1 b payload →
  (is_known_h2 ← gets (fun t => bool_decide (is_Some (http2_state t !! ck)));
   payload ← join_prefix ck b payload;
   _ ← hold_prefix ck sk b is_known_h2 payload;
   _ ← http2_path sizeof_request hpack_new hpack_decode cf w ck sk b is_known_h2 payload;
   if zlen payload =? 0 then mret tt else
   _ ← http3_path sizeof_request cf w ck b is_known_h2 payload;
   _ ← ws_path ck sk payload;
   http1_path sizeof_request cf w ev ck sk b payload) s m =
  http1_path sizeof_request cf w ev ck sk b payload s m.
Proof.
  intros Hpl Hl. destruct (run_plain w ck sk _ payload s m Hpl Hl) as (R1 & R2 & R3 & R4).
  rewrite exec_gets, bool_decide_eq_false_2 by (destruct Hpl as [-> _]; by intros [? [=]]).
  rewrite (exec_bind_silent _ _ _ _ payload s m) by (apply run_join_prefix, Hpl).
  rewrite (exec_bind_silent _ _ _ _ _ _ _ R1), (exec_bind_silent _ _ _ _ _ _ _ R2).
  destruct Hl as [Hne _]. replace (zlen payload =? 0) with false by (symmetry; apply Z.eqb_neq; by intros ?%zlen_nil_inv).
  by rewrite (exec_bind_silent _ _ _ _ _ _ _ R3), (exec_bind_silent _ _ _ _ _ _ _ R4).
Qed.

(** A record of HTTP/1 goes to the decoder of its direction. *)
Lemma run_http1_record w ev payload s m dir :
  let born := default (w_now_ms w) (conn_born_ms (sh s) !! object_key ev) in
  let ck := ConnKey_from_event ev born in
  let sk := StreamKey_from_event ev in
  let b := h_direction ev =? dir in
  in_scope w → requests_go ck ev payload (sh s) = Some dir → is_truncated ev = false →
  saturating_sub (w_now_ms w) (last_eviction_ms s) < 10000 →
  plain ck (sh s) → sk ∉ gapped_streams (sh s) → looks_http1 b payload →
  handle_event sizeof_request hpack_new hpack_decode cf w ev payload s m =
  let '(a, out, s', m') :=
    (items ← http1_decode cf w ck sk b payload;
     msgs ← messages sk items;
     each (on_message sizeof_request cf w ck b payload) msgs) (put s (learned ck dir (registered ev born (sh s)))) m in
  (a, (if bool_decide (ck ∈ known_connections (sh s)) then [] else [Count ACTIVE_CONNECTIONS 1]) ++ out, s', m').
Proof.
  cbv zeta. intros Hscope Hrole Htr Hsweep Hpl Hgap Hl. rewrite (run_record w ev payload s m dir) by done.
  unfold in_direction. rewrite Htr. cbn [when_]. rewrite exec_ret, run_plain_path by done.
  unfold http1_path. erewrite exec_bind_silent; [done|]. unfold resynchronise.
  by rewrite exec_gets, bool_decide_eq_false_2.
Qed.

(** ** One message *)

(** The flags the decoder is given: the method of the request in front. *)
Definition answering (ck : ConnKey) (b : bool) t : bool * bool :=
  if b then (false, false)
  else match pending t !! ck with Some q => front_is_head_or_connect q | None => (false, false) end.

(** Nothing of the direction is buffered, its decoder is between messages, and [payload] is one whole
    message of which nothing is cut. *)
Definition one_message (ck : ConnKey) (sk : StreamKey) (b : bool) (payload : bytes) (msg : HttpMessage)
    (d : Http1Decoder) t : Prop :=
  buffers t !! sk = None ∧ h1_decoders t !! sk = None ∧
  ∃ total, let '(head, connect) := answering ck b t in
    Http1.feed (Http1Decoder_new MAX_BODY_CAPTURE_BYTES) payload head connect =
    Some (zlen payload, [Message {| hm_msg := msg; hm_body_total := total; hm_body_truncated := false;
                                    hm_partial := false |}], d).

(** The direction after it. *)
Definition decoded (sk : StreamKey) (now_ms : Z) (d : Http1Decoder) t : tables net table :=
  t <| buffers := <[sk := ([], now_ms)]> (buffers t) |> <| h1_decoders := <[sk := d]> (h1_decoders t) |>.

(** The ceiling leaves room for [n] more bytes. *)
Definition room (n : Z) (m : memory) : Prop :=
  0 <= n ∧ 0 <= total m ∧ total m + n < 2 ^ 64 ∧ total m + n <= max_total.

Lemma reserve_room n m : room n m →
  reserve_memory max_total n m = (true, m <| TOTAL_BUFFER_BYTES := total m + n |>) ∧
  release_memory n (m <| TOTAL_BUFFER_BYTES := total m + n |>) = m.
Proof.
  intros (Hn & Hm & Hw & Hmax). unfold reserve_memory, release_memory. split.
  - replace ((_ <? _) && (_ <=? _)) with true; [done|]. symmetry. apply andb_true_iff. lia.
  - destruct m as [t dr]. cbn in *. destruct (n =? 0) eqn:E; zbool.
    + by rewrite E, Z.add_0_r.
    + unfold set_field. cbn. f_equal. lia.
Qed.

Lemma run_http1_one w ck sk b payload msg d s m :
  one_message ck sk b payload msg d (sh s) → room (zlen payload) m → zlen payload <= cf_max_buffer cf →
  (items ← http1_decode cf w ck sk b payload;
   msgs ← messages sk items;
   each (on_message sizeof_request cf w ck b payload) msgs) s m =
  (_ ← on_message sizeof_request cf w ck b payload msg; mret tt) (put s (decoded sk (w_now_ms w) d (sh s))) m.
Proof.
  intros (Hbuf & Hdec & tot & Hfeed) Hroom Hmax. destruct (reserve_room _ _ Hroom) as [Hres Hrel].
  rewrite (exec_bind_silent _ _ _ _ [Message {| hm_msg := msg; hm_body_total := tot; hm_body_truncated := false;
    hm_partial := false |}] (put s (decoded sk (w_now_ms w) d (sh s))) m).
  { by rewrite (exec_bind_silent _ _ _ _ [msg] (put s (decoded sk (w_now_ms w) d (sh s))) m). }
  unfold http1_decode. rewrite exec_gets. fold (answering ck b (sh s)).
  destruct (answering ck b (sh s)) as [head connect]. rewrite exec_gets, Hbuf. cbn [fmap option_fmap option_map default from_option].
  rewrite exec_upd, exec_charging, Hres. cbn [negb app]. rewrite exec_upd.
  replace (cf_max_buffer cf <? zlen payload) with false by lia. rewrite exec_gets. cbn [sh h1_decoders].
  change (h1_decoders _ !! sk) with (h1_decoders (sh s) !! sk). rewrite Hdec. cbn [default from_option].
  rewrite Hfeed, exec_upd, exec_upd, exec_releasing, Hrel, zdrop_all. unfold mret, handler_ret, put, decoded, set_field. cbn.
  by rewrite !insert_insert_eq.
Qed.

(** ** A request and its response *)

Definition parsed w (rq : HttpRequestParsed) : ParsedRequest net :=
  {| pr_method := rq_method rq; pr_path := rq_path rq; pr_host := rq_host rq; pr_headers := rq_headers rq;
     pr_ts_ms := w_now_ms w; pr_net_ctx := w_net_ctx w; pr_body := rq_body rq |}.

Lemma run_request w ck rq payload s m :
  let r := truncate_body (parsed w rq) in
  is_usable_http_request (rq_method rq) (rq_path rq) = true → pending (sh s) !! ck = None →
  room (approx_bytes sizeof_request r) m →
  (_ ← on_message sizeof_request cf w ck true payload (Request rq); mret tt) s m =
  (Some tt, [], put s ((sh s) <| pending := <[ck := {| pq_items := [r]; pq_bytes := approx_bytes sizeof_request r |}]>
      (pending (sh s)) |>), m <| TOTAL_BUFFER_BYTES := total m + approx_bytes sizeof_request r |>).
Proof.
  cbv zeta. intros Huse Hck Hroom. destruct (reserve_room _ _ Hroom) as [Hres _]. destruct Hroom as (Hn & Hm & Hw & _).
  unfold on_message, on_request. rewrite Huse. cbn [andb when_]. fold (parsed w rq).
  unfold push_request. rewrite exec_assoc. unfold queue_of. rewrite exec_gets, Hck. cbn [default from_option].
  rewrite exec_assoc, exec_charging. unfold pq_push. cbn [pq_items pq_default]. change (MAX_PENDING_PER_CONN <=? zlen []) with false.
  cbn [negb]. unfold pb_add. rewrite Hres. cbn [pq_bytes pq_default]. unfold set_queue. by rewrite wrap_small by lia.
Qed.

(** The event of a request and its response. *)
Definition exchange_event w (r : ParsedRequest net) (resp : HttpResponseParsed) (protocol : string)
    (metadata : option McpEvent) : output net :=
  Event {| tx_request := r; tx_response := resp; tx_latency_ms := saturating_sub (w_now_ms w) (pr_ts_ms r);
           tx_protocol := protocol; tx_grpc := None |} metadata.

Lemma run_pop_request ck (r : ParsedRequest net) s m :
  is_usable_http_request (pr_method r) (pr_path r) = true → room (approx_bytes sizeof_request r) m →
  pending (sh s) !! ck = Some {| pq_items := [r]; pq_bytes := approx_bytes sizeof_request r |} →
  pop_request sizeof_request ck s (m <| TOTAL_BUFFER_BYTES := total m + approx_bytes sizeof_request r |>) =
  (Some (Some r), [], put s ((sh s) <| pending := <[ck := pq_default]> (pending (sh s)) |>), m).
Proof.
  intros Huse Hroom Hck. destruct (reserve_room _ _ Hroom) as [_ Hrel].
  unfold pop_request, queue_of. rewrite exec_gets, Hck. cbn [default from_option id]. rewrite exec_charging.
  unfold pq_pop_usable. cbn [pq_items pq_bytes pop_usable_from]. unfold pb_sub.
  rewrite Z.min_id, Hrel, Z.sub_diag, Huse. unfold set_queue. rewrite exec_upd, bool_decide_eq_false_2 by done. done.
Qed.

Lemma run_response w ck resp (r : ParsedRequest net) payload s m :
  rs_status_code resp = 101 ∨ ¬ (100 <= rs_status_code resp < 200) →
  is_usable_http_request (pr_method r) (pr_path r) = true → room (approx_bytes sizeof_request r) m →
  pending (sh s) !! ck = Some {| pq_items := [r]; pq_bytes := approx_bytes sizeof_request r |} →
  ∃ protocol metadata t,
    (_ ← on_message sizeof_request cf w ck false payload (Response resp); mret tt) s
      (m <| TOTAL_BUFFER_BYTES := total m + approx_bytes sizeof_request r |>) =
    (Some tt, [exchange_event w r resp protocol metadata], put s t, m) ∧ pending t !! ck = Some pq_default.
Proof.
  intros Hcode Huse Hroom Hck. unfold on_message, on_response.
  replace (_ && _ && _) with false by (destruct Hcode; lia). cbv zeta. rewrite exec_assoc.
  set (up := bool_decide _). set (t1 := if up then (sh s) <| ws_connections := {[ck]} ∪ ws_connections (sh s) |> else sh s).
  set (m1 := m <| TOTAL_BUFFER_BYTES := _ |>).
  rewrite (exec_bind_silent _ _ _ _ tt (put s t1) m1) by (unfold t1; destruct up; [done|by rewrite put_id]).
  assert (pending (sh (put s t1)) !! ck = Some {| pq_items := [r]; pq_bytes := approx_bytes sizeof_request r |})
    as Hck1 by (unfold t1; by destruct up).
  rewrite exec_assoc, (exec_bind_silent _ _ _ _ _ _ _ (run_pop_request ck r (put s t1) m Huse Hroom Hck1)).
  unfold answered. eexists _, _, _. split; [reflexivity|]. apply lookup_insert_eq.
Qed.

(** The shard has heard nothing of the object and its incarnation. *)
Definition unseen w (ev : tls_event_hdr) t : Prop :=
  let ck := ConnKey_from_event ev (w_now_ms w) in
  conn_born_ms t !! object_key ev = None ∧ ck ∉ known_connections t ∧ pending t !! ck = None ∧ plain ck t ∧
  ∀ dir, let sk := StreamKey_from_event (ev <| h_direction := dir |>) in
    sk ∉ gapped_streams t ∧ buffers t !! sk = None ∧ h1_decoders t !! sk = None.

(** A new decoder finds exactly one message, whole, in [payload]. *)
Definition whole_message (payload : bytes) (msg : HttpMessage) (head connect : bool) : Prop :=
  ∃ total d, Http1.feed (Http1Decoder_new MAX_BODY_CAPTURE_BYTES) payload head connect =
    Some (zlen payload, [Message {| hm_msg := msg; hm_body_total := total; hm_body_truncated := false;
                                    hm_partial := false |}], d).

(** A record the shard takes as it is: in scope, not cut, before the next sweep. *)
Definition taken w (ev : tls_event_hdr) (payload : bytes) s : Prop :=
  in_scope w ∧ is_truncated ev = false ∧
  saturating_sub (w_now_ms w) (last_eviction_ms s) < 10000 ∧ zlen payload <= cf_max_buffer cf.

Lemma run_first_record w ev payload rq s m dir :
  let ck := ConnKey_from_event ev (w_now_ms w) in
  let r := truncate_body (parsed w rq) in
  requests_go ck ev payload (sh s) = Some dir → h_direction ev = dir → taken w ev payload s → unseen w ev (sh s) →
  looks_http1 true payload → whole_message payload (Request rq) false false →
  is_usable_http_request (rq_method rq) (rq_path rq) = true →
  room (zlen payload) m → room (approx_bytes sizeof_request r) m →
  ∃ d, handle_event sizeof_request hpack_new hpack_decode cf w ev payload s m =
    (Some tt, [Count ACTIVE_CONNECTIONS 1],
     put s ((decoded (StreamKey_from_event ev) (w_now_ms w) d (learned ck dir (registered ev (w_now_ms w) (sh s))))
       <| pending := <[ck := {| pq_items := [r]; pq_bytes := approx_bytes sizeof_request r |}]> (pending (sh s)) |>),
     m <| TOTAL_BUFFER_BYTES := total m + approx_bytes sizeof_request r |>).
Proof.
  cbv zeta. intros Hrole Hdir (Hscope & Htr & Hsweep & Hmax) (Hborn & Hknown & Hpend & Hpl & Hsk) Hl (tot & d & Hfeed) Huse Hroom Hroom2.
  destruct (Hsk (h_direction ev)) as (Hgap & Hbuf & Hdec).
  assert (StreamKey_from_event (ev <| h_direction := h_direction ev |>) = StreamKey_from_event ev) as Esk by done.
  rewrite Esk in Hgap, Hbuf, Hdec. exists d.
  pose proof (run_http1_record w ev payload s m dir) as Hrun. cbv zeta in Hrun.
  rewrite Hborn in Hrun. cbn [default from_option] in Hrun. rewrite Hdir, Z.eqb_refl in Hrun.
  rewrite Hrun, bool_decide_eq_false_2 by done. rewrite (run_http1_one _ _ _ _ _ (Request rq) d); [|by split_and!; [..|exists tot]|done..].
  rewrite run_request by done. done.
Qed.
End Http1.

(** C4: A request and its response become one event. On an object the shard has not heard of, take a record
    with one whole request, in the direction requests go (that of the role, or with the role [Auto] the one read
    off this record, for which the table of roles has room), and then a record of the other direction with one
    whole response that is not informational. They are reported as exactly one event: that request (its body cut to
    8192 bytes) with that response, and the time between the two records as latency; the connection is counted
    once, and the memory counter ends where it was. The response is decoded with the method of the request, so that the
    answer to HEAD has no body. Each record is let through by the scope, is not cut, comes before the next sweep
    (one that is due can drop the request: [ShardRuns.sweep_orphans_request]), is within the limit of a buffer and
    finds room below the ceiling, and does not look like another protocol (a response body that does is taken for it:
    [ShardRuns.body_taken_for_http3]); the method and path of the request are usable. *)
Theorem exchange_reported {net table : Type} `{Unicode, Json} (sizeof_request : Z) (hpack_new : table)
    (hpack_decode : table → bytes → hpack_result * table) (cf : config) (w1 w2 : surroundings net)
    (ev1 ev2 : tls_event_hdr) (payload1 payload2 : bytes) (rq : HttpRequestParsed)
    (resp : HttpResponseParsed) (dir : Z) (s : shard net table) (m : memory)
    (Hrole : requests_go cf (ConnKey_from_event ev1 (w_now_ms w1)) ev1 payload1 (sh s) = Some dir)
    (Hlearn : cf_role cf ≠ Auto ∨ Z.of_nat (size (conn_roles (sh s))) < MAX_STREAM_ENTRIES)
    (Hobject : object_key ev2 = object_key ev1)
    (Hdir : h_direction ev1 = dir ∧ h_direction ev2 ≠ dir)
    (Hunseen : unseen w1 ev1 (sh s))
    (Htaken : taken cf w1 ev1 payload1 s ∧ taken cf w2 ev2 payload2 s)
    (Hlooks : looks_http1 true payload1 ∧ looks_http1 false payload2)
    (Hrequest : whole_message payload1 (Request rq) false false)
    (Husable : is_usable_http_request (rq_method rq) (rq_path rq) = true)
    (Hresponse : whole_message payload2 (Response resp) (bool_decide (rq_method rq = lit "HEAD"))
                   (bool_decide (rq_method rq = lit "CONNECT")))
    (Hfinal : rs_status_code resp = 101 ∨ ¬ (100 <= rs_status_code resp < 200)) :
  let r := truncate_body (parsed w1 rq) in
  let size := approx_bytes sizeof_request r in
  let m1 := m <| TOTAL_BUFFER_BYTES := total m + size |> in
  ∀ (Hroom : room cf (zlen payload1) m ∧ room cf size m ∧ room cf (zlen payload2) m1),
  ∃ s1 s2 protocol metadata,
    handle_event sizeof_request hpack_new hpack_decode cf w1 ev1 payload1 s m =
      (Some tt, [Count ACTIVE_CONNECTIONS 1], s1, m1) ∧
    handle_event sizeof_request hpack_new hpack_decode cf w2 ev2 payload2 s1 m1 =
      (Some tt, [exchange_event w2 r resp protocol metadata], s2, m).
Proof.
  cbv zeta. set (r := truncate_body (parsed w1 rq)). set (size := approx_bytes sizeof_request r). intros (Hr1 & Hr2 & Hr3).
  destruct Hdir as [Hd1 Hd2], Htaken as [Ht1 (Hscope & Htr & Hsweep & Hmax)], Hlooks as [Hl1 Hl2].
  destruct Hresponse as (tot & d2 & Hfeed).
  destruct (run_first_record sizeof_request hpack_new hpack_decode cf w1 ev1 payload1 rq s m dir) as (d1 & Hrun1);
    [done..|]. fold r size in Hrun1. set (ck := ConnKey_from_event ev1 (w_now_ms w1)) in *.
  destruct Hunseen as (Hborn & Hknown & Hpend & Hpl & Hsk). specialize (Hsk (h_direction ev2)).
  set (s1 := put s _) in Hrun1. set (m1 := m <| TOTAL_BUFFER_BYTES := _ |>) in *.
  assert (ConnKey_from_event ev2 (w_now_ms w1) = ck ∧
    StreamKey_from_event ev2 = StreamKey_from_event (ev1 <| h_direction := h_direction ev2 |>)) as [Eck Esk].
  { unfold object_key in Hobject. injection Hobject as E1 E2 E3 E4. unfold ck, ConnKey_from_event, StreamKey_from_event.
    cbn. by rewrite E1, E2, E3, E4. }
  cbv zeta in Hsk. rewrite <- Esk in Hsk. destruct Hsk as (Hgap & Hbuf & Hdec).
  assert (StreamKey_from_event ev1 ≠ StreamKey_from_event ev2) as Hne.
  { intros Heq. apply (f_equal sk_direction) in Heq. cbn in Heq. congruence. }
  pose proof (run_http1_record sizeof_request hpack_new hpack_decode cf w2 ev2 payload2 s1 m1 dir) as Hrun2.
  cbv zeta in Hrun2. rewrite Hobject in Hrun2. change (conn_born_ms (sh s1)) with (<[object_key ev1 := w_now_ms w1]> (conn_born_ms (sh s))) in Hrun2.
  rewrite lookup_insert_eq in Hrun2. cbn [default from_option id] in Hrun2. rewrite Eck in Hrun2.
  replace (h_direction ev2 =? dir) with false in Hrun2 by lia.
  rewrite bool_decide_eq_true_2 in Hrun2 by (apply elem_of_union_l, elem_of_singleton; done).
  assert (requests_go cf ck ev2 payload2 (sh s1) = Some dir) as Hrole2
    by (apply role_known_goes; by eapply (learned_known cf ck dir ev1 payload1 (registered ev1 (w_now_ms w1) (sh s)))).
  set (s1' := put s1 (learned cf ck dir (registered ev2 (w_now_ms w1) (sh s1)))) in Hrun2.
  rewrite (run_http1_one sizeof_request cf w2 ck (StreamKey_from_event ev2) false payload2 (Response resp) d2 s1' m1) in Hrun2;
    [|split; [|split]|done..].
  - set (s2 := put s1' _) in Hrun2.
    destruct (run_response sizeof_request cf w2 ck resp r payload2 s2 m) as (protocol & metadata & t & Hresp & _);
      [done..|apply lookup_insert_eq|].
    fold size m1 in Hresp. rewrite Hresp in Hrun2. exists s1, (put s2 t), protocol, metadata. split; [done|].
    by apply Hrun2.
  - change (buffers (sh s1')) with (<[StreamKey_from_event ev1 := ([], w_now_ms w1)]> (buffers (sh s))).
    by rewrite lookup_insert_ne.
  - change (h1_decoders (sh s1')) with (<[StreamKey_from_event ev1 := d1]> (h1_decoders (sh s))).
    by rewrite lookup_insert_ne.
  - exists tot. unfold answering.
    change (pending (sh s1')) with (<[ck := {| pq_items := [r]; pq_bytes := size |}]> (pending (sh s))).
    rewrite lookup_insert_eq. exact Hfeed.
Qed.

Definition demo_rq : HttpRequestParsed := {|
  rq_method := lit "GET"; rq_path := lit "/a"; rq_host := Some (lit "h"); rq_headers := [(lit "host", lit "h")];
  rq_body := [] |}.

Definition demo_resp : HttpResponseParsed := {|
  rs_status_code := 200; rs_headers := [(lit "content-length", lit "2")]; rs_body := lit "ok" |}.

Lemma exchange_reported_witness :
  let r := truncate_body (parsed (demo_at 1000) demo_rq) in
  ∃ s1 s2 protocol metadata m1,
    handle_event 100 0 demo_hpack (demo_config Auto) (demo_at 1000) (demo_record 0) demo_get demo_shard_0
      demo_memory = (Some tt, [Count ACTIVE_CONNECTIONS 1], s1, m1) ∧
    handle_event 100 0 demo_hpack (demo_config Auto) (demo_at 1250) (demo_record 1) demo_ok s1 m1 =
      (Some tt, [exchange_event (demo_at 1250) r demo_resp protocol metadata], s2, demo_memory).
Proof.
  assert (unseen (demo_at 1000) (demo_record 0) (sh demo_shard_0)) as Hunseen.
  { split_and!; try (done || apply not_elem_of_empty). }
  destruct (exchange_reported 100 0 demo_hpack (demo_config Auto) (demo_at 1000) (demo_at 1250)
    (demo_record 0) (demo_record 1) demo_get demo_ok demo_rq demo_resp 0 demo_shard_0 demo_memory)
    as (s1 & s2 & protocol & metadata & H1 & H2);
    [reflexivity|right; reflexivity|reflexivity|split; [reflexivity|discriminate]|exact Hunseen| | | |reflexivity| |right; cbn; lia| |].
  - vm_compute. split_and!; reflexivity || discriminate.
  - vm_compute. split_and!; reflexivity || discriminate.
  - eexists _, _. vm_compute. reflexivity.
  - eexists _, _. vm_compute. reflexivity.
  - vm_compute. split_and!; reflexivity || discriminate.
  - eexists s1, s2, protocol, metadata, _. split; [exact H1|exact H2].
Defined.
