(* ===== verification/ShardRuns.v ===== *)
(** Bytes the kernel did not capture are never bridged: behind a gap an HTTP/1 direction is silent until a
    record begins a message. Then runs in which the code does not do what it means to, and the shutdown. *)

From S2P Require Import Prelude Abi Wire Pending Memory Queues Text Http1 Http1Props Http2 Http2Props Codecs.
From S2P Require Import Mcp Reader ReaderProps H2Conn Shard Handle ShardMem ShardSweep ShardBooks Sharded.
From S2P Require Import ShardRel ShardLocal Exchange.
From Stdlib Require Import Strings.String.

#[local] Notation length := List.length.
#[local] Open Scope list_scope.
#[local] Open Scope Z_scope.
#[local] Notation total := TOTAL_BUFFER_BYTES.

Section Gap.
Context {net table : Type} `{Unicode, Json} (sizeof_request : Z).
Context (hpack_new : table) (hpack_decode : table → bytes → hpack_result * table).
Context (cf : config).

Notation shard := (shard net table).
Notation record := (surroundings net * tls_event_hdr * bytes)%type.
Implicit Types (s : shard) (t : tables net table) (w : surroundings net).

(** Nothing of the direction is kept, and its gap is known. *)
Definition lost (sk : StreamKey) t : Prop :=
  sk ∈ gapped_streams t ∧ buffers t !! sk = None ∧ h1_decoders t !! sk = None.

(** Metrics only. *)
Definition silent (out : list (output net)) : Prop :=
  Forall (fun o => match o with Count _ _ => True | _ => False end) out.

(** Records handled one after the other. *)
Fixpoint run_records (records : list record) s (m : memory) : list (output net) * shard * memory :=
  match records with
  | [] => ([], s, m)
  | (w, ev, payload) :: records' =>
      let '(_, out, s, m) := handle_event sizeof_request hpack_new hpack_decode cf w ev payload s m in
      let '(out', s, m) := run_records records' s m in
      (out ++ out', s, m)
  end.

Lemma run_on_truncated ck sk s m : plain ck (sh s) →
  ∃ t m', on_truncated ck sk s m = (Some tt, [Count CAPTURE_GAPS 1], put s t, m') ∧ lost sk t ∧ plain ck t ∧
    pending t = pending (sh s) ∧ conn_born_ms t = conn_born_ms (sh s) ∧ conn_roles t = conn_roles (sh s).
Proof.
  intros Hpl. unfold on_truncated, count. rewrite (exec_bind _ _ _ _ tt [Count CAPTURE_GAPS 1] s m) by done.
  rewrite exec_gets. destruct Hpl as [Hh2 Hpl]. rewrite Hh2. unfold discard_buffer. rewrite exec_assoc, exec_gets.
  assert (∀ t : tables net table, sk ∈ {[sk]} ∪ gapped_streams t) as Hsk by (intros t; by apply elem_of_union_l, elem_of_singleton).
  destruct (buffers (sh s) !! sk) as [[buf ts]|] eqn:E.
  - rewrite exec_assoc, exec_upd. rewrite exec_releasing. unfold mark_gap, upd. eexists _, _. split; [reflexivity|].
    split; [split; [apply Hsk|split; cbn; apply lookup_delete_eq]|]. by split_and!.
  - rewrite exec_ret. unfold mark_gap, upd. eexists _, _. split; [reflexivity|].
    split; [split; [apply Hsk|split; cbn; [done|apply lookup_delete_eq]]|]. by split_and!.
Qed.

(** A record that is cut, or one behind a gap that does not begin a message. *)
Lemma run_gap_record w ev payload s m dir :
  let born := default (w_now_ms w) (conn_born_ms (sh s) !! object_key ev) in
  let ck := ConnKey_from_event ev born in
  let sk := StreamKey_from_event ev in
  in_scope cf w → role_known cf ck dir (sh s) →
  saturating_sub (w_now_ms w) (last_eviction_ms s) < 10000 →
  plain ck (sh s) → looks_http1 (h_direction ev =? dir) payload →
  is_truncated ev = true ∨ lost sk (sh s) ∧ starts_http1_message payload = false →
  ∃ out t m', handle_event sizeof_request hpack_new hpack_decode cf w ev payload s m = (None, out, put s t, m') ∧
    silent out ∧ lost sk t ∧ plain ck t ∧ role_known cf ck dir t ∧
    pending t = pending (sh s) ∧ conn_born_ms t !! object_key ev = Some born.
Proof.
  cbv zeta. set (born := default _ _). set (ck := ConnKey_from_event ev born). set (sk := StreamKey_from_event ev).
  intros Hscope Hrole Hsweep Hpl Hl Hgap. rewrite (run_record _ _ _ _ w ev payload s m dir) by (done || by apply role_known_goes).
  fold born ck sk.
  set (s1 := put s _). assert (plain ck (sh s1)) as Hpl1 by exact Hpl.
  assert (role_known cf ck dir (sh s1)) as Hrole1 by by apply known_learned.
  set (known := if bool_decide _ then _ else _). assert (silent known) as Hknown by (unfold known; case_match; repeat constructor).
  assert (conn_born_ms (sh s1) !! object_key ev = Some born) as Hborn by apply lookup_insert_eq.
  unfold in_direction. destruct (is_truncated ev) eqn:Etr; cbn [when_].
  - destruct (run_on_truncated ck sk s1 m Hpl1) as (t & m' & Ht & Hlost & Hplt & Hpend & Hb & Hroles).
    rewrite (exec_bind _ _ _ _ _ _ _ _ Ht), run_plain_path by done. unfold http1_path, resynchronise.
    rewrite exec_assoc, exec_gets, bool_decide_eq_true_2, Etr, orb_true_r by apply Hlost.
    eexists _, t, m'. split; [reflexivity|]. split; [|by unfold role_known; rewrite Hb, Hroles].
    apply Forall_app. split; [done|]. repeat constructor.
  - destruct Hgap as [[=]|[Hlost Hstart]]. rewrite exec_ret, run_plain_path by done. unfold http1_path, resynchronise.
    rewrite exec_assoc, exec_gets, bool_decide_eq_true_2, Hstart by apply Hlost.
    eexists _, _, m. split; [reflexivity|]. split; [|done]. by rewrite app_nil_r.
Qed.

(** Another record of the direction of [ev0], before the next sweep, that looks like nothing but HTTP/1,
    and is cut itself or does not begin a message. *)
Definition behind_gap (ev0 : tls_event_hdr) (dir : Z) s (r : record) : Prop :=
  let '(w, ev, payload) := r in
  object_key ev = object_key ev0 ∧ h_direction ev = h_direction ev0 ∧ in_scope cf w ∧
  saturating_sub (w_now_ms w) (last_eviction_ms s) < 10000 ∧
  looks_http1 (h_direction ev =? dir) payload ∧
  (is_truncated ev = true ∨ starts_http1_message payload = false).

Lemma same_object ev ev0 born :
  object_key ev = object_key ev0 → h_direction ev = h_direction ev0 →
  ConnKey_from_event ev born = ConnKey_from_event ev0 born ∧ StreamKey_from_event ev = StreamKey_from_event ev0.
Proof.
  unfold object_key. intros Hk Hd. injection Hk as E1 E2 E3 E4. unfold ConnKey_from_event, StreamKey_from_event.
  by rewrite E1, E2, E3, E4, Hd.
Qed.

Lemma run_behind_gap ev0 dir born records s m :
  role_known cf (ConnKey_from_event ev0 born) dir (sh s) →
  Forall (behind_gap ev0 dir s) records →
  conn_born_ms (sh s) !! object_key ev0 = Some born →
  lost (StreamKey_from_event ev0) (sh s) → plain (ConnKey_from_event ev0 born) (sh s) →
  let '(out, s', _) := run_records records s m in
  silent out ∧ pending (sh s') = pending (sh s) ∧ lost (StreamKey_from_event ev0) (sh s').
Proof.
  revert s m. induction records as [|[[w ev] payload] records IH]; intros s m Hrole Hrs Hborn Hlost Hpl;
    cbn [run_records]; [by split; [apply Forall_nil_2|]|].
  apply list.Forall_cons in Hrs as [(Hobj & Hdir & Hscope & Hsweep & Hl & Hor) Hrs].
  destruct (same_object ev ev0 born Hobj Hdir) as [Eck Esk].
  pose proof (run_gap_record w ev payload s m dir) as Hrun. cbv zeta in Hrun.
  rewrite Hobj, Hborn in Hrun. cbn [default from_option id] in Hrun. rewrite Eck, Esk in Hrun.
  destruct Hrun as (out & t & m' & -> & Hout & Hlost' & Hpl' & Hrole' & Hpend & Hborn'); [done..|tauto|].
  specialize (IH (put s t) m' Hrole' Hrs Hborn' Hlost' Hpl'). destruct (run_records records _ m') as [[out' s'] m2].
  destruct IH as (Hout' & Hpend' & Hl'). split; [by apply Forall_app|]. split; [by rewrite Hpend'|done].
Qed.
End Gap.

(** C13: The HTTP/1 parser never joins bytes across a gap. On a connection on which nothing but HTTP/1 has been
    seen, when the kernel has cut a record of a direction short, whatever was buffered of the direction is
    discarded; and however many records of the direction follow, as long as each is cut itself or does not begin a
    message, none of them is buffered or decoded: nothing is reported, no request is queued or taken from the queue, and
    the direction stays marked. The records are let through by the scope, come before the next sweep (which can
    take the mark away) and do not look like another protocol; the direction of requests is fixed by the role or has been
    learned. (An HTTP/2 connection is dropped at the gap instead, and not marked: [ShardRuns.http2_gap_is_forgotten].) *)
Theorem gap_is_not_bridged {net table : Type} `{Unicode, Json} (sizeof_request : Z) (hpack_new : table)
    (hpack_decode : table → bytes → hpack_result * table) (cf : config) (dir : Z)
    (w0 : surroundings net) (ev0 : tls_event_hdr) (payload0 : bytes)
    (records : list (surroundings net * tls_event_hdr * bytes)) (s : shard net table) (m : memory) :
  let ck := ConnKey_from_event ev0 (default (w_now_ms w0) (conn_born_ms (sh s) !! object_key ev0)) in
  ∀ (Hrole : role_known cf ck dir (sh s)) (Hplain : plain ck (sh s))
    (Hcut : is_truncated ev0 = true)
    (Hrecords : Forall (behind_gap cf ev0 dir s) ((w0, ev0, payload0) :: records)),
  let '(out, s', _) :=
    run_records sizeof_request hpack_new hpack_decode cf ((w0, ev0, payload0) :: records) s m in
  silent out ∧ pending (sh s') = pending (sh s) ∧ lost (StreamKey_from_event ev0) (sh s').
Proof.
  intros ck Hrole Hplain Hcut Hrecords. apply list.Forall_cons in Hrecords as [(_ & _ & Hscope & Hsweep & Hl & _) Hrs].
  destruct (run_gap_record sizeof_request hpack_new hpack_decode cf w0 ev0 payload0 s m dir)
    as (out & t & m' & Hrun & Hout & Hlost & Hpl & Hrole' & Hpend & Hborn); [done..|by left|].
  cbn [run_records]. rewrite Hrun.
  pose proof (run_behind_gap sizeof_request hpack_new hpack_decode cf ev0 dir _ records (put s t) m'
    Hrole' Hrs Hborn Hlost Hpl) as Hr.
  destruct (run_records _ _ _ _ records (put s t) m') as [[out' s'] m2]. destruct Hr as (Hout' & Hp & Hl').
  split; [by apply Forall_app|]. split; [by rewrite Hp|done].
Qed.

(** A request whose body comes in four records, the second of which is cut. *)
Definition demo_cut : tls_event_hdr := (demo_record 0) <| h_flags := FLAG_TRUNCATED |>.

Definition demo_begun : shard unit Z * memory :=
  let '(_, _, s, m) := handle_event 100 0 demo_hpack (demo_config Server) (demo_at 1000) (demo_record 0)
    (lit "POST /b HTTP/1.1" ++ CRLF ++ lit "Content-Length: 9" ++ CRLF ++ CRLF ++ lit "abc") demo_shard_0 demo_memory in
  (s, m).

Lemma gap_is_not_bridged_witness :
  let records := [(demo_at 1001, demo_cut, lit "def"); (demo_at 1002, demo_record 0, lit "ghi");
                  (demo_at 1003, demo_record 0, lit "jkl")] in
  (zlen ∘ fst <$> buffers (sh demo_begun.1) !! StreamKey_from_event (demo_record 0)) = Some 0 ∧
  let '(out, s', _) := run_records 100 0 demo_hpack (demo_config Server) records demo_begun.1 demo_begun.2 in
  silent out ∧ pending (sh s') = pending (sh demo_begun.1) ∧ lost (StreamKey_from_event (demo_record 0)) (sh s').
Proof.
  intros records. split; [vm_compute; reflexivity|].
  apply (gap_is_not_bridged 100 0 demo_hpack (demo_config Server) 0 (demo_at 1001) demo_cut (lit "def")
    [(demo_at 1002, demo_record 0, lit "ghi"); (demo_at 1003, demo_record 0, lit "jkl")]).
  - split; reflexivity.
  - split; [vm_compute; reflexivity|]. split; [vm_compute; reflexivity|].
    split; apply (bool_decide_unpack _); vm_compute; exact I.
  - reflexivity.
  - repeat (apply Forall_cons_2; [vm_compute; split_and!; reflexivity || discriminate || (left; reflexivity) || (right; reflexivity)|]).
    apply Forall_nil_2.
Defined.

(** * Runs that go wrong

    In these runs of a shard, computed, the code does not do what it means to. *)

(** The outputs of records handled one after the other: when, in which direction, what. *)
Fixpoint outputs (cf : config) (records : list (Z * Z * bytes)) (s : shard unit Z) (m : memory)
    : list (list (output unit)) :=
  match records with
  | [] => []
  | (now_ms, dir, payload) :: records' =>
      let '(_, out, s, m) := handle_event 100 0 demo_hpack cf (demo_at now_ms) (demo_record dir) payload s m in
      out :: outputs cf records' s m
  end.

Definition events (outs : list (list (output unit))) : list (bytes * Z * bytes * bytes) :=
  omap (fun o => match o with
                 | Event t _ => Some (pr_path (tx_request t), rs_status_code (tx_response t),
                                      pr_body (tx_request t), rs_body (tx_response t))
                 | _ => None
                 end) (mjoin outs).

Definition has_count (c : counter) (out : list (output unit)) : bool :=
  existsb (fun o => match o with
                    | Count c' _ => match c, c' with
                                    | UNPAIRED_RESPONSES, UNPAIRED_RESPONSES | CAPTURE_GAPS, CAPTURE_GAPS => true
                                    | _, _ => false
                                    end
                    | _ => false
                    end) out.

(** A connection that is kept alive: its first exchange at 20 s, its second at 40 s, when the sweep of
    [handle_event] is due. The sweep forgets when the connection was first seen after the event has
    been given its key, so the request waits under a key its response is not looked up under. *)
Lemma sweep_orphans_request :
  let outs := outputs (demo_config Server) [(20000, 0, demo_get); (20001, 1, demo_ok); (40000, 0, demo_get); (40001, 1, demo_ok)]
                demo_shard_0 demo_memory in
  events outs = [(lit "/a", 200, [], lit "ok")] ∧
  has_count UNPAIRED_RESPONSES (List.last outs []) = true.
Proof. vm_compute. split; reflexivity. Qed.

Definition demo_post (n : string) : bytes :=
  lit "POST /b HTTP/1.1" ++ CRLF ++ lit "Content-Length: " ++ lit n ++ CRLF ++ CRLF.

(** The body of an HTTP/1 request that begins with the bytes 0 and 2 comes as a record of its own: it is
    taken for HTTP/3, and neither its request nor any later one of the connection is reported. *)
Lemma body_taken_for_http3 :
  let outs := outputs (demo_config Server) [(1000, 0, demo_post "4"); (1001, 0, [x00; x02; x00; x00]); (1002, 1, demo_ok);
                (1003, 0, demo_get); (1004, 1, demo_ok)] demo_shard_0 demo_memory in
  events outs = [] ∧
  events (outputs (demo_config Server) [(1000, 0, demo_post "4"); (1001, 0, lit "abcd"); (1002, 1, demo_ok);
    (1003, 0, demo_get); (1004, 1, demo_ok)] demo_shard_0 demo_memory) =
  [(lit "/b", 200, lit "abcd", lit "ok"); (lit "/a", 200, [], lit "ok")].
Proof. vm_compute. split; reflexivity. Qed.

(** A cut record of an HTTP/2 connection drops the connection without a mark: the bytes that follow it, the inside
    of a frame for all the shard knows, are parsed as if they began a message, here of HTTP/1. *)
Lemma http2_gap_is_forgotten :
  let records := [(demo_at 1000, demo_record 0, HTTP2_PREFACE); (demo_at 1001, demo_cut, lit "a frame");
                  (demo_at 1002, demo_record 0, demo_get); (demo_at 1003, demo_record 1, demo_ok)] in
  let '(out, s', _) := run_records 100 0 demo_hpack (demo_config Server) records demo_shard_0 demo_memory in
  has_count CAPTURE_GAPS out = true ∧ events [out] = [(lit "/a", 200, [], lit "ok")] ∧ gapped_streams (sh s') = ∅.
Proof. vm_compute. repeat split; reflexivity. Qed.

(** A ceiling of 700 bytes: the second record does not fit beside what is buffered and is dropped, but
    the direction is not marked as having a gap. The body is put together from what comes before and
    behind the bytes that were dropped. *)
Lemma refused_chunk_is_spliced :
  let cf := {| cf_role := Server; cf_max_buffer := 65536; cf_max_total_buffer_bytes := 700;
               cf_namespace_scope := None |} in
  let outs := outputs cf [(1000, 0, demo_post "8" ++ lit "ab"); (1001, 0, lit "cd" ++ replicate 700 x21);
                          (1002, 0, lit "efghij"); (1003, 1, demo_ok)] demo_shard_0 demo_memory in
  events outs = [(lit "/b", 200, lit "abefghij", lit "ok")] ∧
  existsb (has_count CAPTURE_GAPS) outs = false.
Proof. vm_compute. split; reflexivity. Qed.

(** Two requests are answered in one record. Whether an answer has a body is decided for the whole record
    by the method of the first request, HEAD: the body of the second answer is read as the head of a
    message, and the answer is lost. *)
Lemma head_flag_covers_the_record :
  let head := lit "HEAD /h HTTP/1.1" ++ CRLF ++ lit "Host: h" ++ CRLF ++ CRLF in
  let no_body := lit "HTTP/1.1 200 OK" ++ CRLF ++ lit "Content-Length: 2" ++ CRLF ++ CRLF in
  let outs := outputs (demo_config Server) [(1000, 0, head ++ demo_get); (1001, 1, no_body ++ demo_ok)]
                demo_shard_0 demo_memory in
  let apart := outputs (demo_config Server) [(1000, 0, head ++ demo_get); (1001, 1, no_body); (1002, 1, demo_ok)]
                demo_shard_0 demo_memory in
  events apart = [(lit "/h", 200, [], []); (lit "/a", 200, [], lit "ok")] ∧
  events outs = [(lit "/h", 200, [], []); (lit "/a", 200, [], [])].
Proof. vm_compute. split; reflexivity. Qed.

(** * Shutdown

    When the sensor stops, every request that still waits is reported. *)

Section Shutdown.
Context {net table : Type} (sizeof_request : Z) (Hsize : 0 <= sizeof_request).

Notation direction := (Http2Direction (table := table)).
Notation conn := (Http2Conn (net := net) (h2dir := direction)).
Notation queue := (PendingQueue net).
Notation shard := (shard net table).

#[local] Existing Instance Http2Conn_fields.

Implicit Types (s : shard) (t : tables net table).

(** The requests that wait, with their protocol: queue by queue, then HTTP/2 connection by connection. *)
Definition waiting t : list (ParsedRequest net * string) :=
  mjoin (queue_requests (http3_connections t) <$> map_to_list (pending t)) ++
  mjoin ((fun kc => (fun r => (r, "HTTP/2"%string)) <$> stream_requests (hc_pending_requests kc.2)) <$>
          map_to_list (http2_state t)).

(** The loops are those of a close. *)
Lemma sweep_queues_drain h3 (l : list (ConnKey * queue)) m :
  let '(reqs, qs, m') := sweep_queues (pq_take_all sizeof_request) h3 l m in
  drain_queues sizeof_request h3 l m = (reqs, qs.*2, m').
Proof.
  revert m. induction l as [|[k q] l IH]; intros m; cbn [sweep_queues drain_queues]; [done|].
  destruct (pq_take_all sizeof_request q m) as [[out q'] m1]. specialize (IH m1).
  destruct (sweep_queues _ _ l m1) as [[reqs qs] m2]. by rewrite IH.
Qed.

Lemma sweep_conns_drain (l : list (ConnKey * conn)) m :
  let '(reqs, _, cs, m') := sweep_conns (drain_conn sizeof_request) l m in
  drain_conns sizeof_request l m = (reqs, cs.*2, m').
Proof.
  revert m. induction l as [|[k c] l IH]; intros m; cbn [sweep_conns drain_conns]; [done|].
  unfold drain_conn. destruct (ps_take_all sizeof_request (hc_pending_requests c) m) as [[out ps] m1].
  specialize (IH m1). fold (drain_conn (net := net) (table := table) sizeof_request).
  destruct (sweep_conns _ l m1) as [[[reqs n] cs] m2]. by rewrite IH.
Qed.

Notation exact_tables := (exact_tables (net := net) (table := table) sizeof_request).

(** What the two loops of the shutdown leave. *)
Lemma sweep_queues_all t m rest :
  exact_tables t → 0 <= rest → total m = rest + map_sum pq_bytes (pending t) →
  ∃ qs m', sweep_queues (pq_take_all sizeof_request) (http3_connections t) (map_to_list (pending t)) m =
    (mjoin (queue_requests (http3_connections t) <$> map_to_list (pending t)), qs, m') ∧
    (∀ m, fold_left drop_queue qs.*2 m = m) ∧ total m' = rest ∧ EVENTS_DROPPED m' = EVENTS_DROPPED m.
Proof using Hsize.
  intros (Hq & _) Hrest Hm. rewrite map_sum_list in Hm.
  destruct (drain_queues_charged sizeof_request Hsize (http3_connections t) (map_to_list (pending t)) m rest)
    as (m' & Ed & Tm & Dm); [done|done| |].
  { apply list.Forall_forall. intros [k q] Hin. apply (Hq k q). by apply elem_of_map_to_list. }
  pose proof (sweep_queues_drain (http3_connections t) (map_to_list (pending t)) m) as Hs. rewrite Ed in Hs.
  destruct (sweep_queues _ _ _ m) as [[reqs qs] m1]. injection Hs as <- Hqs <-.
  exists qs, m'. split; [done|]. split; [|done]. intros m2. rewrite <- Hqs. apply drop_defaults.
Qed.

Lemma sweep_conns_all t m rest :
  exact_tables t → 0 <= rest → total m = rest + map_sum conn_bytes (http2_state t) →
  ∃ n cs m', sweep_conns (drain_conn sizeof_request) (map_to_list (http2_state t)) m =
    (mjoin ((fun kc => (fun r => (r, "HTTP/2"%string)) <$> stream_requests (hc_pending_requests kc.2)) <$>
              map_to_list (http2_state t)), n, cs, m') ∧
    Forall (fun c => hc_pending_requests c = ps_default) cs.*2 ∧ EVENTS_DROPPED m' = EVENTS_DROPPED m.
Proof using Hsize.
  intros (_ & Hc & _) Hrest Hm. rewrite map_sum_list, zsum_conn_bytes in Hm.
  assert (Forall (fun kc => conn_ok sizeof_request kc.2) (map_to_list (http2_state t))) as Hok.
  { apply list.Forall_forall. intros [k c] Hin. apply conn_exact_ok. apply (Hc k c). by apply elem_of_map_to_list. }
  assert (0 <= zsum (fun kc => rest_bytes kc.2) (map_to_list (http2_state t))) as Hpos.
  { apply zsum_nonneg. eapply list.Forall_impl; [exact Hok|]. intros kc (_ & (_ & H1 & _) & H2).
    unfold rest_bytes. cbn in H1. lia. }
  destruct (drain_conns_charged sizeof_request Hsize (map_to_list (http2_state t)) m
    (rest + zsum (fun kc => rest_bytes kc.2) (map_to_list (http2_state t)))) as (m' & Ed & Tm & Dm); [lia|lia|done|].
  pose proof (sweep_conns_drain (map_to_list (http2_state t)) m) as Hs. rewrite Ed in Hs.
  destruct (sweep_conns _ _ m) as [[[reqs n] cs] m1]. injection Hs as <- Hcs <-.
  exists n, cs, m'. split; [done|]. split; [|done]. rewrite <- Hcs. apply list.Forall_forall.
  intros c Hin. apply list_elem_of_fmap in Hin as (kc & -> & _). done.
Qed.

(** Behind [incomplete_events]. *)
Definition dropped_beyond (reqs : list (ParsedRequest net * string)) (n : Z) : Z :=
  if MAX_INCOMPLETE_PER_SWEEP <? zlen reqs then u64 (n + (zlen reqs - MAX_INCOMPLETE_PER_SWEEP)) else n.

Lemma incomplete_events_spec (reqs : list (ParsedRequest net * string)) m :
  let '(out, m') := incomplete_events reqs m in
  out = ztake MAX_INCOMPLETE_PER_SWEEP reqs ∧ EVENTS_DROPPED m' = dropped_beyond reqs (EVENTS_DROPPED m).
Proof.
  unfold incomplete_events, dropped_beyond. split; [done|].
  rewrite length_ztake by (unfold MAX_INCOMPLETE_PER_SWEEP; lia). unfold MAX_INCOMPLETE_PER_SWEEP.
  destruct (1024 <? zlen reqs) eqn:E; zbool.
  - rewrite Z.min_l by lia. by replace (0 <? zlen reqs - 1024) with true by lia.
  - rewrite Z.min_r by lia. by replace (0 <? zlen reqs - zlen reqs) with false by lia.
Qed.

Lemma run_take_all outcome s m rest :
  exact_tables (sh s) → 0 <= rest → total m = rest + charged_bytes (sh s) →
  ∃ t m', take_all_incomplete sizeof_request outcome s m =
    (Some tt, (fun rp => Incomplete rp.1 rp.2 outcome) <$> ztake MAX_INCOMPLETE_PER_SWEEP (waiting (sh s)),
     {| sh := t; last_eviction_ms := last_eviction_ms s |}, m') ∧
    EVENTS_DROPPED m' = dropped_beyond (waiting (sh s)) (EVENTS_DROPPED m) ∧ pending t = ∅ ∧
    map_Forall (fun _ c => hc_pending_requests c = ps_default) (http2_state t).
Proof using Hsize.
  intros Hex Hrest Hm.
  destruct (others_nonneg _ (sh s) (Build_StreamKey 0 0 0 0 0) (Build_ConnKey 0 0 0 0 0)
    (Build_ConnKey 0 0 0 0 0) (Build_ConnKey 0 0 0 0 0) Hex) as (_ & _ & _ & _ & Hb & Hq & Hc & He).
  unfold charged_bytes in Hm.
  destruct (sweep_queues_all (sh s) m (total m - map_sum pq_bytes (pending (sh s)))) as (qs & m1 & Eq & Edrop & Tq & Dq);
    [done|lia|lia|].
  destruct (sweep_conns_all (sh s) m1 (total m1 - map_sum conn_bytes (http2_state (sh s)))) as (n & cs & m2 & Ec & Hcs & Dc);
    [done|lia|lia|].
  unfold take_all_incomplete. rewrite exec_gets, exec_gets, exec_charging, Eq, exec_gets, exec_charging, Ec.
  rewrite exec_upd, exec_releasing, Edrop, exec_upd. unfold report_incomplete. rewrite exec_charging. cbn [id].
  match goal with |- context [incomplete_events ?reqs m2] => change reqs with (waiting (sh s)) end.
  pose proof (incomplete_events_spec (waiting (sh s)) m2) as Hi. destruct (incomplete_events _ m2) as [out m3].
  destruct Hi as [-> Hd]. eexists _, m3. split; [reflexivity|]. split; [congruence|]. split; [done|].
  intros k c Hk. apply elem_of_list_to_map_2 in Hk. rewrite list.Forall_forall in Hcs. apply Hcs.
  apply list_elem_of_fmap. by exists (k, c).
Qed.
End Shutdown.

(** C29: no waiting request is lost when the sensor stops. On a shard whose tables are charged exactly, as
    every run leaves them, the shutdown reports the requests that still wait, with their protocol: those
    of every queue in the order they came, then those of every HTTP/2 connection in the order of their
    streams; the first 1024 of them as events and the others counted as dropped; and nothing waits
    afterwards. *)
Theorem shutdown_reports_waiting {net table : Type} (sizeof_request : Z) (outcome : string)
    (s : shard net table) (m : memory) (rest : Z)
    (Hsize : 0 <= sizeof_request) (Hrest : 0 <= rest) (Hexact : exact_tables sizeof_request (sh s))
    (Hm : total m = rest + charged_bytes (sh s)) :
  let '(_, out, s', m') := take_all_incomplete sizeof_request outcome s m in
  out = (fun rp => Incomplete rp.1 rp.2 outcome) <$> ztake MAX_INCOMPLETE_PER_SWEEP (waiting (sh s)) ∧
  EVENTS_DROPPED m' = dropped_beyond (waiting (sh s)) (EVENTS_DROPPED m) ∧
  pending (sh s') = ∅ ∧
  map_Forall (fun _ c => hc_pending_requests c = ps_default) (http2_state (sh s')).
Proof.
  destruct (run_take_all sizeof_request Hsize outcome s m rest Hexact Hrest Hm) as (t & m' & -> & Hd & Hp & Hc).
  by split_and!.
Qed.

Lemma shutdown_reports_waiting_witness :
  ∃ r, let '(_, out, s', _) :=
    take_all_incomplete 100 "sensor_shutdown" demo_waiting.1 demo_waiting.2 in
  pr_path r = lit "/a" ∧ out = [Incomplete r "HTTP/1.1" "sensor_shutdown"] ∧ pending (sh s') = ∅.
Proof.
  assert (exact_tables 100 (sh demo_waiting.1) ∧
    total demo_waiting.2 = 10 + charged_bytes (sh demo_waiting.1)) as [Hex Hm].
  { pose proof (sound_handle_event 100 ltac:(lia) 0 demo_hpack (demo_config Server) 10 (demo_at 1000) (demo_record 0)
      demo_get demo_shard_0 demo_memory) as Hh. unfold demo_waiting.
    destruct (handle_event _ _ _ _ _ _ _ demo_shard_0 demo_memory) as [[[a out] s] m].
    destruct Hh as [_ Ho].
    { split; [lia|]. split; [lia|]. split; [reflexivity|]. split_and!; apply map_Forall_empty. }
    destruct a; [destruct Ho as (e & (_ & _ & Hm & Hex) & ->)|destruct Ho as (_ & _ & Hm & Hex)]; split; done || (cbn; lia). }
  assert (∃ r, waiting (sh demo_waiting.1) = [(r, "HTTP/1.1"%string)] ∧ pr_path r = lit "/a") as (r & Hw & Hr).
  { eexists. split; [vm_compute; reflexivity|vm_compute; reflexivity]. }
  exists r. pose proof (shutdown_reports_waiting 100 "sensor_shutdown" demo_waiting.1 demo_waiting.2 10
    ltac:(lia) ltac:(lia) Hex Hm) as Hs.
  destruct (take_all_incomplete _ _ demo_waiting.1 demo_waiting.2) as [[[a out] s'] m'].
  destruct Hs as (Ho & _ & Hp & _). rewrite Hw in Ho. split; [exact Hr|]. split; [exact Ho|exact Hp].
Defined.
