(* ===== verification/ShardedProps.v ===== *)
(** Whatever the reader is asked to do: the memory counter is what its shards hold, and the gauge of
    the connections is how many they know. *)

From S2P Require Import Prelude Abi.
From S2P Require Import Wire Pending Memory Queues Text Http1 Http1Props Http2 Http2Props.
From S2P Require Import Codecs Mcp Reader ReaderProps H2Conn Shard Handle.
From S2P Require Import ShardMem ShardSweep ShardBooks Sharded ShardRel.
From Stdlib Require Import Strings.String.

#[local] Notation length := List.length.
#[local] Open Scope list_scope.
#[local] Open Scope Z_scope.

#[local] Notation total := TOTAL_BUFFER_BYTES.

Section Memory.
Context {net table : Type} `{Unicode, Json} (sizeof_request : Z) (Hsize : 0 <= sizeof_request).
Context (hpack_new : table) (hpack_decode : table → bytes → hpack_result * table).
Context (cf : config) (hash : Z → Z → Z).

Notation max_total := (cf_max_total_buffer_bytes cf).
Notation shard := (shard net table).
Notation handler := (handler net table).
Notation exact_tables := (exact_tables (net := net) (table := table) sizeof_request).

Implicit Types St : list shard.

(** The counter is [rest] and what the shards hold. *)
Definition accounted (rest : Z) St (m : memory) : Prop :=
  0 <= rest ∧ total m = rest + shards_charged St ∧ Forall (fun s => exact_tables (sh s)) St.

Lemma shards_charged_nonneg St : Forall (fun s => exact_tables (sh s)) St → 0 <= shards_charged St.
Proof. intros HS. apply zsum_nonneg. eapply list.Forall_impl; [exact HS|]. intros s. apply charged_nonneg. Qed.

(** A call that keeps the books of a shard keeps those of the process. *)
Lemma accounted_handler (h : handler unit) S1 s S2 m rest :
  (∀ R, sound sizeof_request max_total R h) → accounted rest (S1 ++ s :: S2) m →
  let '(_, _, s', m') := h s m in accounted rest (S1 ++ s' :: S2) m' ∧ within max_total m m'.
Proof.
  intros Hh (HR & Hm & HS). unfold shards_charged in Hm. rewrite zsum_app, zsum_cons in Hm.
  apply list.Forall_app in HS as [HS1 HS2]. apply list.Forall_cons in HS2 as [Hs HS2].
  pose proof (shards_charged_nonneg S1 HS1) as P1. pose proof (shards_charged_nonneg S2 HS2) as P2.
  unfold shards_charged in P1, P2.
  specialize (Hh (rest + zsum (fun s => charged_bytes (sh s)) S1 + zsum (fun s => charged_bytes (sh s)) S2) s m).
  destruct (h s m) as [[[a out] s'] m'].
  assert (within max_total m m' ∧ owes sizeof_request
    (rest + zsum (fun s => charged_bytes (sh s)) S1 + zsum (fun s => charged_bytes (sh s)) S2) 0 s' m')
    as (Hw & _ & _ & Hm' & Hs').
  { destruct Hh as [Hw Ho]; [split; [lia|]; split; [lia|]; split; [lia|done]|].
    split; [done|]. destruct a; [by destruct Ho as (? & Ho & ->)|done]. }
  split; [|done]. split; [done|]. unfold shards_charged. rewrite zsum_app, zsum_cons.
  split; [lia|]. apply list.Forall_app. split; [done|by apply list.Forall_cons].
Qed.

Lemma accounted_on_shard i (h : handler unit) St m rest :
  (∀ R, sound sizeof_request max_total R h) → accounted rest St m →
  let '(_, St', m') := on_shard i h St m in accounted rest St' m' ∧ within max_total m m'.
Proof.
  intros Hh HS. unfold on_shard. destruct (St !! i) as [s|] eqn:E; [|split; [done|apply within_refl]].
  pose proof (lookup_lt_Some _ _ _ E) as Hlt. rewrite <- (take_drop_middle St i s E) in HS.
  pose proof (accounted_handler h _ s _ m rest Hh HS) as Ha. destruct (h s m) as [[[a out] s'] m'].
  by rewrite insert_take_drop.
Qed.

Lemma accounted_on_every_shard (h : handler unit) S0 St m rest :
  (∀ R, sound sizeof_request max_total R h) → accounted rest (S0 ++ St) m →
  let '(_, St', m') := on_every_shard h St m in accounted rest (S0 ++ St') m' ∧ within max_total m m'.
Proof.
  intros Hh. revert S0 m. induction St as [|s St IH]; intros S0 m HS; cbn [on_every_shard];
    [split; [done|apply within_refl]|].
  pose proof (accounted_handler h S0 s St m rest Hh HS) as Ha. destruct (h s m) as [[[a out] s'] m1].
  destruct Ha as [Ha Hw]. change (s' :: St) with ([s'] ++ St) in Ha. rewrite app_assoc in Ha.
  specialize (IH _ m1 Ha). destruct (on_every_shard h St m1) as [[out' St'] m2]. destruct IH as [Ho Hw'].
  rewrite <- app_assoc in Ho. split; [done|by eapply within_trans].
Qed.

Lemma accounted_serve c St m rest :
  accounted rest St m →
  let '(_, St', m') := serve sizeof_request hpack_new hpack_decode cf hash c St m in
  accounted rest St' m' ∧ within max_total m m'.
Proof using Hsize.
  destruct c; cbn [serve]; intros HS.
  - apply accounted_on_shard; [|done]. intros R. by apply sound_handle_event.
  - apply accounted_on_shard; [|done]. intros R. by apply sound_evict_connection.
  - apply (accounted_on_every_shard _ []); [|done]. intros R. by apply sound_evict_stale.
  - apply (accounted_on_every_shard _ []); [|done]. intros R. by apply sound_take_all_incomplete.
Qed.

Lemma accounted_serve_all calls St m rest :
  accounted rest St m →
  let '(_, St', m') := serve_all sizeof_request hpack_new hpack_decode cf hash calls St m in
  accounted rest St' m' ∧ within max_total m m'.
Proof using Hsize.
  revert St m. induction calls as [|c calls IH]; intros St m HS; cbn [serve_all]; [split; [done|apply within_refl]|].
  pose proof (accounted_serve c St m rest HS) as Hc. destruct (serve _ _ _ _ _ c St m) as [[out S1] m1].
  destruct Hc as [HS1 Hw]. specialize (IH S1 m1 HS1).
  destruct (serve_all _ _ _ _ _ calls S1 m1) as [[out' S2] m2]. destruct IH as [HS2 Hw'].
  split; [done|by eapply within_trans].
Qed.
End Memory.

(** ** The gauge *)

Section Gauge.
Context {net table : Type} `{Unicode, Json} (sizeof_request : Z).
Context (hpack_new : table) (hpack_decode : table → bytes → hpack_result * table).
Context (cf : config) (hash : Z → Z → Z).

Notation shard := (shard net table).
Notation handler := (handler net table).
Notation steps := (steps ACTIVE_CONNECTIONS).

Lemma steps_app (out1 out2 : list (output net)) : steps (out1 ++ out2) = steps out1 + steps out2.
Proof. apply zsum_app. Qed.

Lemma known_on_shard i (h : handler unit) (St : list shard) m :
  does gauged h →
  let '(out, St', _) := on_shard i h St m in steps out = shards_known St' - shards_known St.
Proof.
  intros Hh. unfold on_shard. destruct (St !! i) as [s|] eqn:E; [|change (steps []) with 0; lia].
  pose proof (lookup_lt_Some _ _ _ E) as Hlt. specialize (Hh s m). destruct (h s m) as [[[a out] s'] m'].
  rewrite insert_take_drop by done. pose proof (f_equal shards_known (take_drop_middle St i s E)) as HSt.
  unfold shards_known in *. rewrite zsum_app, zsum_cons in HSt |- *. unfold gauged, known_size in Hh. lia.
Qed.

Lemma known_on_every_shard (h : handler unit) (St : list shard) m :
  does gauged h →
  let '(out, St', _) := on_every_shard h St m in steps out = shards_known St' - shards_known St.
Proof.
  intros Hh. revert m. induction St as [|s St IH]; intros m; cbn [on_every_shard];
    [change (steps []) with 0; lia|].
  specialize (Hh s m). destruct (h s m) as [[[a out] s'] m1]. specialize (IH m1).
  destruct (on_every_shard h St m1) as [[out' St'] m2]. rewrite steps_app. unfold shards_known in *.
  rewrite !zsum_cons. unfold gauged, known_size in Hh. lia.
Qed.

Lemma known_serve c (St : list shard) m :
  let '(out, St', _) := serve sizeof_request hpack_new hpack_decode cf hash c St m in
  steps out = shards_known St' - shards_known St.
Proof.
  destruct c; cbn [serve].
  - apply known_on_shard, gauged_handle_event.
  - apply known_on_shard, gauged_evict_connection.
  - apply known_on_every_shard, gauged_evict_stale.
  - apply known_on_every_shard, gauged_take_all_incomplete.
Qed.

Lemma known_serve_all calls (St : list shard) m :
  let '(out, St', _) := serve_all sizeof_request hpack_new hpack_decode cf hash calls St m in
  steps out = shards_known St' - shards_known St.
Proof.
  revert St m. induction calls as [|c calls IH]; intros St m; cbn [serve_all]; [change (steps []) with 0; lia|].
  pose proof (known_serve c St m) as Hc. destruct (serve _ _ _ _ _ c St m) as [[out St1] m1].
  specialize (IH St1 m1). destruct (serve_all _ _ _ _ _ calls St1 m1) as [[out' St2] m2].
  rewrite steps_app. lia.
Qed.
End Gauge.

(** * What holds of every run *)

(** C5: the memory counter is what the reader holds. From the start of the sensor on, whatever records,
    closes, sweeps and shutdowns it is asked to handle, in whatever order, on whatever shards: the
    counter is what other parts of the process were charged and the sum of what the tables of the
    shards are charged, every queue and every HTTP/2 connection is charged for exactly what it holds,
    every buffer and early chunk for its length, and the ceiling is not passed. So no path of
    [handle_event], no early return, no expiry and no close leaks a byte or gives one back twice. *)
Theorem reader_memory_accounted {net table : Type} `{Unicode, Json} (sizeof_request : Z) (hpack_new : table)
    (hpack_decode : table → bytes → hpack_result * table) (cf : config) (hash : Z → Z → Z)
    (calls : list (call net)) (m : memory)
    (Hsize : 0 <= sizeof_request) (Hm : 0 <= total m) :
  let '(_, shards, m') :=
    serve_all sizeof_request hpack_new hpack_decode cf hash calls ShardedStreamState_new m in
  total m' = total m + shards_charged shards ∧
  total m' <= Z.max (total m) (cf_max_total_buffer_bytes cf) ∧
  Forall (fun s => exact_tables sizeof_request (sh s)) shards.
Proof.
  pose proof (accounted_serve_all sizeof_request Hsize hpack_new hpack_decode cf hash calls
    ShardedStreamState_new m (total m)) as Hall.
  destruct (serve_all _ _ _ _ _ calls _ m) as [[out St] m']. destruct Hall as [(_ & Ht & Hs) Hw]; [|by split_and!].
  split; [done|]. split; [change (shards_charged _) with 0; lia|]. apply Forall_replicate.
  split_and!; apply map_Forall_empty.
Qed.

(** The whole reader, on two connections, the second of which is closed while its request waits. *)
Definition demo_calls : list (call unit) :=
  [ Record (demo_at 1000) (demo_record 0) demo_get;
    Record (demo_at 1001) ((demo_record 0) <| h_ssl_ptr := 8 |>) (demo_get ++ lit "GET /b");
    Record (demo_at 1002) (demo_record 1) demo_ok;
    Close {| ck_pid := 42; ck_ssl_ptr := 8; ck_born_ms := 0; ck_proc_start_ns := 9; ck_generation := 1 |};
    Record (demo_at 1003) (demo_record 0) demo_get;
    Tick 400000;
    Record (demo_at 400001) (demo_record 0) (lit "GET /c HTT") ].

Lemma reader_memory_accounted_witness :
  let '(_, shards, m') :=
    serve_all 100 0 demo_hpack (demo_config Server) (fun pid ptr => pid + ptr) demo_calls ShardedStreamState_new
      demo_memory in
  shards_charged shards = 10 ∧ total m' = 20.
Proof.
  pose proof (reader_memory_accounted 100 0 demo_hpack (demo_config Server) (fun pid ptr => pid + ptr) demo_calls
    demo_memory ltac:(lia) ltac:(cbn; lia)) as Hr.
  assert (shards_charged (serve_all 100 0 demo_hpack (demo_config Server) (fun pid ptr => pid + ptr) demo_calls
    ShardedStreamState_new demo_memory).1.2 = 10) as Hs by (vm_compute; reflexivity).
  destruct (serve_all _ _ _ _ _ _ _ _) as [[out shards] m']. cbn [fst snd] in Hs.
  split; [exact Hs|]. rewrite (proj1 Hr), Hs. reflexivity.
Defined.

(** The gauge of the active connections is how many connections the shards know. Whatever the reader
    is asked to handle, the steps it has made of [ACTIVE_CONNECTIONS] add up to the number of
    connections its shards know: none is counted twice, and none that is forgotten by a close, an
    expiry or the sweep in the middle of a record stays counted. So the gauge never falls below zero. *)
Theorem active_connections_exact {net table : Type} `{Unicode, Json} (sizeof_request : Z) (hpack_new : table)
    (hpack_decode : table → bytes → hpack_result * table) (cf : config) (hash : Z → Z → Z)
    (calls : list (call net)) (m : memory) :
  let '(out, shards, _) :=
    serve_all sizeof_request hpack_new hpack_decode cf hash calls ShardedStreamState_new m in
  steps ACTIVE_CONNECTIONS out = shards_known shards ∧ 0 <= shards_known shards.
Proof.
  pose proof (known_serve_all sizeof_request hpack_new hpack_decode cf hash calls ShardedStreamState_new m) as Hk.
  destruct (serve_all _ _ _ _ _ calls _ m) as [[out St] m']. change (shards_known ShardedStreamState_new) with 0 in Hk.
  split; [lia|]. apply zsum_nonneg, list.Forall_forall. intros s _. lia.
Qed.
