(* ===== verification/Event.v ===== *)
(** The events the reader exports, [ApiTrafficEvent] of [userspace/src/types.rs], what they are charged
    in the export queue, and the sampling of finished ones, [TransactionSampler] of
    [userspace/src/stream.rs].

    A string is its UTF-8 bytes and a [HashMap] of strings a list with one value per name. [f32] stands
    for the floating-point entropy, which nothing here computes with; [Sizes] holds the sizes the
    compiler gives three structs; [hash] is what [DefaultHasher] makes of the fields a decision depends
    on, which the standard library leaves open. *)

From S2P Require Import Prelude.
From S2P Require Import Pending Text Http1.
From Stdlib Require Import Strings.String.

#[local] Notation length := List.length.
#[local] Open Scope list_scope.
#[local] Open Scope Z_scope.

(** * The event *)

Record ApiRequest := {
  ar_method : bytes;
  ar_path : bytes;
  ar_host : option bytes;
  ar_scheme : bytes;
  ar_headers : headers;
  ar_query : headers;
  ar_body : option bytes
}.

Record ApiResponse := {
  ap_status_code : Z;
  ap_headers : headers;
  ap_body : option bytes;
  ap_latency_ms : option Z
}.

Record EventMetadata := {
  em_has_injection : bool;
  em_injection_patterns : list bytes;
  em_permission_flags : list bytes;
  em_mcp_method : option bytes;
  em_mcp_tool_name : option bytes
}.

Record ContainerContext := {
  cc_pod_name : option bytes;
  cc_pod_namespace : option bytes;
  cc_container_id : bytes;
  cc_container_name : option bytes;
  cc_node_name : bytes;
  cc_service_name : option bytes;
  cc_workload_type : option bytes
}.

Record AnomalyFeatures {f32 : Type} := {
  af_path_depth : Z;
  af_query_param_count : Z;
  af_has_encoded_chars : bool;
  af_request_size_bucket : Z;
  af_shannon_entropy : f32;
  af_has_sqli_pattern : bool;
  af_has_xss_pattern : bool;
  af_has_path_traversal : bool
}.
Arguments AnomalyFeatures : clear implicits.

Record NetContext := {
  nc_source_ip : option bytes;
  nc_dest_ip : option bytes;
  nc_source_port : option Z;
  nc_dest_port : option Z;
  nc_netns_ino : option Z;
  nc_cgroup_id : option Z;
  nc_container : option ContainerContext;
  nc_process_name : option bytes;
  nc_source_hostname : option bytes;
  nc_dest_hostname : option bytes;
  nc_direction : option bytes
}.

Record ApiTrafficEvent {f32 : Type} := {
  ev_version : bytes;
  ev_event_type : bytes;
  ev_source : bytes;
  ev_account_id : Z;
  ev_observed_at : Z;
  ev_protocol : bytes;
  ev_request : ApiRequest;
  ev_response : ApiResponse;
  ev_collection_id : option bytes;
  ev_source_ip : option bytes;
  ev_dest_ip : option bytes;
  ev_source_port : option Z;
  ev_dest_port : option Z;
  ev_netns_ino : option Z;
  ev_cgroup_id : option Z;
  ev_container : option ContainerContext;
  ev_process_name : option bytes;
  ev_source_hostname : option bytes;
  ev_dest_hostname : option bytes;
  ev_metadata : option EventMetadata;
  ev_anomaly_features : option (AnomalyFeatures f32);
  ev_user_id : option bytes;
  ev_user_role : option bytes;
  ev_session_id : option bytes;
  ev_auth_session_id : option bytes;
  ev_outcome : option bytes;
  ev_direction : option bytes
}.
Arguments ApiTrafficEvent : clear implicits.

(** * What an event is charged *)

Class Sizes := {
  sizeof_event : Z;
  sizeof_container : Z;
  sizeof_metadata : Z;
  sizeof_anomaly : Z;
  sizes_nonneg : 0 <= sizeof_event ∧ 0 <= sizeof_container ∧ 0 <= sizeof_metadata ∧ 0 <= sizeof_anomaly
}.

Definition ENTRY_OVERHEAD : Z := 48.

Definition opt_len (v : option bytes) : Z := match v with Some s => zlen s | None => 0 end.

Definition map_len (hs : headers) : Z := zsum (fun kv => zlen kv.1 + zlen kv.2 + ENTRY_OVERHEAD) hs.

Section Events.
Context {f32 : Type} `{Sizes}.

Definition event_bytes (ev : ApiTrafficEvent f32) : Z :=
  let r := ev_request ev in
  sizeof_event
  + zlen (ev_version ev) + zlen (ev_event_type ev) + zlen (ev_source ev) + zlen (ev_protocol ev)
  + zlen (ar_method r) + zlen (ar_path r) + zlen (ar_scheme r) + opt_len (ar_host r) + opt_len (ar_body r)
  + map_len (ar_headers r) + map_len (ar_query r)
  + map_len (ap_headers (ev_response ev)) + opt_len (ap_body (ev_response ev))
  + opt_len (ev_collection_id ev) + opt_len (ev_source_ip ev) + opt_len (ev_dest_ip ev)
  + opt_len (ev_process_name ev) + opt_len (ev_source_hostname ev) + opt_len (ev_dest_hostname ev)
  + opt_len (ev_user_id ev) + opt_len (ev_user_role ev) + opt_len (ev_session_id ev)
  + opt_len (ev_auth_session_id ev) + opt_len (ev_outcome ev)
  + match ev_container ev with
    | Some c => sizeof_container + zlen (cc_container_id c) + zlen (cc_node_name c)
                + opt_len (cc_pod_name c) + opt_len (cc_pod_namespace c) + opt_len (cc_container_name c)
                + opt_len (cc_service_name c) + opt_len (cc_workload_type c)
    | None => 0
    end
  + match ev_metadata ev with
    | Some m => sizeof_metadata + opt_len (em_mcp_method m) + opt_len (em_mcp_tool_name m)
                + zsum (fun p => zlen p + 24) (em_injection_patterns m ++ em_permission_flags m)
    | None => 0
    end
  + match ev_anomaly_features ev with Some _ => sizeof_anomaly | None => 0 end.

(** * Sampling *)

Definition always_keep_path (path : bytes) : bool :=
  existsb (fun p => starts_with p path)
    [lit "/auth"; lit "/login"; lit "/token"; lit "/oauth"; lit "/admin"; lit "/mcp"].

Definition is_health_path (path : bytes) : bool :=
  existsb (fun p => starts_with p path) [lit "/health"; lit "/readyz"; lit "/livez"; lit "/metrics"].

(** Percentages; the fields are [u8]. *)
Record TransactionSampler := { default_rate : Z; health_rate : Z }.

Definition sampler_default : TransactionSampler := {| default_rate := 100; health_rate := 100 |}.

(** The rates of the command line, cut at 100 by [main]. *)
Definition sampler_of_args (sample_default sample_health : Z) : TransactionSampler :=
  {| default_rate := Z.min sample_default 100; health_rate := Z.min sample_health 100 |}.

(** [DefaultHasher] over method, path, source address, source port and time. *)
Context (hash : bytes → bytes → option bytes → option Z → Z → Z).

Definition keep (s : TransactionSampler) (ev : ApiTrafficEvent f32) : bool :=
  let path := ar_path (ev_request ev) in
  if always_keep_path path then true
  else
    let rate := if is_health_path path then health_rate s else default_rate s in
    if 100 <=? rate then true
    else if rate =? 0 then false
    else hash (ar_method (ev_request ev)) path (ev_source_ip ev) (ev_source_port ev) (ev_observed_at ev)
           mod 100 <? rate.

(** [ShardedStreamState::sample]: the events kept and the new value of [TRANSACTIONS_SAMPLED]. *)
Definition sample (s : TransactionSampler) (events : list (ApiTrafficEvent f32)) (transactions_sampled : Z)
    : list (ApiTrafficEvent f32) * Z :=
  let kept := base.filter (fun e => keep s e = true) events in
  let sampled := zlen events - zlen kept in
  (kept, if 0 <? sampled then u64 (transactions_sampled + sampled) else transactions_sampled).

(** * Lemmas *)

Lemma opt_len_nonneg v : 0 <= opt_len v.
Proof. destruct v; cbn; auto with sensor lia. Qed.

Lemma zsum_nonneg_all {A} (g : A → Z) l : (∀ a, 0 <= g a) → 0 <= zsum g l.
Proof. intros Hg. induction l as [|a l IH]; unfold zsum in *; cbn; [lia|]. specialize (Hg a). lia. Qed.

Lemma map_len_nonneg hs : 0 <= map_len hs.
Proof.
  apply zsum_nonneg_all. intros [k v]. cbn. unfold ENTRY_OVERHEAD.
  pose proof (zlen_nonneg k). pose proof (zlen_nonneg v). lia.
Qed.

(** What an event is charged is at least its body: the budgets bound the bodies that wait. *)
Lemma event_bytes_covers_bodies ev :
  opt_len (ar_body (ev_request ev)) + opt_len (ap_body (ev_response ev)) <= event_bytes ev.
Proof.
  unfold event_bytes. pose proof sizes_nonneg as (Hs1 & Hs2 & Hs3 & Hs4).
  assert (0 <= match ev_container ev with
    | Some c => sizeof_container + zlen (cc_container_id c) + zlen (cc_node_name c)
                + opt_len (cc_pod_name c) + opt_len (cc_pod_namespace c) + opt_len (cc_container_name c)
                + opt_len (cc_service_name c) + opt_len (cc_workload_type c)
    | None => 0
    end) as Hc.
  { destruct (ev_container ev) as [c|]; [|lia].
    pose proof (zlen_nonneg (cc_container_id c)). pose proof (zlen_nonneg (cc_node_name c)).
    pose proof (opt_len_nonneg (cc_pod_name c)). pose proof (opt_len_nonneg (cc_pod_namespace c)).
    pose proof (opt_len_nonneg (cc_container_name c)). pose proof (opt_len_nonneg (cc_service_name c)).
    pose proof (opt_len_nonneg (cc_workload_type c)). lia. }
  assert (0 <= match ev_metadata ev with
    | Some m => sizeof_metadata + opt_len (em_mcp_method m) + opt_len (em_mcp_tool_name m)
                + zsum (fun p => zlen p + 24) (em_injection_patterns m ++ em_permission_flags m)
    | None => 0
    end) as Hm.
  { destruct (ev_metadata ev) as [m|]; [|lia].
    pose proof (opt_len_nonneg (em_mcp_method m)). pose proof (opt_len_nonneg (em_mcp_tool_name m)).
    assert (0 <= zsum (fun p : bytes => zlen p + 24) (em_injection_patterns m ++ em_permission_flags m)).
    { apply zsum_nonneg_all. intros p. pose proof (zlen_nonneg p). lia. }
    lia. }
  assert (0 <= match ev_anomaly_features ev with Some _ => sizeof_anomaly | None => 0 end) as Ha
    by (destruct (ev_anomaly_features ev); lia).
  repeat match goal with
         | |- context [zlen ?l] => lazymatch goal with H : 0 <= zlen l |- _ => fail | _ => pose proof (zlen_nonneg l) end
         | |- context [opt_len ?l] => lazymatch goal with H : 0 <= opt_len l |- _ => fail | _ => pose proof (opt_len_nonneg l) end
         | |- context [map_len ?l] => lazymatch goal with H : 0 <= map_len l |- _ => fail | _ => pose proof (map_len_nonneg l) end
         end.
  lia.
Qed.

Lemma event_bytes_nonneg ev : 0 <= event_bytes ev.
Proof.
  pose proof (event_bytes_covers_bodies ev).
  pose proof (opt_len_nonneg (ar_body (ev_request ev))).
  pose proof (opt_len_nonneg (ap_body (ev_response ev))). lia.
Qed.

(** Paths of authentication, administration and MCP are kept whatever the rates. *)
Lemma keep_protected s ev : always_keep_path (ar_path (ev_request ev)) = true → keep s ev = true.
Proof. unfold keep. by intros ->. Qed.

(** The events that are kept stay in order, and the others are counted. *)
Lemma sample_accounts s events n :
  let '(kept, n') := sample s events n in
  kept `sublist_of` events ∧ u64 n' = u64 (n + (zlen events - zlen kept)).
Proof.
  cbn. split; [apply sublist_filter|].
  set (d := zlen events - _).
  assert (0 <= d).
  { unfold d. pose proof (sublist_length _ _ (sublist_filter (fun e => keep s e = true) events)).
    unfold zlen. lia. }
  destruct (Z.ltb_spec 0 d) as [|]; [by rewrite wrap_wrap|]. f_equal. lia.
Qed.
End Events.
