(* ===== verification/Export.v ===== *)
(** The export queue and the batch of [userspace/src/export.rs]: [Budget], [ExportSender],
    [ExportReceiver] and [Batch].

    Senders and the receiver run on different threads and meet in two places only: the atomic counter
    of the budget and the channel. A sender is therefore a state machine ([sender]) whose steps are the
    single atomic operations of [try_send], in the order of the code, and so is the receiver up to
    [Batch::push], which is its own. [usize] and the metrics have 64 bits.

    The channel of tokio is a parameter, the class [Channel], with what its documentation promises: a
    queue that takes an item when it has room and is refused nothing else than room, and returns the
    items in order. [list_channel] is an instance. *)

From S2P Require Import Prelude.
From S2P Require Import Pending.

#[local] Notation length := List.length.
#[local] Open Scope list_scope.
#[local] Open Scope Z_scope.

(** * The channel *)

Class Channel (A : Type) := {
  chan : Type;
  items : chan → list A;
  max_capacity : chan → Z;
  chan_new : Z → chan;
  chan_try_send : A → chan → option chan;
  chan_recv : chan → option (A * chan);
  items_new n : items (chan_new n) = [];
  max_capacity_new n : max_capacity (chan_new n) = n;
  chan_try_send_spec a c :
    match chan_try_send a c with
    | Some c' => zlen (items c) < max_capacity c ∧ items c' = items c ++ [a] ∧ max_capacity c' = max_capacity c
    | None => max_capacity c <= zlen (items c)
    end;
  chan_recv_spec c :
    match chan_recv c with
    | Some (a, c') => items c = a :: items c' ∧ max_capacity c' = max_capacity c
    | None => items c = []
    end
}.

#[refine] #[export] Instance list_channel A : Channel A := {|
  chan := list A * Z;
  items := fst;
  max_capacity := snd;
  chan_new n := ([], n);
  chan_try_send a c := if zlen c.1 <? c.2 then Some (c.1 ++ [a], c.2) else None;
  chan_recv c := match c.1 with a :: l => Some (a, (l, c.2)) | [] => None end
|}.
Proof.
  - done.
  - done.
  - intros a [l n]. cbn. destruct (Z.ltb_spec (zlen l) n); [done|lia].
  - intros [[|a l] n]; done.
Defined.

(** * Metrics *)

(** The counters of [metrics.rs] the export changes. *)
Record metrics := {
  mt_events_dropped : Z;
  mt_queue_bytes : Z;
  mt_queue_byte_drops : Z;
  mt_oversized_drops : Z;
  mt_events_sent : Z;
  mt_events_lost_send : Z;
  mt_send_errors : Z;
  mt_send_timeouts : Z;
  mt_consecutive_failures : Z;
  mt_last_send_ok_secs : Z
}.

#[export] Instance metrics_fields : Fields metrics := fun m =>
  Build_metrics (mt_events_dropped m) (mt_queue_bytes m) (mt_queue_byte_drops m) (mt_oversized_drops m)
    (mt_events_sent m) (mt_events_lost_send m) (mt_send_errors m) (mt_send_timeouts m)
    (mt_consecutive_failures m) (mt_last_send_ok_secs m).

Definition metrics_zero : metrics := Build_metrics 0 0 0 0 0 0 0 0 0 0.

(** [fetch_add] on the counter of dropped events. *)
Definition add_dropped (n : Z) (m : metrics) : metrics :=
  m <| mt_events_dropped := u64 (mt_events_dropped m + n) |>.

Section ExportQueue.
Context {E : Type} (approx_bytes : E → Z) `{Channel (E * Z)}.

(** * The queue *)

(** What threads share: the counter of the budget, the channel, the metrics. *)
Record queue := {
  qu_used : Z;
  qu_chan : chan;
  qu_metrics : metrics
}.

#[export] Instance queue_fields : Fields queue := fun q =>
  Build_queue (qu_used q) (qu_chan q) (qu_metrics q).

Definition on_metrics (f : metrics → metrics) (q : queue) : queue := q <| qu_metrics := f (qu_metrics q) |>.

Definition export_channel (max_events : Z) : queue :=
  {| qu_used := 0; qu_chan := chan_new (Z.max max_events 1); qu_metrics := metrics_zero |}.

(** [ExportSender::try_send], before each of its atomic operations. *)
Inductive sender :=
| Loading (ev : E) (size : Z)              (* reserve: load of [used] *)
| Swapping (ev : E) (size cur : Z)         (* reserve: the loop, with the value last seen *)
| Reserved (ev : E) (size next : Z)        (* reserve: store of the gauge *)
| Sending (ev : E) (size : Z)              (* tx.try_send *)
| Releasing (size : Z)                     (* release: fetch_sub, the channel was full *)
| Released (v : Z)                         (* release: store of the gauge *)
| CountBytes                               (* the budget was full: its counter *)
| CountDrop                                (* EVENTS_DROPPED *)
| Returned (accepted : bool).

Definition try_send (ev : E) : sender := Loading ev (approx_bytes ev).

(** One atomic operation of a sender. [weak] is the failure [compare_exchange_weak] may report though
    the value is the expected one. *)
Definition sender_step (limit : Z) (weak : bool) (p : sender) (q : queue) : sender * queue :=
  match p with
  | Loading ev size => (Swapping ev size (qu_used q), q)
  | Swapping ev size cur =>
      let next := cur + size in
      if (next <? 2 ^ 64) && (next <=? limit) then
        if (qu_used q =? cur) && negb weak then (Reserved ev size next, q <| qu_used := next |>)
        else (Swapping ev size (qu_used q), q)
      else (CountBytes, q)
  | Reserved ev size next => (Sending ev size, on_metrics (fun m => m <| mt_queue_bytes := next |>) q)
  | Sending ev size =>
      match chan_try_send (ev, size) (qu_chan q) with
      | Some c => (Returned true, q <| qu_chan := c |>)
      | None => (Releasing size, q)
      end
  | Releasing size => (Released (Z.max 0 (qu_used q - size)), q <| qu_used := u64 (qu_used q - size) |>)
  | Released v => (CountDrop, on_metrics (fun m => m <| mt_queue_bytes := v |>) q)
  | CountBytes =>
      (CountDrop, on_metrics (fun m => m <| mt_queue_byte_drops := u64 (mt_queue_byte_drops m + 1) |>) q)
  | CountDrop => (Returned false, on_metrics (add_dropped 1) q)
  | Returned b => (Returned b, q)
  end.

(** The queue as the metrics see it. *)
Definition queued_events (q : queue) : Z := zlen (items (qu_chan q)).
Definition queued_bytes (q : queue) : Z := qu_used q.
Definition max_events (q : queue) : Z := max_capacity (qu_chan q).

(** * The batch *)

Record Batch := {
  ba_events : list E;
  ba_bytes : Z;
  ba_max_events : Z;
  ba_max_bytes : Z
}.

#[export] Instance Batch_fields : Fields Batch := fun b =>
  Build_Batch (ba_events b) (ba_bytes b) (ba_max_events b) (ba_max_bytes b).

Definition batch_new (max_events max_bytes : Z) : Batch :=
  {| ba_events := []; ba_bytes := 0; ba_max_events := Z.max max_events 1; ba_max_bytes := max_bytes |}.

Definition batch_take (b : Batch) : list E * Batch := (ba_events b, b <| ba_bytes := 0 |> <| ba_events := [] |>).

Definition batch_is_empty (b : Batch) : bool := match ba_events b with [] => true | _ => false end.

(** [Batch::push]: the batches that are ready, oldest first. *)
Definition batch_push (ev : E) (size : Z) (b : Batch) (m : metrics) : list (list E) * Batch * metrics :=
  if ba_max_bytes b <? size then
    ([], b, add_dropped 1 (m <| mt_oversized_drops := u64 (mt_oversized_drops m + 1) |>))
  else
    let '(ready, b) :=
      if negb (batch_is_empty b) && (ba_max_bytes b <? u64 (ba_bytes b + size))
      then let '(full, b) := batch_take b in ([full], b) else ([], b) in
    let b := b <| ba_events := ba_events b ++ [ev] |> <| ba_bytes := u64 (ba_bytes b + size) |> in
    let '(ready, b) :=
      if (ba_max_events b <=? zlen (ba_events b)) || (ba_max_bytes b <=? ba_bytes b)
      then let '(full, b) := batch_take b in (ready ++ [full], b) else (ready, b) in
    (ready, b, m).
End ExportQueue.

Arguments queue E {_}.
Arguments sender : clear implicits.
Arguments Batch : clear implicits.
