(* ===== verification/Ingest.v ===== *)
(** The delivery of a batch: [userspace/src/ingest.rs], and what [userspace/src/metrics.rs] makes of
    its outcome.

    What the HTTP client reports of an attempt is an argument ([attempts]), as are the clock and the
    nanoseconds the backoff is drawn from. The JSON of a batch ([serialize]) and gzip ([gzip]) are
    parameters; either may fail. What an attempt does to the outside is a list of [io]. The lemmas at
    the end say how many requests a delivery makes and what the metrics and the probes say then. *)

From S2P Require Import Prelude Pending Memory Text Export.
From Stdlib Require Import Strings.String.

#[local] Notation length := List.length.
#[local] Open Scope list_scope.
#[local] Open Scope Z_scope.

Definition MAX_ATTEMPTS : Z := 3.
Definition COMPRESS_THRESHOLD_BYTES : Z := 4096.
Definition BASE_BACKOFF_MS : Z := 200.
Definition MAX_BACKOFF_MS : Z := 10000.
Definition MAX_ERROR_BODY_BYTES : Z := 512.

(** [StatusCode::is_success]. *)
Definition is_success (status : Z) : bool := (200 <=? status) && (status <=? 299).

Definition status_means_not_processed (status : Z) : bool := (status =? 429) || (status =? 503).

(** Below the base that grows with the attempt; [nanos] is the clock. *)
Definition jittered_backoff_ms (attempt nanos : Z) : Z :=
  let base := Z.min (u64 (Z.shiftl BASE_BACKOFF_MS (Z.min attempt 6))) MAX_BACKOFF_MS in
  let mix := u64 (u64 (nanos * 6364136223846793005) + 1442695040888963407) in
  Z.min (Z.max 0 (base - 1)) (mix mod Z.max base 1).

(** What the client reports: an answer with its [Retry-After] header and the chunks of its body, where
    [None] is a read that failed, or an error. *)
Inductive attempt :=
| Answer (status : Z) (retry_after : option bytes) (body : list (option bytes))
| Failure (is_connect is_timeout : bool).

(** [read_error_body]: at most [limit] bytes, chunk by chunk. *)
Fixpoint read_chunks (limit : Z) (buf : bytes) (chunks : list (option bytes)) : option bytes :=
  match chunks with
  | [] => Some buf
  | None :: _ => if bool_decide (buf = []) then None else Some buf
  | Some chunk :: chunks' =>
      let buf := buf ++ ztake (Z.min (zlen chunk) (limit - zlen buf)) chunk in
      if limit <=? zlen buf then Some buf else read_chunks limit buf chunks'
  end.

Definition read_error_body (chunks : list (option bytes)) (limit : Z) : list Z :=
  match read_chunks limit [] chunks with
  | Some buf => from_utf8_lossy buf
  | None => clit "[error reading body]"
  end.

(** The seconds of a [Retry-After] header in milliseconds, where it is a number. *)
Definition retry_after_ms (h : option bytes) : option Z :=
  s ← h; cs ← from_utf8 s; secs ← parse_u64 cs; Some (Z.min (secs * 1000) (2 ^ 64 - 1)).

Inductive send_error :=
| NotSerialized
| NotCompressed
| HttpStatus (status : Z) (text : list Z)
| TimedOut
| RequestFailed
| Exhausted.

Inductive io :=
| Sleep (ms : Z)
| Post (payload : bytes) (gzipped : bool).

Definition add_sent (n : Z) (m : metrics) : metrics := m <| mt_events_sent := u64 (mt_events_sent m + n) |>.
Definition add_error (m : metrics) : metrics := m <| mt_send_errors := u64 (mt_send_errors m + 1) |>.
Definition add_timeout (m : metrics) : metrics := m <| mt_send_timeouts := u64 (mt_send_timeouts m + 1) |>.

Section Ingest.
Context {E : Type} (serialize : list E → option bytes) (gzip : bytes → option bytes).
Context (redact_text : list Z → list Z).

Definition encode_batch_payload (json_bytes : bytes) : option (bytes * bool) :=
  if COMPRESS_THRESHOLD_BYTES <? zlen json_bytes
  then z ← gzip json_bytes; Some (z, true) else Some (json_bytes, false).

(** The loop over the attempts: [n] of them are left. *)
Fixpoint send_attempts (n : nat) (attempts : Z → attempt) (nanos : Z → Z) (count : Z) (payload : bytes)
    (gzipped : bool) (m : metrics) : option send_error * list io * metrics :=
  match n with
  | O => (Some Exhausted, [], add_error m)
  | S n' =>
      let attempt := MAX_ATTEMPTS - Z.of_nat n in
      let sleep := if 0 <? attempt then [Sleep (jittered_backoff_ms attempt (nanos attempt))] else [] in
      let out := sleep ++ [Post payload gzipped] in
      match attempts attempt with
      | Answer status retry_after body =>
          if is_success status then (None, out, add_sent count m)
          else if status_means_not_processed status && (attempt + 1 <? MAX_ATTEMPTS) then
            let wait := match retry_after_ms retry_after with
                        | Some ms => [Sleep (Z.min ms MAX_BACKOFF_MS)]
                        | None => []
                        end in
            let '(r, out', m) := send_attempts n' attempts nanos count payload gzipped m in
            (r, out ++ wait ++ out', m)
          else (Some (HttpStatus status (redact_text (read_error_body body MAX_ERROR_BODY_BYTES))), out, add_error m)
      | Failure is_connect is_timeout =>
          if is_connect && (attempt + 1 <? MAX_ATTEMPTS) then
            let '(r, out', m) := send_attempts n' attempts nanos count payload gzipped m in
            (r, out ++ out', m)
          else if is_timeout && negb is_connect
          then (Some TimedOut, out, add_timeout (add_error m))
          else (Some RequestFailed, out, add_error m)
      end
  end.

Definition try_send_batch (events : list E) (attempts : Z → attempt) (nanos : Z → Z) (m : metrics)
    : option send_error * list io * metrics :=
  match serialize events with
  | None => (Some NotSerialized, [], m)
  | Some json =>
      match encode_batch_payload json with
      | None => (Some NotCompressed, [], m)
      | Some (payload, gzipped) =>
          send_attempts (Z.to_nat MAX_ATTEMPTS) attempts nanos (zlen events) payload gzipped m
      end
  end.

(** * Outcomes *)

Definition record_send_success (now_secs : Z) (m : metrics) : metrics :=
  m <| mt_last_send_ok_secs := now_secs |> <| mt_consecutive_failures := 0 |>.

Definition record_send_failure (events : Z) (m : metrics) : metrics :=
  add_dropped events
    (m <| mt_consecutive_failures := u64 (mt_consecutive_failures m + 1) |>
       <| mt_events_lost_send := u64 (mt_events_lost_send m + events) |>).

Definition send_batch_with_client (events : list E) (attempts : Z → attempt) (nanos : Z → Z)
    (now_secs : Z) (m : metrics) : option send_error * list io * metrics :=
  let '(r, out, m) := try_send_batch events attempts nanos m in
  match r with
  | None => (None, out, record_send_success now_secs m)
  | Some e => (Some e, out, record_send_failure (zlen events) m)
  end.

(** The requests among the effects. *)
Definition posts (out : list io) : list (bytes * bool) :=
  omap (fun o => match o with Post p z => Some (p, z) | Sleep _ => None end) out.

(** * What an attempt can have done

    A server that certainly did not take the batch: the connection was never made, or it refused. *)
Definition certainly_not_processed (a : attempt) : bool :=
  match a with
  | Answer status _ _ => (status =? 429) || (status =? 503)
  | Failure is_connect _ => is_connect
  end.

(** What is known of a server that keeps to HTTP: [stored k] says whether it stored the batch it was
    sent at attempt [k]. *)
Definition honest (attempts : Z → attempt) (stored : Z → bool) : Prop :=
  ∀ k, match attempts k with
       | Answer status _ _ => (200 <= status < 300 → stored k = true) ∧
                              (status = 429 ∨ status = 503 → stored k = false)
       | Failure is_connect _ => is_connect = true → stored k = false
       end.

(** How often the batch is stored by the first [n] attempts. *)
Definition copies (stored : Z → bool) (n : nat) : Z :=
  zsum (fun k => if stored (Z.of_nat k) then 1 else 0) (seq 0 n).
End Ingest.

(** * Health

    The two questions of the probes in [metrics.rs]; times are seconds. *)

Definition LIVENESS_STARTUP_GRACE_SECS : Z := 180.
Definition POLL_STALL_SECS : Z := 120.
Definition READYZ_GRACE_SECS : Z := 30.
Definition DELIVERY_FAILURE_THRESHOLD : Z := 3.

Definition capture_alive (now started last_poll : Z) : bool :=
  if last_poll =? 0 then Z.max 0 (now - started) <? LIVENESS_STARTUP_GRACE_SECS
  else Z.max 0 (now - last_poll) <? POLL_STALL_SECS.

Definition delivery_ok (consecutive_failures : Z) : bool := consecutive_failures <? DELIVERY_FAILURE_THRESHOLD.

(** The status of [/healthz] and [/readyz]: 200 or 503. *)
Definition health_handler (now started last_poll : Z) : Z :=
  if capture_alive now started last_poll then 200 else 503.

Definition ready_handler (now started captured : Z) (m : metrics) : Z :=
  if negb (delivery_ok (mt_consecutive_failures m)) then 503
  else if 0 <? captured then 200
  else if Z.max 0 (now - started) <? READYZ_GRACE_SECS then 200 else 503.

(** * What a delivery does

    How many requests it makes, when it makes another one, and what the metrics and the probes say
    afterwards. *)

Section IngestProps.
Context {E : Type} (serialize : list E → option bytes) (gzip : bytes → option bytes).
Context (redact_text : list Z → list Z).

(** What is left to say about the errors: the metrics of each. *)
Definition failed (e : send_error) (m : metrics) : metrics :=
  match e with
  | NotSerialized | NotCompressed => m
  | TimedOut => add_timeout (add_error m)
  | _ => add_error m
  end.

(** The attempt [a] ends the delivery with [r]. *)
Definition ends (a : attempt) (r : option send_error) : Prop :=
  match r with
  | None => ∃ status ra body, a = Answer status ra body ∧ is_success status = true
  | Some (HttpStatus status text) =>
      ∃ ra body, a = Answer status ra body ∧ is_success status = false ∧
                 text = redact_text (read_error_body body MAX_ERROR_BODY_BYTES)
  | Some TimedOut => a = Failure false true
  | Some RequestFailed => ∃ c t, a = Failure c t ∧ (t = true → c = true)
  | Some _ => False
  end.

Lemma posts_app l l' : posts (l ++ l') = posts l ++ posts l'.
Proof. apply omap_app. Qed.

Lemma posts_attempt (b : bool) ms p z : posts ((if b then [Sleep ms] else []) ++ [Post p z]) = [(p, z)].
Proof. by destruct b. Qed.

(** What a run of the loop that has [n] attempts left and begins with attempt [i] comes to: all of its
    requests are the same, those before the last one were certainly not processed, and the last one
    gives the result. *)
Definition told (attempts : Z → attempt) (i : Z) (n : nat) (count : Z) (p : bytes) (z : bool) (m : metrics)
    (res : option send_error * list io * metrics) : Prop :=
  let '(r, out, m') := res in
  ∃ k, (k < n)%nat ∧ posts out = replicate (S k) (p, z) ∧
       (∀ j, (j < k)%nat → certainly_not_processed (attempts (i + Z.of_nat j)) = true) ∧
       ends (attempts (i + Z.of_nat k)) r ∧
       m' = match r with None => add_sent count m | Some e => failed e m end.

Lemma told_here attempts i n count p z m r (b : bool) ms :
  ends (attempts i) r →
  told attempts i (S n) count p z m
    (r, (if b then [Sleep ms] else []) ++ [Post p z],
     match r with None => add_sent count m | Some e => failed e m end).
Proof.
  intros He. exists O. rewrite posts_attempt, Z.add_0_r.
  split_and!; [lia|done|intros; lia|done|done].
Qed.

Lemma told_again attempts i n count p z m res (b : bool) ms wait :
  certainly_not_processed (attempts i) = true → posts wait = [] →
  told attempts (i + 1) n count p z m res →
  let '(r, out, m') := res in
  told attempts i (S n) count p z m (r, ((if b then [Sleep ms] else []) ++ [Post p z]) ++ wait ++ out, m').
Proof.
  destruct res as [[r out] m']. intros Hc Hw (k & Hk & Hp & Hj & He & Hm). exists (S k).
  rewrite !posts_app, Hw, Hp. split_and!; [lia|by destruct b| | |done].
  - intros [|j] Hlt; [by rewrite Z.add_0_r|].
    replace (i + Z.of_nat (S j)) with (i + 1 + Z.of_nat j) by lia. apply Hj. lia.
  - by replace (i + Z.of_nat (S k)) with (i + 1 + Z.of_nat k) by lia.
Qed.

Lemma send_attempts_spec n attempts nanos count p z m :
  (0 < n <= 3)%nat →
  told attempts (3 - Z.of_nat n) n count p z m (send_attempts redact_text n attempts nanos count p z m).
Proof.
  induction n as [|n IH] in m |- *; intros Hn; [lia|]. cbn [send_attempts].
  change MAX_ATTEMPTS with 3. set (i := 3 - Z.of_nat (S n)).
  assert (i + 1 < 3 → told attempts (i + 1) n count p z m (send_attempts redact_text n attempts nanos count p z m)) as Hnext.
  { intros Hi. replace (i + 1) with (3 - Z.of_nat n) by lia. apply IH. lia. }
  set (sleep := jittered_backoff_ms i (nanos i)).
  pose proof (told_here attempts i n count p z m) as Hhere.
  pose proof (told_again attempts i n count p z m) as Hagain.
  destruct (attempts i) as [status ra body|c t] eqn:Ea.
  - destruct (is_success status) eqn:Es.
    { apply (Hhere None). by exists status, ra, body. }
    destruct (status_means_not_processed status && (i + 1 <? 3)) eqn:Er.
    + apply andb_true_iff in Er as [Er Hi]. apply Z.ltb_lt in Hi.
      eapply (Hagain _ (0 <? i) sleep) in Hnext; [|done| |done].
      * destruct (send_attempts redact_text n attempts nanos count p z m) as [[r out'] m']. exact Hnext.
      * by destruct (retry_after_ms ra).
    + apply (Hhere (Some (HttpStatus _ _))). by exists ra, body.
  - destruct (c && (i + 1 <? 3)) eqn:Er.
    + apply andb_true_iff in Er as [-> Hi]. apply Z.ltb_lt in Hi.
      eapply (Hagain _ (0 <? i) sleep []) in Hnext; [|done..].
      destruct (send_attempts redact_text n attempts nanos count p z m) as [[r out'] m']. exact Hnext.
    + destruct (t && negb c) eqn:Et.
      * apply andb_true_iff in Et as [-> Hc]. destruct c; [done|]. by apply (Hhere (Some TimedOut)).
      * apply (Hhere (Some RequestFailed)). exists c, t. split; [done|]. intros ->. by destruct c.
Qed.

Lemma copies_S stored n : copies stored (S n) = copies stored n + (if stored (Z.of_nat n) then 1 else 0).
Proof.
  unfold copies. rewrite seq_S, zsum_app, zsum_cons. change (zsum _ []) with 0.
  cbn [Nat.add]. lia.
Qed.

Lemma copies_refused attempts stored n :
  honest attempts stored → (∀ j, (j < n)%nat → certainly_not_processed (attempts (Z.of_nat j)) = true) →
  copies stored n = 0.
Proof.
  intros Hh. induction n as [|n IH]; intros Hr; [done|]. rewrite copies_S, IH by (intros j ?; apply Hr; lia).
  specialize (Hh (Z.of_nat n)). specialize (Hr n ltac:(lia)).
  destruct (attempts (Z.of_nat n)); cbn in Hr; [|by rewrite (Hh Hr)].
  rewrite (proj2 Hh); [done|]. apply orb_true_iff in Hr as [Hr|Hr]; lia.
Qed.

(** A delivery makes up to three identical requests, and at most one of them is stored, whatever
    happens to them; exactly one when it succeeds. *)
Lemma try_send_batch_spec events attempts nanos m :
  let '(r, out, m') := try_send_batch serialize gzip redact_text events attempts nanos m in
  (∃ p z, posts out = replicate (length (posts out)) (p, z)) ∧
  (length (posts out) <= 3)%nat ∧
  m' = match r with None => add_sent (zlen events) m | Some e => failed e m end ∧
  ∀ stored, honest attempts stored →
    0 <= copies stored (length (posts out)) <= 1 ∧
    (r = None → copies stored (length (posts out)) = 1).
Proof.
  unfold try_send_batch.
  assert (∀ e m', e = NotSerialized ∨ e = NotCompressed → m' = m →
    (∃ p z, posts [] = replicate (length (posts [])) (p, z)) ∧ (length (posts []) <= 3)%nat ∧
    m' = failed e m ∧ ∀ stored, honest attempts stored →
    0 <= copies stored (length (posts [])) <= 1 ∧ (Some e = None → copies stored (length (posts [])) = 1)) as Hnone.
  { intros e m' He ->. split; [by exists [], true|]. split; [cbn; lia|]. split; [by destruct He as [-> | ->]|].
    intros stored _. change (copies stored (length (posts []))) with 0. split; [lia|done]. }
  destruct (serialize events) as [json|]; [|apply Hnone; auto].
  destruct (encode_batch_payload gzip json) as [[p z]|]; [|apply Hnone; auto].
  pose proof (send_attempts_spec 3 attempts nanos (zlen events) p z m ltac:(lia)) as Hs.
  change (Z.to_nat MAX_ATTEMPTS) with 3%nat.
  destruct (send_attempts redact_text 3 attempts nanos (zlen events) p z m) as [[r out] m'].
  destruct Hs as (k & Hk & Hp & Hj & He & Hm). rewrite Hp, length_replicate.
  split; [by exists p, z|]. split; [lia|]. split; [done|].
  intros stored Hh. rewrite copies_S, (copies_refused attempts) by done.
  split; [destruct (stored _); lia|]. intros ->. destruct He as (status & ra & body & Ha & Hok).
  specialize (Hh (Z.of_nat k)). change (3 - Z.of_nat 3 + Z.of_nat k) with (Z.of_nat k) in Ha.
  rewrite Ha in Hh. rewrite (proj1 Hh); [done|]. unfold is_success in Hok. lia.
Qed.
End IngestProps.
