(* ===== verification/Delivery.v ===== *)
(** The export of events as [userspace/src/main.rs] wires it: any number of threads that send, and the
    task that batches what they sent and delivers it.

    A [machine] holds the queue, the sends in progress by thread, the batch task and its batch. Its
    steps are the atomic operations of the senders and of the receiver, in any order; a delivery is one
    step, since nothing it touches besides the metrics is shared. [ma_offered], [ma_accepted] and
    [ma_log] are history: the events handed to [try_send], those it took, and the batches that were
    sent with their outcome. *)

From S2P Require Import Prelude.
From S2P Require Import Pending Memory Text Export Ingest.
From Stdlib Require Import Strings.String.

#[local] Notation length := List.length.
#[local] Open Scope list_scope.
#[local] Open Scope Z_scope.

(** The batch task, between two of its steps. *)
Inductive receiver {E : Type} :=
| Waiting
| Taken (ev : E) (size : Z)            (* recv: release, fetch_sub *)
| Storing (ev : E) (size v : Z)        (* recv: release, store of the gauge *)
| Sends (ready : list (list E)) (last : bool)
| Stopped.
Arguments receiver : clear implicits.

Record machine {E : Type} `{Channel (E * Z)} := {
  ma_queue : queue E;
  ma_senders : gmap nat (sender E);
  ma_receiver : receiver E;
  ma_batch : Batch E;
  ma_open : bool;
  ma_offered : list E;
  ma_accepted : list E;
  ma_log : list (list E * option send_error)
}.
Arguments machine E {_}.

#[export] Instance machine_fields {E} `{Channel (E * Z)} : Fields (machine E) := fun s =>
  Build_machine E _ (ma_queue s) (ma_senders s) (ma_receiver s) (ma_batch s) (ma_open s) (ma_offered s)
    (ma_accepted s) (ma_log s).

Inductive label {E : Type} :=
| Offer (thread : nat) (ev : E)                (* a call of try_send *)
| Sender (thread : nat) (weak : bool)          (* the next operation of the call *)
| CloseSenders                                 (* the last ExportSender is dropped *)
| Recv                                         (* rx.recv() is ready *)
| Receiver                                     (* the next operation of recv and Batch::push *)
| FlushTick                                    (* flush_interval.tick() is ready *)
| Deliver (attempts : Z → attempt) (nanos : Z → Z) (now_secs : Z).
Arguments label : clear implicits.

Section Delivery.
Context {E : Type} (approx_bytes : E → Z) `{Channel (E * Z)}.
Context (serialize : list E → option bytes) (gzip : bytes → option bytes) (redact_text : list Z → list Z).
Context (limit : Z).

Definition machine_new (max_events batch_events batch_bytes : Z) : machine E :=
  {| ma_queue := export_channel max_events; ma_senders := ∅; ma_receiver := Waiting;
     ma_batch := batch_new batch_events batch_bytes; ma_open := true;
     ma_offered := []; ma_accepted := []; ma_log := [] |}.

Definition with_queue (q : queue E) (s : machine E) : machine E := s <| ma_queue := q |>.

(** A batch that is not empty is taken and sent; [last] says that the task ends after it. *)
Definition flush (last : bool) (s : machine E) : machine E :=
  if batch_is_empty (ma_batch s) then s <| ma_receiver := Sends [] last |>
  else let '(payload, b) := batch_take (ma_batch s) in
       s <| ma_receiver := Sends [payload] last |> <| ma_batch := b |>.

Definition offer (i : nat) (ev : E) (s : machine E) : option (machine E) :=
  match ma_open s, ma_senders s !! i with
  | true, None => Some (s <| ma_senders := <[i := try_send approx_bytes ev]> (ma_senders s) |>
                          <| ma_offered := ma_offered s ++ [ev] |>)
  | _, _ => None
  end.

(** The event a call hands over when its next operation succeeds. *)
Definition accepting (p : sender E) (p' : sender E) : list E :=
  match p, p' with Sending ev _, Returned true => [ev] | _, _ => [] end.

Definition send_op (i : nat) (weak : bool) (s : machine E) : option (machine E) :=
  p ← ma_senders s !! i;
  let '(p', q) := sender_step limit weak p (ma_queue s) in
  Some (s <| ma_queue := q |>
          <| ma_senders := match p' with Returned _ => delete i (ma_senders s) | _ => <[i := p']> (ma_senders s) end |>
          <| ma_accepted := ma_accepted s ++ accepting p p' |>).

Definition close_senders (s : machine E) : option (machine E) :=
  if ma_open s && bool_decide (ma_senders s = ∅) then Some (s <| ma_open := false |>) else None.

Definition receive (s : machine E) : option (machine E) :=
  match ma_receiver s with
  | Waiting =>
      match chan_recv (qu_chan (ma_queue s)) with
      | Some ((ev, size), c) =>
          Some (s <| ma_queue := (ma_queue s) <| qu_chan := c |> |> <| ma_receiver := Taken ev size |>)
      | None => if ma_open s then None else Some (flush true s)
      end
  | _ => None
  end.

Definition receive_op (s : machine E) : option (machine E) :=
  let q := ma_queue s in
  match ma_receiver s with
  | Taken ev size =>
      Some (s <| ma_queue := q <| qu_used := u64 (qu_used q - size) |> |>
              <| ma_receiver := Storing ev size (Z.max 0 (qu_used q - size)) |>)
  | Storing ev size v =>
      let m := (qu_metrics q) <| mt_queue_bytes := v |> in
      let '(ready, b, m) := batch_push ev size (ma_batch s) m in
      Some (s <| ma_queue := q <| qu_metrics := m |> |> <| ma_batch := b |> <| ma_receiver := Sends ready false |>)
  | Sends [] last => Some (s <| ma_receiver := if last then Stopped else Waiting |>)
  | _ => None
  end.

Definition tick (s : machine E) : option (machine E) :=
  match ma_receiver s with Waiting => Some (flush false s) | _ => None end.

Definition deliver (attempts : Z → attempt) (nanos : Z → Z) (now_secs : Z) (s : machine E) : option (machine E) :=
  match ma_receiver s with
  | Sends (payload :: ready) last =>
      let q := ma_queue s in
      let '(r, _, m) := send_batch_with_client serialize gzip redact_text payload attempts nanos now_secs (qu_metrics q) in
      Some (s <| ma_queue := q <| qu_metrics := m |> |> <| ma_receiver := Sends ready last |>
              <| ma_log := ma_log s ++ [(payload, r)] |>)
  | _ => None
  end.

Definition step (l : label E) (s : machine E) : option (machine E) :=
  match l with
  | Offer i ev => offer i ev s
  | Sender i weak => send_op i weak s
  | CloseSenders => close_senders s
  | Recv => receive s
  | Receiver => receive_op s
  | FlushTick => tick s
  | Deliver attempts nanos now_secs => deliver attempts nanos now_secs s
  end.

Fixpoint steps_of (ls : list (label E)) (s : machine E) : option (machine E) :=
  match ls with
  | [] => Some s
  | l :: ls => s ← step l s; steps_of ls s
  end.

Lemma steps_of_app ls ls' s : steps_of (ls ++ ls') s = s1 ← steps_of ls s; steps_of ls' s1.
Proof.
  induction ls as [|l ls IH] in s |- *; [done|]. cbn. destruct (step l s) as [s1|]; [apply IH|done].
Qed.

(** * Where events are *)

(** The event of a call that is neither handed over nor counted yet. *)
Definition sender_carries (p : sender E) : Z := match p with Returned _ => 0 | _ => 1 end.

(** What a call has reserved and not given back, while its event is not in the channel. *)
Definition sender_holds (p : sender E) : Z :=
  match p with Reserved _ size _ | Sending _ size | Releasing size => size | _ => 0 end.

Definition receiver_holds (r : receiver E) : Z := match r with Taken _ size => size | _ => 0 end.

(** Events the task has taken from the channel and not put into the batch, and batches it is to send. *)
Definition receiver_event (r : receiver E) : list E :=
  match r with Taken ev _ | Storing ev _ _ => [ev] | _ => [] end.

Definition receiver_ready (r : receiver E) : list (list E) := match r with Sends ready _ => ready | _ => [] end.

Definition queued (s : machine E) : list (E * Z) := items (qu_chan (ma_queue s)).

(** Events that are still inside the sensor. *)
Definition in_flight (s : machine E) : Z :=
  map_sum sender_carries (ma_senders s) + zlen (queued s) + zlen (receiver_event (ma_receiver s))
  + zlen (ba_events (ma_batch s)) + zlen (mjoin (receiver_ready (ma_receiver s))).

(** An event that fits into a batch; the others are dropped when they leave the queue. *)
Definition fits (max_bytes : Z) (ev : E) : Prop := approx_bytes ev <= max_bytes.

#[export] Instance fits_dec max_bytes ev : Decision (fits max_bytes ev) := Z_le_dec _ _.
End Delivery.
