(* ===== verification/ExportInv.v ===== *)
(** What holds of the export in every interleaving of its threads: the budget bounds the queue, every
    event is accounted for, what is accepted is delivered in order, and the shutdown drains. *)

From S2P Require Import Prelude Pending Memory Text ShardMem Export Ingest Delivery.
From Stdlib Require Import Strings.String.

#[local] Notation length := List.length.
#[local] Open Scope list_scope.
#[local] Open Scope Z_scope.

(** * One batch *)

Section BatchProps.
Context {E : Type} (approx_bytes : E → Z) (max_events max_bytes : Z).
Implicit Types (b : Batch E) (ev : E).

Definition batch_bytes (l : list E) : Z := zsum approx_bytes l.

(** A batch that may be sent. *)
Definition sendable (l : list E) : Prop :=
  l ≠ [] ∧ zlen l <= max_events ∧ batch_bytes l <= max_bytes.

(** The batch of the task between two calls. *)
Definition good b : Prop :=
  ba_max_events b = max_events ∧ ba_max_bytes b = max_bytes ∧
  ba_bytes b = batch_bytes (ba_events b) ∧
  (ba_events b = [] ∨ zlen (ba_events b) < max_events ∧ ba_bytes b < max_bytes).

Lemma good_sendable b : good b → ba_events b ≠ [] → sendable (ba_events b).
Proof. intros (_ & _ & Hb & [?|[??]]) ?; [done|]. split_and!; [done|lia|lia]. Qed.

Context (max_events_pos : 1 <= max_events) (max_bytes_range : max_bytes < 2 ^ 63).

Lemma good_take b : good b → good (batch_take b).2.
Proof. intros (? & ? & _). split_and!; try done. by left. Qed.

Context (approx_nonneg : ∀ ev, 0 <= approx_bytes ev).

Lemma batch_bytes_nonneg l : 0 <= batch_bytes l.
Proof using Type*. apply zsum_nonneg, Forall_forall. auto. Qed.

Lemma batch_bytes_snoc l ev : batch_bytes (l ++ [ev]) = batch_bytes l + approx_bytes ev.
Proof. unfold batch_bytes. rewrite zsum_app, zsum_cons. change (zsum _ []) with 0. lia. Qed.

(** [push], in the order of the code: flush what the event does not fit in with, append, flush what
    is full. *)
Definition flush_before ev b : list (list E) * Batch E :=
  if negb (batch_is_empty b) && (max_bytes <? u64 (ba_bytes b + approx_bytes ev))
  then ([ba_events b], (batch_take b).2) else ([], b).

Lemma flush_before_spec ev b :
  good b → approx_bytes ev <= max_bytes →
  let '(ready, b') := flush_before ev b in
  good b' ∧ Forall sendable ready ∧ mjoin ready ++ ba_events b' = ba_events b ∧
  ba_bytes b' + approx_bytes ev <= max_bytes ∧ zlen (ba_events b') < max_events.
Proof using Type*.
  intros Hg Hev. pose proof Hg as (Hme & Hmb & Hb & Hroom). unfold flush_before.
  pose proof (approx_nonneg ev). pose proof (batch_bytes_nonneg (ba_events b)).
  assert (ba_events b = [] → ba_bytes b = 0) as Hempty by (intros He; by rewrite Hb, He).
  assert (ba_bytes b <= max_bytes) by (destruct Hroom as [He|]; [rewrite Hempty by done|]; lia).
  rewrite wrap_small by lia.
  destruct (batch_is_empty b) eqn:He; cbn [negb andb].
  - assert (ba_events b = []) as Hnil by (unfold batch_is_empty in He; by destruct (ba_events b)).
    rewrite Hempty, Hnil by done. split_and!; [done|constructor|done|lia|].
    change (zlen (@nil E)) with 0. lia.
  - assert (ba_events b ≠ []) as Hnil by (intros Hn; unfold batch_is_empty in He; by rewrite Hn in He).
    destruct (Z.ltb_spec max_bytes (ba_bytes b + approx_bytes ev)).
    + split_and!; [by apply good_take| | |cbn; lia|].
      * constructor; [by apply good_sendable|constructor].
      * cbn. by rewrite !app_nil_r.
      * cbn. change (zlen (@nil E)) with 0. lia.
    + split_and!; [done|constructor|done|lia|]. destruct Hroom as [|[]]; [done|lia].
Qed.

Definition append_event ev b : Batch E :=
  b <| ba_events := ba_events b ++ [ev] |> <| ba_bytes := u64 (ba_bytes b + approx_bytes ev) |>.

Definition flush_full b : list (list E) * Batch E :=
  if (ba_max_events b <=? zlen (ba_events b)) || (ba_max_bytes b <=? ba_bytes b)
  then ([ba_events b], (batch_take b).2) else ([], b).

Lemma flush_full_spec ev b :
  good b → ba_bytes b + approx_bytes ev <= max_bytes → zlen (ba_events b) < max_events →
  let '(ready, b') := flush_full (append_event ev b) in
  good b' ∧ Forall sendable ready ∧ mjoin ready ++ ba_events b' = ba_events b ++ [ev].
Proof using Type*.
  intros (Hme & Hmb & Hb & _) Hroom Hlen. unfold flush_full, append_event.
  cbn [ba_events ba_bytes ba_max_events ba_max_bytes set_field].
  pose proof (approx_nonneg ev). pose proof (batch_bytes_nonneg (ba_events b)).
  rewrite Hme, Hmb, wrap_small by lia.
  assert (zlen (ba_events b ++ [ev]) = zlen (ba_events b) + 1) as Hz by apply zlen_app.
  destruct (_ || _) eqn:Efull.
  - split; [split_and!; try done; by left|]. split.
    + constructor; [|constructor]. split; [intros Hn; by apply app_nil in Hn as [_ ?]|].
      rewrite batch_bytes_snoc. lia.
    + cbn. by rewrite !app_nil_r.
  - zbool. split; [|by split; [constructor|]]. split_and!; try done.
    + cbn. rewrite batch_bytes_snoc. lia.
    + right. cbn in *. lia.
Qed.

Lemma batch_push_eq ev b m :
  ba_max_bytes b = max_bytes →
  batch_push ev (approx_bytes ev) b m =
  if max_bytes <? approx_bytes ev
  then ([], b, add_dropped 1 (m <| mt_oversized_drops := u64 (mt_oversized_drops m + 1) |>))
  else let '(r1, b1) := flush_before ev b in
       let '(r2, b2) := flush_full (append_event ev b1) in (r1 ++ r2, b2, m).
Proof.
  intros Hmb. unfold batch_push, flush_before, flush_full, append_event, batch_take. rewrite Hmb.
  destruct (max_bytes <? approx_bytes ev); [done|].
  destruct (negb (batch_is_empty b) && _); cbn;
    match goal with |- context [if ?t then _ else _] => destruct t end; done.
Qed.

Lemma batch_push_spec ev b m :
  good b →
  let '(ready, b', m') := batch_push ev (approx_bytes ev) b m in
  good b' ∧ Forall sendable ready ∧
  (approx_bytes ev <= max_bytes ∧ mjoin ready ++ ba_events b' = ba_events b ++ [ev] ∧ m' = m ∨
   max_bytes < approx_bytes ev ∧ ready = [] ∧ b' = b ∧
   m' = add_dropped 1 (m <| mt_oversized_drops := u64 (mt_oversized_drops m + 1) |>)).
Proof using Type*.
  intros Hg. rewrite batch_push_eq by apply Hg.
  destruct (Z.ltb_spec max_bytes (approx_bytes ev)) as [|Hev]; [split_and!; auto|].
  pose proof (flush_before_spec ev b Hg Hev) as Hf. destruct (flush_before ev b) as [r1 b1].
  destruct Hf as (Hg1 & Hr1 & Hj1 & Hroom & Hlen).
  pose proof (flush_full_spec ev b1 Hg1 Hroom Hlen) as Hf. destruct (flush_full _) as [r2 b2].
  destruct Hf as (Hg2 & Hr2 & Hj2). split; [done|]. split; [by apply Forall_app|]. left.
  split; [done|]. split; [|done]. by rewrite join_app, <- app_assoc, Hj2, app_assoc, Hj1.
Qed.
End BatchProps.

(** * Invariants of every run

    The invariants of the export machine, each preserved by every step of every thread: the budget,
    the batches, the ledger of events and their order. *)

Section Inv.
Context {E : Type} (approx_bytes : E → Z) `{Channel (E * Z)}.
Context (serialize : list E → option bytes) (gzip : bytes → option bytes) (redact_text : list Z → list Z).
Context (limit max_events max_events_of_batch max_bytes : Z).
Implicit Types (s : machine E) (p : sender E) (q : queue E) (r : receiver E).

Notation step := (step approx_bytes serialize gzip redact_text limit).
Notation steps_of := (steps_of approx_bytes serialize gzip redact_text limit).

(** A property that every step keeps holds after any run. *)
Lemma steps_keep (I : machine E → Prop) ls s s' :
  (∀ l s s', I s → step l s = Some s' → I s') → I s → steps_of ls s = Some s' → I s'.
Proof.
  intros Hstep. induction ls as [|l ls IH] in s |- *; cbn; intros Hs Hr; [by simplify_eq|].
  destruct (step l s) as [s1|] eqn:E1; [|done]. eauto.
Qed.

(** * The budget *)

(** The sizes a call works with are the size of its event. *)
Definition sender_ok p : Prop :=
  match p with
  | Loading ev size => size = approx_bytes ev
  | Swapping ev size cur => size = approx_bytes ev ∧ 0 <= cur
  | Reserved ev size _ | Sending ev size => size = approx_bytes ev
  | Releasing size => 0 <= size
  | _ => True
  end.

Definition receiver_ok r : Prop :=
  match r with Taken ev size | Storing ev size _ => size = approx_bytes ev | _ => True end.

Definition item_ok (x : E * Z) : Prop := x.2 = approx_bytes x.1.

Definition chan_bytes q : Z := zsum snd (items (qu_chan q)).

Record budget_inv (s : machine E) : Prop := {
  bi_used : qu_used (ma_queue s) =
            chan_bytes (ma_queue s) + map_sum sender_holds (ma_senders s) + receiver_holds (ma_receiver s);
  bi_limit : qu_used (ma_queue s) <= limit;
  bi_items : Forall item_ok (queued s);
  bi_room : zlen (queued s) <= max_capacity (qu_chan (ma_queue s));
  bi_cap : max_capacity (qu_chan (ma_queue s)) = max_events;
  bi_senders : map_Forall (fun _ p => sender_ok p) (ma_senders s);
  bi_receiver : receiver_ok (ma_receiver s)
}.

Context (approx_nonneg : ∀ ev, 0 <= approx_bytes ev) (limit_range : 0 <= limit < 2 ^ 64).

Lemma sender_holds_nonneg p : sender_ok p → 0 <= sender_holds p.
Proof using approx_nonneg. destruct p; cbn; intros; subst; auto; lia. Qed.

Lemma chan_bytes_nonneg q : Forall item_ok (items (qu_chan q)) → 0 <= chan_bytes q.
Proof using approx_nonneg.
  intros Hi. apply zsum_nonneg. eapply Forall_impl; [|exact Hi]. intros [ev n]. unfold item_ok. cbn. intros ->. auto.
Qed.

Lemma senders_hold_nonneg (M : gmap nat (sender E)) :
  map_Forall (fun _ p => sender_ok p) M → 0 <= map_sum sender_holds M.
Proof using approx_nonneg.
  intros HM. apply map_sum_nonneg. eapply map_Forall_impl; [exact HM|]. intros ? p ?. by apply sender_holds_nonneg.
Qed.

Lemma receiver_holds_nonneg r : receiver_ok r → 0 <= receiver_holds r.
Proof using approx_nonneg. destruct r; cbn; intros; subst; auto; lia. Qed.

(** One operation of a call moves the counter by what the call comes to hold, and the rest is the
    channel's. *)
Lemma sender_step_budget weak p q p' q' others :
  sender_step limit weak p q = (p', q') → sender_ok p → Forall item_ok (items (qu_chan q)) →
  0 <= others → qu_used q = chan_bytes q + sender_holds p + others → qu_used q <= limit →
  zlen (items (qu_chan q)) <= max_capacity (qu_chan q) →
  sender_ok p' ∧ Forall item_ok (items (qu_chan q')) ∧
  qu_used q' = chan_bytes q' + sender_holds p' + others ∧ qu_used q' <= limit ∧
  zlen (items (qu_chan q')) <= max_capacity (qu_chan q') ∧
  max_capacity (qu_chan q') = max_capacity (qu_chan q).
Proof using approx_nonneg limit_range.
  intros Hs Hp Hi Ho Hu Hl Hroom.
  pose proof (sender_holds_nonneg p Hp). pose proof (chan_bytes_nonneg q Hi).
  destruct p as [ev sz|ev sz cur|ev sz next|ev sz|sz|v| | |b]; cbn in Hs.
  - injection Hs as <- <-. cbn in *. split_and!; try done; lia.
  - destruct Hp as [-> Hc]. pose proof (approx_nonneg ev).
    destruct ((cur + _ <? _) && _) eqn:Ef; [|by injection Hs as <- <-].
    destruct ((qu_used q =? cur) && _) eqn:Ec; injection Hs as <- <-; zbool; cbn in *; unfold chan_bytes in *; cbn.
    + split_and!; try done; lia.
    + split_and!; try done; lia.
  - injection Hs as <- <-. cbn in *. split_and!; done.
  - pose proof (chan_try_send_spec (ev, sz) (qu_chan q)) as Hc.
    destruct (chan_try_send _ _) as [c|]; injection Hs as <- <-; cbn in *.
    + destruct Hc as (Hlt & Hit & ->). unfold chan_bytes in *. cbn in *.
      rewrite Hit, zsum_app, zsum_cons. change (zsum snd (@nil (E * Z))) with 0. cbn.
      rewrite zlen_app. change (zlen [(ev, sz)]) with 1.
      split_and!; try done; try lia. apply Forall_app. split; [done|]. by repeat constructor.
    + split_and!; done.
  - injection Hs as <- <-. unfold chan_bytes in *. cbn in *. rewrite wrap_small by lia. split_and!; try done; lia.
  - by injection Hs as <- <-.
  - by injection Hs as <- <-.
  - by injection Hs as <- <-.
  - by injection Hs as <- <-.
Qed.

(** What stays of a call after its operation. *)
Lemma map_sum_after (f : sender E → Z) (M : gmap nat (sender E)) i p' :
  (∀ b, f (Returned b) = 0) →
  map_sum f (match p' with Returned _ => delete i M | _ => <[i := p']> M end) = f p' + map_sum f (delete i M).
Proof. intros Hf. destruct p'; rewrite ?map_sum_put, ?Hf; lia. Qed.

Lemma map_Forall_after (P : sender E → Prop) (M : gmap nat (sender E)) i p' :
  map_Forall (fun _ p => P p) M → P p' →
  map_Forall (fun _ p => P p) (match p' with Returned _ => delete i M | _ => <[i := p']> M end).
Proof. intros HM HP. destruct p'; (by apply map_Forall_insert_2) || (by apply map_Forall_delete). Qed.

Lemma budget_send_op i weak s s' : budget_inv s → send_op limit i weak s = Some s' → budget_inv s'.
Proof using approx_nonneg limit_range.
  intros [Hu Hl Hi Hr Hc Hs Hv] Hop. unfold send_op in Hop.
  destruct (ma_senders s !! i) as [p|] eqn:Ep; [|done]. cbn in Hop.
  destruct (sender_step limit weak p (ma_queue s)) as [p' q'] eqn:Est. injection Hop as <-.
  assert (sender_ok p) as Hp by by eapply Hs.
  assert (0 <= map_sum sender_holds (delete i (ma_senders s))) by by apply senders_hold_nonneg, map_Forall_delete.
  pose proof (receiver_holds_nonneg _ Hv).
  rewrite (map_sum_delete _ _ _ _ Ep) in Hu.
  eapply (sender_step_budget weak p _ p' q'
            (map_sum sender_holds (delete i (ma_senders s)) + receiver_holds (ma_receiver s))) in Est
    as (Hp' & Hi' & Hu' & Hl' & Hr' & Hc'); [|done|done|lia|lia|done|done].
  split; cbn; try done.
  - rewrite map_sum_after by done. unfold chan_bytes in *. lia.
  - by rewrite Hc'.
  - by apply map_Forall_after.
Qed.

Lemma budget_same_queue s s' :
  budget_inv s → ma_queue s' = ma_queue s → ma_senders s' = ma_senders s →
  receiver_holds (ma_receiver s') = receiver_holds (ma_receiver s) → receiver_ok (ma_receiver s') → budget_inv s'.
Proof. intros [Hu Hl Hi Hr Hc Hs Hv] Hq Hse Hh Ho. split; unfold queued in *; rewrite ?Hq, ?Hse, ?Hh; done. Qed.

Lemma budget_flush last s :
  budget_inv s → ma_receiver s = Waiting → budget_inv (flush last s).
Proof.
  intros Hb Hw. unfold flush. destruct (batch_is_empty _); apply (budget_same_queue s); try done; by rewrite Hw.
Qed.

Lemma budget_step l s s' : budget_inv s → step l s = Some s' → budget_inv s'.
Proof using approx_nonneg limit_range.
  intros Hb Hl. destruct l as [i ev|i weak| | | | |att nanos now]; cbn in Hl.
  - unfold offer in Hl. destruct (ma_open s); [|done]. destruct (ma_senders s !! i) eqn:Ei; [done|].
    injection Hl as <-. destruct Hb as [Hu Hl Hi Hr Hc Hs Hv]. split; cbn; try done.
    + rewrite (map_sum_insert sender_holds) by done. exact Hu.
    + intros j p [[<- <-]|[_ Hj]]%lookup_insert_Some; [done|by eapply Hs].
  - by eapply budget_send_op.
  - unfold close_senders in Hl. destruct (_ && _); [|done]. injection Hl as <-. by destruct Hb.
  - unfold receive in Hl. destruct (ma_receiver s) eqn:Er; try done.
    pose proof (chan_recv_spec (qu_chan (ma_queue s))) as Hrc. destruct (chan_recv _) as [[[ev sz] c]|].
    + injection Hl as <-. destruct Hb as [Hu Hl Hi Hr Hc Hs Hv]. destruct Hrc as [Hit Hcap].
      unfold queued, chan_bytes in *. rewrite Er, Hit in *. rewrite zsum_cons in Hu.
      apply Forall_cons_1 in Hi as [Hev Hi]. split; unfold queued, chan_bytes; cbn in *; try done; [lia| |lia].
      rewrite Hcap. unfold zlen in *. cbn in Hr. lia.
    + destruct (ma_open s); [done|]. injection Hl as <-. by apply budget_flush.
  - unfold receive_op in Hl. destruct Hb as [Hu Hl' Hi Hr Hc Hs Hv].
    destruct (ma_receiver s) as [|ev sz|ev sz v|[|b rd] last|] eqn:Er; try done.
    + injection Hl as <-. pose proof (chan_bytes_nonneg _ Hi). pose proof (senders_hold_nonneg _ Hs).
      pose proof (receiver_holds_nonneg _ Hv). cbn in *. split; cbn; try done; unfold chan_bytes in *;
        cbn; rewrite ?wrap_small by lia; lia.
    + destruct (batch_push _ _ _ _) as [[ready b] m]. injection Hl as <-. by split.
    + injection Hl as <-. split; cbn; try done; by destruct last.
  - unfold tick in Hl. destruct (ma_receiver s) eqn:Er; try done. injection Hl as <-. by apply budget_flush.
  - unfold deliver in Hl. destruct (ma_receiver s) as [|ev sz|ev sz v|[|b rd] last|] eqn:Er; try done.
    destruct (send_batch_with_client _ _ _ _ _ _ _ _) as [[r o] m]. injection Hl as <-.
    destruct Hb as [Hu Hl' Hi Hr Hc Hs Hv]. rewrite Er in *. by split.
Qed.

(** * Batches and their order *)

Notation good := (good approx_bytes max_events_of_batch max_bytes).
Notation sendable := (sendable approx_bytes max_events_of_batch max_bytes).
Notation fits := (fits approx_bytes max_bytes).

(** Everything the channel has taken, oldest first: what was sent, what is about to be, the batch,
    and what is behind it. *)
Definition line s : list E :=
  mjoin (ma_log s).*1 ++ mjoin (receiver_ready (ma_receiver s)) ++ ba_events (ma_batch s)
  ++ filter fits (receiver_event (ma_receiver s) ++ (queued s).*1).

Record batch_inv (s : machine E) : Prop := {
  ti_good : good (ma_batch s);
  ti_ready : Forall sendable (receiver_ready (ma_receiver s));
  ti_sent : Forall sendable (ma_log s).*1;
  ti_order : line s = filter fits (ma_accepted s)
}.

Context (batch_range : 1 <= max_events_of_batch ∧ max_bytes < 2 ^ 63).

Lemma batch_flush last s : batch_inv s → ma_receiver s = Waiting → batch_inv (flush last s).
Proof.
  intros [Hg Hr Hs Ho] Hw. unfold flush, line in *. rewrite Hw in Ho.
  destruct (batch_is_empty (ma_batch s)) eqn:Eb.
  - split; unfold line; cbn; try done.
  - split; unfold line; cbn; try done.
    + by apply good_take.
    + constructor; [|constructor]. apply good_sendable; [done|].
      intros Hn. unfold batch_is_empty in Eb. by rewrite Hn in Eb.
    + by rewrite app_nil_r, <- Ho.
Qed.

(** An operation of a call only ever appends to the channel. *)
Lemma sender_step_items weak p q p' q' :
  sender_step limit weak p q = (p', q') →
  (items (qu_chan q')).*1 = (items (qu_chan q)).*1 ++ accepting p p'.
Proof.
  destruct p as [ev sz|ev sz cur|ev sz next|ev sz|sz|v| | |b]; cbn;
    repeat case_match; intros; simplify_eq; rewrite ?app_nil_r; try done.
  match goal with Hc : chan_try_send ?x ?c = Some _ |- _ =>
    pose proof (chan_try_send_spec x c) as Hs; rewrite Hc in Hs; destruct Hs as (_ & Hs & _) end.
  cbn. by rewrite Hs, fmap_app.
Qed.

Lemma batch_step l s s' : budget_inv s → batch_inv s → step l s = Some s' → batch_inv s'.
Proof using approx_nonneg batch_range.
  intros Hb Hi Hl. destruct l as [i ev|i weak| | | | |att nanos now]; cbn in Hl.
  - unfold offer in Hl. destruct (ma_open s), (ma_senders s !! i); try done. injection Hl as <-. by destruct Hi.
  - unfold send_op in Hl. destruct (ma_senders s !! i) as [p|]; [|done]. cbn in Hl.
    destruct (sender_step limit weak p (ma_queue s)) as [p' q'] eqn:Est. injection Hl as <-.
    destruct Hi as [Hg Hr Hs Ho]. split; try done. unfold line, queued in *. cbn.
    rewrite (sender_step_items _ _ _ _ _ Est), !list.filter_app, <- Ho, list.filter_app, <- !app_assoc. done.
  - unfold close_senders in Hl. destruct (_ && _); [|done]. injection Hl as <-. by destruct Hi.
  - unfold receive in Hl. destruct (ma_receiver s) eqn:Er; try done.
    pose proof (chan_recv_spec (qu_chan (ma_queue s))) as Hrc. destruct (chan_recv _) as [[[ev sz] c]|].
    + injection Hl as <-. destruct Hi as [Hg Hr Hs Ho]. destruct Hrc as [Hit _]. rewrite Er in *.
      split; try done. etrans; [|exact Ho]. unfold line, queued. cbn. by rewrite Er, Hit.
    + destruct (ma_open s); [done|]. injection Hl as <-. by apply batch_flush.
  - unfold receive_op in Hl. pose proof (bi_receiver _ Hb) as Hv. destruct Hi as [Hg Hr Hs Ho]. unfold line, queued in Ho.
    destruct (ma_receiver s) as [|ev sz|ev sz v|[|b rd] last|] eqn:Er; try done.
    + injection Hl as <-. by split.
    + cbn in Hv. subst sz.
      pose proof (batch_push_spec approx_bytes max_events_of_batch max_bytes (proj1 batch_range) (proj2 batch_range)
        approx_nonneg ev (ma_batch s) ((qu_metrics (ma_queue s)) <| mt_queue_bytes := v |>) Hg) as Hp.
      destruct (batch_push _ _ _ _) as [[ready b] m]. injection Hl as <-. destruct Hp as (Hg' & Hr' & Hp).
      split; try done. etrans; [|exact Ho]. unfold line, queued. cbn.
      destruct Hp as [(Hf & Hj & _)|(Hf & -> & -> & _)].
      * rewrite (app_assoc (mjoin ready)), Hj, decide_True by done. by rewrite <- !app_assoc.
      * rewrite decide_False by (unfold Delivery.fits; lia). done.
    + injection Hl as <-. split; try done; [by destruct last|]. etrans; [|exact Ho]. unfold line, queued. by destruct last.
  - unfold tick in Hl. destruct (ma_receiver s) eqn:Er; try done. injection Hl as <-. by apply batch_flush.
  - unfold deliver in Hl. destruct Hi as [Hg Hr Hs Ho]. unfold line, queued in Ho.
    destruct (ma_receiver s) as [|ev sz|ev sz v|[|b rd] last|] eqn:Er; try done.
    destruct (send_batch_with_client _ _ _ _ _ _ _ _) as [[r o] m]. injection Hl as <-.
    cbn in Hr. apply Forall_cons_1 in Hr as [Hb1 Hr]. split; try done.
    + cbn. rewrite fmap_app. apply Forall_app. split; [done|]. by constructor.
    + etrans; [|exact Ho]. unfold line, queued. cbn. rewrite fmap_app, join_app. cbn. by rewrite app_nil_r, <- !app_assoc.
Qed.

(** * The ledger *)

Definition counted (m : metrics) : Z := mt_events_dropped m + mt_events_sent m.

Definition ledger_inv (s : machine E) : Prop :=
  u64 (counted (qu_metrics (ma_queue s)) + in_flight s) = u64 (zlen (ma_offered s)).

(** [a] and [b] are the same number of events to a 64-bit counter. *)
Notation "a ≈ b" := (u64 a = u64 b) (at level 70).

Lemma wrap_shift a b c : a ≈ b → a + c ≈ b + c.
Proof. intros Hab. by rewrite <- (wrap_add_wrap 64 a), Hab, wrap_add_wrap. Qed.

Lemma sender_step_counts weak p q p' q' :
  sender_step limit weak p q = (p', q') →
  counted (qu_metrics q') + sender_carries p' + zlen (accepting p p') ≈ counted (qu_metrics q) + sender_carries p.
Proof.
  destruct p as [ev sz|ev sz cur|ev sz next|ev sz|sz|v| | |b]; cbn;
    repeat case_match; intros; simplify_eq; unfold counted; cbn;
    change (zlen (@nil E)) with 0; try (f_equal; unfold zlen; cbn; lia).
  rewrite !Z.add_0_r, wrap_add_wrap. f_equal. lia.
Qed.

Lemma batch_push_counts ev b m :
  good b →
  let '(ready, b', m') := batch_push ev (approx_bytes ev) b m in
  counted m' + (zlen (ba_events b') + zlen (mjoin ready)) ≈ counted m + (zlen (ba_events b) + 1).
Proof using approx_nonneg batch_range.
  intros Hg.
  pose proof (batch_push_spec approx_bytes max_events_of_batch max_bytes (proj1 batch_range) (proj2 batch_range)
    approx_nonneg ev b m Hg) as Hp.
  destruct (batch_push _ _ _ _) as [[ready b'] m']. destruct Hp as (_ & _ & [(_ & Hj & ->)|(_ & -> & -> & ->)]).
  - f_equal. apply (f_equal zlen) in Hj. rewrite !zlen_app in Hj. change (zlen [ev]) with 1 in Hj. lia.
  - unfold counted, add_dropped. cbn. change (zlen (@nil E)) with 0.
    rewrite <- Z.add_assoc, wrap_add_wrap. f_equal. lia.
Qed.

Lemma send_batch_counts payload attempts nanos now m :
  let '(r, _, m') := send_batch_with_client serialize gzip redact_text payload attempts nanos now m in
  counted m' ≈ counted m + zlen payload.
Proof.
  unfold send_batch_with_client.
  pose proof (try_send_batch_spec serialize gzip redact_text payload attempts nanos m) as Hs.
  destruct (try_send_batch _ _ _ _ _ _ _) as [[r o] m']. destruct Hs as (_ & _ & -> & _).
  destruct r as [e|]; unfold counted, record_send_failure, record_send_success, add_dropped; cbn.
  - rewrite wrap_add_wrap. f_equal. by destruct e; cbn; lia.
  - unfold add_sent. cbn. rewrite Z.add_comm, wrap_add_wrap. f_equal. lia.
Qed.

Lemma ledger_flush last s : ma_receiver s = Waiting → ledger_inv s → ledger_inv (flush last s).
Proof.
  intros Hw. unfold ledger_inv, in_flight, flush, queued. rewrite Hw. intros Hl.
  destruct (batch_is_empty (ma_batch s)) eqn:Eb; cbn; rewrite <- Hl, ?app_nil_r; f_equal.
  cbn. change (zlen (@nil E)) with 0. lia.
Qed.

Lemma ledger_step l s s' :
  budget_inv s → batch_inv s → ledger_inv s → step l s = Some s' → ledger_inv s'.
Proof using approx_nonneg batch_range.
  intros Hb Ht Hi Hl. unfold ledger_inv, in_flight, queued in *.
  destruct l as [i ev|i weak| | | | |att nanos now]; cbn in Hl.
  - unfold offer in Hl. destruct (ma_open s); [|done]. destruct (ma_senders s !! i) eqn:Ei; [done|].
    injection Hl as <-. cbn. rewrite (map_sum_insert sender_carries), zlen_app by done. change (zlen [ev]) with 1.
    apply (wrap_shift _ _ 1) in Hi. rewrite <- Hi. f_equal. cbn. lia.
  - unfold send_op in Hl. destruct (ma_senders s !! i) as [p|] eqn:Ep; [|done]. cbn in Hl.
    destruct (sender_step limit weak p (ma_queue s)) as [p' q'] eqn:Est. injection Hl as <-. cbn.
    rewrite (map_sum_delete sender_carries _ _ _ Ep) in Hi. rewrite map_sum_after by done.
    rewrite <- Hi. pose proof (sender_step_items _ _ _ _ _ Est) as Hit. apply (f_equal zlen) in Hit.
    rewrite zlen_app in Hit. unfold zlen in Hit at 1 2. rewrite !length_fmap in Hit.
    apply sender_step_counts in Est.
    apply (wrap_shift _ _ (map_sum sender_carries (delete i (ma_senders s)) + zlen (items (qu_chan (ma_queue s)))
      + zlen (receiver_event (ma_receiver s)) + zlen (ba_events (ma_batch s))
      + zlen (mjoin (receiver_ready (ma_receiver s))))) in Est.
    etrans; [etrans; [|exact Est]|]; f_equal; unfold zlen in *; lia.
  - unfold close_senders in Hl. destruct (_ && _); [|done]. by injection Hl as <-.
  - unfold receive in Hl. destruct (ma_receiver s) eqn:Er; try done.
    pose proof (chan_recv_spec (qu_chan (ma_queue s))) as Hrc. destruct (chan_recv _) as [[[ev sz] c]|].
    + injection Hl as <-. cbn. destruct Hrc as [Hit _]. rewrite <- Hi. f_equal. rewrite Hit. unfold zlen. cbn. lia.
    + destruct (ma_open s); [done|]. injection Hl as <-. apply ledger_flush; [done|].
      unfold ledger_inv, in_flight, queued. by rewrite Er.
  - unfold receive_op in Hl. pose proof (bi_receiver _ Hb) as Hv.
    destruct (ma_receiver s) as [|ev sz|ev sz v|[|b rd] last|] eqn:Er; try done.
    + injection Hl as <-. exact Hi.
    + cbn in Hv. subst sz.
      pose proof (batch_push_counts ev (ma_batch s) ((qu_metrics (ma_queue s)) <| mt_queue_bytes := v |>) (ti_good _ Ht)) as Hp.
      destruct (batch_push _ _ _ _) as [[ready b] m]. injection Hl as <-. cbn.
      apply (wrap_shift _ _ (map_sum sender_carries (ma_senders s) + zlen (items (qu_chan (ma_queue s))))) in Hp.
      rewrite <- Hi. etrans; [etrans; [|exact Hp]|]; f_equal; unfold counted, zlen; cbn; lia.
    + injection Hl as <-. cbn. rewrite <- Hi. by destruct last.
  - unfold tick in Hl. destruct (ma_receiver s) eqn:Er; try done. injection Hl as <-. apply ledger_flush; [done|].
    unfold ledger_inv, in_flight, queued. by rewrite Er.
  - unfold deliver in Hl. destruct (ma_receiver s) as [|ev sz|ev sz v|[|b rd] last|] eqn:Er; try done.
    pose proof (send_batch_counts b att nanos now (qu_metrics (ma_queue s))) as Hp.
    destruct (send_batch_with_client _ _ _ _ _ _ _ _) as [[r o] m]. injection Hl as <-. cbn.
    apply (wrap_shift _ _ (map_sum sender_carries (ma_senders s) + zlen (items (qu_chan (ma_queue s)))
      + zlen (ba_events (ma_batch s)) + zlen (mjoin rd))) in Hp.
    rewrite <- Hi. cbn [receiver_ready receiver_event]. change (mjoin (b :: rd)) with (b ++ mjoin rd).
    rewrite zlen_app. change (zlen (@nil E)) with 0.
    etrans; [etrans; [|exact Hp]|]; f_equal; lia.
Qed.
(** * Nothing is invented *)

(** The event a call may still hand over. *)
Definition sender_event p : list E :=
  match p with Loading ev _ | Swapping ev _ _ | Reserved ev _ _ | Sending ev _ => [ev] | _ => [] end.

Definition carried (M : gmap nat (sender E)) : list E := mjoin ((fun ip => sender_event ip.2) <$> map_to_list M).

Lemma carried_insert M i p : M !! i = None → carried (<[i := p]> M) ≡ₚ sender_event p ++ carried M.
Proof. intros Hi. unfold carried. by rewrite map_to_list_insert. Qed.

Lemma carried_delete M i p : M !! i = Some p → carried M ≡ₚ sender_event p ++ carried (delete i M).
Proof. intros Hi. rewrite <- (insert_delete_id M i p) at 1 by done. apply carried_insert, lookup_delete_eq. Qed.

Lemma carried_after M i p' :
  carried (match p' with Returned _ => delete i M | _ => <[i := p']> M end) ≡ₚ sender_event p' ++ carried (delete i M).
Proof. destruct p'; try done; by rewrite <- insert_delete_eq, carried_insert by apply lookup_delete_eq. Qed.

Lemma sender_step_event weak p q p' q' :
  sender_step limit weak p q = (p', q') → accepting p p' ++ sender_event p' ⊆+ sender_event p.
Proof.
  destruct p as [ev sz|ev sz cur|ev sz next|ev sz|sz|v| | |b]; cbn; repeat case_match; intros; simplify_eq;
    apply submseteq_nil_l || done.
Qed.

(** Every event the queue accepts was offered, no more often than it was. *)
Definition accepted_inv (s : machine E) : Prop := ma_accepted s ++ carried (ma_senders s) ⊆+ ma_offered s.

Lemma accepted_step l s s' : accepted_inv s → step l s = Some s' → accepted_inv s'.
Proof.
  unfold accepted_inv. intros Hi Hl. destruct l as [i ev|i weak| | | | |att nanos now]; cbn in Hl.
  - unfold offer in Hl. destruct (ma_open s); [|done]. destruct (ma_senders s !! i) eqn:Ei; [done|].
    injection Hl as <-. cbn. rewrite carried_insert by done. cbn.
    rewrite <- Permutation_middle, <- Permutation_cons_append. by apply submseteq_skip.
  - unfold send_op in Hl. destruct (ma_senders s !! i) as [p|] eqn:Ep; [|done]. cbn in Hl.
    destruct (sender_step limit weak p (ma_queue s)) as [p' q'] eqn:Est. injection Hl as <-. cbn.
    rewrite carried_after. rewrite (carried_delete _ _ _ Ep) in Hi. apply sender_step_event in Est.
    etrans; [|exact Hi]. rewrite <- app_assoc. apply submseteq_app; [done|]. rewrite app_assoc.
    by apply submseteq_app.
  - unfold close_senders in Hl. destruct (_ && _); [|done]. by injection Hl as <-.
  - unfold receive, flush in Hl. repeat case_match; by simplify_eq.
  - unfold receive_op in Hl. repeat case_match; by simplify_eq.
  - unfold tick, flush in Hl. repeat case_match; by simplify_eq.
  - unfold deliver in Hl. repeat case_match; by simplify_eq.
Qed.

(** * All of them, from the start *)

Definition export_inv (s : machine E) : Prop := budget_inv s ∧ batch_inv s ∧ ledger_inv s ∧ accepted_inv s.

Lemma export_step l s s' : export_inv s → step l s = Some s' → export_inv s'.
Proof using approx_nonneg limit_range batch_range.
  intros (Hb & Ht & Hl & Ha) Hs.
  split_and!; [by eapply budget_step|by eapply batch_step|by eapply ledger_step|by eapply accepted_step].
Qed.
End Inv.

Section Start.
Context {E : Type} (approx_bytes : E → Z) `{Channel (E * Z)}.
Context (serialize : list E → option bytes) (gzip : bytes → option bytes) (redact_text : list Z → list Z).
Context (limit max_events batch_events batch_bytes : Z).
Context (approx_nonneg : ∀ ev, 0 <= approx_bytes ev).
Context (limit_range : 0 <= limit < 2 ^ 64) (batch_range : batch_bytes < 2 ^ 63).

Notation inv := (export_inv approx_bytes limit (Z.max max_events 1) (Z.max batch_events 1) batch_bytes).

Lemma export_inv_start : inv (machine_new max_events batch_events batch_bytes).
Proof using limit_range.
  split_and!.
  - split; unfold queued, chan_bytes; cbn; rewrite ?items_new, ?max_capacity_new;
      try done; try constructor; unfold zlen; cbn; lia.
  - split; unfold line, queued; cbn; rewrite ?items_new; try done; try constructor; try done.
    split_and!; try done. by left.
  - unfold ledger_inv, in_flight, queued. cbn. by rewrite items_new.
  - unfold accepted_inv. cbn. done.
Qed.

Lemma export_inv_runs ls s :
  steps_of approx_bytes serialize gzip redact_text limit ls (machine_new max_events batch_events batch_bytes) = Some s →
  inv s.
Proof using approx_nonneg limit_range batch_range.
  apply steps_keep; [|apply export_inv_start]. intros l s0 s1. apply export_step; try done. lia.
Qed.
End Start.
