(* ===== verification/ExportProps.v ===== *)
(** The properties of the export: the budget of its queue, the account of its events, the order and the
    bounds of its batches, the end of its task, and how often a batch is stored. *)

From S2P Require Import Prelude.
From S2P Require Import Pending Memory Text Export Ingest Delivery ExportInv.
From Stdlib Require Import Strings.String.

#[local] Notation length := List.length.
#[local] Open Scope list_scope.
#[local] Open Scope Z_scope.

Section Props.
Context {E : Type} (approx_bytes : E → Z) `{Channel (E * Z)}.
Context (serialize : list E → option bytes) (gzip : bytes → option bytes) (redact_text : list Z → list Z).
Context (limit max_events batch_events batch_bytes : Z).
Implicit Types (s : machine E) (p : sender E) (q : queue E).

Notation runs ls s := (steps_of approx_bytes serialize gzip redact_text limit ls
  (machine_new max_events batch_events batch_bytes) = Some s).
Notation step := (step approx_bytes serialize gzip redact_text limit).
Notation steps_of := (steps_of approx_bytes serialize gzip redact_text limit).

(** C14: However many threads send, and however their operations interleave with those of the batch
    task: the events in the export queue are never more than its slots, their bytes never more than
    its budget, and when no call is under way the counter of the budget is exactly what they weigh. *)
Theorem queue_within_budget ls s
    (Happrox : ∀ ev, 0 <= approx_bytes ev) (Hlimit : 0 <= limit < 2 ^ 64) (Hbatch : batch_bytes < 2 ^ 63) :
  runs ls s →
  zlen (queued s) <= Z.max max_events 1 ∧
  zsum (fun x => approx_bytes x.1) (queued s) <= queued_bytes (ma_queue s) <= limit ∧
  (ma_senders s = ∅ → ma_receiver s = Waiting →
   queued_bytes (ma_queue s) = zsum (fun x => approx_bytes x.1) (queued s)).
Proof.
  intros Hr. destruct (export_inv_runs _ _ _ _ _ _ _ _ Happrox Hlimit Hbatch _ _ Hr) as ([Hu Hl Hi Hro Hc Hs Hv] & _).
  assert (chan_bytes (ma_queue s) = zsum (fun x => approx_bytes x.1) (queued s)) as Hcb.
  { unfold chan_bytes, queued in *. clear -Hi. induction Hi as [|x l Hx _ IH]; [done|]. rewrite !zsum_cons, IH. by rewrite Hx. }
  pose proof (senders_hold_nonneg _ Happrox _ Hs). pose proof (receiver_holds_nonneg _ Happrox _ Hv).
  unfold queued_bytes. split_and!; [lia..|]. intros Hse Hw. rewrite Hse, Hw, map_sum_empty in Hu. cbn in Hu. lia.
Qed.

(** C7: Every event handed to the export is accounted for at every moment of every interleaving: it is
    counted as sent, counted as dropped, or still on its way (in a call, in the queue, with the task);
    no event is counted twice and none is lost uncounted. *)
Theorem events_accounted ls s
    (Happrox : ∀ ev, 0 <= approx_bytes ev) (Hlimit : 0 <= limit < 2 ^ 64) (Hbatch : batch_bytes < 2 ^ 63) :
  runs ls s →
  u64 (mt_events_dropped (qu_metrics (ma_queue s)) + mt_events_sent (qu_metrics (ma_queue s)) + in_flight s)
  = u64 (zlen (ma_offered s)).
Proof. intros Hr. by destruct (export_inv_runs _ _ _ _ _ _ _ _ Happrox Hlimit Hbatch _ _ Hr) as (_ & _ & Hl & _). Qed.

(** C10: What the queue accepts is delivered once and in order: the batches sent so far, those being
    sent, the batch that is filling and what is behind it are together exactly the accepted events, in
    their order, without those too large for any batch; only offered events are accepted; and no batch
    is empty, holds more events than its limit or more bytes than its budget. *)
Theorem delivered_in_order ls s
    (Happrox : ∀ ev, 0 <= approx_bytes ev) (Hlimit : 0 <= limit < 2 ^ 64) (Hbatch : batch_bytes < 2 ^ 63) :
  runs ls s →
  mjoin (ma_log s).*1 ++ mjoin (receiver_ready (ma_receiver s)) ++ ba_events (ma_batch s)
    ++ filter (fits approx_bytes batch_bytes) (receiver_event (ma_receiver s) ++ (queued s).*1)
  = filter (fits approx_bytes batch_bytes) (ma_accepted s) ∧
  ma_accepted s ⊆+ ma_offered s ∧
  Forall (sendable approx_bytes (Z.max batch_events 1) batch_bytes) (ma_log s).*1.
Proof.
  intros Hr.
  destruct (export_inv_runs _ _ _ _ _ _ _ _ Happrox Hlimit Hbatch _ _ Hr) as (_ & [Hg Hre Hs Ho] & _ & Ha).
  split; [done|]. split; [|done]. etrans; [|exact Ha]. apply submseteq_inserts_r. done.
Qed.

(** * The end of the task *)

(** What the task still does: steps of its own that are left, without ticks. *)
Definition work s : Z :=
  6 * zlen (queued s) +
  match ma_receiver s with
  | Waiting => 3
  | Taken _ _ => 8
  | Storing _ _ _ => 7
  | Sends ready false => 4 + zlen ready
  | Sends ready true => 1 + zlen ready
  | Stopped => 0
  end.

Definition is_tick (l : label E) : Z := match l with FlushTick => 1 | _ => 0 end.

Lemma batch_push_ready (ev : E) size b m : zlen (batch_push ev size b m).1.1 <= 2.
Proof. unfold batch_push, batch_take, zlen. repeat case_match; simplify_eq; cbn; lia. Qed.

Lemma flush_work last s :
  ma_receiver s = Waiting → work (flush last s) <= 6 * zlen (queued s) + (if last then 2 else 5).
Proof. intros Hw. unfold flush, work, queued. case_match; destruct last; cbn; unfold zlen; cbn; lia. Qed.

(** Once the senders are gone, every step takes work away, but a tick may add some. *)
Lemma closed_step l s s' :
  ma_open s = false → ma_senders s = ∅ → step l s = Some s' →
  ma_open s' = false ∧ ma_senders s' = ∅ ∧ work s' + 1 <= work s + 3 * is_tick l.
Proof.
  intros Ho He Hl. destruct l as [i ev|i weak| | | | |att nanos now]; cbn in Hl.
  - unfold offer in Hl. by rewrite Ho in Hl.
  - unfold send_op in Hl. by rewrite He, lookup_empty in Hl.
  - unfold close_senders in Hl. by rewrite Ho in Hl.
  - unfold receive in Hl. destruct (ma_receiver s) eqn:Er; try done.
    pose proof (chan_recv_spec (qu_chan (ma_queue s))) as Hrc. destruct (chan_recv _) as [[[ev sz] c]|].
    + injection Hl as <-. split_and!; try done. unfold work, queued. rewrite Er. destruct Hrc as [-> _].
      unfold zlen. cbn. lia.
    + rewrite Ho in Hl. injection Hl as <-. pose proof (flush_work true s Er). unfold flush in *.
      split_and!; [by case_match..|]. unfold work at 2. rewrite Er. cbn [is_tick]. lia.
  - unfold receive_op in Hl. unfold work, queued. destruct (ma_receiver s) as [|ev sz|ev sz v|[|b rd] last|]; try done.
    + injection Hl as <-. cbn. split_and!; try done; lia.
    + pose proof (batch_push_ready ev sz (ma_batch s) ((qu_metrics (ma_queue s)) <| mt_queue_bytes := v |>)) as Hp.
      destruct (batch_push _ _ _ _) as [[ready b] m]. injection Hl as <-. cbn in *. split_and!; try done; lia.
    + injection Hl as <-. unfold zlen. destruct last; cbn; split_and!; try done; lia.
  - unfold tick in Hl. destruct (ma_receiver s) eqn:Er; try done. injection Hl as <-.
    pose proof (flush_work false s Er). unfold flush in *. split_and!; [by case_match..|].
    unfold work at 2. rewrite Er. cbn [is_tick]. lia.
  - unfold deliver in Hl. unfold work, queued. destruct (ma_receiver s) as [|ev sz|ev sz v|[|b rd] last|]; try done.
    destruct (send_batch_with_client _ _ _ _ _ _ _ _) as [[r o] m]. injection Hl as <-. cbn.
    split_and!; try done. unfold zlen. destruct last; cbn; lia.
Qed.

Lemma closed_steps ls s s' :
  ma_open s = false → ma_senders s = ∅ → steps_of ls s = Some s' →
  ma_open s' = false ∧ ma_senders s' = ∅ ∧ work s' + zlen ls <= work s + 3 * zsum is_tick ls.
Proof.
  induction ls as [|l ls IH] in s |- *; cbn; intros Ho He Hr.
  - injection Hr as <-. split_and!; try done; lia.
  - destruct (step l s) as [s1|] eqn:E1; [|done]. destruct (closed_step _ _ _ Ho He E1) as (Ho1 & He1 & Hw1).
    destruct (IH _ Ho1 He1 Hr) as (Ho2 & He2 & Hw2). split_and!; try done.
    rewrite zsum_cons. unfold zlen in *. cbn. lia.
Qed.

Lemma work_nonneg s : 0 <= work s.
Proof. unfold work. pose proof (zlen_nonneg (queued s)). repeat case_match; unfold zlen in *; lia. Qed.

(** The task can go on until it has stopped. *)
Lemma never_stuck s :
  ma_open s = false → ma_receiver s ≠ Stopped → ∃ l, is_tick l = 0 ∧ is_Some (step l s).
Proof.
  intros Ho Hn. destruct (ma_receiver s) as [|ev sz|ev sz v|[|b rd] last|] eqn:Er; try done.
  - exists Recv. split; [done|]. cbn. unfold receive. rewrite Er, Ho. destruct (chan_recv _) as [[[? ?] ?]|]; eauto.
  - exists Receiver. split; [done|]. cbn. unfold receive_op. rewrite Er. eauto.
  - exists Receiver. split; [done|]. cbn. unfold receive_op. rewrite Er. destruct (batch_push _ _ _ _) as [[? ?] ?]. eauto.
  - exists Receiver. split; [done|]. cbn. unfold receive_op. rewrite Er. eauto.
  - exists (Deliver (fun _ => Failure true false) (fun _ => 0) 0). split; [done|]. cbn. unfold deliver. rewrite Er.
    destruct (send_batch_with_client _ _ _ _ _ _ _ _) as [[? ?] ?]. eauto.
Qed.
(** What the task has left behind when it ends. *)
Definition ended s : Prop :=
  ma_open s = false ∧ ma_senders s = ∅ ∧ queued s = [] ∧ ba_events (ma_batch s) = [].

Definition last_inv s : Prop :=
  (ma_open s = false → ma_senders s = ∅) ∧
  match ma_receiver s with Sends _ true | Stopped => ended s | _ => True end.

Lemma flush_ended s :
  ma_open s = false → ma_senders s = ∅ → queued s = [] → ended (flush true s).
Proof.
  intros Ho He Hq. unfold flush, ended. destruct (batch_is_empty (ma_batch s)) eqn:Eb; split_and!; try done.
  cbn. unfold batch_is_empty in Eb. by destruct (ba_events _).
Qed.

Lemma last_step l s s' : last_inv s → step l s = Some s' → last_inv s'.
Proof.
  intros [Hc Hl'] Hl. destruct l as [i ev|i weak| | | | |att nanos now]; cbn in Hl.
  - unfold offer in Hl. destruct (ma_open s) eqn:Eo, (ma_senders s !! i); try done. injection Hl as <-.
    split; cbn; [by rewrite Eo|]. destruct (ma_receiver s) as [| | |? [|]|]; try done;
      destruct Hl' as (? & _); congruence.
  - unfold send_op in Hl. destruct (ma_senders s !! i) as [p|] eqn:Ep; [|done]. cbn in Hl.
    destruct (sender_step limit weak p (ma_queue s)) as [p' q']. injection Hl as <-.
    assert (ma_open s = true) as Eo.
    { destruct (ma_open s); [done|]. rewrite Hc in Ep by done. by rewrite lookup_empty in Ep. }
    split; cbn; [by rewrite Eo|]. destruct (ma_receiver s) as [| | |? [|]|]; try done;
      destruct Hl' as (? & _); congruence.
  - unfold close_senders in Hl. destruct (ma_open s && bool_decide (ma_senders s = ∅)) eqn:Eo; [|done].
    injection Hl as <-. apply andb_true_iff in Eo as [Eo He%bool_decide_eq_true]. split; cbn; [done|].
    destruct (ma_receiver s) as [| | |? [|]|]; try done; destruct Hl' as (? & _); congruence.
  - unfold receive in Hl. destruct (ma_receiver s) eqn:Er; try done.
    pose proof (chan_recv_spec (qu_chan (ma_queue s))) as Hrc. destruct (chan_recv _) as [[[ev sz] c]|].
    + injection Hl as <-. by split.
    + destruct (ma_open s) eqn:Eo; [done|]. injection Hl as <-. pose proof (flush_ended s Eo (Hc eq_refl) Hrc) as Hf.
      split; [intros _; apply Hf|]. unfold flush in *. by case_match.
  - unfold receive_op in Hl. destruct (ma_receiver s) as [|ev sz|ev sz v|[|b rd] last|]; try done.
    + injection Hl as <-. by split.
    + destruct (batch_push _ _ _ _) as [[ready b] m]. injection Hl as <-. by split.
    + injection Hl as <-. split; [done|]. by destruct last.
  - unfold tick in Hl. destruct (ma_receiver s) eqn:Er; try done. injection Hl as <-.
    unfold flush, last_inv. by case_match.
  - unfold deliver in Hl. destruct (ma_receiver s) as [|ev sz|ev sz v|[|b rd] last|]; try done.
    destruct (send_batch_with_client _ _ _ _ _ _ _ _) as [[r o] m]. injection Hl as <-. by split.
Qed.

Lemma last_inv_runs ls s : runs ls s → last_inv s.
Proof. apply steps_keep; [apply last_step|]. by split. Qed.

(** C15: Once no sender is left, the batch task ends for want of work: whatever the order of its steps, it makes at
    most [work] of them plus three for every tick of the flush timer among them (how many ticks come is up to the
    clock, so that they are not bounded here), and until it has stopped it can make a step that is no tick. When it
    has stopped, queue and batch are empty, every accepted event that fits into a batch was in a batch that was
    sent, and every event ever offered is counted as sent or dropped. *)
Theorem export_drains ls0 s ls s'
    (Happrox : ∀ ev, 0 <= approx_bytes ev) (Hlimit : 0 <= limit < 2 ^ 64) (Hbatch : batch_bytes < 2 ^ 63) :
  runs ls0 s → ma_open s = false → steps_of ls s = Some s' →
  zlen ls <= work s + 3 * zsum is_tick ls ∧
  (ma_receiver s' ≠ Stopped → ∃ l, is_tick l = 0 ∧ is_Some (step l s')) ∧
  (ma_receiver s' = Stopped →
   queued s' = [] ∧ ba_events (ma_batch s') = [] ∧
   mjoin (ma_log s').*1 = filter (fits approx_bytes batch_bytes) (ma_accepted s') ∧
   u64 (mt_events_dropped (qu_metrics (ma_queue s')) + mt_events_sent (qu_metrics (ma_queue s')))
   = u64 (zlen (ma_offered s'))).
Proof.
  intros Hr Ho Hs.
  destruct (closed_steps _ _ _ Ho (proj1 (last_inv_runs _ _ Hr) Ho) Hs) as (Ho' & He' & Hw).
  pose proof (work_nonneg s'). split; [lia|]. split; [by apply never_stuck|]. intros Hst.
  assert (last_inv s') as [_ Hl'] by (eapply steps_keep; [apply last_step|by eapply last_inv_runs|done]).
  rewrite Hst in Hl'. destruct Hl' as (_ & _ & Hq & Hb).
  assert (export_inv approx_bytes limit (Z.max max_events 1) (Z.max batch_events 1) batch_bytes s') as (_ & Ht & Hl & _).
  { eapply steps_keep; [|by eapply (export_inv_runs approx_bytes)|exact Hs]. intros l s0 s1. apply export_step; try done. lia. }
  split_and!; [done|done| |].
  - rewrite <- (ti_order _ _ _ _ Ht). unfold line. by rewrite Hst, Hb, Hq, app_nil_r.
  - unfold ledger_inv, in_flight, counted in Hl. rewrite <- Hl. f_equal. rewrite Hst, Hb, Hq, He', map_sum_empty.
    unfold zlen. cbn. lia.
Qed.
End Props.

(** * A call on its own *)

Section Alone.
Context {E : Type} (approx_bytes : E → Z) `{Channel (E * Z)} (limit : Z).

(** The next [n] operations of a call, undisturbed. *)
Fixpoint finish (n : nat) (p : sender E) (q : queue E) : sender E * queue E :=
  match n with O => (p, q) | S n => let '(p, q) := sender_step limit false p q in finish n p q end.

(** Undisturbed, a call ends within seven operations; it takes the event exactly when the budget has
    room for its bytes and the channel a slot, and then charges it; otherwise it leaves the queue and
    the budget as they were and counts the drop, and which limit it was. *)
Lemma try_send_alone ev q (Happrox : 0 <= approx_bytes ev) (Hused : 0 <= qu_used q < 2 ^ 64) :
  let n := approx_bytes ev in
  let m := qu_metrics q in
  finish 7 (try_send approx_bytes ev) q =
  if (qu_used q + n <? 2 ^ 64) && (qu_used q + n <=? limit) then
    match chan_try_send (ev, n) (qu_chan q) with
    | Some c => (Returned true, {| qu_used := qu_used q + n; qu_chan := c; qu_metrics := m <| mt_queue_bytes := qu_used q + n |> |})
    | None => (Returned false, {| qu_used := qu_used q; qu_chan := qu_chan q;
                                   qu_metrics := add_dropped 1 (m <| mt_queue_bytes := qu_used q |>) |})
    end
  else (Returned false, {| qu_used := qu_used q; qu_chan := qu_chan q;
                           qu_metrics := add_dropped 1 (m <| mt_queue_byte_drops := u64 (mt_queue_byte_drops m + 1) |>) |}).
Proof.
  cbn [finish try_send sender_step]. destruct (_ && _) eqn:Ef.
  - rewrite Z.eqb_refl. cbn. destruct (chan_try_send _ _) as [c|] eqn:Ec; [done|]. cbn.
    replace (qu_used q + approx_bytes ev - approx_bytes ev) with (qu_used q) by lia.
    rewrite wrap_small, Z.max_r by lia. done.
  - done.
Qed.
End Alone.

(** * One delivery *)

Section Delivered.
Context {E : Type} (serialize : list E → option bytes) (gzip : bytes → option bytes) (redact_text : list Z → list Z).

(** C26: A batch is stored at most once, whatever becomes of its attempts, by a server that stores
    nothing it refuses with 429 or 503 or was never connected for: up to three requests are made, all
    with the same bytes; a delivery that succeeds has stored it once and counts its events as sent, and
    any other counts them as lost and dropped. *)
Theorem batch_stored_at_most_once events attempts nanos now_secs m stored (Hhonest : honest attempts stored) :
  let '(r, out, m') := send_batch_with_client serialize gzip redact_text events attempts nanos now_secs m in
  let n := length (posts out) in
  (n <= 3)%nat ∧ (∃ payload gzipped, posts out = replicate n (payload, gzipped)) ∧
  copies stored n <= 1 ∧
  match r with
  | None => copies stored n = 1 ∧ mt_events_sent m' = u64 (mt_events_sent m + zlen events) ∧
            mt_events_dropped m' = mt_events_dropped m ∧ mt_consecutive_failures m' = 0
  | Some _ => mt_events_sent m' = mt_events_sent m ∧
              mt_events_dropped m' = u64 (mt_events_dropped m + zlen events) ∧
              mt_events_lost_send m' = u64 (mt_events_lost_send m + zlen events) ∧
              mt_consecutive_failures m' = u64 (mt_consecutive_failures m + 1)
  end.
Proof.
  unfold send_batch_with_client.
  pose proof (try_send_batch_spec serialize gzip redact_text events attempts nanos m) as Hs.
  destruct (try_send_batch _ _ _ _ _ _ _) as [[r out] m']. destruct Hs as (Hp & Hn & -> & Hc).
  specialize (Hc stored Hhonest) as [Hc1 Hc2].
  destruct r as [e|]; (split; [done|]; split; [done|]; split; [lia|]).
  - by destruct e.
  - by rewrite Hc2.
Qed.
End Delivered.

(** * Examples *)

(** Events are their sizes; the JSON of a batch has a byte for each. *)
Definition demo_serialize (l : list Z) : option bytes := Some (byte_of_Z <$> l).

Notation demo_steps := (steps_of Z.abs demo_serialize Some id 120).

(** A queue of two slots and 120 bytes, batches of two events and 110 bytes. *)
Definition demo_start : machine Z := machine_new 2 2 110.

Definition after (ls : list (label Z)) : machine Z := default demo_start (demo_steps ls demo_start).

(** Refused, never connected, then stored. *)
Definition demo_attempts (k : Z) : attempt :=
  if k =? 0 then Answer 503 (Some (list_byte_of_string "1")) []
  else if k =? 1 then Failure true false else Answer 200 None [].

Definition demo_stored (k : Z) : bool := negb ((k =? 0) || (k =? 1)).

(** [after] is where a run ends that takes place. *)
Lemma after_run ls : bool_decide (is_Some (demo_steps ls demo_start)) = true → demo_steps ls demo_start = Some (after ls).
Proof. rewrite bool_decide_eq_true. unfold after. by intros [s ->]. Qed.

(** Two threads race for the budget, and the second one loses: its event is dropped. *)
Definition demo_race : list (label Z) :=
  [Offer 0 100; Offer 1 60; Sender 0 false; Sender 1 false; Sender 0 false; Sender 1 false; Sender 1 false;
   Sender 0 false; Sender 1 false; Sender 0 false; Sender 1 false].

Definition demo_received : list (label Z) := demo_race ++ [Recv; Receiver; Receiver; Receiver; CloseSenders].

Definition demo_rest : list (label Z) := [Recv; Deliver demo_attempts (fun _ => 7) 5; Receiver].

Lemma after_app ls ls' :
  bool_decide (is_Some (demo_steps (ls ++ ls') demo_start)) = true →
  demo_steps ls' (after ls) = Some (after (ls ++ ls')).
Proof.
  intros He%after_run. rewrite steps_of_app in He. unfold after at 1.
  destruct (demo_steps ls demo_start) as [s|]; [exact He|done].
Qed.

Lemma queue_within_budget_witness :
  queued (after demo_race) = [(100, 100)] ∧
  zlen (queued (after demo_race)) <= Z.max 2 1 ∧
  zsum (fun x => Z.abs x.1) (queued (after demo_race)) <= queued_bytes (ma_queue (after demo_race)) <= 120 ∧
  (ma_senders (after demo_race) = ∅ → ma_receiver (after demo_race) = Waiting →
   queued_bytes (ma_queue (after demo_race)) = zsum (fun x => Z.abs x.1) (queued (after demo_race))).
Proof.
  split; [vm_compute; reflexivity|].
  apply (queue_within_budget Z.abs demo_serialize Some id 120 2 2 110 demo_race (after demo_race) Z.abs_nonneg);
    [lia|lia|apply after_run; vm_compute; reflexivity].
Defined.

Lemma events_accounted_witness :
  u64 (mt_events_dropped (qu_metrics (ma_queue (after demo_race))) +
       mt_events_sent (qu_metrics (ma_queue (after demo_race))) + in_flight (after demo_race))
  = u64 (zlen (ma_offered (after demo_race))) ∧ zlen (ma_offered (after demo_race)) = 2 ∧ in_flight (after demo_race) = 1.
Proof.
  split; [|split; vm_compute; reflexivity].
  apply (events_accounted Z.abs demo_serialize Some id 120 2 2 110 demo_race (after demo_race) Z.abs_nonneg);
    [lia|lia|apply after_run; vm_compute; reflexivity].
Defined.

Lemma delivered_in_order_witness :
  let s := after (demo_received ++ demo_rest) in
  (ma_log s).*1 = [[100]] ∧
  mjoin (ma_log s).*1 ++ mjoin (receiver_ready (ma_receiver s)) ++ ba_events (ma_batch s)
    ++ filter (fits Z.abs 110) (receiver_event (ma_receiver s) ++ (queued s).*1)
  = filter (fits Z.abs 110) (ma_accepted s) ∧
  ma_accepted s ⊆+ ma_offered s ∧ Forall (sendable Z.abs (Z.max 2 1) 110) (ma_log s).*1.
Proof.
  intros s. split; [vm_compute; reflexivity|].
  apply (delivered_in_order Z.abs demo_serialize Some id 120 2 2 110 (demo_received ++ demo_rest) s Z.abs_nonneg);
    [lia|lia|apply after_run; vm_compute; reflexivity].
Defined.

Lemma export_drains_witness :
  let s := after demo_received in
  let s' := after (demo_received ++ demo_rest) in
  ma_receiver s' = Stopped ∧
  zlen demo_rest <= work s + 3 * zsum is_tick demo_rest ∧
  (ma_receiver s' ≠ Stopped → ∃ l, is_tick l = 0 ∧ is_Some (step Z.abs demo_serialize Some id 120 l s')) ∧
  (ma_receiver s' = Stopped →
   queued s' = [] ∧ ba_events (ma_batch s') = [] ∧
   mjoin (ma_log s').*1 = filter (fits Z.abs 110) (ma_accepted s') ∧
   u64 (mt_events_dropped (qu_metrics (ma_queue s')) + mt_events_sent (qu_metrics (ma_queue s')))
   = u64 (zlen (ma_offered s'))).
Proof.
  intros s s'. split; [vm_compute; reflexivity|].
  apply (export_drains Z.abs demo_serialize Some id 120 2 2 110 demo_received s demo_rest s' Z.abs_nonneg);
    [lia|lia|apply after_run; vm_compute; reflexivity|vm_compute; reflexivity|].
  apply after_app. vm_compute. reflexivity.
Defined.

Lemma batch_stored_at_most_once_witness :
  let '(r, out, m') := send_batch_with_client demo_serialize Some id [1; 2] demo_attempts (fun _ => 7) 5 metrics_zero in
  let n := length (posts out) in
  (n <= 3)%nat ∧ (∃ payload gzipped, posts out = replicate n (payload, gzipped)) ∧
  copies demo_stored n <= 1 ∧
  match r with
  | None => copies demo_stored n = 1 ∧ mt_events_sent m' = u64 (mt_events_sent metrics_zero + zlen [1; 2]) ∧
            mt_events_dropped m' = mt_events_dropped metrics_zero ∧ mt_consecutive_failures m' = 0
  | Some _ => mt_events_sent m' = mt_events_sent metrics_zero ∧
              mt_events_dropped m' = u64 (mt_events_dropped metrics_zero + zlen [1; 2]) ∧
              mt_events_lost_send m' = u64 (mt_events_lost_send metrics_zero + zlen [1; 2]) ∧
              mt_consecutive_failures m' = u64 (mt_consecutive_failures metrics_zero + 1)
  end.
Proof.
  apply (batch_stored_at_most_once demo_serialize Some id [1; 2] demo_attempts (fun _ => 7) 5 metrics_zero demo_stored).
  intros k. unfold demo_attempts, demo_stored. destruct (k =? 0), (k =? 1); cbn; intuition congruence || lia.
Defined.

(** The gauge of the queue is stored after the counter it reports is changed, so that the stores of two
    threads can land in the other order: here one producer and the task leave a queue of 100 bytes, with
    no call under way, behind a gauge of 0. *)
Definition demo_late_store : list (label Z) :=
  [Offer 0 100; Sender 0 false; Sender 0 false; Sender 0 false; Sender 0 false; Recv; Receiver;
   Offer 0 100; Sender 0 false; Sender 0 false; Sender 0 false; Sender 0 false; Receiver; Receiver].

Lemma gauge_can_lag :
  let s := after demo_late_store in
  ma_senders s = ∅ ∧ ma_receiver s = Waiting ∧ queued s = [(100, 100)] ∧
  queued_bytes (ma_queue s) = 100 ∧ mt_queue_bytes (qu_metrics (ma_queue s)) = 0.
Proof. vm_compute. done. Qed.
