(* ===== verification/Output.v ===== *)
(** The encodings of [userspace/src/output.rs]: dates, base64, identifiers, queries, and their properties.

    The clock, the offset between the clocks and the nonce of the process are arguments, and so is the
    counter of events, which the code keeps in an atomic. Strings are bytes. A [serde_json] map keeps one
    value per key, which is a list here; what the library prints for a map of strings is a parameter. *)

From S2P Require Import Prelude Pending Text Http1 Event.
From Stdlib Require Import Strings.String.
From stdpp Require Import sorting.

#[local] Notation length := List.length.
#[local] Open Scope list_scope.
#[local] Open Scope Z_scope.

(** * Time *)

(** Milliseconds on the wall clock of an event: the boot clock of the kernel is converted, and what is
    an epoch time already is kept. [offset] is [wall_mono_offset_ms]. *)
Definition bpf_ts_to_wall_ms (offset bpf_ns : Z) : Z := Z.max 0 (i64 (i64 (bpf_ns / 1000000) + offset)).

Definition wall_ms_for_event (offset observed_at : Z) : Z :=
  if 1000000000000 <=? observed_at then observed_at else bpf_ts_to_wall_ms offset observed_at.

(** Year, month, day, hour, minute and second of a Unix time. *)
Definition unix_secs_to_dt (secs : Z) : Z * Z * Z * Z * Z * Z :=
  let time_of_day := secs mod 86400 in
  let h := time_of_day / 3600 in
  let mi := (time_of_day mod 3600) / 60 in
  let s := time_of_day mod 60 in
  let days := secs / 86400 in
  let z := days + 719468 in
  let era := z / 146097 in
  let doe := z mod 146097 in
  let yoe := (doe - doe / 1460 + doe / 36524 - doe / 146096) / 365 in
  let y := yoe + era * 400 in
  let doy := doe - (365 * yoe + yoe / 4 - yoe / 100) in
  let mp := (5 * doy + 2) / 153 in
  let d := doy - (153 * mp + 2) / 5 + 1 in
  let mo := if mp <? 10 then mp + 3 else mp - 9 in
  let y := if mo <=? 2 then y + 1 else y in
  (y, mo, d, h, mi, s).

(** * Numbers *)

Definition digit_char (d : Z) : byte := byte_of_Z (if d <? 10 then 48 + d else 87 + d).

(** The last [n] digits, most significant first. *)
Fixpoint digits_of (radix : Z) (n : nat) (z : Z) : bytes :=
  match n with O => [] | S n => digits_of radix n (z / radix) ++ [digit_char (z mod radix)] end.

(** How many digits a number has, at most [n]; zero has one. *)
Fixpoint count_digits (radix : Z) (n : nat) (z : Z) : nat :=
  match n with
  | O => O
  | S n => if z <? radix then 1%nat else S (count_digits radix n (z / radix))
  end.

(** [{:0width}] and [{:0widthx}] of a [u64]: padded to the width, and longer when it does not fit. *)
Definition format_padded (radix : Z) (width : nat) (z : Z) : bytes :=
  digits_of radix (Nat.max width (count_digits radix 64 z)) z.

Notation dec := (format_padded 10).
Notation hex := (format_padded 16).

Definition format_message_time (ms : Z) : bytes :=
  let '(y, mo, d, h, mi, s) := unix_secs_to_dt (ms / 1000) in
  dec 4 y ++ lit "-" ++ dec 2 mo ++ lit "-" ++ dec 2 d ++ lit " " ++ dec 2 h ++ lit ":" ++ dec 2 mi
  ++ lit ":" ++ dec 2 s ++ lit "." ++ dec 3 (ms mod 1000).

Definition format_iso8601 (ms : Z) : bytes :=
  let '(y, mo, d, h, mi, s) := unix_secs_to_dt (ms / 1000) in
  dec 4 y ++ lit "-" ++ dec 2 mo ++ lit "-" ++ dec 2 d ++ lit "T" ++ dec 2 h ++ lit ":" ++ dec 2 mi
  ++ lit ":" ++ dec 2 s ++ lit "." ++ dec 3 (ms mod 1000) ++ lit "000000Z".

(** * Identifiers *)

(** The splitmix64 finaliser over clock and process id. *)
Definition process_nonce (nanos pid : Z) : Z :=
  let h := Z.lxor (u64 nanos) (u64 (Z.shiftl pid 32)) in
  let h := u64 (Z.lxor h (Z.shiftr h 30) * 0xbf58476d1ce4e5b9) in
  let h := u64 (Z.lxor h (Z.shiftr h 27) * 0x94d049bb133111eb) in
  Z.lxor h (Z.shiftr h 31).

(** [n] is the value of the counter of events before it is advanced. *)
Definition make_event_id (nonce ts_ms n : Z) : bytes :=
  hex 16 nonce ++ lit "-" ++ hex 12 (Z.land ts_ms 0xffffffffffff) ++ lit "-" ++ hex 10 (Z.land n 0xffffffffff).

(** DJB2 over method, colon and path. *)
Definition stable_api_id (method path : bytes) : Z :=
  let h := fold_left (fun h b => u32 (u32 (h * 33) + byte_val b)) (method ++ lit ":" ++ path) 5381 in
  Z.max (Z.land h 0x7fffffff) 1.

(** * base64 *)

Definition B64_TABLE : bytes := lit "ABCDEFGHIJKLMNOPQRSTUVWXYZabcdefghijklmnopqrstuvwxyz0123456789+/".

(** The character of a group of six bits. *)
Definition b64_char (n : Z) : byte := byte_at B64_TABLE (Z.land n 0x3f).

(** The loop over chunks of three bytes. *)
Fixpoint base64_encode (data : bytes) : bytes :=
  match data with
  | [] => []
  | c0 :: data =>
      let b0 := byte_val c0 in
      match data with
      | [] =>
          let n := Z.lor (Z.lor (Z.shiftl b0 16) (Z.shiftl 0 8)) 0 in
          [b64_char (Z.shiftr n 18); b64_char (Z.shiftr n 12)] ++ lit "=="
      | c1 :: data =>
          let b1 := byte_val c1 in
          match data with
          | [] =>
              let n := Z.lor (Z.lor (Z.shiftl b0 16) (Z.shiftl b1 8)) 0 in
              [b64_char (Z.shiftr n 18); b64_char (Z.shiftr n 12); b64_char (Z.shiftr n 6)] ++ lit "="
          | c2 :: data =>
              let n := Z.lor (Z.lor (Z.shiftl b0 16) (Z.shiftl b1 8)) (byte_val c2) in
              [b64_char (Z.shiftr n 18); b64_char (Z.shiftr n 12); b64_char (Z.shiftr n 6); b64_char n]
              ++ base64_encode data
          end
      end
  end.

(** * Query and protocol *)

(** [split_once('?')] on the path. *)
Fixpoint split_query_mark (s : bytes) : option (bytes * bytes) :=
  match s with
  | [] => None
  | c :: s' =>
      if bool_decide (c = "?"%byte) then Some ([], s')
      else '(k, v) ← split_query_mark s'; Some (c :: k, v)
  end.

Definition split_uri_query (path : bytes) : bytes * bytes :=
  match split_query_mark path with Some pq => pq | None => (path, []) end.

(** The order of [String]: that of the bytes. *)
Fixpoint bytes_le (a b : bytes) : bool :=
  match a, b with
  | [], _ => true
  | _ :: _, [] => false
  | x :: a', y :: b' =>
      if byte_val x <? byte_val y then true
      else if byte_val y <? byte_val x then false else bytes_le a' b'
  end.

(** The order of pairs of strings. *)
Definition pair_le (p q : bytes * bytes) : bool :=
  if bool_decide (p.1 = q.1) then bytes_le p.2 q.2 else bytes_le p.1 q.1.

Definition pair_leP (p q : bytes * bytes) : Prop := pair_le p q = true.

#[export] Instance pair_leP_dec : RelDecision pair_leP.
Proof. intros p q. unfold pair_leP. apply _. Defined.

Fixpoint join (sep : bytes) (l : list bytes) : bytes :=
  match l with
  | [] => []
  | s :: l' => match l' with [] => s | _ => s ++ sep ++ join sep l' end
  end.

(** The parsed parameters in a stable order, unless the path still carries its query. *)
Definition query_string (query : headers) (from_path : bytes) : bytes :=
  if negb (bool_decide (from_path = [])) then from_path
  else join (lit "&")
         ((fun kv => if bool_decide (kv.2 = []) then kv.1 else kv.1 ++ lit "=" ++ kv.2) <$>
          merge_sort pair_leP query).

Definition is_one_of (s : bytes) (l : list bytes) : bool := existsb (fun t => bool_decide (s = t)) l.

Definition l7_proto_name (proto : bytes) : bytes :=
  if is_one_of proto [lit "HTTP/1.1"; lit "http/1.1"; lit "http1"] then lit "HTTP11"
  else if is_one_of proto [lit "HTTP/2"; lit "http/2"; lit "http2"] then lit "HTTP2"
  else if is_one_of proto [lit "HTTP/3"; lit "http/3"; lit "http3"] then lit "HTTP3"
  else if is_one_of proto [lit "gRPC"; lit "grpc"] then lit "GRPC"
  else if is_one_of proto [lit "WebSocket"; lit "websocket"] then lit "WebSocket"
  else if is_one_of proto [lit "QUIC"; lit "quic"] then lit "QUIC"
  else if is_one_of proto [lit "MCP"] then lit "MCP"
  else lit "HTTP11".

Definition proto_class (proto : bytes) : bytes :=
  if starts_with (lit "gRPC") proto || starts_with (lit "grpc") proto then lit "grpc"
  else if is_one_of proto [lit "WebSocket"; lit "websocket"] then lit "websocket"
  else if is_one_of proto [lit "QUIC"; lit "HTTP/3"] then lit "quic"
  else lit "rest".

(** * The calendar

    What a date is, independently of the code: the day after each day. *)

Definition date : Type := Z * Z * Z.

Definition is_leap (y : Z) : bool := (y mod 4 =? 0) && (negb (y mod 100 =? 0) || (y mod 400 =? 0)).

Definition days_in_month (y m : Z) : Z :=
  if m =? 2 then (if is_leap y then 29 else 28)
  else if (m =? 4) || (m =? 6) || (m =? 9) || (m =? 11) then 30 else 31.

Definition next_day (x : date) : date :=
  let '(y, m, d) := x in
  if d <? days_in_month y m then (y, m, d + 1)
  else if m <? 12 then (y, m + 1, 1) else (y + 1, 1, 1).

Definition valid_date (x : date) : Prop :=
  let '(y, m, d) := x in 1 <= m <= 12 ∧ 1 <= d <= days_in_month y m.

(** Days from the first of March of the year 0, with years that begin in March. *)
Definition march_year (y : Z) : Z := 365 * y + y / 4 - y / 100 + y / 400.

Definition march_month (m : Z) : Z := if m <=? 2 then m + 9 else m - 3.

Definition day_number (x : date) : Z :=
  let '(y, m, d) := x in
  march_year (if m <=? 2 then y - 1 else y) + (153 * march_month m + 2) / 5 + d - 1.

Lemma leap_march y : march_year (y + 1) - march_year y = if is_leap (y + 1) then 366 else 365.
Proof.
  unfold march_year, is_leap.
  destruct (Z.eqb_spec ((y + 1) mod 4) 0), (Z.eqb_spec ((y + 1) mod 100) 0), (Z.eqb_spec ((y + 1) mod 400) 0);
    cbn [andb orb negb]; Z.to_euclidean_division_equations; lia.
Qed.

(** The cases of a month. *)
Ltac month_cases m :=
  let H := fresh in
  assert (m = 1 ∨ m = 2 ∨ m = 3 ∨ m = 4 ∨ m = 5 ∨ m = 6 ∨ m = 7 ∨ m = 8 ∨ m = 9 ∨ m = 10 ∨ m = 11 ∨ m = 12) as H by lia;
  destruct H as [->|[->|[->|[->|[->|[->|[->|[->|[->|[->|[->| ->]]]]]]]]]]].

(** Compute with the literals. *)
Ltac z_literals :=
  repeat match goal with
         | |- context [Z.add (Zpos ?a) (Zpos ?b)] =>
             let c := eval vm_compute in (Z.add (Zpos a) (Zpos b)) in change (Z.add (Zpos a) (Zpos b)) with c
         end.

Lemma day_number_next x : valid_date x → day_number (next_day x) = day_number x + 1 ∧ valid_date (next_day x).
Proof.
  destruct x as [[y m] d]. intros [Hm Hd]. unfold next_day.
  destruct (Z.ltb_spec d (days_in_month y m)) as [|Hlast].
  - split; [|cbn; lia]. unfold day_number. lia.
  - assert (d = days_in_month y m) as -> by lia.
    pose proof (leap_march (y - 1)) as Hl. replace (y - 1 + 1) with y in Hl by lia. clear Hd Hlast.
    month_cases m; z_literals; cbn [Z.ltb Z.compare Pos.compare Pos.compare_cont];
      unfold day_number, valid_date, days_in_month, march_month; cbn -[Z.div Z.add Z.mul];
      replace (y + 1 - 1) with y by lia; revert Hl;
      destruct (is_leap y); intros Hl; (split; [z_literals; div_lia|lia]).
Qed.

Lemma iter_next_day n :
  day_number (Nat.iter n next_day (1970, 1, 1)) = Z.of_nat n + 719468 ∧
  valid_date (Nat.iter n next_day (1970, 1, 1)) ∧ 1970 <= (Nat.iter n next_day (1970, 1, 1)).1.1.
Proof.
  induction n as [|n (IH1 & IH2 & IH3)]; [done|].
  change (Nat.iter (S n) next_day (1970, 1, 1)) with (next_day (Nat.iter n next_day (1970, 1, 1))).
  destruct (day_number_next _ IH2) as [H1 H2]. split_and!; [lia|done|].
  destruct (Nat.iter n next_day (1970, 1, 1)) as [[y m] d]. unfold next_day in *. cbn in IH3.
  repeat case_match; cbn; lia.
Qed.

(** * The algorithm *)

(** The year of an era from the day of it: it is monotone, so two days of each year decide. *)
Definition year_of_era (doe : Z) : Z := (doe - doe / 1460 + doe / 36524 - doe / 146096) / 365.

Lemma year_of_era_mono a b : 0 <= a <= b → b < 146097 → year_of_era a <= year_of_era b.
Proof.
  intros Ha Hb. unfold year_of_era. apply Z.div_le_mono; [lia|].
  assert (b / 1460 - a / 1460 <= b - a) by (Z.to_euclidean_division_equations; lia).
  assert (a / 36524 - a / 146096 <= b / 36524 - b / 146096); [|lia].
  Z.to_euclidean_division_equations; lia.
Qed.

Definition era_year (y : Z) : Z := 365 * y + y / 4 - y / 100.

Definition era_year_ok (y : Z) : bool :=
  let last := (if y =? 399 then 146097 else era_year (y + 1)) - 1 in
  (year_of_era (era_year y) =? y) && (year_of_era last =? y).

Lemma era_years_ok : forallb era_year_ok (seqZ 0 400) = true.
Proof. vm_compute. reflexivity. Qed.

Lemma year_of_era_spec y doy :
  0 <= y < 400 → 0 <= doy → era_year y + doy < (if y =? 399 then 146097 else era_year (y + 1)) →
  year_of_era (era_year y + doy) = y.
Proof.
  intros Hy Hdoy Hlast. pose proof era_years_ok as Hok. rewrite forallb_forall in Hok.
  specialize (Hok y). rewrite <- list_elem_of_In, elem_of_seqZ in Hok. specialize (Hok ltac:(lia)).
  unfold era_year_ok in Hok. apply andb_true_iff in Hok as [H1%Z.eqb_eq H2%Z.eqb_eq].
  assert (0 <= era_year y) by (unfold era_year; Z.to_euclidean_division_equations; lia).
  assert ((if y =? 399 then 146097 else era_year (y + 1)) <= 146097) as Hend.
  { destruct (Z.eqb_spec y 399); [lia|]. unfold era_year. Z.to_euclidean_division_equations; lia. }
  pose proof (year_of_era_mono (era_year y) (era_year y + doy) ltac:(lia) ltac:(lia)).
  pose proof (year_of_era_mono (era_year y + doy) ((if y =? 399 then 146097 else era_year (y + 1)) - 1)
    ltac:(lia) ltac:(lia)). lia.
Qed.

(** The day of its March year a date is, which the months of the code count as well. *)
Definition day_of_year (m d : Z) : Z := (153 * march_month m + 2) / 5 + d - 1.

Lemma march_year_split y : march_year y = 146097 * (y / 400) + era_year (y mod 400).
Proof. unfold march_year, era_year. div_lia. Qed.

Lemma march_year_next y :
  march_year (y + 1) =
  146097 * (y / 400) + (if y mod 400 =? 399 then 146097 else era_year (y mod 400 + 1)).
Proof. unfold march_year, era_year. destruct (Z.eqb_spec (y mod 400) 399); div_lia. Qed.

Lemma day_of_year_range y m d :
  valid_date (y, m, d) →
  let ym := if m <=? 2 then y - 1 else y in 0 <= day_of_year m d < march_year (ym + 1) - march_year ym.
Proof.
  intros [Hm Hd] ym. rewrite leap_march. subst ym. unfold day_of_year, march_month, days_in_month in *.
  month_cases m; cbn [Z.eqb Z.leb Z.compare Pos.eqb Pos.compare Pos.compare_cont orb] in *;
    replace (y - 1 + 1) with y by lia; destruct (is_leap _); div_lia.
Qed.

Lemma month_of_day m d :
  1 <= m <= 12 → 1 <= d <= 31 → (m = 2 ∨ m = 4 ∨ m = 6 ∨ m = 9 ∨ m = 11 → d <= 30) →
  let doy := day_of_year m d in
  let mp := (5 * doy + 2) / 153 in
  doy - (153 * mp + 2) / 5 + 1 = d ∧ (if mp <? 10 then mp + 3 else mp - 9) = m.
Proof.
  intros Hm Hd Hs doy mp. assert (mp = march_month m) as Hmp.
  { subst mp doy. unfold day_of_year, march_month. revert Hs. month_cases m; cbn; intros Hs; div_lia. }
  rewrite Hmp. subst doy. unfold day_of_year. split; [lia|].
  unfold march_month. clear -Hm. by month_cases m.
Qed.

(** The algorithm recovers a date from its day number. *)
Lemma unix_secs_to_dt_date y m d t :
  valid_date (y, m, d) → 0 <= y → 0 <= t < 86400 →
  unix_secs_to_dt ((day_number (y, m, d) - 719468) * 86400 + t) =
  (y, m, d, t / 3600, t mod 3600 / 60, t mod 60).
Proof.
  intros Hv Hy Ht. unfold unix_secs_to_dt.
  replace (((day_number (y, m, d) - 719468) * 86400 + t) mod 86400) with t by div_lia.
  replace (((day_number (y, m, d) - 719468) * 86400 + t) / 86400 + 719468) with (day_number (y, m, d)) by div_lia.
  pose proof (day_of_year_range y m d Hv) as Hdoy. cbn zeta in Hdoy.
  destruct Hv as [Hm Hd]. unfold day_number.
  set (ym := if m <=? 2 then y - 1 else y) in *.
  replace (march_year ym + (153 * march_month m + 2) / 5 + d - 1) with (march_year ym + day_of_year m d)
    by (unfold day_of_year; lia).
  rewrite march_year_next, march_year_split in Hdoy. rewrite march_year_split.
  pose proof (Z.mod_pos_bound ym 400 ltac:(lia)) as Hyo.
  set (yo := ym mod 400) in *. set (doe := era_year yo + day_of_year m d).
  assert (0 <= era_year yo) by (unfold era_year; div_lia).
  assert ((if yo =? 399 then 146097 else era_year (yo + 1)) <= 146097) as Hend.
  { destruct (Z.eqb_spec yo 399); [lia|]. unfold era_year. div_lia. }
  assert (0 <= doe < 146097) as Hdoe by lia.
  replace ((146097 * (ym / 400) + era_year yo + day_of_year m d) mod 146097) with doe by div_lia.
  replace ((146097 * (ym / 400) + era_year yo + day_of_year m d) / 146097) with (ym / 400) by div_lia.
  change ((doe - doe / 1460 + doe / 36524 - doe / 146096) / 365) with (year_of_era doe).
  assert (year_of_era doe = yo) as -> by (apply year_of_era_spec; lia).
  change (365 * yo + yo / 4 - yo / 100) with (era_year yo).
  replace (doe - era_year yo) with (day_of_year m d) by lia.
  destruct (month_of_day m d) as [-> ->]; [lia| | |].
  { unfold days_in_month in Hd. repeat case_match; lia. }
  { unfold days_in_month in Hd. clear -Hd. intros [->|[->|[->|[-> | ->]]]]; cbn in Hd; [case_match|..]; lia. }
  repeat f_equal. subst yo ym. pose proof (Z.div_mod (if m <=? 2 then y - 1 else y) 400 ltac:(lia)).
  destruct (m <=? 2); lia.
Qed.

(** C27: The date the sensor writes for a moment is that of the calendar: day [n] after the first of
    January 1970 has the date that [n] steps from day to day lead to, months and leap years observed,
    and the time of the day is split into hours, minutes and seconds. *)
Theorem dates_follow_the_calendar n t (Ht : 0 <= t < 86400) :
  ∃ h mi s,
    unix_secs_to_dt (Z.of_nat n * 86400 + t) = (Nat.iter n next_day (1970, 1, 1), h, mi, s) ∧
    t = h * 3600 + mi * 60 + s ∧ 0 <= h < 24 ∧ 0 <= mi < 60 ∧ 0 <= s < 60.
Proof.
  destruct (iter_next_day n) as (Hn & Hv & Hy).
  destruct (Nat.iter n next_day (1970, 1, 1)) as [[y m] d]. cbn [fst] in Hy.
  exists (t / 3600), (t mod 3600 / 60), (t mod 60). split; [|div_lia].
  replace (Z.of_nat n) with (day_number (y, m, d) - 719468) by lia.
  by apply unix_secs_to_dt_date; [|lia|].
Qed.

Lemma dates_follow_the_calendar_witness :
  unix_secs_to_dt (790 * 86400 + 3661) = (1972, 3, 1, 1, 1, 1) ∧
  ∃ h mi s,
    unix_secs_to_dt (Z.of_nat 790 * 86400 + 3661) = (Nat.iter 790 next_day (1970, 1, 1), h, mi, s) ∧
    3661 = h * 3600 + mi * 60 + s ∧ 0 <= h < 24 ∧ 0 <= mi < 60 ∧ 0 <= s < 60.
Proof. split; [vm_compute; reflexivity|]. apply (dates_follow_the_calendar 790 3661). lia. Defined.

(** * Numbers of a fixed width *)

Lemma length_digits_of r n z : length (digits_of r n z) = n.
Proof. induction n as [|n IH] in z |- *; [done|]. cbn. rewrite length_app, IH. cbn. lia. Qed.

Lemma count_digits_small r n w z :
  1 < r → 0 <= z < r ^ Z.of_nat w → (1 <= w)%nat → (count_digits r n z <= w)%nat.
Proof.
  intros Hr. induction n as [|n IH] in w, z |- *; intros Hz Hw; cbn [count_digits]; [lia|].
  destruct (Z.ltb_spec z r); [lia|]. destruct w as [|w]; [lia|]. rewrite Nat2Z.inj_succ, Z.pow_succ_r in Hz by lia.
  destruct w as [|w]; [cbn in Hz; lia|]. apply le_n_S, IH; [|lia].
  split; [apply Z.div_pos; lia|]. apply Z.div_lt_upper_bound; lia.
Qed.

Lemma format_padded_small r w z :
  1 < r → 0 <= z < r ^ Z.of_nat w → (1 <= w)%nat → format_padded r w z = digits_of r w z.
Proof.
  intros Hr Hz Hw. unfold format_padded. pose proof (count_digits_small r 64 w z Hr Hz Hw).
  by replace (Nat.max w (count_digits r 64 z)) with w by lia.
Qed.

Lemma digit_char_inj d e : 0 <= d < 16 → 0 <= e < 16 → digit_char d = digit_char e → d = e.
Proof.
  intros Hd He Heq. apply (f_equal byte_val) in Heq. unfold digit_char in Heq. rewrite !byte_val_of_Z in Heq.
  revert Heq. rewrite !Z.mod_small by (repeat case_match; lia). repeat case_match; zbool; lia.
Qed.

Lemma digits_of_inj r n z z' :
  1 < r <= 16 → 0 <= z < r ^ Z.of_nat n → 0 <= z' < r ^ Z.of_nat n → digits_of r n z = digits_of r n z' → z = z'.
Proof.
  intros Hr. induction n as [|n IH] in z, z' |- *; intros Hz Hz' Heq; [cbn in *; lia|]. cbn [digits_of] in Heq.
  apply app_inj_2 in Heq as [Hq Hd]; [|done]. injection Hd as Hd.
  pose proof (Z.mod_pos_bound z r ltac:(lia)). pose proof (Z.mod_pos_bound z' r ltac:(lia)).
  apply digit_char_inj in Hd; [|lia..]. rewrite Nat2Z.inj_succ, Z.pow_succ_r in Hz, Hz' by lia.
  apply IH in Hq; [|split; [apply Z.div_pos; lia|apply Z.div_lt_upper_bound; lia]..].
  rewrite (Z.div_mod z r), (Z.div_mod z' r) by lia. by rewrite Hq, Hd.
Qed.

(** An identifier names one event: its parts never run into each other. *)
Lemma make_event_id_inj (nonce nonce' ts ts' n n' : Z) :
  0 <= nonce < 2 ^ 64 → 0 <= nonce' < 2 ^ 64 →
  zlen (make_event_id nonce ts n) = 40 ∧
  (make_event_id nonce ts n = make_event_id nonce' ts' n' ↔
   nonce = nonce' ∧ ts mod 2 ^ 48 = ts' mod 2 ^ 48 ∧ n mod 2 ^ 40 = n' mod 2 ^ 40).
Proof.
  intros Hn Hn'. unfold make_event_id. change 0xffffffffffff with (Z.ones 48). change 0xffffffffff with (Z.ones 40).
  rewrite !Z.land_ones by lia.
  pose proof (Z.mod_pos_bound ts (2 ^ 48) ltac:(lia)). pose proof (Z.mod_pos_bound ts' (2 ^ 48) ltac:(lia)).
  pose proof (Z.mod_pos_bound n (2 ^ 40) ltac:(lia)). pose proof (Z.mod_pos_bound n' (2 ^ 40) ltac:(lia)).
  rewrite !(format_padded_small 16 16), !(format_padded_small 16 12), !(format_padded_small 16 10) by (cbn; lia).
  split; [unfold zlen; rewrite !length_app, !length_digits_of; reflexivity|]. split; [|by intros (-> & -> & ->)].
  intros Heq. apply app_inj_1 in Heq as [E1 Heq]; [|by rewrite !length_digits_of].
  apply app_inj_1 in Heq as [_ Heq]; [|done]. apply app_inj_1 in Heq as [E2 Heq]; [|by rewrite !length_digits_of].
  apply app_inj_1 in Heq as [_ E3]; [|done].
  split_and!; [by apply (digits_of_inj 16 16)|by apply (digits_of_inj 16 12)|by apply (digits_of_inj 16 10)].
Qed.

(** * The order of the query *)

Lemma bytes_le_total a b : bytes_le a b = true ∨ bytes_le b a = true.
Proof.
  induction a as [|x a IH] in b |- *; destruct b as [|y b]; cbn; auto.
  destruct (Z.ltb_spec (byte_val x) (byte_val y)); [auto|]. destruct (Z.ltb_spec (byte_val y) (byte_val x)); auto.
Qed.

Lemma byte_val_inj b c : byte_val b = byte_val c → b = c.
Proof. intros E. by rewrite <- (byte_of_Z_val b), E, byte_of_Z_val. Qed.

Lemma bytes_le_antisymm a b : bytes_le a b = true → bytes_le b a = true → a = b.
Proof.
  induction a as [|x a IH] in b |- *; destruct b as [|y b]; cbn; try done.
  destruct (Z.ltb_spec (byte_val x) (byte_val y)); destruct (Z.ltb_spec (byte_val y) (byte_val x)); try done; try lia.
  intros H1 H2. f_equal; [apply byte_val_inj; lia|by apply IH].
Qed.

Lemma bytes_le_trans a b c : bytes_le a b = true → bytes_le b c = true → bytes_le a c = true.
Proof.
  induction a as [|x a IH] in b, c |- *; destruct b as [|y b], c as [|z c]; cbn; try done.
  destruct (Z.ltb_spec (byte_val x) (byte_val y)); destruct (Z.ltb_spec (byte_val y) (byte_val x));
    destruct (Z.ltb_spec (byte_val y) (byte_val z)); destruct (Z.ltb_spec (byte_val z) (byte_val y));
    destruct (Z.ltb_spec (byte_val x) (byte_val z)); destruct (Z.ltb_spec (byte_val z) (byte_val x));
    try done; try lia. apply IH.
Qed.

#[export] Instance pair_leP_total : Total pair_leP.
Proof.
  intros [k v] [k' v']. unfold pair_leP, pair_le. cbn.
  destruct (decide (k = k')) as [->|Hne]; [rewrite !bool_decide_eq_true_2 by done; apply bytes_le_total|].
  rewrite !bool_decide_eq_false_2 by congruence. apply bytes_le_total.
Qed.

#[export] Instance pair_leP_antisymm : AntiSymm (=) pair_leP.
Proof.
  intros [k v] [k' v']. unfold pair_leP, pair_le. cbn.
  destruct (decide (k = k')) as [->|Hne].
  - rewrite !bool_decide_eq_true_2 by done. intros H1 H2. f_equal. by apply bytes_le_antisymm.
  - rewrite !bool_decide_eq_false_2 by congruence. intros H1 H2. destruct Hne. by apply bytes_le_antisymm.
Qed.

#[export] Instance pair_leP_trans : Transitive pair_leP.
Proof.
  intros [k v] [k' v'] [k'' v'']. unfold pair_leP, pair_le. cbn.
  destruct (decide (k = k')) as [->|H1], (decide (k' = k'')) as [->|H2];
    rewrite ?bool_decide_eq_true_2, ?bool_decide_eq_false_2 by (done || congruence); [apply bytes_le_trans|done|done|].
  intros E1 E2. destruct (decide (k = k'')) as [->|H3].
  - destruct H1. by apply bytes_le_antisymm.
  - rewrite bool_decide_eq_false_2 by done. by eapply bytes_le_trans.
Qed.

(** The query of an event does not depend on the order in which the map of its parameters is walked. *)
Lemma query_string_canonical q q' path : q ≡ₚ q' → query_string q path = query_string q' path.
Proof.
  intros Hq. unfold query_string. case_match; [done|].
  assert (merge_sort pair_leP q = merge_sort pair_leP q') as ->; [|done].
  apply (Sorted_unique pair_leP); [apply (Sorted_merge_sort pair_leP)..|]. by rewrite !merge_sort_Permutation.
Qed.
