(* ===== verification/WireEvent.v ===== *)
(** The fields of an event on the wire: [event_to_value] and [to_sensor_batch] of
    [userspace/src/output.rs].

    A [serde_json::Value] is a [json]; an object lists its members in the order they are inserted. The
    text [serde_json::to_string] gives for a map of strings is a parameter. *)

From S2P Require Import Prelude.
From S2P Require Import Pending Text Http1 Event Output.
From Stdlib Require Import Strings.String.

#[local] Notation length := List.length.
#[local] Open Scope list_scope.
#[local] Open Scope Z_scope.

Inductive json {f32 : Type} :=
| JNull
| JBool (b : bool)
| JNum (n : Z)
| JFloat (x : f32)
| JString (s : bytes)
| JArray (l : list json)
| JObject (l : list (bytes * json)).
Arguments json : clear implicits.

Section Wire.
Context {f32 : Type} (to_json_string : headers → bytes).

Notation json := (json f32).
Notation event := (ApiTrafficEvent f32).

Definition str (o : option bytes) : bytes := default [] o.

(** [rh.get(k).cloned().unwrap_or_default()]. *)
Definition header_field (k : bytes) (hs : headers) : json := JString (str (header_get k hs)).

Definition length_field (hs : headers) : json :=
  JNum (default 0 (v ← header_get (lit "content-length") hs; parse_u64 (chars v))).

Definition body_field (body : bytes) : json :=
  match body with [] => JNull | _ => JString (base64_encode body) end.

Definition NAMED_REQ_HEADERS : list bytes :=
  [lit "user-agent"; lit "content-length"; lit "content-type"; lit "content-encoding"; lit "cookie";
   lit "x-user-id"; lit "authentication"; lit "authorization"; lit "x-request-id"; lit "x-forwarded-for";
   lit "x-forwarded-proto"; lit "host"].

Definition NAMED_RESP_HEADERS : list bytes := [lit "content-length"; lit "content-type"; lit "content-encoding"].

Definition extra_headers (named : list bytes) (hs : headers) : headers :=
  base.filter (fun kv => is_one_of kv.1 named = false) hs.

(** A member that is there when its value is. *)
Definition opt_field (k : bytes) (v : option bytes) : list (bytes * json) :=
  match v with Some s => [(k, JString s)] | None => [] end.

Definition flag_field (k : bytes) (b : bool) : list (bytes * json) := if b then [(k, JBool true)] else [].

Definition source_fields (ev : event) : list (bytes * json) :=
  [(lit "SrcInfo.Source", JNum 2); (lit "SrcInfo.RemoteAddress", JString (str (ev_source_ip ev)))].

Definition log_fields (offset nonce n : Z) (ev : event) : list (bytes * json) :=
  [(lit "LogVersion", JString (lit "v4"));
   (lit "Id", JString (make_event_id nonce (ev_observed_at ev) n));
   (lit "SessionStats.StartTime", JString (format_iso8601 (wall_ms_for_event offset (ev_observed_at ev))));
   (lit "SessionStats.TimeToLastDownstreamTxByte", JNum (default 0 (ap_latency_ms (ev_response ev))))].

Definition address_fields (ev : event) : list (bytes * json) :=
  [(lit "DownstreamL3L4.SourceIP", JString (str (ev_source_ip ev)));
   (lit "DownstreamL3L4.DestIP", JString (str (ev_dest_ip ev)));
   (lit "DownstreamL3L4.L4Protocol", JString (lit "L4Proto_TCP"));
   (lit "DownstreamL3L4.SourcePort", JNum (default 0 (ev_source_port ev)));
   (lit "DownstreamL3L4.DestPort", JNum (default 0 (ev_dest_port ev)));
   (lit "UpstreamL3L4.SourceIP", JString []);
   (lit "UpstreamL3L4.DestIP", JString (str (ev_dest_ip ev)));
   (lit "UpstreamL3L4.L4Protocol", JString (lit "L4Proto_Unknown"));
   (lit "UpstreamL3L4.SourcePort", JNum 0);
   (lit "UpstreamL3L4.DestPort", JNum (default 0 (ev_dest_port ev)));
   (lit "L7Protocol", JString (l7_proto_name (ev_protocol ev)))].

Definition request_fields (ev : event) : list (bytes * json) :=
  let '(uri, path_query) := split_uri_query (ar_path (ev_request ev)) in
  let body := str (ar_body (ev_request ev)) in
  let rh := ar_headers (ev_request ev) in
  [(lit "HTTPReq.Method", JString (ar_method (ev_request ev)));
   (lit "HTTPReq.Uri", JString uri);
   (lit "HTTPReq.Query", JString (query_string (ar_query (ev_request ev)) path_query));
   (lit "HTTPReq.BodyLength", JNum (zlen body));
   (lit "HTTPReq.Body", body_field body);
   (lit "HTTPReq.PathParams", JString (lit "{}"));
   (lit "Req.Header.user-agent", header_field (lit "user-agent") rh);
   (lit "Req.Header.content-length", length_field rh);
   (lit "Req.Header.content-type", header_field (lit "content-type") rh);
   (lit "Req.Header.content-encoding", header_field (lit "content-encoding") rh);
   (lit "Req.Header.cookie", header_field (lit "cookie") rh);
   (lit "Req.Header.x-user-id", header_field (lit "x-user-id") rh);
   (lit "Req.Header.authentication", header_field (lit "authentication") rh);
   (lit "Req.Header.authorization", header_field (lit "authorization") rh);
   (lit "Req.Header.x-Request-id", header_field (lit "x-request-id") rh);
   (lit "Req.Header.x-forwarded-for", header_field (lit "x-forwarded-for") rh);
   (lit "Req.Header.x-forwarded-proto", header_field (lit "x-forwarded-proto") rh);
   (lit "Req.Header.host", JString (str (ar_host (ev_request ev))));
   (lit "Req.Header.extra", JString (to_json_string (extra_headers NAMED_REQ_HEADERS rh)))].

Definition response_fields (ev : event) : list (bytes * json) :=
  let body := str (ap_body (ev_response ev)) in
  let rsh := ap_headers (ev_response ev) in
  [(lit "HTTPResp.BodyLength", JNum (zlen body));
   (lit "HTTPResp.Body", body_field body);
   (lit "HTTPResp.ResponseCode", JNum (ap_status_code (ev_response ev)));
   (lit "HTTPResp.ResponseCodeDetails", JString []);
   (lit "Resp.Header.content-length", length_field rsh);
   (lit "Resp.Header.content-type", header_field (lit "content-type") rsh);
   (lit "Resp.Header.content-encoding", header_field (lit "content-encoding") rsh);
   (lit "Resp.Header.extra", JString (to_json_string (extra_headers NAMED_RESP_HEADERS rsh)))].

Definition identity_fields (ev : event) : list (bytes * json) :=
  [(lit "session_id", JString (default (lit "sid-0") (ev_session_id ev)));
   (lit "auth_session_id", JString (default (lit "0") (ev_auth_session_id ev)));
   (lit "user_id", JString (default (lit "unknown") (ev_user_id ev)));
   (lit "user_role", JString (default (lit "unknown") (ev_user_role ev)))].

Definition constant_fields : list (bytes * json) :=
  [(lit "APIInfo.Name", JString []); (lit "APIInfo.Id", JNum 0); (lit "APIInfo.File", JString []);
   (lit "APIInfo.DebugErrorRecord", JString []);
   (lit "OnPremAction.FinalActionLog", JBool true); (lit "OnPremAction.ModuleActionBlock", JBool false);
   (lit "OnPremAction.SimulationModeOverride", JBool false); (lit "OnPremAction.DropModules", JArray []);
   (lit "OnPremAction.MatchedRules", JArray []); (lit "OnPremAction.Details", JString [])].

Definition container_meta (c : ContainerContext) : list (bytes * json) :=
  opt_field (lit "pod_name") (cc_pod_name c) ++ opt_field (lit "namespace") (cc_pod_namespace c)
  ++ opt_field (lit "service_name") (cc_service_name c) ++ opt_field (lit "container_name") (cc_container_name c)
  ++ opt_field (lit "workload_type") (cc_workload_type c)
  ++ (if bool_decide (cc_container_id c = lit "unknown") then [] else [(lit "container_id", JString (cc_container_id c))])
  ++ [(lit "node_name", JString (cc_node_name c))].

Definition mcp_meta (m : EventMetadata) : list (bytes * json) :=
  opt_field (lit "mcp_method") (em_mcp_method m) ++ opt_field (lit "mcp_tool_name") (em_mcp_tool_name m).

Definition anomaly_meta (af : AnomalyFeatures f32) : list (bytes * json) :=
  [(lit "shannon_entropy", JFloat (af_shannon_entropy af)); (lit "path_depth", JNum (af_path_depth af))]
  ++ flag_field (lit "anomaly_sqli") (af_has_sqli_pattern af)
  ++ flag_field (lit "anomaly_xss") (af_has_xss_pattern af)
  ++ flag_field (lit "anomaly_path_traversal") (af_has_path_traversal af).

Definition from_opt {A} (f : A → list (bytes * json)) (o : option A) : list (bytes * json) :=
  match o with Some a => f a | None => [] end.

Definition meta_fields (ev : event) : list (bytes * json) :=
  from_opt container_meta (ev_container ev)
  ++ from_opt mcp_meta (ev_metadata ev)
  ++ [(lit "transport", JString (if is_one_of (ev_protocol ev) [lit "HTTP/3"; lit "QUIC"] then lit "udp" else lit "tcp"))]
  ++ opt_field (lit "transaction_outcome") (ev_outcome ev)
  ++ opt_field (lit "direction") (ev_direction ev)
  ++ opt_field (lit "process_name") (ev_process_name ev)
  ++ opt_field (lit "source_hostname") (ev_source_hostname ev)
  ++ opt_field (lit "dest_hostname") (ev_dest_hostname ev)
  ++ from_opt anomaly_meta (ev_anomaly_features ev).

Definition error_flags (af : AnomalyFeatures f32) : list json :=
  (if af_has_sqli_pattern af then [JString (lit "sqli")] else [])
  ++ (if af_has_xss_pattern af then [JString (lit "xss")] else [])
  ++ (if af_has_path_traversal af then [JString (lit "path_traversal")] else []).

Definition class_fields (ev : event) : list (bytes * json) :=
  [(lit "MetaDataMap", JObject (meta_fields ev));
   (lit "MetaDataOnly", JBool false);
   (lit "APIID", JNum (stable_api_id (ar_method (ev_request ev)) (ar_path (ev_request ev))));
   (lit "error_flags", JArray (match ev_anomaly_features ev with Some af => error_flags af | None => [] end));
   (lit "Proto", JString (proto_class (ev_protocol ev)))].

(** [n] is the counter of events. *)
Definition event_to_value (offset nonce n : Z) (ev : event) : json :=
  JObject (source_fields ev ++ log_fields offset nonce n ev ++ address_fields ev ++ request_fields ev
           ++ response_fields ev ++ identity_fields ev ++ constant_fields ++ class_fields ev).

(** * The batch *)

Record MsgHeader := {
  mh_version : bytes;
  mh_message_time : bytes;
  mh_tenant_id : bytes;
  mh_sequence : Z;
  mh_internal_opc_id : bytes;
  mh_policy_version : bytes
}.

Record SensorBatch := { sb_msg_header : MsgHeader; sb_batch : list json }.

(** The events in order, each with the next value of the counter. *)
Fixpoint values (offset nonce n : Z) (events : list event) : list json :=
  match events with
  | [] => []
  | ev :: events => event_to_value offset nonce n ev :: values offset nonce (u64 (n + 1)) events
  end.

(** [seq] is the value of the counter of batches before it is advanced, [n] that of the events. *)
Definition to_sensor_batch (offset nonce now_ms seq n : Z) (tenant_id policy_version : bytes)
    (events : list event) : SensorBatch :=
  {| sb_msg_header :=
       {| mh_version := lit "2.0"; mh_message_time := format_message_time now_ms; mh_tenant_id := tenant_id;
          mh_sequence := seq; mh_internal_opc_id := hex 16 (Z.lxor now_ms (u64 (Z.shiftl seq 16)));
          mh_policy_version := policy_version |};
     sb_batch := values offset nonce n events |}.

(** [v.get(k)] on an object. *)
Fixpoint json_field (k : bytes) (l : list (bytes * json)) : option json :=
  match l with
  | [] => None
  | (k', v) :: l' => if bool_decide (k = k') then Some v else json_field k l'
  end.

Definition field (k : bytes) (v : json) : option json :=
  match v with JObject l => json_field k l | _ => None end.
End Wire.
