(* ===== verification/Redaction.v ===== *)
(** What the sensor hides before it exports: [userspace/src/redaction.rs].

    Text is the list of its characters. The HMAC of the [hmac] and [sha2] crates is a parameter, [mac],
    already under the key of the process. So is the [regex] crate: [Regex] says which parts of a text each
    of the patterns of the code matches, and promises what the documentation of [find_iter] does, that
    the matches are parts of the text, one behind the other; none of these patterns matches the empty
    text. The lower case of a character beyond ASCII is a parameter as well. *)

From S2P Require Import Prelude.
From S2P Require Import Pending Text Http1 Mcp Output.
From Stdlib Require Import Strings.String.

#[local] Notation length := List.length.
#[local] Open Scope list_scope.
#[local] Open Scope Z_scope.

Notation text := (list Z).

(** * Kinds of secrets *)

Inductive PiiType :=
| Email | CreditCard | Ssn | Phone | Jwt | BearerToken | PrivateKey | AwsKey | GcpToken | IndianPan
| Aadhaar | GithubPat | SlackToken | StripeKey | Ifsc | Gstin | Secret.

#[export] Instance PiiType_eq_dec : EqDecision PiiType.
Proof. solve_decision. Defined.

(** The order in which the patterns are tried. *)
Definition pii_patterns : list PiiType :=
  [Jwt; GithubPat; SlackToken; StripeKey; GcpToken; AwsKey; BearerToken; Email; CreditCard; Ssn; PrivateKey;
   Phone; IndianPan; Aadhaar; Ifsc; Gstin].

(** * Checksums *)

Definition is_ascii_digit (c : Z) : bool := (48 <=? c) && (c <=? 57).

Definition luhn_digit (double : bool) (d : Z) : Z :=
  if double then let n := d * 2 in if 9 <? n then n - 9 else n else d.

(** The sum over the digits from the last one, every second doubled. *)
Fixpoint luhn_sum (double : bool) (ds : list Z) : Z :=
  match ds with [] => 0 | d :: ds => luhn_digit double d + luhn_sum (negb double) ds end.

Definition digits_in (s : text) : list Z := omap (digit 10) s.

Definition luhn_check (s : text) : bool :=
  let digits := digits_in s in
  if zlen digits <? 13 then false else luhn_sum false (reverse digits) mod 10 =? 0.

Definition verhoeff_D : list (list Z) :=
  [[0; 1; 2; 3; 4; 5; 6; 7; 8; 9]; [1; 2; 3; 4; 0; 6; 7; 8; 9; 5];
   [2; 3; 4; 0; 1; 7; 8; 9; 5; 6]; [3; 4; 0; 1; 2; 8; 9; 5; 6; 7];
   [4; 0; 1; 2; 3; 9; 5; 6; 7; 8]; [5; 9; 8; 7; 6; 0; 4; 3; 2; 1];
   [6; 5; 9; 8; 7; 1; 0; 4; 3; 2]; [7; 6; 5; 9; 8; 2; 1; 0; 4; 3];
   [8; 7; 6; 5; 9; 3; 2; 1; 0; 4]; [9; 8; 7; 6; 5; 4; 3; 2; 1; 0]].

Definition verhoeff_P : list (list Z) :=
  [[0; 1; 2; 3; 4; 5; 6; 7; 8; 9]; [1; 5; 7; 6; 2; 8; 3; 0; 9; 4];
   [5; 8; 0; 3; 7; 9; 6; 1; 4; 2]; [8; 9; 1; 6; 0; 4; 3; 5; 2; 7];
   [9; 4; 5; 3; 1; 2; 6; 8; 7; 0]; [4; 2; 8; 6; 5; 7; 3; 9; 0; 1];
   [2; 7; 9; 3; 8; 0; 6; 4; 1; 5]; [7; 0; 4; 6; 9; 1; 3; 2; 5; 8]].

(** An entry of a table. *)
Definition at_ (T : list (list Z)) (i j : Z) : Z := nth (Z.to_nat j) (nth (Z.to_nat i) T []) 0.

(** The loop, from the last digit; [i] counts the digits. *)
Fixpoint verhoeff_from (i c : Z) (ds : list Z) : Z :=
  match ds with [] => c | d :: ds => verhoeff_from (i + 1) (at_ verhoeff_D c (at_ verhoeff_P (i mod 8) d)) ds end.

Definition verhoeff_valid (s : text) : bool := verhoeff_from 0 0 (reverse (digits_in s)) =? 0.

(** * Markers *)

Definition MARK_OPEN : Z := 57344.
Definition MARK_CLOSE : Z := 57345.

Definition is_mark (c : Z) : bool := (c =? MARK_OPEN) || (c =? MARK_CLOSE).

Definition marked (token : text) : text := [MARK_OPEN] ++ token ++ [MARK_CLOSE].

Definition ends_with (p s : text) : bool := starts_with (reverse p) (reverse s).

Definition is_marked (s : text) : bool :=
  (6 <? zlen (utf8 s)) && starts_with [MARK_OPEN] s && ends_with [MARK_CLOSE] s.

Definition strip_markers (s : text) : text := base.filter (fun c => is_mark c = false) s.

(** A part of a text, from a character up to another one. *)
Notation span := (nat * nat)%type.

(** [marked_spans], from character [i] on, behind the opening marker at [opened] if there is one. *)
Fixpoint marked_spans_from (i : nat) (opened : option nat) (s : text) : list span :=
  match s with
  | [] => []
  | c :: s =>
      if c =? MARK_OPEN then marked_spans_from (S i) (Some i) s
      else if c =? MARK_CLOSE then
        match opened with
        | Some start => (start, S i) :: marked_spans_from (S i) None s
        | None => marked_spans_from (S i) None s
        end
      else marked_spans_from (S i) opened s
  end.

Definition marked_spans (s : text) : list span := marked_spans_from 0 None s.

Definition overlaps (m : span) (p : span) : bool := (m.1 <? p.2)%nat && (p.1 <? m.2)%nat.

Definition slice (m : span) (s : text) : text := take (m.2 - m.1) (drop m.1 s).

(** [String::replace_range]. *)
Definition replace_range (m : span) (new s : text) : text := take m.1 s ++ new ++ drop m.2 s.

(** * The regular expressions *)

Inductive scrubber := Pem | UrlUserinfo | JsonKv | FormKv | XmlEl.

(** Parts of a text of [len] characters, one behind the other, from [from] on, and none of them empty. *)
Fixpoint in_order (from len : nat) (ms : list span) : Prop :=
  match ms with
  | [] => True
  | m :: ms => (from <= m.1 < m.2 ∧ m.2 <= len)%nat ∧ in_order m.2 len ms
  end.

Class Regex := {
  find_iter : PiiType → text → list span;
  (** the whole match and its groups *)
  captures_iter : scrubber → text → list (span * list span);
  find_iter_in_order p s : in_order 0 (length s) (find_iter p s);
  captures_in_order p s : in_order 0 (length s) (fst <$> captures_iter p s)
}.

(** [char::to_lowercase]. *)
Class CharCase := {
  char_to_lowercase : Z → list Z;
  char_to_lowercase_ascii c : is_ascii c → char_to_lowercase c = [ascii_lower c]
}.

Section Redaction.
Context `{Regex, CharCase} (mac : bytes → bytes).

(** * Tokens *)

(** Thirty-two hexadecimal digits of the keyed hash. *)
Definition token_digits (original : text) : text :=
  let result := mac (utf8 original) in
  byte_val <$> hex 16 (be_val (take 8 result)) ++ hex 16 (be_val (take 8 (drop 8 result))).

Definition pii_prefix (t : PiiType) : text :=
  match t with
  | Email => clit "PII_EMAIL_" | CreditCard => clit "PII_CARD_" | Ssn => clit "PII_SSN_"
  | Phone => clit "PII_PHONE_" | Jwt => clit "PII_JWT_" | BearerToken => clit "PII_TOKEN_"
  | PrivateKey => clit "PII_PRIVATE_KEY_REDACTED" | AwsKey => clit "PII_AWSKEY_"
  | GcpToken => clit "PII_GCPTOKEN_" | IndianPan => clit "PII_PAN_" | Aadhaar => clit "PII_AADHAAR_"
  | GithubPat => clit "PII_GHPAT_" | SlackToken => clit "PII_SLACK_" | StripeKey => clit "PII_STRIPE_"
  | Ifsc => clit "PII_IFSC_" | Gstin => clit "PII_GSTIN_" | Secret => clit "PII_SECRET_"
  end.

Definition pii_token (t : PiiType) (original : text) : text :=
  match t with PrivateKey => pii_prefix t | _ => pii_prefix t ++ token_digits original end.

Definition secret_token (value : text) : text := marked (pii_token Secret value).

(** The digits behind the prefix, which they do not repeat, cut at sixteen. *)
Definition fingerprint (value : text) : text :=
  let t := pii_token Secret value in
  take 16 (default t (strip_prefix (pii_prefix Secret) t)).

(** * Values that look like secrets *)

(** What a match has to pass besides its pattern. *)
Definition checked (t : PiiType) (s : text) : bool :=
  match t with CreditCard => luhn_check s | Aadhaar => verhoeff_valid s | _ => true end.

(** The matches of a pattern that are replaced. *)
Definition ranges (t : PiiType) (s : text) : list span :=
  let protected := marked_spans s in
  base.filter (fun m => negb (existsb (overlaps m) protected) && checked t (slice m s) = true) (find_iter t s).

(** One pattern: replaced from the last match to the first, so that the positions stay right. *)
Definition redact_pass (s : text) (t : PiiType) : text :=
  fold_left (fun result m => replace_range m (marked (pii_token t (slice m s))) result) (reverse (ranges t s)) s.

Definition redact_pii_marked (s : text) : text := fold_left redact_pass pii_patterns s.

Definition redact_pii (s : text) : text := strip_markers (redact_pii_marked (strip_markers s)).

(** * Names that mark secrets *)

Definition SECRET_NAME_PARTS : list text :=
  [clit "authorization"; clit "cookie"; clit "password"; clit "passwd"; clit "passphrase"; clit "secret";
   clit "token"; clit "apikey"; clit "accesskey"; clit "privatekey"; clit "credential"; clit "session";
   clit "signature"; clit "csrf"; clit "xsrf"].
Definition SECRET_NAME_EXACT : list text :=
  [clit "pwd"; clit "pin"; clit "otp"; clit "cvv"; clit "cvc"; clit "sid"; clit "ssn"; clit "key"; clit "auth"].
Definition STRONG_NAME_PARTS : list text :=
  [clit "password"; clit "passwd"; clit "passphrase"; clit "secret"; clit "privatekey"; clit "credential"].
Definition STRONG_NAME_EXACT : list text :=
  [clit "pwd"; clit "pin"; clit "otp"; clit "cvv"; clit "cvc"; clit "ssn"].

(** Lower case without hyphen, underscore, dot and square brackets. *)
Definition normalise_name (name : text) : text :=
  mjoin (char_to_lowercase <$> base.filter (fun c => existsb (Z.eqb c) [45; 95; 46; 91; 93] = false) name).

Definition any_part (parts : list text) (n : text) : bool := existsb (fun p => contains p n) parts.
Definition any_exact (names : list text) (n : text) : bool := existsb (fun p => bool_decide (n = p)) names.

Definition is_sensitive_name (name : text) : bool :=
  let n := normalise_name name in
  negb (bool_decide (n = [])) && (any_exact SECRET_NAME_EXACT n || any_part SECRET_NAME_PARTS n).

Definition is_strong_name (name : text) : bool :=
  let n := normalise_name name in any_exact STRONG_NAME_EXACT n || any_part STRONG_NAME_PARTS n.

(** ** Encodings of names *)

(** Up to [n] hexadecimal digits: their value, if there are [n], and what was not read. The character
    that is not a digit is read. *)
Fixpoint read_hex (n : nat) (code : Z) (s : text) : option Z * text :=
  match n with
  | O => (Some code, s)
  | S n =>
      match s with
      | [] => (None, [])
      | c :: s => match digit 16 c with Some d => read_hex n (code * 16 + d) s | None => (None, s) end
      end
  end.

(** [char::from_u32] on a code of four digits. *)
Definition from_u32 (code : Z) : option Z := if (55296 <=? code) && (code <=? 57343) then None else Some code.

(** The character a short escape stands for. *)
Definition short_escape (c : Z) : option Z :=
  if c =? 34 then Some 34 else if c =? 92 then Some 92 else if c =? 47 then Some 47
  else if c =? 98 then Some 8 else if c =? 102 then Some 12 else if c =? 110 then Some 10
  else if c =? 114 then Some 13 else if c =? 116 then Some 9 else None.

(** A round of the loop reads at least one character. *)
Fixpoint json_unescape (fuel : nat) (s : text) : text :=
  match fuel with
  | O => []
  | S fuel =>
      match s with
      | [] => []
      | c :: s =>
          if negb (c =? 92) then c :: json_unescape fuel s
          else match s with
               | [] => [92]
               | e :: s =>
                   match short_escape e with
                   | Some c => c :: json_unescape fuel s
                   | None =>
                       if e =? 117 then
                         let '(code, s) := read_hex 4 0 s in
                         match code ≫= from_u32 with
                         | Some c => c :: json_unescape fuel s
                         | None => json_unescape fuel s
                         end
                       else 92 :: e :: json_unescape fuel s
                   end
               end
      end
  end.

Definition json_unescape_name (raw : text) : text := json_unescape (length raw) raw.

Definition hex_val (b : byte) : option Z := digit 16 (byte_val b).

Fixpoint percent_decode (b : bytes) : bytes :=
  match b with
  | [] => []
  | c :: b' =>
      if byte_val c =? 37 then
        match b' with
        | h :: b'' =>
            match b'' with
            | l :: b''' =>
                match hex_val h, hex_val l with
                | Some h, Some l => byte_of_Z (Z.lor (Z.shiftl h 4) l) :: percent_decode b'''
                | _, _ => c :: percent_decode b'
                end
            | [] => c :: percent_decode b'
            end
        | [] => c :: percent_decode b'
        end
      else if byte_val c =? 43 then byte_of_Z 32 :: percent_decode b'
      else c :: percent_decode b'
  end.

Definition percent_decode_name (raw : text) : text := from_utf8_lossy (percent_decode (utf8 raw)).

Definition canonical_field_name (raw : text) (percent : bool) : text :=
  let unescaped := json_unescape_name raw in
  if percent then percent_decode_name unescaped else unescaped.

(** ** Pairs of name and value *)

(** [trim_matches] with one character. *)
Fixpoint trim_start_char (c : Z) (s : text) : text :=
  match s with x :: s' => if x =? c then trim_start_char c s' else s | [] => [] end.

Definition trim_matches (c : Z) (s : text) : text :=
  reverse (trim_start_char c (reverse (trim_start_char c s))).

(** [replace_all]: the text between the matches stays, a match becomes what [f] makes of it and its
    groups. *)
Fixpoint replace_matches (f : text → list text → text) (s : text) (pos : nat) (ms : list (span * list span)) : text :=
  match ms with
  | [] => drop pos s
  | (m, gs) :: ms =>
      slice (pos, m.1) s ++ f (slice m s) ((fun g => slice g s) <$> gs) ++ replace_matches f s m.2 ms
  end.

Definition replace_all (r : scrubber) (f : text → list text → text) (s : text) : text :=
  replace_matches f s 0 (captures_iter r s).

Definition group (gs : list text) (i : nat) : text := nth i gs [].

Definition scrub_pem (_ : text) (_ : list text) : text := marked (clit "PII_PRIVATE_KEY_REDACTED").

Definition scrub_userinfo (_ : text) (gs : list text) : text :=
  group gs 0 ++ secret_token (group gs 1) ++ group gs 2.

Definition scrub_json (whole : text) (gs : list text) : text :=
  let key := group gs 0 in
  let val := group gs 1 in
  let canon := canonical_field_name key false in
  if negb (is_sensitive_name canon) || starts_with (clit "{") val || starts_with (clit "[") val || is_marked val
  then whole
  else
    let quoted := starts_with [34] val in
    if negb quoted && negb (is_strong_name canon) then whole
    else
      let inner := trim_matches 34 val in
      if bool_decide (inner = []) || is_marked inner then whole
      else take (length whole - length val) whole ++ [34] ++ secret_token inner ++ [34].

Definition scrub_form (whole : text) (gs : list text) : text :=
  let canon := canonical_field_name (group gs 1) true in
  if is_sensitive_name canon && negb (bool_decide (group gs 2 = [])) && negb (is_marked (group gs 2))
  then group gs 0 ++ group gs 1 ++ clit "=" ++ secret_token (group gs 2) else whole.

Definition scrub_xml (whole : text) (gs : list text) : text :=
  let inner := trim (group gs 1) in
  if bool_decide (group gs 0 = group gs 2) && is_sensitive_name (group gs 0)
     && negb (bool_decide (inner = [])) && negb (is_marked inner)
  then clit "<" ++ group gs 0 ++ clit ">" ++ secret_token inner ++ clit "</" ++ group gs 0 ++ clit ">"
  else whole.

Definition scrub_secrets (s : text) : text :=
  let out := replace_all Pem scrub_pem s in
  let out := replace_all UrlUserinfo scrub_userinfo out in
  let out := replace_all JsonKv scrub_json out in
  let out := replace_all FormKv scrub_form out in
  replace_all XmlEl scrub_xml out.

Definition redact_text_marked (s : text) : text := redact_pii_marked (scrub_secrets s).

Definition redact_text (s : text) : text := strip_markers (redact_text_marked (strip_markers s)).

Definition redact_url (target : text) : text := redact_text target.

Definition redact_body (s : text) : text := redact_text s.

(** * Headers *)

Fixpoint join_text (sep : text) (l : list text) : text :=
  match l with
  | [] => []
  | s :: l' => match l' with [] => s | _ => s ++ sep ++ join_text sep l' end
  end.

Definition cookie_pair (redact_all_values : bool) (pair : text) : text :=
  match split_once 61 pair with
  | Some (name, val) =>
      if negb (bool_decide (trim val = [])) && (redact_all_values || is_sensitive_name name)
      then name ++ clit "=" ++ secret_token (trim val) else pair
  | None => pair
  end.

Definition cookie_pairs (value : text) (redact_all_values : bool) : text :=
  join_text [59] (cookie_pair redact_all_values <$> split_on 59 value).

(** [split_once(char::is_whitespace)]. *)
Fixpoint split_once_space (s : text) : option (text * text) :=
  match s with
  | [] => None
  | c :: s' =>
      if is_whitespace c then Some ([], s')
      else '(k, v) ← split_once_space s'; Some (c :: k, v)
  end.

Definition redact_authorization (value : text) : text :=
  match split_once_space (trim value) with
  | Some (scheme, cred) =>
      if negb (bool_decide (trim cred = [])) then scheme ++ clit " " ++ secret_token (trim cred)
      else secret_token (trim value)
  | None => secret_token (trim value)
  end.

Definition redact_set_cookie (value : text) : text :=
  match split_once 59 value with
  | Some (first, attrs) => cookie_pairs first true ++ clit ";" ++ attrs
  | None => cookie_pairs value true
  end.

Definition redact_header_line (lname value : text) : text :=
  if bool_decide (trim value = []) then value
  else if bool_decide (lname = clit "authorization") || bool_decide (lname = clit "proxy-authorization")
  then redact_authorization value
  else if bool_decide (lname = clit "cookie") then cookie_pairs value true
  else if bool_decide (lname = clit "set-cookie") then redact_set_cookie value
  else if is_sensitive_name lname then secret_token (trim value)
  else redact_text_marked value.

(** Line by line. *)
Definition redact_header_value (name value : text) : text :=
  let lname := to_ascii_lowercase name in
  strip_markers (join_text [10] (redact_header_line lname <$> split_on 10 (strip_markers value))).
End Redaction.
