(* ===== verification/RedactionProps.v ===== *)
(** What the value patterns of the redaction do to a text: they replace parts of it by tokens of exactly
    these parts, never touch a token again, and what is left is the text as it was. *)

From S2P Require Import Prelude.
From S2P Require Import Pending Text Http1 Mcp Output Redaction.
From Stdlib Require Import Strings.String.

#[local] Notation length := List.length.
#[local] Open Scope list_scope.
#[local] Open Scope Z_scope.

Section Replacing.
Context (tok : span → text).

(** The reference: one pass from left to right. *)
Fixpoint splice (pos : nat) (ms : list span) (s : text) : text :=
  match ms with
  | [] => drop pos s
  | m :: ms => slice (pos, m.1) s ++ tok m ++ splice m.2 ms s
  end.

(** Replacing from the last match to the first comes to the same. *)
Lemma replace_in_reverse pos ms s :
  in_order pos (length s) ms → (pos <= length s)%nat →
  fold_left (fun r m => replace_range m (tok m) r) (reverse ms) s = take pos s ++ splice pos ms s.
Proof.
  induction ms as [|m ms IH] in pos |- *; cbn [in_order splice]; intros Ho Hp; [by rewrite take_drop|].
  destruct Ho as [[Hm1 Hm2] Ho]. rewrite reverse_cons, fold_left_app. cbn [fold_left].
  rewrite (IH m.2) by done. unfold replace_range.
  rewrite take_app_le by (rewrite length_take; lia). rewrite take_take, Nat.min_l by lia.
  rewrite drop_app_ge by (rewrite length_take; lia). rewrite length_take, Nat.min_l, Nat.sub_diag by lia.
  rewrite drop_0, (app_assoc (take pos s)). f_equal. unfold slice. cbn [fst snd].
  rewrite <- (take_drop pos (take m.1 s)), take_take, Nat.min_l by lia. f_equal.
  by rewrite skipn_firstn_comm.
Qed.

(** What lies before the first match is copied. *)
Lemma splice_skip pos k ms s :
  (pos <= k)%nat → in_order k (length s) ms → (k <= length s)%nat →
  splice pos ms s = slice (pos, k) s ++ splice k ms s.
Proof.
  intros Hk Ho Hl. unfold slice. cbn [fst snd]. destruct ms as [|m ms]; cbn [splice].
  - rewrite <- (take_drop (k - pos) (drop pos s)) at 1. f_equal. rewrite drop_drop. f_equal. lia.
  - destruct Ho as [[Hm1 Hm2] _]. unfold slice. cbn [fst snd]. rewrite !app_assoc. f_equal. f_equal.
    rewrite <- (take_drop (k - pos) (take (m.1 - pos) (drop pos s))), take_take, Nat.min_l by lia. f_equal.
    rewrite skipn_firstn_comm, drop_drop. f_equal; [lia|]. f_equal. lia.
Qed.
End Replacing.

(** * Texts with tokens

    A text in the middle of a redaction: plain parts, each but the last one followed by a token with the
    part of the original text it stands for. *)
Section Marked.
Context `{Regex} (mac : bytes → bytes).

Notation pii_token := (pii_token mac).

Record body := { pieces : list (text * PiiType * text); rest : text }.

Definition render_piece (x : text * PiiType * text) : text := x.1.1 ++ marked (pii_token x.1.2 x.2).
Definition original_piece (x : text * PiiType * text) : text := x.1.1 ++ x.2.

Definition render (b : body) : text := mjoin (render_piece <$> pieces b) ++ rest b.
Definition original (b : body) : text := mjoin (original_piece <$> pieces b) ++ rest b.

Definition unmarked (s : text) : Prop := Forall (fun c => is_mark c = false) s.

Definition clean (b : body) : Prop :=
  Forall (fun x => unmarked x.1.1 ∧ unmarked x.2 ∧ checked x.1.2 x.2 = true ∧ x.1.2 ∈ pii_patterns) (pieces b) ∧
  unmarked (rest b).

(** Where the tokens are, when the text begins at [pos]. *)
Fixpoint token_spans (pos : nat) (xs : list (text * PiiType * text)) : list span :=
  match xs with
  | [] => []
  | x :: xs =>
      let start := (pos + length x.1.1)%nat in
      let stop := (start + length (marked (pii_token x.1.2 x.2)))%nat in
      (start, stop) :: token_spans stop xs
  end.

Lemma byte_of_literal_unmarked b : is_mark (byte_val b) = false.
Proof. pose proof (byte_val_range b). unfold is_mark, MARK_OPEN, MARK_CLOSE. zbool; apply orb_false_iff; lia. Qed.

Lemma bytes_unmarked (bs : bytes) : unmarked (byte_val <$> bs).
Proof. induction bs as [|b bs IH]; constructor; [apply byte_of_literal_unmarked|done]. Qed.

(** A token holds no marker. *)
Lemma pii_token_unmarked t s : unmarked (pii_token t s).
Proof.
  unfold Redaction.pii_token, token_digits, pii_prefix.
  destruct t; repeat (apply Forall_app; split); apply bytes_unmarked.
Qed.

Lemma marked_length t : (2 <= length (marked t))%nat.
Proof. unfold marked. rewrite !length_app. cbn. lia. Qed.

Lemma spans_plain i o p s :
  unmarked p → marked_spans_from i o (p ++ s) = marked_spans_from (i + length p) o s.
Proof.
  induction p as [|c p IH] in i |- *; intros Hp; cbn; [by rewrite Nat.add_0_r|].
  apply Forall_cons_1 in Hp as [Hc Hp]. unfold is_mark in Hc. apply orb_false_iff in Hc as [-> ->].
  rewrite IH by done. f_equal. lia.
Qed.

Lemma spans_token i o t s :
  unmarked t →
  marked_spans_from i o (marked t ++ s) =
  (i, (i + length (marked t))%nat) :: marked_spans_from (i + length (marked t)) None s.
Proof.
  intros Ht. unfold marked. rewrite <- !app_assoc. cbn [app marked_spans_from].
  change (MARK_OPEN =? MARK_OPEN) with true. cbn iota. rewrite spans_plain by done.
  cbn [app marked_spans_from]. change (MARK_CLOSE =? MARK_OPEN) with false. change (MARK_CLOSE =? MARK_CLOSE) with true.
  cbn iota. cbn [length]. rewrite length_app. cbn [length].
  replace (S (S i + length t)) with (i + S (length t + 1))%nat by lia. done.
Qed.

(** The tokens the code finds are those of the redaction, and no others. *)
Lemma marked_spans_render xs last i :
  clean {| pieces := xs; rest := last |} →
  marked_spans_from i None (render {| pieces := xs; rest := last |}) = token_spans i xs.
Proof.
  intros [Hx Hl]. unfold render. cbn in *. induction xs as [|x xs IH] in i, Hx |- *; cbn.
  - rewrite <- (app_nil_r last), spans_plain by done. done.
  - apply Forall_cons_1 in Hx as [(Hp & _) Hx]. unfold render_piece at 1.
    rewrite <- !app_assoc, spans_plain, spans_token by (done || apply pii_token_unmarked).
    f_equal. by apply IH.
Qed.

Lemma in_order_le from from' len ms : in_order from len ms → (from' <= from)%nat → in_order from' len ms.
Proof. destruct ms; cbn; [done|]. intros [??] ?. split; [lia|done]. Qed.

Lemma in_order_bound from len ms : in_order from len ms → Forall (fun m => (from <= m.1 < m.2 ∧ m.2 <= len)%nat) ms.
Proof.
  induction ms as [|m ms IH] in from |- *; intros Ho; constructor; destruct Ho as [? Ho]; [done|].
  eapply Forall_impl; [|by apply IH]. cbn. lia.
Qed.

Lemma in_order_raise from k len ms :
  in_order from len ms → Forall (fun m => k <= m.1)%nat ms → in_order k len ms.
Proof. destruct ms as [|m ms]; [done|]. intros [? Ho] [? _]%Forall_cons_1. split; [lia|done]. Qed.

(** ** One pass over such a text *)

Section Pass.
Context (t : PiiType) (s : text) (Ht : t ∈ pii_patterns).

Definition token_of (m : span) : text := marked (pii_token t (slice m s)).

Notation splice := (splice token_of).

Definition pieces_clean (xs : list (text * PiiType * text)) : Prop :=
  Forall (fun x => unmarked x.1.1 ∧ unmarked x.2 ∧ checked x.1.2 x.2 = true ∧ x.1.2 ∈ pii_patterns) xs.

Lemma slice_of_drop pos p r (m : span) :
  drop pos s = p ++ r → (pos <= m.1)%nat → (m.2 <= pos + length p)%nat →
  slice m s = take (m.2 - m.1) (drop (m.1 - pos) p).
Proof.
  intros Hd H1 H2. unfold slice. replace m.1 with (pos + (m.1 - pos))%nat at 2 by lia.
  rewrite <- drop_drop, Hd. destruct (Nat.le_gt_cases (m.1 - pos) (length p)).
  - rewrite drop_app_le, take_app_le by (rewrite ?length_drop; lia). done.
  - replace (m.2 - m.1)%nat with O by lia. done.
Qed.

Lemma unmarked_take n p : unmarked p → unmarked (take n p).
Proof. apply Forall_take. Qed.

Lemma unmarked_drop n p : unmarked p → unmarked (drop n p).
Proof. apply Forall_drop. Qed.

(** The matches inside a plain part, which ends at [k], turn it into pieces. *)
Lemma hide_plain ms pos p r :
  drop pos s = p ++ r → (pos + length p <= length s)%nat → unmarked p →
  in_order pos (length s) ms → Forall (fun m => checked t (slice m s) = true) ms →
  Forall (fun m => (m.2 <= pos + length p ∨ pos + length p <= m.1)%nat) ms →
  ∃ ys p' ms',
    splice pos ms s = mjoin (render_piece <$> ys) ++ p' ++ splice (pos + length p) ms' s ∧
    mjoin (original_piece <$> ys) ++ p' = p ∧ pieces_clean ys ∧ unmarked p' ∧
    in_order (pos + length p) (length s) ms' ∧ ms' `suffix_of` ms.
Proof using Ht.
  induction ms as [|m ms IH] in pos, p |- *; intros Hd Hl Hp Ho Hc Hk.
  - exists [], p, []. split_and!; try done; [|constructor].
    rewrite (splice_skip token_of pos (pos + length p)) by (done || lia).
    unfold slice. cbn [fst snd]. rewrite Hd. replace (pos + length p - pos)%nat with (length p) by lia.
    by rewrite take_app_length.
  - apply Forall_cons_1 in Hk as [[Hm|Hm] Hk].
    + destruct Ho as [Hm12 Ho]. apply Forall_cons_1 in Hc as [Hcm Hc].
      set (n := (m.2 - pos)%nat).
      assert (drop m.2 s = drop n p ++ r) as Hd2.
      { replace m.2 with (pos + n)%nat by lia. rewrite <- drop_drop, Hd. apply drop_app_le. lia. }
      assert (m.2 + length (drop n p) = pos + length p)%nat as Hlen by (rewrite length_drop; lia).
      destruct (IH m.2 (drop n p) Hd2 ltac:(lia) (unmarked_drop _ _ Hp) Ho Hc) as (ys & p' & ms' & Hs & Hor & Hys & Hp' & Ho' & Hsuf).
      { by rewrite Hlen. }
      rewrite Hlen in *. pose proof (slice_of_drop pos p r m Hd ltac:(lia) ltac:(lia)) as Hsl.
      exists ((take (m.1 - pos) p, t, slice m s) :: ys), p', ms'. cbn [fmap list_fmap].
      split_and!; try done.
      * cbn [RedactionProps.splice]. rewrite Hs. change (mjoin (?a :: ?l)) with (a ++ mjoin l).
        unfold render_piece at 2. cbn [fst snd]. unfold token_of. rewrite <- !app_assoc. f_equal.
        unfold slice at 1. cbn [fst snd]. rewrite Hd. apply take_app_le. lia.
      * change (mjoin (?a :: ?l)) with (a ++ mjoin l). rewrite <- app_assoc, Hor.
        unfold original_piece. cbn [fst snd]. rewrite Hsl, <- app_assoc.
        rewrite <- (take_drop (m.1 - pos) p) at 4. f_equal.
        rewrite <- (take_drop (m.2 - m.1) (drop (m.1 - pos) p)) at 2. f_equal. rewrite drop_drop. f_equal. lia.
      * constructor; [|done]. cbn [fst snd]. split_and!; try done; [by apply unmarked_take|].
        rewrite Hsl. by apply unmarked_take, unmarked_drop.
      * by apply suffix_cons_r.
    + assert (in_order (pos + length p) (length s) (m :: ms)) as Ho' by (destruct Ho; split; [lia|done]).
      exists [], p, (m :: ms). split_and!; try done; [|constructor].
      rewrite (splice_skip token_of pos (pos + length p)) by (done || lia).
      unfold slice at 1. cbn [fst snd]. rewrite Hd. replace (pos + length p - pos)%nat with (length p) by lia.
      by rewrite take_app_length.
Qed.

Lemma not_overlapping from len ms start stop :
  in_order from len ms → (start < stop)%nat → Forall (fun m => overlaps m (start, stop) = false) ms →
  Forall (fun m => (m.2 <= start ∨ stop <= m.1)%nat) ms.
Proof.
  intros Ho%in_order_bound Hss Hn. induction Ho as [|m ms Hm _ IH]; constructor; apply Forall_cons_1 in Hn as [Hn Hns].
  - unfold overlaps in Hn. cbn [fst snd] in Hn. apply andb_false_iff in Hn as [Hn%Nat.ltb_ge|Hn%Nat.ltb_ge]; [right|left]; lia.
  - by apply IH.
Qed.

Lemma hide_pieces xs last pos ms :
  drop pos s = render {| pieces := xs; rest := last |} → (pos <= length s)%nat →
  clean {| pieces := xs; rest := last |} → in_order pos (length s) ms →
  Forall (fun m => checked t (slice m s) = true) ms →
  Forall (fun m => Forall (fun q => overlaps m q = false) (token_spans pos xs)) ms →
  ∃ b, splice pos ms s = render b ∧ original b = original {| pieces := xs; rest := last |} ∧ clean b.
Proof using Ht.
  induction xs as [|x xs IH] in pos, ms |- *; intros Hd Hl [Hx Hlast] Ho Hc Hn; unfold render in Hd; cbn in Hx, Hd, Hlast.
  - assert (length s = pos + length last)%nat as Hlen by (rewrite <- Hd, length_drop; lia).
    destruct (hide_plain ms pos last [] ltac:(by rewrite app_nil_r) ltac:(lia) Hlast Ho Hc) as
      (ys & p' & ms' & Hs & Hor & Hys & Hp' & Ho' & _).
    { eapply Forall_impl; [|by apply (in_order_bound _ _ _ Ho)]. cbn. intros m Hm. lia. }
    exists {| pieces := ys; rest := p' |}. split_and!; [|done|by split].
    rewrite Hs. unfold render. cbn [pieces rest]. f_equal.
    rewrite <- Hlen in *. destruct ms' as [|m' ms']; [|destruct Ho'; lia].
    cbn. by rewrite drop_all, app_nil_r.
  - apply Forall_cons_1 in Hx as [Hx1 Hx]. pose proof Hx1 as (Hp & Hq & Hck & Hin).
    set (T := marked (pii_token x.1.2 x.2)) in *.
    assert (drop pos s = x.1.1 ++ (T ++ (mjoin (render_piece <$> xs) ++ last))) as Hd1.
    { rewrite Hd. unfold render_piece at 1. by rewrite <- !app_assoc. }
    assert (length s - pos = length x.1.1 + (length T + length (mjoin (render_piece <$> xs) ++ last)))%nat as Hlen.
    { by rewrite <- length_drop, Hd1, !length_app. }
    pose proof (marked_length (pii_token x.1.2 x.2)) as HT. fold T in HT.
    assert (Forall (fun m => (m.2 <= pos + length x.1.1 ∨ pos + length x.1.1 + length T <= m.1)%nat) ms) as Hout.
    { eapply not_overlapping; [done|lia|]. eapply Forall_impl; [|exact Hn]. cbn. intros m Hm.
      by apply Forall_cons_1 in Hm as [? _]. }
    destruct (hide_plain ms pos x.1.1 _ Hd1 ltac:(lia) Hp Ho Hc) as (ys & p' & ms' & Hs & Hor & Hys & Hp' & Ho' & Hsuf).
    { eapply Forall_impl; [|exact Hout]. cbn. intros m Hm. lia. }
    set (k := (pos + length x.1.1 + length T)%nat) in *.
    assert (in_order k (length s) ms') as Hok.
    { eapply in_order_raise; [done|]. destruct Hsuf as [pre ->]. apply Forall_app in Hout as [_ Hout].
      apply in_order_bound in Ho'. clear -Hout Ho' HT.
      induction Ho' as [|m l Hm _ IH]; constructor; apply Forall_cons_1 in Hout as [? ?]; [lia|by apply IH]. }
    destruct (IH k ms') as (b & Hb & Hbo & Hbc); [|lia|by split|done| | |].
    + unfold render. cbn [pieces rest]. unfold k. rewrite <- Nat.add_assoc, <- drop_drop, Hd1, <- drop_drop.
      by rewrite drop_app_length, drop_app_length.
    + destruct Hsuf as [pre ->]. by apply Forall_app in Hc as [_ Hc].
    + destruct Hsuf as [pre ->]. apply Forall_app in Hn as [_ Hn]. eapply Forall_impl; [|exact Hn].
      cbn. intros m Hm. by apply Forall_cons_1 in Hm as [_ Hm].
    + exists {| pieces := ys ++ (p', x.1.2, x.2) :: pieces b; rest := rest b |}. split_and!.
      * rewrite Hs, (splice_skip token_of _ k) by (done || lia). rewrite Hb.
        unfold render, slice. cbn [pieces rest fst snd]. rewrite fmap_app, join_app, <- app_assoc. f_equal.
        cbn [fmap list_fmap]. change (mjoin (?a :: ?l)) with (a ++ mjoin l).
        unfold render_piece at 2. cbn [fst snd]. fold T. rewrite <- !app_assoc. f_equal. f_equal.
        rewrite <- drop_drop, Hd1, drop_app_length. replace (k - (pos + length x.1.1))%nat with (length T) by lia.
        by rewrite take_app_length.
      * unfold original in *. cbn [pieces rest] in *. rewrite fmap_app, join_app. cbn [fmap list_fmap].
        change (mjoin (?a :: ?l)) with (a ++ mjoin l). unfold original_piece at 2 4. cbn [fst snd].
        rewrite <- !app_assoc, Hbo, !app_assoc. by rewrite Hor.
      * destruct Hbc as [Hbc Hbl]. split; [|done]. cbn. apply Forall_app. split; [done|]. constructor; [|done].
        by cbn.
Qed.
End Pass.

Lemma in_order_filter from len (P : span → Prop) `{∀ m, Decision (P m)} ms :
  in_order from len ms → in_order from len (base.filter P ms).
Proof.
  induction ms as [|m ms IH] in from |- *; [done|]. intros [Hm Ho]. rewrite filter_cons.
  case_decide; [split; [done|by apply IH]|]. apply (in_order_le m.2); [by apply IH|lia].
Qed.

(** One pattern turns parts of the plain text into tokens, and leaves the tokens alone. *)
Lemma redact_pass_body t b :
  t ∈ pii_patterns → clean b →
  ∃ b', redact_pass mac (render b) t = render b' ∧ original b' = original b ∧ clean b'.
Proof.
  intros Ht Hb. destruct b as [xs last]. set (s := render _).
  assert (in_order 0 (length s) (ranges t s)) as Ho by apply in_order_filter, find_iter_in_order.
  assert (Forall (fun m => negb (existsb (overlaps m) (token_spans 0 xs)) && checked t (slice m s) = true) (ranges t s)) as Hf.
  { unfold ranges, marked_spans, s. rewrite marked_spans_render by done. apply list.Forall_forall.
    by intros m [? _]%list_elem_of_filter. }
  destruct (hide_pieces t s Ht xs last 0 (ranges t s)) as (b' & Hs & Ho' & Hc); try done; [lia| | |].
  - eapply Forall_impl; [|exact Hf]. cbn. by intros m [_ ?]%andb_true_iff.
  - eapply Forall_impl; [|exact Hf]. cbn. intros m [Hn%negb_true_iff _]%andb_true_iff. apply list.Forall_forall.
    intros q Hq%list_elem_of_In. destruct (overlaps m q) eqn:E; [|done].
    rewrite (proj2 (existsb_exists _ _)) in Hn; [done|by exists q].
  - exists b'. split_and!; try done. unfold redact_pass. fold s. rewrite <- Hs.
    apply (replace_in_reverse (token_of t s) 0 (ranges t s) s Ho). lia.
Qed.

Lemma redact_passes_body ts b :
  Forall (fun t => t ∈ pii_patterns) ts → clean b →
  ∃ b', fold_left (redact_pass mac) ts (render b) = render b' ∧ original b' = original b ∧ clean b'.
Proof.
  induction ts as [|t ts IH] in b |- *; intros Hts Hb; [by exists b|]. apply Forall_cons_1 in Hts as [Ht Hts].
  destruct (redact_pass_body t b Ht Hb) as (b1 & Hs & Ho & Hc). cbn. rewrite Hs.
  destruct (IH b1 Hts Hc) as (b2 & -> & Ho2 & Hc2). exists b2. split_and!; [done|congruence|done].
Qed.

Lemma strip_unmarked s : unmarked s → strip_markers s = s.
Proof. induction 1 as [|c s Hc _ IH]; [done|]. unfold strip_markers in *. rewrite filter_cons_True by done. by rewrite IH. Qed.

Lemma strip_app s t : strip_markers (s ++ t) = strip_markers s ++ strip_markers t.
Proof. apply list.filter_app. Qed.

Lemma strip_is_unmarked s : unmarked (strip_markers s).
Proof. apply list.Forall_forall. by intros c [? _]%list_elem_of_filter. Qed.

Lemma strip_marked t : unmarked t → strip_markers (marked t) = t.
Proof.
  intros Ht. unfold marked. rewrite !strip_app, (strip_unmarked t) by done. apply app_nil_r.
Qed.

(** * The property *)

(** What the reader of the export sees of a text, part by part. *)
Inductive part := Plain (l : text) | Hidden (t : PiiType) (l : text).

Definition part_text (p : part) : text := match p with Plain l => l | Hidden _ l => l end.
Definition part_shown (p : part) : text := match p with Plain l => l | Hidden t l => pii_token t l end.

Definition part_justified (p : part) : Prop :=
  match p with Plain _ => True | Hidden t l => t ∈ pii_patterns ∧ checked t l = true end.

Definition parts_of (b : body) : list part :=
  mjoin ((fun x => [Plain x.1.1; Hidden x.1.2 x.2]) <$> pieces b) ++ [Plain (rest b)].

Lemma parts_of_clean b :
  clean b →
  mjoin (part_text <$> parts_of b) = original b ∧ mjoin (part_shown <$> parts_of b) = strip_markers (render b) ∧
  Forall part_justified (parts_of b).
Proof.
  destruct b as [xs last]. intros [Hx Hl]. unfold parts_of, original, render. cbn [pieces rest] in *.
  induction xs as [|x xs IH]; cbn [fmap list_fmap].
  - cbn. rewrite app_nil_r. split_and!; [done| |by repeat constructor]. by rewrite strip_unmarked.
  - apply Forall_cons_1 in Hx as [(Hp & Hq & Hck & Hin) Hx]. destruct (IH Hx) as (IH1 & IH2 & IH3).
    change (mjoin (?a :: ?l)) with (a ++ mjoin l). cbn [app fmap list_fmap].
    change (mjoin (?a :: ?l)) with (a ++ mjoin l). change (mjoin (?a :: ?l)) with (a ++ mjoin l). split_and!.
    + rewrite IH1. unfold original_piece at 2. by rewrite <- !app_assoc.
    + rewrite IH2. unfold render_piece at 2. rewrite <- !app_assoc, !strip_app, (strip_unmarked x.1.1) by done.
      cbn [part_shown]. do 2 f_equal. symmetry. apply strip_marked, pii_token_unmarked.
    + do 2 (constructor; [done|]). done.
Qed.
End Marked.

(** C11: The value patterns never rewrite a text beyond what they find. Whatever the regular expressions
    match, the redacted text is the text itself (without the two code points the redaction keeps for
    itself), cut into parts, where each part is either copied or replaced as a whole by the token of one of
    the pattern kinds made of exactly that part, which passed the check digits the kind asks for; a token
    is never matched, cut or replaced a second time by a later pattern, although all patterns run over the
    same text one after another. *)
Theorem redaction_replaces_parts `{Regex} (mac : bytes → bytes) (s : text) :
  ∃ ps : list part,
    mjoin (part_text <$> ps) = strip_markers s ∧ mjoin (part_shown mac <$> ps) = redact_pii mac s ∧
    Forall part_justified ps.
Proof.
  destruct (redact_passes_body mac pii_patterns {| pieces := []; rest := strip_markers s |}) as (b & Hs & Ho & Hc).
  - by apply list.Forall_forall.
  - split; [constructor|apply strip_is_unmarked].
  - exists (parts_of b). destruct (parts_of_clean mac b Hc) as (H1 & H2 & H3). split_and!; [by rewrite H1, Ho| |done].
    rewrite H2. unfold redact_pii, redact_pii_marked. f_equal. symmetry. exact Hs.
Qed.

(** * An instance of the patterns

    Runs of digits for the card numbers, nothing for the others: enough to run the redaction. *)

(** The runs of digits from character [i] on; [o] is where the run before [i] begins. *)
Fixpoint digit_runs (i : nat) (o : option nat) (s : text) : list span :=
  match s with
  | [] => match o with Some k => [(k, i)] | None => [] end
  | c :: s =>
      if is_ascii_digit c then digit_runs (S i) (Some (default i o)) s
      else match o with Some k => (k, i) :: digit_runs (S i) None s | None => digit_runs (S i) None s end
  end.

Lemma digit_runs_in_order i o s from :
  match o with Some k => (from <= k < i)%nat | None => (from <= i)%nat end →
  in_order from (i + length s) (digit_runs i o s).
Proof.
  induction s as [|c s IH] in i, o, from |- *; intros Ho; cbn [digit_runs length].
  - destruct o; cbn; [split; [lia|done]|done].
  - replace (i + S (length s))%nat with (S i + length s)%nat by lia.
    destruct (is_ascii_digit c).
    + apply IH. destruct o; cbn; lia.
    + destruct o as [k|]; [|apply IH; lia]. split; [cbn; lia|]. apply IH. cbn. lia.
Qed.

Definition digit_patterns : Regex.
Proof.
  refine {| find_iter p s := match p with CreditCard => digit_runs 0 None s | _ => [] end;
            captures_iter _ _ := [] |}; [|done].
  intros p s. destruct p; try done. apply (digit_runs_in_order 0 None s 0). lia.
Defined.

Definition some_mac (_ : bytes) : bytes := replicate 32 (byte_of_Z 171).

Example a_card_is_hidden :
  @redact_pii digit_patterns some_mac (clit "pay 4111111111111111, ref 4111111111111112") =
  clit "pay PII_CARD_abababababababababababababababab, ref 4111111111111112".
Proof. vm_compute. reflexivity. Qed.

Lemma redaction_replaces_parts_witness :
  ∃ ps : list part,
    mjoin (part_text <$> ps) = clit "pay 4111111111111111, ref 4111111111111112" ∧
    mjoin (part_shown some_mac <$> ps) =
      clit "pay PII_CARD_abababababababababababababababab, ref 4111111111111112" ∧
    Forall part_justified ps.
Proof.
  destruct (@redaction_replaces_parts digit_patterns some_mac (clit "pay 4111111111111111, ref 4111111111111112"))
    as (ps & H1 & H2 & H3).
  exists ps. split; [|split]; [rewrite H1; vm_compute; reflexivity|rewrite H2; vm_compute; reflexivity|exact H3].
Defined.
