(* ===== verification/SecretProps.v ===== *)
(** The rules of the redaction that do not depend on a pattern: the check digits, the spellings of names
    and the headers that carry credentials. *)

From S2P Require Import Prelude.
From S2P Require Import Pending Text Codecs CodecsProps Http1 Http1Framing Mcp Output Redaction.
From S2P Require Import RedactionProps.
From Stdlib Require Import Strings.String.

#[local] Notation length := List.length.
#[local] Open Scope list_scope.
#[local] Open Scope Z_scope.

(** * Check digits *)

(** The character of a digit. *)
Notation chr d := (48 + d).

Definition is_digit (d : Z) : Prop := 0 <= d < 10.

Lemma digit_spec c d : digit 10 c = Some d ↔ is_digit d ∧ c = chr d.
Proof. unfold digit, is_digit. repeat case_match; zbool; split; intros; simplify_eq; (lia || (f_equal; lia)). Qed.

Lemma digits_in_digits s : Forall is_digit (digits_in s).
Proof.
  unfold digits_in. apply list.Forall_forall. intros d (c & _ & Hd)%list_elem_of_omap. by apply digit_spec in Hd as [? _].
Qed.

Lemma digits_in_app s t : digits_in (s ++ t) = digits_in s ++ digits_in t.
Proof. apply omap_app. Qed.

Lemma digits_in_chr d s : is_digit d → digits_in (chr d :: s) = d :: digits_in s.
Proof. intros Hd. unfold digits_in. cbn [omap list_omap]. by rewrite (proj2 (digit_spec (chr d) d)). Qed.

Definition all_digits : list Z := [0; 1; 2; 3; 4; 5; 6; 7; 8; 9].

Lemma all_digits_spec d : is_digit d ↔ In d all_digits.
Proof. unfold is_digit, all_digits. cbn. lia. Qed.

(** ** Luhn *)

Lemma luhn_digit_ne double d d' : is_digit d → is_digit d' → d ≠ d' →
  0 <= luhn_digit double d < 10 ∧ 0 <= luhn_digit double d' < 10 ∧ luhn_digit double d ≠ luhn_digit double d'.
Proof. unfold luhn_digit, is_digit. intros ???. destruct double; repeat case_match; zbool; lia. Qed.

Lemma luhn_sum_middle double a d d' b :
  ∃ k, luhn_sum double (a ++ d' :: b) - luhn_sum double (a ++ d :: b) = luhn_digit k d' - luhn_digit k d.
Proof.
  induction a as [|x a IH] in double |- *; cbn; [exists double; lia|].
  destruct (IH (negb double)) as [k Hk]. exists k. lia.
Qed.

Lemma luhn_catches a d d' b :
  is_digit d → is_digit d' → d ≠ d' →
  luhn_check (a ++ chr d :: b) = true → luhn_check (a ++ chr d' :: b) = false.
Proof.
  intros Hd Hd' Hne. unfold luhn_check. rewrite !digits_in_app, !digits_in_chr by done.
  assert (zlen (digits_in a ++ d' :: digits_in b) = zlen (digits_in a ++ d :: digits_in b)) as ->.
  { unfold zlen. by rewrite !length_app. }
  case_match; [done|]. rewrite !reverse_app, !reverse_cons, <- !app_assoc. cbn [app].
  destruct (luhn_sum_middle false (reverse (digits_in b)) d d' (reverse (digits_in a))) as [k Hk].
  destruct (luhn_digit_ne k d d' Hd Hd' Hne) as (H1 & H2 & H3).
  intros Hs%Z.eqb_eq. apply Z.eqb_neq. intros Hs'. Z.div_mod_to_equations. lia.
Qed.

(** ** Verhoeff *)

Definition verhoeff_step (i c d : Z) : Z := at_ verhoeff_D c (at_ verhoeff_P (i mod 8) d).

Definition all3 (f : Z → Z → Z → bool) : bool :=
  forallb (fun i => forallb (fun c => forallb (f i c) all_digits) all_digits) [0; 1; 2; 3; 4; 5; 6; 7].

Lemma all3_spec f i c d : all3 f = true → is_digit c → is_digit d → f (i mod 8) c d = true.
Proof.
  intros Hf Hc%all_digits_spec Hd%all_digits_spec. unfold all3 in Hf.
  rewrite forallb_forall in Hf. specialize (Hf (i mod 8)). rewrite forallb_forall in Hf.
  assert (In (i mod 8) [0; 1; 2; 3; 4; 5; 6; 7]) as Hi by (pose proof (Z.mod_pos_bound i 8); cbn; lia).
  pose proof (Hf Hi c Hc) as Hf'. by rewrite forallb_forall in Hf'; apply Hf'.
Qed.

Definition step_of (i c d : Z) : Z := at_ verhoeff_D c (at_ verhoeff_P i d).

Lemma verhoeff_step_digit i c d : is_digit c → is_digit d → is_digit (verhoeff_step i c d).
Proof.
  intros Hc Hd. pose proof (all3_spec (fun i c d => (0 <=? step_of i c d) && (step_of i c d <? 10)) i c d
    ltac:(vm_compute; reflexivity) Hc Hd) as E. unfold is_digit. change (verhoeff_step i c d) with (step_of (i mod 8) c d).
  cbn beta in E. zbool. lia.
Qed.

Lemma verhoeff_step_inj_l i c c' d :
  is_digit c → is_digit c' → is_digit d → verhoeff_step i c d = verhoeff_step i c' d → c = c'.
Proof.
  intros Hc Hc' Hd He.
  pose proof (all3_spec (fun i c d => forallb (fun c' => negb (step_of i c d =? step_of i c' d) || (c =? c')) all_digits)
    i c d ltac:(vm_compute; reflexivity) Hc Hd) as E.
  cbn beta in E. rewrite forallb_forall in E. specialize (E c' (proj1 (all_digits_spec _) Hc')).
  change (step_of (i mod 8) c d) with (verhoeff_step i c d) in E.
  change (step_of (i mod 8) c' d) with (verhoeff_step i c' d) in E. rewrite He, Z.eqb_refl in E. cbn in E. by zbool.
Qed.

Lemma verhoeff_step_inj_r i c d d' :
  is_digit c → is_digit d → is_digit d' → verhoeff_step i c d = verhoeff_step i c d' → d = d'.
Proof.
  intros Hc Hd Hd' He.
  pose proof (all3_spec (fun i c d => forallb (fun d' => negb (step_of i c d =? step_of i c d') || (d =? d')) all_digits)
    i c d ltac:(vm_compute; reflexivity) Hc Hd) as E.
  cbn beta in E. rewrite forallb_forall in E. specialize (E d' (proj1 (all_digits_spec _) Hd')).
  change (step_of (i mod 8) c d) with (verhoeff_step i c d) in E.
  change (step_of (i mod 8) c d') with (verhoeff_step i c d') in E. rewrite He, Z.eqb_refl in E. cbn in E. by zbool.
Qed.

(** Two digits that changed places. *)
Lemma verhoeff_step_swap i c d d' :
  is_digit c → is_digit d → is_digit d' → d ≠ d' →
  verhoeff_step (i + 1) (verhoeff_step i c d) d' ≠ verhoeff_step (i + 1) (verhoeff_step i c d') d.
Proof.
  intros Hc Hd Hd' Hne He.
  pose proof (all3_spec (fun i c d => forallb (fun d' => (d =? d') ||
      negb (step_of ((i + 1) mod 8) (step_of i c d) d' =? step_of ((i + 1) mod 8) (step_of i c d') d)) all_digits)
    i c d ltac:(vm_compute; reflexivity) Hc Hd) as E.
  cbn beta in E. rewrite forallb_forall in E. specialize (E d' (proj1 (all_digits_spec _) Hd')).
  rewrite Zplus_mod_idemp_l in E. unfold verhoeff_step in He. fold (step_of (i mod 8) c d) (step_of (i mod 8) c d') in He.
  fold (step_of ((i + 1) mod 8) (step_of (i mod 8) c d) d') (step_of ((i + 1) mod 8) (step_of (i mod 8) c d') d) in He.
  rewrite He, Z.eqb_refl in E. zbool. lia.
Qed.

Lemma verhoeff_from_cons i c d ds : verhoeff_from i c (d :: ds) = verhoeff_from (i + 1) (verhoeff_step i c d) ds.
Proof. done. Qed.

Lemma verhoeff_from_inj i c c' ds :
  is_digit c → is_digit c' → Forall is_digit ds → verhoeff_from i c ds = verhoeff_from i c' ds → c = c'.
Proof.
  induction ds as [|d ds IH] in i, c, c' |- *; intros Hc Hc' Hds; [done|]. apply Forall_cons_1 in Hds as [Hd Hds].
  rewrite !verhoeff_from_cons. intros He. apply (verhoeff_step_inj_l i c c' d); try done.
  apply (IH (i + 1)); by try apply verhoeff_step_digit.
Qed.

(** Behind common digits, the two numbers are still in the same state. *)
Lemma verhoeff_from_app i c (a : list Z) :
  is_digit c → Forall is_digit a →
  ∃ j c', is_digit c' ∧ ∀ ds, verhoeff_from i c (a ++ ds) = verhoeff_from j c' ds.
Proof.
  induction a as [|d a IH] in i, c |- *; intros Hc Ha; [by exists i, c|]. apply Forall_cons_1 in Ha as [Hd Ha].
  destruct (IH (i + 1) (verhoeff_step i c d)) as (j & c' & Hc' & He); [by apply verhoeff_step_digit|done|].
  exists j, c'. split; [done|]. intros ds'. cbn [app]. rewrite verhoeff_from_cons. apply He.
Qed.

Lemma verhoeff_catches_digit a d d' b :
  is_digit d → is_digit d' → d ≠ d' →
  verhoeff_valid (a ++ chr d :: b) = true → verhoeff_valid (a ++ chr d' :: b) = false.
Proof.
  intros Hd Hd' Hne Hv%Z.eqb_eq. apply Z.eqb_neq. intros Hv'.
  rewrite digits_in_app, digits_in_chr, reverse_app, reverse_cons, <- app_assoc in Hv, Hv' by done.
  destruct (verhoeff_from_app 0 0 (reverse (digits_in b))) as (j & c & Hc & He);
    [done|apply Forall_reverse, digits_in_digits|].
  cbn [app] in Hv, Hv'. rewrite He, verhoeff_from_cons in Hv, Hv'. apply Hne.
  apply (verhoeff_step_inj_r j c); try done. apply (verhoeff_from_inj (j + 1) _ _ (reverse (digits_in a)));
    [by apply verhoeff_step_digit..|apply Forall_reverse, digits_in_digits|congruence].
Qed.

Lemma verhoeff_catches_swap a d d' sep b :
  is_digit d → is_digit d' → d ≠ d' → digits_in sep = [] →
  verhoeff_valid (a ++ chr d :: sep ++ chr d' :: b) = true →
  verhoeff_valid (a ++ chr d' :: sep ++ chr d :: b) = false.
Proof.
  intros Hd Hd' Hne Hsep Hv%Z.eqb_eq. apply Z.eqb_neq. intros Hv'.
  rewrite digits_in_app, digits_in_chr, digits_in_app, Hsep, digits_in_chr in Hv, Hv' by done. cbn [app] in Hv, Hv'.
  rewrite reverse_app, !reverse_cons, <- !app_assoc in Hv, Hv'.
  destruct (verhoeff_from_app 0 0 (reverse (digits_in b))) as (j & c & Hc & He);
    [done|apply Forall_reverse, digits_in_digits|].
  cbn [app] in Hv, Hv'. rewrite He, !verhoeff_from_cons in Hv, Hv'.
  apply (verhoeff_step_swap j c d d'); try done. symmetry.
  apply (verhoeff_from_inj (j + 1 + 1) _ _ (reverse (digits_in a)));
    [by repeat apply verhoeff_step_digit..|apply Forall_reverse, digits_in_digits|congruence].
Qed.

(** C34: The check digits tell numbers from look-alikes. A text that passes [luhn_check] (payment cards)
    or [verhoeff_valid] (Aadhaar numbers) fails it as soon as any one of its digits is another digit, and a
    text that passes [verhoeff_valid] also fails it as soon as two neighbouring, different digits change
    places, whatever the text has around and, for the swap, between them besides digits: the permutation
    and multiplication tables are those of a code that detects all these errors. *)
Theorem check_digits_catch_typos (a b sep : text) (d d' : Z) :
  is_digit d → is_digit d' → d ≠ d' → digits_in sep = [] →
  (luhn_check (a ++ chr d :: b) = true → luhn_check (a ++ chr d' :: b) = false) ∧
  (verhoeff_valid (a ++ chr d :: b) = true → verhoeff_valid (a ++ chr d' :: b) = false) ∧
  (verhoeff_valid (a ++ chr d :: sep ++ chr d' :: b) = true →
   verhoeff_valid (a ++ chr d' :: sep ++ chr d :: b) = false).
Proof.
  intros Hd Hd' Hne Hsep. split_and!; intros ?;
    [by apply (luhn_catches a d)|by apply (verhoeff_catches_digit a d)|by apply (verhoeff_catches_swap a d)].
Qed.

(** The numbers 4111 1111 1111 1111 and 2341 2341 2346. *)
Lemma check_digits_catch_typos_witness :
  luhn_check (clit "4111 1111 1111 1111") = true ∧ luhn_check (clit "4111 1111 1115 1111") = false ∧
  verhoeff_valid (clit "2341 2341 2346") = true ∧ verhoeff_valid (clit "2341 3241 2346") = false.
Proof.
  split; [reflexivity|]. split.
  - exact (proj1 (check_digits_catch_typos (clit "4111 1111 111") (clit " 1111") [] 1 5
      ltac:(unfold is_digit; lia) ltac:(unfold is_digit; lia) ltac:(lia) ltac:(reflexivity)) ltac:(reflexivity)).
  - split; [reflexivity|].
    exact (proj2 (proj2 (check_digits_catch_typos (clit "2341 ") (clit "41 2346") [] 2 3
      ltac:(unfold is_digit; lia) ltac:(unfold is_digit; lia) ltac:(lia) ltac:(reflexivity))) ltac:(reflexivity)).
Defined.

(** * Spellings of names *)

(** The short escapes of JSON and what they stand for. *)
Definition JSON_ESCAPES : list (Z * Z) :=
  [(34, 34); (92, 92); (47, 47); (98, 8); (102, 12); (110, 10); (114, 13); (116, 9)].

(** The number with these hexadecimal digits. *)
Definition hex_number (ds : list Z) : Z := fold_left (fun n d => n * 16 + d) ds 0.

(** Four hexadecimal digits of this number. *)
Definition hex_code (h1 h2 h3 h4 code : Z) : Prop :=
  ∃ ds, Forall2 (fun h d => digit 16 h = Some d) [h1; h2; h3; h4] ds ∧ code = hex_number ds.

(** The character of a surrogate pair. *)
Definition pair_char (high low : Z) : Z := 65536 + (high - 0xD800) * 0x400 + (low - 0xDC00).

(** [raw] between the quotes of a JSON string is the string [name]; [kept] is [name] without the characters
    beyond the first 65536 that [raw] writes as a pair of surrogates. *)
Inductive json_spelling : text → text → text → Prop :=
| js_end : json_spelling [] [] []
| js_char c raw kept name : c ≠ 92 → json_spelling raw kept name → json_spelling (c :: raw) (c :: kept) (c :: name)
| js_short e c raw kept name :
    (e, c) ∈ JSON_ESCAPES → json_spelling raw kept name → json_spelling (92 :: e :: raw) (c :: kept) (c :: name)
| js_code h1 h2 h3 h4 code raw kept name :
    hex_code h1 h2 h3 h4 code → scalar code → json_spelling raw kept name →
    json_spelling (92 :: 117 :: h1 :: h2 :: h3 :: h4 :: raw) (code :: kept) (code :: name)
| js_pair h1 h2 h3 h4 l1 l2 l3 l4 high low raw kept name :
    hex_code h1 h2 h3 h4 high → hex_code l1 l2 l3 l4 low → 0xD800 <= high <= 0xDBFF → 0xDC00 <= low <= 0xDFFF →
    json_spelling raw kept name →
    json_spelling (92 :: 117 :: h1 :: h2 :: h3 :: h4 :: 92 :: 117 :: l1 :: l2 :: l3 :: l4 :: raw)
      kept (pair_char high low :: name).

(** [raw] in a form is the field name [name], byte for byte. *)
Inductive form_spelling : bytes → bytes → Prop :=
| fs_end : form_spelling [] []
| fs_byte b raw name :
    byte_val b ≠ 37 → byte_val b ≠ 43 → form_spelling raw name → form_spelling (b :: raw) (b :: name)
| fs_space p b raw name :
    byte_val p = 43 → byte_val b = 32 → form_spelling raw name → form_spelling (p :: raw) (b :: name)
| fs_code p h l b d e raw name :
    byte_val p = 37 → digit 16 (byte_val h) = Some d → digit 16 (byte_val l) = Some e →
    byte_val b = 16 * d + e → form_spelling raw name → form_spelling (p :: h :: l :: raw) (b :: name).

Lemma JSON_ESCAPES_spec e c : (e, c) ∈ JSON_ESCAPES → short_escape e = Some c ∧ e ≠ 117.
Proof.
  intros He. assert (Forall (fun x => short_escape x.1 = Some x.2 ∧ x.1 ≠ 117) JSON_ESCAPES) as Hall
    by (repeat constructor; done).
  by apply (proj1 (list.Forall_forall _ _) Hall (e, c)).
Qed.

Lemma digit_16_bounds c d : digit 16 c = Some d → 0 <= d < 16.
Proof. unfold digit. repeat case_match; zbool; intros; simplify_eq; lia. Qed.

Lemma lor_nibbles d e : 0 <= d < 16 → 0 <= e < 16 → Z.lor (Z.shiftl d 4) e = 16 * d + e.
Proof. intros Hd He. rewrite Z.shiftl_mul_pow2, lor_shift by lia. lia. Qed.

Lemma read_hex_code h1 h2 h3 h4 code s : hex_code h1 h2 h3 h4 code → read_hex 4 0 (h1 :: h2 :: h3 :: h4 :: s) = (Some code, s).
Proof.
  intros (ds & Hds & ->). repeat (apply Forall2_cons_inv_l in Hds as (? & ? & Hd & Hds & ->); revert Hd).
  apply Forall2_nil_inv_l in Hds as ->. intros H4 H3 H2 H1. cbn [read_hex]. by rewrite H1, H2, H3, H4.
Qed.

Lemma from_u32_scalar code : scalar code → from_u32 code = Some code.
Proof.
  unfold from_u32. intros [Hc|Hc].
  - by rewrite (proj2 (Z.leb_gt 55296 _)) by lia.
  - by rewrite (proj2 (Z.leb_gt _ 57343)), andb_false_r by lia.
Qed.

Lemma from_u32_surrogate code : 0xD800 <= code <= 0xDFFF → from_u32 code = None.
Proof. intros Hc. unfold from_u32. by rewrite !(proj2 (Z.leb_le _ _)) by lia. Qed.

(** One backslash-u code. *)
Lemma json_unescape_code fuel h1 h2 h3 h4 code s :
  hex_code h1 h2 h3 h4 code →
  json_unescape (S fuel) (92 :: 117 :: h1 :: h2 :: h3 :: h4 :: s) = option_list (from_u32 code) ++ json_unescape fuel s.
Proof.
  intros Hc. cbn [json_unescape]. change (92 =? 92) with true. cbn [negb]. change (short_escape 117) with (@None Z).
  cbn iota. change (117 =? 117) with true. rewrite read_hex_code with (code := code) by done. cbn [mbind option_bind].
  by destruct (from_u32 code).
Qed.

Lemma json_unescape_spelling raw kept name fuel :
  json_spelling raw kept name → (length raw <= fuel)%nat → json_unescape fuel raw = kept.
Proof.
  intros Hs. induction Hs as [|c raw kept name Hc _ IH|e c raw kept name He _ IH|h1 h2 h3 h4 code raw kept name Hh Hc _ IH|
      h1 h2 h3 h4 l1 l2 l3 l4 high low raw kept name Hh Hl Hhi Hlo _ IH]
    in fuel |- *; intros Hf; destruct fuel as [|fuel]; cbn [length] in Hf; try lia; [done|done|..].
  - cbn [json_unescape]. rewrite (proj2 (Z.eqb_neq c 92)) by done. cbn. f_equal. apply IH. lia.
  - cbn [json_unescape]. change (92 =? 92) with true. cbn [negb]. destruct (JSON_ESCAPES_spec e c He) as [-> _].
    f_equal. apply IH. lia.
  - rewrite (json_unescape_code fuel h1 h2 h3 h4 code raw), from_u32_scalar by done. cbn. f_equal. apply IH. lia.
  - destruct fuel as [|fuel]; [lia|].
    rewrite (json_unescape_code (S fuel) h1 h2 h3 h4 high _), (from_u32_surrogate high) by (done || lia). cbn [option_list app].
    rewrite (json_unescape_code fuel l1 l2 l3 l4 low raw), (from_u32_surrogate low) by (done || lia). apply IH. lia.
Qed.

(** ** What is lost with the pairs *)

(** The second text is the first without some characters beyond 65535. *)
Inductive thin : text → text → Prop :=
| thin_end : thin [] []
| thin_keep c a b : thin a b → thin (c :: a) (c :: b)
| thin_drop c a b : 65536 <= c → thin a b → thin (c :: a) b.

Definition low_text (s : text) : Prop := Forall (fun c => c < 65536) s.

Lemma json_spelling_thin raw kept name : json_spelling raw kept name → thin name kept.
Proof. induction 1; try by constructor. constructor; [|done]. unfold pair_char. lia. Qed.

Lemma thin_low a b : thin a b → low_text a → b = a.
Proof.
  induction 1 as [|c a b _ IH|c a b Hc _ IH]; intros Hl; [done|..]; apply Forall_cons_1 in Hl as [? Hl]; [by rewrite IH|lia].
Qed.

Lemma thin_dropped d a b : Forall (fun c => 65536 <= c) d → thin a b → thin (d ++ a) b.
Proof. intros Hd Ha. induction Hd; [done|]. by apply thin_drop. Qed.

Lemma thin_kept d a b : thin a b → thin (d ++ a) (d ++ b).
Proof. intros Ha. induction d; [done|]. by apply thin_keep. Qed.

Lemma thin_prefix p a b : low_text p → thin a b → starts_with p a = true → starts_with p b = true.
Proof.
  unfold starts_with. rewrite !bool_decide_eq_true. intros Hp Ha. induction Hp as [|c p Hc _ IH] in a, b, Ha |- *; [done|].
  inversion Ha; subst; cbn; [done|..]; intros [= -> Ht]; [|lia]. f_equal. by eapply IH.
Qed.

Lemma contains_unfold (p : text) c s : contains p (c :: s) = starts_with p (c :: s) || contains p s.
Proof. done. Qed.

Lemma contains_nil (p : text) : contains p [] = starts_with p [].
Proof. cbn. by rewrite orb_false_r. Qed.

Lemma starts_contains (p s : text) : starts_with p s = true → contains p s = true.
Proof. intros Hs. destruct s as [|c s]; [by rewrite contains_nil|]. by rewrite contains_unfold, Hs. Qed.

Lemma thin_contains p a b : low_text p → thin a b → contains p a = true → contains p b = true.
Proof.
  intros Hp. induction 1 as [|c a b Ha IH|c a b Hc Ha IH]; [done|..]; rewrite contains_unfold; intros [Hs|Hs]%orb_prop.
  - apply starts_contains. eapply thin_prefix; [done|by apply thin_keep|done].
  - by rewrite contains_unfold, IH, orb_true_r.
  - apply starts_contains. eapply thin_prefix; [done|by apply thin_drop|done].
  - by apply IH.
Qed.

(** Characters beyond 65535 have lower-case forms beyond 65535. *)
Definition high_case `{CharCase} : Prop :=
  ∀ c, 65536 <= c → char_to_lowercase c ≠ [] ∧ Forall (fun x => 65536 <= x) (char_to_lowercase c).

Lemma normalise_cons `{CharCase} c s :
  normalise_name (c :: s) =
  (if existsb (Z.eqb c) [45; 95; 46; 91; 93] then [] else char_to_lowercase c) ++ normalise_name s.
Proof. unfold normalise_name. rewrite filter_cons. case_decide as Hd; [by rewrite Hd|]. by destruct (existsb _ _). Qed.

Lemma thin_normalise `{CharCase} a b : high_case → thin a b → thin (normalise_name a) (normalise_name b).
Proof.
  intros Hh. induction 1 as [|c a b _ IH|c a b Hc _ IH]; [apply thin_end|..]; rewrite !normalise_cons.
  - by apply thin_kept.
  - apply thin_dropped; [|done]. case_match; [done|]. by apply Hh.
Qed.

Lemma low_lists (ps : list text) p : forallb (forallb (fun c => c <? 65536)) ps = true → p ∈ ps → low_text p.
Proof.
  intros Hps Hp. rewrite forallb_forall in Hps. specialize (Hps p (proj1 (list_elem_of_In _ _) Hp)).
  apply list.Forall_forall. intros c Hc. rewrite forallb_forall in Hps. apply Z.ltb_lt, Hps. by apply list_elem_of_In.
Qed.

(** A sensitive name stays one when it loses such characters. *)
Lemma thin_sensitive `{CharCase} name kept :
  high_case → thin name kept → is_sensitive_name name = true → is_sensitive_name kept = true.
Proof.
  intros Hh Ht. pose proof (thin_normalise name kept Hh Ht) as Hn. unfold is_sensitive_name.
  intros [Hne [He|Hp]%orb_prop]%andb_prop.
  - apply existsb_exists in He as (p & Hp & He). apply bool_decide_eq_true in He.
    rewrite (thin_low _ _ Hn), Hne; [|rewrite He; by apply (low_lists SECRET_NAME_EXACT), list_elem_of_In].
    apply andb_true_intro. split; [done|]. apply orb_true_intro. left. apply existsb_exists. exists p.
    by rewrite bool_decide_eq_true.
  - apply existsb_exists in Hp as (p & Hp & Hc). apply list_elem_of_In in Hp.
    apply (thin_contains p _ _ (low_lists SECRET_NAME_PARTS p eq_refl Hp) Hn) in Hc.
    apply andb_true_intro. split; [|apply orb_true_intro; right; apply existsb_exists; exists p; by rewrite <- list_elem_of_In].
    rewrite negb_true_iff, bool_decide_eq_false. intros He. rewrite He, contains_nil in Hc. apply bool_decide_eq_true in Hc. cbn in Hc.
    rewrite take_nil in Hc. subst p. revert Hp. refine (bool_decide_eq_false_1 _ _). reflexivity.
Qed.

Lemma percent_decode_spelling raw name : form_spelling raw name → percent_decode raw = name.
Proof.
  induction 1 as [|b raw name Hp Hs _ IH|p b raw name Hp Hb _ IH|p h l b d e raw name Hp Hh Hl Hb _ IH];
    cbn [percent_decode]; [done|..].
  - rewrite (proj2 (Z.eqb_neq _ 37)), (proj2 (Z.eqb_neq _ 43)) by done. by rewrite IH.
  - rewrite Hp. change (43 =? 37) with false. change (43 =? 43) with true. cbn iota. rewrite IH. f_equal.
    rewrite <- Hb. apply byte_of_Z_val.
  - rewrite Hp. change (37 =? 37) with true. cbn iota. unfold hex_val. rewrite Hh, Hl, IH. f_equal.
    pose proof (digit_16_bounds _ _ Hh). pose proof (digit_16_bounds _ _ Hl).
    by rewrite <- (byte_of_Z_val b), Hb, lor_nibbles.
Qed.

Lemma from_utf8_lossy_utf8 cs : Forall scalar cs → from_utf8_lossy (utf8 cs) = cs.
Proof. intros Hcs. rewrite <- (app_nil_r (utf8 cs)), from_utf8_lossy_app by done. apply app_nil_r. Qed.

(** C19: The escapes of a name that a pattern has captured do not hide it from the rules for names. Take any JSON
    string (characters as they are, the short escapes, backslash-u codes in either case of the digits, and pairs of
    them for a character beyond 65535): [canonical_field_name] gives the string it stands for without the
    characters written as pairs, which is the string itself when it has no character beyond 65535, and
    which is a sensitive name whenever the string is one (as long as the lower case of a character
    beyond 65535 is made of such characters, which is so in Unicode). For a form field, whose characters may be
    escaped in that way and then written with percent codes and with plus signs for blanks, in any mixture,
    it gives the field name, in any script. This is about the name a pattern captures: a name the patterns do not
    match (they stop at 100 characters, a backslash with the next one counting as one) is not looked at. *)
Theorem names_cannot_be_disguised `{CharCase} (raw kept name field : text) :
  json_spelling raw kept name →
  canonical_field_name raw false = kept ∧
  (low_text name → kept = name) ∧
  (high_case → is_sensitive_name name = true → is_sensitive_name (canonical_field_name raw false) = true) ∧
  (Forall scalar field → form_spelling (utf8 kept) (utf8 field) → canonical_field_name raw true = field).
Proof.
  intros Hj. pose proof (json_spelling_thin _ _ _ Hj) as Ht. unfold canonical_field_name, json_unescape_name.
  rewrite (json_unescape_spelling raw kept name) by done. split_and!; [done|by apply thin_low|intros ?; by apply thin_sensitive|].
  intros Hn Hf. unfold percent_decode_name. rewrite (percent_decode_spelling _ _ Hf). by apply from_utf8_lossy_utf8.
Qed.

(** Lower case of ASCII, for the examples. *)
Definition ascii_case : CharCase.
Proof. refine {| char_to_lowercase c := [ascii_lower c] |}. done. Defined.

(** [my_p\u0061ssword] with a smiling face behind it is sensitive, and [p\u0061ss%77ord] is [password]. *)
Lemma names_cannot_be_disguised_witness :
  @is_sensitive_name ascii_case (canonical_field_name (clit "my_p\u0061ssword\uD83D\uDE00") false) = true ∧
  canonical_field_name (clit "p\u0061ss%77ord") true = clit "password".
Proof.
  assert (hex_code 48 48 54 49 97) as Ha by (exists [0; 0; 6; 1]; split; [repeat constructor|reflexivity]).
  assert (hex_code 68 56 51 68 0xD83D) as Hh by (exists [13; 8; 3; 13]; split; [repeat constructor|reflexivity]).
  assert (hex_code 68 69 48 48 0xDE00) as Hl by (exists [13; 14; 0; 0]; split; [repeat constructor|reflexivity]).
  split.
  - refine (proj1 (proj2 (proj2 (@names_cannot_be_disguised ascii_case _ (clit "my_password") (clit "my_password" ++ [0x1F600]) [] _))) _ _).
    + vm_compute. do 4 (apply js_char; [done|]).
      apply (js_code 48 48 54 49 97); [exact Ha|left; split; [intros E; discriminate E|reflexivity]|].
      do 6 (apply js_char; [done|]).
      refine (js_pair 68 56 51 68 68 69 48 48 0xD83D 0xDE00 [] [] [] Hh Hl _ _ js_end); lia.
    + intros c Hc. cbn. assert (ascii_lower c = c) as -> by (unfold ascii_lower; case_match; zbool; lia).
      split; [done|]. by apply Forall_cons; [|apply Forall_nil].
    + reflexivity.
  - refine (proj2 (proj2 (proj2 (@names_cannot_be_disguised ascii_case _ (clit "pass%77ord") (clit "pass%77ord") (clit "password") _))) _ _).
    + vm_compute. apply js_char; [done|].
      apply (js_code 48 48 54 49 97); [exact Ha|left; split; [intros E; discriminate E|reflexivity]|].
      repeat (apply js_char; [done|]). apply js_end.
    + change (clit "password") with [112; 97; 115; 115; 119; 111; 114; 100].
      do 8 (apply Forall_cons; [left; lia|]). apply Forall_nil.
    + vm_compute. do 4 (apply fs_byte; [done..|]).
      apply (fs_code _ _ _ _ 7 7); [reflexivity..|]. repeat (apply fs_byte; [done..|]). apply fs_end.
Defined.

(** * Cookies *)

(** The text has none of these characters. *)
Definition free_of (cs s : text) : Prop := Forall (fun c => c ∉ cs) s.

Lemma split_on_free sep s : sep ∉ s → split_on sep s = [s].
Proof.
  induction s as [|c s IH]; [done|]. rewrite not_elem_of_cons. intros [Hc Hs]. cbn [split_on].
  rewrite (proj2 (Z.eqb_neq c sep)) by done. by rewrite IH.
Qed.

Lemma join_text_cons sep s t l : join_text sep (s :: t :: l) = s ++ sep ++ join_text sep (t :: l).
Proof. done. Qed.

(** Joined texts are split again where they were joined. *)
Lemma split_on_join_text sep l :
  l ≠ [] → Forall (fun s => sep ∉ s) l → split_on sep (join_text [sep] l) = l.
Proof.
  intros Hl Hf. destruct l as [|s l]; [done|]. clear Hl. induction l as [|t l IH] in s, Hf |- *;
    apply Forall_cons_1 in Hf as [Hs Hf]; [by apply split_on_free|].
  rewrite join_text_cons. cbn [app]. by rewrite split_on_app, split_on_free, IH by done.
Qed.

Lemma split_once_first sep a b : sep ∉ a → split_once sep (a ++ sep :: b) = Some (a, b).
Proof.
  induction a as [|c a IH]; cbn [app split_once]; [by rewrite Z.eqb_refl|]. rewrite not_elem_of_cons. intros [Hc Ha].
  rewrite (proj2 (Z.eqb_neq c sep)) by done. by rewrite IH.
Qed.

Lemma trim_start_keeps c s : is_whitespace c = false → c ∈ s → c ∈ trim_start s.
Proof.
  intros Hc. induction s as [|x s IH]; cbn [trim_start]; [done|]. case_match eqn:E; [|done].
  intros [->|Hs]%elem_of_cons; [congruence|auto].
Qed.

(** Only white space is trimmed away. *)
Lemma trim_keeps c s : is_whitespace c = false → c ∈ s → trim s ≠ [].
Proof.
  intros Hc Hs E. apply (not_elem_of_nil c). rewrite <- E. unfold trim.
  apply elem_of_reverse, trim_start_keeps; [done|]. by apply elem_of_reverse, trim_start_keeps.
Qed.

Section Cookies.
Context `{Regex, CharCase} (mac : bytes → bytes).

Definition MARKS : text := [MARK_OPEN; MARK_CLOSE].

Lemma free_not c cs s : c ∈ cs → free_of cs s → c ∉ s.
Proof. intros Hc Hs Hin. by apply (proj1 (list.Forall_forall _ _) Hs c Hin). Qed.

Lemma free_unmarked cs s : MARKS ⊆ cs → free_of cs s → unmarked s.
Proof.
  intros Hm Hs. eapply list.Forall_impl; [exact Hs|]. cbn. intros c Hc. unfold is_mark. apply orb_false_iff.
  split; apply Z.eqb_neq; intros ->; apply Hc, Hm; [by left|by right; left].
Qed.

Lemma strip_join_text sep l : unmarked sep → strip_markers (join_text sep l) = join_text sep (strip_markers <$> l).
Proof.
  intros Hsep. induction l as [|s l IH]; [done|]. destruct l as [|t l]; [done|].
  rewrite join_text_cons, !strip_app, IH, (strip_unmarked sep Hsep). done.
Qed.

Lemma strip_secret_token v : strip_markers (secret_token mac v) = pii_token mac Secret v.
Proof. apply strip_marked, pii_token_unmarked. Qed.

(** A cookie as the client sends it, and as it is exported. *)
Definition cookie_sent (c : text * text) : text := c.1 ++ clit "=" ++ c.2.
Definition cookie_shown (c : text * text) : text := c.1 ++ clit "=" ++ pii_token mac Secret (trim c.2).

Definition cookie_ok (c : text * text) : Prop :=
  free_of ([61; 59; 10] ++ MARKS) c.1 ∧ free_of ([59; 10] ++ MARKS) c.2 ∧ trim c.2 ≠ [].

Lemma cookie_sent_free sep c : sep ∈ [59; 10] → cookie_ok c → sep ∉ cookie_sent c.
Proof.
  intros Hsep (Hn & Hv & _). unfold cookie_sent. rewrite !not_elem_of_app. split_and!.
  - apply (free_not sep _ _ ltac:(apply elem_of_app; left; by right) Hn).
  - intros ->%list_elem_of_singleton. by apply elem_of_cons in Hsep as [?|?%list_elem_of_singleton].
  - apply (free_not sep _ _ ltac:(apply elem_of_app; by left) Hv).
Qed.

Lemma cookie_sent_unmarked c : cookie_ok c → unmarked (cookie_sent c).
Proof.
  intros (Hn & Hv & _). repeat apply Forall_app_2; [|by repeat constructor|].
  - apply (free_unmarked ([61; 59; 10] ++ MARKS)); [set_solver|done].
  - apply (free_unmarked ([59; 10] ++ MARKS)); [set_solver|done].
Qed.

Lemma cookie_pair_shown c : cookie_ok c → strip_markers (cookie_pair mac true (cookie_sent c)) = cookie_shown c.
Proof.
  intros (Hn & Hv & Ht). unfold cookie_pair, cookie_sent. change (clit "=") with [61]. cbn [app].
  rewrite split_once_first by (apply (free_not 61 _ _ ltac:(by left) Hn)).
  rewrite bool_decide_eq_false_2 by done. cbn [negb andb orb].
  change (strip_markers (c.1 ++ [61] ++ secret_token mac (trim c.2)) = c.1 ++ [61] ++ pii_token mac Secret (trim c.2)).
  rewrite (strip_app c.1), (strip_app [61] (secret_token mac (trim c.2))), strip_secret_token.
  f_equal. apply strip_unmarked.
  apply (free_unmarked ([61; 59; 10] ++ MARKS)); [set_solver|done].
Qed.

Lemma cookies_shown cs :
  Forall cookie_ok cs → cs ≠ [] →
  let line := join_text [59] (cookie_sent <$> cs) in
  trim line ≠ [] ∧ 10 ∉ line ∧ unmarked line ∧
  strip_markers (cookie_pairs mac line true) = join_text [59] (cookie_shown <$> cs).
Proof.
  intros Hok Hne line.
  assert (Forall (fun s => 59 ∉ s) (cookie_sent <$> cs)) as Hf.
  { apply Forall_fmap. eapply list.Forall_impl; [exact Hok|]. intros c Hc. by apply cookie_sent_free; [left|]. }
  assert (split_on 59 line = cookie_sent <$> cs) as Hsp by (apply split_on_join_text; [by destruct cs|done]).
  assert (61 ∈ line ∧ 10 ∉ line ∧ unmarked line) as (Heq & Hnl & Hum).
  { subst line. clear Hf Hsp. induction Hok as [|c cs Hc Hok IH]; [done|].
    assert (61 ∈ cookie_sent c ∧ 10 ∉ cookie_sent c ∧ unmarked (cookie_sent c)) as (H1 & H2 & H3).
    { split_and!; [| |].
      - apply elem_of_app; right. by left.
      - apply cookie_sent_free; [by right; left|done].
      - by apply cookie_sent_unmarked. }
    destruct cs as [|c' cs]; [done|]. destruct (IH ltac:(done)) as (_ & IH2 & IH3).
    rewrite !fmap_cons, join_text_cons, <- fmap_cons. split_and!.
    - apply elem_of_app. by left.
    - rewrite !not_elem_of_app. split_and!; [done|by intros ?%list_elem_of_singleton|done].
    - apply Forall_app_2; [done|]. apply Forall_app_2; [by repeat constructor|done]. }
  split_and!; [by apply (trim_keeps 61)|done|done|].
  unfold cookie_pairs. rewrite Hsp, strip_join_text by (by repeat constructor). f_equal.
  rewrite <- !list_fmap_compose. apply list_fmap_ext. intros i c Hi. apply cookie_pair_shown.
  by apply (Forall_lookup_1 _ _ _ _ Hok Hi).
Qed.
End Cookies.

Lemma cookie_lines_shown `{Regex, CharCase} (mac : bytes → bytes) (name : text) (lines : list (list (text * text))) :
  to_ascii_lowercase name = clit "cookie" →
  lines ≠ [] → Forall (fun cs => cs ≠ [] ∧ Forall cookie_ok cs) lines →
  redact_header_value mac name (join_text [10] ((fun cs => join_text [59] (cookie_sent <$> cs)) <$> lines)) =
  join_text [10] ((fun cs => join_text [59] (cookie_shown mac <$> cs)) <$> lines).
Proof.
  intros Hname Hne Hok. unfold redact_header_value. rewrite Hname.
  assert (Forall (fun l => 10 ∉ l ∧ unmarked l) ((fun cs => join_text [59] (cookie_sent <$> cs)) <$> lines)) as Hl.
  { apply Forall_fmap. eapply list.Forall_impl; [exact Hok|]. intros cs [Hcs Hcok].
    destruct (cookies_shown mac cs Hcok Hcs) as (_ & H1 & H2 & _). done. }
  rewrite (strip_join_text [10] ((fun cs => join_text [59] (cookie_sent <$> cs)) <$> lines)) by (by repeat constructor).
  assert (strip_markers <$> ((fun cs => join_text [59] (cookie_sent <$> cs)) <$> lines) =
          (fun cs => join_text [59] (cookie_sent <$> cs)) <$> lines) as ->.
  { rewrite <- list_fmap_id. apply list_fmap_ext. intros i l Hi. apply strip_unmarked.
    by apply (Forall_lookup_1 _ _ _ _ Hl Hi). }
  rewrite split_on_join_text; [|by destruct lines|by eapply list.Forall_impl; [exact Hl|intros ? []]].
  rewrite strip_join_text by (by repeat constructor). f_equal. rewrite <- !list_fmap_compose.
  apply list_fmap_ext. intros i cs Hi. destruct (Forall_lookup_1 _ _ _ _ Hok Hi) as [Hcs Hcok].
  destruct (cookies_shown mac cs Hcok Hcs) as (Ht & _ & _ & Hs). unfold redact_header_line. cbn [compose].
  rewrite bool_decide_eq_false_2 by done.
  change (bool_decide (clit "cookie" = clit "authorization")) with false.
  change (bool_decide (clit "cookie" = clit "proxy-authorization")) with false.
  change (bool_decide (clit "cookie" = clit "cookie")) with true. done.
Qed.

(** C35: No cookie value is exported. For a [Cookie] header in any spelling of its name, of any number of
    lines and cookies with a name, an equals sign and a value each, the exported header is the one sent, cookie by
    cookie in the same order, with every value replaced by its token (the keyed hash of the value without
    the white space around it), however harmless the name looks; nothing else of the header changes. *)
Theorem cookie_values_hidden `{Regex, CharCase} (mac : bytes → bytes) (name : text) (lines : list (list (text * text))) :
  to_ascii_lowercase name = clit "cookie" →
  lines ≠ [] → Forall (fun cs => cs ≠ [] ∧ Forall cookie_ok cs) lines →
  redact_header_value mac name (join_text [10] ((fun cs => join_text [59] (cookie_sent <$> cs)) <$> lines)) =
  join_text [10] ((fun cs => join_text [59] (cookie_shown mac <$> cs)) <$> lines).
Proof. apply cookie_lines_shown. Qed.

Lemma cookie_values_hidden_witness :
  @redact_header_value digit_patterns ascii_case some_mac (clit "Cookie") (clit "theme=dark; id=7") =
  clit "theme=PII_SECRET_abababababababababababababababab; id=PII_SECRET_abababababababababababababababab".
Proof.
  refine (@cookie_values_hidden digit_patterns ascii_case some_mac (clit "Cookie")
    [[(clit "theme", clit "dark"); (clit " id", clit "7")]] _ _ _); [reflexivity|done|].
  apply Forall_cons; [|apply Forall_nil]. split; [done|].
  apply Forall_cons; [|apply Forall_cons; [|apply Forall_nil]];
    (split; [|split; [|vm_compute; intros E; discriminate E]]); unfold free_of; refine (bool_decide_unpack _ _); vm_compute; exact I.
Defined.

(** A cookie without an equals sign is exported as it is. *)
Lemma bare_cookie_is_exported :
  @redact_header_value digit_patterns ascii_case some_mac (clit "Cookie") (clit "9f86d081884c7d65; a=1") =
  clit "9f86d081884c7d65; a=PII_SECRET_abababababababababababababababab".
Proof. vm_compute. reflexivity. Qed.
