(* ===== verification/Identity.v ===== *)
(** Who made a request, as far as its headers say: [userspace/src/identity.rs].

    The JSON parser and printer are the class [Json] of [Mcp]; nothing is verified, as in the code.
    At the end: the base64 coder of the export and the decoder of the tokens invert each other. *)

From S2P Require Import Prelude Pending Text Http1 Codecs CodecsProps Mcp Output Redaction.
From Stdlib Require Import Strings.String.

#[local] Notation length := List.length.
#[local] Open Scope list_scope.
#[local] Open Scope Z_scope.

Record IdentityInfo := {
  ii_user_id : text;
  ii_user_role : text;
  ii_session_id : text;
  ii_auth_session_id : text
}.

#[export] Instance IdentityInfo_fields : Fields IdentityInfo := fun i =>
  Build_IdentityInfo (ii_user_id i) (ii_user_role i) (ii_session_id i) (ii_auth_session_id i).

(** * base64 *)

Definition b64val (c : Z) : option Z :=
  if (65 <=? c) && (c <=? 90) then Some (c - 65)
  else if (97 <=? c) && (c <=? 122) then Some (c - 97 + 26)
  else if (48 <=? c) && (c <=? 57) then Some (c - 48 + 52)
  else if c =? 43 then Some 62
  else if c =? 47 then Some 63
  else if c =? 61 then Some 0
  else None.

(** The loop over groups of four characters; what is left at the end is not read. *)
Fixpoint decode_groups (s : bytes) : option bytes :=
  match s with
  | c0 :: c1 :: c2 :: c3 :: s =>
      a ← b64val (byte_val c0); b ← b64val (byte_val c1); c ← b64val (byte_val c2); d ← b64val (byte_val c3);
      out ← decode_groups s;
      Some ([byte_of_Z (Z.lor (u8 (Z.shiftl a 2)) (Z.shiftr b 4))]
            ++ (if byte_val c2 =? 61 then [] else [byte_of_Z (Z.lor (u8 (Z.shiftl b 4)) (Z.shiftr c 2))])
            ++ (if byte_val c3 =? 61 then [] else [byte_of_Z (Z.lor (u8 (Z.shiftl c 6)) d)])
            ++ out)
  | _ => Some []
  end.

Definition url_to_standard (b : byte) : byte :=
  if byte_val b =? 45 then "+"%byte else if byte_val b =? 95 then "/"%byte else b.

Definition base64url_decode (input : bytes) : option bytes :=
  let s := url_to_standard <$> input in
  let padding := if zlen s mod 4 =? 2 then lit "==" else if zlen s mod 4 =? 3 then lit "=" else [] in
  decode_groups (s ++ padding).

(** * Claims *)

Definition is_base64url_char (c : Z) : bool :=
  ((48 <=? c) && (c <=? 57)) || ((65 <=? c) && (c <=? 90)) || ((97 <=? c) && (c <=? 122))
  || (c =? 45) || (c =? 95) || (c =? 61).

Fixpoint skip_while (p : Z → bool) (s : text) : text :=
  match s with c :: s' => if p c then skip_while p s' else s | [] => [] end.

Definition trim_end_matches (p : Z → bool) (s : text) : text := reverse (skip_while p (reverse s)).

(** The part of a token between its first two dots. *)
Definition jwt_payload (token : text) : option text :=
  '(_, rest) ← split_once 46 token;
  Some (match split_once 46 rest with Some (payload, _) => payload | None => rest end).

(** The value of the first of these names that is there. *)
Definition first_claim (names : list text) (claims : list (text * json)) : option json :=
  list_find (fun v => is_Some v) ((fun k => member k claims) <$> names) ≫= snd.

Definition USER_CLAIMS : list text := [clit "sub"; clit "user_id"; clit "uid"; clit "userId"; clit "email"].
Definition ROLE_CLAIMS : list text := [clit "role"; clit "roles"; clit "scope"; clit "groups"].
Definition USER_HEADERS : list bytes := [lit "x-user-id"; lit "x-userid"; lit "x-uid"; lit "user-id"].
Definition ROLE_HEADERS : list bytes := [lit "x-user-role"; lit "x-role"; lit "x-roles"].

Definition SESSION_KEYS : list text :=
  [clit "sessionid"; clit "session"; clit "jsessionid"; clit "phpsessid"; clit "sid"; clit "auth_session";
   clit "asid"; clit "connect.sid"].

Section Identity.
Context `{Unicode, Json} (mac : bytes → bytes).

Definition decode_jwt_payload (token : text) : option (list (text * json)) :=
  payload ← jwt_payload token;
  decoded ← base64url_decode (utf8 (trim_end_matches (fun c => negb (is_base64url_char c)) payload));
  match from_slice decoded with Some (JObject kvs) => Some kvs | _ => None end.

Definition json_value_to_role_string (v : json) : text :=
  match v with
  | JString s => s
  | JArray arr => join_text (clit ",") (omap as_str arr)
  | other => json_text other
  end.

(** A claim that is a string and not empty, or what was there. *)
Definition string_claim (v : option json) (old : text) : text :=
  match v ≫= as_str with Some s => if bool_decide (s = []) then old else s | None => old end.

Definition claims_identity (claims : list (text * json)) (info : IdentityInfo) : IdentityInfo :=
  let info := info <| ii_user_id := (string_claim (first_claim USER_CLAIMS claims) (ii_user_id info)) |> in
  let info := match first_claim ROLE_CLAIMS claims with
              | Some role => info <| ii_user_role := (json_value_to_role_string role) |>
              | None => info
              end in
  info <| ii_auth_session_id := (string_claim (member (clit "jti") claims) (ii_auth_session_id info)) |>.

(** The token of an [Authorization] header. *)
Definition auth_token (auth : text) : option text :=
  match strip_prefix (clit "Bearer ") auth with
  | Some t => Some t
  | None => match strip_prefix (clit "bearer ") auth with
            | Some t => Some t
            | None => strip_prefix (clit "Token ") auth
            end
  end.

(** The first of these headers that is there and not empty, in place of ["unknown"]. *)
Fixpoint header_fallback (names : list bytes) (hs : headers) (old : text) : text :=
  match names with
  | [] => old
  | k :: names =>
      match header_get k hs with
      | Some v => if bool_decide (v = []) then header_fallback names hs old else chars v
      | None => header_fallback names hs old
      end
  end.

Definition unknown : text := clit "unknown".

Fixpoint session_of_pairs (pairs : list text) : option text :=
  match pairs with
  | [] => None
  | p :: pairs =>
      match split_once 61 (trim p) with
      | Some (k, v) =>
          if existsb (fun s => bool_decide (to_lowercase (trim k) = s)) SESSION_KEYS
             && negb (bool_decide (trim v = []))
          then Some (clit "sid-" ++ fingerprint mac (trim v))
          else session_of_pairs pairs
      | None => session_of_pairs pairs
      end
  end.

Definition extract_session_from_cookie (cookie : text) : option text := session_of_pairs (split_on 59 cookie).

Definition extract_identity (hs : headers) : IdentityInfo :=
  let info := {| ii_user_id := unknown; ii_user_role := unknown; ii_session_id := clit "sid-0";
                 ii_auth_session_id := clit "0" |} in
  let info := match (auth ← header_get (lit "authorization") hs; token ← auth_token (chars auth);
                     decode_jwt_payload (trim token)) with
              | Some claims => claims_identity claims info
              | None => info
              end in
  let info := if bool_decide (ii_user_id info = unknown)
              then info <| ii_user_id := (header_fallback USER_HEADERS hs (ii_user_id info)) |> else info in
  let info := if bool_decide (ii_user_role info = unknown)
              then info <| ii_user_role := (header_fallback ROLE_HEADERS hs (ii_user_role info)) |> else info in
  match (cookie ← header_get (lit "cookie") hs; extract_session_from_cookie (chars cookie)) with
  | Some sid => info <| ii_session_id := sid |>
  | None => info
  end.
End Identity.

(** * base64 both ways

    The encoder of the export against the decoder of the tokens. *)

(** The alphabet for URLs, without padding, as tokens use it. *)
Definition url_safe_char (b : byte) : byte :=
  if byte_val b =? 43 then "-"%byte else if byte_val b =? 47 then "_"%byte else b.
Definition url_safe (s : bytes) : bytes := url_safe_char <$> base.filter (fun b => b ≠ "="%byte) s.

(** A character of the alphabet: its value, and that it is not the padding, in both alphabets. *)
Definition char_ok (n : Z) : bool :=
  bool_decide (b64val (byte_val (b64_char n)) = Some (Z.land n 63)) && negb (byte_val (b64_char n) =? 61)
  && bool_decide (url_to_standard (b64_char n) = b64_char n)
  && bool_decide (url_to_standard (url_safe_char (b64_char n)) = b64_char n).

Lemma b64_char_ok n : char_ok n = true.
Proof.
  assert (forallb char_ok (seqZ 0 64) = true) as Hall by (vm_compute; reflexivity).
  assert (b64_char n = b64_char (n mod 64)) as Hc.
  { unfold b64_char. change 63 with (Z.ones 6). by rewrite !Z.land_ones, Z.mod_mod. }
  assert (Z.land n 63 = Z.land (n mod 64) 63) as Hn.
  { change 63 with (Z.ones 6). by rewrite !Z.land_ones, Z.mod_mod. }
  unfold char_ok. rewrite Hc, Hn. rewrite forallb_forall in Hall. apply Hall, list_elem_of_In, elem_of_seqZ.
  pose proof (Z.mod_pos_bound n 64). lia.
Qed.

Lemma b64val_char n : b64val (byte_val (b64_char n)) = Some (n mod 64).
Proof.
  pose proof (b64_char_ok n) as E. unfold char_ok in E. rewrite !andb_true_iff, bool_decide_eq_true in E.
  destruct E as [[[-> _] _] _]. change 63 with (Z.ones 6). by rewrite Z.land_ones.
Qed.

Lemma b64_char_not_padding n : (byte_val (b64_char n) =? 61) = false.
Proof. pose proof (b64_char_ok n) as E. unfold char_ok in E. zbool. apply Z.eqb_neq. intuition. Qed.

Lemma b64_char_standard n : url_to_standard (b64_char n) = b64_char n.
Proof. pose proof (b64_char_ok n) as E. unfold char_ok in E. rewrite !andb_true_iff, !bool_decide_eq_true in E. intuition. Qed.

Lemma b64_char_url n : url_to_standard (url_safe_char (b64_char n)) = b64_char n.
Proof. pose proof (b64_char_ok n) as E. unfold char_ok in E. rewrite !andb_true_iff, !bool_decide_eq_true in E. intuition. Qed.

(** The number the coder makes of three bytes. *)
Lemma b64_number a b c :
  0 <= a < 256 → 0 <= b < 256 → 0 <= c < 256 →
  Z.lor (Z.lor (Z.shiftl a 16) (Z.shiftl b 8)) c = a * 65536 + b * 256 + c.
Proof.
  intros Ha Hb Hc. rewrite !Z.shiftl_mul_pow2 by lia. rewrite (lor_shift a (b * 2 ^ 8) 16) by lia.
  replace (a * 2 ^ 16 + b * 2 ^ 8) with ((a * 256 + b) * 2 ^ 8) by lia. rewrite lor_shift by lia. lia.
Qed.

(** The three bytes out of its groups of six bits. *)
Lemma b64_bytes a b c n :
  0 <= a < 256 → 0 <= b < 256 → 0 <= c < 256 → n = a * 65536 + b * 256 + c →
  let x := Z.shiftr n 18 mod 64 in let y := Z.shiftr n 12 mod 64 in
  let z := Z.shiftr n 6 mod 64 in let w := n mod 64 in
  Z.lor (u8 (Z.shiftl x 2)) (Z.shiftr y 4) = a ∧ Z.lor (u8 (Z.shiftl y 4)) (Z.shiftr z 2) = b ∧
  Z.lor (u8 (Z.shiftl z 6)) w = c.
Proof.
  intros Ha Hb Hc Hn x y z w.
  assert (n = ((x * 64 + y) * 64 + z) * 64 + w ∧ 0 <= x < 64 ∧ 0 <= y < 64 ∧ 0 <= z < 64 ∧ 0 <= w < 64) as (Hx & ? & ? & ? & ?).
  { subst x y z w. rewrite !Z.shiftr_div_pow2 by lia. change (2 ^ 18) with 262144. change (2 ^ 12) with 4096.
    change (2 ^ 6) with 64. assert (0 <= n < 16777216) as Hb' by lia. clear Hn.
    change 262144 with (64 * 64 * 64). change 4096 with (64 * 64). rewrite <- !Z.div_div by lia.
    pose proof (Z.div_mod n 64 ltac:(lia)). pose proof (Z.div_mod (n / 64) 64 ltac:(lia)).
    pose proof (Z.div_mod (n / 64 / 64) 64 ltac:(lia)).
    rewrite (Z.mod_small (n / 64 / 64 / 64)) by (Z.div_mod_to_equations; lia).
    split; [lia|]. split; [Z.div_mod_to_equations; lia|]. repeat split; apply Z.mod_pos_bound; lia. }
  clearbody x y z w.
  assert (∀ u k m, 0 <= k → 0 <= u → 2 ^ 8 = m * 2 ^ k → 0 < m → wrap 8 (Z.shiftl u k) = (u mod m) * 2 ^ k) as Hw.
  { intros u k m Hk Hu Hm Hm0. unfold wrap. rewrite Z.shiftl_mul_pow2, Hm, Z.mul_mod_distr_r by lia. done. }
  rewrite (Hw x 2 64), (Hw y 4 16), (Hw z 6 4), !Z.shiftr_div_pow2 by lia.
  rewrite (lor_shift (x mod 64) (y / 2 ^ 4) 2), (lor_shift (y mod 16) (z / 2 ^ 2) 4), (lor_shift (z mod 4) w 6)
    by (change (2 ^ 2) with 4; change (2 ^ 4) with 16; change (2 ^ 6) with 64; Z.div_mod_to_equations; lia).
  change (2 ^ 2) with 4. change (2 ^ 4) with 16. change (2 ^ 6) with 64. Z.div_mod_to_equations. lia.
Qed.

(** A group of four characters. *)
Lemma decode_group a b c n s :
  0 <= a < 256 → 0 <= b < 256 → 0 <= c < 256 → n = a * 65536 + b * 256 + c →
  decode_groups (b64_char (Z.shiftr n 18) :: b64_char (Z.shiftr n 12) :: b64_char (Z.shiftr n 6) :: b64_char n :: s) =
  out ← decode_groups s; Some (byte_of_Z a :: byte_of_Z b :: byte_of_Z c :: out).
Proof.
  intros Ha Hb Hc Hn. cbn [decode_groups]. rewrite !b64val_char. cbn [mbind option_bind].
  rewrite !b64_char_not_padding. destruct (b64_bytes a b c n Ha Hb Hc Hn) as (-> & -> & ->). done.
Qed.

(** The last group, of two bytes or one. *)
Lemma decode_group_2 a b n :
  0 <= a < 256 → 0 <= b < 256 → n = a * 65536 + b * 256 →
  decode_groups [b64_char (Z.shiftr n 18); b64_char (Z.shiftr n 12); b64_char (Z.shiftr n 6); "="%byte] =
  Some [byte_of_Z a; byte_of_Z b].
Proof.
  intros Ha Hb Hn. cbn [decode_groups]. rewrite !b64val_char. change (b64val (byte_val "=")) with (Some 0).
  cbn [mbind option_bind]. rewrite !b64_char_not_padding. change (byte_val "=" =? 61) with true.
  destruct (b64_bytes a b 0 n Ha Hb ltac:(lia) ltac:(lia)) as (-> & -> & _). done.
Qed.

Lemma decode_group_1 a n :
  0 <= a < 256 → n = a * 65536 →
  decode_groups [b64_char (Z.shiftr n 18); b64_char (Z.shiftr n 12); "="%byte; "="%byte] = Some [byte_of_Z a].
Proof.
  intros Ha Hn. cbn [decode_groups]. rewrite !b64val_char. change (b64val (byte_val "=")) with (Some 0).
  cbn [mbind option_bind]. change (byte_val "=" =? 61) with true.
  destruct (b64_bytes a 0 0 n Ha ltac:(lia) ltac:(lia) ltac:(lia)) as (-> & _). done.
Qed.

(** Induction over a list by threes. *)
Lemma by_threes (P : bytes → Prop) :
  P [] → (∀ a, P [a]) → (∀ a b, P [a; b]) → (∀ a b c s, P s → P (a :: b :: c :: s)) → ∀ s, P s.
Proof.
  intros H0 H1 H2 H3 s. assert (P s ∧ (∀ a, P (a :: s)) ∧ ∀ a b, P (a :: b :: s)) as [? _]; [|done].
  induction s as [|c s (IH1 & IH2 & IH3)]; [done|]. split_and!; auto.
Qed.

Definition padding_of (n : Z) : bytes := if n mod 4 =? 2 then lit "==" else if n mod 4 =? 3 then lit "=" else [].

Lemma base64url_decode_padded input :
  base64url_decode input = decode_groups ((url_to_standard <$> input) ++ padding_of (zlen (url_to_standard <$> input))).
Proof. done. Qed.

Lemma padding_of_plus n : padding_of (4 + n) = padding_of n.
Proof. unfold padding_of. by replace ((4 + n) mod 4) with (n mod 4) by (Z.div_mod_to_equations; lia). Qed.

Notation no_padding := (base.filter (fun b => b ≠ "="%byte)).

Lemma no_padding_char n s : no_padding (b64_char n :: s) = b64_char n :: no_padding s.
Proof.
  apply filter_cons_True. intros E. pose proof (b64_char_not_padding n) as H. rewrite E in H. done.
Qed.

(** What the coder makes of a text: it is decoded again, it is padded to a multiple of four, and its
    characters survive the change of the alphabet. *)
Definition coded (d e : bytes) : Prop :=
  decode_groups e = Some d ∧ padding_of (zlen e) = [] ∧ url_to_standard <$> e = e ∧
  url_to_standard <$> url_safe e = no_padding e ∧ no_padding e ++ padding_of (zlen (no_padding e)) = e.

Lemma zlen_cons4 {A} (a b c d : A) l : zlen (a :: b :: c :: d :: l) = 4 + zlen l.
Proof. unfold zlen. cbn [length]. lia. Qed.

Lemma coded_cons a b c n d e :
  n = byte_val a * 65536 + byte_val b * 256 + byte_val c → coded d e →
  coded (a :: b :: c :: d)
    (b64_char (Z.shiftr n 18) :: b64_char (Z.shiftr n 12) :: b64_char (Z.shiftr n 6) :: b64_char n :: e).
Proof.
  intros Hn (H1 & H2 & H3 & H4 & H5). unfold coded, url_safe in *.
  rewrite (decode_group _ _ _ n e (byte_val_range a) (byte_val_range b) (byte_val_range c) Hn), H1.
  rewrite !no_padding_char, !zlen_cons4, !padding_of_plus, !fmap_cons, !b64_char_standard, !b64_char_url, H2, H3, H4.
  cbn [mbind option_bind]. rewrite !byte_of_Z_val. split_and!; try done. cbn [app]. by rewrite H5.
Qed.

Lemma base64_coded d : coded d (base64_encode d).
Proof.
  induction d as [|a|a b|a b c d IH] using by_threes; [done|..].
  - cbn [base64_encode]. rewrite b64_number by (apply byte_val_range || lia).
    set (n := _ * 65536 + _ + _). change (lit "==") with ["="%byte; "="%byte]. cbn [app]. unfold coded, url_safe.
    rewrite (decode_group_1 (byte_val a) n (byte_val_range a)), !no_padding_char by (subst n; lia).
    change (no_padding ["="%byte; "="%byte]) with (@nil byte). rewrite !fmap_cons, !b64_char_standard, !b64_char_url, byte_of_Z_val.
    done.
  - cbn [base64_encode]. rewrite b64_number by (apply byte_val_range || lia).
    set (n := _ * 65536 + _ + _). change (lit "=") with ["="%byte]. cbn [app]. unfold coded, url_safe.
    rewrite (decode_group_2 (byte_val a) (byte_val b) n (byte_val_range a) (byte_val_range b)), !no_padding_char by (subst n; lia).
    change (no_padding ["="%byte]) with (@nil byte). rewrite !fmap_cons, !b64_char_standard, !b64_char_url, !byte_of_Z_val.
    done.
  - cbn [base64_encode]. rewrite b64_number by apply byte_val_range. cbn [app]. by apply coded_cons.
Qed.

Lemma base64_decodes d : base64url_decode (base64_encode d) = Some d.
Proof. destruct (base64_coded d) as (H1 & H2 & H3 & _). by rewrite base64url_decode_padded, H3, H2, app_nil_r. Qed.

(** C40: base64 both ways. What [base64_encode] (the bodies of the export) makes of any bytes is turned
    back into exactly these bytes by [base64url_decode] (the claims of a token), with the standard alphabet
    and its padding as it is printed, and also after the change to the alphabet for URLs with the padding
    left out, which is how tokens are written; no shift loses a bit of an octet, and no length is
    special. *)
Theorem base64_round_trip (d : bytes) :
  base64url_decode (base64_encode d) = Some d ∧ base64url_decode (url_safe (base64_encode d)) = Some d.
Proof.
  destruct (base64_coded d) as (H1 & H2 & H3 & H4 & H5). split; [apply base64_decodes|].
  by rewrite base64url_decode_padded, H4, H5.
Qed.

(** The decoder also takes what no coder prints: padding in the middle, and a character too many. *)
Lemma base64_is_lenient :
  base64url_decode (lit "QQ==QQ==") = Some (lit "AA") ∧ base64url_decode (lit "QUFB!") = Some (lit "AAA").
Proof. split; reflexivity. Qed.
