(* ===== verification/BatchProps.v ===== *)
(** What a batch on the wire tells: every event has an identifier of its own, no field hides another one,
    and the bodies are read back. *)

From S2P Require Import Prelude.
From S2P Require Import Pending Text Codecs CodecsProps Http1 Mcp Event Output WireEvent Redaction Identity.
From Stdlib Require Import Strings.String.

#[local] Notation length := List.length.
#[local] Open Scope list_scope.
#[local] Open Scope Z_scope.

Section Batch.
Context {f32 : Type} (to_json_string : headers → bytes).

Notation event := (ApiTrafficEvent f32).
Notation wire := (WireEvent.json f32).

(** * Names of fields *)

Definition names (l : list (bytes * wire)) : list bytes := l.*1.

(** The names the map of an event may have, in order. *)
Definition META_NAMES : list bytes :=
  [lit "pod_name"; lit "namespace"; lit "service_name"; lit "container_name"; lit "workload_type"; lit "container_id";
   lit "node_name"; lit "mcp_method"; lit "mcp_tool_name"; lit "transport"; lit "transaction_outcome"; lit "direction";
   lit "process_name"; lit "source_hostname"; lit "dest_hostname"; lit "shannon_entropy"; lit "path_depth"; lit "anomaly_sqli";
   lit "anomaly_xss"; lit "anomaly_path_traversal"].

Lemma names_app a b : names (a ++ b) = names a ++ names b.
Proof. apply fmap_app. Qed.

Lemma opt_field_names k v : names (opt_field k v) `sublist_of` [k].
Proof. destruct v; [done|apply sublist_nil_l]. Qed.

Lemma flag_field_names k b : names (flag_field k b) `sublist_of` [k].
Proof. destruct b; [done|apply sublist_nil_l]. Qed.

Lemma meta_names ev : names (meta_fields ev) `sublist_of` META_NAMES.
Proof.
  change META_NAMES with
    (([lit "pod_name"] ++ [lit "namespace"] ++ [lit "service_name"] ++ [lit "container_name"] ++ [lit "workload_type"]
      ++ [lit "container_id"] ++ [lit "node_name"]) ++ ([lit "mcp_method"] ++ [lit "mcp_tool_name"]) ++ [lit "transport"]
     ++ [lit "transaction_outcome"] ++ [lit "direction"] ++ [lit "process_name"] ++ [lit "source_hostname"]
     ++ [lit "dest_hostname"] ++ ([lit "shannon_entropy"; lit "path_depth"] ++ [lit "anomaly_sqli"] ++ [lit "anomaly_xss"]
     ++ [lit "anomaly_path_traversal"])).
  unfold meta_fields. rewrite !names_app.
  repeat apply sublist_app; try apply opt_field_names; try done.
  - destruct (ev_container ev) as [c|]; [|apply sublist_nil_l]. cbn [from_opt]. unfold container_meta. rewrite !names_app.
    repeat apply sublist_app; try apply opt_field_names; try done. case_match; [apply sublist_nil_l|done].
  - destruct (ev_metadata ev) as [m|]; [|apply sublist_nil_l]. cbn [from_opt]. unfold mcp_meta. rewrite !names_app.
    repeat apply sublist_app; apply opt_field_names.
  - destruct (ev_anomaly_features ev) as [af|]; [|apply sublist_nil_l]. cbn [from_opt]. unfold anomaly_meta. rewrite !names_app.
    repeat apply sublist_app; try apply flag_field_names; done.
Qed.

Definition object_names (v : wire) : list bytes := match v with WireEvent.JObject l => names l | _ => [] end.

(** The names of the fields of an event are the same for all events. *)
Definition FIELD_NAMES : list bytes :=
  [lit "SrcInfo.Source"; lit "SrcInfo.RemoteAddress"; lit "LogVersion"; lit "Id"; lit "SessionStats.StartTime";
   lit "SessionStats.TimeToLastDownstreamTxByte"; lit "DownstreamL3L4.SourceIP"; lit "DownstreamL3L4.DestIP";
   lit "DownstreamL3L4.L4Protocol"; lit "DownstreamL3L4.SourcePort"; lit "DownstreamL3L4.DestPort"; lit "UpstreamL3L4.SourceIP";
   lit "UpstreamL3L4.DestIP"; lit "UpstreamL3L4.L4Protocol"; lit "UpstreamL3L4.SourcePort"; lit "UpstreamL3L4.DestPort";
   lit "L7Protocol"; lit "HTTPReq.Method"; lit "HTTPReq.Uri"; lit "HTTPReq.Query"; lit "HTTPReq.BodyLength"; lit "HTTPReq.Body";
   lit "HTTPReq.PathParams"; lit "Req.Header.user-agent"; lit "Req.Header.content-length"; lit "Req.Header.content-type";
   lit "Req.Header.content-encoding"; lit "Req.Header.cookie"; lit "Req.Header.x-user-id"; lit "Req.Header.authentication";
   lit "Req.Header.authorization"; lit "Req.Header.x-Request-id"; lit "Req.Header.x-forwarded-for";
   lit "Req.Header.x-forwarded-proto"; lit "Req.Header.host"; lit "Req.Header.extra"; lit "HTTPResp.BodyLength"; lit "HTTPResp.Body";
   lit "HTTPResp.ResponseCode"; lit "HTTPResp.ResponseCodeDetails"; lit "Resp.Header.content-length";
   lit "Resp.Header.content-type"; lit "Resp.Header.content-encoding"; lit "Resp.Header.extra"; lit "session_id";
   lit "auth_session_id"; lit "user_id"; lit "user_role"; lit "APIInfo.Name"; lit "APIInfo.Id"; lit "APIInfo.File";
   lit "APIInfo.DebugErrorRecord"; lit "OnPremAction.FinalActionLog"; lit "OnPremAction.ModuleActionBlock";
   lit "OnPremAction.SimulationModeOverride"; lit "OnPremAction.DropModules"; lit "OnPremAction.MatchedRules";
   lit "OnPremAction.Details"; lit "MetaDataMap"; lit "MetaDataOnly"; lit "APIID"; lit "error_flags"; lit "Proto"].

Lemma event_names offset nonce n ev : object_names (event_to_value to_json_string offset nonce n ev) = FIELD_NAMES.
Proof. unfold event_to_value, object_names, request_fields. by destruct (split_uri_query _). Qed.

(** * Reading a batch *)

Definition event_id (v : wire) : option bytes :=
  match field (lit "Id") v with Some (WireEvent.JString s) => Some s | _ => None end.

(** A body as a reader of the export takes it. *)
Definition read_body (k : bytes) (v : wire) : option bytes :=
  match field k v with
  | Some (WireEvent.JString s) => base64url_decode s
  | Some WireEvent.JNull => Some []
  | _ => None
  end.

Lemma event_id_of offset nonce n (ev : event) :
  event_id (event_to_value to_json_string offset nonce n ev) = Some (make_event_id nonce (ev_observed_at ev) n).
Proof. unfold event_id, event_to_value, request_fields. by destruct (split_uri_query _). Qed.

Lemma read_body_field body (k : bytes) v : field k v = Some (body_field body) → read_body k v = Some body.
Proof. unfold read_body. intros ->. destruct body as [|b body]; [done|]. apply base64_decodes. Qed.

Lemma request_body_of offset nonce n (ev : event) :
  read_body (lit "HTTPReq.Body") (event_to_value to_json_string offset nonce n ev) = Some (str (ar_body (ev_request ev))).
Proof. apply read_body_field. unfold event_to_value, request_fields. by destruct (split_uri_query _). Qed.

Lemma response_body_of offset nonce n (ev : event) :
  read_body (lit "HTTPResp.Body") (event_to_value to_json_string offset nonce n ev) = Some (str (ap_body (ev_response ev))).
Proof. apply read_body_field. unfold event_to_value, request_fields. by destruct (split_uri_query _). Qed.

Lemma values_lookup offset nonce n (events : list event) i :
  0 <= n < 2 ^ 64 →
  values to_json_string offset nonce n events !! i =
  (fun ev => event_to_value to_json_string offset nonce (u64 (n + Z.of_nat i)) ev) <$> events !! i.
Proof.
  intros Hn. induction events as [|ev events IH] in n, Hn, i |- *; [done|]. destruct i as [|i]; cbn [values].
  - cbn. by rewrite Z.add_0_r, wrap_small.
  - rewrite !lookup_cons_ne_0 by done. cbn [pred]. rewrite IH by (by apply wrap_range). rewrite wrap_add_wrap.
    by replace (n + 1 + Z.of_nat i) with (n + Z.of_nat (S i)) by lia.
Qed.

Lemma length_values offset nonce n (events : list event) : length (values to_json_string offset nonce n events) = length events.
Proof. induction events as [|ev events IH] in n |- *; cbn; [done|]. by rewrite IH. Qed.
End Batch.

(** C20: A batch can be taken apart again. In the batch [to_sensor_batch] makes of any events (fewer than
    2^40 of them, whatever the counter stands at), there is one object per event, in order; no two of
    them carry the same identifier; no name occurs twice in an object or in its map of further
    fields, so nothing overwrites anything; and decoding the base64 of the two bodies gives exactly the
    bodies of the event, the empty one for none. *)
Theorem batch_can_be_read {f32 : Type} (to_json_string : headers → bytes) (offset nonce now_ms seq n : Z)
    (tenant_id policy_version : bytes) (events : list (ApiTrafficEvent f32)) :
  0 <= nonce < 2 ^ 64 → 0 <= n < 2 ^ 64 → zlen events < 2 ^ 40 →
  let batch := sb_batch (to_sensor_batch to_json_string offset nonce now_ms seq n tenant_id policy_version events) in
  length batch = length events ∧
  (∀ i j v w, batch !! i = Some v → batch !! j = Some w → event_id v = event_id w → i = j) ∧
  ∀ i ev v, events !! i = Some ev → batch !! i = Some v →
    NoDup (object_names v) ∧ NoDup (names (meta_fields ev)) ∧ field (lit "MetaDataMap") v = Some (WireEvent.JObject (meta_fields ev)) ∧
    read_body (lit "HTTPReq.Body") v = Some (str (ar_body (ev_request ev))) ∧
    read_body (lit "HTTPResp.Body") v = Some (str (ap_body (ev_response ev))).
Proof.
  intros Hnonce Hn Hlen batch. split; [apply length_values|]. subst batch. cbn [sb_batch to_sensor_batch].
  assert (∀ (i : nat) ev, events !! i = Some ev → Z.of_nat i < 2 ^ 40) as Hi
    by (intros i ev Hev%lookup_lt_Some; unfold zlen in Hlen; lia).
  split.
  - intros i j v w Hv Hw He. rewrite values_lookup in Hv, Hw by done.
    destruct (events !! i) as [ev|] eqn:Ei; [|done]. destruct (events !! j) as [ev'|] eqn:Ej; [|done].
    injection Hv as <-. injection Hw as <-. rewrite !event_id_of in He. injection He as He.
    apply make_event_id_inj in He as (_ & _ & He); [|done..]. unfold wrap in He.
    pose proof (Hi _ _ Ei). pose proof (Hi _ _ Ej). apply Nat2Z.inj.
    rewrite !Z.mod_mod_divide in He by (by exists (2 ^ 24)).
    revert He. Z.div_mod_to_equations. lia.
  - intros i ev v Hev Hv. rewrite values_lookup, Hev in Hv by done. injection Hv as <-.
    rewrite event_names. split_and!.
    + refine (bool_decide_unpack _ _). vm_compute. exact I.
    + eapply sublist_NoDup; [|apply meta_names]. refine (bool_decide_unpack _ _). vm_compute. exact I.
    + unfold event_to_value, request_fields. by destruct (split_uri_query _).
    + apply request_body_of.
    + apply response_body_of.
Qed.

Lemma batch_can_be_read_witness :
  let ev := {|
    ev_version := lit "v1"; ev_event_type := lit "api_traffic"; ev_source := lit "ebpf"; ev_account_id := 1;
    ev_observed_at := 5; ev_protocol := lit "HTTP/1.1";
    ev_request := {| ar_method := lit "GET"; ar_path := lit "/a"; ar_host := None; ar_scheme := lit "https"; ar_headers := [];
                     ar_query := []; ar_body := Some (lit "hello") |};
    ev_response := {| ap_status_code := 200; ap_headers := []; ap_body := None; ap_latency_ms := Some 4 |};
    ev_collection_id := None; ev_source_ip := None; ev_dest_ip := None; ev_source_port := None; ev_dest_port := None;
    ev_netns_ino := None; ev_cgroup_id := None; ev_container := None; ev_process_name := None; ev_source_hostname := None;
    ev_dest_hostname := None; ev_metadata := None; ev_anomaly_features := None; ev_user_id := None; ev_user_role := None;
    ev_session_id := None; ev_auth_session_id := None; ev_outcome := None; ev_direction := None |} : ApiTrafficEvent unit in
  let batch := sb_batch (to_sensor_batch (fun _ => []) 0 9 1000 0 (2 ^ 64 - 1) (lit "t") (lit "1") [ev; ev]) in
  event_id <$> batch = [Some (lit "0000000000000009-000000000005-ffffffffff"); Some (lit "0000000000000009-000000000005-0000000000")] ∧
  ∀ v, batch !! 1%nat = Some v → read_body (lit "HTTPReq.Body") v = Some (lit "hello").
Proof.
  intros ev batch. split; [vm_compute; reflexivity|]. intros v Hv.
  destruct (batch_can_be_read (fun _ => []) 0 9 1000 0 (2 ^ 64 - 1) (lit "t") (lit "1") [ev; ev]
    ltac:(lia) ltac:(lia) ltac:(unfold zlen; cbn; lia)) as (_ & _ & Hread).
  destruct (Hread 1%nat ev v eq_refl Hv) as (_ & _ & _ & Hb & _). exact Hb.
Defined.
