(* ===== verification/Builder.v ===== *)
(** From a paired exchange to the event that is exported: [build_event] and its helpers in
    [userspace/src/stream.rs], [split_query] of [userspace/src/http.rs].

    A [String] is its bytes in the event and its characters where the code looks at them. The text
    [serde_json] prints for the fields of a gRPC message, the entropy and the logarithm of the anomaly
    features (floating-point numbers) are parameters. *)

From S2P Require Import Prelude.
From S2P Require Import Pending Text Codecs Http1 H2Conn Mcp Event Output Redaction Identity.
From Stdlib Require Import Strings.String.

#[local] Notation length := List.length.
#[local] Open Scope list_scope.
#[local] Open Scope Z_scope.

(** * Queries *)

(** [HashMap::insert]. *)
Fixpoint map_insert (k v : bytes) (m : headers) : headers :=
  match m with
  | [] => [(k, v)]
  | (k', v') :: m => if bool_decide (k = k') then (k, v) :: m else (k', v') :: map_insert k v m
  end.

Definition query_pair (query : headers) (p : text) : headers :=
  if bool_decide (p = []) then query
  else let '(k, v) := default (p, []) (split_once 61 p) in map_insert (utf8 k) (utf8 v) query.

Definition split_query (path : text) : text * headers :=
  match split_once 63 path with
  | Some (base, qs) => (base, fold_left query_pair (split_on 38 qs) [])
  | None => (path, [])
  end.

(** * Anomaly features *)

Definition sqli_patterns : list text :=
  [clit "union select"; clit "' or "; clit "1=1"; clit "drop table"; clit "insert into"; clit "delete from";
   clit "update set"; clit "--"; clit "/*"; clit "*/"; clit "xp_"; clit "exec("; clit "char("; clit "concat(";
   clit "benchmark("; clit "sleep("].

Definition xss_patterns : list text :=
  [clit "<script"; clit "javascript:"; clit "onerror="; clit "onload="; clit "onfocus="; clit "onmouseover=";
   clit "<img"; clit "<svg"; clit "<iframe"; clit "alert("; clit "document.cookie"].

(** How the metrics are stepped. *)
Inductive build_metric :=
| PROTO_HTTP1 | PROTO_HTTP2 | PROTO_HTTP3 | PROTO_GRPC | PROTO_WEBSOCKET | PROTO_MCP | PROTO_GO_TLS
| TRANSACTIONS_INCOMPLETE.

Definition protocol_metric (protocol : bytes) : list build_metric :=
  if bool_decide (protocol = lit "HTTP/1.1") then [PROTO_HTTP1]
  else if bool_decide (protocol = lit "HTTP/2") then [PROTO_HTTP2]
  else if bool_decide (protocol = lit "HTTP/3") then [PROTO_HTTP3]
  else if bool_decide (protocol = lit "gRPC") then [PROTO_GRPC]
  else if bool_decide (protocol = lit "WebSocket") then [PROTO_WEBSOCKET]
  else if bool_decide (protocol = lit "MCP") then [PROTO_MCP]
  else if bool_decide (protocol = lit "Go-TLS") then [PROTO_GO_TLS]
  else [].

Section Builder.
Context {f32 : Type} `{Unicode, Json, Regex, CharCase}.
Context (mac : bytes → bytes) (entropy : bytes → f32) (log2_u8 : Z → Z) (fields_json : list ProtoField → option text).

Definition contains_any (patterns : list text) (path : text) (query : headers) : bool :=
  let check s := existsb (fun p => contains p (to_lowercase s)) patterns in
  check path || existsb (fun kv => check (chars kv.2)) query.

Definition compute_anomaly_features (path : text) (query : headers) (body_len : Z) : AnomalyFeatures f32 := {|
  af_path_depth := Z.min (zlen (base.filter (fun c => c = 47) path)) 255;
  af_query_param_count := Z.min (zlen query) 255;
  af_has_encoded_chars := existsb (Z.eqb 37) path;
  af_request_size_bucket := if body_len =? 0 then 0 else log2_u8 body_len;
  af_shannon_entropy := entropy (utf8 path);
  af_has_sqli_pattern := contains_any sqli_patterns path query;
  af_has_xss_pattern := contains_any xss_patterns path query;
  af_has_path_traversal := contains (clit "../") path || contains (clit "..\") path |}.

(** * Events *)

Definition redact_and_cap_body (raw : bytes) : option bytes :=
  match raw with
  | [] => None
  | _ => Some (utf8 (redact_body mac (from_utf8_lossy (ztake (Z.min (zlen raw) MAX_BODY_CAPTURE_BYTES) raw))))
  end.

Definition redacted_header (kv : bytes * bytes) : bytes * bytes :=
  (kv.1, utf8 (redact_header_value mac (chars kv.1) (chars kv.2))).

Definition build_event (account_id ts_ms : Z) (req : ParsedRequest NetContext) (resp : HttpResponseParsed)
    (latency_ms : Z) (protocol source : bytes) : ApiTrafficEvent f32 * list build_metric :=
  let raw_path := chars (pr_path req) in
  let '(_, raw_query) := split_query raw_path in
  let anomaly := compute_anomaly_features raw_path raw_query 0 in
  let identity := extract_identity mac (pr_headers req) in
  let redacted_path := redact_url mac raw_path in
  let '(path, query) := split_query redacted_path in
  let net_ctx := pr_net_ctx req in
  ({| ev_version := lit "v1"; ev_event_type := lit "api_traffic"; ev_source := source;
      ev_account_id := account_id; ev_observed_at := ts_ms; ev_protocol := protocol;
      ev_request := {| ar_method := pr_method req; ar_path := utf8 path; ar_host := pr_host req;
                       ar_scheme := lit "https"; ar_headers := redacted_header <$> pr_headers req;
                       ar_query := query; ar_body := redact_and_cap_body (pr_body req) |};
      ev_response := {| ap_status_code := rs_status_code resp; ap_headers := redacted_header <$> rs_headers resp;
                        ap_body := redact_and_cap_body (rs_body resp); ap_latency_ms := Some latency_ms |};
      ev_collection_id := None;
      ev_source_ip := nc_source_ip net_ctx; ev_dest_ip := nc_dest_ip net_ctx;
      ev_source_port := nc_source_port net_ctx; ev_dest_port := nc_dest_port net_ctx;
      ev_netns_ino := nc_netns_ino net_ctx; ev_cgroup_id := nc_cgroup_id net_ctx;
      ev_container := nc_container net_ctx; ev_process_name := nc_process_name net_ctx;
      ev_source_hostname := nc_source_hostname net_ctx; ev_dest_hostname := nc_dest_hostname net_ctx;
      ev_metadata := None; ev_anomaly_features := Some anomaly;
      ev_user_id := Some (utf8 (redact_pii mac (ii_user_id identity)));
      ev_user_role := Some (utf8 (redact_pii mac (ii_user_role identity)));
      ev_session_id := Some (utf8 (ii_session_id identity));
      ev_auth_session_id := Some (utf8 (redact_pii mac (ii_auth_session_id identity)));
      ev_outcome := None; ev_direction := nc_direction net_ctx |},
   protocol_metric protocol).

#[export] Instance ApiResponse_fields : Fields ApiResponse := fun r =>
  Build_ApiResponse (ap_status_code r) (ap_headers r) (ap_body r) (ap_latency_ms r).

#[export] Instance ApiTrafficEvent_fields : Fields (ApiTrafficEvent f32) := fun e =>
  Build_ApiTrafficEvent f32 (ev_version e) (ev_event_type e) (ev_source e) (ev_account_id e) (ev_observed_at e)
    (ev_protocol e) (ev_request e) (ev_response e) (ev_collection_id e) (ev_source_ip e) (ev_dest_ip e)
    (ev_source_port e) (ev_dest_port e) (ev_netns_ino e) (ev_cgroup_id e) (ev_container e) (ev_process_name e)
    (ev_source_hostname e) (ev_dest_hostname e) (ev_metadata e) (ev_anomaly_features e) (ev_user_id e)
    (ev_user_role e) (ev_session_id e) (ev_auth_session_id e) (ev_outcome e) (ev_direction e).

Definition build_incomplete_event (account_id : Z) (req : ParsedRequest NetContext) (protocol outcome : bytes)
    : ApiTrafficEvent f32 * list build_metric :=
  let empty := {| rs_status_code := 0; rs_headers := []; rs_body := [] |} in
  let '(ev, steps) := build_event account_id (pr_ts_ms req) req empty 0 protocol (lit "ebpf") in
  let ev := ev <| ev_response := (ev_response ev) <| ap_latency_ms := None |> |> in
  (ev <| ev_outcome := Some outcome |>, steps ++ [TRANSACTIONS_INCOMPLETE]).

(** What follows [build_event] for a gRPC response: the decoded fields become the body, redacted. *)
Definition attach_grpc_body (fields : option (list ProtoField)) (ev : ApiTrafficEvent f32) : ApiTrafficEvent f32 :=
  match fields ≫= fields_json with
  | Some body => ev <| ev_response := (ev_response ev) <| ap_body := Some (utf8 (redact_body mac body)) |> |>
  | None => ev
  end.

(** What follows it for an exchange that carried a call of the Model Context Protocol. *)
Definition attach_metadata (call : option McpEvent) (ev : ApiTrafficEvent f32) : ApiTrafficEvent f32 :=
  match call with
  | Some c =>
      ev <| ev_metadata := Some {|
        em_has_injection := me_has_injection c;
        em_injection_patterns := if me_has_injection c then [lit "prompt_injection"] else [];
        em_permission_flags := me_permission_flags c;
        em_mcp_method := me_method c; em_mcp_tool_name := me_tool_name c |} |>
  | None => ev
  end.
End Builder.
