(* ===== verification/Containers.v ===== *)
(** Which container an event comes from: [userspace/src/container.rs], without the walk over the cgroup
    tree and the call to the container runtime, whose answers are arguments.

    A call of [resolve] is given what the world answers during the call ([surroundings]): the clock where it is
    read, the tree a scan would find and the text of [/proc/<pid>/cgroup]. Times are milliseconds. The
    lookups are asked for through a channel of tokio, the class [Channel] of [Export], and answered by a
    task of [main]; an element that [HashSet::iter] yields first is a parameter, [first_of]. *)

From S2P Require Import Prelude.
From S2P Require Import Pending Text Http1 Mcp Event Export Redaction.
From Stdlib Require Import Strings.String.

#[local] Notation length := List.length.
#[local] Open Scope list_scope.
#[local] Open Scope Z_scope.

(** * Paths of cgroups *)

Record CgroupInfo := {
  ci_pod_uid : option text;
  ci_container_id_full : option text;
  ci_container_id_short : option text
}.

Definition is_ascii_hexdigit (c : Z) : bool := match digit 16 c with Some _ => true | None => false end.

Definition strip_suffix (p s : text) : option text := reverse <$> strip_prefix (reverse p) (reverse s).

(** [trim]med by the first of the prefixes that is there. *)
Fixpoint strip_first (prefixes : list text) (s : text) : text :=
  match prefixes with
  | [] => s
  | p :: prefixes => match strip_prefix p s with Some rest => rest | None => strip_first prefixes s end
  end.

Definition RUNTIME_PREFIXES : list text :=
  [clit "cri-containerd-"; clit "cri-o-"; clit "crio-"; clit "docker-"; clit "libpod-"; clit "containerd-"].

Definition container_id_from_segment (segment : text) : option text :=
  let s := strip_first RUNTIME_PREFIXES (default segment (strip_suffix (clit ".scope") segment)) in
  if (32 <=? zlen (utf8 s)) && forallb is_ascii_hexdigit s then Some s else None.

(** What follows the last occurrence, [rfind]. *)
Fixpoint after_last (needle s : text) : option text :=
  match s with
  | [] => strip_prefix needle []
  | c :: s' => match after_last needle s' with Some rest => Some rest | None => strip_prefix needle s end
  end.

Definition is_uuid (s : text) : bool :=
  let parts := split_on 45 s in
  (zlen parts =? 5) &&
  forallb (fun pn => (zlen (utf8 pn.1) =? pn.2) && forallb is_ascii_hexdigit pn.1) (zip parts [8; 4; 4; 4; 12]).

Definition pod_uid_from_segment (segment : text) : option text :=
  let s := default segment (strip_suffix (clit ".slice") segment) in
  rest ← (match strip_prefix (clit "pod") s with Some rest => Some rest | None => after_last (clit "-pod") s end);
  let uid := (fun c => if c =? 95 then 45 else c) <$> rest in
  if is_uuid uid then Some uid else None.

Definition short_id (full : text) : text := take 12 full.

(** The loop over the segments: the last pod and the last container count. *)
Definition scan_segment (found : option text * option text) (seg : text) : option text * option text :=
  if bool_decide (seg = []) || bool_decide (seg = clit "..") || bool_decide (seg = clit ".") then found
  else (match pod_uid_from_segment seg with Some uid => Some uid | None => found.1 end,
        match container_id_from_segment seg with Some id => Some id | None => found.2 end).

Definition parse_cgroup_path (path : text) : option CgroupInfo :=
  let '(pod_uid, container_id_full) := fold_left scan_segment (split_on 47 path) (None, None) in
  id ← container_id_full;
  Some {| ci_pod_uid := pod_uid; ci_container_id_short := Some (short_id id); ci_container_id_full := Some id |}.

(** [splitn(3, ':').nth(2)]. *)
Definition third_field (line : text) : option text :=
  '(_, rest) ← split_once 58 line; '(_, path) ← split_once 58 rest; Some path.

Fixpoint find_map {A B} (f : A → option B) (l : list A) : option B :=
  match l with [] => None | a :: l => match f a with Some b => Some b | None => find_map f l end end.

Definition parse_cgroup_text (contents : text) : option CgroupInfo :=
  find_map parse_cgroup_path (omap third_field (lines contents)).

(** * State *)

Record ContainerCacheEntry := {
  ce_context : ContainerContext;
  ce_last_seen : Z;
  ce_unresolved_id : option text;
  ce_retry_at : Z;
  ce_attempts : Z
}.

#[export] Instance ContainerCacheEntry_fields : Fields ContainerCacheEntry := fun e =>
  Build_ContainerCacheEntry (ce_context e) (ce_last_seen e) (ce_unresolved_id e) (ce_retry_at e) (ce_attempts e).

Definition LOOKUP_RETRY_BASE : Z := 1000.
Definition LOOKUP_RETRY_MAX : Z := 60000.

Definition lookup_backoff (attempts : Z) : Z :=
  Z.min (LOOKUP_RETRY_BASE * Z.shiftl 1 (Z.min attempts 6)) LOOKUP_RETRY_MAX.

Definition CONTAINER_CACHE_ENTRIES : Z := 10000.
Definition MAX_PENDING_LOOKUPS : Z := 4096.
Definition CGROUP_RESCAN_COOLDOWN : Z := 2000.
Definition CONTAINER_TTL : Z := 600000.

Record ContainerLookupRequest := { lr_cgroup_id : Z; lr_container_id_full : text }.

Record ContainerMetadata := {
  cm_pod_name : option bytes;
  cm_pod_namespace : option bytes;
  cm_container_name : option bytes;
  cm_service_name : option bytes;
  cm_workload_type : option bytes
}.

Record ContainerResolver `{Channel ContainerLookupRequest} := {
  cr_by_id : gmap Z text;
  cr_last_scan : option Z;
  cr_cache : gmap Z ContainerCacheEntry;
  cr_pending : gset Z;
  cr_lookup_tx : chan;
  cr_node_name : bytes
}.

(** What the world answers while an event is resolved. *)
Record surroundings := {
  su_now : Z;            (* [Instant::now] at the start *)
  su_elapsed_at : Z;     (* where the age of the last scan is read *)
  su_scanned_at : Z;     (* when the scan is over *)
  su_tree : gmap Z text; (* what the scan finds *)
  su_proc : option text  (* the text of [/proc/<pid>/cgroup] *)
}.

Section Resolver.
Context `{Channel ContainerLookupRequest} (first_of : gset Z → option Z).

#[export] Instance ContainerResolver_fields : Fields ContainerResolver := fun r =>
  Build_ContainerResolver _ (cr_by_id r) (cr_last_scan r) (cr_cache r) (cr_pending r) (cr_lookup_tx r) (cr_node_name r).

Definition resolver_new (lookup_tx : chan) (node_name : bytes) : ContainerResolver :=
  {| cr_by_id := ∅; cr_last_scan := None; cr_cache := ∅; cr_pending := ∅; cr_lookup_tx := lookup_tx;
     cr_node_name := node_name |}.

Definition cgroup_path_for_id (cgroup_id : Z) (w : surroundings) (r : ContainerResolver)
    : option text * ContainerResolver :=
  match cr_by_id r !! cgroup_id with
  | Some path => (Some path, r)
  | None =>
      let due := match cr_last_scan r with
                 | Some t => CGROUP_RESCAN_COOLDOWN <=? su_elapsed_at w - t
                 | None => true
                 end in
      if due then
        let r := r <| cr_by_id := su_tree w |> <| cr_last_scan := Some (su_scanned_at w) |> in
        (cr_by_id r !! cgroup_id, r)
      else (None, r)
  end.

Definition cgroup_info_for (cgroup_id pid : Z) (w : surroundings) (r : ContainerResolver)
    : option CgroupInfo * ContainerResolver :=
  let '(path, r) := cgroup_path_for_id cgroup_id w r in
  match path ≫= parse_cgroup_path with
  | Some info => (Some info, r)
  | None => (if i32 pid <=? 0 then None else su_proc w ≫= parse_cgroup_text, r)
  end.

Definition request_lookup (cgroup_id : Z) (id : text) (r : ContainerResolver) : ContainerResolver :=
  if bool_decide (cgroup_id ∈ cr_pending r) then r
  else
    let pending := if MAX_PENDING_LOOKUPS <=? Z.of_nat (size (cr_pending r))
                   then match first_of (cr_pending r) with Some v => cr_pending r ∖ {[v]} | None => cr_pending r end
                   else cr_pending r in
    let pending := {[cgroup_id]} ∪ pending in
    match chan_try_send {| lr_cgroup_id := cgroup_id; lr_container_id_full := id |} (cr_lookup_tx r) with
    | Some c => r <| cr_pending := pending |> <| cr_lookup_tx := c |>
    | None => r <| cr_pending := pending ∖ {[cgroup_id]} |>
    end.

Definition new_context (node_name : bytes) (info : option CgroupInfo) : ContainerContext :=
  {| cc_pod_name := None; cc_pod_namespace := None;
     cc_container_id := utf8 (default (clit "unknown") (info ≫= ci_container_id_short));
     cc_container_name := None; cc_node_name := node_name; cc_service_name := None; cc_workload_type := None |}.

(** The part of [resolve] after a miss. *)
Definition resolve_miss (cgroup_id pid : Z) (w : surroundings) (r : ContainerResolver)
    : ContainerContext * ContainerResolver :=
  let now := su_now w in
  let r := if CONTAINER_CACHE_ENTRIES <? Z.of_nat (size (cr_cache r))
           then r <| cr_cache := base.filter (fun kv => Z.max 0 (now - ce_last_seen kv.2) < CONTAINER_TTL) (cr_cache r) |>
           else r in
  let '(info, r) := cgroup_info_for cgroup_id pid w r in
  let context := new_context (cr_node_name r) info in
  let id := info ≫= ci_container_id_full in
  let r := r <| cr_cache := <[cgroup_id := {| ce_context := context; ce_last_seen := now; ce_unresolved_id := id;
                                              ce_retry_at := now + lookup_backoff 0; ce_attempts := 0 |}]> (cr_cache r) |> in
  (context, match id with Some id => request_lookup cgroup_id id r | None => r end).

Definition resolve (cgroup_id pid : Z) (w : surroundings) (r : ContainerResolver)
    : option ContainerContext * ContainerResolver :=
  if cgroup_id =? 0 then (None, r)
  else
    let now := su_now w in
    let miss := let '(c, r) := resolve_miss cgroup_id pid w r in (Some c, r) in
    match cr_cache r !! cgroup_id with
    | Some entry =>
        if Z.max 0 (now - ce_last_seen entry) <? CONTAINER_TTL then
          let entry := entry <| ce_last_seen := now |> in
          match ce_unresolved_id entry with
          | Some id =>
              if ce_retry_at entry <=? now then
                let attempts := Z.min (ce_attempts entry + 1) (2 ^ 32 - 1) in
                let entry := entry <| ce_attempts := attempts |> <| ce_retry_at := (now + lookup_backoff attempts) |> in
                (Some (ce_context entry), request_lookup cgroup_id id (r <| cr_cache := (<[cgroup_id := entry]> (cr_cache r)) |>))
              else (Some (ce_context entry), r <| cr_cache := (<[cgroup_id := entry]> (cr_cache r)) |>)
          | None => (Some (ce_context entry), r <| cr_cache := (<[cgroup_id := entry]> (cr_cache r)) |>)
          end
        else miss
    | None => miss
    end.

Definition update_from_cri (cgroup_id : Z) (m : ContainerMetadata) (now : Z) (r : ContainerResolver) : ContainerResolver :=
  let r := match cr_cache r !! cgroup_id with
           | Some entry =>
               let c := ce_context entry in
               let c := {| cc_pod_name := cm_pod_name m; cc_pod_namespace := cm_pod_namespace m;
                           cc_container_id := cc_container_id c; cc_container_name := cm_container_name m;
                           cc_node_name := cc_node_name c; cc_service_name := cm_service_name m;
                           cc_workload_type := cm_workload_type m |} in
               r <| cr_cache := (<[cgroup_id := entry <| ce_context := c |> <| ce_last_seen := now |>
                                                      <| ce_unresolved_id := None |>]> (cr_cache r)) |>
           | None => r
           end in
  r <| cr_pending := (cr_pending r ∖ {[cgroup_id]}) |>.

Definition mark_lookup_failed (cgroup_id : Z) (r : ContainerResolver) : ContainerResolver :=
  r <| cr_pending := (cr_pending r ∖ {[cgroup_id]}) |>.

(** * With the task that answers

    The task of [main] takes one request at a time; [cm_request] is the one it asks the runtime about. *)
Record lookup_machine := { cm_resolver : ContainerResolver; cm_request : option ContainerLookupRequest }.

Inductive lookup_label :=
| Resolve (cgroup_id pid : Z) (w : surroundings)
| TakeRequest
| Answered (m : ContainerMetadata) (now : Z)
| LookupFailed.

Definition lookup_step (l : lookup_label) (s : lookup_machine) : option lookup_machine :=
  match l with
  | Resolve cgroup_id pid w =>
      Some {| cm_resolver := (resolve cgroup_id pid w (cm_resolver s)).2; cm_request := cm_request s |}
  | TakeRequest =>
      match cm_request s, chan_recv (cr_lookup_tx (cm_resolver s)) with
      | None, Some (req, c) =>
          Some {| cm_resolver := (cm_resolver s) <| cr_lookup_tx := c |>; cm_request := Some req |}
      | _, _ => None
      end
  | Answered m now =>
      req ← cm_request s;
      Some {| cm_resolver := update_from_cri (lr_cgroup_id req) m now (cm_resolver s); cm_request := None |}
  | LookupFailed =>
      req ← cm_request s;
      Some {| cm_resolver := mark_lookup_failed (lr_cgroup_id req) (cm_resolver s); cm_request := None |}
  end.

Fixpoint lookup_steps (ls : list lookup_label) (s : lookup_machine) : option lookup_machine :=
  match ls with [] => Some s | l :: ls => s ← lookup_step l s; lookup_steps ls s end.
End Resolver.
