(* ===== verification/ContainersProps.v ===== *)
(** The lookups of containers: at most one per workload, never one thrown away; when an unknown workload
    stays unknown; and the paths of all the layouts. *)

From S2P Require Import Prelude Pending Text Http1 Http1Framing Codecs Mcp Event Export Redaction.
From S2P Require Import RedactionProps SecretProps Containers.
From Stdlib Require Import Strings.String.

#[local] Notation length := List.length.
#[local] Open Scope list_scope.
#[local] Open Scope Z_scope.

Section Lookups.
Context `{Channel ContainerLookupRequest}.

Notation ids l := (lr_cgroup_id <$> l).

(** The workloads somebody is asking about: the request that is being answered and those in the channel. *)
Definition asked (s : lookup_machine) : list Z :=
  ids (option_list (cm_request s)) ++ ids (items (cr_lookup_tx (cm_resolver s))).

Definition pending_inv (held : list Z) (cap : Z) (r : ContainerResolver) : Prop :=
  NoDup (held ++ ids (items (cr_lookup_tx r))) ∧
  cr_pending r = list_to_set (held ++ ids (items (cr_lookup_tx r))) ∧
  max_capacity (cr_lookup_tx r) = cap ∧ zlen (items (cr_lookup_tx r)) <= cap.

Definition lookup_inv (cap : Z) (s : lookup_machine) : Prop :=
  pending_inv (ids (option_list (cm_request s))) cap (cm_resolver s).

Lemma pending_size held cap r :
  pending_inv held cap r → Z.of_nat (size (cr_pending r)) <= zlen held + cap.
Proof.
  intros (Hnd & -> & _ & Hl). rewrite size_list_to_set by done. rewrite length_app, length_fmap. unfold zlen in *. lia.
Qed.

Section Cap.
Context (cap : Z) (Hcap : cap + 1 < MAX_PENDING_LOOKUPS).

(** A request is added or the state of the requests stays, whatever a full set would throw away. *)
Lemma request_lookup_inv first_of held c id r :
  zlen held <= 1 → pending_inv held cap r → pending_inv held cap (request_lookup first_of c id r).
Proof using Hcap.
  intros Hh Hi. pose proof (pending_size held cap r Hi) as Hs. unfold request_lookup.
  case_bool_decide as Hc; [done|]. rewrite (proj2 (Z.leb_gt _ _)) by lia. destruct Hi as (Hnd & Hp & Hm & Hl).
  pose proof (chan_try_send_spec {| lr_cgroup_id := c; lr_container_id_full := id |} (cr_lookup_tx r)) as Hsend.
  destruct (chan_try_send _ _) as [ch|].
  - destruct Hsend as (Hroom & Hitems & Hmax). unfold pending_inv. cbn. rewrite Hitems, fmap_app, app_assoc. cbn.
    rewrite Hp in Hc. rewrite elem_of_list_to_set in Hc. split_and!.
    + apply list.NoDup_app. split; [done|]. split; [|apply list.NoDup_singleton]. by intros x Hx ->%list_elem_of_singleton.
    + rewrite Hp. rewrite (list_to_set_app_L _ [c]). cbn. set_solver.
    + by rewrite Hmax.
    + unfold zlen in *. rewrite length_app. cbn. lia.
  - unfold pending_inv. cbn. split_and!; try done. rewrite <- Hp. set_solver.
Qed.

Lemma request_lookup_any first_of first_of' held c id r :
  zlen held <= 1 → pending_inv held cap r → request_lookup first_of c id r = request_lookup first_of' c id r.
Proof using Hcap.
  intros Hh Hi. pose proof (pending_size held cap r Hi) as Hs. unfold request_lookup.
  case_bool_decide; [done|]. by rewrite (proj2 (Z.leb_gt _ _)) by lia.
Qed.

(** [resolve] touches the requests only through [request_lookup]. *)
Definition same_requests (r r' : ContainerResolver) : Prop :=
  cr_pending r' = cr_pending r ∧ cr_lookup_tx r' = cr_lookup_tx r.

Lemma same_requests_inv held r r' : same_requests r r' → pending_inv held cap r → pending_inv held cap r'.
Proof. unfold pending_inv. by intros [-> ->]. Qed.

Lemma cgroup_info_for_same c pid w r : same_requests r (cgroup_info_for c pid w r).2.
Proof. unfold cgroup_info_for, cgroup_path_for_id. repeat case_match; simplify_eq; done. Qed.

Lemma resolve_miss_requests c pid w r :
  ∃ r', same_requests r r' ∧
  ((∀ f, (resolve_miss f c pid w r).2 = r') ∨ ∃ id, ∀ f, (resolve_miss f c pid w r).2 = request_lookup f c id r').
Proof.
  unfold resolve_miss. set (r1 := if _ <? _ then _ else r).
  assert (same_requests r r1) as Hr1 by (unfold r1; by case_match).
  pose proof (cgroup_info_for_same c pid w r1) as Hr2. destruct (cgroup_info_for c pid w r1) as [info r2].
  cbn in Hr2. destruct (info ≫= ci_container_id_full) as [id|]; eexists; (split; [|by eauto]);
    destruct Hr1 as [E1 E2], Hr2 as [E3 E4]; split; cbn; congruence.
Qed.

Lemma resolve_requests c pid w r :
  ∃ r', same_requests r r' ∧
  ((∀ f, (resolve f c pid w r).2 = r') ∨ ∃ id, ∀ f, (resolve f c pid w r).2 = request_lookup f c id r').
Proof.
  assert (∀ f, (let '(x, y) := resolve_miss f c pid w r in (Some x, y)).2 = (resolve_miss f c pid w r).2) as Hsnd
    by (intros f; by destruct (resolve_miss f c pid w r)).
  pose proof (resolve_miss_requests c pid w r) as (r' & Hr & Hm).
  assert (∃ r', same_requests r r' ∧
    ((∀ f, (let '(x, y) := resolve_miss f c pid w r in (Some x, y)).2 = r') ∨
     ∃ id, ∀ f, (let '(x, y) := resolve_miss f c pid w r in (Some x, y)).2 = request_lookup f c id r')) as Hmiss.
  { exists r'. split; [done|]. destruct Hm as [Hm|[id Hm]]; [left|right; exists id]; intros f; by rewrite Hsnd. }
  unfold resolve. destruct (c =? 0); [exists r; split; [done|by left]|].
  destruct (cr_cache r !! c) as [e|]; [|exact Hmiss]. destruct (_ <? CONTAINER_TTL); [|exact Hmiss].
  cbn. destruct (ce_unresolved_id e) as [id|]; [destruct (ce_retry_at e <=? su_now w)|]; eexists;
    (split; [|first [by left|right; by exists id]]); done.
Qed.

(** An answered request makes room for the next one about the same workload. *)
Lemma answered_inv c r r' :
  pending_inv [c] cap r → cr_lookup_tx r' = cr_lookup_tx r → cr_pending r' = cr_pending r ∖ {[c]} → pending_inv [] cap r'.
Proof using Hcap.
  intros (Hnd & Hp & Hm & Hl) Ht Hp'. unfold pending_inv. rewrite Ht, Hp', Hp. cbn in *.
  apply list.NoDup_cons in Hnd as [Hc Hnd]. split_and!; try done. set_solver.
Qed.

Lemma lookup_step_inv first_of l s s' : lookup_inv cap s → lookup_step first_of l s = Some s' → lookup_inv cap s'.
Proof using Hcap.
  intros Hi. unfold lookup_inv in *. destruct l as [c pid w| |m now|]; cbn [lookup_step].
  - intros [= <-]. cbn. destruct (resolve_requests c pid w (cm_resolver s)) as (r' & Hr & [Hm|[id Hm]]);
      rewrite Hm; [by eapply same_requests_inv|]. apply request_lookup_inv; [|by eapply same_requests_inv].
    destruct (cm_request s); unfold zlen; cbn; lia.
  - destruct (cm_request s); [done|]. pose proof (chan_recv_spec (cr_lookup_tx (cm_resolver s))) as Hrecv.
    destruct (chan_recv _) as [[req c]|]; [|done]. intros [= <-]. destruct Hrecv as [Hitems Hmax].
    destruct Hi as (Hnd & Hp & Hm & Hl). unfold pending_inv. cbn in *. rewrite Hitems in *. cbn in *.
    split_and!; try done; [congruence|]. unfold zlen in *. cbn in *. lia.
  - destruct (cm_request s) as [req|]; [|done]. cbn. intros [= <-]. cbn in *.
    apply (answered_inv (lr_cgroup_id req) (cm_resolver s)); [done|..]; unfold update_from_cri; by case_match.
  - destruct (cm_request s) as [req|]; [|done]. cbn. intros [= <-]. cbn in *.
    by apply (answered_inv (lr_cgroup_id req) (cm_resolver s)).
Qed.

Lemma lookup_step_any first_of first_of' l s :
  lookup_inv cap s → lookup_step first_of l s = lookup_step first_of' l s.
Proof using Hcap.
  intros Hi. destruct l as [c pid w| | |]; try done. cbn. do 2 f_equal.
  destruct (resolve_requests c pid w (cm_resolver s)) as (r' & Hr & [Hm|[id Hm]]); rewrite !Hm; [done|].
  eapply request_lookup_any; [|by eapply same_requests_inv]. destruct (cm_request s); unfold zlen; cbn; lia.
Qed.

Lemma lookup_steps_inv first_of ls s s' : lookup_inv cap s → lookup_steps first_of ls s = Some s' → lookup_inv cap s'.
Proof using Hcap.
  induction ls as [|l ls IH] in s |- *; cbn; intros Hi; [by intros [= <-]|].
  destruct (lookup_step first_of l s) as [s1|] eqn:E; [|done]. cbn. apply IH. by eapply lookup_step_inv.
Qed.

Lemma lookup_steps_any first_of first_of' ls s :
  lookup_inv cap s → lookup_steps first_of ls s = lookup_steps first_of' ls s.
Proof using Hcap.
  induction ls as [|l ls IH] in s |- *; cbn; intros Hi; [done|]. rewrite <- (lookup_step_any first_of first_of' l s Hi).
  destruct (lookup_step first_of l s) as [s1|] eqn:E; [|done]. cbn. apply IH. by eapply lookup_step_inv.
Qed.
End Cap.

Lemma lookup_init cap node : 0 <= cap → lookup_inv cap {| cm_resolver := resolver_new (chan_new cap) node; cm_request := None |}.
Proof.
  intros Hc. unfold lookup_inv, pending_inv. cbn. rewrite items_new, max_capacity_new. cbn. split_and!; try done. constructor.
Qed.
End Lookups.

(** C28: A workload is looked up once at a time. From a new resolver on, after any sequence of events, requests
    taken up by the task, answers and failures: no workload is twice among the request being answered and
    the requests in the channel, the set of pending lookups is exactly these workloads (so a lookup that
    was answered, failed or refused by a full channel can be asked for again, and one that is under way is
    not), and it never has more members than the channel has places and one. The cap of the set, behind
    which some pending lookup would be forgotten, is never reached, so which one it would choose makes no
    difference to any run. *)
Theorem lookups_once_per_workload `{Channel ContainerLookupRequest} (first_of first_of' : gset Z → option Z)
    (cap : Z) (node : bytes) (ls : list lookup_label) (s : lookup_machine) :
  0 <= cap → cap + 1 < MAX_PENDING_LOOKUPS →
  lookup_steps first_of ls {| cm_resolver := resolver_new (chan_new cap) node; cm_request := None |} = Some s →
  NoDup (asked s) ∧ cr_pending (cm_resolver s) = list_to_set (asked s) ∧
  Z.of_nat (size (cr_pending (cm_resolver s))) <= cap + 1 ∧
  lookup_steps first_of' ls {| cm_resolver := resolver_new (chan_new cap) node; cm_request := None |} = Some s.
Proof.
  intros H0 Hcap Hs. pose proof (lookup_init cap node H0) as Hi0.
  pose proof (lookup_steps_inv cap Hcap _ _ _ _ Hi0 Hs) as Hi. pose proof Hi as (Hnd & Hp & _).
  split_and!; [done|done| |by rewrite <- (lookup_steps_any cap Hcap first_of)].
  pose proof (pending_size _ _ _ Hi) as Hz. destruct (cm_request s); unfold zlen in *; cbn in Hz; lia.
Qed.

Definition a_path : text := clit "0::/kubepods.slice/cri-containerd-abcdef0123456789abcdef0123456789.scope".

Definition a_world (now : Z) : surroundings :=
  {| su_now := now; su_elapsed_at := now; su_scanned_at := now; su_tree := ∅; su_proc := Some a_path |}.

Definition a_lookup_run (first_of : gset Z → option Z) : option (lookup_machine (H := list_channel _)) :=
  lookup_steps first_of
    [Resolve 7 100 (a_world 0); Resolve 8 101 (a_world 1); Resolve 7 100 (a_world 2); TakeRequest;
     Resolve 7 100 (a_world 1500); LookupFailed; Resolve 7 100 (a_world 4000)]
    {| cm_resolver := resolver_new (chan_new 1024) (lit "node"); cm_request := None |}.

Lemma lookups_once_per_workload_witness :
  match a_lookup_run (fun _ => None) with
  | Some s => asked s = [8; 7] ∧ NoDup (asked s) ∧ a_lookup_run (fun X => head (elements X)) = Some s
  | None => False
  end.
Proof.
  assert (asked <$> a_lookup_run (fun _ => None) = Some [8; 7]) as Ha by (vm_compute; reflexivity).
  destruct (a_lookup_run (fun _ => None)) as [s|] eqn:E; [|discriminate Ha].
  destruct (@lookups_once_per_workload (list_channel _) (fun _ => None) (fun X => head (elements X)) 1024 (lit "node")
    _ s ltac:(lia) ltac:(unfold MAX_PENDING_LOOKUPS; lia) E) as (Hnd & _ & _ & Hany).
  split; [by injection Ha|]. split; [exact Hnd|exact Hany].
Defined.

(** * A workload that stays unknown *)

Section Unknown.
Context `{Channel ContainerLookupRequest} (first_of : gset Z → option Z) (c pid : Z).

(** Events of the workload, one after another, with nothing in between. *)
Fixpoint resolves (ws : list surroundings) (r : ContainerResolver) : list (option ContainerContext) * ContainerResolver :=
  match ws with
  | [] => ([], r)
  | w :: ws => let '(o, r) := resolve first_of c pid w r in let '(os, r) := resolves ws r in (o :: os, r)
  end.

(** No two events of the workload are further apart than the lifetime of a cache entry. *)
Fixpoint busy (last : Z) (ws : list surroundings) : Prop :=
  match ws with [] => True | w :: ws => last <= su_now w < last + CONTAINER_TTL ∧ busy (su_now w) ws end.

Lemma settled_stays ws r e :
  cr_cache r !! c = Some e → ce_unresolved_id e = None → busy (ce_last_seen e) ws → c ≠ 0 →
  (resolves ws r).1 = replicate (length ws) (Some (ce_context e)) ∧ same_requests r (resolves ws r).2.
Proof.
  intros He Hu Hb Hc. induction ws as [|w ws IH] in r, e, He, Hu, Hb |- *; [by split|]. destruct Hb as [Hw Hb].
  cbn [resolves]. unfold resolve. rewrite (proj2 (Z.eqb_neq c 0) Hc), He, (proj2 (Z.ltb_lt _ _)) by lia. cbn.
  rewrite Hu. set (e' := e <| ce_last_seen := su_now w |>). set (r' := r <| cr_cache := <[c := e']> (cr_cache r) |>).
  assert (cr_cache r' !! c = Some e') as He' by apply lookup_insert_eq.
  destruct (IH r' e' He' Hu Hb) as [H1 H2]. destruct (resolves ws r') as [os r'']. cbn in *. split; [by rewrite H1|exact H2].
Qed.

(** An event of a workload that is missing in the last scan, within the time in which the tree is not
    scanned again, when [/proc] does not help: the context says [unknown] for as long as the
    workload stays busy, whatever the cgroup tree says later, and no lookup is ever asked for. *)
Theorem new_workload_stays_unknown (w : surroundings) (ws : list surroundings) (r : ContainerResolver) (t : Z) :
  c ≠ 0 → cr_cache r !! c = None → cr_by_id r !! c = None → cr_last_scan r = Some t →
  su_elapsed_at w - t < CGROUP_RESCAN_COOLDOWN → su_proc w = None → busy (su_now w) ws →
  (resolves (w :: ws) r).1 = replicate (S (length ws)) (Some (new_context (cr_node_name r) None)) ∧
  same_requests r (resolves (w :: ws) r).2.
Proof.
  intros Hc Hcache Hid Hscan Hcool Hproc Hb. cbn [resolves]. unfold resolve.
  rewrite (proj2 (Z.eqb_neq c 0) Hc), Hcache. unfold resolve_miss.
  set (r1 := if _ <? _ then _ else r).
  assert (cr_by_id r1 = cr_by_id r ∧ cr_last_scan r1 = cr_last_scan r ∧ cr_node_name r1 = cr_node_name r ∧ same_requests r r1)
    as (E1 & E2 & E3 & E4) by (unfold r1; by case_match).
  unfold cgroup_info_for, cgroup_path_for_id. rewrite E1, Hid, E2, Hscan, (proj2 (Z.leb_gt _ _)) by lia. cbn [mbind option_bind].
  rewrite Hproc. set (proc := if _ <=? 0 then None else _).
  assert (proc = None) as -> by (unfold proc; by case_match). cbn. rewrite E3. set (e := {| ce_context := _; ce_last_seen := _; ce_unresolved_id := None; ce_retry_at := _; ce_attempts := _ |}).
  set (r2 := r1 <| cr_cache := <[c := e]> (cr_cache r1) |>).
  assert (cr_cache r2 !! c = Some e) as He by apply lookup_insert_eq.
  destruct (settled_stays ws r2 e He eq_refl Hb Hc) as [H1 H2]. destruct (resolves ws r2) as [os r'']. cbn in *.
  split; [by rewrite H1|]. destruct E4, H2. split; cbn in *; congruence.
Qed.
End Unknown.

(** * Paths of containers

    The container and the pod are found in the paths of all the layouts the code names. *)

Definition hex_text (s : text) : Prop := Forall (fun c => is_ascii_hexdigit c = true) s.

Lemma hex_text_forallb s : hex_text s → forallb is_ascii_hexdigit s = true.
Proof. induction 1 as [|c s Hc _ IH]; [done|]. cbn. by rewrite Hc. Qed.

Lemma hex_not c s : hex_text s → is_ascii_hexdigit c = false → c ∉ s.
Proof. intros Hs Hc Hin. pose proof (proj1 (list.Forall_forall _ _) Hs c Hin) as E. cbn in E. congruence. Qed.

Lemma hexdigit_ascii c : is_ascii_hexdigit c = true → 0 <= c < 128.
Proof. unfold is_ascii_hexdigit, digit. repeat case_match; zbool; intros; try done; lia. Qed.

Lemma utf8_hex s : hex_text s → zlen (utf8 s) = zlen s.
Proof.
  induction 1 as [|c s Hc _ IH]; [done|]. unfold utf8 in *. rewrite fmap_cons.
  change (mjoin (?a :: ?l)) with (a ++ mjoin l). unfold zlen in *. rewrite length_app. cbn [length].
  pose proof (hexdigit_ascii c Hc).
  assert (length (encode_char c) = 1%nat) as -> by (unfold encode_char; by rewrite (proj2 (Z.ltb_lt c 128)) by lia). lia.
Qed.

(** * Prefixes and suffixes *)

Lemma strip_prefix_app (p s : text) : strip_prefix p (p ++ s) = Some s.
Proof. unfold strip_prefix. by rewrite take_app_length, bool_decide_eq_true_2, drop_app_length. Qed.

(** A prefix with a character the text has not among its first ones. *)
Lemma strip_prefix_none (p s r : text) c :
  c ∈ p → c ∉ s → (length p <= length s)%nat → strip_prefix p (s ++ r) = None.
Proof.
  intros Hp Hs Hl. unfold strip_prefix. rewrite bool_decide_eq_false_2; [done|]. rewrite take_app_le by done.
  intros E. apply Hs. rewrite <- E in Hp. rewrite <- (take_drop (length p) s). apply elem_of_app. by left.
Qed.

Lemma strip_suffix_app p s : strip_suffix p (s ++ p) = Some s.
Proof. unfold strip_suffix. rewrite reverse_app, strip_prefix_app. cbn. by rewrite reverse_involutive. Qed.

(** A suffix with a character that is no digit is not the end of a number. *)
Lemma strip_suffix_hex p r s c :
  c ∈ p → is_ascii_hexdigit c = false → hex_text s → (length p <= length s)%nat → strip_suffix p (r ++ s) = None.
Proof.
  intros Hp Hc Hs Hl. unfold strip_suffix. rewrite reverse_app.
  rewrite (strip_prefix_none _ _ _ c); [done|by apply elem_of_reverse|by rewrite elem_of_reverse; apply hex_not|].
  by rewrite !length_reverse.
Qed.

(** * Containers *)

Definition CONTAINER_PREFIXES : list text := [] :: RUNTIME_PREFIXES.

Lemma strip_first_hex ps s :
  Forall (fun p => 45 ∈ p ∧ (length p <= length s)%nat) ps → hex_text s → strip_first ps s = s.
Proof.
  induction 1 as [|p ps [Hp Hl] _ IH]; intros Hs; [done|]. cbn [strip_first].
  rewrite <- (app_nil_r s) at 1. rewrite (strip_prefix_none p s [] 45) by (done || by apply hex_not). by apply IH.
Qed.

Lemma strip_first_runtime p s :
  p ∈ CONTAINER_PREFIXES → hex_text s → (32 <= length s)%nat → strip_first RUNTIME_PREFIXES (p ++ s) = s.
Proof.
  intros Hp Hs Hl. unfold CONTAINER_PREFIXES, RUNTIME_PREFIXES in Hp.
  apply elem_of_cons in Hp as [->|Hp].
  - apply strip_first_hex; [|done]. unfold RUNTIME_PREFIXES.
    repeat (apply Forall_cons; [split; [refine (bool_decide_unpack _ _); vm_compute; exact I|
      etrans; [|exact Hl]; apply Nat.leb_le; reflexivity]|]). apply Forall_nil.
  - repeat (apply elem_of_cons in Hp as [->|Hp]); [reflexivity..|by apply not_elem_of_nil in Hp].
Qed.

(** The segment of a container: an optional prefix of the runtime, the number, an optional [.scope]. *)
Definition container_segment (prefix id : text) (scope : bool) : text :=
  prefix ++ id ++ (if scope then clit ".scope" else []).

Definition container_number (id : text) : Prop := hex_text id ∧ (32 <= length id)%nat.

Lemma container_segment_found prefix id scope :
  prefix ∈ CONTAINER_PREFIXES → container_number id → container_id_from_segment (container_segment prefix id scope) = Some id.
Proof.
  intros Hp [Hh Hl]. unfold container_id_from_segment, container_segment.
  assert (default (prefix ++ id ++ (if scope then clit ".scope" else []))
            (strip_suffix (clit ".scope") (prefix ++ id ++ (if scope then clit ".scope" else []))) = prefix ++ id) as ->.
  { destruct scope; [by rewrite app_assoc, strip_suffix_app|]. rewrite app_nil_r.
    by rewrite (strip_suffix_hex (clit ".scope") prefix id 46) by
      (done || (refine (bool_decide_unpack _ _); vm_compute; exact I) || (etrans; [|exact Hl]; apply Nat.leb_le; reflexivity)). }
  rewrite strip_first_runtime, utf8_hex, hex_text_forallb by done.
  by rewrite (proj2 (Z.leb_le 32 (zlen id))) by (unfold zlen; lia).
Qed.

(** Nothing in such a segment is taken for a pod. *)
Lemma after_last_skip (needle s : text) c d p :
  needle = d :: p → c ≠ d → after_last needle (c :: s) = after_last needle s.
Proof.
  intros -> Hc. cbn [after_last]. destruct (after_last (d :: p) s); [done|]. unfold strip_prefix.
  rewrite bool_decide_eq_false_2; [done|]. cbn. congruence.
Qed.

Lemma after_last_free (needle a s : text) d p :
  needle = d :: p → d ∉ a → after_last needle (a ++ s) = after_last needle s.
Proof.
  intros Hn. induction a as [|c a IH]; [done|]. rewrite not_elem_of_cons. intros [Hc Ha]. cbn [app].
  rewrite (after_last_skip needle _ c d p); [by apply IH|done|congruence].
Qed.

(** Neither does a hyphen in front of something else than the rest. *)
Lemma after_last_other (s : text) c :
  c ≠ 112 → after_last (clit "-pod") (45 :: c :: s) = after_last (clit "-pod") (c :: s).
Proof.
  intros Hc. cbn [after_last]. destruct (after_last _ s); [done|]. destruct (strip_prefix _ (c :: s)); [done|].
  unfold strip_prefix. rewrite bool_decide_eq_false_2; [done|]. change (clit "-pod") with [45; 112; 111; 100].
  cbn. congruence.
Qed.

(** No hyphen of the text is followed by a [p] in it. *)
Fixpoint hyphens_ok (p : text) : bool :=
  match p with
  | [] => true
  | c :: p' => negb ((c =? 45) && match p' with d :: _ => d =? 112 | [] => false end) && hyphens_ok p'
  end.

Lemma after_last_hyphens p c s :
  hyphens_ok p = true → c ≠ 112 → after_last (clit "-pod") (p ++ c :: s) = after_last (clit "-pod") (c :: s).
Proof.
  intros Hp Hc. induction p as [|x p IH]; [done|]. cbn [hyphens_ok] in Hp. apply andb_true_iff in Hp as [Hx Hp].
  rewrite <- (IH Hp). cbn [app]. destruct (Z.eqb_spec x 45) as [->|Hne].
  - destruct p as [|d p]; cbn [app]; [by apply after_last_other|]. apply after_last_other. cbn in Hx. by zbool.
  - by apply (after_last_skip _ _ x 45 (clit "pod")).
Qed.

Lemma container_segment_no_pod prefix id scope :
  prefix ∈ CONTAINER_PREFIXES → container_number id → pod_uid_from_segment (container_segment prefix id scope) = None.
Proof.
  intros Hp [Hh Hl]. unfold pod_uid_from_segment, container_segment.
  set (tail := if scope then clit ".scope" else []).
  assert (strip_suffix (clit ".slice") (prefix ++ id ++ tail) = None) as Hs.
  { unfold tail. destruct scope; [unfold strip_suffix; rewrite app_assoc, reverse_app; reflexivity|]. rewrite app_nil_r.
    apply (strip_suffix_hex _ prefix id 46); try done; [refine (bool_decide_unpack _ _); vm_compute; exact I|].
    etrans; [|exact Hl]. apply Nat.leb_le; reflexivity. }
  rewrite Hs. cbn [default]. destruct id as [|c id]; [cbn in Hl; lia|]. apply Forall_cons_1 in Hh as [Hc Hh].
  assert (c ≠ 112 ∧ c ≠ 45) as [Hc1 Hc2] by (split; intros ->; discriminate Hc).
  assert (hyphens_ok prefix = true ∧ strip_prefix (clit "pod") (prefix ++ (c :: id) ++ tail) = None) as [Hy Hpod].
  { clear -Hp Hc1. unfold CONTAINER_PREFIXES, RUNTIME_PREFIXES in Hp.
    apply elem_of_cons in Hp as [->|Hp].
    - split; [done|]. unfold strip_prefix. rewrite bool_decide_eq_false_2; [done|]. cbn. congruence.
    - repeat (apply elem_of_cons in Hp as [->|Hp]); [split; reflexivity..|by apply not_elem_of_nil in Hp]. }
  rewrite Hpod. cbn [app]. rewrite after_last_hyphens by done.
  rewrite (after_last_free _ (c :: id) tail 45 (clit "pod")); [|done|].
  - unfold tail. by destruct scope.
  - rewrite not_elem_of_cons. split; [congruence|by apply hex_not].
Qed.

(** * Pods *)

(** A UUID by its groups. *)
Definition uuid_groups (gs : list text) : Prop := Forall2 (fun g n => length g = n ∧ hex_text g) gs [8; 4; 4; 4; 12]%nat.

Definition uuid (gs : list text) : text := join_text [45] gs.

(** The segment of a pod: of cgroupfs, or of systemd behind some other text. *)
Inductive pod_layout := Cgroupfs | Systemd (before : text).

Definition pod_segment (l : pod_layout) (gs : list text) : text :=
  match l with
  | Cgroupfs => clit "pod" ++ uuid gs
  | Systemd before => before ++ clit "-pod" ++ join_text [95] gs ++ clit ".slice"
  end.

(** No slash in the text before, which does not start with [pod]. *)
Definition layout_ok (l : pod_layout) : Prop :=
  match l with
  | Cgroupfs => True
  | Systemd before => 47 ∉ before ∧ starts_with (clit "pod") (before ++ clit "-pod") = false
  end.

Lemma uuid_groups_hex gs : uuid_groups gs → Forall hex_text gs.
Proof. unfold uuid_groups. intros Hg. eapply Forall2_Forall_l; [exact Hg|]. by repeat (apply Forall_cons; [tauto|]). Qed.

Lemma is_uuid_uuid gs : uuid_groups gs → is_uuid (uuid gs) = true.
Proof.
  intros Hg. unfold is_uuid, uuid. pose proof (uuid_groups_hex gs Hg) as Hh. unfold uuid_groups in Hg.
  rewrite split_on_join_text; [|by destruct gs; inversion Hg|].
  - repeat (apply Forall2_cons_inv_r in Hg as (? & ? & [? ?] & Hg & ->)). apply Forall2_nil_inv_r in Hg as ->.
    cbn [zip zip_with forallb fst snd]. rewrite !utf8_hex, !hex_text_forallb by done. unfold zlen.
    rewrite !H, !H1, !H3, !H5, !H7. done.
  - eapply list.Forall_impl; [exact Hh|]. intros g Hgh. by apply hex_not.
Qed.

Notation dashes := (fmap (fun c => if c =? 95 then 45 else c)).

Lemma dashes_hex g : hex_text g → dashes g = g.
Proof.
  induction 1 as [|c g Hc _ IH]; [done|]. rewrite fmap_cons, IH. destruct (Z.eqb_spec c 95) as [->|]; [discriminate Hc|done].
Qed.

Lemma dashes_join c gs : c = 45 ∨ c = 95 → Forall hex_text gs → dashes (join_text [c] gs) = join_text [45] gs.
Proof.
  intros Hc Hg. induction Hg as [|g gs Hg Hgs IH]; [done|]. destruct gs as [|g' gs]; [by apply dashes_hex|].
  rewrite !join_text_cons, !fmap_app, IH, dashes_hex by done. f_equal. f_equal. by destruct Hc as [->| ->].
Qed.

Lemma after_last_found (p s : text) :
  45 ∉ s → after_last (clit "-pod") (p ++ clit "-pod" ++ s) = Some s.
Proof.
  intros Hs. induction p as [|c p IH]; cbn [app]; [|cbn [after_last]; by rewrite IH].
  change (clit "-pod") with [45; 112; 111; 100]. cbn [app after_last].
  change (after_last [45; 112; 111; 100] s) with (after_last (clit "-pod") s).
  assert (after_last (clit "-pod") (s ++ []) = after_last (clit "-pod") []) as E
    by (by apply (after_last_free _ s [] 45 [112; 111; 100])). rewrite app_nil_r in E. rewrite E.
  reflexivity.
Qed.

Lemma join_free c sep gs : c ≠ sep → Forall hex_text gs → is_ascii_hexdigit c = false → c ∉ join_text [sep] gs.
Proof.
  intros Hc Hg Hx. induction Hg as [|g gs Hg Hgs IH]; [apply not_elem_of_nil|].
  destruct gs as [|g' gs]; [by apply hex_not|]. rewrite join_text_cons, !not_elem_of_app.
  split_and!; [by apply hex_not|by intros ?%list_elem_of_singleton|done].
Qed.

Lemma pod_segment_found l gs :
  layout_ok l → uuid_groups gs → pod_uid_from_segment (pod_segment l gs) = Some (uuid gs).
Proof.
  intros Hl Hg. pose proof (uuid_groups_hex gs Hg) as Hh. pose proof (is_uuid_uuid gs Hg) as Hu.
  unfold pod_uid_from_segment. destruct l as [|before]; cbn [pod_segment].
  - assert (strip_suffix (clit ".slice") (clit "pod" ++ uuid gs) = None) as ->.
    { unfold uuid_groups in Hg.
      repeat (apply Forall2_cons_inv_r in Hg as (? & ? & [? ?] & Hg & ->)). apply Forall2_nil_inv_r in Hg as ->.
      unfold uuid. rewrite !join_text_cons. cbn [join_text]. rewrite !app_assoc.
      apply (strip_suffix_hex _ _ _ 46); try done; [refine (bool_decide_unpack _ _); vm_compute; exact I|].
      match goal with |- (_ <= length ?x)%nat => assert (length x = 12%nat) as -> by done end.
      apply Nat.leb_le; reflexivity. }
    cbn [default]. rewrite strip_prefix_app. cbn [mbind option_bind]. unfold uuid in *.
    rewrite (dashes_join 45) by (done || by left). by rewrite Hu.
  - destruct Hl as [_ Hl]. rewrite !app_assoc, strip_suffix_app. cbn [default id]. rewrite <- app_assoc.
    assert (strip_prefix (clit "pod") (before ++ clit "-pod" ++ join_text [95] gs) = None) as ->.
    { unfold starts_with in Hl. unfold strip_prefix. rewrite app_assoc.
      rewrite take_app_le by (rewrite length_app; cbn; lia). by rewrite Hl. }
    rewrite after_last_found by (by apply join_free). cbn [mbind option_bind].
    rewrite (dashes_join 95) by (done || by right). unfold uuid in Hu. by rewrite Hu.
Qed.

(** A character that is not the separator is in one of the parts. *)
Lemma split_on_keeps sep c s : c ∈ s → c ≠ sep → ∃ part, part ∈ split_on sep s ∧ c ∈ part.
Proof.
  intros Hin Hne. induction s as [|x s IH]; [by apply not_elem_of_nil in Hin|]. cbn [split_on].
  pose proof (split_on_ne sep s) as Hnil. apply elem_of_cons in Hin as [->|Hin].
  - rewrite (proj2 (Z.eqb_neq _ _)) by done. destruct (split_on sep s) as [|part parts]; [done|].
    exists (x :: part). split; [apply elem_of_cons; by left|apply elem_of_cons; by left].
  - destruct (IH Hin) as (part & Hp & Hc). case_match; [exists part; split; [apply elem_of_cons; by right|done]|].
    destruct (split_on sep s) as [|q qs]; [done|]. apply elem_of_cons in Hp as [->|Hp].
    + exists (x :: q). split; apply elem_of_cons; [by left|by right].
    + exists part. split; [apply elem_of_cons; by right|done].
Qed.

Lemma is_uuid_chars s c : is_uuid s = true → c ∈ s → c = 45 ∨ is_ascii_hexdigit c = true.
Proof.
  unfold is_uuid. intros [Hlen Hall]%andb_prop Hin. destruct (Z.eq_dec c 45) as [|Hne]; [by left|right].
  destruct (split_on_keeps 45 c s Hin Hne) as (part & Hp & Hc). apply Z.eqb_eq in Hlen. unfold zlen in Hlen.
  destruct (split_on 45 s) as [|p1 [|p2 [|p3 [|p4 [|p5 [|p6 parts]]]]]]; cbn in Hlen; try lia.
  cbn [zip zip_with forallb fst snd] in Hall. zbool. rewrite !elem_of_cons in Hp.
  assert (∀ p, forallb is_ascii_hexdigit p = true → c ∈ p → is_ascii_hexdigit c = true) as Hx.
  { intros p Hf Hcp. rewrite forallb_forall in Hf. by apply Hf, list_elem_of_In. }
  destruct Hp as [->|[->|[->|[->|[->|Hp]]]]]; [eauto..|by apply not_elem_of_nil in Hp].
Qed.

(** The exception to [layout_ok]: behind a systemd slice whose own name starts with [pod] no pod is found, since
    the text from its fourth character on is taken for the UUID. *)
Lemma pod_prefix_hides_pod rest gs :
  pod_uid_from_segment (pod_segment (Systemd (clit "pod" ++ rest)) gs) = None.
Proof.
  unfold pod_uid_from_segment, pod_segment. rewrite !app_assoc, strip_suffix_app. cbn [default id].
  rewrite <- !app_assoc, strip_prefix_app. cbn [mbind option_bind]. case_match eqn:Hu; [|done]. exfalso.
  destruct (is_uuid_chars _ 112 Hu) as [?|Hx]; [|done|discriminate Hx].
  rewrite !fmap_app, !elem_of_app. right. left. refine (bool_decide_unpack _ _). vm_compute. exact I.
Qed.

(** C36: A container is recognised behind the segment of its pod. Take any path whose last two segments are
    the segment of a pod and the segment of a container (with or without any of the prefixes of the runtimes, any
    number of at least 32 hexadecimal digits, with or without [.scope]), and anything in front of them, parts
    that look like other pods and containers included. The segment of the pod is [pod] and the UUID (cgroupfs), or
    any text without a slash that does not start with [pod], then [-pod], the UUID with underscores for hyphens
    and [.slice] (systemd): these are the layouts of [layout_ok]; behind a slice named [pod...] the pod is not
    found ([pod_prefix_hides_pod]). Then [parse_cgroup_path] gives exactly the UUID of the pod, the number of the
    container and its first twelve digits. *)
Theorem container_paths_parse (before : text) (l : pod_layout) (gs : list text) (prefix id : text) (scope : bool) :
  layout_ok l → uuid_groups gs → prefix ∈ CONTAINER_PREFIXES → container_number id →
  parse_cgroup_path (before ++ [47] ++ pod_segment l gs ++ [47] ++ container_segment prefix id scope) =
  Some {| ci_pod_uid := Some (uuid gs); ci_container_id_full := Some id; ci_container_id_short := Some (take 12 id) |}.
Proof.
  intros Hl Hg Hp Hid. pose proof (pod_segment_found l gs Hl Hg) as Hpod.
  pose proof (container_segment_found prefix id scope Hp Hid) as Hcont.
  pose proof (container_segment_no_pod prefix id scope Hp Hid) as Hno.
  assert (47 ∉ pod_segment l gs) as Hs1.
  { pose proof (uuid_groups_hex gs Hg) as Hh. destruct l as [|b]; cbn [pod_segment]; rewrite !not_elem_of_app.
    - split; [refine (bool_decide_unpack _ _); vm_compute; exact I|by apply join_free].
    - destruct Hl as [Hb _]. split_and!; try done; [| |]; try (refine (bool_decide_unpack _ _); vm_compute; exact I).
      by apply join_free. }
  assert (47 ∉ container_segment prefix id scope) as Hs2.
  { destruct Hid as [Hh _]. unfold container_segment. rewrite !not_elem_of_app. split_and!.
    - unfold CONTAINER_PREFIXES, RUNTIME_PREFIXES in Hp.
      repeat (apply elem_of_cons in Hp as [->|Hp]; [refine (bool_decide_unpack _ _); vm_compute; exact I|]).
      by apply not_elem_of_nil in Hp.
    - by apply hex_not.
    - destruct scope; refine (bool_decide_unpack _ _); vm_compute; exact I. }
  unfold parse_cgroup_path. cbn [app]. rewrite !split_on_app, (split_on_free 47 (pod_segment l gs)), (split_on_free 47 (container_segment prefix id scope)),
    !fold_left_app by done. cbn [fold_left].
  set (acc := fold_left scan_segment (split_on 47 before) (None, None)).
  assert (∀ s f, pod_uid_from_segment s ≠ None ∨ container_id_from_segment s ≠ None → scan_segment f s =
    (match pod_uid_from_segment s with Some u => Some u | None => f.1 end,
     match container_id_from_segment s with Some i => Some i | None => f.2 end)) as Hscan.
  { intros s f Hne. unfold scan_segment. repeat case_bool_decide; subst; try done; by destruct Hne. }
  rewrite (Hscan (pod_segment l gs)) by (left; by rewrite Hpod). rewrite Hscan by (right; by rewrite Hcont).
  by rewrite Hpod, Hcont, Hno.
Qed.

Lemma container_paths_parse_witness :
  parse_cgroup_path (clit "/../kubelet.slice/kubelet-kubepods-burstable.slice/kubelet-kubepods-burstable-pod123e4567_e89b_12d3_a456_426614174000.slice/cri-containerd-abcdef0123456789abcdef0123456789.scope") =
  Some {| ci_pod_uid := Some (clit "123e4567-e89b-12d3-a456-426614174000");
          ci_container_id_full := Some (clit "abcdef0123456789abcdef0123456789");
          ci_container_id_short := Some (clit "abcdef012345") |}.
Proof.
  refine (container_paths_parse (clit "/../kubelet.slice/kubelet-kubepods-burstable.slice")
    (Systemd (clit "kubelet-kubepods-burstable"))
    [clit "123e4567"; clit "e89b"; clit "12d3"; clit "a456"; clit "426614174000"]
    (clit "cri-containerd-") (clit "abcdef0123456789abcdef0123456789") true _ _ _ _).
  - split; [refine (bool_decide_unpack _ _); vm_compute; exact I|reflexivity].
  - repeat (apply Forall2_cons; [split; [reflexivity|refine (bool_decide_unpack _ _); vm_compute; exact I]|]).
    apply Forall2_nil.
  - refine (bool_decide_unpack _ _); vm_compute; exact I.
  - split; [refine (bool_decide_unpack _ _); vm_compute; exact I|apply Nat.leb_le; reflexivity].
Defined.
