(* ===== verification/Dns.v ===== *)
(** Names of peers: the cache of [userspace/src/dns.rs] and the task of [userspace/src/main.rs] that fills
    it.

    [str::parse] of an address is the parameter [parse_ip]; what the resolver of the system answers is an
    argument of the step that ends a lookup. Times are seconds. At the end: no address waits for an answer
    twice, and a bounded number of threads is inside the resolver; a thread that has outlived its
    timeout is one of them, so that the resolver itself can be asked twice at a time
    ([slow_resolver_is_asked_again]). *)

From S2P Require Import Prelude Pending Text Export.
From Stdlib Require Import Strings.String.

#[local] Notation length := List.length.
#[local] Open Scope list_scope.
#[local] Open Scope Z_scope.

(** * Addresses *)

(** Four octets, or eight segments of sixteen bits. *)
Inductive IpAddr := V4 (octets : list Z) | V6 (segments : list Z).

#[export] Instance IpAddr_eq_dec : EqDecision IpAddr.
Proof. solve_decision. Defined.

#[export] Instance IpAddr_countable : Countable IpAddr.
Proof.
  refine (inj_countable' (fun ip => match ip with V4 o => inl o | V6 s => inr s end)
            (fun x => match x with inl o => V4 o | inr s => V6 s end) _); by intros [].
Defined.

Definition is_loopback (ip : IpAddr) : bool :=
  match ip with
  | V4 o => nth 0 o 0 =? 127
  | V6 s => bool_decide (s = [0; 0; 0; 0; 0; 0; 0; 1])
  end.

Definition is_link_local (ip : IpAddr) : bool :=
  match ip with
  | V4 o => (nth 0 o 0 =? 169) && (nth 1 o 0 =? 254)
  | V6 s => Z.land (nth 0 s 0) 0xffc0 =? 0xfe80
  end.

(** * The cache *)

Definition CACHE_TTL : Z := 300.
Definition NEGATIVE_TTL : Z := 60.
Definition DNS_MAX_ENTRIES : Z := 10000.
Definition DNS_MAX_INFLIGHT : Z := 8.

Record CacheEntry := { ca_hostname : option bytes; ca_resolved_at : Z; ca_ttl : Z }.

Record DnsResolver `{Channel IpAddr} := {
  dr_cache : gmap IpAddr CacheEntry;
  dr_pending : gset IpAddr;
  dr_lookup_tx : chan
}.

(** The age of an entry; [Instant]s do not run backwards. *)
Definition is_fresh (now : Z) (e : CacheEntry) : bool := Z.max 0 (now - ca_resolved_at e) <? ca_ttl e.

Section Resolver.
Context `{Channel IpAddr} (parse_ip : bytes → option IpAddr).

#[export] Instance DnsResolver_fields : Fields DnsResolver := fun r =>
  Build_DnsResolver _ (dr_cache r) (dr_pending r) (dr_lookup_tx r).

Definition dns_new (lookup_tx : chan) : DnsResolver :=
  {| dr_cache := ∅; dr_pending := ∅; dr_lookup_tx := lookup_tx |}.

(** The end of [lookup_and_queue]. *)
Definition queue_lookup (ip : IpAddr) (r : DnsResolver) : DnsResolver :=
  if bool_decide (ip ∈ dr_pending r) then r
  else match chan_try_send ip (dr_lookup_tx r) with
       | Some c => r <| dr_lookup_tx := c |> <| dr_pending := ({[ip]} ∪ dr_pending r) |>
       | None => r
       end.

Definition lookup_and_queue (ip_str : bytes) (now : Z) (r : DnsResolver) : option bytes * DnsResolver :=
  match parse_ip ip_str with
  | None => (None, r)
  | Some ip =>
      if is_loopback ip || is_link_local ip then (None, r)
      else match dr_cache r !! ip with
           | Some e => if is_fresh now e then (ca_hostname e, r) else (None, queue_lookup ip r)
           | None => (None, queue_lookup ip r)
           end
  end.

(** [now] and [later] are the two readings of the clock. *)
Definition dns_insert (ip : IpAddr) (hostname : option bytes) (now later : Z) (r : DnsResolver) : DnsResolver :=
  let ttl := match hostname with Some _ => CACHE_TTL | None => NEGATIVE_TTL end in
  let cache := if DNS_MAX_ENTRIES <=? Z.of_nat (size (dr_cache r))
               then base.filter (fun kv => is_fresh now kv.2 = true) (dr_cache r) else dr_cache r in
  r <| dr_cache := (<[ip := {| ca_hostname := hostname; ca_resolved_at := later; ca_ttl := ttl |}]> cache) |>
    <| dr_pending := (dr_pending r ∖ {[ip]}) |>.

(** * The task

    [dm_next] is the address for which the task waits for a permit; a lookup that runs has a task that
    waits for its answer ([Some] address) and a thread that holds the permit until the resolver
    returns, which may be after the task has given up; [dm_threads] holds the addresses these threads
    ask about. *)
Record dns_machine := {
  dm_resolver : DnsResolver;
  dm_next : option IpAddr;
  dm_tasks : list IpAddr;
  dm_threads : list IpAddr
}.

#[export] Instance dns_machine_fields : Fields dns_machine := fun s =>
  Build_dns_machine (dm_resolver s) (dm_next s) (dm_tasks s) (dm_threads s).

Inductive dns_label :=
| Ask (ip_str : bytes) (now : Z)
| TakeIp (now later : Z)
| Start
| ThreadReturns (ip : IpAddr)
| TaskEnds (ip : IpAddr) (hostname : option bytes) (now later : Z).

(** The first copy of an address leaves: its task ends, or its thread. *)
Fixpoint remove_first (ip : IpAddr) (l : list IpAddr) : list IpAddr :=
  match l with [] => [] | x :: l => if bool_decide (x = ip) then l else x :: remove_first ip l end.

Definition dns_step (reverse_dns : bool) (l : dns_label) (s : dns_machine) : option dns_machine :=
  match l with
  | Ask ip_str now => Some (s <| dm_resolver := ((lookup_and_queue ip_str now (dm_resolver s)).2) |>)
  | TakeIp now later =>
      match dm_next s, chan_recv (dr_lookup_tx (dm_resolver s)) with
      | None, Some (ip, c) =>
          let r := (dm_resolver s) <| dr_lookup_tx := c |> in
          if reverse_dns then Some (s <| dm_resolver := r |> <| dm_next := Some ip |>)
          else Some (s <| dm_resolver := (dns_insert ip None now later r) |>)
      | _, _ => None
      end
  | Start =>
      match dm_next s with
      | Some ip =>
          if zlen (dm_threads s) <? DNS_MAX_INFLIGHT
          then Some (s <| dm_next := None |> <| dm_tasks := (dm_tasks s ++ [ip]) |>
                       <| dm_threads := (dm_threads s ++ [ip]) |>)
          else None
      | None => None
      end
  | ThreadReturns ip =>
      if bool_decide (ip ∈ dm_threads s) then Some (s <| dm_threads := (remove_first ip (dm_threads s)) |>) else None
  | TaskEnds ip hostname now later =>
      if bool_decide (ip ∈ dm_tasks s)
      then Some (s <| dm_resolver := (dns_insert ip hostname now later (dm_resolver s)) |>
                   <| dm_tasks := (remove_first ip (dm_tasks s)) |>)
      else None
  end.

Fixpoint dns_steps (reverse_dns : bool) (ls : list dns_label) (s : dns_machine) : option dns_machine :=
  match ls with [] => Some s | l :: ls => s ← dns_step reverse_dns l s; dns_steps reverse_dns ls s end.

Definition dns_machine_new (capacity : Z) : dns_machine :=
  {| dm_resolver := dns_new (chan_new capacity); dm_next := None; dm_tasks := []; dm_threads := [] |}.

(** The addresses that wait for an answer: in the channel, for a permit, or within their timeout. *)
Definition dns_asked (s : dns_machine) : list IpAddr :=
  dm_tasks s ++ option_list (dm_next s) ++ items (dr_lookup_tx (dm_resolver s)).
End Resolver.

(** * No address waits twice

    For a bounded number of threads; and the cache answers as long as it promises. *)

Section Dns.
Context `{Channel IpAddr} (parse_ip : bytes → option IpAddr) (reverse_dns : bool).

Definition dns_inv (cap : Z) (s : dns_machine) : Prop :=
  NoDup (dns_asked s) ∧ dr_pending (dm_resolver s) = list_to_set (dns_asked s) ∧
  zlen (dm_threads s) <= DNS_MAX_INFLIGHT ∧
  max_capacity (dr_lookup_tx (dm_resolver s)) = cap ∧ zlen (items (dr_lookup_tx (dm_resolver s))) <= cap ∧
  (∀ ip e, dr_cache (dm_resolver s) !! ip = Some e →
     ca_ttl e = match ca_hostname e with Some _ => CACHE_TTL | None => NEGATIVE_TTL end).

Lemma remove_first_perm ip l : ip ∈ l → ip :: remove_first ip l ≡ₚ l.
Proof.
  induction l as [|x l IH]; [by intros ?%not_elem_of_nil|]. cbn. case_bool_decide as E; [by subst|].
  intros [?|Hin]%elem_of_cons; [congruence|]. by rewrite Permutation_swap, IH.
Qed.

Lemma dns_insert_cache ip h now later r ip' e :
  dr_cache (dns_insert ip h now later r) !! ip' = Some e →
  (ip' = ip ∧ e = {| ca_hostname := h; ca_resolved_at := later; ca_ttl := match h with Some _ => CACHE_TTL | None => NEGATIVE_TTL end |})
  ∨ (ip' ≠ ip ∧ dr_cache r !! ip' = Some e).
Proof.
  unfold dns_insert. cbn. intros [[-> <-]|[Hne He]]%lookup_insert_Some; [by left|]. right. split; [done|].
  case_match; [|done]. by apply map_lookup_filter_Some in He as [? _].
Qed.

(** One address less is asked about. *)
Lemma dns_answered cap s s' ip h now later :
  dns_inv cap s → dns_asked s ≡ₚ ip :: dns_asked s' → dm_threads s' = dm_threads s →
  max_capacity (dr_lookup_tx (dm_resolver s')) = cap → zlen (items (dr_lookup_tx (dm_resolver s'))) <= cap →
  dr_pending (dm_resolver s') = dr_pending (dm_resolver s) ∖ {[ip]} →
  dr_cache (dm_resolver s') = dr_cache (dns_insert ip h now later (dm_resolver s)) → dns_inv cap s'.
Proof.
  intros (Hnd & Hp & Ht & _ & _ & Hc) Hask Hth Hm Hl Hp' Hc'. unfold dns_inv. rewrite Hask in Hnd.
  apply list.NoDup_cons in Hnd as [Hin Hnd]. rewrite <- Hth in Ht. split_and!; try done; [|].
  - rewrite Hp', Hp. apply set_eq. intros x. rewrite elem_of_difference, !elem_of_list_to_set, Hask, elem_of_cons.
    set_solver.
  - intros ip' e He. rewrite Hc' in He. apply dns_insert_cache in He as [[_ ->]|[_ He]]; [done|by apply (Hc ip')].
Qed.

Lemma queue_lookup_inv cap s ip :
  dns_inv cap s → dns_inv cap (s <| dm_resolver := (queue_lookup ip (dm_resolver s)) |>).
Proof.
  intros Hi. unfold queue_lookup. case_bool_decide as Hin; [by destruct s|].
  pose proof (chan_try_send_spec ip (dr_lookup_tx (dm_resolver s))) as Hsend.
  destruct (chan_try_send _ _) as [c|]; [|by destruct s]. destruct Hi as (Hnd & Hp & Ht & Hm & Hl & Hc).
  destruct Hsend as (Hroom & Hitems & Hmax). rewrite Hp, elem_of_list_to_set in Hin.
  unfold dns_inv, dns_asked in *. cbn. rewrite Hitems, !app_assoc. rewrite !app_assoc in Hin, Hnd, Hp. split_and!; try done; try lia.
  - apply list.NoDup_app. split; [done|]. split; [|apply list.NoDup_singleton]. by intros x Hx ->%list_elem_of_singleton.
  - rewrite Hp, (list_to_set_app_L _ [ip]). cbn. set_solver.
  - unfold zlen in *. rewrite length_app. cbn. lia.
Qed.

Lemma dns_step_inv cap l s s' : dns_inv cap s → dns_step parse_ip reverse_dns l s = Some s' → dns_inv cap s'.
Proof.
  intros Hi. destruct l as [ip_str now|now later| |ip|ip h now later]; cbn [dns_step].
  - intros [= <-]. unfold lookup_and_queue. destruct (parse_ip ip_str) as [ip|]; [|by destruct s].
    repeat case_match; cbn [snd]; try (by destruct s); by apply queue_lookup_inv.
  - destruct (dm_next s) eqn:En; [done|]. pose proof (chan_recv_spec (dr_lookup_tx (dm_resolver s))) as Hrecv.
    destruct (chan_recv _) as [[ip c]|]; [|done]. destruct Hrecv as [Hitems Hmax].
    pose proof Hi as (Hnd & Hp & Ht & Hm & Hl & Hc). destruct reverse_dns; intros [= <-].
    + unfold dns_inv, dns_asked in *. rewrite En, Hitems in *. cbn in *. split_and!; try done; try lia; unfold zlen in *; cbn in Hl; lia.
    + apply (dns_answered cap s _ ip None now later); try done; unfold dns_asked; cbn; try congruence.
      * rewrite Hitems, En. cbn. by rewrite <- Permutation_middle.
      * rewrite Hitems in Hl. unfold zlen in *. cbn in Hl. lia.
  - destruct (dm_next s) as [ip|] eqn:En; [|done]. case_match; [|done]. intros [= <-]. zbool.
    destruct Hi as (Hnd & Hp & Ht & Hm & Hl & Hc). unfold dns_inv, dns_asked in *. rewrite En in *. cbn in *.
    rewrite <- app_assoc. cbn. split_and!; try done. unfold zlen in *. rewrite length_app. cbn. lia.
  - case_bool_decide as Hin; [|done]. intros [= <-]. destruct Hi as (Hnd & Hp & Ht & Hm & Hl & Hc).
    unfold dns_inv, dns_asked in *. cbn. split_and!; try done.
    pose proof (Permutation_length (remove_first_perm ip (dm_threads s) Hin)) as Hlen. unfold zlen in *. cbn in Hlen. lia.
  - case_bool_decide as Hin; [|done]. intros [= <-]. pose proof Hi as (Hnd & Hp & Ht & Hm & Hl & Hc).
    apply (dns_answered cap s _ ip h now later); try done. unfold dns_asked. cbn.
    by rewrite <- (remove_first_perm ip (dm_tasks s)) at 1.
Qed.

Lemma dns_steps_inv cap ls s s' : dns_inv cap s → dns_steps parse_ip reverse_dns ls s = Some s' → dns_inv cap s'.
Proof.
  induction ls as [|l ls IH] in s |- *; cbn; intros Hi; [by intros [= <-]|].
  destruct (dns_step parse_ip reverse_dns l s) as [s1|] eqn:E; [|done]. cbn. apply IH. by eapply dns_step_inv.
Qed.

Lemma dns_init cap : 0 <= cap → dns_inv cap (dns_machine_new cap).
Proof.
  intros Hc. unfold dns_inv, dns_asked. cbn. rewrite items_new, max_capacity_new. unfold DNS_MAX_INFLIGHT.
  split_and!; try done; constructor.
Qed.
End Dns.

(** A lookup asks for an address that is not waited for already, if the channel has room. *)
Lemma queue_lookup_pending `{Channel IpAddr} ip r :
  zlen (items (dr_lookup_tx r)) < max_capacity (dr_lookup_tx r) → ip ∈ dr_pending (queue_lookup ip r).
Proof.
  intros Hroom. unfold queue_lookup. case_bool_decide; [done|]. pose proof (chan_try_send_spec ip (dr_lookup_tx r)) as Hsend.
  destruct (chan_try_send _ _); [cbn; set_solver|lia].
Qed.

(** C37: A peer never waits for two answers, slow resolvers cannot pile up threads, and the cache serves
    an answer for exactly as long as its kind says. After any sequence of lookups by the capture, addresses
    taken up by the task, threads started, threads returning, answers and timeouts, in any order: no address
    is waited for twice (waiting is: being in the channel, being the one the task holds, or having a
    lookup that is within its timeout), the set of pending addresses is exactly those waited for, and at
    most eight threads are inside the resolver, those that outlived their timeout among them (such a thread no
    longer counts as waiting, so that its address may be asked for anew beside it:
    [slow_resolver_is_asked_again]). For an address that is neither loopback nor link-local, a cached answer is
    given, and nothing is asked, until 300 seconds (a name) or 60 seconds (no name) after it came; from
    then on, and when there is none, nothing is given whatever the channel holds, and if the channel has
    room the address is waited for afterwards. *)
Theorem dns_lookups_bounded `{Channel IpAddr} (parse_ip : bytes → option IpAddr) (reverse_dns : bool)
    (cap : Z) (ls : list dns_label) (s : dns_machine) :
  0 <= cap → dns_steps parse_ip reverse_dns ls (dns_machine_new cap) = Some s →
  let r := dm_resolver s in
  NoDup (dns_asked s) ∧ dr_pending r = list_to_set (dns_asked s) ∧ zlen (dm_threads s) <= DNS_MAX_INFLIGHT ∧
  ∀ ip_str ip now,
    parse_ip ip_str = Some ip → is_loopback ip = false → is_link_local ip = false →
    let (answer, r') := lookup_and_queue parse_ip ip_str now r in
    let unanswered := answer = None ∧ (zlen (items (dr_lookup_tx r)) < cap → ip ∈ dr_pending r') in
    match dr_cache r !! ip with
    | Some e =>
        ca_resolved_at e <= now →
        let ttl := match ca_hostname e with Some _ => 300 | None => 60 end in
        (now < ca_resolved_at e + ttl → answer = ca_hostname e ∧ r' = r) ∧ (ca_resolved_at e + ttl <= now → unanswered)
    | None => unanswered
    end.
Proof.
  intros H0 Hs r. pose proof (dns_steps_inv parse_ip reverse_dns cap ls _ s (dns_init cap H0) Hs) as (Hnd & Hp & Ht & Hm & Hl & Hc).
  split_and!; [done..|]. intros ip_str ip now Hip Hlo Hll.
  assert (zlen (items (dr_lookup_tx r)) < cap → ip ∈ dr_pending (queue_lookup ip r)) as Hq
    by (intros Hroom; apply queue_lookup_pending; subst r; lia).
  unfold lookup_and_queue. rewrite Hip, Hlo, Hll. cbn [orb]. destruct (dr_cache r !! ip) as [e|] eqn:He; [|done].
  specialize (Hc ip e He). unfold is_fresh. rewrite Hc. fold CACHE_TTL NEGATIVE_TTL.
  match goal with |- context [?a <? ?b] => destruct (Z.ltb_spec a b) end;
    intros Hnow; split; intros Hage; try done; destruct (ca_hostname e); lia.
Qed.

Definition some_ip (s : bytes) : option IpAddr :=
  match s with [] => None | _ => Some (V4 [10; 0; 0; zlen s]) end.

Definition a_dns_run : option (dns_machine (H := list_channel _)) :=
  dns_steps some_ip true
    [Ask (lit "a") 0; Ask (lit "ab") 0; Ask (lit "a") 1; TakeIp 1 1; Start; TaskEnds (V4 [10; 0; 0; 1]) None 3 3]
    (dns_machine_new 4096).

Lemma dns_lookups_bounded_witness :
  match a_dns_run with
  | Some s => dns_asked s = [V4 [10; 0; 0; 2]] ∧ NoDup (dns_asked s) ∧
              lookup_and_queue some_ip (lit "a") 62 (dm_resolver s) = (None, dm_resolver s)
  | None => False
  end.
Proof.
  assert ((fun s => (dns_asked s, dr_cache (dm_resolver s) !! V4 [10; 0; 0; 1])) <$> a_dns_run =
    Some ([V4 [10; 0; 0; 2]], Some {| ca_hostname := None; ca_resolved_at := 3; ca_ttl := 60 |})) as Ha
    by (vm_compute; reflexivity).
  destruct a_dns_run as [s|] eqn:E; [|discriminate Ha]. cbn in Ha. injection Ha as Hask He.
  destruct (@dns_lookups_bounded (list_channel _) some_ip true 4096 _ s ltac:(lia) E) as (Hnd & _ & _ & Hserve).
  split; [exact Hask|]. split; [exact Hnd|].
  specialize (Hserve (lit "a") (V4 [10; 0; 0; 1]) 62 eq_refl eq_refl eq_refl).
  destruct (lookup_and_queue some_ip (lit "a") 62 (dm_resolver s)) as [answer r']. rewrite He in Hserve.
  destruct (proj1 (Hserve ltac:(cbn; lia)) ltac:(cbn; lia)) as [-> ->]. reflexivity.
Defined.

(** A thread that has outlived its timeout: the address is cached as nameless and no longer pending, and
    once that entry has expired it is asked for again while the first thread still asks. *)
Lemma slow_resolver_is_asked_again :
  let ip := V4 [10; 0; 0; 1] in
  (dm_threads <$> dns_steps some_ip true
    [Ask (lit "a") 0; TakeIp 0 0; Start; TaskEnds ip None 2 2; Ask (lit "a") 62; TakeIp 62 62; Start]
    (dns_machine_new (H := list_channel _) 4096)) = Some [ip; ip].
Proof. vm_compute. reflexivity. Qed.

(** The cap of the cache bounds nothing while all entries are fresh. *)
Lemma fresh_cache_grows `{Channel IpAddr} ip h now (r : DnsResolver) :
  DNS_MAX_ENTRIES <= Z.of_nat (size (dr_cache r)) → dr_cache r !! ip = None →
  (∀ ip' e, dr_cache r !! ip' = Some e → is_fresh now e = true) →
  Z.of_nat (size (dr_cache (dns_insert ip h now now r))) = Z.of_nat (size (dr_cache r)) + 1.
Proof.
  intros Hs Hn Hf. unfold dns_insert. rewrite (proj2 (Z.leb_le _ _)) by done. cbn.
  rewrite map_filter_id by (intros ip' e He; by apply (Hf ip')). rewrite map_size_insert_None by done. lia.
Qed.
