(* ===== verification/EventLoop.v ===== *)
(** The poll loop of [userspace/src/main.rs]: the callbacks of the three rings, the sweep, the back-off, the
    counters of the kernel and the shutdown; with the wrappers of [ShardedStreamState] that sample.

    The callbacks run one after another on the thread that polls. What they hand to
    [ExportSender::try_send] is kept in [rd_offered], in order; how the sender, the queue and the receiver
    interleave is [Delivery]. The length of the queue a callback reads is an argument. *)

From S2P Require Import Prelude Abi.
From S2P Require Import Wire Pending Memory Queues Text Codecs Http1 Http1Props Http2 Mcp Reader H2Conn.
From S2P Require Import Shard Handle Sharded.
From S2P Require Import Event Output Redaction Identity Builder.
From Stdlib Require Import Strings.String.

#[local] Notation length := List.length.
#[local] Open Scope list_scope.
#[local] Open Scope Z_scope.

(** * Counters of the kernel *)

(** What [lookup_percpu] answers for a key. *)
Inductive percpu_answer := Values (per_cpu : list bytes) | NoKey | LookupError.

Record bpf_metrics := {
  bm_attempted : Z;
  bm_submitted : Z;
  bm_reserve_fail : Z;
  bm_copy_fail : Z;
  bm_sampled : Z;
  bm_map_fail : Z
}.

Definition saturating_add_u64 (a b : Z) : Z := Z.min (a + b) (2 ^ 64 - 1).

(** The sum over the processors; [u64::from_ne_bytes] is little-endian on the supported targets. *)
Definition sum_percpu (per_cpu : list bytes) : Z :=
  fold_left (fun sum v => if 8 <=? zlen v then saturating_add_u64 sum (le_val (take 8 v)) else sum) per_cpu 0.

Definition total_of (a : percpu_answer) : Z := match a with Values vs => sum_percpu vs | _ => 0 end.

Definition is_lookup_error (a : percpu_answer) : bool := match a with LookupError => true | _ => false end.

(** [totals[5]] is read and not used. *)
Definition aggregate_producer_stats (lookup : Z → percpu_answer) (m : bpf_metrics) : bpf_metrics :=
  let totals key := total_of (lookup key) in
  let map_fail := if existsb (fun key => is_lookup_error (lookup key)) [0; 1; 2; 3; 4; 5]
                  then u64 (bm_map_fail m + 1) else bm_map_fail m in
  if (0 <? totals 0) || (0 <? totals 1) || (0 <? totals 2) || (0 <? totals 3) || (0 <? totals 4)
  then {| bm_attempted := totals 0; bm_submitted := totals 1; bm_reserve_fail := totals 2;
          bm_copy_fail := totals 3; bm_sampled := totals 4; bm_map_fail := map_fail |}
  else {| bm_attempted := bm_attempted m; bm_submitted := bm_submitted m; bm_reserve_fail := bm_reserve_fail m;
          bm_copy_fail := bm_copy_fail m; bm_sampled := bm_sampled m; bm_map_fail := map_fail |}.

(** The wait before the next poll, after a poll that succeeded or failed. *)
Definition next_poll_backoff (ok : bool) (backoff_ms : Z) : Z := if ok then 0 else Z.min (backoff_ms * 2 + 10) 1000.

Definition AGGREGATE_INTERVAL_MS : Z := 5000.

(** * The callbacks *)

Section Loop.
Context {f32 table : Type} `{Unicode, Json, Regex, CharCase}.
Context (mac : bytes → bytes) (entropy : bytes → f32) (log2_u8 : Z → Z) (fields_json : list ProtoField → option text).
Context (sizeof_request : Z) (hpack_new : table) (hpack_decode : table → bytes → hpack_result * table).
Context (cf : config) (shard_hash : Z → Z → Z).
Context (sampler : TransactionSampler) (event_hash : bytes → bytes → option bytes → option Z → Z → Z).
Context (account_id : Z).

Notation event := (ApiTrafficEvent f32).

Record reader := {
  rd_shards : list (shard NetContext table);
  rd_memory : memory;
  rd_steps : list (output NetContext);       (* the steps of the metrics of [Shard] *)
  rd_built : list build_metric;              (* and of those of [build_event] *)
  rd_offered : list event;
  rd_transactions_sampled : Z;
  rd_abi_mismatch : Z;
  rd_events_captured : Z;
  rd_watermark_pct : Z
}.

#[export] Instance reader_fields : Fields reader := fun r =>
  Build_reader (rd_shards r) (rd_memory r) (rd_steps r) (rd_built r) (rd_offered r) (rd_transactions_sampled r)
    (rd_abi_mismatch r) (rd_events_captured r) (rd_watermark_pct r).

Definition finished (now_ms : Z) (o : output NetContext) : list (event * list build_metric) :=
  match o with
  | Event t call =>
      let '(ev, steps) := build_event mac entropy log2_u8 account_id now_ms (tx_request t) (tx_response t) (tx_latency_ms t)
                            (list_byte_of_string (tx_protocol t)) (lit "ebpf") in
      [(attach_metadata call (attach_grpc_body mac fields_json (tx_grpc t) ev), steps)]
  | Incomplete r protocol outcome =>
      [build_incomplete_event mac entropy log2_u8 account_id r (list_byte_of_string protocol) (list_byte_of_string outcome)]
  | Count _ _ => []
  end.

Definition is_step (o : output NetContext) : bool := match o with Count _ _ => true | _ => false end.

(** A call on the shards, its events sampled and offered to the exporter. *)
Definition serve_and_send (now_ms : Z) (c : call NetContext) (r : reader) : reader :=
  let '(out, shards, m) := serve sizeof_request hpack_new hpack_decode cf shard_hash c (rd_shards r) (rd_memory r) in
  let made := mjoin (finished now_ms <$> out) in
  let '(kept, sampled) := sample event_hash sampler (made.*1) (rd_transactions_sampled r) in
  r <| rd_shards := shards |> <| rd_memory := m |>
    <| rd_steps := (rd_steps r ++ List.filter is_step out) |> <| rd_built := (rd_built r ++ mjoin (made.*2)) |>
    <| rd_offered := (rd_offered r ++ kept) |> <| rd_transactions_sampled := sampled |>.

(** The callback of the ring of events. *)
Definition on_event (w : surroundings NetContext) (queued capacity : Z) (data : bytes) (r : reader) : reader :=
  match from_bytes data with
  | None => r
  | Some (header, payload) =>
      if negb (h_abi_version header =? TLS_EVENT_ABI_VERSION) then
        r <| rd_abi_mismatch := u64 (rd_abi_mismatch r + 1) |>
      else
        let r := r <| rd_events_captured := u64 (rd_events_captured r + 1) |>
                   <| rd_watermark_pct := (u64 (queued * 100) / capacity) |> in
        serve_and_send (w_now_ms w) (Record w header payload) r
  end.

(** The callback of the ring of closed connections. *)
Definition on_close (now_ms : Z) (data : bytes) (r : reader) : reader :=
  match read_unaligned (A := close_event) data with
  | None => r
  | Some ev => serve_and_send now_ms (Close (ConnKey_from_close ev)) r
  end.

(** What the loop does, one after another: callbacks of a poll, the sweep every five seconds, and the end. *)
Inductive loop_step :=
| EventRecord (w : surroundings NetContext) (queued capacity : Z) (data : bytes)
| CloseRecord (now_ms : Z) (data : bytes)
| SweepTick (now_ms : Z)
| Stop (now_ms : Z).

Definition loop_do (s : loop_step) (r : reader) : reader :=
  match s with
  | EventRecord w queued capacity data => on_event w queued capacity data r
  | CloseRecord now_ms data => on_close now_ms data r
  | SweepTick now_ms => serve_and_send now_ms (Tick now_ms) r
  | Stop now_ms => serve_and_send now_ms Shutdown r
  end.

Definition loop_run (ss : list loop_step) (r : reader) : reader := fold_left (fun r s => loop_do s r) ss r.

Definition reader_new (m : memory) : reader :=
  {| rd_shards := ShardedStreamState_new; rd_memory := m; rd_steps := []; rd_built := []; rd_offered := [];
     rd_transactions_sampled := 0; rd_abi_mismatch := 0; rd_events_captured := 0; rd_watermark_pct := 0 |}.

(** The calls on the shards such a run comes to. *)
Definition call_of (s : loop_step) : list (Z * call NetContext) :=
  match s with
  | EventRecord w _ _ data =>
      match from_bytes data with
      | Some (header, payload) =>
          if h_abi_version header =? TLS_EVENT_ABI_VERSION then [(w_now_ms w, Record w header payload)] else []
      | None => []
      end
  | CloseRecord now_ms data =>
      match read_unaligned (A := close_event) data with
      | Some ev => [(now_ms, Close (ConnKey_from_close ev))]
      | None => []
      end
  | SweepTick now_ms => [(now_ms, Tick now_ms)]
  | Stop now_ms => [(now_ms, Shutdown)]
  end.
End Loop.
