(* ===== verification/BuilderProps.v ===== *)
(** What the export can tell about the cookies of an exchange that have a value: their names, and the keyed
    hashes of their values. *)

From S2P Require Import Prelude.
From S2P Require Import Pending Text Codecs Http1 Http1Framing H2Conn Mcp Shard Event Output Redaction.
From S2P Require Import RedactionProps SecretProps.
From S2P Require Import Identity Builder EventLoop.
From Stdlib Require Import Strings.String.

#[local] Notation length := List.length.
#[local] Open Scope list_scope.
#[local] Open Scope Z_scope.

(** * Trimming *)

Notation blank := (Forall (fun c => is_whitespace c = true)).

Definition trim_end (s : text) : text := reverse (trim_start (reverse s)).

Lemma trim_start_blank s : blank s → trim_start s = [].
Proof. induction 1 as [|c s Hc _ IH]; cbn; [done|]. by rewrite Hc. Qed.

Lemma trim_start_blank_app a b : blank a → trim_start (a ++ b) = trim_start b.
Proof. induction 1 as [|c s Hc _ IH]; cbn; [done|]. by rewrite Hc. Qed.

Lemma trim_start_nonblank a c b : is_whitespace c = false → trim_start (a ++ c :: b) = trim_start a ++ c :: b.
Proof. intros Hc. induction a as [|x a IH]; cbn [app trim_start]; [by rewrite Hc|]. by case_match. Qed.

Lemma trim_end_nonblank a c b : is_whitespace c = false → trim_end (a ++ c :: b) = a ++ c :: trim_end b.
Proof.
  intros Hc. unfold trim_end. rewrite reverse_app, reverse_cons, <- app_assoc. cbn [app].
  rewrite trim_start_nonblank by done. by rewrite reverse_app, reverse_cons, reverse_involutive, <- app_assoc.
Qed.

Lemma trim_end_blank_app a b : blank b → trim_end (a ++ b) = trim_end a.
Proof. intros Hb. unfold trim_end. rewrite reverse_app, trim_start_blank_app; [done|by apply Forall_reverse]. Qed.

Lemma trim_start_split s : ∃ a, s = a ++ trim_start s ∧ blank a.
Proof.
  induction s as [|c s IH]; [by exists []|]. cbn [trim_start]. case_match eqn:E; [|by exists []].
  destruct IH as (a & Hs & Ha). exists (c :: a). split; [by rewrite Hs at 1|by constructor].
Qed.

Lemma trim_end_split s : ∃ b, s = trim_end s ++ b ∧ blank b.
Proof.
  destruct (trim_start_split (reverse s)) as (a & Hs & Ha). exists (reverse a). split; [|by apply Forall_reverse].
  unfold trim_end. by rewrite <- reverse_app, <- Hs, reverse_involutive.
Qed.

(** Either all is white space, or there is a first character that is not. *)
Lemma blank_or s : blank s ∨ ∃ a c b, s = a ++ c :: b ∧ is_whitespace c = false.
Proof.
  induction s as [|c s IH]; [by left|]. destruct (is_whitespace c) eqn:E; [|right; by exists [], c, s].
  destruct IH as [Hs|(a & x & b & -> & Hx)]; [left; by constructor|right; by exists (c :: a), x, b].
Qed.

Lemma trim_trim_end s : trim (trim_end s) = trim s.
Proof.
  destruct (trim_end_split s) as (w & Hs & Hw).
  assert (∀ t, trim t = trim_end (trim_start t)) as Ht by done. rewrite !Ht. rewrite Hs at 2.
  destruct (blank_or (trim_end s)) as [Hb|(a & c & b & -> & Hc)].
  - by rewrite trim_start_blank_app, !trim_start_blank by done.
  - rewrite <- app_assoc. cbn [app]. rewrite !trim_start_nonblank, !trim_end_nonblank by done.
    by rewrite trim_end_blank_app.
Qed.

(** A pair of name and value, trimmed and split again. *)
Lemma split_trimmed_pair n v :
  61 ∉ n → split_once 61 (trim (n ++ 61 :: v)) = Some (trim_start n, trim_end v).
Proof.
  intros Hn. change (trim ?s) with (trim_end (trim_start s)).
  rewrite trim_start_nonblank, trim_end_nonblank by done. apply split_once_first.
  destruct (trim_start_split n) as (a & Hs & _). intros Hin. apply Hn. rewrite Hs. apply elem_of_app. by right.
Qed.

(** * Cookies *)

(** Related lists with the same images, and without a character. *)
Lemma Forall2_fmap_eq {A B} (R : A → A → Prop) (f : A → B) l l' :
  (∀ a a', R a a' → f a = f a') → Forall2 R l l' → f <$> l = f <$> l'.
Proof. intros Hf. induction 1 as [|a a' l l' Ha _ IH]; [done|]. by rewrite !fmap_cons, IH, (Hf a a'). Qed.

Lemma Forall2_both {A} (R : A → A → Prop) (P : A → Prop) l l' :
  (∀ a a', R a a' → P a ∧ P a') → Forall2 R l l' → Forall P l ∧ Forall P l'.
Proof. intros HP. induction 1 as [|a a' l l' Ha _ [IH IH']]; [done|]. destruct (HP a a' Ha). by split; constructor. Qed.

Lemma token_digits_mac mac v v' : mac (utf8 v) = mac (utf8 v') → token_digits mac v = token_digits mac v'.
Proof. unfold token_digits. by intros ->. Qed.

Section Cookies.
Context (mac : bytes → bytes).

(** Two cookies of one name with values that have the same keyed hash. *)
Inductive same_token : text → text → Prop :=
| same_token_intro n v v' :
    cookie_ok (n, v) → cookie_ok (n, v') → mac (utf8 (trim v)) = mac (utf8 (trim v')) →
    same_token (cookie_sent (n, v)) (cookie_sent (n, v')).

(** Two pieces of a [cookie] header: such cookies, or one and the same piece, with a value or without. *)
Inductive alike_piece : text → text → Prop :=
| piece_same p : 59 ∉ p → 10 ∉ p → alike_piece p p
| piece_cookie c c' : same_token c c' → alike_piece c c'.

(** Two lines of a [set-cookie] header: such cookies with the same attributes behind, or the same line. *)
Inductive alike_line : text → text → Prop :=
| line_same l : 10 ∉ l → alike_line l l
| line_cookie c c' : same_token c c' → alike_line c c'
| line_attributes c c' attrs : same_token c c' → free_of (10 :: MARKS) attrs → alike_line (c ++ 59 :: attrs) (c' ++ 59 :: attrs).

(** Two header fields that are the same but for the values of cookies with the same keyed hash. *)
Inductive alike_field : bytes * bytes → bytes * bytes → Prop :=
| field_same kv : alike_field kv kv
| field_cookie v v' ps ps' :
    chars v = join_text [59] ps → chars v' = join_text [59] ps' → Forall2 alike_piece ps ps' →
    alike_field (lit "cookie", v) (lit "cookie", v')
| field_set_cookie v v' ls ls' :
    chars v = join_text [10] ls → chars v' = join_text [10] ls' → Forall2 alike_line ls ls' →
    alike_field (lit "set-cookie", v) (lit "set-cookie", v').

Lemma same_token_pii v v' :
  mac (utf8 (trim v)) = mac (utf8 (trim v')) → pii_token mac Secret (trim v) = pii_token mac Secret (trim v').
Proof. intros He. unfold pii_token. by rewrite (token_digits_mac _ _ _ He). Qed.

Lemma same_token_free c c' sep : sep ∈ [59; 10] → same_token c c' → sep ∉ c ∧ sep ∉ c'.
Proof. intros Hsep [n v v' Hc Hc' _]. by split; apply cookie_sent_free. Qed.

Lemma same_token_unmarked c c' : same_token c c' → unmarked c ∧ unmarked c'.
Proof. intros [n v v' Hc Hc' _]. by split; apply cookie_sent_unmarked. Qed.

Lemma same_token_eq c c' : same_token c c' → 61 ∈ c ∧ 61 ∈ c'.
Proof. intros [n v v' _ _ _]. split; apply elem_of_app; right; by left. Qed.

Lemma alike_piece_free p p' sep : sep ∈ [59; 10] → alike_piece p p' → sep ∉ p ∧ sep ∉ p'.
Proof.
  intros Hsep [q H59 H10|c c' Hc]; [|by eapply same_token_free].
  by apply elem_of_cons in Hsep as [-> | ->%list_elem_of_singleton].
Qed.

Lemma alike_line_free l l' : alike_line l l' → 10 ∉ l ∧ 10 ∉ l'.
Proof.
  intros [q H10|c c' Hc|c c' attrs Hc Ha]; [done|..]; destruct (same_token_free _ _ 10 ltac:(by right; left) Hc); [done|].
  assert (10 ∉ attrs) by (by apply (free_not 10 _ _ ltac:(by left) Ha)).
  split; apply not_elem_of_app; (split; [done|]); by apply not_elem_of_cons.
Qed.

Lemma join_no_newline ps : Forall (fun p => 10 ∉ p) ps → 10 ∉ join_text [59] ps.
Proof.
  induction 1 as [|p ps Hp _ IH]; [apply not_elem_of_nil|]. destruct ps as [|q ps]; [done|].
  rewrite join_text_cons, !not_elem_of_app. split_and!; [done|by intros ?%list_elem_of_singleton|done].
Qed.

Lemma header_fallback_ext names hs hs' old :
  Forall (fun k => header_get k hs = header_get k hs') names → header_fallback names hs old = header_fallback names hs' old.
Proof. induction 1 as [|k names Hk _ IH]; [done|]. cbn [header_fallback]. rewrite Hk. repeat case_match; done. Qed.

(** ** What the redaction shows *)

Section Shown.
Context `{Regex, CharCase}.

Lemma same_token_pair c c' : same_token c c' → cookie_pair mac true c = cookie_pair mac true c'.
Proof.
  intros [n v v' (Hn & _ & Hv) (_ & _ & Hv') He]. unfold cookie_pair, cookie_sent. change (clit "=") with [61]. cbn [app fst snd] in *.
  rewrite !split_once_first, !bool_decide_eq_false_2 by (done || apply (free_not 61 _ _ ltac:(by left) Hn)).
  cbn [negb andb orb]. unfold secret_token. by rewrite (same_token_pii _ _ He).
Qed.

Lemma alike_piece_pair p p' :
  alike_piece p p' → cookie_pair mac true (strip_markers p) = cookie_pair mac true (strip_markers p').
Proof.
  intros [q _ _|c c' Hc]; [done|]. destruct (same_token_unmarked _ _ Hc). rewrite !strip_unmarked by done. by apply same_token_pair.
Qed.

(** Two lists of pieces are the same, or both have an equals sign. *)
Lemma alike_pieces_eq ps ps' :
  Forall2 alike_piece ps ps' → ps = ps' ∨ 61 ∈ strip_markers (join_text [59] ps) ∧ 61 ∈ strip_markers (join_text [59] ps').
Proof.
  assert (∀ p ps, 61 ∈ p ∨ 61 ∈ join_text [59] ps → 61 ∈ join_text [59] (p :: ps)) as Hcons.
  { intros p [|q qs] Hin; [by destruct Hin as [?|?%not_elem_of_nil]|]. rewrite join_text_cons, !elem_of_app. tauto. }
  intros Hps. assert (ps = ps' ∨ 61 ∈ join_text [59] ps ∧ 61 ∈ join_text [59] ps') as Hor.
  { induction Hps as [|p p' ps ps' Hp _ IH]; [by left|]. destruct Hp as [q _ _|c c' Hc].
    - destruct IH as [->|[IH1 IH2]]; [by left|right]. split; apply Hcons; by right.
    - destruct (same_token_eq _ _ Hc). right. split; apply Hcons; by left. }
  destruct Hor as [?|[H1 H2]]; [by left|right]. split; by apply list_elem_of_filter.
Qed.

Lemma strip_no_sep sep s : sep ∉ s → sep ∉ strip_markers s.
Proof. intros Hs Hin. apply Hs. by apply list_elem_of_filter in Hin as [_ ?]. Qed.

(** The whole header, line by line. *)
Lemma redact_header_lines name ls :
  ls ≠ [] → Forall (fun l => 10 ∉ l) ls →
  redact_header_value mac name (join_text [10] ls) =
  strip_markers (join_text [10] (redact_header_line mac (to_ascii_lowercase name) ∘ strip_markers <$> ls)).
Proof.
  intros Hne Hls. unfold redact_header_value. rewrite (strip_join_text [10] ls) by (by repeat constructor).
  rewrite split_on_join_text; [by rewrite <- list_fmap_compose|by destruct ls|]. apply Forall_fmap. eapply list.Forall_impl; [exact Hls|]. intros l. apply strip_no_sep.
Qed.

Lemma alike_lines_shown (R : text → text → Prop) name ls ls' :
  (∀ l l', R l l' → 10 ∉ l ∧ 10 ∉ l' ∧
     redact_header_line mac (to_ascii_lowercase name) (strip_markers l) =
     redact_header_line mac (to_ascii_lowercase name) (strip_markers l')) →
  Forall2 R ls ls' → redact_header_value mac name (join_text [10] ls) = redact_header_value mac name (join_text [10] ls').
Proof.
  intros HR Hls. destruct (decide (ls = [])) as [->|Hne]; [by apply Forall2_nil_inv_l in Hls as ->|].
  assert (ls' ≠ []) as Hne' by (intros ->; by apply Forall2_nil_inv_r in Hls).
  destruct (Forall2_both R (fun l => 10 ∉ l) ls ls') as [Hn Hn']; [|done|].
  { intros l l' Hl. destruct (HR l l' Hl) as (? & ? & _). done. }
  rewrite !redact_header_lines by done. f_equal. f_equal. apply (Forall2_fmap_eq R); [|done].
  intros l l' Hl. by apply HR.
Qed.

(** A [cookie] header of one line. *)
Lemma alike_pieces_line ps ps' :
  Forall2 alike_piece ps ps' →
  redact_header_line mac (clit "cookie") (strip_markers (join_text [59] ps)) =
  redact_header_line mac (clit "cookie") (strip_markers (join_text [59] ps')).
Proof.
  intros Hps. destruct (alike_pieces_eq ps ps' Hps) as [->|[H1 H2]]; [done|].
  destruct (decide (ps = [])) as [->|Hne]; [by apply Forall2_nil_inv_l in Hps as ->|].
  assert (ps' ≠ []) as Hne' by (intros ->; by apply Forall2_nil_inv_r in Hps).
  assert (∀ l, 61 ∈ l → redact_header_line mac (clit "cookie") l = cookie_pairs mac l true) as Hc.
  { intros l Hl. unfold redact_header_line. by rewrite bool_decide_eq_false_2 by by apply (trim_keeps 61). }
  rewrite !Hc by done.
  unfold cookie_pairs. f_equal. rewrite !strip_join_text by (by repeat constructor).
  destruct (Forall2_both alike_piece (fun p => 59 ∉ strip_markers p) ps ps') as [Hn Hn']; [|done|].
  { intros p p' Hp. destruct (alike_piece_free p p' 59 ltac:(by left) Hp). by split; apply strip_no_sep. }
  rewrite !split_on_join_text by (by destruct ps) || (by destruct ps') || (by apply Forall_fmap).
  rewrite <- !list_fmap_compose. apply (Forall2_fmap_eq alike_piece); [|done]. apply alike_piece_pair.
Qed.

Lemma same_token_pairs c c' : same_token c c' → cookie_pairs mac c true = cookie_pairs mac c' true.
Proof.
  intros Hc. destruct (same_token_free c c' 59 ltac:(by left) Hc). unfold cookie_pairs. rewrite !split_on_free by done.
  cbn. by apply same_token_pair.
Qed.

(** One line of a [set-cookie] header. *)
Lemma alike_line_shown l l' :
  alike_line l l' →
  redact_header_line mac (clit "set-cookie") (strip_markers l) = redact_header_line mac (clit "set-cookie") (strip_markers l').
Proof.
  assert (∀ l, 61 ∈ l → redact_header_line mac (clit "set-cookie") l = redact_set_cookie mac l) as Hsc.
  { intros s Hs. unfold redact_header_line. by rewrite bool_decide_eq_false_2 by by apply (trim_keeps 61). }
  assert (∀ s : text, 59 ∉ s → split_once 59 s = None) as Hso.
  { induction s as [|x s IH]; [done|]. intros [Hx Hs]%not_elem_of_cons. cbn [split_once].
    by rewrite (proj2 (Z.eqb_neq x 59)), IH by done. }
  intros [q _|c c' Hc|c c' attrs Hc Ha]; [done|..];
    destruct (same_token_unmarked _ _ Hc) as [Hu Hu'], (same_token_free c c' 59 ltac:(by left) Hc) as [Hf Hf'],
      (same_token_eq _ _ Hc) as [He He'].
  - rewrite !strip_unmarked, !Hsc by done. unfold redact_set_cookie. rewrite !Hso by done. by apply same_token_pairs.
  - assert (∀ s, unmarked s → unmarked (s ++ 59 :: attrs)) as Hua.
    { intros s Hs. apply Forall_app_2; [done|]. constructor; [done|].
      apply (free_unmarked (10 :: MARKS)); [set_solver|done]. }
    rewrite !strip_unmarked, !Hsc by (try apply elem_of_app; auto). unfold redact_set_cookie.
    rewrite !split_once_first by done. by rewrite (same_token_pairs c c').
Qed.

Lemma alike_field_shown kv kv' : alike_field kv kv' → redacted_header mac kv = redacted_header mac kv'.
Proof.
  intros [x|v v' ps ps' Hv Hv' Hps|v v' ls ls' Hv Hv' Hls]; [done|..]; unfold redacted_header; cbn [fst snd]; rewrite Hv, Hv'; f_equal; f_equal.
  - destruct (Forall2_both alike_piece (fun p => 10 ∉ p) ps ps') as [Hn Hn'];
      [by intros p p'; apply alike_piece_free; right; left|done|].
    apply (alike_lines_shown (fun l l' => l = join_text [59] ps ∧ l' = join_text [59] ps') (chars (lit "cookie")) [_] [_]);
      [|by repeat constructor]. intros l l' [-> ->]. split_and!; [by apply join_no_newline..|by apply alike_pieces_line].
  - apply (alike_lines_shown alike_line (chars (lit "set-cookie"))); [|done]. intros l l' Hl.
    destruct (alike_line_free l l' Hl). split_and!; [done..|by apply alike_line_shown].
Qed.
End Shown.

(** ** Identities *)

Section Identities.
Context `{Unicode, Json}.

Lemma alike_piece_session p p' ps ps' :
  alike_piece p p' → session_of_pairs mac ps = session_of_pairs mac ps' →
  session_of_pairs mac (p :: ps) = session_of_pairs mac (p' :: ps').
Proof.
  intros [q _ _|? ? [n v v' (Hn & _ & Hv) (_ & _ & Hv') He]] Hs; cbn [session_of_pairs]; rewrite Hs; [done|].
  unfold cookie_sent. change (clit "=") with [61]. cbn [app fst snd] in *.
  rewrite !split_trimmed_pair, !trim_trim_end, !bool_decide_eq_false_2 by (done || apply (free_not 61 _ _ ltac:(by left) Hn)).
  unfold fingerprint. by rewrite (same_token_pii _ _ He).
Qed.

Lemma alike_cookie_session v v' ps ps' :
  chars v = join_text [59] ps → chars v' = join_text [59] ps' → Forall2 alike_piece ps ps' →
  extract_session_from_cookie mac (chars v) = extract_session_from_cookie mac (chars v').
Proof.
  intros -> -> Hps. unfold extract_session_from_cookie.
  destruct (decide (ps = [])) as [->|Hne]; [by apply Forall2_nil_inv_l in Hps as ->|].
  assert (ps' ≠ []) as Hne' by (intros ->; by apply Forall2_nil_inv_r in Hps).
  destruct (Forall2_both alike_piece (fun p => 59 ∉ p) ps ps') as [Hn Hn'];
    [by intros p p'; apply alike_piece_free; left|done|].
  rewrite !split_on_join_text by done. clear Hne Hne' Hn Hn'. induction Hps; [done|]. by apply alike_piece_session.
Qed.

(** Headers but those of cookies are the same. *)
Lemma alike_header_get k hs hs' :
  k ≠ lit "cookie" → k ≠ lit "set-cookie" → Forall2 alike_field hs hs' → header_get k hs = header_get k hs'.
Proof.
  intros Hk Hk'. induction 1 as [|kv kv' hs hs' Hkv _ IH]; [done|].
  destruct Hkv as [[x y]|v v' ps ps' _ _ _|v v' ls ls' _ _ _]; cbn [header_get]; rewrite ?IH; [done|..];
    by rewrite !bool_decide_eq_false_2 by done.
Qed.

Lemma alike_session hs hs' :
  Forall2 alike_field hs hs' →
  (header_get (lit "cookie") hs ≫= fun c => extract_session_from_cookie mac (chars c)) =
  (header_get (lit "cookie") hs' ≫= fun c => extract_session_from_cookie mac (chars c)).
Proof.
  induction 1 as [|kv kv' hs hs' Hkv _ IH]; [done|].
  destruct Hkv as [[x y]|v v' ps ps' Hv Hv' Hps|v v' ls ls' _ _ _]; cbn [header_get].
  - by case_bool_decide.
  - rewrite bool_decide_eq_true_2 by done. cbn. by eapply alike_cookie_session.
  - by rewrite bool_decide_eq_false_2.
Qed.

Lemma alike_identity hs hs' : Forall2 alike_field hs hs' → extract_identity mac hs = extract_identity mac hs'.
Proof.
  intros Hs. unfold extract_identity.
  assert (∀ names old, forallb (fun k => negb (bool_decide (k = lit "cookie") || bool_decide (k = lit "set-cookie"))) names = true →
    header_fallback names hs old = header_fallback names hs' old) as Hf.
  { intros names old Hn. apply header_fallback_ext, list.Forall_forall. intros k Hin. rewrite forallb_forall in Hn.
    specialize (Hn _ (proj1 (list_elem_of_In _ _) Hin)). apply negb_true_iff, orb_false_iff in Hn as [H1 H2].
    rewrite bool_decide_eq_false in H1, H2. by apply alike_header_get. }
  rewrite (alike_header_get (lit "authorization") hs hs'), !(Hf USER_HEADERS), !(Hf ROLE_HEADERS) by done.
  pose proof (alike_session hs hs' Hs) as Hses. by rewrite Hses.
Qed.
End Identities.
End Cookies.

Lemma alike_fields_shown `{Regex, CharCase} mac hs hs' :
  Forall2 (alike_field mac) hs hs' → redacted_header mac <$> hs = redacted_header mac <$> hs'.
Proof. induction 1 as [|kv kv' hs hs' Hkv _ IH]; [done|]. by rewrite !fmap_cons, IH, (alike_field_shown mac kv kv'). Qed.

Definition with_response_headers (hs : headers) (t : transaction (net := NetContext)) : transaction :=
  {| tx_request := tx_request t; tx_response := (tx_response t) <| rs_headers := hs |>;
     tx_latency_ms := tx_latency_ms t; tx_protocol := tx_protocol t; tx_grpc := tx_grpc t |}.

Definition with_request_headers (hs : headers) (t : transaction (net := NetContext)) : transaction :=
  {| tx_request := (tx_request t) <| pr_headers := hs |>; tx_response := tx_response t;
     tx_latency_ms := tx_latency_ms t; tx_protocol := tx_protocol t; tx_grpc := tx_grpc t |}.

(** C8: The values of cookies leave the host only as keyed hashes. Take any exchange and change, in the [cookie] fields
    of the request and the [set-cookie] fields of the response, values of cookies to others with the same keyed hash:
    the event that is made of the exchange, all its fields (headers, identity and session, path, query,
    bodies, decoded gRPC body, metadata, anomaly features), is the same, and so are the metrics it steps; the same for an
    exchange without a response. So what a reader of the export learns about these values is at most which of them
    are equal, also where the session of the user is taken from a cookie. This is about cookies with a name, an equals
    sign and a value that is not blank, in a [cookie] field of one line and among any other pieces, and at the head of
    a line of [set-cookie] with any attributes behind ([same_token], [alike_piece], [alike_line]; none
    with one of the two private-use characters that mark tokens): a cookie without an equals sign is exported as it is
    ([SecretProps.bare_cookie_is_exported]), and so are attributes. *)
Theorem cookies_leave_as_hashes {f32 : Type} `{Unicode, Json, Regex, CharCase} (mac : bytes → bytes)
    (entropy : bytes → f32) (log2_u8 : Z → Z) (fields_json : list ProtoField → option text) (account_id now_ms : Z)
    (t : transaction (net := NetContext)) (call : option McpEvent) (protocol outcome : string) (hs rhs : headers) :
  Forall2 (alike_field mac) (pr_headers (tx_request t)) hs →
  Forall2 (alike_field mac) (rs_headers (tx_response t)) rhs →
  let made := finished mac entropy log2_u8 fields_json account_id now_ms in
  let t' := with_request_headers hs (with_response_headers rhs t) in
  made (Event t call) = made (Event t' call) ∧
  made (Incomplete (tx_request t) protocol outcome) = made (Incomplete (tx_request t') protocol outcome).
Proof.
  intros Hs Hr made t'. unfold made, finished, build_incomplete_event, build_event. cbn.
  rewrite (alike_identity mac _ _ Hs), (alike_fields_shown mac _ _ Hs), (alike_fields_shown mac _ _ Hr). done.
Qed.

Definition no_json : Json := {| from_slice _ := None; from_str _ := None; json_text _ := [] |}.

Definition a_request : ParsedRequest NetContext := {|
  pr_method := lit "GET"; pr_path := lit "/a?b=c"; pr_host := None; pr_headers := []; pr_ts_ms := 5;
  pr_net_ctx := {| nc_source_ip := None; nc_dest_ip := None; nc_source_port := None; nc_dest_port := None;
                   nc_netns_ino := None; nc_cgroup_id := None; nc_container := None; nc_process_name := None;
                   nc_source_hostname := None; nc_dest_hostname := None; nc_direction := None |};
  pr_body := [] |}.

Definition a_response : HttpResponseParsed := {| rs_status_code := 200; rs_headers := []; rs_body := lit "ok" |}.

(** A request with this cookie between others, and a response that sets it. *)
Definition an_exchange (session : string) : transaction (net := NetContext) :=
  with_request_headers [(lit "accept", lit "*/*"); (lit "cookie", utf8 (clit "theme; " ++ clit "sid=" ++ clit session))]
    (with_response_headers [(lit "set-cookie", utf8 (clit "sid=" ++ clit session ++ clit "; Secure"))]
      {| tx_request := a_request; tx_response := a_response; tx_latency_ms := 4; tx_protocol := "HTTP/1.1"; tx_grpc := None |}).

Definition made_of (session : string) : list (ApiTrafficEvent unit * list build_metric) :=
  @finished unit ascii_only no_json digit_patterns ascii_case some_mac (fun _ => tt) (fun z => z) (fun _ => None) 1 9
    (Event (an_exchange session) None).

Lemma cookies_leave_as_hashes_witness :
  (fun e => ev_session_id e.1) <$> made_of "alice" = [Some (lit "sid-abababababababab")] ∧ made_of "alice" = made_of "bob".
Proof.
  split; [vm_compute; reflexivity|].
  assert (∀ n, free_of ([61; 59; 10] ++ MARKS) n → same_token some_mac (n ++ clit "=alice") (n ++ clit "=bob")) as Ht.
  { intros n Hn. change (same_token some_mac (cookie_sent (n, clit "alice")) (cookie_sent (n, clit "bob"))).
    apply (same_token_intro some_mac n (clit "alice") (clit "bob"));
      [split; [exact Hn|] ..|reflexivity]; unfold free_of; refine (bool_decide_unpack _ _); vm_compute; exact I. }
  refine (proj1 (@cookies_leave_as_hashes unit ascii_only no_json digit_patterns ascii_case some_mac (fun _ => tt)
    (fun z => z) (fun _ => None) 1 9 (an_exchange "alice") None "" ""
    (pr_headers (tx_request (an_exchange "bob"))) (rs_headers (tx_response (an_exchange "bob"))) _ _)).
  - apply Forall2_cons; [apply field_same|]. apply Forall2_cons; [|apply Forall2_nil].
    apply (field_cookie _ _ _ [clit "theme"; clit " sid=alice"] [clit "theme"; clit " sid=bob"]); [reflexivity..|].
    apply Forall2_cons; [apply piece_same; refine (bool_decide_unpack _ _); vm_compute; exact I|].
    apply Forall2_cons; [|apply Forall2_nil]. apply piece_cookie.
    change (same_token some_mac (clit " sid" ++ clit "=alice") (clit " sid" ++ clit "=bob")). apply Ht.
    unfold free_of. refine (bool_decide_unpack _ _). vm_compute. exact I.
  - apply Forall2_cons; [|apply Forall2_nil].
    apply (field_set_cookie _ _ _ [clit "sid=alice; Secure"] [clit "sid=bob; Secure"]); [reflexivity..|].
    apply Forall2_cons; [|apply Forall2_nil].
    change (alike_line some_mac (clit "sid=alice" ++ 59 :: clit " Secure") (clit "sid=bob" ++ 59 :: clit " Secure")).
    apply line_attributes.
    + change (same_token some_mac (clit "sid" ++ clit "=alice") (clit "sid" ++ clit "=bob")). apply Ht. unfold free_of. refine (bool_decide_unpack _ _). vm_compute. exact I.
    + unfold free_of. refine (bool_decide_unpack _ _). vm_compute. exact I.
Defined.
