(* ===== verification/EventLoopProps.v ===== *)
(** The event loop does what the shards say and loses no finished exchange. *)

From S2P Require Import Prelude Abi.
From S2P Require Import Wire Pending Memory Queues Text Codecs Http1 Http1Props Http2 Mcp Reader H2Conn Shard Handle Sharded.
From S2P Require Import Event Output Redaction RedactionProps SecretProps Identity Builder BuilderProps EventLoop.
From Stdlib Require Import Strings.String.

#[local] Notation length := List.length.
#[local] Open Scope list_scope.
#[local] Open Scope Z_scope.

Section Loop.
Context {f32 table : Type} `{Unicode, Json, Regex, CharCase}.
Context (mac : bytes → bytes) (entropy : bytes → f32) (log2_u8 : Z → Z) (fields_json : list ProtoField → option text).
Context (sizeof_request : Z) (hpack_new : table) (hpack_decode : table → bytes → hpack_result * table).
Context (cf : config) (shard_hash : Z → Z → Z).
Context (sampler : TransactionSampler) (event_hash : bytes → bytes → option bytes → option Z → Z → Z).
Context (account_id : Z).

Notation event := (ApiTrafficEvent f32).
Notation reader := (reader (f32 := f32) (table := table)).
Notation finished := (finished mac entropy log2_u8 fields_json account_id).
Notation loop_run := (loop_run mac entropy log2_u8 fields_json sizeof_request hpack_new hpack_decode cf shard_hash
                        sampler event_hash account_id).
Notation serve_and_send := (serve_and_send mac entropy log2_u8 fields_json sizeof_request hpack_new hpack_decode cf
                              shard_hash sampler event_hash account_id).
Notation serve_all := (serve_all sizeof_request hpack_new hpack_decode cf shard_hash).

(** The records of the events ring that are handled, and those of another version. *)
Definition is_captured (s : loop_step) : bool :=
  match s with
  | EventRecord _ _ _ data => match from_bytes data with Some (h, _) => h_abi_version h =? TLS_EVENT_ABI_VERSION | None => false end
  | _ => false
  end.

Definition is_mismatch (s : loop_step) : bool :=
  match s with
  | EventRecord _ _ _ data => match from_bytes data with Some (h, _) => negb (h_abi_version h =? TLS_EVENT_ABI_VERSION) | None => false end
  | _ => false
  end.

Definition count (f : loop_step → bool) (ss : list loop_step) : Z := zsum (fun s => if f s then 1 else 0) ss.

(** The event an exchange becomes. *)
Definition becomes (o : output NetContext) (ev : event) : Prop :=
  is_step o = false ∧ ∃ now steps, finished now o = [(ev, steps)].

Lemma finished_one now o : (is_step o = true ∧ finished now o = []) ∨ ∃ ev steps, is_step o = false ∧ finished now o = [(ev, steps)].
Proof.
  destruct o as [t call|r p out|c n]; cbn; [right|right|by left].
  - destruct (build_event _ _ _ _ _ _ _ _ _ _) as [ev steps]. by eexists _, _.
  - destruct (build_incomplete_event _ _ _ _ _ _ _) as [ev steps]. by eexists _, _.
Qed.

Lemma finished_all now out :
  Forall2 becomes (List.filter (fun o => negb (is_step o)) out) ((mjoin (finished now <$> out)).*1).
Proof.
  induction out as [|o out IH]; [constructor|]. rewrite fmap_cons. change (mjoin (?a :: ?l)) with (a ++ mjoin l).
  rewrite fmap_app. cbn [List.filter]. destruct (finished_one now o) as [[Hs ->]|(ev & steps & Hs & Hf)]; rewrite Hs; [exact IH|].
  rewrite Hf. constructor; [|exact IH]. split; [done|]. by exists now, steps.
Qed.

(** What a run adds to a reader. *)
Record adds (calls : list (call NetContext)) (r r' : reader) : Prop := {
  ad_state : ∃ out, serve_all calls (rd_shards r) (rd_memory r) = (out, rd_shards r', rd_memory r') ∧
    rd_steps r' = rd_steps r ++ List.filter is_step out ∧
    ∃ made, Forall2 becomes (List.filter (fun o => negb (is_step o)) out) made ∧
      rd_offered r' = rd_offered r ++ base.filter (fun e => keep event_hash sampler e = true) made ∧
      rd_transactions_sampled r' =
        u64 (rd_transactions_sampled r + (zlen made - zlen (base.filter (fun e => keep event_hash sampler e = true) made)))
}.

Definition counted (r : reader) : Prop := 0 <= rd_transactions_sampled r < 2 ^ 64.

Lemma sample_counts (made : list event) n kept n' :
  0 <= n < 2 ^ 64 → sample event_hash sampler made n = (kept, n') →
  kept = base.filter (fun e => keep event_hash sampler e = true) made ∧ n' = u64 (n + (zlen made - zlen kept)).
Proof.
  intros Hn. unfold sample. intros [= <- <-]. split; [done|]. case_match; [done|]. zbool.
  assert (zlen (base.filter (fun e => keep event_hash sampler e = true) made) <= zlen made) as Hl.
  { unfold zlen. pose proof (length_filter (fun e => keep event_hash sampler e = true) made). lia. }
  replace (zlen made - _) with 0 by lia. rewrite Z.add_0_r. symmetry. by apply wrap_small.
Qed.

Lemma serve_and_send_adds now c r : counted r → adds [c] r (serve_and_send now c r) ∧ counted (serve_and_send now c r).
Proof.
  intros Hc. unfold EventLoop.serve_and_send.
  destruct (serve sizeof_request hpack_new hpack_decode cf shard_hash c (rd_shards r) (rd_memory r)) as [[out St] m] eqn:E.
  set (made := mjoin (finished now <$> out)).
  destruct (sample event_hash sampler made.*1 (rd_transactions_sampled r)) as [kept n'] eqn:Es.
  destruct (sample_counts _ _ _ _ Hc Es) as [-> ->]. split.
  - constructor. exists out. cbn. rewrite E, app_nil_r. split; [done|]. split; [done|].
    exists (made.*1). split; [apply finished_all|done].
  - unfold counted. cbn. by apply wrap_range.
Qed.

Lemma adds_none r : counted r → adds [] r r.
Proof.
  intros Hc. constructor. exists []. cbn. rewrite app_nil_r. split; [done|]. split; [done|]. exists [].
  split; [constructor|]. cbn. rewrite app_nil_r. split; [done|]. symmetry. rewrite Z.add_0_r. by apply wrap_small.
Qed.

Lemma adds_trans c1 c2 r1 r2 r3 : adds c1 r1 r2 → adds c2 r2 r3 → adds (c1 ++ c2) r1 r3.
Proof.
  intros [(o1 & E1 & S1 & m1 & F1 & K1 & N1)] [(o2 & E2 & S2 & m2 & F2 & K2 & N2)].
  constructor. exists (o1 ++ o2). split; [|split].
  - clear -E1 E2. revert E1. generalize (rd_shards r1) (rd_memory r1). revert o1.
    induction c1 as [|c c1 IH]; intros o1 St m E1; cbn in *; [by injection E1 as <- -> ->|].
    destruct (serve _ _ _ _ _ _ _ _) as [[o St1] mm]. destruct (serve_all c1 St1 mm) as [[o' St2] mm2] eqn:E.
    injection E1 as <- -> ->. by rewrite (IH _ _ _ E), app_assoc.
  - by rewrite S2, S1, List.filter_app, app_assoc.
  - exists (m1 ++ m2). rewrite List.filter_app, list.filter_app. split; [by apply Forall2_app|]. split; [by rewrite K2, K1, app_assoc|].
    rewrite N2, N1. unfold zlen in *. rewrite !length_app, !Nat2Z.inj_add. rewrite wrap_add_wrap. f_equal. lia.
Qed.

Lemma loop_do_adds s r :
  counted r →
  let r' := loop_do mac entropy log2_u8 fields_json sizeof_request hpack_new hpack_decode cf shard_hash sampler
              event_hash account_id s r in
  adds ((call_of s).*2) r r' ∧ counted r' ∧
  rd_events_captured r' = (if is_captured s then u64 (rd_events_captured r + 1) else rd_events_captured r) ∧
  rd_abi_mismatch r' = (if is_mismatch s then u64 (rd_abi_mismatch r + 1) else rd_abi_mismatch r).
Proof.
  intros Hc. assert (∀ now c r, rd_events_captured (serve_and_send now c r) = rd_events_captured r ∧
    rd_abi_mismatch (serve_and_send now c r) = rd_abi_mismatch r) as Hsame.
  { intros now c r0. unfold EventLoop.serve_and_send. destruct (serve _ _ _ _ _ _ _ _) as [[out St] m].
    by destruct (sample _ _ _ _). }
  destruct s as [w queued capacity data|now data|now|now]; cbn -[serve_and_send].
  - unfold on_event. destruct (from_bytes data) as [[h p]|]; [|split_and!; try done; by apply adds_none].
    destruct (h_abi_version h =? TLS_EVENT_ABI_VERSION); cbn [negb].
    + set (r1 := r <| rd_events_captured := _ |> <| rd_watermark_pct := _ |>).
      destruct (serve_and_send_adds (w_now_ms w) (Record w h p) r1 Hc) as [[Ha] Hc'].
      destruct (Hsame (w_now_ms w) (Record w h p) r1) as [-> ->]. by split_and!; try (by constructor).
    + split_and!; try done. destruct (adds_none r Hc) as [Ha]. by constructor.
  - unfold on_close. destruct (read_unaligned data) as [ev|]; [|split_and!; try done; by apply adds_none].
    destruct (serve_and_send_adds now (Close (ConnKey_from_close ev)) r Hc). destruct (Hsame now (Close (ConnKey_from_close ev)) r).
    by split_and!.
  - destruct (serve_and_send_adds now (Tick now) r Hc). destruct (Hsame now (Tick now) r). by split_and!.
  - destruct (serve_and_send_adds now Shutdown r Hc). destruct (Hsame now Shutdown r). by split_and!.
Qed.

Lemma loop_run_adds ss r :
  counted r → 0 <= rd_events_captured r < 2 ^ 64 → 0 <= rd_abi_mismatch r < 2 ^ 64 →
  adds (mjoin (call_of <$> ss)).*2 r (loop_run ss r) ∧
  rd_events_captured (loop_run ss r) = u64 (rd_events_captured r + count is_captured ss) ∧
  rd_abi_mismatch (loop_run ss r) = u64 (rd_abi_mismatch r + count is_mismatch ss).
Proof.
  unfold EventLoop.loop_run. induction ss as [|s ss IH] in r |- *; intros Hc Hr1 Hr2; cbn [fold_left].
  - split_and!; [by apply adds_none|..]; unfold count, zsum; cbn [foldr]; rewrite Z.add_0_r; symmetry; by apply wrap_small.
  - destruct (loop_do_adds s r Hc) as (Ha & Hc' & E1 & E2). cbn zeta in *. set (r1 := loop_do _ _ _ _ _ _ _ _ _ _ _ _ s r) in *.
    destruct (IH r1 Hc') as (Ha' & E1' & E2').
    { rewrite E1. destruct (is_captured s); [by apply wrap_range|done]. }
    { rewrite E2. destruct (is_mismatch s); [by apply wrap_range|done]. }
    split_and!.
    + rewrite fmap_cons. change (mjoin (?a :: ?l)) with (a ++ mjoin l). rewrite fmap_app. by eapply adds_trans.
    + rewrite E1', E1. unfold count, zsum. cbn. destruct (is_captured s); [rewrite wrap_add_wrap; f_equal; lia|done].
    + rewrite E2', E2. unfold count, zsum. cbn. destruct (is_mismatch s); [rewrite wrap_add_wrap; f_equal; lia|done].
Qed.
End Loop.

(** C6: The event loop keeps every finished exchange. Start the reader on any memory and let it run through any
    sequence of records of the two rings (any bytes at all), sweeps and the shutdown. Its shards, the memory counter and
    the steps of the metrics are exactly those of the calls the well-formed records stand for, in order;
    each exchange the shards report, and each request they give up, becomes exactly one event; the events
    offered to the exporter are exactly these, in order, less those the sampler drops, which
    are counted; and the records that were handled, and those of another version of the layout (which
    touch nothing else), are counted. *)
Theorem loop_keeps_exchanges {f32 table : Type} `{Unicode, Json, Regex, CharCase} (mac : bytes → bytes)
    (entropy : bytes → f32) (log2_u8 : Z → Z) (fields_json : list ProtoField → option text)
    (sizeof_request : Z) (hpack_new : table) (hpack_decode : table → bytes → hpack_result * table)
    (cf : config) (shard_hash : Z → Z → Z) (sampler : TransactionSampler)
    (event_hash : bytes → bytes → option bytes → option Z → Z → Z) (account_id : Z) (m : memory) (ss : list loop_step) :
  let r := loop_run mac entropy log2_u8 fields_json sizeof_request hpack_new hpack_decode cf shard_hash sampler
             event_hash account_id ss (reader_new m) in
  ∃ out made,
    serve_all sizeof_request hpack_new hpack_decode cf shard_hash (mjoin (call_of <$> ss)).*2 ShardedStreamState_new m =
      (out, rd_shards r, rd_memory r) ∧
    rd_steps r = List.filter is_step out ∧
    Forall2 (becomes mac entropy log2_u8 fields_json account_id) (List.filter (fun o => negb (is_step o)) out) made ∧
    rd_offered r = base.filter (fun e => keep event_hash sampler e = true) made ∧
    rd_transactions_sampled r = u64 (zlen made - zlen (rd_offered r)) ∧
    rd_events_captured r = u64 (count is_captured ss) ∧ rd_abi_mismatch r = u64 (count is_mismatch ss).
Proof.
  intros r. destruct (loop_run_adds mac entropy log2_u8 fields_json sizeof_request hpack_new hpack_decode cf shard_hash
    sampler event_hash account_id ss (reader_new m)) as ([(out & Hserve & Hsteps & made & Hmade & Hoff & Hsam)] & Hcap & Hmis);
    [done..|]. fold r in Hserve, Hsteps, Hoff, Hsam, Hcap, Hmis. exists out, made.
  split_and!; [exact Hserve|exact Hsteps|exact Hmade|exact Hoff|by rewrite Hoff|exact Hcap|exact Hmis].
Qed.

(** * A run *)

(** A record of the ring: this payload, read or written on one connection. *)
Definition a_record (dir now_ms : Z) (payload : bytes) : loop_step :=
  let h := demo_record dir in
  EventRecord {| w_now_ms := now_ms; w_net_ctx := pr_net_ctx a_request; w_namespace := None |} 0 1
    (hdr_bytes (fun _ => x00)
       (h <| h_abi_version := TLS_EVENT_ABI_VERSION |> <| h_data_len := zlen payload |> <| h_copied_len := zlen payload |>)
     ++ payload).

Definition a_loop_run (ss : list loop_step) : EventLoop.reader (f32 := unit) (table := Z) :=
  @loop_run unit Z ascii_only no_json digit_patterns ascii_case some_mac (fun _ => tt) (fun z => z) (fun _ => None)
    100 0 demo_hpack (demo_config Server) (fun _ _ => 5) sampler_default (fun _ _ _ _ _ => 0) 7 ss
    (reader_new demo_memory).

Definition a_session : list loop_step :=
  [a_record 0 1000 demo_get; EventRecord {| w_now_ms := 1; w_net_ctx := pr_net_ctx a_request; w_namespace := None |} 0 1 (lit "short");
   a_record 1 1002 demo_ok; Stop 2000].

Lemma loop_keeps_exchanges_witness :
  let r := a_loop_run a_session in
  (fun e => (ar_path (ev_request e), ap_status_code (ev_response e), ap_body (ev_response e))) <$> rd_offered r =
    [(lit "/a", 200, Some (lit "ok"))] ∧
  rd_events_captured r = u64 (count is_captured a_session) ∧
  ∃ made, rd_offered r = base.filter (fun e => keep (fun _ _ _ _ _ => 0) sampler_default e = true) made.
Proof.
  split; [vm_compute; reflexivity|].
  destruct (@loop_keeps_exchanges unit Z ascii_only no_json digit_patterns ascii_case some_mac (fun _ => tt) (fun z => z)
    (fun _ => None) 100 0 demo_hpack (demo_config Server) (fun _ _ => 5) sampler_default (fun _ _ _ _ _ => 0) 7 demo_memory
    a_session) as (out & made & _ & _ & _ & Hoff & _ & Hcap & _).
  split; [exact Hcap|]. exists made. exact Hoff.
Defined.
