(* ===== verification/ProducerStats.v ===== *)
(** The kernel's accounts as the reader exports them: [aggregate_producer_stats] ([EventLoop]) over the
    per-processor counters of the probes ([Accounting]). *)

From S2P Require Import Prelude Abi Kernel Logic Sampling Fixture TlsState Emit EmitProps Conn.
From S2P Require Import Lifecycle Calls Probes Ktls GoTls CallSites Proc System Accounting.
From S2P Require Import Pending Event EventLoop.

#[local] Open Scope Z_scope.

(** What [lookup_percpu] returns for a key of [producer_stats] on these processors. *)
Definition kernel_answer (cpus : list Z) (s : kstate) (key : Z) : percpu_answer :=
  Values ((fun cpu => le_bytes 8 (stat s cpu key)) <$> cpus).

(** A counter over all processors. *)
Definition kernel_total (cpus : list Z) (s : kstate) (key : Z) : Z := zsum (fun cpu => u64 (stat s cpu key)) cpus.

(** Every attempt the metrics show has an outcome they show. *)
Definition metrics_balanced (m : bpf_metrics) : Prop :=
  bm_attempted m = bm_submitted m + bm_reserve_fail m + bm_copy_fail m + bm_sampled m.

Lemma sum_percpu_total cpus s key acc :
  0 <= acc → acc + kernel_total cpus s key < 2 ^ 64 →
  fold_left (fun sum v => if 8 <=? zlen v then saturating_add_u64 sum (le_val (take 8 v)) else sum)
    ((fun cpu => le_bytes 8 (stat s cpu key)) <$> cpus) acc = acc + kernel_total cpus s key.
Proof.
  unfold kernel_total. induction cpus as [|cpu cpus IH] in acc |- *; intros Ha Hb; [unfold zsum; cbn; lia|].
  rewrite fmap_cons. cbn [fold_left]. unfold zsum in *. cbn [foldr] in *.
  assert (zlen (le_bytes 8 (stat s cpu key)) = 8) as -> by (unfold zlen; by rewrite length_le_bytes).
  rewrite (take_ge (le_bytes 8 (stat s cpu key)) 8) by (by rewrite length_le_bytes).
  rewrite le_val_le_bytes. change (8 * Z.of_nat 8) with 64. cbn [Z.leb].
  pose proof (wrap_range 64 (stat s cpu key) ltac:(lia)) as Hr.
  pose proof (zsum_nonneg_all (fun cpu => u64 (stat s cpu key)) cpus (fun cpu => proj1 (wrap_range 64 _ ltac:(lia)))) as Hz.
  unfold zsum in Hz. change (8 <=? 8) with true. cbn iota. unfold saturating_add_u64. rewrite Z.min_l by lia.
  rewrite IH by lia. lia.
Qed.

Lemma kernel_answer_total cpus s key :
  kernel_total cpus s key < 2 ^ 64 → total_of (kernel_answer cpus s key) = kernel_total cpus s key.
Proof. intros Hb. unfold kernel_answer, total_of, sum_percpu. rewrite sum_percpu_total by lia. lia. Qed.

Lemma no_error cpus s key : kernel_answer cpus s key ≠ LookupError.
Proof. discriminate. Qed.

Lemma kernel_total_nonneg cpus s key : 0 <= kernel_total cpus s key.
Proof. apply zsum_nonneg_all. intros cpu. by apply wrap_range. Qed.

Lemma zsum_plus {A} (f g : A → Z) l : zsum (fun a => f a + g a) l = zsum f l + zsum g l.
Proof. unfold zsum. induction l as [|a l IH]; cbn; lia. Qed.

(** The outcomes of a processor. *)
Definition outcomes (s : kstate) (cpu : Z) : Z :=
  u64 (stat s cpu STAT_SUBMITTED) + u64 (stat s cpu STAT_RESERVE_FAIL) + u64 (stat s cpu STAT_COPY_FAIL) +
  u64 (stat s cpu STAT_SAMPLED).

Lemma idle_processor_balanced b arch s cfg cpu :
  fresh_counters s → reachable b arch anyone anywhere (idle s) cfg → c_threads cfg cpu = None →
  outcomes (c_state cfg) cpu < 2 ^ 64 → u64 (stat (c_state cfg) cpu STAT_ATTEMPTED) = outcomes (c_state cfg) cpu.
Proof.
  intros Hs Hr Hn Ho. destruct (balanced_reachable b arch s cfg Hs Hr) as (gs & Hb & Hf).
  destruct (Hb cpu) as ([q Hq] & _). specialize (Hf cpu). rewrite Hn in Hf. destruct (gs cpu); [done|]. cbn in Hq.
  unfold settled_attempts in Hq.
  assert (u64 (stat (c_state cfg) cpu STAT_ATTEMPTED) = u64 (outcomes (c_state cfg) cpu)) as ->.
  { set (k := fun i => stat (c_state cfg) cpu i / 2 ^ 64).
    assert (∀ i, u64 (stat (c_state cfg) cpu i) = stat (c_state cfg) cpu i - k i * 2 ^ 64) as Hu
      by (intros i; unfold wrap, k; pose proof (Z.div_mod (stat (c_state cfg) cpu i) (2 ^ 64) ltac:(done)); lia).
    unfold wrap at 1 2. rewrite <- (Z.mod_add (outcomes _ _)
      (q + k STAT_SUBMITTED + k STAT_RESERVE_FAIL + k STAT_COPY_FAIL + k STAT_SAMPLED)) by done.
    f_equal. unfold outcomes. rewrite !Hu. lia. }
  apply wrap_small. pose proof (wrap_range 64 (stat (c_state cfg) cpu STAT_SUBMITTED) ltac:(lia)).
  unfold outcomes in *.
  pose proof (wrap_range 64 (stat (c_state cfg) cpu STAT_RESERVE_FAIL) ltac:(lia)).
  pose proof (wrap_range 64 (stat (c_state cfg) cpu STAT_COPY_FAIL) ltac:(lia)).
  pose proof (wrap_range 64 (stat (c_state cfg) cpu STAT_SAMPLED) ltac:(lia)). lia.
Qed.

Lemma outcomes_nonneg s cpus : 0 <= zsum (outcomes s) cpus.
Proof.
  apply zsum_nonneg_all. intros cpu. unfold outcomes. pose proof (fun z => wrap_range 64 z ltac:(lia)) as Hw.
  pose proof (Hw (stat s cpu STAT_SUBMITTED)). pose proof (Hw (stat s cpu STAT_RESERVE_FAIL)).
  pose proof (Hw (stat s cpu STAT_COPY_FAIL)). pose proof (Hw (stat s cpu STAT_SAMPLED)). lia.
Qed.

Lemma five_keys key :
  STAT_ATTEMPTED <= key <= STAT_SAMPLED → key = 0 ∨ key = 1 ∨ key = 2 ∨ key = 3 ∨ key = 4.
Proof. unfold STAT_ATTEMPTED, STAT_SAMPLED. lia. Qed.

(** ** One pass of the reader *)

Lemma aggregate_stores lookup m key :
  STAT_ATTEMPTED <= key <= STAT_SAMPLED → 0 < total_of (lookup key) →
  aggregate_producer_stats lookup m =
  {| bm_attempted := total_of (lookup 0); bm_submitted := total_of (lookup 1); bm_reserve_fail := total_of (lookup 2);
     bm_copy_fail := total_of (lookup 3); bm_sampled := total_of (lookup 4);
     bm_map_fail := bm_map_fail (aggregate_producer_stats lookup m) |}.
Proof.
  intros Hk Hp. apply Z.ltb_lt in Hp. unfold aggregate_producer_stats.
  destruct (five_keys key Hk) as [->|[->|[->|[->| ->]]]]; rewrite Hp, ?orb_true_r; done.
Qed.

Lemma aggregate_keeps lookup m :
  (∀ key, STAT_ATTEMPTED <= key <= STAT_SAMPLED → total_of (lookup key) = 0) →
  aggregate_producer_stats lookup m =
  {| bm_attempted := bm_attempted m; bm_submitted := bm_submitted m; bm_reserve_fail := bm_reserve_fail m;
     bm_copy_fail := bm_copy_fail m; bm_sampled := bm_sampled m;
     bm_map_fail := bm_map_fail (aggregate_producer_stats lookup m) |}.
Proof.
  intros Hz. unfold aggregate_producer_stats. by rewrite !Hz by (unfold STAT_ATTEMPTED, STAT_SAMPLED; lia).
Qed.

Lemma aggregate_map_fail lookup m :
  bm_map_fail (aggregate_producer_stats lookup m) =
  if existsb (fun key => is_lookup_error (lookup key)) [0; 1; 2; 3; 4; 5] then u64 (bm_map_fail m + 1) else bm_map_fail m.
Proof. unfold aggregate_producer_stats. by destruct (_ || (0 <? total_of (lookup 4))). Qed.

Lemma any_lookup_error lookup key :
  0 <= key <= 5 → lookup key = LookupError → existsb (fun key => is_lookup_error (lookup key)) [0; 1; 2; 3; 4; 5] = true.
Proof.
  intros Hk He. apply existsb_exists. exists key. rewrite He. split; [|done]. cbn. lia.
Qed.

Lemma no_lookup_error lookup :
  (∀ key, 0 <= key <= 5 → lookup key ≠ LookupError) →
  existsb (fun key => is_lookup_error (lookup key)) [0; 1; 2; 3; 4; 5] = false.
Proof.
  intros Hne. apply not_true_is_false. intros (key & Hin & He)%existsb_exists. apply (Hne key); [cbn in Hin; lia|].
  by destruct (lookup key).
Qed.

(** Attempts are outcomes over any processors that run no handler. *)
Lemma idle_processors_balanced b arch s cfg cpus :
  fresh_counters s → reachable b arch anyone anywhere (idle s) cfg →
  Forall (fun cpu => c_threads cfg cpu = None) cpus → zsum (outcomes (c_state cfg)) cpus < 2 ^ 64 →
  let total := kernel_total cpus (c_state cfg) in
  total STAT_ATTEMPTED = total STAT_SUBMITTED + total STAT_RESERVE_FAIL + total STAT_COPY_FAIL + total STAT_SAMPLED.
Proof.
  intros Hs Hr Hidle Hout total. trans (zsum (outcomes (c_state cfg)) cpus); [|by unfold outcomes, total, kernel_total; rewrite !zsum_plus].
  unfold total, kernel_total. induction Hidle as [|cpu cpus Hc _ IH]; [done|]. unfold zsum in *. cbn [foldr] in *.
  pose proof (outcomes_nonneg (c_state cfg) [cpu]) as H0. pose proof (outcomes_nonneg (c_state cfg) cpus) as H1.
  unfold zsum in H0, H1. cbn [foldr] in H0.
  rewrite IH by lia. rewrite (idle_processor_balanced b arch s cfg cpu) by (done || lia). done.
Qed.

(** What the answer for a key makes of a counter: the count itself, or 0 if the read fails. *)
Definition read_total (lookup : Z → percpu_answer) (cpus : list Z) (s : kstate) (key : Z) : Z :=
  match lookup key with Values _ => kernel_total cpus s key | _ => 0 end.

(** C31: What the kernel counts is what the metrics say of its five counters, as far as the counters can be read.
    Take any reachable state of the probes, in any interleaving, in which no handler runs on the listed processors,
    with totals that fit 64 bits, and let the reader aggregate the counters, each read of which gives the values of
    the processors or fails ([key] 5, the failed map updates, may answer anything: it is never exported). Then
    [BPF_MAP_FAIL] goes up by one exactly when one of the six lookups is an error, whatever the kernel counted; if a
    counter that was read is above zero, the exported attempts, submissions, two kinds of failures and sampled calls
    are the sums over the processors, with 0 for a counter that could not be read; if none is, they stay
    as they were. If all five can be read and there was an attempt, every attempt shown has an outcome shown (the
    sums balance; with a failed read they need not). *)
Theorem exported_stats_balance (b : bool) (arch : target_arch) (s : kstate) (cfg : config) (cpus : list Z)
    (lookup : Z → percpu_answer) (m : bpf_metrics) :
  fresh_counters s → reachable b arch anyone anywhere (idle s) cfg →
  Forall (fun cpu => c_threads cfg cpu = None) cpus →
  (∀ key, STAT_ATTEMPTED <= key <= STAT_SAMPLED → kernel_total cpus (c_state cfg) key < 2 ^ 64) → zsum (outcomes (c_state cfg)) cpus < 2 ^ 64 →
  (∀ key, STAT_ATTEMPTED <= key <= STAT_SAMPLED →
     lookup key = kernel_answer cpus (c_state cfg) key ∨ lookup key = NoKey ∨ lookup key = LookupError) →
  let total := read_total lookup cpus (c_state cfg) in
  let m' := aggregate_producer_stats lookup m in
  ((∃ key, 0 <= key <= 5 ∧ lookup key = LookupError) → bm_map_fail m' = u64 (bm_map_fail m + 1)) ∧
  ((∀ key, 0 <= key <= 5 → lookup key ≠ LookupError) → bm_map_fail m' = bm_map_fail m) ∧
  ((∃ key, STAT_ATTEMPTED <= key <= STAT_SAMPLED ∧ 0 < total key) →
     bm_attempted m' = total STAT_ATTEMPTED ∧ bm_submitted m' = total STAT_SUBMITTED ∧
     bm_reserve_fail m' = total STAT_RESERVE_FAIL ∧ bm_copy_fail m' = total STAT_COPY_FAIL ∧
     bm_sampled m' = total STAT_SAMPLED) ∧
  ((∀ key, STAT_ATTEMPTED <= key <= STAT_SAMPLED → total key = 0) →
     bm_attempted m' = bm_attempted m ∧ bm_submitted m' = bm_submitted m ∧ bm_reserve_fail m' = bm_reserve_fail m ∧
     bm_copy_fail m' = bm_copy_fail m ∧ bm_sampled m' = bm_sampled m) ∧
  ((∀ key, STAT_ATTEMPTED <= key <= STAT_SAMPLED → lookup key = kernel_answer cpus (c_state cfg) key) →
     0 < kernel_total cpus (c_state cfg) STAT_ATTEMPTED → metrics_balanced m').
Proof.
  intros Hs Hr Hidle Htot Hout Hlook total m'.
  pose proof (idle_processors_balanced b arch s cfg cpus Hs Hr Hidle Hout) as Hbal. cbv zeta in Hbal.
  assert (∀ key, STAT_ATTEMPTED <= key <= STAT_SAMPLED → total_of (lookup key) = total key) as Hread.
  { intros key Hk. unfold total, read_total. destruct (Hlook key Hk) as [->|[->| ->]]; [|done..]. by apply kernel_answer_total, Htot. }
  split_and!.
  - intros (key & Hk & He). unfold m'. rewrite aggregate_map_fail, (any_lookup_error lookup key) by done. done.
  - intros Hne. unfold m'. by rewrite aggregate_map_fail, no_lookup_error.
  - intros (key & Hk & Hpos). unfold m'. rewrite (aggregate_stores lookup m key) by (done || by rewrite Hread).
    repeat split; by apply Hread.
  - intros Hz. unfold m'. rewrite aggregate_keeps by (intros key Hk; rewrite Hread by done; by apply Hz). done.
  - intros Hall Hpos. assert (∀ key, STAT_ATTEMPTED <= key <= STAT_SAMPLED → total_of (lookup key) = kernel_total cpus (c_state cfg) key) as Htk
      by (intros key Hk; rewrite Hall by done; by apply kernel_answer_total, Htot).
    unfold m'. rewrite (aggregate_stores lookup m STAT_ATTEMPTED) by (done || by rewrite Htk). unfold metrics_balanced. cbn.
    change 0 with STAT_ATTEMPTED. change 1 with STAT_SUBMITTED. change 2 with STAT_RESERVE_FAIL.
    change 3 with STAT_COPY_FAIL. change 4 with STAT_SAMPLED. by rewrite !Htk.
Qed.

(** A write whose buffer could not be read, on processor 0; the read of the submissions fails, and counts 0. *)
Lemma exported_stats_balance_witness :
  let k := (run demo_env (handler false arch_x86 failing_write) saved_state).2 in
  let zero := Build_bpf_metrics 0 0 0 0 0 0 in
  let m := aggregate_producer_stats (kernel_answer [0; 1] k) zero in
  let m' := aggregate_producer_stats (fun key => if key =? 1 then LookupError else kernel_answer [0; 1] k key) zero in
  (bm_copy_fail m = 1 ∧ bm_map_fail m = 0 ∧ metrics_balanced m) ∧ bm_attempted m' = 1 ∧ bm_map_fail m' = 1.
Proof.
  intros k zero m m'.
  destruct (invocation_reaches false arch_x86 anyone anywhere demo_env failing_write saved_state
    (fun _ => None) Logic.I Logic.I (fun _ => eq_refl)) as (ths & Hr & Hn).
  assert (Forall (fun cpu => c_threads (Build_config k ths) cpu = None) [0; 1]) as Hidle
    by (apply Forall_cons; [apply Hn|]; apply Forall_cons; [apply Hn|apply Forall_nil]).
  assert (∀ key, STAT_ATTEMPTED <= key <= STAT_SAMPLED → kernel_total [0; 1] k key < 2 ^ 64) as Htot
    by (intros key Hk; destruct (five_keys key Hk) as [->|[->|[->|[->| ->]]]]; vm_compute; reflexivity).
  split.
  - destruct (exported_stats_balance false arch_x86 saved_state _ [0; 1] (kernel_answer [0; 1] k) zero ltac:(done) Hr Hidle Htot)
      as (_ & Hf & Hall & _ & Hb); [vm_compute; reflexivity|by left|].
    split; [|split; [exact (Hf (fun key _ => no_error _ _ key))|exact (Hb (fun key _ => eq_refl) ltac:(vm_compute; reflexivity))]].
    destruct Hall as (_ & _ & _ & Hc & _).
    { exists STAT_ATTEMPTED. split; [split; unfold STAT_ATTEMPTED, STAT_SAMPLED; lia|].
      vm_compute. reflexivity. }
    etrans; [exact Hc|vm_compute; reflexivity].
  - destruct (exported_stats_balance false arch_x86 saved_state _ [0; 1]
      (fun key => if key =? 1 then LookupError else kernel_answer [0; 1] k key) zero ltac:(done) Hr Hidle Htot)
      as (Hf & _ & Hall & _); [vm_compute; reflexivity|intros key _; case_match; [by right; right|by left]|].
    assert (0 <= 1 <= 5) as H15 by lia. split; [|exact (Hf (ex_intro _ 1 (conj H15 eq_refl)))].
    destruct Hall as (Ha & _).
    { exists STAT_ATTEMPTED. split; [split; unfold STAT_ATTEMPTED, STAT_SAMPLED; lia|].
      vm_compute. reflexivity. }
    etrans; [exact Ha|vm_compute; reflexivity].
Defined.

(** The sixth counter of the kernel, of failed map updates, never reaches the metrics. *)
Lemma map_failures_are_not_exported cpus s m n :
  bm_map_fail (aggregate_producer_stats
    (fun key => if key =? STAT_MAP_FAIL then Values [le_bytes 8 n] else kernel_answer cpus s key) m) = bm_map_fail m.
Proof. unfold aggregate_producer_stats. cbn. by case_match. Qed.
